(* ===== verification/_CoqProject ===== *)
-Q . S2P
Prelude.v
Abi.v
Prep.v
RingBuf.v
Ring.v
SqSpec.v
CqSpec.v
Kernel.v
Queue.v
QueueSpec.v
TimeoutSpec.v
Os.v
SimOs.v
Register.v
Setup.v
SetupSpec.v
Heap.v
Eta.v
Util.v
CopyState.v
FileDesc.v
Runner.v
RunnerData.v
RunnerLive.v
RunnerSpec.v
CopyQueue.v
CopyJob.v
SubmitLoop.v
Shape.v
Accounts.v
System.v
Demo.v
SystemSpec.v
Lifecycle.v
Service.v
Rounds.v
ServedFiles.v
Serving.v
Retiring.v
Starting.v
Adding.v
Finishing.v
Completing.v
Termination.v
Planning.v
ServedWorld.v
Liveness.v
Starving.v
Contents.v
Promise.v
Ledger.v
Executing.v
Entering.v
Keeping.v
KeptFiles.v
KeptRounds.v
KeptResults.v
Moves.v
Drift.v
Tracked.v
DataSystem.v
Advancing.v
DataRuns.v
DataWorld.v
Faithful.v
FileTree.v
TraverseSpec.v
TreeQueue.v
TreePaths.v
TreeWorld.v
TreeSteps.v
CopyTree.v
TreeFaithful.v
Progress.v
ProgressSpec.v
Main.v
Host.v
MainSpec.v
Owning.v
Whole.v
