(* ===== verification/Prelude.v ===== *)
(** * wcp: a verification development

    wcp copies files and directory trees through io_uring.  The repository holds the
    program, C++ under src/src/, and the C library it is built with, under
    src/liburing/.  This development models both, from the bits of a submission queue
    entry to the exit status of the program, and proves what makes each part correct.
    Where the code does not do what it means to, the theorem says what it does.

    ** The program

    main (src/src/main.cpp) calls wcpMain, which builds a copy queue and runs two other
    threads besides the main one.  The main thread walks the source tree and adds
    files: each is cut into chunks, one runner per chunk.  The submit thread starts
    runners as buffers, ring slots and descriptors allow, queues for each chunk a read
    linked to a write, submits, and handles the completions; a runner is finished,
    rescheduled for the rest of its chunk, or failed.  The last runner of a file closes
    its descriptors.  The display thread draws the progress.  join waits for them.

    ** The parts

    Foundations.  Prelude: machine integers as Z with their wrap-around written out,
    the state and error monad [prog] (a run is [Ok], a [Fault] for what aborts or is
    undefined, or [NoFuel] for a loop whose fuel ended), lists indexed by integers.

    The library, src/liburing/src/.
    - Abi, Prep: include/liburing/io_uring.h and the helpers of include/liburing.h that
      fill an entry.  Theorems: an entry decodes to its request, cut where its member is
      narrower than the parameter, and nothing of an old entry survives.
    - RingBuf, Ring, SqSpec, CqSpec: the two rings in shared memory and what is done to
      them without a system call (liburing.h, queue.c).  Theorems: the submission ring
      refines a bounded queue, the completion ring a queue, under any interleaving with
      the kernel and any wrap-around of the indices.
    - Kernel, Queue, QueueSpec, TimeoutSpec: the rest of queue.c over io_uring_enter(2).
      Theorems: submitting publishes everything in order, a wait hands out what it says.
    - Os, SimOs, Register, Setup, SetupSpec: register.c and setup.c.  Theorems: setting
      up leaks nothing on any failure, tearing down undoes it.

    The program, src/src/.
    - Heap: Heap.cpp.  Eta: ETACalculator.cpp, its doubles as IEEE binary64.  Util:
      Util.cpp and Util.hpp.  FileDesc: QueueFileDescriptor.cpp.
    - CopyState: the objects of a copy queue as a store, so that aliasing shows.
    - Runner: CopyRunner.cpp.  RunnerData: its data path run by a kernel that may
      return short counts and errors; a chunk is copied exactly.  RunnerSpec: the
      operations of Runner refine that data path.  RunnerLive: progress.
    - CopyQueue: addFileCopy, addCopyJob and submitLoop of CopyQueue.cpp.  CopyJob: a job
      partitions its file.  SubmitLoop: the end of a runner's life.
    - Shape, Accounts, System, SystemSpec: the main and the submit thread as a step
      relation over their critical sections.  No runner is lost, no pointer dangles, no
      buffer has two owners, and a submit thread that returns has released everything.
    - Lifecycle: the constructor, the destructors, start, join and exitProcess.
    - Service to Liveness: a copy ends.  Service states the laws of a world that opens
      every file and serves every request ([ServiceLaws]); Rounds is a round of a runner
      in it; ServedFiles, Serving, Retiring, Starting, Adding, Finishing, Completing and
      Planning carry the state of the submit thread through its operations, one file per
      stage; Termination is the loop, Liveness the theorem for files added in any
      interleaving with the loop and then joined.  ServedWorld is a world that meets the
      laws.  Starving: what happens when files cannot be opened.
    - Contents to Faithful: what the destinations hold.  Contents gives a world files with
      bytes, the memory of the process, and the requests in flight, and states what
      open(2), close(2) and io_uring_enter(2) do to them ([ContentLaws]): a kernel may
      complete requests in any order, return short counts and errors, and post late.  It
      also cuts the files to copy into pieces.  Promise is what one linked read and write
      owe their chunk; Ledger the requests of a whole queue as tasks; Executing and
      Entering the kernel's side of it.  Keeping states the invariant [queue_kept]; KeptFiles,
      KeptRounds and KeptResults prove it of opening and adding files, of starting a
      round, and of completions.  Moves lists what every operation of the submit thread
      is made of, so that a relation these have is kept by all of them; Drift and Tracked
      use it for errors, which do not vanish, and for descriptors of directories.
      DataSystem is System with the files fixed, Advancing its invariant, DataRuns the
      functions of the code as its steps, Faithful the theorem: if no error was reported,
      every destination has its length and its bytes.  DataWorld is a drive that meets the laws.
    - FileTree, TraverseSpec, TreeQueue, CopyTree: addRecursiveCopy and the directory
      functions of Util.cpp.  FileTree states what the traversal asks of a file system
      (class [Tree]) and of the copy queue (class [Sink]); TraverseSpec proves it against
      the laws of both; TreeQueue discharges those of the copy queue.  The result: the
      queue holds the runners of every file of the tree and no others.
    - TreePaths, TreeSteps, TreeFaithful: the two together.  The paths of a tree differ;
      the traversal is steps of DataSystem, and the other threads, which open and close
      no directory, do not disturb it; so a tree that was copied without an error
      arrived, every file with its length and its bytes.
    - Progress, ProgressSpec: showProgressLoop of CopyQueue.cpp.
    - Main, MainSpec: wcpMain.cpp.  The exit status is 0 only if nothing was reported.
    - Owning, Whole: everything the main thread does is steps of System, so that a copy
      that was joined leaves no object, buffer or request behind, and the destructors give
      back all the process took.  Owning counts the descriptors: each step of a copy opens
      only what an object holds then, so that without objects none is left open.
    - Demo, TreeWorld, Host: concrete kernels and file systems.  The witnesses evaluate
      the definitions on them; Host runs wcpMain from the arguments to the exit status.

    ** Conventions

    A function of the source is a definition of the same name; a lambda or a loop of it
    has a name of its own, given in its comment.  A function that mutates objects is a
    [prog] over the record that holds them.  A pointer is an address; a pointer to an
    object of the copy queue is a key of a map.  Code outside the repository is a
    parameter: the classes [Kernel], [Os], [Files], [Tree] and [Host] list the calls,
    and their laws ([KernelLaws], [OsLaws], [TreeLaws], [ContentLaws], [TreeContents],
    [SharedWorld], [HostLaws]) state what the manual pages say, each with an instance that meets them.
    An [Error] is the case that made it: the wording of the messages is left out.  A
    debug_assert is an assertion, as in a debug build.

    ** Threads

    An atomic is one step, a critical section is one step.  The heap and the
    descriptor counter take what other threads do between a load and a compare-and-swap
    as an argument; the bitset of the estimator interleaves the accesses of its callers.  System interleaves the main and the submit
    thread freely, and its theorems hold of every schedule; DataSystem adds the kernel,
    which may execute requests at any time.  join and wcpMain are also functions, for one
    schedule: the submit thread runs when join waits for it, and the display stops after
    it; what the display can see between the deletion of a runner and the report of its
    error is [error_reported_too_late].

    ** Fuel

    A loop with a bound in its state is structural or has that bound as fuel: the
    retries have five rounds, the peek one more than there are completions, the search
    of the heap one per block.  The others take fuel as an argument, and their theorems
    say how much is enough: the number of chunks for [addCopyJob], the entries and
    directories of the tree for [addRecursiveCopy], the width of the line for
    [centreAlign].  The loops of the submit thread end when the kernel completes its
    requests, which nothing obliges it to: of an arbitrary kernel a theorem about the
    result is stated of a run that returned, and of one that serves every request
    [copy_terminates] gives the rounds that are enough, four per chunk.  A loop
    that does not end is proved not to: it is [NoFuel] for every fuel.

    ** Not modelled

    src/src/acutest.h is a vendored test framework, src/src/tests.cpp and
    src/liburing/test/ are tests, src/liburing/examples/ are demonstrations.
    barrier.h is the compiler's atomics: steps are sequentially consistent, so weak
    memory is not covered.  The creation of threads and their mutexes are the steps they
    guard.  The branches of the constants that are false (DEBUG_COPY_OPS, VALGRIND_MODE,
    PROGRESS_DEBUG_SIMPLE, TEST_ETA_CALCULATION) are left out, as are the
    mutexes' destruction and the threads that a [return] before [join] leaves behind.

    ** Limits

    In Contents and after it a file is its path: hard links, a destination that is a
    link, and files renamed or changed by others meanwhile are not covered; the kernel
    takes the entries of a chain together, and a read or write that failed left no trace.
    In [tree_arrives] the submit thread and the kernel work between the calls of the
    traversal, of which the addition of a file is one; [copies_are_faithful] has them
    work between the chunks of a file too. *)

From stdpp Require Export base tactics list numbers option.
From Stdlib Require Export ZArith Lia.

#[global] Open Scope Z_scope.

(** ** Machine integers

    A [w]-bit unsigned C integer is a [Z] in [0, 2^w); every arithmetic
    operation of the source that can leave the range is followed by the
    reduction below.  Signed [w]-bit values are the two's complement reading. *)

Definition wrap (w : Z) (x : Z) : Z := x mod 2 ^ w.

Definition sext (w : Z) (x : Z) : Z :=
  let r := x mod 2 ^ w in if r <? 2 ^ (w - 1) then r else r - 2 ^ w.

Abbreviation u8 := (wrap 8).
Abbreviation u16 := (wrap 16).
Abbreviation u32 := (wrap 32).
Abbreviation u64 := (wrap 64).
Abbreviation s32 := (sext 32).
Abbreviation s64 := (sext 64).

(** [in_u w x]: [x] is representable in [w] unsigned bits. *)
Definition in_u (w x : Z) : Prop := 0 <= x < 2 ^ w.

Definition in_s (w x : Z) : Prop := - 2 ^ (w - 1) <= x < 2 ^ (w - 1).

(** ** Results of computations that can go wrong

    [Fault] collects what the source leaves undefined or turns into an abort:
    an access outside an array, a null dereference, a failed [release_assert], a
    conversion of a value its type cannot hold.
    [NoFuel] is the artefact of running an unbounded loop with a finite fuel;
    it is kept apart so that no theorem can confuse it with a result. *)

Inductive fault : Type :=
  | OutOfBounds
  | NullDeref
  | AssertFailed
  | Undefined.

Inductive res (A : Type) : Type :=
  | Ok (a : A)
  | Fault (f : fault)
  | NoFuel.
Arguments Ok {A} a.
Arguments Fault {A} f.
Arguments NoFuel {A}.

(** A stateful computation over [S]. *)
Definition prog (S A : Type) : Type := S -> res (A * S).

Definition ret {S A} (a : A) : prog S A := fun s => Ok (a, s).

Definition bind {S A B} (c : prog S A) (k : A -> prog S B) : prog S B :=
  fun s =>
    match c s with
    | Ok (a, s') => k a s'
    | Fault f => Fault f
    | NoFuel => NoFuel
    end.

Definition get {S} : prog S S := fun s => Ok (s, s).
Definition put {S} (s : S) : prog S unit := fun _ => Ok (tt, s).
Definition gets {S A} (f : S -> A) : prog S A := fun s => Ok (f s, s).
Definition modify {S} (f : S -> S) : prog S unit := fun s => Ok (tt, f s).
Definition raise {S A} (f : fault) : prog S A := fun _ => Fault f.
Definition no_fuel {S A} : prog S A := fun _ => NoFuel.
Definition assert {S} (b : bool) : prog S unit :=
  fun s => if b then Ok (tt, s) else Fault AssertFailed.

Declare Scope prog_scope.
Delimit Scope prog_scope with prog.
Notation "'let*' x ':=' c 'in' k" := (bind c (fun x => k))
  (at level 10, x pattern, c at level 100, k at level 200,
   format "'[hv' 'let*'  x  ':='  c  'in' '//' k ']'") : prog_scope.
Notation "'do*' c 'in' k" := (bind c (fun _ => k))
  (at level 10, c at level 100, k at level 200,
   format "'[hv' 'do*'  c  'in' '//' k ']'") : prog_scope.
#[global] Open Scope prog_scope.

Lemma bind_ok {S A B} (c : prog S A) (k : A -> prog S B) s a s' :
  c s = Ok (a, s') -> bind c k s = k a s'.
Proof. intros H. unfold bind. by rewrite H. Qed.

Lemma bind_inv {S A B} (c : prog S A) (k : A -> prog S B) s r :
  bind c k s = Ok r -> exists a s', c s = Ok (a, s') /\ k a s' = Ok r.
Proof. unfold bind. destruct (c s) as [[a s']| |] eqn:?; naive_solver. Qed.

(** ** Arrays with C indices

    Reads and writes outside the array are undefined behaviour: [None]. *)

Definition zget {A} (l : list A) (i : Z) : option A :=
  if i <? 0 then None else l !! Z.to_nat i.

Definition zset {A} (l : list A) (i : Z) (a : A) : option (list A) :=
  if (i <? 0) || (Z.of_nat (length l) <=? i) then None
  else Some (<[Z.to_nat i := a]> l).

Definition zlen {A} (l : list A) : Z := Z.of_nat (length l).

Lemma if_negb {A} b (x y : A) : (if negb b then x else y) = if b then y else x.
Proof. by destruct b. Qed.

(** ** Wrap-around arithmetic *)

Lemma pow2_pos w : 0 <= w -> 0 < 2 ^ w.
Proof. intros. by apply Z.pow_pos_nonneg. Qed.

Lemma wrap_range w x : 0 <= w -> 0 <= wrap w x < 2 ^ w.
Proof. intros. apply Z.mod_pos_bound, pow2_pos; lia. Qed.

Lemma wrap_small w x : in_u w x -> wrap w x = x.
Proof. intros. by apply Z.mod_small. Qed.

Lemma wrap_wrap w x : wrap w (wrap w x) = wrap w x.
Proof. unfold wrap. by rewrite Zmod_mod. Qed.

Lemma wrap_add_l w x y : wrap w (wrap w x + y) = wrap w (x + y).
Proof. unfold wrap. by rewrite Zplus_mod_idemp_l. Qed.

Lemma wrap_add_r w x y : wrap w (x + wrap w y) = wrap w (x + y).
Proof. unfold wrap. by rewrite Zplus_mod_idemp_r. Qed.

Lemma wrap_sub_l w x y : wrap w (wrap w x - y) = wrap w (x - y).
Proof. unfold wrap. by rewrite Zminus_mod_idemp_l. Qed.

Lemma wrap_sub_r w x y : wrap w (x - wrap w y) = wrap w (x - y).
Proof. unfold wrap. by rewrite Zminus_mod_idemp_r. Qed.

Create Rewrite HintDb wrapdb.
#[export] Hint Rewrite wrap_wrap wrap_add_l wrap_add_r wrap_sub_l wrap_sub_r : wrapdb.

Lemma sext_range w x : 0 < w -> in_s w (sext w x).
Proof.
  intros Hw. unfold sext, in_s.
  assert (2 ^ w = 2 * 2 ^ (w - 1)) as E.
  { rewrite <- Z.pow_succ_r by lia. f_equal. lia. }
  pose proof (Z.mod_pos_bound x (2 ^ w) ltac:(apply pow2_pos; lia)).
  destruct (Z.ltb_spec (x mod 2 ^ w) (2 ^ (w - 1))); lia.
Qed.

Lemma sext_small w x : 0 < w -> in_s w x -> sext w x = x.
Proof.
  intros Hw [H1 H2]. unfold sext.
  assert (2 ^ w = 2 * 2 ^ (w - 1)) as E.
  { rewrite <- Z.pow_succ_r by lia. f_equal. lia. }
  destruct (Z_lt_le_dec x 0).
  - replace (x mod 2 ^ w) with (x + 2 ^ w).
    + destruct (Z.ltb_spec (x + 2 ^ w) (2 ^ (w - 1))); lia.
    + rewrite <- (Z.mod_small (x + 2 ^ w) (2 ^ w)) by lia.
      rewrite <- (Z_mod_plus_full x 1 (2 ^ w)). f_equal. lia.
  - rewrite Z.mod_small by lia.
    destruct (Z.ltb_spec x (2 ^ (w - 1))); lia.
Qed.

(** A power-of-two mask is a remainder. *)
Lemma land_mask k x : 0 <= k -> Z.land x (2 ^ k - 1) = x mod 2 ^ k.
Proof.
  intros. replace (2 ^ k - 1) with (Z.ones k) by (rewrite Z.ones_equiv; lia).
  by apply Z.land_ones.
Qed.

(** Masking looks only at the low bits, so it sees through a wider wrap. *)
Lemma wrap_mod_pow2 w k x : 0 <= k <= w -> wrap w x mod 2 ^ k = x mod 2 ^ k.
Proof.
  intros. unfold wrap.
  replace w with (k + (w - k)) by lia. rewrite Z.pow_add_r by lia.
  rewrite Z.rem_mul_r by (apply pow2_pos || (pose proof (pow2_pos k); lia); lia).
  rewrite Z.mul_comm, Z_mod_plus_full. apply Zmod_mod.
Qed.

(** Indices less than one lap apart fall on different slots. *)
Lemma mod_inj_window n x i j :
  0 < n -> 0 <= i < n -> 0 <= j < n ->
  (x + i) mod n = (x + j) mod n -> i = j.
Proof.
  intros Hn Hi Hj E.
  assert ((i - j) mod n = 0) as Hd.
  { replace (i - j) with ((x + i) - (x + j)) by lia.
    rewrite Zminus_mod, E, Z.sub_diag. apply Z.mod_0_l. lia. }
  apply Z.mod_divide in Hd as [q Hq]; [|lia].
  assert (q = 0) by nia. lia.
Qed.

(** ** Array lemmas *)

Section arrays.
Context {A : Type}.
Implicit Types (l : list A) (a : A).

Lemma zget_in l i : 0 <= i < zlen l -> exists a, zget l i = Some a.
Proof.
  unfold zlen, zget. intros. destruct (Z.ltb_spec i 0); [lia|].
  apply lookup_lt_is_Some. lia.
Qed.

Lemma zset_in l i a : 0 <= i < zlen l -> zset l i a = Some (<[Z.to_nat i := a]> l).
Proof.
  unfold zlen, zset. intros.
  destruct (Z.ltb_spec i 0); [lia|]. destruct (Z.leb_spec (Z.of_nat (length l)) i); [lia|done].
Qed.

Lemma zget_set_eq l i a : 0 <= i < zlen l -> zget (<[Z.to_nat i := a]> l) i = Some a.
Proof.
  unfold zlen, zget. intros. destruct (Z.ltb_spec i 0); [lia|].
  apply list_lookup_insert_eq. lia.
Qed.

Lemma zget_set_ne l i j a :
  0 <= i -> i <> j -> zget (<[Z.to_nat i := a]> l) j = zget l j.
Proof.
  unfold zget. intros. destruct (Z.ltb_spec j 0); [done|].
  apply list_lookup_insert_ne. lia.
Qed.

Lemma zlen_app (l1 l2 : list A) : zlen (l1 ++ l2) = zlen l1 + zlen l2.
Proof. unfold zlen. rewrite length_app. lia. Qed.

Lemma zlen_insert l i a : zlen (<[i := a]> l) = zlen l.
Proof. unfold zlen. by rewrite length_insert. Qed.
End arrays.
#[export] Hint Rewrite @zlen_insert : wrapdb.

(** Integer intervals as lists: [zseq a n] is [a, a+1, ..., a+n-1]. *)
Definition zseq (a : Z) (n : nat) : list Z := (fun k : nat => a + Z.of_nat k) <$> seq 0 n.

Arguments zseq : simpl never.

Lemma zseq_length a n : length (zseq a n) = n.
Proof. unfold zseq. by rewrite length_fmap, length_seq. Qed.

Lemma zseq_S a n : zseq a (S n) = a :: zseq (a + 1) n.
Proof.
  unfold zseq. rewrite <- cons_seq, fmap_cons. f_equal; [lia|].
  rewrite <- (fmap_S_seq 0 n), <- list_fmap_compose.
  apply list_fmap_ext. intros. simpl. lia.
Qed.

Lemma zseq_snoc a n : zseq a (S n) = zseq a n ++ [a + Z.of_nat n].
Proof. unfold zseq. by rewrite seq_S, fmap_app. Qed.

Lemma zseq_app a n m : zseq a (n + m) = zseq a n ++ zseq (a + Z.of_nat n) m.
Proof.
  revert a. induction n as [|n IH]; intros a.
  - by rewrite Z.add_0_r.
  - rewrite Nat.add_succ_l, !zseq_S, IH, <- app_comm_cons.
    by replace (a + 1 + Z.of_nat n) with (a + Z.of_nat (S n)) by lia.
Qed.

Lemma zget_zseq a n i : 0 <= i < Z.of_nat n -> zget (zseq a n) i = Some (a + i).
Proof.
  intros Hi. unfold zget, zseq. destruct (Z.ltb_spec i 0); [lia|].
  rewrite list_lookup_fmap, lookup_seq_lt by lia. cbn. f_equal. lia.
Qed.

Lemma zget_map {A B} (f : A -> B) l i : zget (map f l) i = f <$> zget l i.
Proof. unfold zget. destruct (i <? 0); [done|]. apply list_lookup_fmap. Qed.

Lemma zget_range {A} (l : list A) i a : zget l i = Some a -> 0 <= i < zlen l.
Proof.
  unfold zget, zlen. destruct (Z.ltb_spec i 0); [done|]. intros H1%lookup_lt_Some. lia.
Qed.

Lemma elem_of_zseq a n x : x ∈ zseq a n <-> a <= x < a + Z.of_nat n.
Proof.
  unfold zseq. rewrite list_elem_of_fmap. split.
  - intros (k & -> & Hk). apply elem_of_seq in Hk. lia.
  - intros H. exists (Z.to_nat (x - a)). rewrite elem_of_seq. lia.
Qed.

(** ** Tactics *)

(** Turn the boolean tests of the source into propositions, then [lia]. *)
Ltac bools :=
  repeat match goal with
  | H : _ && _ = true |- _ => apply andb_prop in H; destruct H
  | H : _ || _ = false |- _ => apply orb_false_elim in H; destruct H
  | H : (_ <? _) = true |- _ => apply Z.ltb_lt in H
  | H : (_ <? _) = false |- _ => apply Z.ltb_ge in H
  | H : (_ <=? _) = true |- _ => apply Z.leb_le in H
  | H : (_ <=? _) = false |- _ => apply Z.leb_gt in H
  | H : (_ =? _) = true |- _ => apply Z.eqb_eq in H
  | H : (_ =? _) = false |- _ => apply Z.eqb_neq in H
  | H : negb _ = true |- _ => apply negb_true_iff in H
  | H : negb _ = false |- _ => apply negb_false_iff in H
  end.

(** Case split on the integer test of the goal. *)
Ltac case_z :=
  match goal with
  | |- context [ ?a <? ?b ] => destruct (Z.ltb_spec a b)
  | |- context [ ?a <=? ?b ] => destruct (Z.leb_spec a b)
  | |- context [ ?a =? ?b ] => destruct (Z.eqb_spec a b)
  end.

(** Normalise nested wraps. *)
Ltac wsimpl := autorewrite with wrapdb in *.
