(* ===== verification/Abi.v ===== *)
(** * The io_uring ABI (src/liburing/src/include/liburing/io_uring.h)

    The structures and constants shared with the kernel: submission and
    completion entries, the request opcodes, the ring offsets and parameters,
    the register opcodes and their argument structures. *)

From S2P Require Import Prelude.

(** ** Bit fields of a little-endian word

    The anonymous structs inside [io_uring_sqe] overlay [__pad2]; a member of
    width [w] at bit [lo] is read and written through these. *)

Definition get_bits (lo w p : Z) : Z := wrap w (Z.shiftr p lo).

Definition set_bits (lo w v p : Z) : Z :=
  Z.lor (Z.ldiff p (Z.shiftl (Z.ones w) lo)) (Z.shiftl (wrap w v) lo).

Lemma testbit_wrap w x i : 0 <= w -> 0 <= i ->
  Z.testbit (wrap w x) i = (i <? w) && Z.testbit x i.
Proof.
  intros. unfold wrap. destruct (Z.ltb_spec i w).
  - by rewrite Z.mod_pow2_bits_low by lia.
  - by rewrite Z.mod_pow2_bits_high by lia.
Qed.

Lemma get_set_bits lo w v p :
  0 <= lo -> 0 <= w -> get_bits lo w (set_bits lo w v p) = wrap w v.
Proof.
  intros Hlo Hw. apply Z.bits_inj'. intros i Hi. unfold get_bits, set_bits.
  rewrite !testbit_wrap, Z.shiftr_spec, Z.lor_spec, Z.ldiff_spec by lia.
  rewrite !Z.shiftl_spec by lia. replace (i + lo - lo) with i by lia.
  rewrite Z.testbit_ones, testbit_wrap by lia.
  destruct (Z.leb_spec 0 i), (Z.ltb_spec i w), (Z.testbit p (i + lo)); simpl; try lia; done.
Qed.

Lemma get_set_bits_disjoint lo w lo' w' v p :
  0 <= lo -> 0 <= w -> 0 <= lo' -> 0 <= w' -> lo + w <= lo' \/ lo' + w' <= lo ->
  get_bits lo w (set_bits lo' w' v p) = get_bits lo w p.
Proof.
  intros Hlo Hw Hlo' Hw' Hd. apply Z.bits_inj'. intros i Hi. unfold get_bits, set_bits.
  rewrite !testbit_wrap, !Z.shiftr_spec, Z.lor_spec, Z.ldiff_spec by lia.
  destruct (Z.ltb_spec i w); [|done]. simpl.
  rewrite !Z.shiftl_spec by lia. destruct (Z_lt_le_dec (i + lo - lo') 0).
  - rewrite (Z.testbit_neg_r (Z.ones _)), (Z.testbit_neg_r (wrap _ _)) by lia.
    simpl. by rewrite andb_true_r, orb_false_r.
  - rewrite Z.testbit_ones, testbit_wrap by lia.
    destruct (Z.leb_spec 0 (i + lo - lo')), (Z.ltb_spec (i + lo - lo') w'),
      (Z.testbit p (i + lo)); simpl; try lia; done.
Qed.

(** ** Submission queue entry *)

(** [struct io_uring_sqe], one field per member of the union that names it:
    [sqe_off] is [off]/[addr2], [sqe_addr] is [addr]/[splice_off_in],
    [sqe_op_flags] the 32-bit union that starts with [rw_flags]. *)
Record io_uring_sqe : Type := mk_sqe {
  sqe_opcode : Z;
  sqe_flags : Z;
  sqe_ioprio : Z;
  sqe_fd : Z;
  sqe_off : Z;
  sqe_addr : Z;
  sqe_len : Z;
  sqe_op_flags : Z;
  sqe_user_data : Z;
  sqe_pad2_0 : Z;
  sqe_pad2_1 : Z;
  sqe_pad2_2 : Z;
}.

(** Members packed into the first word of [__pad2]. *)
Definition sqe_buf_index (s : io_uring_sqe) : Z := get_bits 0 16 (sqe_pad2_0 s).
Definition sqe_personality (s : io_uring_sqe) : Z := get_bits 16 16 (sqe_pad2_0 s).
Definition sqe_splice_fd_in (s : io_uring_sqe) : Z := s32 (get_bits 32 32 (sqe_pad2_0 s)).

(** A zero-filled entry, as the kernel maps it. *)
Definition zero_sqe : io_uring_sqe := mk_sqe 0 0 0 0 0 0 0 0 0 0 0 0.

(** Completion queue entry. *)
Record io_uring_cqe : Type := mk_cqe {
  cqe_user_data : Z;
  cqe_res : Z;
  cqe_flags : Z;
}.

Definition zero_cqe : io_uring_cqe := mk_cqe 0 0 0.

#[export] Instance io_uring_sqe_eq_dec : EqDecision io_uring_sqe.
Proof. solve_decision. Defined.
#[export] Instance io_uring_cqe_eq_dec : EqDecision io_uring_cqe.
Proof. solve_decision. Defined.

(** ** Flags *)

Definition IOSQE_FIXED_FILE_BIT : Z := 0.
Definition IOSQE_IO_DRAIN_BIT : Z := 1.
Definition IOSQE_IO_LINK_BIT : Z := 2.
Definition IOSQE_IO_HARDLINK_BIT : Z := 3.
Definition IOSQE_ASYNC_BIT : Z := 4.
Definition IOSQE_BUFFER_SELECT_BIT : Z := 5.

Definition IOSQE_FIXED_FILE : Z := Z.shiftl 1 IOSQE_FIXED_FILE_BIT.
Definition IOSQE_IO_DRAIN : Z := Z.shiftl 1 IOSQE_IO_DRAIN_BIT.
Definition IOSQE_IO_LINK : Z := Z.shiftl 1 IOSQE_IO_LINK_BIT.
Definition IOSQE_IO_HARDLINK : Z := Z.shiftl 1 IOSQE_IO_HARDLINK_BIT.
Definition IOSQE_ASYNC : Z := Z.shiftl 1 IOSQE_ASYNC_BIT.
Definition IOSQE_BUFFER_SELECT : Z := Z.shiftl 1 IOSQE_BUFFER_SELECT_BIT.

Definition IORING_SETUP_IOPOLL : Z := Z.shiftl 1 0.
Definition IORING_SETUP_SQPOLL : Z := Z.shiftl 1 1.
Definition IORING_SETUP_SQ_AFF : Z := Z.shiftl 1 2.
Definition IORING_SETUP_CQSIZE : Z := Z.shiftl 1 3.
Definition IORING_SETUP_CLAMP : Z := Z.shiftl 1 4.
Definition IORING_SETUP_ATTACH_WQ : Z := Z.shiftl 1 5.
Definition IORING_SETUP_R_DISABLED : Z := Z.shiftl 1 6.

Definition IORING_FSYNC_DATASYNC : Z := Z.shiftl 1 0.
Definition IORING_TIMEOUT_ABS : Z := Z.shiftl 1 0.
Definition IORING_TIMEOUT_UPDATE : Z := Z.shiftl 1 1.
Definition SPLICE_F_FD_IN_FIXED : Z := Z.shiftl 1 31.

Definition IORING_CQE_F_BUFFER : Z := Z.shiftl 1 0.
Definition IORING_CQE_BUFFER_SHIFT : Z := 16.

Definition IORING_OFF_SQ_RING : Z := 0.
Definition IORING_OFF_CQ_RING : Z := 0x8000000.
Definition IORING_OFF_SQES : Z := 0x10000000.

Definition IORING_SQ_NEED_WAKEUP : Z := Z.shiftl 1 0.
Definition IORING_SQ_CQ_OVERFLOW : Z := Z.shiftl 1 1.
Definition IORING_CQ_EVENTFD_DISABLED : Z := Z.shiftl 1 0.

Definition IORING_ENTER_GETEVENTS : Z := Z.shiftl 1 0.
Definition IORING_ENTER_SQ_WAKEUP : Z := Z.shiftl 1 1.
Definition IORING_ENTER_SQ_WAIT : Z := Z.shiftl 1 2.
Definition IORING_ENTER_EXT_ARG : Z := Z.shiftl 1 3.

Definition IORING_FEAT_SINGLE_MMAP : Z := Z.shiftl 1 0.
Definition IORING_FEAT_NODROP : Z := Z.shiftl 1 1.
Definition IORING_FEAT_SUBMIT_STABLE : Z := Z.shiftl 1 2.
Definition IORING_FEAT_RW_CUR_POS : Z := Z.shiftl 1 3.
Definition IORING_FEAT_CUR_PERSONALITY : Z := Z.shiftl 1 4.
Definition IORING_FEAT_FAST_POLL : Z := Z.shiftl 1 5.
Definition IORING_FEAT_POLL_32BITS : Z := Z.shiftl 1 6.
Definition IORING_FEAT_SQPOLL_NONFIXED : Z := Z.shiftl 1 7.
Definition IORING_FEAT_EXT_ARG : Z := Z.shiftl 1 8.

Definition IO_URING_OP_SUPPORTED : Z := Z.shiftl 1 0.

(** [flag_set x f]: the C condition [x & f]. *)
Definition flag_set (x f : Z) : bool := negb (Z.land x f =? 0).

(** ** Request opcodes *)

Inductive io_uring_op : Type :=
  | IORING_OP_NOP
  | IORING_OP_READV
  | IORING_OP_WRITEV
  | IORING_OP_FSYNC
  | IORING_OP_READ_FIXED
  | IORING_OP_WRITE_FIXED
  | IORING_OP_POLL_ADD
  | IORING_OP_POLL_REMOVE
  | IORING_OP_SYNC_FILE_RANGE
  | IORING_OP_SENDMSG
  | IORING_OP_RECVMSG
  | IORING_OP_TIMEOUT
  | IORING_OP_TIMEOUT_REMOVE
  | IORING_OP_ACCEPT
  | IORING_OP_ASYNC_CANCEL
  | IORING_OP_LINK_TIMEOUT
  | IORING_OP_CONNECT
  | IORING_OP_FALLOCATE
  | IORING_OP_OPENAT
  | IORING_OP_CLOSE
  | IORING_OP_FILES_UPDATE
  | IORING_OP_STATX
  | IORING_OP_READ
  | IORING_OP_WRITE
  | IORING_OP_FADVISE
  | IORING_OP_MADVISE
  | IORING_OP_SEND
  | IORING_OP_RECV
  | IORING_OP_OPENAT2
  | IORING_OP_EPOLL_CTL
  | IORING_OP_SPLICE
  | IORING_OP_PROVIDE_BUFFERS
  | IORING_OP_REMOVE_BUFFERS
  | IORING_OP_TEE
  | IORING_OP_SHUTDOWN
  | IORING_OP_RENAMEAT
  | IORING_OP_UNLINKAT.

#[export] Instance io_uring_op_eq_dec : EqDecision io_uring_op.
Proof. solve_decision. Defined.

(** The enumeration in declaration order: a C enumerator's value is its index. *)
Definition all_ops : list io_uring_op :=
  [ IORING_OP_NOP; IORING_OP_READV; IORING_OP_WRITEV; IORING_OP_FSYNC;
    IORING_OP_READ_FIXED; IORING_OP_WRITE_FIXED; IORING_OP_POLL_ADD;
    IORING_OP_POLL_REMOVE; IORING_OP_SYNC_FILE_RANGE; IORING_OP_SENDMSG;
    IORING_OP_RECVMSG; IORING_OP_TIMEOUT; IORING_OP_TIMEOUT_REMOVE;
    IORING_OP_ACCEPT; IORING_OP_ASYNC_CANCEL; IORING_OP_LINK_TIMEOUT;
    IORING_OP_CONNECT; IORING_OP_FALLOCATE; IORING_OP_OPENAT; IORING_OP_CLOSE;
    IORING_OP_FILES_UPDATE; IORING_OP_STATX; IORING_OP_READ; IORING_OP_WRITE;
    IORING_OP_FADVISE; IORING_OP_MADVISE; IORING_OP_SEND; IORING_OP_RECV;
    IORING_OP_OPENAT2; IORING_OP_EPOLL_CTL; IORING_OP_SPLICE;
    IORING_OP_PROVIDE_BUFFERS; IORING_OP_REMOVE_BUFFERS; IORING_OP_TEE;
    IORING_OP_SHUTDOWN; IORING_OP_RENAMEAT; IORING_OP_UNLINKAT ].

Definition IORING_OP_LAST : Z := zlen all_ops.

Definition op_code (op : io_uring_op) : Z :=
  match list_find (fun o => o = op) all_ops with
  | Some (i, _) => Z.of_nat i
  | None => IORING_OP_LAST
  end.

Definition op_of_code (c : Z) : option io_uring_op := zget all_ops c.

Lemma op_of_code_code op : op_of_code (op_code op) = Some op.
Proof. by destruct op. Qed.

Lemma op_code_range op : 0 <= op_code op < 256.
Proof. destruct op; by vm_compute. Qed.
#[export] Hint Rewrite op_of_code_code : wrapdb.

(** ** Setup parameters *)

Record io_sqring_offsets : Type := mk_sq_off {
  sqo_head : Z; sqo_tail : Z; sqo_ring_mask : Z; sqo_ring_entries : Z;
  sqo_flags : Z; sqo_dropped : Z; sqo_array : Z; sqo_resv1 : Z; sqo_resv2 : Z;
}.

Record io_cqring_offsets : Type := mk_cq_off {
  cqo_head : Z; cqo_tail : Z; cqo_ring_mask : Z; cqo_ring_entries : Z;
  cqo_overflow : Z; cqo_cqes : Z; cqo_flags : Z; cqo_resv1 : Z; cqo_resv2 : Z;
}.

Record io_uring_params : Type := mk_params {
  p_sq_entries : Z; p_cq_entries : Z; p_flags : Z; p_sq_thread_cpu : Z;
  p_sq_thread_idle : Z; p_features : Z; p_wq_fd : Z;
  p_sq_off : io_sqring_offsets;
  p_cq_off : io_cqring_offsets;
}.

(** ** io_uring_register(2) *)

Inductive io_uring_register_op : Type :=
  | IORING_REGISTER_BUFFERS
  | IORING_UNREGISTER_BUFFERS
  | IORING_REGISTER_FILES
  | IORING_UNREGISTER_FILES
  | IORING_REGISTER_EVENTFD
  | IORING_UNREGISTER_EVENTFD
  | IORING_REGISTER_FILES_UPDATE
  | IORING_REGISTER_EVENTFD_ASYNC
  | IORING_REGISTER_PROBE
  | IORING_REGISTER_PERSONALITY
  | IORING_UNREGISTER_PERSONALITY
  | IORING_REGISTER_RESTRICTIONS
  | IORING_REGISTER_ENABLE_RINGS.

Definition register_code (op : io_uring_register_op) : Z :=
  match op with
  | IORING_REGISTER_BUFFERS => 0
  | IORING_UNREGISTER_BUFFERS => 1
  | IORING_REGISTER_FILES => 2
  | IORING_UNREGISTER_FILES => 3
  | IORING_REGISTER_EVENTFD => 4
  | IORING_UNREGISTER_EVENTFD => 5
  | IORING_REGISTER_FILES_UPDATE => 6
  | IORING_REGISTER_EVENTFD_ASYNC => 7
  | IORING_REGISTER_PROBE => 8
  | IORING_REGISTER_PERSONALITY => 9
  | IORING_UNREGISTER_PERSONALITY => 10
  | IORING_REGISTER_RESTRICTIONS => 11
  | IORING_REGISTER_ENABLE_RINGS => 12
  end.

Record io_uring_files_update : Type := mk_files_update {
  fu_offset : Z; fu_resv : Z; fu_fds : Z;
}.

Record io_uring_probe_op : Type := mk_probe_op {
  po_op : Z; po_resv : Z; po_flags : Z; po_resv2 : Z;
}.

Record io_uring_probe : Type := mk_probe {
  pr_last_op : Z; pr_ops_len : Z; pr_ops : list io_uring_probe_op;
}.

(** The union of the opcode or flags restricted is one byte. *)
Record io_uring_restriction : Type := mk_restriction {
  rs_opcode : Z; rs_op : Z; rs_resv : Z; rs_resv2 : Z;
}.

(** What a restriction restricts. *)
Inductive restriction_op : Type :=
  | IORING_RESTRICTION_REGISTER_OP
  | IORING_RESTRICTION_SQE_OP
  | IORING_RESTRICTION_SQE_FLAGS_ALLOWED
  | IORING_RESTRICTION_SQE_FLAGS_REQUIRED.

Definition restriction_code (op : restriction_op) : Z :=
  match op with
  | IORING_RESTRICTION_REGISTER_OP => 0
  | IORING_RESTRICTION_SQE_OP => 1
  | IORING_RESTRICTION_SQE_FLAGS_ALLOWED => 2
  | IORING_RESTRICTION_SQE_FLAGS_REQUIRED => 3
  end.

Record io_uring_getevents_arg : Type := mk_getevents_arg {
  ga_sigmask : Z; ga_sigmask_sz : Z; ga_pad : Z; ga_ts : Z;
}.

(** errno values the library names (asm-generic). *)
Definition EPERM : Z := 1.
Definition ENOENT : Z := 2.
Definition EINTR : Z := 4.
Definition EAGAIN : Z := 11.
Definition EEXIST : Z := 17.
Definition EINVAL : Z := 22.
Definition EOPNOTSUPP : Z := 95.
Definition ETIME : Z := 62.
Definition ECANCELED : Z := 125.

Arguments op_code : simpl never.
