(* ===== verification/Prep.v ===== *)
(** * Command preparation helpers (src/liburing/src/include/liburing.h)

    One definition per [io_uring_prep_*] inline function: the assignments it
    performs on the entry, in order, with the conversions to the member types.
    Pointers are their addresses.  The little-endian layout is modelled (the
    [__swahw32] of [io_uring_prep_poll_add] is compiled for big-endian only). *)

From S2P Require Import Prelude Abi.

(** ** Single assignments through the members of the unions *)

Definition set_flags (v : Z) (s : io_uring_sqe) : io_uring_sqe :=
  mk_sqe (sqe_opcode s) (u8 v) (sqe_ioprio s) (sqe_fd s) (sqe_off s) (sqe_addr s)
    (sqe_len s) (sqe_op_flags s) (sqe_user_data s) (sqe_pad2_0 s) (sqe_pad2_1 s) (sqe_pad2_2 s).

Definition set_addr (v : Z) (s : io_uring_sqe) : io_uring_sqe :=
  mk_sqe (sqe_opcode s) (sqe_flags s) (sqe_ioprio s) (sqe_fd s) (sqe_off s) (u64 v)
    (sqe_len s) (sqe_op_flags s) (sqe_user_data s) (sqe_pad2_0 s) (sqe_pad2_1 s) (sqe_pad2_2 s).

Definition set_op_flags (v : Z) (s : io_uring_sqe) : io_uring_sqe :=
  mk_sqe (sqe_opcode s) (sqe_flags s) (sqe_ioprio s) (sqe_fd s) (sqe_off s) (sqe_addr s)
    (sqe_len s) (u32 v) (sqe_user_data s) (sqe_pad2_0 s) (sqe_pad2_1 s) (sqe_pad2_2 s).

Definition set_user_data (v : Z) (s : io_uring_sqe) : io_uring_sqe :=
  mk_sqe (sqe_opcode s) (sqe_flags s) (sqe_ioprio s) (sqe_fd s) (sqe_off s) (sqe_addr s)
    (sqe_len s) (sqe_op_flags s) (u64 v) (sqe_pad2_0 s) (sqe_pad2_1 s) (sqe_pad2_2 s).

Definition set_pad2_0 (v : Z) (s : io_uring_sqe) : io_uring_sqe :=
  mk_sqe (sqe_opcode s) (sqe_flags s) (sqe_ioprio s) (sqe_fd s) (sqe_off s) (sqe_addr s)
    (sqe_len s) (sqe_op_flags s) (sqe_user_data s) v (sqe_pad2_1 s) (sqe_pad2_2 s).

(** [sqe->buf_index = v], also spelled [buf_group]; [sqe->splice_fd_in = v]. *)
Definition set_buf_index (v : Z) (s : io_uring_sqe) : io_uring_sqe :=
  set_pad2_0 (set_bits 0 16 v (sqe_pad2_0 s)) s.

Definition set_splice_fd_in (v : Z) (s : io_uring_sqe) : io_uring_sqe :=
  set_pad2_0 (set_bits 32 32 v (sqe_pad2_0 s)) s.

(** ** The helpers *)

Definition io_uring_sqe_set_data (data : Z) (s : io_uring_sqe) : io_uring_sqe :=
  set_user_data data s.

Definition io_uring_cqe_get_data (c : io_uring_cqe) : Z := cqe_user_data c.

Definition io_uring_sqe_set_flags (flags : Z) (s : io_uring_sqe) : io_uring_sqe :=
  set_flags flags s.

Definition io_uring_prep_rw (op : Z) (fd addr len offset : Z) (s : io_uring_sqe) : io_uring_sqe :=
  mk_sqe (u8 op) 0 0 (s32 fd) (u64 offset) (u64 addr) (u32 len) 0 0 0 0 0.

Definition io_uring_prep_splice (fd_in off_in fd_out off_out nbytes splice_flags : Z)
    (s : io_uring_sqe) : io_uring_sqe :=
  let s := io_uring_prep_rw (op_code IORING_OP_SPLICE) fd_out 0 nbytes off_out s in
  let s := set_addr off_in s in
  let s := set_splice_fd_in fd_in s in
  set_op_flags splice_flags s.

Definition io_uring_prep_tee (fd_in fd_out nbytes splice_flags : Z) (s : io_uring_sqe)
    : io_uring_sqe :=
  let s := io_uring_prep_rw (op_code IORING_OP_TEE) fd_out 0 nbytes 0 s in
  let s := set_addr 0 s in
  let s := set_splice_fd_in fd_in s in
  set_op_flags splice_flags s.

Definition io_uring_prep_readv (fd iovecs nr_vecs offset : Z) (s : io_uring_sqe) : io_uring_sqe :=
  io_uring_prep_rw (op_code IORING_OP_READV) fd iovecs nr_vecs offset s.

Definition io_uring_prep_read_fixed (fd buf nbytes offset buf_index : Z) (s : io_uring_sqe)
    : io_uring_sqe :=
  set_buf_index buf_index
    (io_uring_prep_rw (op_code IORING_OP_READ_FIXED) fd buf nbytes offset s).

Definition io_uring_prep_writev (fd iovecs nr_vecs offset : Z) (s : io_uring_sqe) : io_uring_sqe :=
  io_uring_prep_rw (op_code IORING_OP_WRITEV) fd iovecs nr_vecs offset s.

Definition io_uring_prep_write_fixed (fd buf nbytes offset buf_index : Z) (s : io_uring_sqe)
    : io_uring_sqe :=
  set_buf_index buf_index
    (io_uring_prep_rw (op_code IORING_OP_WRITE_FIXED) fd buf nbytes offset s).

Definition io_uring_prep_recvmsg (fd msg flags : Z) (s : io_uring_sqe) : io_uring_sqe :=
  set_op_flags flags (io_uring_prep_rw (op_code IORING_OP_RECVMSG) fd msg 1 0 s).

Definition io_uring_prep_sendmsg (fd msg flags : Z) (s : io_uring_sqe) : io_uring_sqe :=
  set_op_flags flags (io_uring_prep_rw (op_code IORING_OP_SENDMSG) fd msg 1 0 s).

Definition io_uring_prep_poll_add (fd poll_mask : Z) (s : io_uring_sqe) : io_uring_sqe :=
  set_op_flags poll_mask (io_uring_prep_rw (op_code IORING_OP_POLL_ADD) fd 0 0 0 s).

Definition io_uring_prep_poll_remove (user_data : Z) (s : io_uring_sqe) : io_uring_sqe :=
  io_uring_prep_rw (op_code IORING_OP_POLL_REMOVE) (-1) user_data 0 0 s.

Definition io_uring_prep_fsync (fd fsync_flags : Z) (s : io_uring_sqe) : io_uring_sqe :=
  set_op_flags fsync_flags (io_uring_prep_rw (op_code IORING_OP_FSYNC) fd 0 0 0 s).

Definition io_uring_prep_nop (s : io_uring_sqe) : io_uring_sqe :=
  io_uring_prep_rw (op_code IORING_OP_NOP) (-1) 0 0 0 s.

Definition io_uring_prep_timeout (ts count flags : Z) (s : io_uring_sqe) : io_uring_sqe :=
  set_op_flags flags (io_uring_prep_rw (op_code IORING_OP_TIMEOUT) (-1) ts 1 count s).

Definition io_uring_prep_timeout_remove (user_data flags : Z) (s : io_uring_sqe) : io_uring_sqe :=
  set_op_flags flags (io_uring_prep_rw (op_code IORING_OP_TIMEOUT_REMOVE) (-1) user_data 0 0 s).

Definition io_uring_prep_timeout_update (ts user_data flags : Z) (s : io_uring_sqe)
    : io_uring_sqe :=
  set_op_flags (Z.lor flags IORING_TIMEOUT_UPDATE)
    (io_uring_prep_rw (op_code IORING_OP_TIMEOUT_REMOVE) (-1) user_data 0 ts s).

Definition io_uring_prep_accept (fd addr addrlen flags : Z) (s : io_uring_sqe) : io_uring_sqe :=
  set_op_flags flags (io_uring_prep_rw (op_code IORING_OP_ACCEPT) fd addr 0 addrlen s).

Definition io_uring_prep_cancel (user_data flags : Z) (s : io_uring_sqe) : io_uring_sqe :=
  set_op_flags flags (io_uring_prep_rw (op_code IORING_OP_ASYNC_CANCEL) (-1) user_data 0 0 s).

Definition io_uring_prep_link_timeout (ts flags : Z) (s : io_uring_sqe) : io_uring_sqe :=
  set_op_flags flags (io_uring_prep_rw (op_code IORING_OP_LINK_TIMEOUT) (-1) ts 1 0 s).

Definition io_uring_prep_connect (fd addr addrlen : Z) (s : io_uring_sqe) : io_uring_sqe :=
  io_uring_prep_rw (op_code IORING_OP_CONNECT) fd addr 0 addrlen s.

Definition io_uring_prep_files_update (fds nr_fds offset : Z) (s : io_uring_sqe) : io_uring_sqe :=
  io_uring_prep_rw (op_code IORING_OP_FILES_UPDATE) (-1) fds nr_fds offset s.

Definition io_uring_prep_fallocate (fd mode offset len : Z) (s : io_uring_sqe) : io_uring_sqe :=
  io_uring_prep_rw (op_code IORING_OP_FALLOCATE) fd len mode offset s.

Definition io_uring_prep_openat (dfd path flags mode : Z) (s : io_uring_sqe) : io_uring_sqe :=
  set_op_flags flags (io_uring_prep_rw (op_code IORING_OP_OPENAT) dfd path mode 0 s).

Definition io_uring_prep_close (fd : Z) (s : io_uring_sqe) : io_uring_sqe :=
  io_uring_prep_rw (op_code IORING_OP_CLOSE) fd 0 0 0 s.

Definition io_uring_prep_read (fd buf nbytes offset : Z) (s : io_uring_sqe) : io_uring_sqe :=
  io_uring_prep_rw (op_code IORING_OP_READ) fd buf nbytes offset s.

Definition io_uring_prep_write (fd buf nbytes offset : Z) (s : io_uring_sqe) : io_uring_sqe :=
  io_uring_prep_rw (op_code IORING_OP_WRITE) fd buf nbytes offset s.

Definition io_uring_prep_statx (dfd path flags mask statxbuf : Z) (s : io_uring_sqe)
    : io_uring_sqe :=
  set_op_flags flags (io_uring_prep_rw (op_code IORING_OP_STATX) dfd path mask statxbuf s).

Definition io_uring_prep_fadvise (fd offset len advice : Z) (s : io_uring_sqe) : io_uring_sqe :=
  set_op_flags advice (io_uring_prep_rw (op_code IORING_OP_FADVISE) fd 0 len offset s).

Definition io_uring_prep_madvise (addr length advice : Z) (s : io_uring_sqe) : io_uring_sqe :=
  set_op_flags advice (io_uring_prep_rw (op_code IORING_OP_MADVISE) (-1) addr length 0 s).

Definition io_uring_prep_send (sockfd buf len flags : Z) (s : io_uring_sqe) : io_uring_sqe :=
  set_op_flags flags (io_uring_prep_rw (op_code IORING_OP_SEND) sockfd buf len 0 s).

Definition io_uring_prep_recv (sockfd buf len flags : Z) (s : io_uring_sqe) : io_uring_sqe :=
  set_op_flags flags (io_uring_prep_rw (op_code IORING_OP_RECV) sockfd buf len 0 s).

(** [sizeof_how] is [sizeof] of the kernel's [struct open_how]. *)
Definition io_uring_prep_openat2 (sizeof_how dfd path how : Z) (s : io_uring_sqe) : io_uring_sqe :=
  io_uring_prep_rw (op_code IORING_OP_OPENAT2) dfd path sizeof_how how s.

Definition io_uring_prep_epoll_ctl (epfd fd op ev : Z) (s : io_uring_sqe) : io_uring_sqe :=
  io_uring_prep_rw (op_code IORING_OP_EPOLL_CTL) epfd ev op fd s.

Definition io_uring_prep_provide_buffers (addr len nr bgid bid : Z) (s : io_uring_sqe)
    : io_uring_sqe :=
  set_buf_index bgid (io_uring_prep_rw (op_code IORING_OP_PROVIDE_BUFFERS) nr addr len bid s).

Definition io_uring_prep_remove_buffers (nr bgid : Z) (s : io_uring_sqe) : io_uring_sqe :=
  set_buf_index bgid (io_uring_prep_rw (op_code IORING_OP_REMOVE_BUFFERS) nr 0 0 0 s).

Definition io_uring_prep_shutdown (fd how : Z) (s : io_uring_sqe) : io_uring_sqe :=
  io_uring_prep_rw (op_code IORING_OP_SHUTDOWN) fd 0 how 0 s.

Definition io_uring_prep_unlinkat (dfd path flags : Z) (s : io_uring_sqe) : io_uring_sqe :=
  set_op_flags flags (io_uring_prep_rw (op_code IORING_OP_UNLINKAT) dfd path 0 0 s).

Definition io_uring_prep_renameat (olddfd oldpath newdfd newpath flags : Z) (s : io_uring_sqe)
    : io_uring_sqe :=
  set_op_flags flags
    (io_uring_prep_rw (op_code IORING_OP_RENAMEAT) olddfd oldpath newdfd newpath s).

(** ** Requests: what a prepared entry asks for

    [request] lists every command with the typed arguments of its helper;
    [prep] calls the helper; [decode] reads the entry back through the members
    the opcode gives a meaning to. *)

Inductive request : Type :=
  | Nop
  | Readv (fd iovecs nr_vecs offset : Z)
  | Writev (fd iovecs nr_vecs offset : Z)
  | Fsync (fd fsync_flags : Z)
  | ReadFixed (fd buf nbytes offset buf_index : Z)
  | WriteFixed (fd buf nbytes offset buf_index : Z)
  | PollAdd (fd poll_mask : Z)
  | PollRemove (user_data : Z)
  | Sendmsg (fd msg flags : Z)
  | Recvmsg (fd msg flags : Z)
  | Timeout (ts count flags : Z)
  | TimeoutRemove (user_data flags : Z)
  | TimeoutUpdate (ts user_data flags : Z)
  | Accept (fd addr addrlen flags : Z)
  | Cancel (user_data flags : Z)
  | LinkTimeout (ts flags : Z)
  | Connect (fd addr addrlen : Z)
  | Fallocate (fd mode offset len : Z)
  | Openat (dfd path flags mode : Z)
  | Close (fd : Z)
  | FilesUpdate (fds nr_fds offset : Z)
  | Statx (dfd path flags mask statxbuf : Z)
  | Read (fd buf nbytes offset : Z)
  | Write (fd buf nbytes offset : Z)
  | Fadvise (fd offset len advice : Z)
  | Madvise (addr length advice : Z)
  | Send (sockfd buf len flags : Z)
  | Recv (sockfd buf len flags : Z)
  | Openat2 (dfd path how : Z)
  | EpollCtl (epfd fd op ev : Z)
  | Splice (fd_in off_in fd_out off_out nbytes splice_flags : Z)
  | ProvideBuffers (addr len nr bgid bid : Z)
  | RemoveBuffers (nr bgid : Z)
  | Tee (fd_in fd_out nbytes splice_flags : Z)
  | Shutdown (fd how : Z)
  | Renameat (olddfd oldpath newdfd newpath flags : Z)
  | Unlinkat (dfd path flags : Z).

#[export] Instance request_eq_dec : EqDecision request.
Proof. solve_decision. Defined.

Section requests.
(** [sizeof (struct open_how)], from the kernel headers. *)
Context (sizeof_how : Z).

Definition prep (r : request) : io_uring_sqe -> io_uring_sqe :=
  match r with
  | Nop => io_uring_prep_nop
  | Readv fd iov nr o => io_uring_prep_readv fd iov nr o
  | Writev fd iov nr o => io_uring_prep_writev fd iov nr o
  | Fsync fd fl => io_uring_prep_fsync fd fl
  | ReadFixed fd b n o i => io_uring_prep_read_fixed fd b n o i
  | WriteFixed fd b n o i => io_uring_prep_write_fixed fd b n o i
  | PollAdd fd m => io_uring_prep_poll_add fd m
  | PollRemove u => io_uring_prep_poll_remove u
  | Sendmsg fd m fl => io_uring_prep_sendmsg fd m fl
  | Recvmsg fd m fl => io_uring_prep_recvmsg fd m fl
  | Timeout ts c fl => io_uring_prep_timeout ts c fl
  | TimeoutRemove u fl => io_uring_prep_timeout_remove u fl
  | TimeoutUpdate ts u fl => io_uring_prep_timeout_update ts u fl
  | Accept fd a l fl => io_uring_prep_accept fd a l fl
  | Cancel u fl => io_uring_prep_cancel u fl
  | LinkTimeout ts fl => io_uring_prep_link_timeout ts fl
  | Connect fd a l => io_uring_prep_connect fd a l
  | Fallocate fd m o l => io_uring_prep_fallocate fd m o l
  | Openat d p fl m => io_uring_prep_openat d p fl m
  | Close fd => io_uring_prep_close fd
  | FilesUpdate f n o => io_uring_prep_files_update f n o
  | Statx d p fl m b => io_uring_prep_statx d p fl m b
  | Read fd b n o => io_uring_prep_read fd b n o
  | Write fd b n o => io_uring_prep_write fd b n o
  | Fadvise fd o l a => io_uring_prep_fadvise fd o l a
  | Madvise a l v => io_uring_prep_madvise a l v
  | Send fd b l fl => io_uring_prep_send fd b l fl
  | Recv fd b l fl => io_uring_prep_recv fd b l fl
  | Openat2 d p h => io_uring_prep_openat2 sizeof_how d p h
  | EpollCtl e fd op ev => io_uring_prep_epoll_ctl e fd op ev
  | Splice fi oi fo oo n fl => io_uring_prep_splice fi oi fo oo n fl
  | ProvideBuffers a l n g b => io_uring_prep_provide_buffers a l n g b
  | RemoveBuffers n g => io_uring_prep_remove_buffers n g
  | Tee fi fo n fl => io_uring_prep_tee fi fo n fl
  | Shutdown fd h => io_uring_prep_shutdown fd h
  | Renameat od op nd np fl => io_uring_prep_renameat od op nd np fl
  | Unlinkat d p fl => io_uring_prep_unlinkat d p fl
  end.

Definition decode_op (op : io_uring_op) (s : io_uring_sqe) : option request :=
  let fd := sqe_fd s in let off := sqe_off s in let addr := sqe_addr s in
  let len := sqe_len s in let fl := sqe_op_flags s in
  match op with
  | IORING_OP_NOP => Some Nop
  | IORING_OP_READV => Some (Readv fd addr len (s64 off))
  | IORING_OP_WRITEV => Some (Writev fd addr len (s64 off))
  | IORING_OP_FSYNC => Some (Fsync fd fl)
  | IORING_OP_READ_FIXED => Some (ReadFixed fd addr len (s64 off) (sqe_buf_index s))
  | IORING_OP_WRITE_FIXED => Some (WriteFixed fd addr len (s64 off) (sqe_buf_index s))
  | IORING_OP_POLL_ADD => Some (PollAdd fd fl)
  | IORING_OP_POLL_REMOVE => Some (PollRemove addr)
  | IORING_OP_SYNC_FILE_RANGE => None
  | IORING_OP_SENDMSG => Some (Sendmsg fd addr fl)
  | IORING_OP_RECVMSG => Some (Recvmsg fd addr fl)
  | IORING_OP_TIMEOUT => Some (Timeout addr off fl)
  | IORING_OP_TIMEOUT_REMOVE =>
      Some (if flag_set fl IORING_TIMEOUT_UPDATE
            then TimeoutUpdate off addr (Z.ldiff fl IORING_TIMEOUT_UPDATE)
            else TimeoutRemove addr fl)
  | IORING_OP_ACCEPT => Some (Accept fd addr off (s32 fl))
  | IORING_OP_ASYNC_CANCEL => Some (Cancel addr (s32 fl))
  | IORING_OP_LINK_TIMEOUT => Some (LinkTimeout addr fl)
  | IORING_OP_CONNECT => Some (Connect fd addr off)
  | IORING_OP_FALLOCATE => Some (Fallocate fd (s32 len) (s64 off) (s64 addr))
  | IORING_OP_OPENAT => Some (Openat fd addr (s32 fl) len)
  | IORING_OP_CLOSE => Some (Close fd)
  | IORING_OP_FILES_UPDATE => Some (FilesUpdate addr len (s64 off))
  | IORING_OP_STATX => Some (Statx fd addr (s32 fl) len off)
  | IORING_OP_READ => Some (Read fd addr len (s64 off))
  | IORING_OP_WRITE => Some (Write fd addr len (s64 off))
  | IORING_OP_FADVISE => Some (Fadvise fd (s64 off) len (s32 fl))
  | IORING_OP_MADVISE => Some (Madvise addr len (s32 fl))
  | IORING_OP_SEND => Some (Send fd addr len (s32 fl))
  | IORING_OP_RECV => Some (Recv fd addr len (s32 fl))
  | IORING_OP_OPENAT2 => Some (Openat2 fd addr off)
  | IORING_OP_EPOLL_CTL => Some (EpollCtl fd (s64 off) (s32 len) addr)
  | IORING_OP_SPLICE =>
      Some (Splice (sqe_splice_fd_in s) (s64 addr) fd (s64 off) len fl)
  | IORING_OP_PROVIDE_BUFFERS =>
      Some (ProvideBuffers addr (s32 len) fd (sqe_buf_index s) (s64 off))
  | IORING_OP_REMOVE_BUFFERS => Some (RemoveBuffers fd (sqe_buf_index s))
  | IORING_OP_TEE => Some (Tee (sqe_splice_fd_in s) fd len fl)
  | IORING_OP_SHUTDOWN => Some (Shutdown fd (s32 len))
  | IORING_OP_RENAMEAT => Some (Renameat fd addr (s32 len) off (s32 fl))
  | IORING_OP_UNLINKAT => Some (Unlinkat fd addr (s32 fl))
  end.

Definition decode (s : io_uring_sqe) : option request :=
  op ← op_of_code (sqe_opcode s); decode_op op s.
End requests.

(** Arguments within the C types of the helpers' parameters.  [off_t] lengths of
    [fadvise]/[madvise] and [size_t] lengths of [send]/[recv] must fit the 32-bit
    [len] member; [bgid] and [buf_index] their 16-bit members. *)
Definition request_ok (r : request) : Prop :=
  let fd_ok := in_s 32 in let ptr := in_u 64 in let u := in_u 32 in let i := in_s 32 in
  let off_ok := in_s 64 in
  match r with
  | Nop => True
  | Readv fd iov nr o | Writev fd iov nr o => fd_ok fd /\ ptr iov /\ u nr /\ off_ok o
  | Fsync fd fl => fd_ok fd /\ u fl
  | ReadFixed fd b n o x | WriteFixed fd b n o x =>
      fd_ok fd /\ ptr b /\ u n /\ off_ok o /\ in_u 16 x
  | PollAdd fd m => fd_ok fd /\ u m
  | PollRemove ud => ptr ud
  | Sendmsg fd m fl | Recvmsg fd m fl => fd_ok fd /\ ptr m /\ u fl
  | Timeout ts c fl => ptr ts /\ u c /\ u fl
  | TimeoutRemove ud fl => ptr ud /\ u fl /\ flag_set fl IORING_TIMEOUT_UPDATE = false
  | TimeoutUpdate ts ud fl =>
      ptr ts /\ ptr ud /\ u fl /\ flag_set fl IORING_TIMEOUT_UPDATE = false
  | Accept fd a l fl => fd_ok fd /\ ptr a /\ ptr l /\ i fl
  | Cancel ud fl => ptr ud /\ i fl
  | LinkTimeout ts fl => ptr ts /\ u fl
  | Connect fd a l => fd_ok fd /\ ptr a /\ u l
  | Fallocate fd m o l => fd_ok fd /\ i m /\ off_ok o /\ off_ok l
  | Openat d p fl m => fd_ok d /\ ptr p /\ i fl /\ u m
  | Close fd => fd_ok fd
  | FilesUpdate f n o => ptr f /\ u n /\ i o
  | Statx d p fl m b => fd_ok d /\ ptr p /\ i fl /\ u m /\ ptr b
  | Read fd b n o | Write fd b n o => fd_ok fd /\ ptr b /\ u n /\ off_ok o
  | Fadvise fd o l a => fd_ok fd /\ off_ok o /\ u l /\ i a
  | Madvise a l v => ptr a /\ u l /\ i v
  | Send fd b l fl | Recv fd b l fl => fd_ok fd /\ ptr b /\ u l /\ i fl
  | Openat2 d p h => fd_ok d /\ ptr p /\ ptr h
  | EpollCtl e fd op ev => fd_ok e /\ i fd /\ i op /\ ptr ev
  | Splice fi oi fo oo n fl =>
      i fi /\ off_ok oi /\ fd_ok fo /\ off_ok oo /\ u n /\ u fl
  | ProvideBuffers a l n g b => ptr a /\ i l /\ i n /\ in_u 16 g /\ i b
  | RemoveBuffers n g => i n /\ in_u 16 g
  | Tee fi fo n fl => i fi /\ fd_ok fo /\ u n /\ u fl
  | Shutdown fd h => fd_ok fd /\ i h
  | Renameat od op nd np fl => fd_ok od /\ ptr op /\ i nd /\ ptr np /\ i fl
  | Unlinkat d p fl => fd_ok d /\ ptr p /\ i fl
  end.

(** ** Lemmas *)

Lemma sext_wrap w x : sext w (wrap w x) = sext w x.
Proof. unfold sext, wrap. by rewrite Zmod_mod. Qed.

Lemma wrap_sext w x : 0 <= w -> wrap w (sext w x) = wrap w x.
Proof.
  intros. unfold sext, wrap. case_z; [apply Zmod_mod|].
  rewrite <- (Z_mod_plus_full _ 1 (2 ^ w)).
  replace (x mod 2 ^ w - 2 ^ w + 1 * 2 ^ w) with (x mod 2 ^ w) by lia. apply Zmod_mod.
Qed.
#[export] Hint Rewrite sext_wrap get_set_bits using lia : wrapdb.

Lemma sext_in_u64 x : in_u 32 x -> s64 (u64 x) = x.
Proof.
  intros H. rewrite sext_wrap. apply sext_small; [lia|]. unfold in_u, in_s in *. lia.
Qed.

Lemma in_s_32_64 x : in_s 32 x -> in_s 64 x.
Proof. unfold in_s. lia. Qed.

Lemma in_u_32_64 x : in_u 32 x -> in_u 64 x.
Proof. unfold in_u. lia. Qed.
#[export] Hint Resolve in_s_32_64 in_u_32_64 : core.

Lemma u8_op_code op : u8 (op_code op) = op_code op.
Proof. apply wrap_small, op_code_range. Qed.
#[export] Hint Rewrite u8_op_code : wrapdb.

Ltac prep_simpl :=
  unfold io_uring_prep_splice, io_uring_prep_tee, io_uring_prep_readv, io_uring_prep_read_fixed,
    io_uring_prep_writev, io_uring_prep_write_fixed, io_uring_prep_recvmsg,
    io_uring_prep_sendmsg, io_uring_prep_poll_add, io_uring_prep_poll_remove,
    io_uring_prep_fsync, io_uring_prep_nop, io_uring_prep_timeout,
    io_uring_prep_timeout_remove, io_uring_prep_timeout_update, io_uring_prep_accept,
    io_uring_prep_cancel, io_uring_prep_link_timeout, io_uring_prep_connect,
    io_uring_prep_files_update, io_uring_prep_fallocate, io_uring_prep_openat,
    io_uring_prep_close, io_uring_prep_read, io_uring_prep_write, io_uring_prep_statx,
    io_uring_prep_fadvise, io_uring_prep_madvise, io_uring_prep_send, io_uring_prep_recv,
    io_uring_prep_openat2, io_uring_prep_epoll_ctl, io_uring_prep_provide_buffers,
    io_uring_prep_remove_buffers, io_uring_prep_shutdown, io_uring_prep_unlinkat,
    io_uring_prep_renameat, set_buf_index, set_splice_fd_in, sqe_buf_index,
    sqe_splice_fd_in, io_uring_prep_rw; simpl.

(** Every helper overwrites the whole entry, so nothing of the request that
    used the slot before can leak into the next one. *)
Theorem prep_no_stale_data n r s1 s2 : prep n r s1 = prep n r s2.
Proof. by destruct r. Qed.

(** The request that fits the members: what the helper's assignments cut off its
    arguments. *)
Definition carried (r : request) : request :=
  match r with
  | ReadFixed fd b n o x => ReadFixed fd b n o (u16 x)
  | WriteFixed fd b n o x => WriteFixed fd b n o (u16 x)
  | TimeoutRemove ud fl =>
      if flag_set fl IORING_TIMEOUT_UPDATE then TimeoutUpdate 0 ud (Z.ldiff fl IORING_TIMEOUT_UPDATE)
      else TimeoutRemove ud fl
  | TimeoutUpdate ts ud fl => TimeoutUpdate ts ud (Z.ldiff fl IORING_TIMEOUT_UPDATE)
  | Fadvise fd o l a => Fadvise fd o (u32 l) a
  | Madvise a l v => Madvise a (u32 l) v
  | Send fd b l fl => Send fd b (u32 l) fl
  | Recv fd b l fl => Recv fd b (u32 l) fl
  | ProvideBuffers a l n g b => ProvideBuffers a l n (u16 g) b
  | RemoveBuffers n g => RemoveBuffers n (u16 g)
  | _ => r
  end.

(** Arguments within the types of the helper's parameters. *)
Definition args_typed (r : request) : Prop :=
  match r with
  | ReadFixed fd b n o x | WriteFixed fd b n o x =>
      in_s 32 fd /\ in_u 64 b /\ in_u 32 n /\ in_s 64 o /\ in_s 32 x
  | TimeoutRemove ud fl => in_u 64 ud /\ in_u 32 fl
  | TimeoutUpdate ts ud fl => in_u 64 ts /\ in_u 64 ud /\ in_u 32 fl
  | Fadvise fd o l a => in_s 32 fd /\ in_s 64 o /\ in_s 64 l /\ in_s 32 a
  | Madvise a l v => in_u 64 a /\ in_s 64 l /\ in_s 32 v
  | Send fd b l fl | Recv fd b l fl => in_s 32 fd /\ in_u 64 b /\ in_u 64 l /\ in_s 32 fl
  | ProvideBuffers a l n g b => in_u 64 a /\ in_s 32 l /\ in_s 32 n /\ in_s 32 g /\ in_s 32 b
  | RemoveBuffers n g => in_s 32 n /\ in_s 32 g
  | _ => request_ok r
  end.

Lemma or_update fl : in_u 32 fl -> u32 (Z.lor fl IORING_TIMEOUT_UPDATE) = Z.lor fl IORING_TIMEOUT_UPDATE.
Proof.
  intros Hu. apply Z.bits_inj'. intros i Hi. rewrite testbit_wrap by lia.
  destruct (Z.ltb_spec i 32); [done|]. simpl. symmetry. rewrite Z.lor_spec.
  apply orb_false_intro.
  - rewrite <- (wrap_small 32 fl Hu), testbit_wrap by lia. by destruct (Z.ltb_spec i 32); [lia|].
  - unfold IORING_TIMEOUT_UPDATE. rewrite Z.shiftl_spec by lia. apply Z.bits_above_log2; simpl; lia.
Qed.

(** Setting the update bit, and taking it away again. *)
Lemma update_flag fl :
  in_u 32 fl -> flag_set (u32 (Z.lor fl IORING_TIMEOUT_UPDATE)) IORING_TIMEOUT_UPDATE = true /\
  Z.ldiff (u32 (Z.lor fl IORING_TIMEOUT_UPDATE)) IORING_TIMEOUT_UPDATE = Z.ldiff fl IORING_TIMEOUT_UPDATE.
Proof.
  intros Hu. rewrite or_update by done. split.
  - apply negb_true_iff, Z.eqb_neq. intros E. apply (f_equal (fun z => Z.testbit z 1)) in E.
    rewrite Z.land_spec, Z.lor_spec, orb_true_r in E. done.
  - apply Z.bits_inj'. intros i Hi. rewrite !Z.ldiff_spec, Z.lor_spec.
    by destruct (Z.testbit fl i), (Z.testbit IORING_TIMEOUT_UPDATE i).
Qed.

Lemma prep_carried n r s : args_typed r -> decode (prep n r s) = Some (carried r).
Proof.
  destruct r; simpl; intros Hok; destruct_and?; unfold decode; prep_simpl;
    autorewrite with wrapdb; simpl; prep_simpl; autorewrite with wrapdb;
    rewrite ?sext_wrap, ?sext_small, ?wrap_small by (done || auto); try done.
  destruct (update_flag flags) as [-> ->]; [done|]. by rewrite !wrap_small.
Qed.

(** The flags and the user data are members of their own. *)
Lemma decode_set_flags f s : decode (io_uring_sqe_set_flags f s) = decode s.
Proof. done. Qed.

Lemma decode_set_data d s : decode (io_uring_sqe_set_data d s) = decode s.
Proof. done. Qed.

Lemma no_update fl : flag_set fl IORING_TIMEOUT_UPDATE = false -> Z.ldiff fl IORING_TIMEOUT_UPDATE = fl.
Proof.
  unfold flag_set. intros Hf%negb_false_iff%Z.eqb_eq. apply Z.bits_inj'. intros i Hi.
  rewrite Z.ldiff_spec. apply (f_equal (fun z => Z.testbit z i)) in Hf. rewrite Z.land_spec, Z.bits_0 in Hf.
  by destruct (Z.testbit fl i), (Z.testbit IORING_TIMEOUT_UPDATE i).
Qed.

Lemma no_update_inv fl : Z.ldiff fl IORING_TIMEOUT_UPDATE = fl -> flag_set fl IORING_TIMEOUT_UPDATE = false.
Proof.
  intros E. unfold flag_set. apply negb_false_iff, Z.eqb_eq. rewrite <- E. apply Z.bits_inj'. intros i Hi.
  rewrite Z.land_spec, Z.ldiff_spec, Z.bits_0. by destruct (Z.testbit fl i), (Z.testbit IORING_TIMEOUT_UPDATE i).
Qed.

Lemma wrap_fixed w x : 0 <= w -> wrap w x = x -> in_u w x.
Proof. intros Hw <-. by apply wrap_range. Qed.

(** It is the request asked for exactly where nothing is cut. *)
Lemma carried_same r : args_typed r -> (carried r = r <-> request_ok r).
Proof.
  destruct r; cbn; intros Ht; destruct_and?; (split; [intros [=]|intros ?; destruct_and?]);
    rewrite ?wrap_small, ?no_update by done; try done; split_and?; try done;
    try (by apply wrap_fixed); try (by apply no_update_inv).
  - destruct (flag_set flags IORING_TIMEOUT_UPDATE) eqn:E; [done|]. done.
  - by case_match.
Qed.

(** C20: an entry prepared by any helper carries the request.  For any arguments within
    the types of the C parameters the entry decodes to the command with these arguments,
    where the lengths of [off_t] and [size_t] are cut to the 32 bits of their member, an
    index or a group to 16, and the update flag of a timeout is what tells the two
    commands apart; it is exactly the request asked for if and only if [request_ok] says
    that nothing of it is cut.  Setting the flags and the user data afterwards changes
    only these. *)
Theorem prep_decode n r s flags data :
  args_typed r ->
  let e := io_uring_sqe_set_data data (io_uring_sqe_set_flags flags (prep n r s)) in
  decode e = Some (carried r) /\ (carried r = r <-> request_ok r) /\
  sqe_flags e = u8 flags /\ sqe_user_data e = u64 data.
Proof.
  intros Ht e. split; [unfold e; rewrite decode_set_data, decode_set_flags; by apply prep_carried|].
  split; [by apply carried_same|done].
Qed.

Lemma prep_decode_witness :
  decode (prep 24 (Splice 5 (-1) 6 0 4096 2) zero_sqe) = Some (Splice 5 (-1) 6 0 4096 2) /\
  decode (prep 24 (Send 3 4096 (2 ^ 32 + 7) 0) zero_sqe) = Some (Send 3 4096 7 0).
Proof.
  destruct (prep_decode 24 (Splice 5 (-1) 6 0 4096 2) zero_sqe 0 0) as (H1 & _); [by vm_compute|].
  destruct (prep_decode 24 (Send 3 4096 (2 ^ 32 + 7) 0) zero_sqe 0 0) as (H2 & _); [by vm_compute|].
  split; [exact H1|exact H2].
Defined.

(** The [off_t] length of [io_uring_prep_fadvise] and [io_uring_prep_madvise]
    is cut to the 32-bit [len] member: advising about [2^32 + l] bytes prepares the
    entry for [l] bytes, and exactly 4 GiB prepares the entry for length zero. *)
Theorem fadvise_len_truncated fd addr o l a s :
  io_uring_prep_fadvise fd o (2 ^ 32 + l) a s = io_uring_prep_fadvise fd o l a s /\
  io_uring_prep_madvise addr (2 ^ 32 + l) a s = io_uring_prep_madvise addr l a s /\
  sqe_len (io_uring_prep_fadvise fd o (2 ^ 32) a s) = 0.
Proof.
  unfold io_uring_prep_fadvise, io_uring_prep_madvise, io_uring_prep_rw, wrap.
  replace (2 ^ 32 + l) with (l + 1 * 2 ^ 32) by lia. by rewrite !Z_mod_plus_full.
Qed.
