(* ===== verification/RingBuf.v ===== *)
(** * Power-of-two ring buffers under free-running 32-bit indices

    Shared by the submission and the completion ring: an array of [n = 2^k]
    slots, addressed by masking a free-running unsigned index.  [window] reads
    the [len] entries that start at index [start] as a list; the lemmas below say
    how the list changes when a slot is written or an index moves. *)

From S2P Require Import Prelude.

Section ringbuf.
Context {A : Type} (d : A).
Implicit Types (l : list A) (n start len : Z).

(** The entry at free-running index [i]. *)
Definition rget l n i : A := default d (zget l (i mod n)).

Definition window l n start len : list A :=
  (fun j => rget l n (start + j)) <$> zseq 0 (Z.to_nat len).

Lemma window_length l n start len : length (window l n start len) = Z.to_nat len.
Proof. unfold window. by rewrite length_fmap, zseq_length. Qed.

Lemma window_0 l n start : window l n start 0 = [].
Proof. done. Qed.

Lemma window_app l n start a b :
  0 <= a -> 0 <= b -> window l n start (a + b) = window l n start a ++ window l n (start + a) b.
Proof.
  intros. unfold window. rewrite Z2Nat.inj_add, zseq_app, fmap_app by done. f_equal.
  rewrite Z2Nat.id by done. unfold zseq. rewrite <- !list_fmap_compose.
  apply list_fmap_ext. intros i x _. simpl. f_equal. lia.
Qed.

Lemma window_1 l n start : window l n start 1 = [rget l n start].
Proof.
  unfold window, zseq. simpl. do 2 f_equal. lia.
Qed.

Lemma window_cons l n start len :
  0 < len -> window l n start len = rget l n start :: window l n (start + 1) (len - 1).
Proof.
  intros. replace len with (1 + (len - 1)) at 1 by lia.
  rewrite window_app, window_1 by lia. done.
Qed.

Lemma window_lookup l n start len j :
  0 <= j < len -> window l n start len !! Z.to_nat j = Some (rget l n (start + j)).
Proof.
  intros. unfold window, zseq. rewrite !list_lookup_fmap, lookup_seq_lt by lia. simpl.
  do 2 f_equal. lia.
Qed.

Lemma window_drop l n start len m :
  0 <= m <= len -> window l n (start + m) (len - m) = drop (Z.to_nat m) (window l n start len).
Proof.
  intros. replace len with (m + (len - m)) at 2 by lia. rewrite window_app by lia.
  by rewrite drop_app_length' by (by rewrite window_length).
Qed.

Lemma window_take l n start len m :
  0 <= m <= len -> window l n start m = take (Z.to_nat m) (window l n start len).
Proof.
  intros. replace len with (m + (len - m)) by lia. rewrite window_app by lia.
  by rewrite take_app_length' by (by rewrite window_length).
Qed.

Lemma window_ext l l' n start len :
  (forall j, 0 <= j < len -> rget l n (start + j) = rget l' n (start + j)) ->
  window l n start len = window l' n start len.
Proof.
  intros H. unfold window. apply list_fmap_ext. intros i x Hx. apply H.
  apply list_elem_of_lookup_2, elem_of_zseq in Hx. lia.
Qed.

(** Only the index modulo [n] matters. *)
Lemma window_start_mod l n start start' len :
  start mod n = start' mod n -> window l n start len = window l n start' len.
Proof.
  intros E. unfold window. apply list_fmap_ext. intros i x _.
  unfold rget. by rewrite Zplus_mod, E, <- Zplus_mod.
Qed.

Section write.
Context (l : list A) (n : Z) (Hn : 0 < n) (Hl : zlen l = n).

Lemma slot_in i : 0 <= i mod n < zlen l.
Proof. rewrite Hl. by apply Z.mod_pos_bound. Qed.

Lemma rget_write_eq i e : rget (<[Z.to_nat (i mod n) := e]> l) n i = e.
Proof. unfold rget. by rewrite zget_set_eq by apply slot_in. Qed.

Lemma rget_write_ne i j e :
  i mod n <> j mod n -> rget (<[Z.to_nat (i mod n) := e]> l) n j = rget l n j.
Proof.
  intros. unfold rget. rewrite zget_set_ne; [done| |done].
  pose proof (slot_in i). lia.
Qed.

(** Writing a slot outside the window, within one lap, leaves it alone. *)
Lemma window_write_out start len j e :
  0 <= len -> len <= j < n ->
  window (<[Z.to_nat ((start + j) mod n) := e]> l) n start len = window l n start len.
Proof.
  intros. apply window_ext. intros i Hi. apply rget_write_ne. intros E.
  apply mod_inj_window in E; lia.
Qed.

(** Writing the slot just past the window extends it by the entry. *)
Lemma window_write_snoc start len e :
  0 <= len < n ->
  window (<[Z.to_nat ((start + len) mod n) := e]> l) n start (len + 1) =
  window l n start len ++ [e].
Proof.
  intros. rewrite window_app, window_1 by lia.
  rewrite window_write_out by lia. by rewrite rget_write_eq.
Qed.
End write.
End ringbuf.

(** ** Distances between free-running 32-bit indices *)

Definition dist (a b : Z) : Z := u32 (b - a).

Lemma dist_range a b : 0 <= dist a b < 2 ^ 32.
Proof. apply wrap_range. lia. Qed.

Lemma dist_refl a : dist a a = 0.
Proof. unfold dist. by rewrite Z.sub_diag. Qed.

(** Moving the far index forward by [m] without a full lap adds [m]. *)
Lemma dist_advance a b m :
  0 <= m -> dist a b + m < 2 ^ 32 -> dist a (u32 (b + m)) = dist a b + m.
Proof.
  intros. unfold dist in *. rewrite wrap_sub_l.
  replace (b + m - a) with ((b - a) + m) by lia.
  rewrite <- wrap_add_l. apply wrap_small. pose proof (dist_range a b).
  unfold dist, in_u in *. lia.
Qed.

(** Moving the near index forward by [m] subtracts [m]. *)
Lemma dist_retreat a b m :
  0 <= m <= dist a b -> dist (u32 (a + m)) b = dist a b - m.
Proof.
  intros. unfold dist in *. rewrite wrap_sub_r.
  replace (b - (a + m)) with ((b - a) - m) by lia.
  rewrite <- wrap_sub_l. apply wrap_small. pose proof (dist_range a b).
  unfold dist, in_u in *. lia.
Qed.

Lemma dist_between a b c :
  dist a b <= dist a c -> dist b c = dist a c - dist a b.
Proof.
  intros. unfold dist in *.
  replace (c - b) with ((c - a) - (b - a)) by lia.
  rewrite <- wrap_sub_l, <- wrap_sub_r. apply wrap_small.
  pose proof (dist_range a b). pose proof (dist_range a c). unfold dist, in_u in *. lia.
Qed.

(** An index is the start plus the distance, as far as slots are concerned. *)
Lemma index_dist_mod a b k :
  0 <= k <= 32 -> b mod 2 ^ k = (a + dist a b) mod 2 ^ k.
Proof.
  intros. unfold dist. rewrite <- (wrap_mod_pow2 32 k (a + _)) by lia.
  rewrite wrap_add_r, wrap_mod_pow2 by lia. f_equal. lia.
Qed.

Lemma u32_index_mod a m k :
  0 <= k <= 32 -> u32 (a + m) mod 2 ^ k = (a + m) mod 2 ^ k.
Proof. intros. apply wrap_mod_pow2. lia. Qed.
