(* ===== verification/Ring.v ===== *)
(** * The rings (src/liburing/src/include/liburing.h, src/liburing/src/queue.c)

    [struct io_uring_sq], [struct io_uring_cq] and [struct io_uring] with the
    words their pointer members point at, and the operations that touch only the
    shared memory: acquiring entries, publishing them, looking at completions
    and consuming them.  An entry pointer is the index of its slot. *)

From S2P Require Import Prelude Abi Prep RingBuf.

(** ** State *)

Record io_uring_sq : Type := mk_sq {
  sq_khead : Z;
  sq_ktail : Z;
  sq_kring_mask : Z;
  sq_kring_entries : Z;
  sq_kflags : Z;
  sq_kdropped : Z;
  sq_array : list Z;
  sq_sqes : list io_uring_sqe;
  sqe_head : Z;
  sqe_tail : Z;
}.

Record io_uring_cq : Type := mk_cq {
  cq_khead : Z;
  cq_ktail : Z;
  cq_kring_mask : Z;
  cq_kring_entries : Z;
  cq_kflags : option Z;      (** [None]: the pointer is null *)
  cq_koverflow : Z;
  cq_cqes : list io_uring_cqe;
}.

Record io_uring : Type := mk_ring {
  r_sq : io_uring_sq;
  r_cq : io_uring_cq;
  r_flags : Z;
  r_ring_fd : Z;
  r_features : Z;
}.

Definition set_sq (q : io_uring_sq) (r : io_uring) : io_uring :=
  mk_ring q (r_cq r) (r_flags r) (r_ring_fd r) (r_features r).
Definition set_cq (q : io_uring_cq) (r : io_uring) : io_uring :=
  mk_ring (r_sq r) q (r_flags r) (r_ring_fd r) (r_features r).

Definition sq_set_khead (v : Z) (q : io_uring_sq) : io_uring_sq :=
  mk_sq v (sq_ktail q) (sq_kring_mask q) (sq_kring_entries q) (sq_kflags q) (sq_kdropped q)
    (sq_array q) (sq_sqes q) (sqe_head q) (sqe_tail q).
Definition sq_set_ktail (v : Z) (q : io_uring_sq) : io_uring_sq :=
  mk_sq (sq_khead q) v (sq_kring_mask q) (sq_kring_entries q) (sq_kflags q) (sq_kdropped q)
    (sq_array q) (sq_sqes q) (sqe_head q) (sqe_tail q).
Definition sq_set_array (a : list Z) (h : Z) (q : io_uring_sq) : io_uring_sq :=
  mk_sq (sq_khead q) (sq_ktail q) (sq_kring_mask q) (sq_kring_entries q) (sq_kflags q)
    (sq_kdropped q) a (sq_sqes q) h (sqe_tail q).
Definition sq_set_sqe_tail (v : Z) (q : io_uring_sq) : io_uring_sq :=
  mk_sq (sq_khead q) (sq_ktail q) (sq_kring_mask q) (sq_kring_entries q) (sq_kflags q)
    (sq_kdropped q) (sq_array q) (sq_sqes q) (sqe_head q) v.
Definition sq_set_sqes (s : list io_uring_sqe) (q : io_uring_sq) : io_uring_sq :=
  mk_sq (sq_khead q) (sq_ktail q) (sq_kring_mask q) (sq_kring_entries q) (sq_kflags q)
    (sq_kdropped q) (sq_array q) s (sqe_head q) (sqe_tail q).
Definition cq_set_khead (v : Z) (q : io_uring_cq) : io_uring_cq :=
  mk_cq v (cq_ktail q) (cq_kring_mask q) (cq_kring_entries q) (cq_kflags q) (cq_koverflow q)
    (cq_cqes q).
Definition cq_set_kflags (v : option Z) (q : io_uring_cq) : io_uring_cq :=
  mk_cq (cq_khead q) (cq_ktail q) (cq_kring_mask q) (cq_kring_entries q) v (cq_koverflow q)
    (cq_cqes q).

(** ** Submission side *)

(** [__io_uring_get_sqe]: the slot of a vacant entry, or [None] for NULL. *)
Definition __io_uring_get_sqe (sq : io_uring_sq) (__head : Z) : option Z * io_uring_sq :=
  let __next := u32 (sqe_tail sq + 1) in
  if u32 (__next - __head) <=? sq_kring_entries sq
  then (Some (Z.land (sqe_tail sq) (sq_kring_mask sq)), sq_set_sqe_tail __next sq)
  else (None, sq).

Definition io_uring_get_sqe (sq : io_uring_sq) : option Z * io_uring_sq :=
  __io_uring_get_sqe sq (sq_khead sq).

(** A store through the pointer [io_uring_get_sqe] returned. *)
Definition sqe_store (slot : Z) (e : io_uring_sqe) (sq : io_uring_sq) : option io_uring_sq :=
  l ← zset (sq_sqes sq) slot e; Some (sq_set_sqes l sq).

(** The [while (to_submit--)] loop of [__io_uring_flush_sq]. *)
Fixpoint flush_loop (to_submit : nat) (mask ktail : Z) (sq : io_uring_sq)
    : option (Z * io_uring_sq) :=
  match to_submit with
  | O => Some (ktail, sq)
  | S n =>
      a ← zset (sq_array sq) (Z.land ktail mask) (Z.land (sqe_head sq) mask);
      flush_loop n mask (u32 (ktail + 1)) (sq_set_array a (u32 (sqe_head sq + 1)) sq)
  end.

(** Returns the pending count, converted to [int] as the C function does;
    [None] when the array would be written out of bounds. *)
Definition __io_uring_flush_sq (sq : io_uring_sq) : option (Z * io_uring_sq) :=
  let mask := sq_kring_mask sq in
  if sqe_head sq =? sqe_tail sq
  then Some (s32 (sq_ktail sq - sq_khead sq), sq)
  else
    let to_submit := u32 (sqe_tail sq - sqe_head sq) in
    '(ktail, sq) ← flush_loop (Z.to_nat to_submit) mask (sq_ktail sq) sq;
    let sq := sq_set_ktail ktail sq in
    Some (s32 (ktail - sq_khead sq), sq).

Definition io_uring_sq_ready (r : io_uring) : Z :=
  if flag_set (r_flags r) IORING_SETUP_SQPOLL
  then u32 (sqe_tail (r_sq r) - sq_khead (r_sq r))
  else u32 (sqe_tail (r_sq r) - sq_khead (r_sq r)).

Definition io_uring_sq_space_left (r : io_uring) : Z :=
  u32 (sq_kring_entries (r_sq r) - io_uring_sq_ready r).

(** [sq_ring_needs_enter]: the verdict and the updated enter flags. *)
Definition sq_ring_needs_enter (r : io_uring) (flags : Z) : bool * Z :=
  if negb (flag_set (r_flags r) IORING_SETUP_SQPOLL) then (true, flags)
  else if flag_set (sq_kflags (r_sq r)) IORING_SQ_NEED_WAKEUP
  then (true, Z.lor flags IORING_ENTER_SQ_WAKEUP)
  else (false, flags).

Definition cq_ring_needs_flush (r : io_uring) : bool :=
  flag_set (sq_kflags (r_sq r)) IORING_SQ_CQ_OVERFLOW.

(** ** Completion side *)

Definition io_uring_cq_ready (cq : io_uring_cq) : Z := u32 (cq_ktail cq - cq_khead cq).

Definition io_uring_cq_advance (nr : Z) (cq : io_uring_cq) : io_uring_cq :=
  if nr =? 0 then cq else cq_set_khead (u32 (cq_khead cq + nr)) cq.

Definition io_uring_cqe_seen (cqe : option Z) (cq : io_uring_cq) : io_uring_cq :=
  match cqe with Some _ => io_uring_cq_advance 1 cq | None => cq end.

(** [&ring->cq.cqes[head & mask]]. *)
Definition cqe_slot (cq : io_uring_cq) (head : Z) : Z := Z.land head (cq_kring_mask cq).

Definition LIBURING_UDATA_TIMEOUT : Z := u64 (-1).

(** The visits of [io_uring_for_each_cqe], [fuel] iterations at most; the tail is
    loaded afresh before each. *)
Fixpoint for_each_cqe (fuel : nat) (head : Z) (cq : io_uring_cq) : option (list Z) :=
  match fuel with
  | O => None
  | S n =>
      if head =? cq_ktail cq then Some []
      else l ← for_each_cqe n (u32 (head + 1)) cq; Some (cqe_slot cq head :: l)
  end.

Definition io_uring_for_each_cqe (fuel : nat) (cq : io_uring_cq) : option (list Z) :=
  for_each_cqe fuel (cq_khead cq) cq.

(** [__io_uring_peek_cqe]: skips the completions of internal timeouts.  Returns
    the error, the entry pointer and the number of entries available. *)
Fixpoint __io_uring_peek_cqe (fuel : nat) (cq : io_uring_cq)
    : res ((Z * option Z * Z) * io_uring_cq) :=
  match fuel with
  | O => NoFuel
  | S n =>
      let tail := cq_ktail cq in
      let head := cq_khead cq in
      let available := u32 (tail - head) in
      if available =? 0 then Ok ((0, None, available), cq)
      else
        let slot := cqe_slot cq head in
        match zget (cq_cqes cq) slot with
        | None => Fault OutOfBounds
        | Some c =>
            if cqe_user_data c =? LIBURING_UDATA_TIMEOUT then
              let cq := io_uring_cq_advance 1 cq in
              if cqe_res c <? 0 then Ok ((cqe_res c, None, available), cq)
              else __io_uring_peek_cqe n cq
            else Ok ((0, Some slot, available), cq)
        end
  end.

(** The copy loop of [io_uring_peek_batch_cqe], [head != last] as the counter. *)
Fixpoint batch_loop (n : nat) (head : Z) (cq : io_uring_cq) : list Z :=
  match n with
  | O => []
  | S n => cqe_slot cq head :: batch_loop n (u32 (head + 1)) cq
  end.

(** ** Eventfd notifications *)

Definition io_uring_cq_eventfd_enabled (cq : io_uring_cq) : bool :=
  match cq_kflags cq with
  | None => true
  | Some f => negb (flag_set f IORING_CQ_EVENTFD_DISABLED)
  end.

Definition io_uring_cq_eventfd_toggle (enabled : bool) (cq : io_uring_cq) : Z * io_uring_cq :=
  if Bool.eqb enabled (io_uring_cq_eventfd_enabled cq) then (0, cq)
  else
    match cq_kflags cq with
    | None => (- EOPNOTSUPP, cq)
    | Some flags =>
        let flags :=
          if enabled then Z.ldiff flags IORING_CQ_EVENTFD_DISABLED
          else Z.lor flags IORING_CQ_EVENTFD_DISABLED in
        (0, cq_set_kflags (Some flags) cq)
    end.
