(* ===== verification/SqSpec.v ===== *)
(** * The submission ring implements a bounded FIFO queue

    The well-formedness invariant of [struct io_uring_sq], the abstract queue it
    implements and the refinement of every application and kernel step. *)

From S2P Require Import Prelude Abi Prep RingBuf Ring.

(** ** Invariant *)

(** [sq_pending]: published, not yet consumed.  [sq_unflushed]: acquired with
    [io_uring_get_sqe], not yet published. *)
Definition sq_pending (q : io_uring_sq) : Z := dist (sq_khead q) (sq_ktail q).
Definition sq_unflushed (q : io_uring_sq) : Z := dist (sqe_head q) (sqe_tail q).

Record sq_ok (q : io_uring_sq) : Prop := {
  sq_pow : exists k, 0 <= k <= 30 /\ sq_kring_entries q = 2 ^ k;
  sq_mask : sq_kring_mask q = sq_kring_entries q - 1;
  sq_array_len : zlen (sq_array q) = sq_kring_entries q;
  sq_sqes_len : zlen (sq_sqes q) = sq_kring_entries q;
  sq_sync : sqe_head q = sq_ktail q;
  sq_head_u : in_u 32 (sq_khead q);
  sq_ktail_u : in_u 32 (sq_ktail q);
  sq_tail_u : in_u 32 (sqe_tail q);
  sq_order : sq_pending q <= dist (sq_khead q) (sqe_tail q) <= sq_kring_entries q;
  (** every published slot of the indirection array names its own entry *)
  sq_ident : forall j, 0 <= j < sq_pending q ->
    let i := (sq_khead q + j) mod sq_kring_entries q in zget (sq_array q) i = Some i;
}.

(** A ring as mapped by the kernel: all indices at [c], nothing queued. *)
Definition sq_fresh (k c : Z) : io_uring_sq :=
  mk_sq c c (2 ^ k - 1) (2 ^ k) 0 0
    (replicate (Z.to_nat (2 ^ k)) 0) (replicate (Z.to_nat (2 ^ k)) zero_sqe) c c.

(** ** The abstract queue *)

Record sq_spec : Type := mk_sq_spec {
  published : list io_uring_sqe;
  acquired : list io_uring_sqe;
}.

Definition sq_abs (q : io_uring_sq) : sq_spec :=
  mk_sq_spec
    (window zero_sqe (sq_sqes q) (sq_kring_entries q) (sq_khead q) (sq_pending q))
    (window zero_sqe (sq_sqes q) (sq_kring_entries q) (sqe_head q) (sq_unflushed q)).

Inductive sq_event : Type :=
  | EvGet (e : io_uring_sqe)          (** acquire an entry and fill it with [e] *)
  | EvFull                            (** [io_uring_get_sqe] returns NULL *)
  | EvFlush (n : Z)                   (** [__io_uring_flush_sq] returns [n] *)
  | EvConsume (es : list io_uring_sqe).  (** the kernel takes [es] off the head *)

Inductive spec_step (cap : Z) : sq_spec -> sq_event -> sq_spec -> Prop :=
  | spec_get e p a :
      zlen p + zlen a < cap ->
      spec_step cap (mk_sq_spec p a) (EvGet e) (mk_sq_spec p (a ++ [e]))
  | spec_full p a :
      zlen p + zlen a = cap ->
      spec_step cap (mk_sq_spec p a) EvFull (mk_sq_spec p a)
  | spec_flush p a n :
      n = zlen (p ++ a) ->
      spec_step cap (mk_sq_spec p a) (EvFlush n) (mk_sq_spec (p ++ a) [])
  | spec_consume es p a :
      spec_step cap (mk_sq_spec (es ++ p) a) (EvConsume es) (mk_sq_spec p a).

(** ** Concrete steps *)

(** How the kernel reads the entry at a free-running index: through the
    indirection array (io_uring.7, io_uring_setup.2). *)
Definition sq_entry (q : io_uring_sq) (i : Z) : option io_uring_sqe :=
  x ← zget (sq_array q) (Z.land i (sq_kring_mask q)); zget (sq_sqes q) x.

Definition kernel_reads (q : io_uring_sq) (n : Z) : option (list io_uring_sqe) :=
  mapM (fun j => sq_entry q (u32 (sq_khead q + j))) (zseq 0 (Z.to_nat n)).

(** The words of the ring the kernel owns: the head, the flags, the drop count. *)
Definition sq_kernel_update (n kflags kdropped : Z) (q : io_uring_sq) : io_uring_sq :=
  mk_sq (u32 (sq_khead q + n)) (sq_ktail q) (sq_kring_mask q) (sq_kring_entries q) kflags
    kdropped (sq_array q) (sq_sqes q) (sqe_head q) (sqe_tail q).

Inductive sq_step : io_uring_sq -> sq_event -> io_uring_sq -> Prop :=
  | step_get e slot q q1 q2 :
      io_uring_get_sqe q = (Some slot, q1) -> sqe_store slot e q1 = Some q2 ->
      sq_step q (EvGet e) q2
  | step_full q q1 : io_uring_get_sqe q = (None, q1) -> sq_step q EvFull q1
  | step_flush q n q' : __io_uring_flush_sq q = Some (n, q') -> sq_step q (EvFlush n) q'
  | step_consume q n kf kd es :
      0 <= n <= sq_pending q -> kernel_reads q n = Some es ->
      sq_step q (EvConsume es) (sq_kernel_update n kf kd q).

Inductive sq_steps : io_uring_sq -> list sq_event -> io_uring_sq -> Prop :=
  | sq_steps_nil q : sq_steps q [] q
  | sq_steps_cons q ev q1 evs q2 :
      sq_step q ev q1 -> sq_steps q1 evs q2 -> sq_steps q (ev :: evs) q2.

(** Entries the application filled, and entries the kernel took, along a trace. *)
Definition filled (evs : list sq_event) : list io_uring_sqe :=
  evs ≫= fun ev => match ev with EvGet e => [e] | _ => [] end.
Definition consumed (evs : list sq_event) : list io_uring_sqe :=
  evs ≫= fun ev => match ev with EvConsume es => es | _ => [] end.

(** ** Lemmas *)

Section ring.
Context (q : io_uring_sq) (Hq : sq_ok q).
Local Abbreviation N := (sq_kring_entries q).

Lemma sq_entries_pos : 0 < N.
Proof. destruct (sq_pow q Hq) as (k & Hk & ->). apply pow2_pos. lia. Qed.

Lemma sq_entries_le : N <= 2 ^ 30.
Proof. destruct (sq_pow q Hq) as (k & Hk & ->). apply Z.pow_le_mono_r; lia. Qed.

Lemma sq_land i : Z.land i (sq_kring_mask q) = i mod N.
Proof.
  rewrite (sq_mask q Hq). destruct (sq_pow q Hq) as (k & Hk & ->). apply land_mask. lia.
Qed.

Lemma sq_u32_mod i : u32 i mod N = i mod N.
Proof. destruct (sq_pow q Hq) as (k & Hk & ->). apply wrap_mod_pow2. lia. Qed.

Lemma sq_dist_mod a b : b mod N = (a + dist a b) mod N.
Proof. destruct (sq_pow q Hq) as (k & Hk & ->). apply index_dist_mod. lia. Qed.

Lemma sq_unflushed_eq : sq_unflushed q = dist (sq_khead q) (sqe_tail q) - sq_pending q.
Proof.
  unfold sq_unflushed, sq_pending. rewrite (sq_sync q Hq).
  apply dist_between, (sq_order q Hq).
Qed.

Lemma sq_pending_range : 0 <= sq_pending q <= N.
Proof. pose proof (sq_order q Hq). unfold sq_pending in *. pose proof (dist_range (sq_khead q) (sq_ktail q)). lia. Qed.

Lemma sq_unflushed_range : 0 <= sq_unflushed q /\ sq_pending q + sq_unflushed q <= N.
Proof.
  rewrite sq_unflushed_eq. pose proof (sq_order q Hq). lia.
Qed.

Lemma sq_abs_lengths :
  zlen (published (sq_abs q)) = sq_pending q /\ zlen (acquired (sq_abs q)) = sq_unflushed q.
Proof.
  unfold zlen, sq_abs; simpl. rewrite !window_length.
  pose proof sq_pending_range. pose proof sq_unflushed_range. lia.
Qed.

(** What the kernel finds through the indirection array. *)
Lemma sq_entry_published j :
  0 <= j < sq_pending q ->
  sq_entry q (u32 (sq_khead q + j)) = Some (rget zero_sqe (sq_sqes q) N (sq_khead q + j)).
Proof.
  intros Hj. unfold sq_entry. rewrite sq_land, sq_u32_mod, (sq_ident q Hq j Hj). simpl.
  unfold rget. destruct (zget_in (sq_sqes q) ((sq_khead q + j) mod N)) as [e ->]; [|done].
  apply slot_in; [apply sq_entries_pos|apply (sq_sqes_len q Hq)].
Qed.

Lemma kernel_reads_published n :
  0 <= n <= sq_pending q ->
  kernel_reads q n = Some (window zero_sqe (sq_sqes q) N (sq_khead q) n).
Proof.
  intros Hn. unfold kernel_reads, window.
  assert (forall x, x ∈ zseq 0 (Z.to_nat n) -> 0 <= x < sq_pending q) as Hall.
  { intros x Hx%elem_of_zseq. lia. }
  induction (zseq 0 (Z.to_nat n)) as [|x l IH]; [done|]. simpl.
  rewrite sq_entry_published by (apply Hall, list_elem_of_here). simpl.
  rewrite IH; [done|]. intros y Hy. by apply Hall, list_elem_of_further.
Qed.
End ring.

(** *** [io_uring_get_sqe] *)

Lemma get_sqe_eq q :
  sq_ok q ->
  io_uring_get_sqe q =
    if sq_pending q + sq_unflushed q <? sq_kring_entries q
    then (Some (sqe_tail q mod sq_kring_entries q), sq_set_sqe_tail (u32 (sqe_tail q + 1)) q)
    else (None, q).
Proof.
  intros Hq. unfold io_uring_get_sqe, __io_uring_get_sqe.
  pose proof (sq_order q Hq) as Ho. pose proof (sq_entries_le q Hq).
  fold (dist (sq_khead q) (u32 (sqe_tail q + 1))).
  rewrite dist_advance, (sq_land q Hq), (sq_unflushed_eq q Hq) by lia.
  do 2 case_z; try lia; done.
Qed.

Lemma get_store_ok q e :
  sq_ok q -> sq_pending q + sq_unflushed q < sq_kring_entries q ->
  let q2 := sq_set_sqes (<[Z.to_nat (sqe_tail q mod sq_kring_entries q) := e]> (sq_sqes q))
              (sq_set_sqe_tail (u32 (sqe_tail q + 1)) q) in
  sqe_store (sqe_tail q mod sq_kring_entries q) e (sq_set_sqe_tail (u32 (sqe_tail q + 1)) q)
    = Some q2 /\ sq_ok q2 /\
  sq_abs q2 = mk_sq_spec (published (sq_abs q)) (acquired (sq_abs q) ++ [e]).
Proof.
  intros Hq Hroom q2. pose proof (sq_entries_pos q Hq) as HN.
  pose proof (sq_entries_le q Hq). pose proof (sq_unflushed_range q Hq).
  pose proof (sq_unflushed_eq q Hq) as HL. pose proof (sq_order q Hq).
  pose proof (sq_pending_range q Hq).
  assert (dist (sq_khead q) (u32 (sqe_tail q + 1)) = dist (sq_khead q) (sqe_tail q) + 1) as HT
    by (apply dist_advance; lia).
  assert (sq_unflushed q2 = sq_unflushed q + 1) as HU
    by (unfold sq_unflushed in *; simpl; apply dist_advance; lia).
  split; [|split].
  - unfold sqe_store. simpl. rewrite zset_in; [done|].
    apply slot_in; [done|apply (sq_sqes_len q Hq)].
  - destruct Hq as [Hpow Hmask Ha Hs Hsync Hh Hkt Ht Ho Hid].
    split; simpl; try done.
    + by rewrite zlen_insert.
    + apply wrap_range. lia.
    + unfold sq_pending in *. simpl. lia.
  - unfold sq_abs at 1. rewrite HU. simpl. f_equal.
    + rewrite (sq_dist_mod q Hq (sq_khead q) (sqe_tail q)).
      apply window_write_out; [done|apply (sq_sqes_len q Hq)| |]; lia.
    + rewrite (sq_dist_mod q Hq (sqe_head q) (sqe_tail q)).
      apply window_write_snoc; [done|apply (sq_sqes_len q Hq)|].
      unfold sq_unflushed in *. lia.
Qed.

(** *** [__io_uring_flush_sq] *)

(** The loop writes [a[i] = i] at consecutive indices and nothing else. *)
Lemma flush_loop_ok m n kt q :
  0 < n -> (forall x, Z.land x m = x mod n) -> (forall x, u32 x mod n = x mod n) ->
  zlen (sq_array q) = n -> sqe_head q = kt -> in_u 32 kt ->
  forall c, exists a,
    flush_loop c m kt q =
      Some (u32 (kt + Z.of_nat c), sq_set_array a (u32 (kt + Z.of_nat c)) q) /\
    zlen a = n /\
    (forall i, zget (sq_array q) i = Some i -> zget a i = Some i) /\
    (forall j, 0 <= j < Z.of_nat c ->
       zget a ((kt + j) mod n) = Some ((kt + j) mod n)).
Proof.
  intros Hn Hland Hmod Hlen Hs Hu c. revert kt q Hlen Hs Hu.
  induction c as [|c IH]; intros kt q Hlen Hs Hu.
  - exists (sq_array q). rewrite Z.add_0_r, wrap_small by done. split_and!; try done.
    + simpl. rewrite <- Hs. by destruct q.
    + intros j Hj. lia.
  - cbn [flush_loop]. rewrite !Hland, Hs.
    assert (0 <= kt mod n < zlen (sq_array q)) as Hin by (rewrite Hlen; by apply Z.mod_pos_bound).
    rewrite zset_in by done. simpl.
    destruct (IH (u32 (kt + 1))
      (sq_set_array (<[Z.to_nat (kt mod n) := kt mod n]> (sq_array q)) (u32 (kt + 1)) q))
      as (a & Heq & Ha & Hpres & Hnew); [simpl; by rewrite zlen_insert|done|apply wrap_range; lia|].
    exists a. rewrite Heq, wrap_add_l. replace (kt + 1 + Z.of_nat c) with (kt + Z.of_nat (S c)) by lia.
    split_and!; try done.
    + intros i Hi. apply Hpres. simpl. destruct (decide (i = kt mod n)) as [->|Hne].
      * by rewrite zget_set_eq.
      * rewrite zget_set_ne; [done|lia|done].
    + intros j Hj. destruct (decide (j = 0)) as [->|Hj0].
      * rewrite Z.add_0_r. apply Hpres. simpl. by rewrite zget_set_eq.
      * specialize (Hnew (j - 1) ltac:(lia)).
        replace ((u32 (kt + 1) + (j - 1)) mod n) with ((kt + j) mod n) in Hnew; [done|].
        rewrite <- (Hmod (u32 (kt + 1) + _)), wrap_add_l, Hmod. f_equal. lia.
Qed.

(** The signed conversion of a distance that fits is the distance. *)
Lemma s32_dist a b : dist a b < 2 ^ 31 -> s32 (b - a) = dist a b.
Proof.
  intros. rewrite <- sext_wrap. apply sext_small; [lia|].
  pose proof (dist_range a b). unfold in_s, dist in *. lia.
Qed.

(** Publishing [sqe_tail - sqe_head] entries moves the tail to [sqe_tail]. *)
Lemma flush_tail_eq q :
  sq_ok q -> u32 (sqe_head q + sq_unflushed q) = sqe_tail q.
Proof.
  intros Hq. unfold sq_unflushed, dist. rewrite wrap_add_r.
  replace (sqe_head q + (sqe_tail q - sqe_head q)) with (sqe_tail q) by lia.
  apply wrap_small, (sq_tail_u q Hq).
Qed.

Definition flushed (a : list Z) (q : io_uring_sq) : io_uring_sq :=
  sq_set_ktail (sqe_tail q) (sq_set_array a (sqe_tail q) q).

Lemma flushed_ok q a :
  sq_ok q -> zlen a = sq_kring_entries q ->
  (forall i, zget (sq_array q) i = Some i -> zget a i = Some i) ->
  (forall j, 0 <= j < sq_unflushed q ->
     zget a ((sqe_head q + j) mod sq_kring_entries q)
       = Some ((sqe_head q + j) mod sq_kring_entries q)) ->
  sq_ok (flushed a q) /\
  sq_abs (flushed a q) = mk_sq_spec (published (sq_abs q) ++ acquired (sq_abs q)) [].
Proof.
  intros Hq Ha Hpres Hnew.
  pose proof (sq_unflushed_eq q Hq) as HL. pose proof (sq_order q Hq) as Ho.
  pose proof (sq_pending_range q Hq) as HP.
  assert (sq_pending (flushed a q) = sq_pending q + sq_unflushed q) as HP'
    by (rewrite HL; unfold flushed, sq_pending; simpl; lia).
  assert (forall j, (sqe_head q + j) mod sq_kring_entries q
                  = (sq_khead q + sq_pending q + j) mod sq_kring_entries q) as Hhead.
  { intros j. rewrite (sq_sync q Hq), Zplus_mod.
    rewrite (sq_dist_mod q Hq (sq_khead q) (sq_ktail q)). by rewrite <- Zplus_mod. }
  split.
  - destruct Hq as [Hpow Hmask Hal Hs Hsync Hh Hkt Ht _ Hid].
    split; try done; rewrite HP'; simpl.
    + lia.
    + intros j Hj. destruct (Z_lt_le_dec j (sq_pending q)).
      * apply Hpres, Hid. lia.
      * specialize (Hnew (j - sq_pending q) ltac:(lia)). rewrite Hhead in Hnew.
        by replace (sq_khead q + sq_pending q + (j - sq_pending q)) with (sq_khead q + j)
          in Hnew by lia.
  - pose proof (sq_unflushed_range q Hq) as [HL0 _].
    unfold sq_abs. rewrite HP'. unfold sq_unflushed at 2. simpl. rewrite dist_refl. f_equal.
    rewrite window_app by lia. f_equal. apply window_start_mod.
    specialize (Hhead 0). rewrite !Z.add_0_r in Hhead. done.
Qed.

Lemma flush_sq_ok q :
  sq_ok q ->
  exists a, __io_uring_flush_sq q = Some (sq_pending q + sq_unflushed q, flushed a q) /\
    sq_ok (flushed a q) /\
    sq_abs (flushed a q) = mk_sq_spec (published (sq_abs q) ++ acquired (sq_abs q)) [].
Proof.
  intros Hq. pose proof (sq_entries_le q Hq). pose proof (sq_order q Hq) as Ho.
  pose proof (sq_unflushed_range q Hq) as [HL HPL].
  pose proof (sq_unflushed_eq q Hq) as HLeq.
  assert (s32 (sqe_tail q - sq_khead q) = sq_pending q + sq_unflushed q) as Hret
    by (rewrite s32_dist; lia).
  unfold __io_uring_flush_sq. destruct (Z.eqb_spec (sqe_head q) (sqe_tail q)) as [E|_].
  - exists (sq_array q). split.
    + rewrite <- Hret. pose proof (sq_sync q Hq) as Es.
      clear -E Es. unfold flushed. destruct q; simpl in *. by subst.
    + apply flushed_ok; try done; [apply (sq_array_len q Hq)|].
      intros j. unfold sq_unflushed. rewrite E, dist_refl. lia.
  - fold (dist (sqe_head q) (sqe_tail q)) (sq_unflushed q).
    destruct (flush_loop_ok (sq_kring_mask q) (sq_kring_entries q) (sq_ktail q) q
      (sq_entries_pos q Hq) (sq_land q Hq) (sq_u32_mod q Hq) (sq_array_len q Hq)
      (sq_sync q Hq) (sq_ktail_u q Hq) (Z.to_nat (sq_unflushed q)))
      as (a & -> & Ha & Hpres & Hnew).
    rewrite Z2Nat.id, <- (sq_sync q Hq), (flush_tail_eq q Hq) in * by done. simpl.
    exists a. rewrite Hret. split; [done|]. by apply flushed_ok.
Qed.

(** *** Kernel consumption *)

Lemma consume_ok q n kf kd :
  sq_ok q -> 0 <= n <= sq_pending q ->
  let q' := sq_kernel_update n kf kd q in
  sq_ok q' /\ sq_pending q' = sq_pending q - n /\
  published (sq_abs q) =
    window zero_sqe (sq_sqes q) (sq_kring_entries q) (sq_khead q) n ++ published (sq_abs q') /\
  acquired (sq_abs q') = acquired (sq_abs q).
Proof.
  intros Hq Hn q'.
  pose proof (sq_order q Hq) as Ho.
  assert (sq_pending q' = sq_pending q - n) as HP by (apply dist_retreat; done).
  assert (dist (sq_khead q') (sqe_tail q') = dist (sq_khead q) (sqe_tail q) - n) as HT
    by (apply dist_retreat; lia).
  split_and!; [|done| |done].
  - destruct Hq as [Hpow Hmask Ha Hs Hsync Hh Hkt Ht _ Hid].
    split; try done; simpl.
    + apply wrap_range. lia.
    + rewrite HP. simpl in HT. lia.
    + rewrite HP. intros j Hj. specialize (Hid (n + j) ltac:(lia)).
      destruct Hpow as (k & Hk & E).
      assert ((u32 (sq_khead q + n) + j) mod sq_kring_entries q
              = (sq_khead q + (n + j)) mod sq_kring_entries q) as ->; [|done].
      rewrite E, <- (wrap_mod_pow2 32 k (u32 _ + _)), wrap_add_l, wrap_mod_pow2 by lia.
      f_equal. lia.
  - unfold sq_abs. rewrite HP. simpl.
    replace (sq_pending q) with (n + (sq_pending q - n)) at 1 by lia.
    rewrite window_app by lia. f_equal. apply window_start_mod.
    symmetry. apply (sq_u32_mod q Hq).
Qed.

(** *** Fresh rings *)

Lemma sq_fresh_ok k c : 0 <= k <= 30 -> in_u 32 c -> sq_ok (sq_fresh k c).
Proof.
  intros Hk Hc. pose proof (pow2_pos k ltac:(lia)).
  split; simpl; try done.
  - by exists k.
  - unfold zlen. rewrite length_replicate. lia.
  - unfold zlen. rewrite length_replicate. lia.
  - unfold sq_pending. simpl. rewrite dist_refl. lia.
  - unfold sq_pending. simpl. rewrite dist_refl. lia.
Qed.

Lemma sq_fresh_abs k c : sq_abs (sq_fresh k c) = mk_sq_spec [] [].
Proof. unfold sq_abs, sq_pending, sq_unflushed. simpl. by rewrite dist_refl. Qed.
#[export] Hint Resolve sq_fresh_ok : core.

(** ** Refinement *)

(** A step keeps the invariant and the capacity, and is a step of the queue. *)
Lemma sq_step_sound q ev q' :
  sq_ok q -> sq_step q ev q' ->
  sq_ok q' /\ sq_kring_entries q' = sq_kring_entries q /\
  spec_step (sq_kring_entries q) (sq_abs q) ev (sq_abs q').
Proof.
  intros Hq Hstep. pose proof (sq_abs_lengths q Hq) as [Lp La].
  destruct Hstep as [e slot q q1 q2 Hget Hst|q q1 Hget|q n q' Hfl|q n kf kd es Hn Hr].
  - rewrite (get_sqe_eq q Hq) in Hget. destruct (Z.ltb_spec
      (sq_pending q + sq_unflushed q) (sq_kring_entries q)) as [Hlt|]; simplify_eq.
    destruct (get_store_ok q e Hq Hlt) as (Hst' & Hok & Habs). rewrite Hst' in Hst. simplify_eq.
    split_and!; [done|done|]. rewrite Habs. destruct (sq_abs q). constructor. simpl in *. lia.
  - rewrite (get_sqe_eq q Hq) in Hget. destruct (Z.ltb_spec
      (sq_pending q + sq_unflushed q) (sq_kring_entries q)) as [|Hge]; simplify_eq.
    split_and!; [done|done|]. pose proof (sq_unflushed_range q1 Hq).
    destruct (sq_abs q1). constructor. simpl in *. lia.
  - destruct (flush_sq_ok q Hq) as (a & Hfl' & Hok & Habs). rewrite Hfl' in Hfl. simplify_eq.
    split_and!; [done|done|]. rewrite Habs. destruct (sq_abs q). constructor.
    simpl in *. unfold zlen in *. rewrite length_app. lia.
  - destruct (consume_ok q n kf kd Hq Hn) as (Hok & _ & Hpub & Hacq).
    rewrite (kernel_reads_published q Hq n Hn) in Hr. simplify_eq.
    split_and!; [done|done|]. clear Lp La. destruct (sq_abs q) as [p a].
    destruct (sq_abs (sq_kernel_update n kf kd q)) as [p' a'].
    cbn [published acquired] in *. subst. constructor.
Qed.

Lemma spec_step_history cap s ev s' :
  spec_step cap s ev s' ->
  published s ++ acquired s ++ filled [ev] = consumed [ev] ++ published s' ++ acquired s'.
Proof.
  destruct 1; simpl; rewrite ?app_nil_r, <- ?app_assoc; done.
Qed.

Lemma filled_cons ev evs : filled (ev :: evs) = filled [ev] ++ filled evs.
Proof. unfold filled. simpl. by rewrite app_nil_r. Qed.

Lemma consumed_cons ev evs : consumed (ev :: evs) = consumed [ev] ++ consumed evs.
Proof. unfold consumed. simpl. by rewrite app_nil_r. Qed.

Lemma sq_steps_history q evs q' :
  sq_ok q -> sq_steps q evs q' ->
  sq_ok q' /\
  published (sq_abs q) ++ acquired (sq_abs q) ++ filled evs =
    consumed evs ++ published (sq_abs q') ++ acquired (sq_abs q').
Proof.
  intros Hq Hs. induction Hs as [q|q ev q1 evs q2 Hstep Hs IH].
  - simpl. by rewrite app_nil_r.
  - destruct (sq_step_sound q ev q1 Hq Hstep) as (Hq1 & _ & Hsp).
    destruct (IH Hq1) as [Hq2 Hh]. split; [done|].
    apply spec_step_history in Hsp. rewrite (filled_cons ev), (consumed_cons ev).
    rewrite <- app_assoc, <- Hh, !app_assoc. f_equal. by rewrite <- !app_assoc.
Qed.

(** C17: whatever the application or the kernel does to a well-formed submission
    ring, the ring stays well formed, keeps its capacity, and the abstract bounded
    FIFO queue takes the same step: a fill appends to the acquired entries, a NULL
    is returned only at capacity, a flush publishes all acquired entries in order
    and returns their number, the kernel takes the oldest published entries. *)
Theorem sq_step_refines q ev q' :
  sq_ok q -> sq_step q ev q' ->
  sq_ok q' /\ sq_kring_entries q' = sq_kring_entries q /\
  spec_step (sq_kring_entries q) (sq_abs q) ev (sq_abs q').
Proof. apply sq_step_sound. Qed.

(** One fill of a ring of two entries whose indices are about to wrap around. *)
Lemma sq_step_refines_witness :
  let q := sq_fresh 1 (2 ^ 32 - 1) in
  let e := io_uring_prep_nop zero_sqe in
  let q' := sq_set_sqes [zero_sqe; e] (sq_set_sqe_tail 0 q) in
  sq_ok q' /\ sq_kring_entries q' = 2 /\ spec_step 2 (mk_sq_spec [] []) (EvGet e) (sq_abs q').
Proof.
  intros q e q'.
  apply (sq_step_refines q (EvGet e) q').
  - apply sq_fresh_ok; [lia|]. by vm_compute.
  - by apply (step_get e 1 q (sq_set_sqe_tail 0 q) q').
Defined.

(** C3: first in, first out, nothing lost, nothing duplicated: along any
    interleaving of application and kernel steps from a fresh ring, starting the
    free-running indices anywhere, the entries filled so far are exactly those the
    kernel has consumed, in the order they were filled, followed by those still
    published and those still acquired, of which there are at most [entries]. *)
Theorem sq_fifo k c evs q :
  0 <= k <= 30 -> in_u 32 c -> sq_steps (sq_fresh k c) evs q ->
  filled evs = consumed evs ++ published (sq_abs q) ++ acquired (sq_abs q) /\
  zlen (published (sq_abs q) ++ acquired (sq_abs q)) <= sq_kring_entries q.
Proof.
  intros Hk Hc Hs. destruct (sq_steps_history _ _ _ (sq_fresh_ok k c Hk Hc) Hs) as [Hq Hh].
  rewrite sq_fresh_abs in Hh. split; [done|].
  destruct (sq_abs_lengths q Hq). pose proof (sq_unflushed_range q Hq).
  unfold zlen in *. rewrite length_app. lia.
Qed.

Lemma sq_fifo_witness :
  let e := io_uring_prep_nop zero_sqe in
  exists q, sq_steps (sq_fresh 0 0) [EvGet e; EvFull; EvFlush 1; EvConsume [e]] q /\
    ([e] = [e] ++ published (sq_abs q) ++ acquired (sq_abs q) /\
     zlen (published (sq_abs q) ++ acquired (sq_abs q)) <= sq_kring_entries q).
Proof.
  intros e.
  set (q1 := sq_set_sqes [e] (sq_set_sqe_tail 1 (sq_fresh 0 0))).
  set (q3 := sq_set_ktail 1 (sq_set_array [0] 1 q1)).
  assert (sq_steps (sq_fresh 0 0) [EvGet e; EvFull; EvFlush 1; EvConsume [e]]
            (sq_kernel_update 1 0 0 q3)) as H.
  { eapply sq_steps_cons; [by apply (step_get e 0 _ (sq_set_sqe_tail 1 (sq_fresh 0 0)) q1)|].
    eapply sq_steps_cons; [by apply (step_full q1 q1)|].
    eapply sq_steps_cons; [by apply (step_flush q1 1 q3)|].
    eapply sq_steps_cons; [by apply (step_consume q3 1 0 0)|].
    constructor. }
  eexists. split; [exact H|]. apply (sq_fifo 0 0 _ _ ltac:(lia) ltac:(by vm_compute) H).
Defined.

Lemma space_left_eq r :
  sq_ok (r_sq r) ->
  io_uring_sq_space_left r =
    sq_kring_entries (r_sq r) - sq_pending (r_sq r) - sq_unflushed (r_sq r).
Proof.
  intros Hq. pose proof (sq_entries_le _ Hq). pose proof (sq_pending_range _ Hq).
  pose proof (sq_unflushed_range _ Hq). pose proof (sq_unflushed_eq _ Hq).
  unfold io_uring_sq_space_left, io_uring_sq_ready.
  fold (dist (sq_khead (r_sq r)) (sqe_tail (r_sq r))). destruct (flag_set _ _);
    (rewrite wrap_small; [lia|]; unfold in_u; lia).
Qed.

(** Memory safety and no spurious failure.  On a well-formed ring the pointer
    returned by [io_uring_get_sqe] can be stored through, the flush never writes
    outside the indirection array, and every published entry can be fetched by the
    kernel; NULL is returned exactly when [io_uring_sq_space_left] is zero, and the
    space left is the capacity less the entries in use. *)
Theorem sq_safe r e :
  sq_ok (r_sq r) ->
  let q := r_sq r in
  io_uring_sq_space_left r = sq_kring_entries q - sq_pending q - sq_unflushed q /\
  (io_uring_sq_space_left r = 0 -> io_uring_get_sqe q = (None, q)) /\
  (io_uring_sq_space_left r <> 0 ->
     exists slot q1 q2, io_uring_get_sqe q = (Some slot, q1) /\ sqe_store slot e q1 = Some q2) /\
  __io_uring_flush_sq q <> None /\
  (forall n, 0 <= n <= sq_pending q -> kernel_reads q n <> None).
Proof.
  intros Hq q. pose proof (sq_unflushed_range q Hq). rewrite (space_left_eq r Hq). fold q.
  split_and!; try done.
  - intros. rewrite (get_sqe_eq q Hq). case_z; [lia|done].
  - intros. destruct (get_store_ok q e Hq ltac:(lia)) as (Hst & _).
    rewrite (get_sqe_eq q Hq). case_z; [|lia]. eauto.
  - destruct (flush_sq_ok q Hq) as (a & -> & _). done.
  - intros n Hn. by rewrite (kernel_reads_published q Hq n Hn).
Qed.

Lemma sq_safe_witness :
  let r := mk_ring (sq_fresh 2 7) (mk_cq 0 0 3 4 None 0 []) 0 3 0 in
  io_uring_sq_space_left r = 4 /\ __io_uring_flush_sq (r_sq r) <> None.
Proof.
  intros r. assert (sq_ok (r_sq r)) as H by (apply sq_fresh_ok; [lia|by vm_compute]).
  destruct (sq_safe r zero_sqe H) as (H1 & _ & _ & H2 & _). split; [exact H1|exact H2].
Defined.
