(* ===== verification/CqSpec.v ===== *)
(** * The completion ring implements a FIFO queue

    Invariant and abstraction of [struct io_uring_cq]; what the traversal macro
    visits, what the internal peek returns and skips, and first-in first-out
    delivery of completions under any interleaving with the kernel. *)

From S2P Require Import Prelude Abi Prep RingBuf Ring.

(** ** Invariant and contents *)

Record cq_ok (q : io_uring_cq) : Prop := {
  cq_pow : exists k, 0 <= k <= 30 /\ cq_kring_entries q = 2 ^ k;
  cq_mask : cq_kring_mask q = cq_kring_entries q - 1;
  cq_len : zlen (cq_cqes q) = cq_kring_entries q;
  cq_head_u : in_u 32 (cq_khead q);
  cq_tail_u : in_u 32 (cq_ktail q);
  cq_order : dist (cq_khead q) (cq_ktail q) <= cq_kring_entries q;
}.

(** The completions not yet consumed, oldest first. *)
Definition cq_contents (q : io_uring_cq) : list io_uring_cqe :=
  window zero_cqe (cq_cqes q) (cq_kring_entries q) (cq_khead q) (io_uring_cq_ready q).

Definition cq_fresh (k c : Z) : io_uring_cq :=
  mk_cq c c (2 ^ k - 1) (2 ^ k) None 0 (replicate (Z.to_nat (2 ^ k)) zero_cqe).

Arguments cq_contents : simpl never.

Section ring.
Context (q : io_uring_cq) (Hq : cq_ok q).
Local Abbreviation N := (cq_kring_entries q).

Lemma cq_entries_pos : 0 < N.
Proof. destruct (cq_pow q Hq) as (k & Hk & ->). apply pow2_pos. lia. Qed.

Lemma cq_entries_le : N <= 2 ^ 30.
Proof. destruct (cq_pow q Hq) as (k & Hk & ->). apply Z.pow_le_mono_r; lia. Qed.

Lemma cq_land i : Z.land i (cq_kring_mask q) = i mod N.
Proof.
  rewrite (cq_mask q Hq). destruct (cq_pow q Hq) as (k & Hk & ->). apply land_mask. lia.
Qed.

Lemma cq_u32_mod i : u32 i mod N = i mod N.
Proof. destruct (cq_pow q Hq) as (k & Hk & ->). apply wrap_mod_pow2. lia. Qed.

Lemma cq_dist_mod a b : b mod N = (a + dist a b) mod N.
Proof. destruct (cq_pow q Hq) as (k & Hk & ->). apply index_dist_mod. lia. Qed.

Lemma cq_ready_range : 0 <= io_uring_cq_ready q <= N.
Proof. pose proof (cq_order q Hq). pose proof (dist_range (cq_khead q) (cq_ktail q)). unfold io_uring_cq_ready, dist in *. lia. Qed.

Lemma cq_contents_len : zlen (cq_contents q) = io_uring_cq_ready q.
Proof. unfold zlen, cq_contents. rewrite window_length. pose proof cq_ready_range. lia. Qed.

(** Dereferencing the entry pointer of a free-running index. *)
Lemma cq_deref i : zget (cq_cqes q) (cqe_slot q i) = Some (rget zero_cqe (cq_cqes q) N i).
Proof.
  unfold cqe_slot. rewrite cq_land. unfold rget.
  destruct (zget_in (cq_cqes q) (i mod N)) as [c ->]; [|done].
  apply slot_in; [apply cq_entries_pos|apply (cq_len q Hq)].
Qed.

Lemma cq_contents_cons :
  0 < io_uring_cq_ready q ->
  cq_contents q = rget zero_cqe (cq_cqes q) N (cq_khead q) ::
    window zero_cqe (cq_cqes q) N (cq_khead q + 1) (io_uring_cq_ready q - 1).
Proof. apply window_cons. Qed.
End ring.

(** ** Consuming *)

Lemma cq_advance_ok q n :
  cq_ok q -> 0 <= n <= io_uring_cq_ready q ->
  let q' := io_uring_cq_advance n q in
  cq_ok q' /\ cq_cqes q' = cq_cqes q /\ cq_kring_entries q' = cq_kring_entries q /\
  cq_ktail q' = cq_ktail q /\ cq_khead q' = u32 (cq_khead q + n) /\
  io_uring_cq_ready q' = io_uring_cq_ready q - n /\
  cq_contents q' = drop (Z.to_nat n) (cq_contents q).
Proof.
  intros Hq Hn q'. unfold q', io_uring_cq_advance. destruct (Z.eqb_spec n 0) as [->|Hn0].
  - split_and!; try done; [|lia].
    rewrite Z.add_0_r. symmetry. apply wrap_small, (cq_head_u q Hq).
  - assert (dist (u32 (cq_khead q + n)) (cq_ktail q) = io_uring_cq_ready q - n) as Hd
      by (apply dist_retreat; done).
    split_and!; try done.
    + destruct Hq as [Hp Hm Hl Hh Ht Ho]. split; simpl; try done.
      * apply wrap_range. lia.
      * rewrite Hd. unfold io_uring_cq_ready, dist in *. lia.
    + unfold cq_contents. rewrite <- window_drop by done.
      change (io_uring_cq_ready (cq_set_khead (u32 (cq_khead q + n)) q))
        with (dist (u32 (cq_khead q + n)) (cq_ktail q)). rewrite Hd. simpl.
      apply window_start_mod, (cq_u32_mod q Hq).
Qed.

(** ** The traversal macro *)

Lemma for_each_S n h q :
  for_each_cqe (S n) h q =
    if h =? cq_ktail q then Some []
    else l ← for_each_cqe n (u32 (h + 1)) q; Some (cqe_slot q h :: l).
Proof. done. Qed.

Lemma for_each_ok q :
  cq_ok q -> forall n h, in_u 32 h -> dist h (cq_ktail q) = Z.of_nat n ->
  exists slots, for_each_cqe (S n) h q = Some slots /\
    mapM (zget (cq_cqes q)) slots =
      Some (window zero_cqe (cq_cqes q) (cq_kring_entries q) h (Z.of_nat n)).
Proof.
  intros Hq n. induction n as [|n IH]; intros h Hh Hd.
  - exists []. rewrite for_each_S. destruct (Z.eqb_spec h (cq_ktail q)) as [|Hne]; [done|].
    exfalso. apply Hne. pose proof (cq_tail_u q Hq).
    unfold dist, wrap, in_u in *. apply Z.mod_divide in Hd as [z Hz]; lia.
  - rewrite for_each_S. destruct (Z.eqb_spec h (cq_ktail q)) as [->|Hne].
    { rewrite dist_refl in Hd. lia. }
    assert (dist (u32 (h + 1)) (cq_ktail q) = Z.of_nat n) as Hd1
      by (rewrite dist_retreat; lia).
    destruct (IH (u32 (h + 1)) ltac:(apply wrap_range; lia) Hd1) as (slots & Hs & Hm).
    exists (cqe_slot q h :: slots). rewrite Hs. split; [done|].
    simpl. rewrite (cq_deref q Hq), Hm. simpl. f_equal.
    rewrite (window_cons _ _ _ h) by lia. f_equal.
    replace (Z.of_nat (S n) - 1) with (Z.of_nat n) by lia.
    apply window_start_mod, (cq_u32_mod q Hq).
Qed.

(** ** The internal peek *)

(** What the peek does to the queue as a list: drop the leading completions of
    successful internal timeouts, stop with the error of the first failed one. *)
Fixpoint peek_spec (cs : list io_uring_cqe) : Z * option io_uring_cqe * list io_uring_cqe :=
  match cs with
  | [] => (0, None, [])
  | c :: cs' =>
      if cqe_user_data c =? LIBURING_UDATA_TIMEOUT then
        if cqe_res c <? 0 then (cqe_res c, None, cs') else peek_spec cs'
      else (0, Some c, c :: cs')
  end.

(** The pointer [p] denotes the entry [c]: both NULL, or [p] points at the slot at
    the head of the ring and [c] is what it holds. *)
Definition denotes (q : io_uring_cq) (p : option Z) (c : option io_uring_cqe) : Prop :=
  match p with
  | Some s => s = cqe_slot q (cq_khead q) /\ zget (cq_cqes q) s = c /\ is_Some c
  | None => c = None
  end.

Lemma peek_ok q fuel :
  cq_ok q -> io_uring_cq_ready q < Z.of_nat fuel ->
  exists err p avail q',
    __io_uring_peek_cqe fuel q = Ok ((err, p, avail), q') /\
    cq_ok q' /\ cq_cqes q' = cq_cqes q /\ cq_ktail q' = cq_ktail q /\
    cq_kring_entries q' = cq_kring_entries q /\ cq_kflags q' = cq_kflags q /\
    let '(err', c, rest) := peek_spec (cq_contents q) in
    err = err' /\ denotes q' p c /\ cq_contents q' = rest /\
    avail = zlen rest + (if err' =? 0 then 0 else 1).
Proof.
  revert q. induction fuel as [|fuel IH]; intros q Hq Hf.
  { pose proof (cq_ready_range q Hq). lia. }
  pose proof (cq_ready_range q Hq) as Hr. pose proof (cq_contents_len q Hq) as Hlen.
  cbn [__io_uring_peek_cqe]. fold (io_uring_cq_ready q).
  destruct (Z.eqb_spec (io_uring_cq_ready q) 0) as [E0|E0].
  { exists 0, None, (io_uring_cq_ready q), q. split_and!; try done.
    destruct (cq_contents q) eqn:E; [|unfold zlen in Hlen; simpl in Hlen; lia].
    by rewrite E0. }
  rewrite (cq_deref q Hq). rewrite (cq_contents_cons q) by lia.
  set (c := rget zero_cqe (cq_cqes q) (cq_kring_entries q) (cq_khead q)). cbn [peek_spec].
  destruct (cq_advance_ok q 1 Hq ltac:(lia)) as (Hq1 & E1 & E2 & E3 & E4 & E5 & E6).
  rewrite (cq_contents_cons q) in E6 by lia. simpl in E6.
  destruct (cqe_user_data c =? LIBURING_UDATA_TIMEOUT) eqn:Et.
  - destruct (cqe_res c <? 0) eqn:En.
    + eexists _, _, _, _. split_and!; try done.
      apply Z.ltb_lt in En. destruct (Z.eqb_spec (cqe_res c) 0); [lia|].
      unfold zlen. rewrite window_length. lia.
    + destruct (IH (io_uring_cq_advance 1 q) Hq1 ltac:(lia))
        as (err & p & av & q' & H1 & H2 & H3 & H4 & H5 & H6 & H7).
      exists err, p, av, q'. rewrite E6 in H7. split_and!; try done; congruence.
  - eexists 0, (Some _), _, q. split_and!; try done.
    + split_and!; [done|by rewrite (cq_deref q Hq)|done].
    + by rewrite (cq_contents_cons q) by lia.
    + unfold zlen. simpl. rewrite window_length. lia.
Qed.

(** ** Interleavings with the kernel *)

Inductive cq_event : Type :=
  | EvPost (c : io_uring_cqe)          (** the kernel posts a completion *)
  | EvReap (cs : list io_uring_cqe).   (** the application reads and consumes [cs] *)

(** The kernel's side: write the slot at the tail, then move the tail. *)
Definition cq_kernel_post (c : io_uring_cqe) (q : io_uring_cq) : io_uring_cq :=
  mk_cq (cq_khead q) (u32 (cq_ktail q + 1)) (cq_kring_mask q) (cq_kring_entries q) (cq_kflags q)
    (cq_koverflow q) (<[Z.to_nat (cqe_slot q (cq_ktail q)) := c]> (cq_cqes q)).

Inductive cq_step : io_uring_cq -> cq_event -> io_uring_cq -> Prop :=
  | step_post c q :
      io_uring_cq_ready q < cq_kring_entries q ->
      cq_step q (EvPost c) (cq_kernel_post c q)
  | step_reap n fuel slots cs q :
      io_uring_for_each_cqe fuel q = Some slots ->
      0 <= n <= zlen slots ->
      mapM (zget (cq_cqes q)) (take (Z.to_nat n) slots) = Some cs ->
      cq_step q (EvReap cs) (io_uring_cq_advance n q).

Inductive cq_steps : io_uring_cq -> list cq_event -> io_uring_cq -> Prop :=
  | cq_steps_nil q : cq_steps q [] q
  | cq_steps_cons q ev q1 evs q2 :
      cq_step q ev q1 -> cq_steps q1 evs q2 -> cq_steps q (ev :: evs) q2.

Definition posted (evs : list cq_event) : list io_uring_cqe :=
  evs ≫= fun ev => match ev with EvPost c => [c] | _ => [] end.
Definition reaped (evs : list cq_event) : list io_uring_cqe :=
  evs ≫= fun ev => match ev with EvReap cs => cs | _ => [] end.

Lemma posted_cons ev evs : posted (ev :: evs) = posted [ev] ++ posted evs.
Proof. unfold posted. simpl. by rewrite app_nil_r. Qed.

Lemma reaped_cons ev evs : reaped (ev :: evs) = reaped [ev] ++ reaped evs.
Proof. unfold reaped. simpl. by rewrite app_nil_r. Qed.

Lemma cq_post_ok q c :
  cq_ok q -> io_uring_cq_ready q < cq_kring_entries q ->
  cq_ok (cq_kernel_post c q) /\
  cq_contents (cq_kernel_post c q) = cq_contents q ++ [c].
Proof.
  intros Hq Hr. pose proof (cq_entries_pos q Hq). pose proof (cq_entries_le q Hq).
  pose proof (cq_ready_range q Hq) as Hrr.
  assert (io_uring_cq_ready (cq_kernel_post c q) = io_uring_cq_ready q + 1) as Hd
    by (apply dist_advance; simpl; unfold io_uring_cq_ready, dist in *; lia).
  split.
  - destruct Hq as [Hp Hm Hl Hh Ht Ho]. split; simpl; try done.
    + by rewrite zlen_insert.
    + apply wrap_range. lia.
    + unfold io_uring_cq_ready, dist in *. simpl in Hd. lia.
  - unfold cq_contents. rewrite Hd. simpl. unfold cqe_slot. rewrite (cq_land q Hq).
    rewrite (cq_dist_mod q Hq (cq_khead q) (cq_ktail q)).
    apply window_write_snoc; [done|apply (cq_len q Hq)|].
    unfold io_uring_cq_ready, dist in *. lia.
Qed.

(** Enough fuel is one more than the entries ready; more changes nothing. *)
Lemma for_each_mono fuel h q slots :
  for_each_cqe fuel h q = Some slots ->
  forall fuel', (fuel <= fuel')%nat -> for_each_cqe fuel' h q = Some slots.
Proof.
  revert h slots. induction fuel as [|n IH]; intros h slots H fuel' Hle; [done|].
  destruct fuel' as [|n']; [lia|]. rewrite for_each_S in H |- *.
  destruct (h =? cq_ktail q); [done|].
  destruct (for_each_cqe n (u32 (h + 1)) q) as [l|] eqn:E; [|done].
  by rewrite (IH _ _ E n' ltac:(lia)).
Qed.

Lemma for_each_contents q fuel slots :
  cq_ok q -> io_uring_for_each_cqe fuel q = Some slots ->
  mapM (zget (cq_cqes q)) slots = Some (cq_contents q).
Proof.
  intros Hq H. pose proof (cq_ready_range q Hq).
  destruct (for_each_ok q Hq (Z.to_nat (io_uring_cq_ready q)) (cq_khead q) (cq_head_u q Hq))
    as (slots' & Hs & Hm); [unfold io_uring_cq_ready, dist in *; lia|].
  rewrite Z2Nat.id in Hm by lia.
  assert (slots' = slots) as <-; [|done].
  set (m := Nat.max fuel (S (Z.to_nat (io_uring_cq_ready q)))).
  pose proof (for_each_mono _ _ _ _ H m ltac:(lia)).
  pose proof (for_each_mono _ _ _ _ Hs m ltac:(lia)). congruence.
Qed.

Lemma mapM_take {A B} (f : A -> option B) l k n :
  mapM f l = Some k -> mapM f (take n l) = Some (take n k).
Proof.
  intros H%mapM_Some. apply mapM_Some. by apply Forall2_take.
Qed.

Lemma cq_step_sound q ev q' :
  cq_ok q -> cq_step q ev q' ->
  cq_ok q' /\ cq_contents q ++ posted [ev] = reaped [ev] ++ cq_contents q'.
Proof.
  intros Hq Hs. destruct Hs as [c q Hr|n fuel slots cs q Hf Hn Hm].
  - destruct (cq_post_ok q c Hq Hr) as [Hq' Hc]. split; [done|]. by rewrite Hc.
  - pose proof (for_each_contents q fuel slots Hq Hf) as Hall.
    rewrite (mapM_take _ _ _ _ Hall) in Hm. simplify_eq.
    pose proof (length_mapM _ _ _ Hall) as Hl. pose proof (cq_contents_len q Hq).
    destruct (cq_advance_ok q n Hq) as (Hq' & _ & _ & _ & _ & _ & Hc).
    { unfold zlen in *. lia. }
    split; [done|]. unfold posted, reaped. simpl. rewrite Hc, !app_nil_r.
    by rewrite take_drop.
Qed.

Lemma cq_fresh_ok k c : 0 <= k <= 30 -> in_u 32 c -> cq_ok (cq_fresh k c).
Proof.
  intros Hk Hc. pose proof (pow2_pos k ltac:(lia)). split; simpl; try done.
  - by exists k.
  - unfold zlen. rewrite length_replicate. lia.
  - rewrite dist_refl. lia.
Qed.

Lemma cq_fresh_contents k c : cq_contents (cq_fresh k c) = [].
Proof.
  unfold cq_contents. change (io_uring_cq_ready (cq_fresh k c)) with (dist c c).
  by rewrite dist_refl.
Qed.
#[export] Hint Resolve cq_fresh_ok : core.

(** C16: completions are delivered first in, first out, each exactly once: along
    any interleaving of kernel posts and application reads (traversal with
    [io_uring_for_each_cqe], then [io_uring_cq_advance] by at most the number
    visited) the completions posted are those read, in order, followed by those
    still in the ring. *)
Theorem cq_fifo k c evs q :
  0 <= k <= 30 -> in_u 32 c -> cq_steps (cq_fresh k c) evs q ->
  cq_ok q /\ posted evs = reaped evs ++ cq_contents q.
Proof.
  intros Hk Hc Hs.
  enough (forall q0, cq_ok q0 -> cq_steps q0 evs q ->
    cq_ok q /\ cq_contents q0 ++ posted evs = reaped evs ++ cq_contents q) as Hgen.
  { destruct (Hgen _ (cq_fresh_ok k c Hk Hc) Hs) as [? H].
    by rewrite cq_fresh_contents in H. }
  clear Hs. intros q0 Hq0 Hs. induction Hs as [q|q ev q1 evs q2 Hst Hs IH].
  - by rewrite app_nil_r.
  - destruct (cq_step_sound q ev q1 Hq0 Hst) as [Hq1 H1].
    destruct (IH Hq1) as [Hq2 H2]. split; [done|].
    by rewrite (posted_cons ev), (reaped_cons ev), <- app_assoc, <- H2, !app_assoc, H1.
Qed.

Lemma cq_fifo_witness :
  let c1 := mk_cqe 1 4096 0 in let c2 := mk_cqe 2 0 0 in
  exists q, cq_steps (cq_fresh 1 (2 ^ 32 - 1)) [EvPost c1; EvPost c2; EvReap [c1]] q /\
    (cq_ok q /\ [c1; c2] = [c1] ++ cq_contents q).
Proof.
  intros c1 c2.
  set (q1 := cq_kernel_post c1 (cq_fresh 1 (2 ^ 32 - 1))). set (q2 := cq_kernel_post c2 q1).
  assert (cq_steps (cq_fresh 1 (2 ^ 32 - 1)) [EvPost c1; EvPost c2; EvReap [c1]]
    (io_uring_cq_advance 1 q2)) as H.
  { eapply cq_steps_cons; [apply (step_post c1); by vm_compute|].
    eapply cq_steps_cons; [apply (step_post c2); by vm_compute|].
    eapply cq_steps_cons; [|constructor].
    apply (step_reap 1 3 [1; 0]); by vm_compute. }
  eexists. split; [exact H|].
  apply (cq_fifo 1 (2 ^ 32 - 1) [EvPost c1; EvPost c2; EvReap [c1]]);
    [lia|by vm_compute|exact H].
Defined.

(** C25: [__io_uring_peek_cqe] terminates within one more iteration than there are
    completions ready, never reads outside the ring, and does to the queue what
    [peek_spec] says: leading completions of successful internal timeouts are
    consumed silently; the first failed timeout is consumed and its error returned
    with no entry; otherwise the oldest completion is returned, not consumed (or
    NULL when there is none), with the number of completions available. *)
Theorem peek_correct q fuel :
  cq_ok q -> io_uring_cq_ready q < Z.of_nat fuel ->
  exists err p avail q',
    __io_uring_peek_cqe fuel q = Ok ((err, p, avail), q') /\ cq_ok q' /\
    let '(err', c, rest) := peek_spec (cq_contents q) in
    err = err' /\ denotes q' p c /\ cq_contents q' = rest /\
    avail = zlen rest + (if err' =? 0 then 0 else 1).
Proof.
  intros Hq Hf. destruct (peek_ok q fuel Hq Hf) as (err & p & av & q' & H1 & H2 & _ & _ & _ & _ & H7).
  eauto 10.
Qed.

(** A ring holding a successful timeout completion and a read completion. *)
Lemma peek_correct_witness :
  let t := mk_cqe LIBURING_UDATA_TIMEOUT 0 0 in let c := mk_cqe 7 10 0 in
  let q := cq_kernel_post c (cq_kernel_post t (cq_fresh 1 5)) in
  exists err p avail q',
    __io_uring_peek_cqe 3 q = Ok ((err, p, avail), q') /\ cq_ok q' /\
    err = 0 /\ denotes q' p (Some c) /\ cq_contents q' = [c] /\ avail = 1 + 0.
Proof.
  intros t c q. apply (peek_correct q 3); [|by vm_compute].
  apply cq_post_ok; [|by vm_compute]. apply cq_post_ok; [|by vm_compute].
  apply cq_fresh_ok; [lia|by vm_compute].
Defined.
