(* ===== verification/Kernel.v ===== *)
(** * The kernel behind the rings

    The system calls of src/liburing/src/syscall.c go to code outside the
    repository: the kernel is a parameter, given by the operations of [Kernel],
    with the documented behaviour of io_uring_enter(2) the library relies on
    stated as the laws of [KernelLaws].  [NopKernel] is a concrete kernel that
    meets the laws. *)

From S2P Require Import Prelude Abi Prep RingBuf Ring SqSpec CqSpec.

(** What the library passes through the [sig]/[arg] pointer. *)
Inductive enter_arg : Type :=
  | ArgNull
  | ArgSigmask (sigmask : Z)
  | ArgGetevents (a : io_uring_getevents_arg).

(** [W] is the state of the world outside the process.  A system call may change
    the world and the shared memory of the ring; it returns its result and, when
    that is negative, the value of [errno]. *)
Class Kernel (W : Type) : Type := {
  sys_enter : W -> io_uring ->
    forall (fd to_submit min_complete flags : Z) (arg : enter_arg) (sz : Z),
    W * io_uring * Z * Z;
}.

(** The state of a library call: the world, the ring, [errno]. *)
Record ust (W : Type) : Type := mk_ust {
  u_world : W;
  u_ring : io_uring;
  u_errno : Z;
}.
Arguments mk_ust {W} _ _ _.
Arguments u_world {W} _.
Arguments u_ring {W} _.
Arguments u_errno {W} _.

(** [_NSIG / 8] with glibc's [_NSIG] = 65. *)
Definition NSIG_8 : Z := 8.

Section syscalls.
Context {W : Type} {K : Kernel W}.

Definition __sys_io_uring_enter2 (fd to_submit min_complete flags : Z) (sig : enter_arg) (sz : Z)
    : prog (ust W) Z :=
  fun s =>
    let '(w, r, v, e) := sys_enter (u_world s) (u_ring s) fd to_submit min_complete flags sig sz in
    Ok (v, mk_ust w r (if v <? 0 then e else u_errno s)).

Definition __sys_io_uring_enter (fd to_submit min_complete flags : Z) (sig : enter_arg)
    : prog (ust W) Z :=
  __sys_io_uring_enter2 fd to_submit min_complete flags sig NSIG_8.

(** Access to the ring from the library's code. *)
Definition ring : prog (ust W) io_uring := gets u_ring.
Definition set_ring (r : io_uring) : prog (ust W) unit :=
  modify (fun s => mk_ust (u_world s) r (u_errno s)).
Definition get_errno : prog (ust W) Z := gets u_errno.
End syscalls.

(** ** What a system call may do to the rings *)

(** The kernel posts the completions [cs], one after the other, while there is room. *)
Inductive cq_posts : io_uring_cq -> list io_uring_cqe -> io_uring_cq -> Prop :=
  | posts_nil q : cq_posts q [] q
  | posts_cons q c cs q' :
      io_uring_cq_ready q < cq_kring_entries q ->
      cq_posts (cq_kernel_post c q) cs q' -> cq_posts q (c :: cs) q'.

(** It takes [n] entries off the submission ring, posts [cs], and may change the
    words it owns; every word owned by the application is unchanged. *)
Definition kernel_acts (n : Z) (cs : list io_uring_cqe) (r r' : io_uring) : Prop :=
  0 <= n <= sq_pending (r_sq r) /\
  (exists kf kd, r_sq r' = sq_kernel_update n kf kd (r_sq r)) /\
  cq_posts (r_cq r) cs (r_cq r') /\
  r_flags r' = r_flags r /\ r_ring_fd r' = r_ring_fd r /\ r_features r' = r_features r.

(** The documented behaviour of io_uring_enter(2): the call touches only the
    kernel's words; errors are [-1] with a positive [errno] and consume nothing;
    otherwise, without SQPOLL, the result is the number of entries consumed, at
    most [to_submit], and all of them if there were that many. *)
Class KernelLaws (W : Type) {K : Kernel W} : Prop := {
  enter_acts w r fd sub mn fl a sz w' r' v e :
    sys_enter w r fd sub mn fl a sz = (w', r', v, e) ->
    in_u 32 sub -> sq_ok (r_sq r) -> cq_ok (r_cq r) ->
    exists n cs, kernel_acts n cs r r' /\
      (v < 0 -> v = -1 /\ 0 < e < 4096 /\ (flag_set (r_flags r) IORING_SETUP_SQPOLL = false -> n = 0)) /\
      (0 <= v -> flag_set (r_flags r) IORING_SETUP_SQPOLL = false -> n = v /\ v <= sub);
}.

(** ** Consequences *)

Definition ring_ok (r : io_uring) : Prop := sq_ok (r_sq r) /\ cq_ok (r_cq r).

Lemma cq_posts_ok q cs q' :
  cq_posts q cs q' -> cq_ok q -> cq_ok q' /\ cq_contents q' = cq_contents q ++ cs.
Proof.
  induction 1 as [q|q c cs q' Hr Hp IH]; intros Hq.
  - by rewrite app_nil_r.
  - destruct (cq_post_ok q c Hq Hr) as [Hq1 Hc1]. destruct (IH Hq1) as [Hq' Hc'].
    split; [done|]. by rewrite Hc', Hc1, <- app_assoc.
Qed.

Lemma kernel_acts_ok n cs r r' :
  kernel_acts n cs r r' -> ring_ok r ->
  ring_ok r' /\
  published (sq_abs (r_sq r')) = drop (Z.to_nat n) (published (sq_abs (r_sq r))) /\
  acquired (sq_abs (r_sq r')) = acquired (sq_abs (r_sq r)) /\
  cq_contents (r_cq r') = cq_contents (r_cq r) ++ cs.
Proof.
  intros (Hn & (kf & kd & Hsq) & Hp & _) [Hs Hc].
  destruct (consume_ok (r_sq r) n kf kd Hs Hn) as (Hs' & _ & Hpub & Hacq).
  destruct (cq_posts_ok _ _ _ Hp Hc) as [Hc' Hcont].
  rewrite Hsq. split_and!; [by split; rewrite ?Hsq|..|done|done].
  rewrite Hpub, drop_app_length'; [done|]. by rewrite window_length.
Qed.

(** ** A concrete kernel

    It consumes up to [to_submit] entries without doing anything for them, posts
    the completions the world has in store while there is room, and fails with
    [EINTR] when the world says so. *)
Record nop_world : Type := mk_nop { nw_store : list io_uring_cqe; nw_fail : bool }.

Fixpoint nop_post (cs : list io_uring_cqe) (q : io_uring_cq) : io_uring_cq * list io_uring_cqe :=
  match cs with
  | [] => (q, [])
  | c :: cs' =>
      if io_uring_cq_ready q <? cq_kring_entries q
      then nop_post cs' (cq_kernel_post c q) else (q, cs)
  end.

Definition nop_enter (w : nop_world) (r : io_uring) (fd sub mn fl : Z) (a : enter_arg) (sz : Z)
    : nop_world * io_uring * Z * Z :=
  if nw_fail w then (mk_nop (nw_store w) false, r, -1, EINTR)
  else
    let n := Z.max 0 (Z.min sub (sq_pending (r_sq r))) in
    let '(q, cs) := nop_post (nw_store w) (r_cq r) in
    (mk_nop cs false, set_cq q (set_sq (sq_kernel_update n 0 0 (r_sq r)) r), n, 0).

#[export] Instance NopKernel : Kernel nop_world := {| sys_enter := nop_enter |}.

Lemma nop_post_posts cs q q' cs' :
  nop_post cs q = (q', cs') -> exists l, cq_posts q l q'.
Proof.
  revert q. induction cs as [|c cs IH]; intros q; simpl.
  - intros [= <- <-]. exists []. constructor.
  - destruct (Z.ltb_spec (io_uring_cq_ready q) (cq_kring_entries q)).
    + intros Hp. destruct (IH _ Hp) as [l Hl]. exists (c :: l). by constructor.
    + intros [= <- <-]. exists []. constructor.
Qed.

#[export] Instance NopKernel_laws : KernelLaws nop_world.
Proof.
  split. intros w r fd sub mn fl a sz w' r' v e Hs Hsub Hsq Hcq. simpl in Hs.
  pose proof (sq_pending_range (r_sq r) Hsq) as Hp. unfold nop_enter, in_u in *.
  destruct (nw_fail w).
  - injection Hs as <- <- <- <-. exists 0, []. split_and!; [|unfold EINTR; lia|lia].
    split_and!; try lia; try done; [|constructor].
    exists (sq_kflags (r_sq r)), (sq_kdropped (r_sq r)). unfold sq_kernel_update.
    rewrite Z.add_0_r, wrap_small by apply (sq_head_u _ Hsq). by destruct (r_sq r).
  - destruct (nop_post _ _) as [q cs] eqn:Hnp. injection Hs as <- <- <- <-.
    destruct (nop_post_posts _ _ _ _ Hnp) as [l Hl].
    exists (Z.max 0 (Z.min sub (sq_pending (r_sq r)))), l. split_and!; [|lia|lia].
    split_and!; try done; [lia|lia|]. by exists 0, 0.
Qed.
