(* ===== verification/Queue.v ===== *)
(** * Submitting and waiting (src/liburing/src/queue.c)

    The functions of queue.c that make system calls, over the [Kernel]
    interface.  [*cqe_ptr] is returned beside the error code; a function that
    returns early without writing it returns the value it was given. *)

From S2P Require Import Prelude Abi Prep RingBuf Ring SqSpec CqSpec Kernel.

Record get_data : Type := mk_get_data {
  gd_submit : Z;
  gd_wait_nr : Z;
  gd_get_flags : Z;
  gd_sz : Z;
  gd_arg : enter_arg;
}.

Definition gd_update (submit wait_nr : Z) (d : get_data) : get_data :=
  mk_get_data submit wait_nr (gd_get_flags d) (gd_sz d) (gd_arg d).

Definition is_some {A} (o : option A) : bool := match o with Some _ => true | None => false end.

(** [sizeof (struct io_uring_getevents_arg)]. *)
Definition sizeof_getevents_arg : Z := 24.

Section queue.
Context {W : Type} {K : Kernel W}.

(** Calls into the ring operations.  The peek needs at most one iteration more
    than there are completions ready ([peek_ok]). *)
Definition peek_cqe : prog (ust W) (Z * option Z * Z) :=
  let* r := ring in
  match __io_uring_peek_cqe (S (Z.to_nat (io_uring_cq_ready (r_cq r)))) (r_cq r) with
  | Ok (v, q) => do* set_ring (set_cq q r) in ret v
  | Fault f => raise f
  | NoFuel => no_fuel
  end.

Definition flush_sq : prog (ust W) Z :=
  let* r := ring in
  match __io_uring_flush_sq (r_sq r) with
  | Some (n, q) => do* set_ring (set_sq q r) in ret n
  | None => raise OutOfBounds
  end.

Definition get_sqe : prog (ust W) (option Z) :=
  let* r := ring in
  let '(slot, q) := io_uring_get_sqe (r_sq r) in
  do* set_ring (set_sq q r) in ret slot.

Definition store_sqe (slot : Z) (f : io_uring_sqe -> io_uring_sqe) : prog (ust W) unit :=
  let* r := ring in
  match zget (sq_sqes (r_sq r)) slot with
  | None => raise OutOfBounds
  | Some e =>
      match sqe_store slot (f e) (r_sq r) with
      | Some q => set_ring (set_sq q r)
      | None => raise OutOfBounds
      end
  end.

(** ** [_io_uring_get_cqe] *)

(** One iteration of its loop ends it with an error and an entry pointer, or
    goes round again with the last result of the system call and the data. *)
Inductive iter_result : Type :=
  | Break (err : Z) (cqe : option Z)
  | Again (ret : Z) (data : get_data).

(** The part of the body below the check for [-EAGAIN]. *)
Definition get_cqe_enter (ret : Z) (data : get_data) (cqe : option Z) (nr_available : Z)
    (cq_overflow_flush : bool) : prog (ust W) iter_result :=
  let wait_nr :=
    if negb (gd_wait_nr data =? 0) && is_some cqe then u32 (gd_wait_nr data - 1)
    else gd_wait_nr data in
  let flags :=
    if negb (wait_nr =? 0) || cq_overflow_flush
    then Z.lor IORING_ENTER_GETEVENTS (gd_get_flags data) else 0 in
  let* r := ring in
  let flags :=
    if negb (gd_submit data =? 0) then snd (sq_ring_needs_enter r flags) else flags in
  let* ret :=
    if (nr_available <? wait_nr) || negb (gd_submit data =? 0) || cq_overflow_flush
    then __sys_io_uring_enter2 (r_ring_fd r) (gd_submit data) wait_nr flags (gd_arg data)
           (gd_sz data)
    else Prelude.ret ret in
  let* errno := get_errno in
  let* r := ring in
  let err := if ret <? 0 then - errno else 0 in
  let data :=
    if ret <? 0 then gd_update (gd_submit data) wait_nr data
    else if ret =? s32 (gd_submit data) then
      gd_update 0 (if negb (flag_set (r_flags r) IORING_SETUP_IOPOLL) then 0 else wait_nr) data
    else gd_update (u32 (gd_submit data - ret)) wait_nr data in
  if is_some cqe then Prelude.ret (Break err cqe)
  else if err =? 0 then Prelude.ret (Again ret data)
  else Prelude.ret (Break err cqe).

Definition get_cqe_iter (to_wait ret : Z) (data : get_data) : prog (ust W) iter_result :=
  let* (err, cqe, nr_available) := peek_cqe in
  if negb (err =? 0) then Prelude.ret (Break err cqe)
  else if negb (is_some cqe) && (to_wait =? 0) && (gd_submit data =? 0) then
    let* r := ring in
    if negb (cq_ring_needs_flush r) then Prelude.ret (Break (- EAGAIN) cqe)
    else get_cqe_enter ret data cqe nr_available true
  else get_cqe_enter ret data cqe nr_available false.

Fixpoint get_cqe_loop (fuel : nat) (to_wait ret : Z) (data : get_data)
    : prog (ust W) (Z * option Z) :=
  match fuel with
  | O => no_fuel
  | S n =>
      let* it := get_cqe_iter to_wait ret data in
      match it with
      | Break err cqe => Prelude.ret (err, cqe)
      | Again ret data => get_cqe_loop n to_wait ret data
      end
  end.

Definition _io_uring_get_cqe (fuel : nat) (data : get_data) : prog (ust W) (Z * option Z) :=
  get_cqe_loop fuel (s32 (gd_wait_nr data)) 0 data.

Definition __io_uring_get_cqe (fuel : nat) (submit wait_nr : Z) (sigmask : enter_arg)
    : prog (ust W) (Z * option Z) :=
  _io_uring_get_cqe fuel (mk_get_data submit wait_nr 0 NSIG_8 sigmask).

Definition io_uring_wait_cqe_nr (fuel : nat) (wait_nr : Z) : prog (ust W) (Z * option Z) :=
  __io_uring_get_cqe fuel 0 wait_nr ArgNull.

Definition io_uring_peek_cqe (fuel : nat) : prog (ust W) (Z * option Z) :=
  io_uring_wait_cqe_nr fuel 0.

Definition io_uring_wait_cqe (fuel : nat) : prog (ust W) (Z * option Z) :=
  io_uring_wait_cqe_nr fuel 1.

(** ** Batch peek *)

(** The body of the [again:] block: [None] when nothing is ready. *)
Definition peek_batch (count : Z) (q : io_uring_cq) : option (Z * list Z) :=
  let ready := io_uring_cq_ready q in
  if negb (ready =? 0) then
    let count := if ready <? count then ready else count in
    Some (count, batch_loop (Z.to_nat count) (cq_khead q) q)
  else None.

Definition io_uring_peek_batch_cqe (count : Z) : prog (ust W) (Z * list Z) :=
  let* r := ring in
  match peek_batch count (r_cq r) with
  | Some v => ret v
  | None =>
      if cq_ring_needs_flush r then
        let* _ := __sys_io_uring_enter (r_ring_fd r) 0 0 IORING_ENTER_GETEVENTS ArgNull in
        let* r := ring in
        match peek_batch count (r_cq r) with
        | Some v => ret v
        | None => ret (0, [])
        end
      else ret (0, [])
  end.

(** ** Submission *)

Definition __io_uring_submit (submitted wait_nr : Z) : prog (ust W) Z :=
  let* r := ring in
  let '(needs_enter, flags) := sq_ring_needs_enter r 0 in
  if needs_enter || negb (wait_nr =? 0) then
    let flags :=
      if negb (wait_nr =? 0) || flag_set (r_flags r) IORING_SETUP_IOPOLL
      then Z.lor flags IORING_ENTER_GETEVENTS else flags in
    let* v := __sys_io_uring_enter (r_ring_fd r) submitted wait_nr flags ArgNull in
    if v <? 0 then let* e := get_errno in ret (- e) else ret v
  else ret (s32 submitted).

Definition __io_uring_submit_and_wait (wait_nr : Z) : prog (ust W) Z :=
  let* n := flush_sq in
  __io_uring_submit (u32 n) wait_nr.

Definition io_uring_submit : prog (ust W) Z := __io_uring_submit_and_wait 0.

Definition io_uring_submit_and_wait (wait_nr : Z) : prog (ust W) Z :=
  __io_uring_submit_and_wait wait_nr.

Definition __io_uring_sqring_wait : prog (ust W) Z :=
  let* r := ring in
  let* v := __sys_io_uring_enter (r_ring_fd r) 0 0 IORING_ENTER_SQ_WAIT ArgNull in
  if v <? 0 then let* e := get_errno in ret (- e) else ret v.

Definition io_uring_sqring_wait : prog (ust W) Z :=
  let* r := ring in
  if negb (flag_set (r_flags r) IORING_SETUP_SQPOLL) then ret 0
  else if negb (io_uring_sq_space_left r =? 0) then ret 0
  else __io_uring_sqring_wait.

(** ** Waiting with a timeout *)

(** [ts] and [sigmask] are addresses; 0 is NULL. *)
Definition sigmask_arg (sigmask : Z) : enter_arg :=
  if sigmask =? 0 then ArgNull else ArgSigmask sigmask.

Definition io_uring_wait_cqes_new (fuel : nat) (wait_nr ts sigmask : Z)
    : prog (ust W) (Z * option Z) :=
  let arg := mk_getevents_arg (u64 sigmask) NSIG_8 0 (u64 ts) in
  let* n := flush_sq in
  _io_uring_get_cqe fuel
    (mk_get_data (u32 n) wait_nr IORING_ENTER_EXT_ARG sizeof_getevents_arg (ArgGetevents arg)).

(** The block that queues the internal timeout: [inl] is an early return. *)
Definition fill_timeout (wait_nr ts slot : Z) : prog (ust W) (Z + Z) :=
  do* store_sqe slot (io_uring_prep_timeout ts wait_nr 0) in
  do* store_sqe slot (set_user_data LIBURING_UDATA_TIMEOUT) in
  let* n := flush_sq in ret (inr n).

Definition queue_timeout (wait_nr ts : Z) : prog (ust W) (Z + Z) :=
  let* sqe := get_sqe in
  match sqe with
  | Some slot => fill_timeout wait_nr ts slot
  | None =>
      let* v := io_uring_submit in
      if v <? 0 then ret (inl v)
      else
        let* sqe := get_sqe in
        match sqe with
        | Some slot => fill_timeout wait_nr ts slot
        | None => ret (inl (- EAGAIN))
        end
  end.

Definition io_uring_wait_cqes (fuel : nat) (cqe_ptr : option Z) (wait_nr ts sigmask : Z)
    : prog (ust W) (Z * option Z) :=
  if negb (ts =? 0) then
    let* r := ring in
    if flag_set (r_features r) IORING_FEAT_EXT_ARG
    then io_uring_wait_cqes_new fuel wait_nr ts sigmask
    else
      let* t := queue_timeout wait_nr ts in
      match t with
      | inl v => ret (v, cqe_ptr)
      | inr to_submit => __io_uring_get_cqe fuel (u32 to_submit) wait_nr (sigmask_arg sigmask)
      end
  else __io_uring_get_cqe fuel 0 wait_nr (sigmask_arg sigmask).

Definition io_uring_wait_cqe_timeout (fuel : nat) (cqe_ptr : option Z) (ts : Z)
    : prog (ust W) (Z * option Z) :=
  io_uring_wait_cqes fuel cqe_ptr 1 ts 0.
End queue.
