(* ===== verification/QueueSpec.v ===== *)
(** * What submitting and waiting do

    The theorems about queue.c, for any kernel that meets the laws of
    [KernelLaws] where the kernel is involved at all. *)

From S2P Require Import Prelude Abi Prep RingBuf Ring SqSpec CqSpec Kernel Queue.

Section spec.
Context {W : Type} {K : Kernel W}.
Implicit Types (s : ust W) (d : get_data).

(** The state after the completion ring moved on. *)
Definition with_cq (q : io_uring_cq) s : ust W :=
  mk_ust (u_world s) (set_cq q (u_ring s)) (u_errno s).
Definition with_sq (q : io_uring_sq) s : ust W :=
  mk_ust (u_world s) (set_sq q (u_ring s)) (u_errno s).

Definition contents s : list io_uring_cqe := cq_contents (r_cq (u_ring s)).

Lemma peek_cqe_ok s :
  ring_ok (u_ring s) ->
  exists err p av q, peek_cqe s = Ok ((err, p, av), with_cq q s) /\ cq_ok q /\
    let '(err', c, rest) := peek_spec (contents s) in
    err = err' /\ denotes q p c /\ cq_contents q = rest /\
    av = zlen rest + (if err' =? 0 then 0 else 1).
Proof.
  intros [_ Hc]. pose proof (cq_ready_range _ Hc).
  destruct (peek_ok (r_cq (u_ring s)) (S (Z.to_nat (io_uring_cq_ready (r_cq (u_ring s))))) Hc)
    as (err & p & av & q & H1 & H2 & _ & _ & _ & _ & H3); [lia|].
  exists err, p, av, q. split_and!; [|done|done].
  unfold peek_cqe, ring, gets, bind. by rewrite H1.
Qed.

Lemma denotes_none q p : denotes q p None -> p = None.
Proof. destruct p; simpl; [|done]. by intros (_ & _ & [? ?]). Qed.

Lemma denotes_some q p c :
  denotes q p (Some c) -> exists slot, p = Some slot /\ zget (cq_cqes q) slot = Some c.
Proof. destruct p as [slot|]; simpl; [|done]. intros (_ & ? & _). eauto. Qed.

(** ** Iterations that make no system call *)

Lemma iter_error to_wait r d s e rest :
  ring_ok (u_ring s) -> peek_spec (contents s) = (e, None, rest) -> e <> 0 ->
  exists q, get_cqe_iter to_wait r d s = Ok (Break e None, with_cq q s) /\ cq_ok q /\
    cq_contents q = rest.
Proof.
  intros Hok Hp He. destruct (peek_cqe_ok s Hok) as (err & p & av & q & H1 & H2 & H3).
  rewrite Hp in H3. destruct H3 as (-> & Hd%denotes_none & H3 & _). subst p.
  exists q. split; [|done]. unfold get_cqe_iter. rewrite (bind_ok _ _ _ _ _ H1).
  by destruct (Z.eqb_spec e 0).
Qed.

(** With nothing ready the peek changes nothing. *)
Lemma peek_cqe_empty s :
  io_uring_cq_ready (r_cq (u_ring s)) = 0 -> peek_cqe s = Ok ((0, None, 0), s).
Proof.
  intros H. unfold peek_cqe, ring, gets, bind. rewrite H. simpl.
  fold (io_uring_cq_ready (r_cq (u_ring s))). rewrite H. by destruct s as [? [] ?].
Qed.

(** An iteration that finds nothing, with nothing to submit and nothing left to
    wait for, keeps the result of the last system call and subtracts it again. *)
Lemma iter_spin_empty to_wait r d s :
  io_uring_cq_ready (r_cq (u_ring s)) = 0 -> to_wait <> 0 ->
  gd_submit d = 0 -> gd_wait_nr d = 0 -> 0 < r ->
  get_cqe_iter to_wait r d s = Ok (Again r (gd_update (u32 (- r)) 0 d), s).
Proof.
  intros Hc Hw Hs Hn Hr. unfold get_cqe_iter.
  rewrite (bind_ok _ _ _ _ _ (peek_cqe_empty s Hc)). simpl.
  destruct (Z.eqb_spec to_wait 0); [done|]. unfold get_cqe_enter. rewrite Hs, Hn. simpl.
  unfold bind, ring, gets, get_errno, ret. change (s32 0) with 0. cbn -[wrap].
  destruct (Z.ltb_spec r 0); [lia|]. by destruct (Z.eqb_spec r 0); [lia|].
Qed.

(** An iteration that finds nothing ready and enters the kernel without SQPOLL. *)
Lemma iter_enter_empty to_wait r d s w' r' v e :
  io_uring_cq_ready (r_cq (u_ring s)) = 0 ->
  flag_set (r_flags (u_ring s)) IORING_SETUP_SQPOLL = false ->
  0 < gd_submit d -> 0 <= gd_wait_nr d ->
  sys_enter (u_world s) (u_ring s) (r_ring_fd (u_ring s)) (gd_submit d) (gd_wait_nr d)
    (if gd_wait_nr d =? 0 then 0 else Z.lor IORING_ENTER_GETEVENTS (gd_get_flags d))
    (gd_arg d) (gd_sz d) = (w', r', v, e) ->
  0 <= v ->
  get_cqe_iter to_wait r d s =
    Ok (Again v (if v =? s32 (gd_submit d)
                 then gd_update 0 (if flag_set (r_flags r') IORING_SETUP_IOPOLL
                                   then gd_wait_nr d else 0) d
                 else gd_update (u32 (gd_submit d - v)) (gd_wait_nr d) d),
        mk_ust w' r' (u_errno s)).
Proof.
  intros Hc Hp Hs Hw He Hv. unfold get_cqe_iter.
  rewrite (bind_ok _ _ _ _ _ (peek_cqe_empty s Hc)). simpl.
  assert ((gd_submit d =? 0) = false) as E by (apply Z.eqb_neq; lia).
  rewrite E, !andb_false_r. unfold get_cqe_enter. rewrite E. simpl.
  rewrite !andb_false_r, !orb_true_r, !orb_false_r, !if_negb.
  unfold sq_ring_needs_enter, ring, gets, get_errno, bind. rewrite Hp. simpl.
  unfold __sys_io_uring_enter2. rewrite He. simpl.
  destruct (Z.ltb_spec v 0); [lia|]. by rewrite if_negb.
Qed.

(** An iteration that finds a completion and needs nothing from the kernel. *)
Lemma iter_found to_wait d s c rest :
  ring_ok (u_ring s) -> peek_spec (contents s) = (0, Some c, rest) ->
  gd_submit d = 0 -> 0 <= gd_wait_nr d <= zlen rest + 1 -> in_u 32 (gd_wait_nr d) ->
  exists q p, get_cqe_iter to_wait 0 d s = Ok (Break 0 p, with_cq q s) /\
    cq_ok q /\ cq_contents q = rest /\ denotes q p (Some c).
Proof.
  intros Hok Hp Hs Hw Hu. destruct (peek_cqe_ok s Hok) as (err & p & av & q & H1 & H2 & H3).
  rewrite Hp in H3. destruct H3 as (-> & Hd & H3 & Hav). exists q, p. split; [|done].
  destruct (denotes_some _ _ _ Hd) as (slot & -> & _).
  unfold get_cqe_iter. rewrite (bind_ok _ _ _ _ _ H1). simpl. unfold get_cqe_enter.
  rewrite Hs. simpl. rewrite andb_true_r, !orb_false_r.
  match goal with |- context [av <? ?w] => assert ((av <? w) = false) as -> end.
  { rewrite Z.ltb_ge. change (0 =? 0) with true in Hav. cbv iota in Hav.
    pose proof (Nat2Z.is_nonneg (length rest)). unfold zlen, in_u in *.
    destruct (Z.eqb_spec (gd_wait_nr d) 0); simpl; [lia|].
    rewrite wrap_small by (unfold in_u; lia). lia. }
  unfold bind, ring, gets, get_errno, ret. reflexivity.
Qed.

(** ** The completions that reached the application *)

Definition is_timeout (c : io_uring_cqe) : Prop := cqe_user_data c = LIBURING_UDATA_TIMEOUT.

Lemma peek_spec_split cs e c rest :
  peek_spec cs = (e, c, rest) ->
  exists ts, cs = ts ++ rest /\ Forall is_timeout ts /\
    (e < 0 \/ e = 0) /\
    match c with
    | Some x => e = 0 /\ ~ is_timeout x /\ exists tl, rest = x :: tl
    | None => e = 0 -> rest = []
    end.
Proof.
  revert e c rest. induction cs as [|x cs IH]; intros e c rest; cbn [peek_spec].
  { intros [= <- <- <-]. exists []. split_and!; try done. by right. }
  destruct (Z.eqb_spec (cqe_user_data x) LIBURING_UDATA_TIMEOUT) as [Ht|Ht].
  - destruct (Z.ltb_spec (cqe_res x) 0).
    + intros [= <- <- <-]. exists [x]. split_and!; [done|by repeat constructor|by left|lia].
    + intros Hp. destruct (IH _ _ _ Hp) as (ts & -> & Hts & He & Hc).
      exists (x :: ts). split_and!; [done|by constructor|done|done].
  - intros [= <- <- <-]. exists []. split_and!; try done; [by right|by exists cs].
Qed.

Lemma head_denotes q c rest :
  cq_ok q -> cq_contents q = c :: rest ->
  zget (cq_cqes q) (cqe_slot q (cq_khead q)) = Some c.
Proof.
  intros Hq Hc. pose proof (cq_contents_len q Hq) as Hl. pose proof (cq_ready_range q Hq).
  rewrite (cq_deref q Hq). rewrite (cq_contents_cons q) in Hc.
  - by injection Hc as ->.
  - rewrite Hc in Hl. unfold zlen in Hl. simpl in Hl. lia.
Qed.

Lemma cq_posts_slot q cs q' :
  cq_posts q cs q' -> cqe_slot q' (cq_khead q') = cqe_slot q (cq_khead q).
Proof. by induction 1 as [|q c cs q' _ _ ->]. Qed.

(** What a call may do to the rings: entries leave the submission queue at the
    front, completions join at the back, internal timeouts leave at the front. *)
Definition rings_move s s' : Prop :=
  ring_ok (u_ring s') /\
  exists n ts cs,
    contents s ++ cs = ts ++ contents s' /\ Forall is_timeout ts /\
    published (sq_abs (r_sq (u_ring s'))) = drop n (published (sq_abs (r_sq (u_ring s)))) /\
    acquired (sq_abs (r_sq (u_ring s'))) = acquired (sq_abs (r_sq (u_ring s))).

Lemma rings_move_refl s : ring_ok (u_ring s) -> rings_move s s.
Proof.
  intros H. split; [done|]. exists O, [], []. rewrite app_nil_r, drop_0. naive_solver.
Qed.

Lemma rings_move_trans s1 s2 s3 : rings_move s1 s2 -> rings_move s2 s3 -> rings_move s1 s3.
Proof.
  intros [_ (n & ts & cs & Hc & Ht & Hp & Ha)] [Hok (n' & ts' & cs' & Hc' & Ht' & Hp' & Ha')].
  split; [done|]. exists (n + n')%nat, (ts ++ ts'), (cs ++ cs'). split_and!.
  - by rewrite app_assoc, Hc, <- !app_assoc, Hc'.
  - by apply Forall_app.
  - by rewrite Hp', Hp, drop_drop.
  - by rewrite Ha'.
Qed.

(** The pointer [p] was handed to the application in state [s]. *)
Definition handed (p : option Z) s : Prop :=
  match p with
  | Some slot => slot = cqe_slot (r_cq (u_ring s)) (cq_khead (r_cq (u_ring s))) /\
      exists c rest, contents s = c :: rest /\ ~ is_timeout c /\
        zget (cq_cqes (r_cq (u_ring s))) slot = Some c
  | None => True
  end.

Lemma peek_cqe_moves s :
  ring_ok (u_ring s) ->
  exists err p av s', peek_cqe s = Ok ((err, p, av), s') /\ rings_move s s' /\ handed p s' /\
    (err <> 0 -> p = None) /\ (err < 0 \/ err = 0).
Proof.
  intros Hok. destruct (peek_cqe_ok s Hok) as (err & p & av & q & H1 & H2 & H3).
  destruct (peek_spec (contents s)) as [[e c] rest] eqn:Hp. destruct H3 as (-> & Hd & Hr & _).
  destruct (peek_spec_split _ _ _ _ Hp) as (ts & Hts & Hf & He0 & Hc).
  exists e, p, av, (with_cq q s). split_and!; [done| | | |done].
  - split; [by destruct Hok|]. exists O, ts, []. rewrite app_nil_r, drop_0.
    unfold contents at 2. simpl. by rewrite Hr.
  - destruct p as [slot|]; [|done]. destruct Hd as (-> & Hz & [x ->]).
    destruct Hc as (_ & Hx & tl & ->). split; [done|].
    exists x, tl. unfold contents. simpl. by rewrite Hr.
  - intros He. destruct c as [x|]; [by destruct Hc|]. by apply (denotes_none q).
Qed.
End spec.

(** ** With a lawful kernel *)

Section laws.
Context {W : Type} {K : Kernel W} {L : KernelLaws W}.
Implicit Types (s : ust W) (d : get_data).

(** A system call always returns; it moves the rings, leaves the head of the
    completion ring where it was, and its errors are proper. *)
Lemma enter_moves fd sub mn fl a sz s :
  in_u 32 sub -> ring_ok (u_ring s) ->
  exists v s', __sys_io_uring_enter2 fd sub mn fl a sz s = Ok (v, s') /\ rings_move s s' /\
    (forall p, handed p s -> handed p s') /\
    (v < 0 -> v = -1 /\ 0 < u_errno s' < 4096) /\
    (0 <= v -> u_errno s' = u_errno s) /\
    r_flags (u_ring s') = r_flags (u_ring s).
Proof.
  intros Hsub [Hsq Hcq]. unfold __sys_io_uring_enter2.
  destruct (sys_enter _ _ _ _ _ _ _ _) as [[[w' r'] v] e] eqn:He.
  destruct (enter_acts _ _ _ _ _ _ _ _ _ _ _ _ He Hsub Hsq Hcq) as (n & cs & Ha & Herr & _).
  destruct (kernel_acts_ok _ _ _ _ Ha ltac:(done)) as (Hok & Hp & Hacq & Hc).
  exists v, (mk_ust w' r' (if v <? 0 then e else u_errno s)). split_and!; [done|..]; simpl.
  - split; [done|]. exists (Z.to_nat n), [], cs. by split_and!.
  - intros [slot|]; [|done]. intros (-> & c & rest & Hcs & Ht & Hz). simpl.
    destruct Ha as (_ & _ & Hposts & _). rewrite (cq_posts_slot _ _ _ Hposts).
    split; [done|]. exists c, (rest ++ cs). unfold contents. simpl. rewrite Hc.
    unfold contents in Hcs. rewrite Hcs. split_and!; [done|done|].
    rewrite <- (cq_posts_slot _ _ _ Hposts).
    apply (head_denotes _ c (rest ++ cs)); [apply Hok|]. by rewrite Hc, Hcs.
  - intros Hv. rewrite (proj2 (Z.ltb_lt v 0) Hv). by destruct (Herr Hv) as (? & ? & _).
  - intros Hv. by rewrite (proj2 (Z.ltb_ge v 0) Hv).
  - apply Ha.
Qed.

(** What an iteration of the loop, or the whole loop, leaves behind. *)
Definition iter_sound s (it : iter_result) s' : Prop :=
  rings_move s s' /\
  match it with
  | Break err p => handed p s' /\ (p = None -> err <> 0) /\ (err < 0 \/ err = 0)
  | Again v d => in_u 32 (gd_submit d) /\ 0 <= v
  end.

Lemma get_cqe_enter_sound v d p av fl s :
  0 <= v -> in_u 32 (gd_submit d) -> ring_ok (u_ring s) -> handed p s ->
  exists it s', get_cqe_enter v d p av fl s = Ok (it, s') /\ iter_sound s it s'.
Proof.
  intros Hv Hsub Hok Hh. unfold get_cqe_enter.
  set (wn := if _ && _ then _ else _). set (fg := if negb (wn =? 0) || _ then _ else _).
  unfold ring at 1, gets at 1, bind at 1.
  set (fg' := if negb (gd_submit d =? 0) then _ else _).
  assert (exists v' s', (if (av <? wn) || negb (gd_submit d =? 0) || fl
      then __sys_io_uring_enter2 (r_ring_fd (u_ring s)) (gd_submit d) wn fg' (gd_arg d) (gd_sz d)
      else ret v) s = Ok (v', s') /\ rings_move s s' /\ handed p s' /\
      (v' < 0 -> v' = -1 /\ 0 < u_errno s' < 4096)) as (v' & s' & Heq & Hm & Hh' & He).
  { destruct ((av <? wn) || _ || fl).
    - destruct (enter_moves (r_ring_fd (u_ring s)) _ wn fg' (gd_arg d) (gd_sz d) s Hsub Hok)
        as (v' & s' & H1 & H2 & H3 & H4 & _). exists v', s'. split_and!; [done|done|by apply H3|apply H4].
    - exists v, s. split_and!; [done|by apply rings_move_refl|done|lia]. }
  rewrite (bind_ok _ _ _ _ _ Heq). clear Heq. unfold bind, get_errno, ring, gets.
  set (d' := if v' <? 0 then gd_update _ _ _ else _).
  assert (in_u 32 (gd_submit d')) as Hd'.
  { unfold d'. case_z; [done|]. case_z; [done|]. apply wrap_range. lia. }
  clearbody d' fg' wn. destruct p as [slot|]; simpl.
  - eexists _, s'. split; [done|]. split; [done|]. split; [done|]. split; [done|]. case_z; lia.
  - destruct (Z.ltb_spec v' 0).
    + destruct (Z.eqb_spec (- u_errno s') 0); [lia|]. eexists _, s'. split; [done|].
      split; [done|]. split; [done|]. lia.
    + eexists _, s'. by split.
Qed.

Lemma get_cqe_iter_sound to_wait v d s :
  0 <= v -> in_u 32 (gd_submit d) -> ring_ok (u_ring s) ->
  exists it s', get_cqe_iter to_wait v d s = Ok (it, s') /\ iter_sound s it s'.
Proof.
  intros Hv Hsub Hok. destruct (peek_cqe_moves s Hok) as (e & p & av & s1 & H1 & H2 & H3 & H4 & H5).
  unfold get_cqe_iter. rewrite (bind_ok _ _ _ _ _ H1).
  assert (forall fl, exists it s', get_cqe_enter v d p av fl s1 = Ok (it, s') /\
    iter_sound s it s') as Hent.
  { intros fl. destruct (get_cqe_enter_sound v d p av fl s1 Hv Hsub (proj1 H2) H3)
      as (it & s2 & E & Hm & Hit). exists it, s2. split; [done|]. split; [|done].
    by eapply rings_move_trans. }
  destruct (Z.eqb_spec e 0) as [->|He]; cbn [negb].
  - destruct (_ && _) eqn:Hb; [|done]. unfold bind at 1, ring at 1, gets at 1. cbn beta iota.
    destruct (cq_ring_needs_flush _); simpl; [done|].
    eexists _, s1. split; [done|]. split; [done|]. split; [done|]. unfold EAGAIN. lia.
  - eexists _, s1. split; [done|]. split; [done|]. split; [done|done].
Qed.

Lemma get_cqe_loop_sound fuel to_wait v d s :
  0 <= v -> in_u 32 (gd_submit d) -> ring_ok (u_ring s) ->
  match get_cqe_loop fuel to_wait v d s with
  | Ok ((err, p), s') => iter_sound s (Break err p) s'
  | Fault _ => False
  | NoFuel => True
  end.
Proof.
  revert v d s. induction fuel as [|fuel IH]; intros v d s Hv Hd Hok; [done|]. simpl.
  destruct (get_cqe_iter_sound to_wait v d s Hv Hd Hok) as (it & s1 & H1 & Hm & Hit).
  rewrite (bind_ok _ _ _ _ _ H1). destruct it as [err p|v1 d1]; simpl; [done|].
  specialize (IH v1 d1 s1 ltac:(apply Hit) ltac:(apply Hit) (proj1 Hm)).
  destruct (get_cqe_loop fuel to_wait v1 d1 s1) as [[[err p] s2]| |]; [|done|done].
  destruct IH as [Hm2 IH]. split; [by eapply rings_move_trans|done].
Qed.
End laws.

(** ** Submission *)

Section submit.
Context {W : Type} {K : Kernel W} {L : KernelLaws W}.
Implicit Types (s : ust W).

Definition queued s : list io_uring_sqe :=
  published (sq_abs (r_sq (u_ring s))) ++ acquired (sq_abs (r_sq (u_ring s))).

Lemma flush_sq_run s :
  ring_ok (u_ring s) ->
  exists q, flush_sq s = Ok (zlen (queued s), with_sq q s) /\ sq_ok q /\
    sq_abs q = mk_sq_spec (queued s) [] /\ sq_khead q = sq_khead (r_sq (u_ring s)) /\
    sq_kflags q = sq_kflags (r_sq (u_ring s)) /\
    sq_kring_entries q = sq_kring_entries (r_sq (u_ring s)).
Proof.
  intros [Hq _]. destruct (flush_sq_ok _ Hq) as (a & H1 & H2 & H3).
  destruct (sq_abs_lengths _ Hq) as [Lp La].
  exists (flushed a (r_sq (u_ring s))). unfold flush_sq, bind, ring, gets. rewrite H1.
  split_and!; try done. unfold queued, zlen in *. rewrite length_app, Nat2Z.inj_add.
  by rewrite Lp, La.
Qed.

Lemma queued_u32 s : ring_ok (u_ring s) -> 0 <= zlen (queued s) <= 2 ^ 30.
Proof.
  intros [Hq _]. destruct (sq_abs_lengths _ Hq) as [Lp La].
  pose proof (sq_unflushed_range _ Hq). pose proof (sq_entries_le _ Hq).
  unfold queued, zlen in *. rewrite length_app. lia.
Qed.

(** The state after the library published everything the application acquired. *)
Definition flushed_state s s1 : Prop :=
  exists q, s1 = with_sq q s /\ sq_ok q /\ sq_abs q = mk_sq_spec (queued s) [] /\
    sq_kring_entries q = sq_kring_entries (r_sq (u_ring s)).

Lemma submit_enters s wait_nr :
  ring_ok (u_ring s) -> flag_set (r_flags (u_ring s)) IORING_SETUP_SQPOLL = false ->
  exists s1, flushed_state s s1 /\
    __io_uring_submit_and_wait wait_nr s =
      (let* v := __sys_io_uring_enter (r_ring_fd (u_ring s)) (zlen (queued s)) wait_nr
         (if negb (wait_nr =? 0) || flag_set (r_flags (u_ring s)) IORING_SETUP_IOPOLL
          then IORING_ENTER_GETEVENTS else 0) ArgNull in
       if v <? 0 then let* e := get_errno in ret (- e) else ret v) s1.
Proof.
  intros Hok Hp. destruct (flush_sq_run s Hok) as (q & H1 & H2 & H3 & _ & _ & H4).
  exists (with_sq q s). split; [by exists q|].
  unfold __io_uring_submit_and_wait. rewrite (bind_ok _ _ _ _ _ H1).
  pose proof (queued_u32 s Hok). rewrite wrap_small by (unfold in_u; lia).
  unfold __io_uring_submit, ring, gets, sq_ring_needs_enter. unfold bind at 1. simpl.
  by rewrite Hp.
Qed.

Lemma submit_ok s wait_nr :
  ring_ok (u_ring s) -> flag_set (r_flags (u_ring s)) IORING_SETUP_SQPOLL = false ->
  exists v s', __io_uring_submit_and_wait wait_nr s = Ok (v, s') /\ ring_ok (u_ring s') /\
    acquired (sq_abs (r_sq (u_ring s'))) = [] /\
    (v < 0 -> published (sq_abs (r_sq (u_ring s'))) = queued s /\ v = - u_errno s') /\
    (0 <= v -> v <= zlen (queued s) /\
       published (sq_abs (r_sq (u_ring s'))) = drop (Z.to_nat v) (queued s)).
Proof.
  intros Hok Hp. destruct (submit_enters s wait_nr Hok Hp) as (s1 & (q & -> & Hq & Ha & _) & ->).
  set (fl := if negb _ || _ then _ else _). clearbody fl.
  pose proof (queued_u32 s Hok) as Hlen. unfold __sys_io_uring_enter, __sys_io_uring_enter2, bind.
  destruct (sys_enter _ _ _ _ _ _ _ _) as [[[w' r'] v] e] eqn:He.
  destruct (enter_acts _ _ _ _ _ _ _ _ _ _ _ _ He ltac:(unfold in_u; lia) Hq (proj2 Hok))
    as (n & cs & Hact & Herr & Hsucc).
  destruct (kernel_acts_ok _ _ _ _ Hact (conj Hq (proj2 Hok))) as (Hok' & Hpub & Hacq & _).
  change (r_sq (u_ring (with_sq q s))) with q in Hpub, Hacq.
  rewrite Ha in Hpub, Hacq. cbn in Hpub, Hacq. change (r_flags (u_ring (with_sq q s))) with (r_flags (u_ring s)) in *.
  unfold get_errno, gets, ret. destruct (Z.ltb_spec v 0) as [Hv|Hv]; eexists _, _.
  - destruct (Herr Hv) as (-> & He0 & Hn). rewrite (Hn Hp), drop_0 in Hpub.
    split_and!; [done|done|done|done|simpl; lia].
  - destruct (Hsucc Hv Hp) as [-> Hsub]. split_and!; [done|done|done|lia|done].
Qed.
End submit.

(** ** Properties *)

(** A fresh ring of two entries with the completions [cs] posted, for the witnesses. *)
Definition ring_with (cs : list io_uring_cqe) (features : Z) : io_uring :=
  mk_ring (sq_fresh 1 (2 ^ 32 - 1)) (foldl (fun q c => cq_kernel_post c q) (cq_fresh 1 5) cs)
    0 3 features.
Definition start (cs later : list io_uring_cqe) (features : Z) : ust nop_world :=
  mk_ust (mk_nop later false) (ring_with cs features) 0.

Lemma ring_with_ok0 f : ring_ok (ring_with [] f).
Proof. split; [by apply sq_fresh_ok|by apply cq_fresh_ok]. Qed.

Lemma ring_with_ok1 c f : ring_ok (ring_with [c] f).
Proof.
  split; [by apply sq_fresh_ok|]. apply (cq_post_ok (cq_fresh 1 5) c); [by apply cq_fresh_ok|done].
Qed.

(** C18: io_uring_submit and io_uring_submit_and_wait, without SQPOLL and for any
    lawful kernel, always return; every entry acquired so far is published behind
    the entries already published, in order; on success the result is the number
    of entries the kernel took from the front, and a failed call returns the
    negated errno with nothing lost. *)
Theorem submit_publishes_all (W : Type) (K : Kernel W) (L : KernelLaws W) (s : ust W) wait_nr :
  ring_ok (u_ring s) -> flag_set (r_flags (u_ring s)) IORING_SETUP_SQPOLL = false ->
  exists v s', io_uring_submit_and_wait wait_nr s = Ok (v, s') /\ ring_ok (u_ring s') /\
    acquired (sq_abs (r_sq (u_ring s'))) = [] /\
    (v < 0 -> published (sq_abs (r_sq (u_ring s'))) = queued s /\ v = - u_errno s') /\
    (0 <= v -> v <= zlen (queued s) /\
       published (sq_abs (r_sq (u_ring s'))) = drop (Z.to_nat v) (queued s)).
Proof. apply submit_ok. Qed.

(** An empty submission fails in the kernel. *)
Lemma submit_publishes_all_witness :
  exists v s', io_uring_submit_and_wait 0 (mk_ust (mk_nop [] true) (ring_with [] 0) 0) = Ok (v, s')
    /\ v = - EINTR.
Proof.
  destruct (submit_publishes_all nop_world NopKernel NopKernel_laws
    (mk_ust (mk_nop [] true) (ring_with [] 0) 0) 0 (ring_with_ok0 0) ltac:(reflexivity))
    as (v & s' & H & _).
  exists v, s'. split; [exact H|]. vm_compute in H. injection H as <- _. reflexivity.
Defined.

(** With SQPOLL and the kernel thread awake, io_uring_submit makes no system
    call: it publishes every acquired entry and returns the number of entries
    published and not yet consumed. *)
Theorem submit_sqpoll_no_syscall (W : Type) (K : Kernel W) (s : ust W) :
  ring_ok (u_ring s) -> flag_set (r_flags (u_ring s)) IORING_SETUP_SQPOLL = true ->
  flag_set (sq_kflags (r_sq (u_ring s))) IORING_SQ_NEED_WAKEUP = false ->
  exists s', io_uring_submit s = Ok (zlen (queued s), s') /\ ring_ok (u_ring s') /\
    u_world s' = u_world s /\ u_errno s' = u_errno s /\ r_cq (u_ring s') = r_cq (u_ring s) /\
    sq_abs (r_sq (u_ring s')) = mk_sq_spec (queued s) [].
Proof.
  intros Hok Hp Hw. destruct (flush_sq_run s Hok) as (q & H1 & H2 & H3 & _ & Hf & _).
  exists (with_sq q s). pose proof (queued_u32 s Hok). split.
  - unfold io_uring_submit, __io_uring_submit_and_wait. rewrite (bind_ok _ _ _ _ _ H1).
    unfold __io_uring_submit, bind, ring, gets, sq_ring_needs_enter. simpl. rewrite Hp, Hf, Hw.
    simpl. rewrite wrap_small by (unfold in_u; lia). rewrite sext_small; [done|lia|].
    unfold in_s. lia.
  - split_and!; try done. split; [done|apply Hok].
Qed.

Lemma submit_sqpoll_no_syscall_witness :
  let r := mk_ring (sq_fresh 1 9) (cq_fresh 1 5) IORING_SETUP_SQPOLL 3 0 in
  exists s', io_uring_submit (mk_ust (mk_nop [] true) r 0) = Ok (0, s') /\
    u_world s' = mk_nop [] true.
Proof.
  intros r. assert (ring_ok r) as Hr by (split; [by apply sq_fresh_ok|by apply cq_fresh_ok]).
  destruct (submit_sqpoll_no_syscall nop_world NopKernel (mk_ust (mk_nop [] true) r 0) Hr
    ltac:(reflexivity) ltac:(reflexivity)) as (s' & H & _ & Hw & _).
  exists s'. split; [exact H|exact Hw].
Defined.

(** C19: whatever the kernel does, a wait that returns hands out an entry pointer
    exactly when it saw a completion: the pointer is that of the oldest
    completion in the ring and not an internal timeout; without one the error is
    negative.  Nothing is lost: the completions of the ring and those the kernel
    posted are the internal timeouts consumed followed by what is left, and the
    kernel only took entries from the front of the submission queue.  No path
    reads or writes out of bounds. *)
Theorem get_cqe_sound (W : Type) (K : Kernel W) (L : KernelLaws W) (s : ust W) d fuel :
  in_u 32 (gd_submit d) -> ring_ok (u_ring s) ->
  match _io_uring_get_cqe fuel d s with
  | Ok ((err, p), s') =>
      rings_move s s' /\ handed p s' /\ (p = None -> err <> 0) /\ (err < 0 \/ err = 0)
  | Fault _ => False
  | NoFuel => True
  end.
Proof.
  intros Hd Hok. unfold _io_uring_get_cqe.
  pose proof (get_cqe_loop_sound fuel (s32 (gd_wait_nr d)) 0 d s ltac:(lia) Hd Hok) as H.
  destruct (get_cqe_loop _ _ _ _ _) as [[[err p] s']| |]; [|done|done]. apply H.
Qed.

(** The completion arrives while the call waits. *)
Lemma get_cqe_sound_witness :
  let c := mk_cqe 7 10 0 in
  exists s', _io_uring_get_cqe 3 (mk_get_data 0 1 0 NSIG_8 ArgNull) (start [] [c] 0)
    = Ok ((0, Some 1), s') /\ handed (Some 1) s'.
Proof.
  intros c.
  pose proof (get_cqe_sound nop_world NopKernel NopKernel_laws (start [] [c] 0)
    (mk_get_data 0 1 0 NSIG_8 ArgNull) 3 ltac:(by vm_compute) (ring_with_ok0 0)) as H.
  destruct (_io_uring_get_cqe 3 _ _) as [[[err p] s']|f|] eqn:E; vm_compute in E; [|done|done].
  injection E as <- <- <-. eexists. split; [reflexivity|]. apply H.
Defined.

(** Io_uring_wait_cqe_nr (io_uring_wait_cqe, io_uring_peek_cqe) with enough in
    the ring, a failed internal timeout in the ring, or nothing there and nothing
    to wait for, returns in its first iteration without a system call: the oldest
    completion, the error of the timeout, or -EAGAIN; successful internal timeouts
    in front are consumed. *)
Theorem wait_cqe_nr_local (W : Type) (K : Kernel W) (s : ust W) wait_nr fuel err c rest :
  ring_ok (u_ring s) -> in_u 32 wait_nr -> peek_spec (contents s) = (err, c, rest) ->
  err <> 0 \/ (c <> None /\ wait_nr <= zlen rest + 1) \/
    (c = None /\ wait_nr = 0 /\ cq_ring_needs_flush (u_ring s) = false) ->
  exists p q,
    io_uring_wait_cqe_nr (S fuel) wait_nr s =
      Ok ((if err =? 0 then if c is Some _ then 0 else - EAGAIN else err, p), with_cq q s) /\
    cq_ok q /\ cq_contents q = rest /\ denotes q p c.
Proof.
  intros Hok Hw Hp Hcase. unfold io_uring_wait_cqe_nr, __io_uring_get_cqe, _io_uring_get_cqe.
  destruct (peek_spec_split _ _ _ _ Hp) as (_ & _ & _ & _ & Hc).
  destruct (decide (err = 0)) as [->|He].
  - destruct c as [c|].
    + destruct Hcase as [|[[_ Hle]|[? _]]]; [done| |done].
      destruct (iter_found (s32 wait_nr) (mk_get_data 0 wait_nr 0 NSIG_8 ArgNull) s c rest
        Hok Hp eq_refl ltac:(unfold in_u in *; simpl; lia) Hw) as (q & p & H1 & H2 & H3 & H4).
      exists p, q. split; [|done]. simpl. by rewrite (bind_ok _ _ _ _ _ H1).
    + destruct Hcase as [|[[? _]|(_ & -> & Hf)]]; [done|done|].
      destruct (peek_cqe_ok s Hok) as (e & p & av & q & H1 & H2 & H3). rewrite Hp in H3.
      destruct H3 as (-> & Hd & Hr & _). exists p, q. split; [|done].
      apply denotes_none in Hd as ->. simpl. unfold get_cqe_iter.
      unfold bind at 1 2. rewrite H1. simpl. unfold bind, ring, gets. simpl.
      change (cq_ring_needs_flush (set_cq q (u_ring s))) with (cq_ring_needs_flush (u_ring s)).
      by rewrite Hf.
  - destruct c as [c|]; [by destruct Hc|].
    destruct (iter_error (s32 wait_nr) 0 (mk_get_data 0 wait_nr 0 NSIG_8 ArgNull) s err rest
      Hok Hp He) as (q & H1 & H2 & H3).
    exists None, q. destruct (Z.eqb_spec err 0); [done|]. split; [|done].
    simpl. by rewrite (bind_ok _ _ _ _ _ H1).
Qed.

Lemma wait_cqe_nr_local_witness :
  let c := mk_cqe 7 10 0 in
  exists p q, io_uring_wait_cqe_nr 1 1 (start [c] [] 0) = Ok ((0, p), with_cq q (start [c] [] 0)) /\
    denotes q p (Some c).
Proof.
  intros c.
  destruct (wait_cqe_nr_local nop_world NopKernel (start [c] [] 0) 1 0 0 (Some c) [c]
    (ring_with_ok1 c 0) ltac:(by vm_compute) ltac:(reflexivity)
    ltac:(right; left; by vm_compute)) as (p & q & H & _ & _ & Hd).
  exists p, q. split; [exact H|exact Hd].
Defined.

(** Io_uring_wait_cqe on an empty ring enters the kernel once, with nothing to
    submit and one completion to wait for.  A failure is returned as the negated
    errno; after a success with a completion in the ring that completion is
    returned, and after an internal timeout that failed its error is. *)
Theorem wait_cqe_blocks_once (W : Type) (K : Kernel W) (s : ust W) w' r' v e fuel :
  ring_ok (u_ring s) -> contents s = [] ->
  sys_enter (u_world s) (u_ring s) (r_ring_fd (u_ring s)) 0 1 IORING_ENTER_GETEVENTS ArgNull NSIG_8
    = (w', r', v, e) ->
  (v = -1 -> 0 < e -> io_uring_wait_cqe (S fuel) s = Ok ((- e, None), mk_ust w' r' e)) /\
  (forall err c rest, v = 0 -> ring_ok r' ->
     flag_set (r_flags r') IORING_SETUP_IOPOLL = false ->
     peek_spec (cq_contents (r_cq r')) = (err, c, rest) -> (err = 0 -> c <> None) ->
     exists p q, io_uring_wait_cqe (S (S fuel)) s =
         Ok ((err, p), with_cq q (mk_ust w' r' (u_errno s))) /\
       cq_ok q /\ cq_contents q = rest /\ denotes q p c).
Proof.
  intros Hok Hempty He.
  assert (io_uring_cq_ready (r_cq (u_ring s)) = 0) as Hr.
  { rewrite <- (cq_contents_len _ (proj2 Hok)). unfold contents in Hempty. by rewrite Hempty. }
  assert (get_cqe_iter 1 0 (mk_get_data 0 1 0 NSIG_8 ArgNull) s =
    (let* v := __sys_io_uring_enter2 (r_ring_fd (u_ring s)) 0 1 IORING_ENTER_GETEVENTS
       ArgNull NSIG_8 in
     let* errno := get_errno in let* r := ring in
     let d := mk_get_data 0 1 0 NSIG_8 ArgNull in
     if v <? 0 then if - errno =? 0 then ret (Again v d) else ret (Break (- errno) None)
     else ret (Again v (if v =? 0 then gd_update 0
            (if negb (flag_set (r_flags r) IORING_SETUP_IOPOLL) then 0 else 1) d
          else gd_update (u32 (0 - v)) 1 d))) s) as Hit.
  { unfold get_cqe_iter. rewrite (bind_ok _ _ _ _ _ (peek_cqe_empty s Hr)). simpl.
    unfold get_cqe_enter, bind, ring, gets, get_errno, __sys_io_uring_enter2. simpl.
    destruct (sys_enter _ _ _ _ _ _ _ _) as [[[w1 r1] v1] e1]. simpl.
    destruct (v1 <? 0); [|done]. by destruct (_ =? 0). }
  unfold io_uring_wait_cqe, io_uring_wait_cqe_nr, __io_uring_get_cqe, _io_uring_get_cqe.
  change (s32 _) with 1. unfold bind, get_errno, ring, gets, __sys_io_uring_enter2 in Hit.
  rewrite He in Hit. split.
  - intros -> Hpos. simpl in Hit. cbn [get_cqe_loop]. unfold bind. rewrite Hit.
    by destruct (Z.eqb_spec (- e) 0); [lia|].
  - intros err c rest -> Hok' Hio Hp Hc. simpl in Hit. rewrite Hio in Hit. simpl in Hit.
    cbn [get_cqe_loop]. rewrite (bind_ok _ _ _ _ _ Hit). cbv beta iota.
    set (s1 := mk_ust w' r' (u_errno s)). set (d1 := gd_update _ _ _).
    destruct c as [c|].
    + destruct (peek_spec_split _ _ _ _ Hp) as (_ & _ & _ & _ & -> & _).
      destruct (iter_found 1 d1 s1 c rest Hok' Hp eq_refl) as (q & p & H1 & H2);
        [unfold zlen; simpl; lia|done|].
      exists p, q. split; [|done]. by rewrite (bind_ok _ _ _ _ _ H1).
    + destruct (iter_error 1 0 d1 s1 err rest Hok' Hp) as (q & H1 & H2 & H3); [naive_solver|].
      exists None, q. split; [|done]. by rewrite (bind_ok _ _ _ _ _ H1).
Qed.

Lemma wait_cqe_blocks_once_witness :
  let c := mk_cqe 7 10 0 in
  exists p q s', io_uring_wait_cqe 2 (start [] [c] 0) = Ok ((0, p), with_cq q s') /\
    denotes q p (Some c).
Proof.
  intros c.
  destruct (wait_cqe_blocks_once nop_world NopKernel (start [] [c] 0) _ (ring_with [c] 0) 0 0 0
    (ring_with_ok0 0) ltac:(reflexivity) ltac:(reflexivity)) as [_ H].
  destruct (H 0 (Some c) [c] ltac:(reflexivity) (ring_with_ok1 c 0) ltac:(reflexivity)
    ltac:(reflexivity) ltac:(done)) as (p & q & H1 & _ & _ & H2).
  eexists p, q, _. split; [exact H1|exact H2].
Defined.

(** _io_uring_get_cqe subtracts a stale result.  After a call that submitted
    everything ([sub] entries) came back without a completion (a signal, the
    timeout of [IORING_ENTER_EXT_ARG]), the next round makes no system call but
    still runs [data->submit -= ret] with the old [ret]; the round after enters
    the kernel with [2^32 - sub] entries to submit and with nothing to wait for,
    and while that call returns 0 the loop stays in this state. *)
Theorem get_cqe_stale_ret (W : Type) (K : Kernel W) (s : ust W) d w1 r1 e1 w2 r2 e2 fuel :
  let sub := gd_submit d in
  0 < sub < 2 ^ 31 -> 0 < gd_wait_nr d < 2 ^ 31 ->
  io_uring_cq_ready (r_cq (u_ring s)) = 0 ->
  flag_set (r_flags (u_ring s)) IORING_SETUP_SQPOLL = false ->
  sys_enter (u_world s) (u_ring s) (r_ring_fd (u_ring s)) sub (gd_wait_nr d)
    (Z.lor IORING_ENTER_GETEVENTS (gd_get_flags d)) (gd_arg d) (gd_sz d) = (w1, r1, sub, e1) ->
  io_uring_cq_ready (r_cq r1) = 0 ->
  flag_set (r_flags r1) IORING_SETUP_SQPOLL = false ->
  flag_set (r_flags r1) IORING_SETUP_IOPOLL = false ->
  sys_enter w1 r1 (r_ring_fd r1) (2 ^ 32 - sub) 0 0 (gd_arg d) (gd_sz d) = (w2, r2, 0, e2) ->
  _io_uring_get_cqe (S (S (S fuel))) d s =
    get_cqe_loop fuel (gd_wait_nr d) 0 (gd_update (2 ^ 32 - sub) 0 d) (mk_ust w2 r2 (u_errno s)).
Proof.
  intros sub Hsub Hwt Hc0 Hp0 He1 Hc1 Hp1 Hio He2. unfold _io_uring_get_cqe.
  assert (s32 (gd_wait_nr d) = gd_wait_nr d) as -> by (apply sext_small; [lia|unfold in_s; lia]).
  set (tw := gd_wait_nr d) in *.
  pose proof (iter_enter_empty tw 0 d s w1 r1 sub e1 Hc0 Hp0 ltac:(lia) ltac:(lia)) as H1.
  destruct (Z.eqb_spec (gd_wait_nr d) 0); [lia|]. specialize (H1 He1 ltac:(lia)).
  fold sub in H1. rewrite (sext_small 32 sub ltac:(lia) ltac:(unfold in_s; lia)) in H1.
  rewrite Z.eqb_refl, Hio in H1.
  set (s1 := mk_ust w1 r1 (u_errno s)) in *.
  pose proof (iter_spin_empty tw sub (gd_update 0 0 d) s1 Hc1 ltac:(lia) eq_refl eq_refl
    ltac:(lia)) as H2.
  assert (u32 (- sub) = 2 ^ 32 - sub) as E
    by (unfold wrap; rewrite <- (Z_mod_plus_full _ 1), Z.mod_small; lia).
  rewrite E in H2.
  assert (s32 (2 ^ 32 - sub) = - sub) as E2.
  { unfold sext. rewrite Z.mod_small by lia. case_z; lia. }
  pose proof (iter_enter_empty tw sub (gd_update (2 ^ 32 - sub) 0 d) s1 w2 r2 0 e2 Hc1 Hp1
    ltac:(simpl; lia) ltac:(simpl; lia) He2 ltac:(lia)) as H3.
  cbn [gd_submit gd_wait_nr gd_update] in H3. rewrite E2 in H3.
  destruct (Z.eqb_spec 0 (- sub)); [lia|].
  rewrite Z.sub_0_r, wrap_small in H3 by (unfold in_u; lia).
  cbn [get_cqe_loop]. rewrite (bind_ok _ _ _ _ _ H1). cbn [get_cqe_loop].
  rewrite (bind_ok _ _ _ _ _ H2). cbn [get_cqe_loop]. by rewrite (bind_ok _ _ _ _ _ H3).
Qed.

(** One entry is submitted, nothing completes. *)
Lemma get_cqe_stale_ret_witness :
  let q := flushed [0; 1] (sq_set_sqe_tail 1 (sq_fresh 1 0)) in
  let d := mk_get_data 1 1 IORING_ENTER_EXT_ARG sizeof_getevents_arg ArgNull in
  let s := mk_ust (mk_nop [] false) (mk_ring q (cq_fresh 1 5) 0 3 0) 0 in
  exists r2, _io_uring_get_cqe 3 d s =
    get_cqe_loop 0 1 0 (gd_update (2 ^ 32 - 1) 0 d) (mk_ust (mk_nop [] false) r2 0).
Proof.
  intros q d s. eexists.
  apply (get_cqe_stale_ret nop_world NopKernel s d (mk_nop [] false)
    (mk_ring (sq_kernel_update 1 0 0 q) (cq_fresh 1 5) 0 3 0) 0 (mk_nop [] false)
    (mk_ring (sq_kernel_update 0 0 0 (sq_kernel_update 1 0 0 q)) (cq_fresh 1 5) 0 3 0) 0 0);
    try reflexivity; try (split; reflexivity).
Defined.
