(* ===== verification/TimeoutSpec.v ===== *)
(** * Batch peeks and waits with a timeout

    The rest of queue.c: io_uring_peek_batch_cqe against the list of completions,
    and the timeout entry that io_uring_wait_cqes queues behind the entries of the
    application on kernels without [IORING_FEAT_EXT_ARG]. *)

From S2P Require Import Prelude Abi Prep RingBuf Ring SqSpec CqSpec Kernel Queue QueueSpec.

(** ** The internal timeout *)

(** The entry io_uring_wait_cqes queues. *)
Definition timeout_entry (wait_nr ts : Z) : io_uring_sqe :=
  set_user_data LIBURING_UDATA_TIMEOUT (io_uring_prep_timeout ts wait_nr 0 zero_sqe).

Lemma sqe_store_twice slot e1 e2 q q1 :
  sqe_store slot e1 q = Some q1 -> sqe_store slot e2 q1 = sqe_store slot e2 q.
Proof.
  unfold sqe_store, zset. destruct (_ || _) eqn:Hb; [done|]. intros [= <-].
  simpl. rewrite length_insert, Hb. simpl. by rewrite list_insert_insert_eq.
Qed.

Lemma sqe_store_read slot e q q1 :
  sqe_store slot e q = Some q1 -> zget (sq_sqes q1) slot = Some e.
Proof.
  unfold sqe_store, zset, zget. destruct (_ || _) eqn:Hb; [done|]. intros [= <-]. simpl.
  bools. destruct (Z.ltb_spec slot 0); [lia|]. apply list_lookup_insert_eq. lia.
Qed.

Section timeout.
Context {W : Type} {K : Kernel W}.
Implicit Types (s : ust W).

Lemma get_sqe_run s slot q :
  io_uring_get_sqe (r_sq (u_ring s)) = (slot, q) -> get_sqe s = Ok (slot, with_sq q s).
Proof. intros H. unfold get_sqe, bind, ring, gets. by rewrite H. Qed.

Lemma store_sqe_run s slot e f q :
  zget (sq_sqes (r_sq (u_ring s))) slot = Some e ->
  sqe_store slot (f e) (r_sq (u_ring s)) = Some q ->
  store_sqe slot f s = Ok (tt, with_sq q s).
Proof. intros H1 H2. unfold store_sqe, bind, ring, gets. by rewrite H1, H2. Qed.

(** Filling an entry and flushing it. *)
Lemma queue_entry_ok s wait_nr ts :
  ring_ok (u_ring s) -> io_uring_sq_space_left (u_ring s) <> 0 ->
  exists slot s1 q, get_sqe s = Ok (Some slot, s1) /\
    fill_timeout wait_nr ts slot s1 = Ok (inr (zlen (queued s) + 1), with_sq q s) /\
    sq_ok q /\ sq_abs q = mk_sq_spec (queued s ++ [timeout_entry wait_nr ts]) [].
Proof.
  intros [Hq Hc] Hsp. rewrite (space_left_eq _ Hq) in Hsp.
  pose proof (sq_unflushed_range _ Hq). set (q := r_sq (u_ring s)) in *.
  set (slot := sqe_tail q mod sq_kring_entries q).
  set (q1 := sq_set_sqe_tail (u32 (sqe_tail q + 1)) q).
  assert (io_uring_get_sqe q = (Some slot, q1)) as Hget.
  { rewrite (get_sqe_eq q Hq). by case_z; [|lia]. }
  destruct (zget_in (sq_sqes q) slot) as [e0 He0].
  { rewrite (sq_sqes_len q Hq). apply Z.mod_pos_bound, (sq_entries_pos q Hq). }
  set (e1 := io_uring_prep_timeout ts wait_nr 0 e0).
  destruct (get_store_ok q e1 Hq ltac:(lia)) as (Hst1 & _).
  fold slot q1 in Hst1. set (q2 := sq_set_sqes _ q1) in Hst1.
  destruct (get_store_ok q (timeout_entry wait_nr ts) Hq ltac:(lia)) as (Hst2 & Hq3 & Habs).
  fold slot q1 in Hst2, Hq3, Habs. set (q3 := sq_set_sqes _ q1) in Hst2, Hq3, Habs.
  rewrite <- (sqe_store_twice _ _ _ _ _ Hst1) in Hst2.
  pose proof (sqe_store_read _ _ _ _ Hst1) as Hrd.
  destruct (flush_sq_run (with_sq q3 s) (conj Hq3 Hc)) as (q4 & Hfl & Hq4 & Habs4 & _).
  assert (queued (with_sq q3 s) = queued s ++ [timeout_entry wait_nr ts]) as Hqd.
  { unfold queued at 1. change (r_sq (u_ring (with_sq q3 s))) with q3. rewrite Habs. simpl.
    by rewrite app_assoc. }
  rewrite Hqd in Hfl, Habs4. exists slot, (with_sq q1 s), q4.
  split; [by apply get_sqe_run|]. split; [|done]. unfold fill_timeout.
  rewrite (bind_ok _ _ _ _ _ (store_sqe_run (with_sq q1 s) slot e0 _ q2 He0 Hst1)).
  rewrite (bind_ok _ _ _ _ _ (store_sqe_run (with_sq q2 s) slot e1
    (set_user_data LIBURING_UDATA_TIMEOUT) q3 Hrd Hst2)).
  rewrite (bind_ok _ _ _ _ _ Hfl). unfold ret, zlen. rewrite length_app. simpl.
  do 3 f_equal. lia.
Qed.

Lemma get_sqe_full s :
  ring_ok (u_ring s) -> io_uring_sq_space_left (u_ring s) = 0 -> get_sqe s = Ok (None, s).
Proof.
  intros [Hq _] Hfull. rewrite (space_left_eq _ Hq) in Hfull.
  rewrite (get_sqe_run s None (r_sq (u_ring s))); [by destruct s as [? [] ?]|].
  rewrite (get_sqe_eq _ Hq). by case_z; [lia|].
Qed.
End timeout.

(** ** Batches *)

Lemma batch_loop_ok q n h :
  cq_ok q ->
  mapM (zget (cq_cqes q)) (batch_loop n h q) =
    Some (window zero_cqe (cq_cqes q) (cq_kring_entries q) h (Z.of_nat n)).
Proof.
  intros Hq. revert h. induction n as [|n IH]; intros h; [done|].
  cbn [batch_loop mapM]. simpl. rewrite (cq_deref q Hq), IH. simpl. f_equal.
  rewrite (window_cons _ _ _ h) by lia. f_equal.
  replace (Z.of_nat (S n) - 1) with (Z.of_nat n) by lia.
  apply window_start_mod, (cq_u32_mod q Hq).
Qed.

Lemma peek_batch_ok q count :
  cq_ok q -> 0 <= count ->
  match peek_batch count q with
  | Some (n, slots) => cq_contents q <> [] /\ n = Z.min count (zlen (cq_contents q)) /\
      mapM (zget (cq_cqes q)) slots = Some (take (Z.to_nat n) (cq_contents q))
  | None => cq_contents q = []
  end.
Proof.
  intros Hq Hc. pose proof (cq_contents_len q Hq) as Hl. pose proof (cq_ready_range q Hq).
  unfold peek_batch. destruct (Z.eqb_spec (io_uring_cq_ready q) 0) as [E|E]; simpl.
  - rewrite E in Hl. destruct (cq_contents q); [done|]. unfold zlen in Hl. simpl in Hl. lia.
  - set (n := if _ <? _ then _ else _).
    assert (n = Z.min count (zlen (cq_contents q))) as Hn by (unfold n; case_z; lia).
    clearbody n. split_and!; [|done|].
    + intros Hx. rewrite Hx in Hl. unfold zlen in Hl. simpl in Hl. lia.
    + rewrite batch_loop_ok by done. unfold cq_contents.
      rewrite Z2Nat.id by lia. rewrite (window_take _ _ _ _ (io_uring_cq_ready q) n) by lia. done.
Qed.

(** Io_uring_peek_batch_cqe returns the oldest completions of the ring, in
    order and at most [count] of them, without consuming any.  It enters the
    kernel only when the ring is empty and the overflow flag is set, once, to
    flush the overflow, and then returns what that brought. *)
Theorem peek_batch_correct (W : Type) (K : Kernel W) (L : KernelLaws W) (s : ust W) count :
  ring_ok (u_ring s) -> in_u 32 count ->
  exists n slots s', io_uring_peek_batch_cqe count s = Ok ((n, slots), s') /\
    n = Z.min count (zlen (contents s')) /\
    mapM (zget (cq_cqes (r_cq (u_ring s')))) slots = Some (take (Z.to_nat n) (contents s')) /\
    (contents s <> [] \/ cq_ring_needs_flush (u_ring s) = false -> s' = s) /\
    (contents s = [] -> cq_ring_needs_flush (u_ring s) = true ->
       exists v, __sys_io_uring_enter (r_ring_fd (u_ring s)) 0 0 IORING_ENTER_GETEVENTS ArgNull s
         = Ok (v, s')).
Proof.
  intros Hok Hc. pose proof (peek_batch_ok (r_cq (u_ring s)) count (proj2 Hok) (proj1 Hc)) as Hp.
  unfold io_uring_peek_batch_cqe, bind at 1, ring at 1, gets at 1. fold (contents s) in Hp.
  destruct (peek_batch count (r_cq (u_ring s))) as [[n slots]|].
  - destruct Hp as (Hne & Hn & Hm). exists n, slots, s. by split_and!.
  - destruct (cq_ring_needs_flush (u_ring s)) eqn:Hf.
    + destruct (enter_moves (r_ring_fd (u_ring s)) 0 0 IORING_ENTER_GETEVENTS ArgNull NSIG_8 s
        ltac:(by vm_compute) Hok) as (v & s' & Hv & [Hok' _] & _).
      fold (__sys_io_uring_enter (W:=W) (r_ring_fd (u_ring s)) 0 0 IORING_ENTER_GETEVENTS ArgNull) in Hv.
      rewrite (bind_ok _ _ _ _ _ Hv).
      pose proof (peek_batch_ok (r_cq (u_ring s')) count (proj2 Hok') (proj1 Hc)) as Hp'.
      unfold bind, ring, gets. fold (contents s') in Hp'.
      destruct (peek_batch count (r_cq (u_ring s'))) as [[n slots]|].
      * destruct Hp' as (_ & Hn & Hm). exists n, slots, s'. split_and!; [done..| |by eauto].
        intros [?|?]; congruence.
      * exists 0, [], s'. rewrite Hp'. unfold in_u, zlen in *. simpl.
        split_and!; [done|lia|done| |by eauto].
        intros [?|?]; congruence.
    + exists 0, [], s. rewrite Hp. unfold in_u, zlen in *. simpl. split_and!; [done|lia|done..].
Qed.

Lemma peek_batch_correct_witness :
  let c := mk_cqe 7 10 0 in
  exists n slots s', io_uring_peek_batch_cqe 8 (start [c] [] 0) = Ok ((n, slots), s') /\
    n = Z.min 8 (zlen (contents s')) /\ n = 1.
Proof.
  intros c.
  destruct (peek_batch_correct nop_world NopKernel NopKernel_laws (start [c] [] 0) 8
    (ring_with_ok1 c 0) ltac:(by vm_compute)) as (n & slots & s' & H & Hn & _).
  exists n, slots, s'. split; [exact H|]. split; [exact Hn|].
  vm_compute in H. by injection H as <- _ _.
Defined.

(** C32: without SQPOLL, on a kernel without [IORING_FEAT_EXT_ARG], io_uring_wait_cqes queues its
    timeout behind everything the application queued and publishes it all; the
    count it passes on is what is then in the ring.  With a vacant entry this
    takes no system call; on a full ring it submits first, and when that does not
    free an entry it returns a negative error with the entries of the application
    still in order. *)
Theorem queue_timeout_correct (W : Type) (K : Kernel W) (L : KernelLaws W) (s : ust W) wait_nr ts :
  ring_ok (u_ring s) -> flag_set (r_flags (u_ring s)) IORING_SETUP_SQPOLL = false ->
  exists res s' k, queue_timeout wait_nr ts s = Ok (res, s') /\
    sq_ok (r_sq (u_ring s')) /\
    let rest := drop k (queued s) in
    match res with
    | inr n => n = zlen rest + 1 /\
        sq_abs (r_sq (u_ring s')) = mk_sq_spec (rest ++ [timeout_entry wait_nr ts]) []
    | inl v => v < 0 /\ sq_abs (r_sq (u_ring s')) = mk_sq_spec rest []
    end /\
    (io_uring_sq_space_left (u_ring s) <> 0 ->
       k = O /\ res = inr (zlen (queued s) + 1) /\ u_world s' = u_world s).
Proof.
  intros Hok Hp. destruct (decide (io_uring_sq_space_left (u_ring s) = 0)) as [Hfull|Hsp].
  - pose proof (get_sqe_full s Hok Hfull) as Hg.
    destruct (submit_ok s 0 Hok Hp) as (v & s1 & H1 & Hok1 & Hacq & Hneg & Hpos).
    assert (sq_abs (r_sq (u_ring s1)) = mk_sq_spec (published (sq_abs (r_sq (u_ring s1)))) [])
      as Habs1 by (rewrite <- Hacq; done).
    unfold queue_timeout at 1. rewrite (bind_ok _ _ _ _ _ Hg). cbv iota.
    unfold io_uring_submit. rewrite (bind_ok _ _ _ _ _ H1). destruct (Z.ltb_spec v 0) as [Hv|Hv].
    + destruct (Hneg Hv) as [Hpub _]. exists (inl v), s1, O. rewrite drop_0, <- Hpub.
      split_and!; [done|apply Hok1|done|done|done].
    + destruct (Hpos Hv) as [_ Hpub]. rewrite Hpub in Habs1.
      destruct (decide (io_uring_sq_space_left (u_ring s1) = 0)) as [Hfull1|Hsp1].
      * rewrite (bind_ok _ _ _ _ _ (get_sqe_full s1 Hok1 Hfull1)).
        exists (inl (- EAGAIN)), s1, (Z.to_nat v). split_and!; [done|apply Hok1|done|done|done].
      * destruct (queue_entry_ok s1 wait_nr ts Hok1 Hsp1) as (slot & s2 & q & H2 & H3 & H4 & H5).
        rewrite (bind_ok _ _ _ _ _ H2). unfold queued in H3, H5.
        rewrite Hacq, app_nil_r, Hpub in H3, H5.
        eexists _, (with_sq q s1), (Z.to_nat v). split_and!; [exact H3|exact H4|split; [done|exact H5]|done].
  - destruct (queue_entry_ok s wait_nr ts Hok Hsp) as (slot & s1 & q & H1 & H2 & H3 & H4).
    exists (inr (zlen (queued s) + 1)), (with_sq q s), O. rewrite drop_0.
    unfold queue_timeout. by rewrite (bind_ok _ _ _ _ _ H1).
Qed.

(** A ring of two entries, both acquired: the kernel takes them, the timeout follows. *)
Lemma queue_timeout_correct_witness :
  let r := mk_ring (sq_set_sqe_tail 1 (sq_fresh 0 0)) (cq_fresh 1 5) 0 3 0 in
  let s := mk_ust (mk_nop [] false) r 0 in
  exists s' k, queue_timeout 1 4096 s = Ok (inr 1, s') /\
    sq_abs (r_sq (u_ring s')) = mk_sq_spec (drop k (queued s) ++ [timeout_entry 1 4096]) [].
Proof.
  intros r s.
  assert (ring_ok r) as Hr.
  { split; [|by apply cq_fresh_ok].
    destruct (get_store_ok (sq_fresh 0 0) zero_sqe) as (_ & H & _); [by apply sq_fresh_ok|done|].
    exact H. }
  destruct (queue_timeout_correct nop_world NopKernel NopKernel_laws s 1 4096 Hr
    ltac:(reflexivity)) as (res & s' & k & H & _ & Hm & _).
  exists s', k. assert (res = inr 1) as -> by (vm_compute in H; by injection H as <- _).
  split; [exact H|]. apply Hm.
Defined.
