(* ===== verification/Os.v ===== *)
(** * The operating system behind setup and registration

    The system calls and the allocator setup.c, register.c and syscall.c call are
    outside the repository: [Os] lists them, [OsLaws] states their documented
    behaviour in terms of what the process owns (mappings, descriptors, heap
    blocks).  [SimOs] is a concrete system meeting the laws. *)

From stdpp Require Import gmap.
From S2P Require Import Prelude Abi.

(** [(void * )-1]. *)
Definition MAP_FAILED : Z := -1.
Definition PROT_READ_WRITE : Z := 3.          (** PROT_READ | PROT_WRITE *)
Definition MAP_SHARED_POPULATE : Z := 32769.  (** MAP_SHARED | MAP_POPULATE *)
Definition MADV_DONTFORK : Z := 10.

(** The third argument of io_uring_register(2): what the library points it at. *)
Inductive reg_arg : Type :=
  | RegNull
  | RegPtr (addr : Z)
  | RegFilesUpdate (up : io_uring_files_update)
  | RegEventfd (fd : Z).

Class Os (W : Type) : Type := {
  os_setup : W -> Z -> io_uring_params -> W * io_uring_params * Z * Z;
  os_mmap : W -> forall (addr len prot flags fd off : Z), W * Z * Z;
  os_munmap : W -> forall (addr len : Z), W * Z * Z;
  os_madvise : W -> forall (addr len advice : Z), W * Z * Z;
  os_close : W -> Z -> W * Z * Z;
  os_register : W -> forall (fd opcode : Z) (arg : reg_arg) (nr : Z), W * Z * Z;
  os_malloc : W -> Z -> W * Z;
  os_free : W -> Z -> W;
  (** the 32-bit word at an address of the process *)
  os_read32 : W -> Z -> Z;
  (** what the process owns: mappings by address with their lengths, open
      descriptors, heap blocks, and the ranges not inherited over fork *)
  os_maps : W -> gmap Z Z;
  os_fds : W -> gset Z;
  os_heap : W -> gset Z;
  os_nofork : W -> gset (Z * Z);
}.

(** The state of a library call: the world and [errno]. *)
Record ost (W : Type) : Type := mk_ost { o_world : W; o_errno : Z }.
Arguments mk_ost {W} _ _.
Arguments o_world {W} _.
Arguments o_errno {W} _.

Section calls.
Context {W : Type} {O : Os W}.

(** A call that returns a result and sets [errno] when that is [-1]. *)
Definition syscall (f : W -> W * Z * Z) : prog (ost W) Z :=
  fun s =>
    let '(w, v, e) := f (o_world s) in
    Ok (v, mk_ost w (if v =? -1 then e else o_errno s)).

Definition mmap (len fd off : Z) : prog (ost W) Z :=
  syscall (fun w => os_mmap w 0 len PROT_READ_WRITE MAP_SHARED_POPULATE fd off).
Definition munmap (addr len : Z) : prog (ost W) Z := syscall (fun w => os_munmap w addr len).
Definition madvise (addr len advice : Z) : prog (ost W) Z :=
  syscall (fun w => os_madvise w addr len advice).
Definition close (fd : Z) : prog (ost W) Z := syscall (fun w => os_close w fd).
Definition malloc (len : Z) : prog (ost W) Z :=
  fun s => let '(w, a) := os_malloc (o_world s) len in Ok (a, mk_ost w (o_errno s)).
Definition free (p : Z) : prog (ost W) unit :=
  fun s => Ok (tt, mk_ost (os_free (o_world s) p) (o_errno s)).
Definition read32 (addr : Z) : prog (ost W) Z := gets (fun s => os_read32 (o_world s) addr).
Definition errno : prog (ost W) Z := gets o_errno.

Definition __sys_io_uring_register (fd opcode : Z) (arg : reg_arg) (nr_args : Z)
    : prog (ost W) Z :=
  syscall (fun w => os_register w fd opcode arg nr_args).

Definition __sys_io_uring_setup (entries : Z) (p : io_uring_params)
    : prog (ost W) (Z * io_uring_params) :=
  fun s =>
    let '(w, p, v, e) := os_setup (o_world s) entries p in
    Ok ((v, p), mk_ost w (if v =? -1 then e else o_errno s)).
End calls.

(** What a process owns. *)
Record owned : Type := mk_owned {
  ow_maps : gmap Z Z; ow_fds : gset Z; ow_heap : gset Z;
}.
Definition owns {W} {O : Os W} (w : W) : owned := mk_owned (os_maps w) (os_fds w) (os_heap w).

Definition add_map (a len : Z) (o : owned) : owned :=
  mk_owned (<[a := len]> (ow_maps o)) (ow_fds o) (ow_heap o).
Definition del_map (a : Z) (o : owned) : owned :=
  mk_owned (delete a (ow_maps o)) (ow_fds o) (ow_heap o).
Definition add_fd (fd : Z) (o : owned) : owned :=
  mk_owned (ow_maps o) ({[fd]} ∪ ow_fds o) (ow_heap o).
Definition del_fd (fd : Z) (o : owned) : owned :=
  mk_owned (ow_maps o) (ow_fds o ∖ {[fd]}) (ow_heap o).
Definition add_block (a : Z) (o : owned) : owned :=
  mk_owned (ow_maps o) (ow_fds o) ({[a]} ∪ ow_heap o).
Definition del_block (a : Z) (o : owned) : owned :=
  mk_owned (ow_maps o) (ow_fds o) (ow_heap o ∖ {[a]}).

Definition proper_error (v e : Z) : Prop := v = -1 /\ 0 < e < 4096.

(** The manual pages, as far as the library relies on them. *)
Class OsLaws (W : Type) {O : Os W} : Prop := {
  setup_law w n p w' p' v e : os_setup w n p = (w', p', v, e) ->
    (proper_error v e /\ owns w' = owns w) \/
    (0 <= v /\ (v ∉ os_fds w) /\ owns w' = add_fd v (owns w));
  mmap_law w a len prot fl fd off w' v e : os_mmap w a len prot fl fd off = (w', v, e) ->
    (proper_error v e /\ owns w' = owns w) \/
    (0 < v /\ os_maps w !! v = None /\ owns w' = add_map v len (owns w));
  munmap_law w a len w' v e : os_munmap w a len = (w', v, e) ->
    os_maps w !! a = Some len -> owns w' = del_map a (owns w);
  madvise_law w a len adv w' v e : os_madvise w a len adv = (w', v, e) ->
    owns w' = owns w /\
    ((proper_error v e /\ os_nofork w' = os_nofork w) \/
     (v = 0 /\ os_nofork w' =
        if adv =? MADV_DONTFORK then {[(a, len)]} ∪ os_nofork w else os_nofork w));
  close_law w fd w' v e : os_close w fd = (w', v, e) -> owns w' = del_fd fd (owns w);
  register_law w fd op arg nr w' v e : os_register w fd op arg nr = (w', v, e) ->
    owns w' = owns w /\ (proper_error v e \/ 0 <= v);
  malloc_law w len w' a : os_malloc w len = (w', a) ->
    (a = 0 /\ owns w' = owns w) \/ (0 < a /\ (a ∉ os_heap w) /\ owns w' = add_block a (owns w));
  free_law w a : a ∈ os_heap w -> owns (os_free w a) = del_block a (owns w);
}.

Section owned.
Implicit Types (o : owned).

Lemma del_add_map a len o : ow_maps o !! a = None -> del_map a (add_map a len o) = o.
Proof. destruct o. unfold del_map, add_map. simpl. intros. by rewrite delete_insert_id. Qed.

Lemma del_add_fd fd o : fd ∉ ow_fds o -> del_fd fd (add_fd fd o) = o.
Proof.
  destruct o as [m f h]. unfold del_fd, add_fd. simpl. intros. f_equal. set_solver.
Qed.

Lemma del_add_block a o : a ∉ ow_heap o -> del_block a (add_block a o) = o.
Proof.
  destruct o as [m f h]. unfold del_block, add_block. simpl. intros. f_equal. set_solver.
Qed.

Lemma del_add_map_ne a b len o :
  a <> b -> del_map a (add_map b len o) = add_map b len (del_map a o).
Proof.
  destruct o. unfold del_map, add_map. simpl. intros. by rewrite delete_insert_ne.
Qed.

Lemma del_map_add_fd a fd o : del_map a (add_fd fd o) = add_fd fd (del_map a o).
Proof. done. Qed.
Lemma add_map_fd a len fd o : add_map a len (add_fd fd o) = add_fd fd (add_map a len o).
Proof. done. Qed.
Lemma del_fd_map a len fd o : del_fd fd (add_map a len o) = add_map a len (del_fd fd o).
Proof. done. Qed.
End owned.

Lemma owns_maps {W} {O : Os W} (w : W) o : owns w = o -> os_maps w = ow_maps o.
Proof. by intros <-. Qed.
Lemma owns_fds {W} {O : Os W} (w : W) o : owns w = o -> os_fds w = ow_fds o.
Proof. by intros <-. Qed.
Lemma owns_heap {W} {O : Os W} (w : W) o : owns w = o -> os_heap w = ow_heap o.
Proof. by intros <-. Qed.
