(* ===== verification/SimOs.v ===== *)
(** * A concrete operating system

    [SimOs] meets the laws of [OsLaws]: it hands out fresh addresses and
    descriptors and fails a call when its plan says so.  The witnesses of the
    theorems about setup and registration run on it. *)

From stdpp Require Import gmap.
From S2P Require Import Prelude Abi Os.

Record sim : Type := mk_sim {
  sim_owned : owned;
  sim_nofork : gset (Z * Z);
  sim_word : Z;                (** what every 32-bit load returns *)
  sim_params : io_uring_params; (** what io_uring_setup(2) reports *)
  sim_plan : list bool;        (** [true]: the next call fails *)
}.

Definition sim_set (o : owned) (nf : gset (Z * Z)) (w : sim) : sim :=
  mk_sim o nf (sim_word w) (sim_params w) (tail (sim_plan w)).
Definition sim_fails (w : sim) : bool :=
  match sim_plan w with b :: _ => b | [] => false end.

(** One more than every element, and positive. *)
Definition above (l : list Z) : Z := 1 + foldr Z.max 0 l.

Lemma above_spec l x : x ∈ l -> x < above l.
Proof. unfold above. induction 1 as [|x y l _ IH]; simpl; lia. Qed.

Lemma above_pos l : 0 < above l.
Proof. unfold above. induction l; simpl; lia. Qed.

Lemma above_fresh (X : gset Z) : above (elements X) ∉ X.
Proof. intros H%elem_of_elements%above_spec. lia. Qed.

Lemma above_fresh_map (m : gmap Z Z) : m !! above (elements (dom m)) = None.
Proof. apply not_elem_of_dom, above_fresh. Qed.

Definition sim_err (w : sim) : sim * Z * Z := (sim_set (sim_owned w) (sim_nofork w) w, -1, EINVAL).

#[export] Instance SimOs : Os sim := {|
  os_setup w n p :=
    if sim_fails w
    then (sim_set (sim_owned w) (sim_nofork w) w, p, -1, EINVAL)
    else
      let fd := above (elements (ow_fds (sim_owned w))) in
      (sim_set (add_fd fd (sim_owned w)) (sim_nofork w) w, sim_params w, fd, 0);
  os_mmap w a len prot fl fd off :=
    if sim_fails w then sim_err w
    else
      let a := above (elements (dom (ow_maps (sim_owned w)))) in
      (sim_set (add_map a len (sim_owned w)) (sim_nofork w) w, a, 0);
  os_munmap w a len :=
    if decide (ow_maps (sim_owned w) !! a = Some len)
    then (sim_set (del_map a (sim_owned w)) (sim_nofork w) w, 0, 0) else sim_err w;
  os_madvise w a len adv :=
    if sim_fails w then sim_err w
    else
      (sim_set (sim_owned w)
         (if adv =? MADV_DONTFORK then {[(a, len)]} ∪ sim_nofork w else sim_nofork w) w, 0, 0);
  os_close w fd := (sim_set (del_fd fd (sim_owned w)) (sim_nofork w) w, 0, 0);
  os_register w fd op arg nr :=
    if sim_fails w then sim_err w else (sim_set (sim_owned w) (sim_nofork w) w, Z.max 0 nr, 0);
  os_malloc w len :=
    if sim_fails w then (sim_set (sim_owned w) (sim_nofork w) w, 0)
    else
      let a := above (elements (ow_heap (sim_owned w))) in
      (sim_set (add_block a (sim_owned w)) (sim_nofork w) w, a);
  os_free w a := sim_set (del_block a (sim_owned w)) (sim_nofork w) w;
  os_read32 w a := sim_word w;
  os_maps w := ow_maps (sim_owned w);
  os_fds w := ow_fds (sim_owned w);
  os_heap w := ow_heap (sim_owned w);
  os_nofork w := sim_nofork w;
|}.

Lemma sim_owns (w : sim) : owns w = sim_owned w.
Proof. unfold owns. simpl. by destruct (sim_owned w). Qed.

Lemma sim_error : proper_error (-1) EINVAL.
Proof. split; [done|unfold EINVAL; lia]. Qed.
#[local] Hint Resolve sim_error above_pos above_fresh_map above_fresh : core.

Lemma above_nonneg l : 0 <= above l.
Proof. pose proof (above_pos l). lia. Qed.
#[local] Hint Resolve above_nonneg : core.

(** Evaluate a call of the system and replace its results. *)
Ltac sim_call :=
  intros *; rewrite ?sim_owns; cbn -[above]; unfold sim_err;
  repeat case_match; intros; simplify_eq; rewrite ?sim_owns; simpl;
  try done; try (left; split; [by auto|done]); try (right; split_and!; by auto).

#[export] Instance SimOs_laws : OsLaws sim.
Proof.
  split.
  - sim_call.
  - sim_call.
  - sim_call.
  - sim_call; (split; [done|]); auto using Z.le_max_l.
  - sim_call.
  - sim_call; (split; [done|]); auto using Z.le_max_l.
  - sim_call.
  - sim_call.
Qed.
