(* ===== verification/Register.v ===== *)
(** * Registration (src/liburing/src/register.c)

    The wrappers of io_uring_register(2) and the probe query of liburing.h.
    Pointer arguments are addresses. *)

From stdpp Require Import gmap.
From S2P Require Import Prelude Abi Os SimOs.

Section register.
Context {W : Type} {O : Os W}.

(** The tail the wrappers share: [if (ret < 0) return -errno; return 0;] and the
    variant that returns the result. *)
Definition zero_or_errno (ret : Z) : prog (ost W) Z :=
  if ret <? 0 then let* e := errno in Prelude.ret (- e) else Prelude.ret 0.
Definition value_or_errno (ret : Z) : prog (ost W) Z :=
  if ret <? 0 then let* e := errno in Prelude.ret (- e) else Prelude.ret ret.

Definition io_uring_register_buffers (ring_fd iovecs nr_iovecs : Z) : prog (ost W) Z :=
  let* ret := __sys_io_uring_register ring_fd (register_code IORING_REGISTER_BUFFERS)
                (RegPtr iovecs) nr_iovecs in
  zero_or_errno ret.

Definition io_uring_unregister_buffers (ring_fd : Z) : prog (ost W) Z :=
  let* ret := __sys_io_uring_register ring_fd (register_code IORING_UNREGISTER_BUFFERS)
                RegNull 0 in
  zero_or_errno ret.

Definition io_uring_register_files_update (ring_fd off files nr_files : Z) : prog (ost W) Z :=
  let up := mk_files_update off 0 (u64 files) in
  let* ret := __sys_io_uring_register ring_fd (register_code IORING_REGISTER_FILES_UPDATE)
                (RegFilesUpdate up) nr_files in
  value_or_errno ret.

Definition io_uring_register_files (ring_fd files nr_files : Z) : prog (ost W) Z :=
  let* ret := __sys_io_uring_register ring_fd (register_code IORING_REGISTER_FILES)
                (RegPtr files) nr_files in
  zero_or_errno ret.

Definition io_uring_unregister_files (ring_fd : Z) : prog (ost W) Z :=
  let* ret := __sys_io_uring_register ring_fd (register_code IORING_UNREGISTER_FILES)
                RegNull 0 in
  zero_or_errno ret.

Definition io_uring_register_eventfd (ring_fd event_fd : Z) : prog (ost W) Z :=
  let* ret := __sys_io_uring_register ring_fd (register_code IORING_REGISTER_EVENTFD)
                (RegEventfd event_fd) 1 in
  zero_or_errno ret.

Definition io_uring_unregister_eventfd (ring_fd : Z) : prog (ost W) Z :=
  let* ret := __sys_io_uring_register ring_fd (register_code IORING_UNREGISTER_EVENTFD)
                RegNull 0 in
  zero_or_errno ret.

Definition io_uring_register_eventfd_async (ring_fd event_fd : Z) : prog (ost W) Z :=
  let* ret := __sys_io_uring_register ring_fd (register_code IORING_REGISTER_EVENTFD_ASYNC)
                (RegEventfd event_fd) 1 in
  zero_or_errno ret.

Definition io_uring_register_probe (ring_fd p nr_ops : Z) : prog (ost W) Z :=
  let* ret := __sys_io_uring_register ring_fd (register_code IORING_REGISTER_PROBE)
                (RegPtr p) nr_ops in
  zero_or_errno ret.

Definition io_uring_register_personality (ring_fd : Z) : prog (ost W) Z :=
  let* ret := __sys_io_uring_register ring_fd (register_code IORING_REGISTER_PERSONALITY)
                RegNull 0 in
  value_or_errno ret.

Definition io_uring_unregister_personality (ring_fd id : Z) : prog (ost W) Z :=
  let* ret := __sys_io_uring_register ring_fd (register_code IORING_UNREGISTER_PERSONALITY)
                RegNull (u32 id) in
  value_or_errno ret.

Definition io_uring_register_restrictions (ring_fd res nr_res : Z) : prog (ost W) Z :=
  let* ret := __sys_io_uring_register ring_fd (register_code IORING_REGISTER_RESTRICTIONS)
                (RegPtr res) nr_res in
  zero_or_errno ret.

Definition io_uring_enable_rings (ring_fd : Z) : prog (ost W) Z :=
  let* ret := __sys_io_uring_register ring_fd (register_code IORING_REGISTER_ENABLE_RINGS)
                RegNull 0 in
  value_or_errno ret.
End register.

(** [None]: the flexible array is read outside its [pr_ops]. *)
Definition io_uring_opcode_supported (p : io_uring_probe) (op : Z) : option bool :=
  if pr_last_op p <? op then Some false
  else o ← zget (pr_ops p) op; Some (flag_set (po_flags o) IO_URING_OP_SUPPORTED).

(** ** The wrappers as requests *)

Inductive reg_request : Type :=
  | RegisterBuffers (iovecs nr : Z)
  | UnregisterBuffers
  | RegisterFilesUpdate (off files nr : Z)
  | RegisterFiles (files nr : Z)
  | UnregisterFiles
  | RegisterEventfd (fd : Z)
  | UnregisterEventfd
  | RegisterEventfdAsync (fd : Z)
  | RegisterProbe (p nr : Z)
  | RegisterPersonality
  | UnregisterPersonality (id : Z)
  | RegisterRestrictions (res nr : Z)
  | EnableRings.

Definition run_request {W} {O : Os W} (ring_fd : Z) (q : reg_request) : prog (ost W) Z :=
  match q with
  | RegisterBuffers iov n => io_uring_register_buffers ring_fd iov n
  | UnregisterBuffers => io_uring_unregister_buffers ring_fd
  | RegisterFilesUpdate o f n => io_uring_register_files_update ring_fd o f n
  | RegisterFiles f n => io_uring_register_files ring_fd f n
  | UnregisterFiles => io_uring_unregister_files ring_fd
  | RegisterEventfd fd => io_uring_register_eventfd ring_fd fd
  | UnregisterEventfd => io_uring_unregister_eventfd ring_fd
  | RegisterEventfdAsync fd => io_uring_register_eventfd_async ring_fd fd
  | RegisterProbe p n => io_uring_register_probe ring_fd p n
  | RegisterPersonality => io_uring_register_personality ring_fd
  | UnregisterPersonality id => io_uring_unregister_personality ring_fd id
  | RegisterRestrictions r n => io_uring_register_restrictions ring_fd r n
  | EnableRings => io_uring_enable_rings ring_fd
  end.

(** How io_uring_register(2) reads its arguments back: the kernel's dispatch on
    the opcode (io_uring_register.2). *)
Definition kernel_dispatch (opcode : Z) (arg : reg_arg) (nr : Z) : option reg_request :=
  match arg with
  | RegPtr a =>
      if opcode =? 0 then Some (RegisterBuffers a nr)
      else if opcode =? 2 then Some (RegisterFiles a nr)
      else if opcode =? 8 then Some (RegisterProbe a nr)
      else if opcode =? 11 then Some (RegisterRestrictions a nr) else None
  | RegNull =>
      if opcode =? 10 then Some (UnregisterPersonality nr)
      else if negb (nr =? 0) then None
      else if opcode =? 1 then Some UnregisterBuffers
      else if opcode =? 3 then Some UnregisterFiles
      else if opcode =? 5 then Some UnregisterEventfd
      else if opcode =? 9 then Some RegisterPersonality
      else if opcode =? 12 then Some EnableRings else None
  | RegFilesUpdate up =>
      if opcode =? 6 then Some (RegisterFilesUpdate (fu_offset up) (fu_fds up) nr) else None
  | RegEventfd fd =>
      if negb (nr =? 1) then None
      else if opcode =? 4 then Some (RegisterEventfd fd)
      else if opcode =? 7 then Some (RegisterEventfdAsync fd) else None
  end.

Definition reg_request_ok (q : reg_request) : Prop :=
  match q with
  | RegisterFilesUpdate _ files _ => in_u 64 files
  | UnregisterPersonality id => in_u 32 id
  | _ => True
  end.

(** The requests whose wrapper returns the kernel's result rather than 0. *)
Definition returns_value (q : reg_request) : bool :=
  match q with
  | RegisterFilesUpdate _ _ _ | RegisterPersonality | UnregisterPersonality _ | EnableRings => true
  | _ => false
  end.

Lemma wrapper_result {W} {O : Os W} (value : bool) fd op arg nr (s : ost W) w v e :
  os_register (o_world s) fd op arg nr = (w, v, e) -> (v < 0 -> v = -1) ->
  (let* ret := __sys_io_uring_register fd op arg nr in
   if value then value_or_errno ret else zero_or_errno ret) s =
    Ok (if v <? 0 then - e else if value then v else 0,
        mk_ost w (if v =? -1 then e else o_errno s)).
Proof.
  intros Hk Hv. unfold bind, __sys_io_uring_register, syscall, value_or_errno, zero_or_errno,
    errno, gets, bind, ret. rewrite Hk.
  destruct value; case_z; try done; by rewrite Hv.
Qed.

(** ** Properties *)

(** C34: every wrapper of register.c makes one io_uring_register(2) call on the
    ring's descriptor, whose opcode, argument and count the kernel reads back as
    exactly the request made; a failure is returned as the negated errno, a
    success as 0, or as the kernel's result for the calls that return one. *)
Theorem register_correct (W : Type) (O : Os W) (L : OsLaws W) (s : ost W) ring_fd q :
  reg_request_ok q ->
  exists opcode arg nr w v e,
    kernel_dispatch opcode arg nr = Some q /\
    os_register (o_world s) ring_fd opcode arg nr = (w, v, e) /\
    run_request ring_fd q s =
      Ok (if v <? 0 then - e else if returns_value q then v else 0,
          mk_ost w (if v =? -1 then e else o_errno s)) /\
    owns w = owns (o_world s).
Proof.
  intros Hq.
  assert (forall value op arg nr, kernel_dispatch op arg nr = Some q -> value = returns_value q ->
    run_request ring_fd q =
      (let* ret := __sys_io_uring_register ring_fd op arg nr in
       if value then value_or_errno ret else zero_or_errno ret) ->
    exists opcode arg nr w v e,
      kernel_dispatch opcode arg nr = Some q /\
      os_register (o_world s) ring_fd opcode arg nr = (w, v, e) /\
      run_request ring_fd q s =
        Ok (if v <? 0 then - e else if returns_value q then v else 0,
            mk_ost w (if v =? -1 then e else o_errno s)) /\
      owns w = owns (o_world s)) as Hgen.
  { intros value op arg nr Hd -> Hrun. destruct (os_register (o_world s) ring_fd op arg nr)
      as [[w v] e] eqn:He. destruct (register_law _ _ _ _ _ _ _ _ He) as [Hown Hv].
    exists op, arg, nr, w, v, e. split_and!; try done. rewrite Hrun.
    apply wrapper_result; [done|]. unfold proper_error in Hv. lia. }
  destruct q; simpl in Hq;
    (eapply Hgen; [|reflexivity|reflexivity]; simpl; rewrite ?wrap_small by done; done).
Qed.

Lemma register_correct_witness :
  let w := mk_sim (mk_owned ∅ ∅ ∅) ∅ 0
             (mk_params 0 0 0 0 0 0 0 (mk_sq_off 0 0 0 0 0 0 0 0 0) (mk_cq_off 0 0 0 0 0 0 0 0 0)) [] in
  exists op arg nr w' v e,
    kernel_dispatch op arg nr = Some (RegisterFilesUpdate 2 4096 3) /\
    run_request 5 (RegisterFilesUpdate 2 4096 3) (mk_ost w 0) =
      Ok (if v <? 0 then - e else v, mk_ost w' (if v =? -1 then e else 0)).
Proof.
  intros w.
  destruct (register_correct sim SimOs SimOs_laws (mk_ost w 0) 5 (RegisterFilesUpdate 2 4096 3)
    ltac:(by vm_compute)) as (op & arg & nr & w' & v & e & H1 & _ & H2 & _).
  exists op, arg, nr, w', v, e. split; [exact H1|exact H2].
Defined.
