(* ===== verification/Setup.v ===== *)
(** * Setting a ring up and tearing it down (src/liburing/src/setup.c)

    Pointers are addresses, the structs of this file hold the pointers of
    [struct io_uring] rather than the words they point at.  Functions that fill a
    caller's struct return it. *)

From stdpp Require Import gmap.
From S2P Require Import Prelude Abi Os Register.

(** ** State *)

Record sq_ptrs : Type := mk_sqp {
  sp_khead : Z; sp_ktail : Z; sp_kring_mask : Z; sp_kring_entries : Z; sp_kflags : Z;
  sp_kdropped : Z; sp_array : Z; sp_sqes : Z; sp_ring_sz : Z; sp_ring_ptr : Z;
}.

Record cq_ptrs : Type := mk_cqp {
  cp_khead : Z; cp_ktail : Z; cp_kring_mask : Z; cp_kring_entries : Z; cp_kflags : Z;
  cp_koverflow : Z; cp_cqes : Z; cp_ring_sz : Z; cp_ring_ptr : Z;
}.

Record ring_ptrs : Type := mk_rp {
  rp_sq : sq_ptrs; rp_cq : cq_ptrs; rp_flags : Z; rp_ring_fd : Z; rp_features : Z;
}.

Definition zero_sqp : sq_ptrs := mk_sqp 0 0 0 0 0 0 0 0 0 0.
Definition zero_cqp : cq_ptrs := mk_cqp 0 0 0 0 0 0 0 0 0.
Definition zero_rp : ring_ptrs := mk_rp zero_sqp zero_cqp 0 0 0.

Definition sp_set_ring (sz ptr : Z) (q : sq_ptrs) : sq_ptrs :=
  mk_sqp (sp_khead q) (sp_ktail q) (sp_kring_mask q) (sp_kring_entries q) (sp_kflags q)
    (sp_kdropped q) (sp_array q) (sp_sqes q) sz ptr.
Definition sp_set_sqes (a : Z) (q : sq_ptrs) : sq_ptrs :=
  mk_sqp (sp_khead q) (sp_ktail q) (sp_kring_mask q) (sp_kring_entries q) (sp_kflags q)
    (sp_kdropped q) (sp_array q) a (sp_ring_sz q) (sp_ring_ptr q).
Definition cp_set_ring (sz ptr : Z) (q : cq_ptrs) : cq_ptrs :=
  mk_cqp (cp_khead q) (cp_ktail q) (cp_kring_mask q) (cp_kring_entries q) (cp_kflags q)
    (cp_koverflow q) (cp_cqes q) sz ptr.

(** The assignments of the pointers into the mapped rings. *)
Definition sq_fill (o : io_sqring_offsets) (q : sq_ptrs) : sq_ptrs :=
  let p := sp_ring_ptr q in
  mk_sqp (p + sqo_head o) (p + sqo_tail o) (p + sqo_ring_mask o) (p + sqo_ring_entries o)
    (p + sqo_flags o) (p + sqo_dropped o) (p + sqo_array o) (sp_sqes q) (sp_ring_sz q) p.

Definition cq_fill (o : io_cqring_offsets) (q : cq_ptrs) : cq_ptrs :=
  let p := cp_ring_ptr q in
  mk_cqp (p + cqo_head o) (p + cqo_tail o) (p + cqo_ring_mask o) (p + cqo_ring_entries o)
    (if negb (cqo_flags o =? 0) then p + cqo_flags o else cp_kflags q)
    (p + cqo_overflow o) (p + cqo_cqes o) (cp_ring_sz q) p.

Definition sizeof_unsigned : Z := 4.
Definition sizeof_sqe : Z := 64.
Definition sizeof_cqe : Z := 16.
Definition sizeof_probe : Z := 16.
Definition sizeof_probe_op : Z := 8.

Section setup.
Context {W : Type} {O : Os W}.

(** ** Operations *)

Definition io_uring_unmap_rings (sq : sq_ptrs) (cq : cq_ptrs) : prog (ost W) unit :=
  do* munmap (sp_ring_ptr sq) (sp_ring_sz sq) in
  if negb (cp_ring_ptr cq =? 0) && negb (cp_ring_ptr cq =? sp_ring_ptr sq)
  then do* munmap (cp_ring_ptr cq) (cp_ring_sz cq) in ret tt
  else ret tt.

(** The ring sizes the first lines of [io_uring_mmap] compute. *)
Definition ring_sizes (p : io_uring_params) : Z * Z :=
  let sq_sz := u64 (sqo_array (p_sq_off p) + p_sq_entries p * sizeof_unsigned) in
  let cq_sz := u64 (cqo_cqes (p_cq_off p) + p_cq_entries p * sizeof_cqe) in
  if flag_set (p_features p) IORING_FEAT_SINGLE_MMAP then
    let sq_sz := if sq_sz <? cq_sz then cq_sz else sq_sz in (sq_sz, sq_sz)
  else (sq_sz, cq_sz).

(** From the [sqes] mapping on: both rings are mapped. *)
Definition mmap_sqes (fd : Z) (p : io_uring_params) (sq : sq_ptrs) (cq : cq_ptrs)
    : prog (ost W) (Z * sq_ptrs * cq_ptrs) :=
  let sq := sq_fill (p_sq_off p) sq in
  let size := u64 (p_sq_entries p * sizeof_sqe) in
  let* sqes := mmap size fd IORING_OFF_SQES in
  let sq := sp_set_sqes sqes sq in
  if sqes =? MAP_FAILED then
    let* e := errno in
    do* io_uring_unmap_rings sq cq in ret (- e, sq, cq)
  else ret (0, sq, cq_fill (p_cq_off p) cq).

Definition io_uring_mmap (fd : Z) (p : io_uring_params) (sq : sq_ptrs) (cq : cq_ptrs)
    : prog (ost W) (Z * sq_ptrs * cq_ptrs) :=
  let '(sq_sz, cq_sz) := ring_sizes p in
  let* ptr := mmap sq_sz fd IORING_OFF_SQ_RING in
  let sq := sp_set_ring sq_sz ptr sq in
  let cq := cp_set_ring cq_sz (cp_ring_ptr cq) cq in
  if ptr =? MAP_FAILED then let* e := errno in ret (- e, sq, cq)
  else if flag_set (p_features p) IORING_FEAT_SINGLE_MMAP then
    mmap_sqes fd p sq (cp_set_ring cq_sz ptr cq)
  else
    let* cptr := mmap cq_sz fd IORING_OFF_CQ_RING in
    if cptr =? MAP_FAILED then
      let cq := cp_set_ring cq_sz 0 cq in
      let* e := errno in
      do* io_uring_unmap_rings sq cq in ret (- e, sq, cq)
    else mmap_sqes fd p sq (cp_set_ring cq_sz cptr cq).

Definition io_uring_queue_mmap (fd : Z) (p : io_uring_params) : prog (ost W) (Z * ring_ptrs) :=
  let* (v, sq, cq) := io_uring_mmap fd p zero_sqp zero_cqp in
  if v =? 0 then ret (v, mk_rp sq cq (p_flags p) fd 0)
  else ret (v, mk_rp sq cq 0 0 0).

Definition io_uring_ring_dontfork (ring : ring_ptrs) : prog (ost W) Z :=
  let sq := rp_sq ring in
  let cq := rp_cq ring in
  if (sp_ring_ptr sq =? 0) || (sp_sqes sq =? 0) || (cp_ring_ptr cq =? 0) then ret (- EINVAL)
  else
    let* n := read32 (sp_kring_entries sq) in
    let* v := madvise (sp_sqes sq) (u64 (n * sizeof_sqe)) MADV_DONTFORK in
    if v =? -1 then let* e := errno in ret (- e) else
    let* v := madvise (sp_ring_ptr sq) (sp_ring_sz sq) MADV_DONTFORK in
    if v =? -1 then let* e := errno in ret (- e) else
    if negb (cp_ring_ptr cq =? sp_ring_ptr sq) then
      let* v := madvise (cp_ring_ptr cq) (cp_ring_sz cq) MADV_DONTFORK in
      if v =? -1 then let* e := errno in ret (- e) else ret 0
    else ret 0.

(** Returns the ring ([ring] unchanged when the kernel refuses) and the
    parameters as the kernel left them. *)
Definition io_uring_queue_init_params (entries : Z) (ring : ring_ptrs) (p : io_uring_params)
    : prog (ost W) (Z * ring_ptrs * io_uring_params) :=
  let* (fd, p) := __sys_io_uring_setup entries p in
  if fd <? 0 then let* e := errno in ret (- e, ring, p)
  else
    let* (v, ring) := io_uring_queue_mmap fd p in
    if negb (v =? 0) then do* close fd in ret (v, ring, p)
    else
      ret (0, mk_rp (rp_sq ring) (rp_cq ring) (rp_flags ring) (rp_ring_fd ring) (p_features p), p).

Definition init_params (flags : Z) : io_uring_params :=
  mk_params 0 0 flags 0 0 0 0 (mk_sq_off 0 0 0 0 0 0 0 0 0) (mk_cq_off 0 0 0 0 0 0 0 0 0).

Definition io_uring_queue_init (entries : Z) (ring : ring_ptrs) (flags : Z)
    : prog (ost W) (Z * ring_ptrs) :=
  let* (v, ring, p) := io_uring_queue_init_params entries ring (init_params flags) in
  ret (v, ring).

Definition io_uring_queue_exit (ring : ring_ptrs) : prog (ost W) unit :=
  let sq := rp_sq ring in
  let* n := read32 (sp_kring_entries sq) in
  do* munmap (sp_sqes sq) (u64 (n * sizeof_sqe)) in
  do* io_uring_unmap_rings sq (rp_cq ring) in
  do* close (rp_ring_fd ring) in ret tt.

(** ** Probes *)

(** The address of the probe, or 0.  Clearing the block dereferences [malloc]'s
    result. *)
Definition io_uring_get_probe_ring (ring : ring_ptrs) : prog (ost W) Z :=
  let len := sizeof_probe + 256 * sizeof_probe_op in
  let* probe := malloc len in
  if probe =? 0 then raise NullDeref
  else
    let* r := io_uring_register_probe (rp_ring_fd ring) probe 256 in
    if r <? 0 then do* free probe in ret 0 else ret probe.

(** [ring] is what the uninitialised local variable holds. *)
Definition io_uring_get_probe (ring : ring_ptrs) : prog (ost W) Z :=
  let* (r, ring) := io_uring_queue_init 2 ring 0 in
  if r <? 0 then ret 0
  else
    let* probe := io_uring_get_probe_ring ring in
    do* io_uring_queue_exit ring in ret probe.

Definition io_uring_free_probe (probe : Z) : prog (ost W) unit := free probe.
End setup.
