(* ===== verification/SetupSpec.v ===== *)
(** * Setup neither leaks nor strays

    What setup.c owns after each call, for any operating system meeting the laws
    of [OsLaws]: failures release everything they acquired, tearing down undoes
    setting up, and the pointers stay inside the mappings. *)

From stdpp Require Import gmap.
From S2P Require Import Prelude Abi Os SimOs Register Setup.

(** ** Ownership of a ring *)

(** [o] with the mappings of the two rings. *)
Definition rings_map (sq : sq_ptrs) (cq : cq_ptrs) (o : owned) : owned :=
  let o := add_map (sp_ring_ptr sq) (sp_ring_sz sq) o in
  if negb (cp_ring_ptr cq =? 0) && negb (cp_ring_ptr cq =? sp_ring_ptr sq)
  then add_map (cp_ring_ptr cq) (cp_ring_sz cq) o else o.

Record rings_fresh (sq : sq_ptrs) (cq : cq_ptrs) (o : owned) : Prop := {
  rf_sq : 0 < sp_ring_ptr sq;
  rf_sq_new : ow_maps o !! sp_ring_ptr sq = None;
  rf_cq_new : cp_ring_ptr cq <> 0 -> cp_ring_ptr cq <> sp_ring_ptr sq ->
    ow_maps o !! cp_ring_ptr cq = None;
}.

(** [o] with everything a ring of [n] entries owns. *)
Definition ring_map (n : Z) (r : ring_ptrs) (o : owned) : owned :=
  add_fd (rp_ring_fd r)
    (add_map (sp_sqes (rp_sq r)) (u64 (n * sizeof_sqe)) (rings_map (rp_sq r) (rp_cq r) o)).

Record ring_fresh (r : ring_ptrs) (o : owned) : Prop := {
  rg_rings : rings_fresh (rp_sq r) (rp_cq r) o;
  rg_sqes : 0 < sp_sqes (rp_sq r);
  rg_sqes_new : ow_maps (rings_map (rp_sq r) (rp_cq r) o) !! sp_sqes (rp_sq r) = None;
  rg_cq : 0 < cp_ring_ptr (rp_cq r);
  rg_fd : rp_ring_fd r ∉ ow_fds o;
}.

Section calls.
Context {W : Type} {O : Os W} {L : OsLaws W}.
Implicit Types (s : ost W).

Lemma mmap_run s len fd off :
  exists v s', mmap len fd off s = Ok (v, s') /\
    ((v = MAP_FAILED /\ 0 < o_errno s' < 4096 /\ owns (o_world s') = owns (o_world s)) \/
     (0 < v /\ os_maps (o_world s) !! v = None /\
      owns (o_world s') = add_map v len (owns (o_world s)))).
Proof.
  unfold mmap, syscall. destruct (os_mmap _ _ _ _ _ _ _) as [[w v] e] eqn:He.
  eexists v, _. split; [done|]. simpl.
  destruct (mmap_law _ _ _ _ _ _ _ _ _ _ He) as [[[-> ?] ?]|?]; [left|right]; done.
Qed.

Lemma munmap_run s a len o :
  owns (o_world s) = o -> ow_maps o !! a = Some len ->
  exists v s', munmap a len s = Ok (v, s') /\ owns (o_world s') = del_map a o.
Proof.
  intros <- Ha. unfold munmap, syscall. destruct (os_munmap _ _ _) as [[w v] e] eqn:He.
  eexists v, _. split; [done|]. by apply (munmap_law _ _ _ _ _ _ He).
Qed.

Lemma close_run s fd :
  exists v s', close fd s = Ok (v, s') /\ owns (o_world s') = del_fd fd (owns (o_world s)).
Proof.
  unfold close, syscall. destruct (os_close _ _) as [[w v] e] eqn:He.
  eexists v, _. split; [done|]. by apply (close_law _ _ _ _ _ He).
Qed.

Lemma unmap_rings_run s sq cq o :
  owns (o_world s) = rings_map sq cq o -> rings_fresh sq cq o ->
  exists s', io_uring_unmap_rings sq cq s = Ok (tt, s') /\ owns (o_world s') = o.
Proof.
  intros Ho [Hsq Hn1 Hn2]. unfold io_uring_unmap_rings, rings_map in *.
  destruct (Z.eqb_spec (cp_ring_ptr cq) 0) as [E0|E0],
    (Z.eqb_spec (cp_ring_ptr cq) (sp_ring_ptr sq)) as [E1|E1]; simpl in *.
  4: { destruct (munmap_run s (sp_ring_ptr sq) (sp_ring_sz sq) _ Ho) as (v & s1 & H1 & Ho1).
       { simpl. rewrite lookup_insert_ne by done. apply lookup_insert_eq. }
       rewrite del_add_map_ne, del_add_map in Ho1 by done.
       destruct (munmap_run s1 (cp_ring_ptr cq) (cp_ring_sz cq) _ Ho1) as (v2 & s2 & H2 & Ho2).
       { apply lookup_insert_eq. }
       rewrite del_add_map in Ho2 by auto.
       exists s2. split; [|done]. by rewrite (bind_ok _ _ _ _ _ H1), (bind_ok _ _ _ _ _ H2). }
  all: destruct (munmap_run s (sp_ring_ptr sq) (sp_ring_sz sq) _ Ho) as (v & s1 & H1 & Ho1);
    [apply lookup_insert_eq|]; rewrite del_add_map in Ho1 by done;
    exists s1; split; [|done]; by rewrite (bind_ok _ _ _ _ _ H1).
Qed.

(** ** Mapping *)

Lemma mmap_sqes_run s fd p sq cq o :
  owns (o_world s) = rings_map sq cq o -> rings_fresh sq cq o ->
  exists v sq' cq' s', mmap_sqes fd p sq cq s = Ok ((v, sq', cq'), s') /\
    ((v < 0 /\ owns (o_world s') = o) \/
     (v = 0 /\ 0 < sp_sqes sq' /\ ow_maps (rings_map sq' cq' o) !! sp_sqes sq' = None /\
      sq' = sp_set_sqes (sp_sqes sq') (sq_fill (p_sq_off p) sq) /\ cq' = cq_fill (p_cq_off p) cq /\
      owns (o_world s') =
        add_map (sp_sqes sq') (u64 (p_sq_entries p * sizeof_sqe)) (rings_map sq' cq' o))).
Proof.
  intros Ho Hf. unfold mmap_sqes.
  destruct (mmap_run s (u64 (p_sq_entries p * sizeof_sqe)) fd IORING_OFF_SQES)
    as (a & s1 & H1 & Ha).
  rewrite (bind_ok _ _ _ _ _ H1). destruct Ha as [(-> & He & Ho1)|(Ha & Hn & Ho1)].
  - cbn [Z.eqb MAP_FAILED Pos.eqb]. unfold bind at 1, errno, gets. cbv beta iota.
    set (sq' := sp_set_sqes _ _).
    destruct (unmap_rings_run s1 sq' cq o) as (s2 & H2 & Ho2).
    + by rewrite Ho1, Ho.
    + by destruct Hf.
    + rewrite (bind_ok _ _ _ _ _ H2). eexists _, _, _, s2. split; [done|]. left. split; [lia|done].
  - destruct (Z.eqb_spec a MAP_FAILED); [unfold MAP_FAILED in *; lia|].
    eexists 0, (sp_set_sqes a (sq_fill (p_sq_off p) sq)), (cq_fill (p_cq_off p) cq), s1.
    split; [done|]. right. split_and!; try done.
    + rewrite (owns_maps _ _ Ho) in Hn. done.
    + by rewrite Ho1, Ho.
Qed.

(** The ring [io_uring_queue_init_params] builds from the three addresses. *)
Definition ring_layout (p : io_uring_params) (fd ptr cptr sqes : Z) : ring_ptrs :=
  mk_rp (sp_set_sqes sqes (sq_fill (p_sq_off p) (sp_set_ring (fst (ring_sizes p)) ptr zero_sqp)))
    (cq_fill (p_cq_off p) (cp_set_ring (snd (ring_sizes p)) cptr zero_cqp))
    (p_flags p) fd (p_features p).

(** The ring is mapped on top of [o]: the submission and completion rings share a
    mapping exactly when the kernel offers that. *)
Definition mapped_at (p : io_uring_params) (fd ptr cptr sqes : Z) (o : owned) : Prop :=
  let r := ring_layout p fd ptr cptr sqes in
  rings_fresh (rp_sq r) (rp_cq r) o /\ 0 < sqes /\ 0 < cptr /\
  ow_maps (rings_map (rp_sq r) (rp_cq r) o) !! sqes = None /\
  (flag_set (p_features p) IORING_FEAT_SINGLE_MMAP = true <-> cptr = ptr).

Lemma io_uring_mmap_run s fd p :
  exists v sq cq s', io_uring_mmap fd p zero_sqp zero_cqp s = Ok ((v, sq, cq), s') /\
    ((v < 0 /\ owns (o_world s') = owns (o_world s)) \/
     (v = 0 /\ exists ptr cptr sqes, mapped_at p fd ptr cptr sqes (owns (o_world s)) /\
        let r := ring_layout p fd ptr cptr sqes in
        sq = rp_sq r /\ cq = rp_cq r /\
        owns (o_world s') = add_map sqes (u64 (p_sq_entries p * sizeof_sqe))
          (rings_map sq cq (owns (o_world s))))).
Proof.
  set (o := owns (o_world s)). unfold io_uring_mmap.
  destruct (ring_sizes p) as [sz csz] eqn:Hsz.
  destruct (mmap_run s sz fd IORING_OFF_SQ_RING) as (ptr & s1 & H1 & Hp).
  rewrite (bind_ok _ _ _ _ _ H1). destruct Hp as [(-> & He & Ho1)|(Hp & Hn & Ho1)].
  { eexists _, _, _, s1. split; [done|]. left. split; [|done].
    unfold gets. simpl. lia. }
  destruct (Z.eqb_spec ptr MAP_FAILED); [unfold MAP_FAILED in *; lia|].
  assert (forall cptr s2, owns (o_world s2) =
      rings_map (sp_set_ring sz ptr zero_sqp) (cp_set_ring csz cptr zero_cqp) o ->
      0 < cptr -> rings_fresh (sp_set_ring sz ptr zero_sqp) (cp_set_ring csz cptr zero_cqp) o ->
      (flag_set (p_features p) IORING_FEAT_SINGLE_MMAP = true <-> cptr = ptr) ->
      exists v sq cq s', mmap_sqes fd p (sp_set_ring sz ptr zero_sqp)
          (cp_set_ring csz cptr zero_cqp) s2 = Ok ((v, sq, cq), s') /\
        ((v < 0 /\ owns (o_world s') = o) \/
         (v = 0 /\ exists ptr cptr sqes, mapped_at p fd ptr cptr sqes o /\
            let r := ring_layout p fd ptr cptr sqes in sq = rp_sq r /\ cq = rp_cq r /\
            owns (o_world s') = add_map sqes (u64 (p_sq_entries p * sizeof_sqe))
              (rings_map sq cq o)))) as Htail.
  { intros cptr s2 Ho2 Hc Hf Hs. destruct (mmap_sqes_run s2 fd p _ _ o Ho2 Hf)
      as (v & sq & cq & s3 & H3 & Hres). exists v, sq, cq, s3. split; [done|].
    destruct Hres as [?|(Hv & Hq & Hnew & Hsq & -> & Ho3)]; [by left|right]. split; [done|].
    exists ptr, cptr, (sp_sqes sq). unfold mapped_at, ring_layout. rewrite Hsz. simpl fst. simpl snd.
    cbn [rp_sq rp_cq]. rewrite <- Hsq. split_and!; try done. rewrite Hsq. by destruct Hf. }
  destruct (flag_set (p_features p) IORING_FEAT_SINGLE_MMAP) eqn:Hf.
  - apply (Htail ptr s1); [|done| |done].
    + unfold rings_map. simpl. by rewrite Z.eqb_refl, andb_false_r.
    + by split.
  - destruct (mmap_run s1 csz fd IORING_OFF_CQ_RING) as (cptr & s2 & H2 & Hc).
    rewrite (bind_ok _ _ _ _ _ H2). destruct Hc as [(-> & He & Ho2)|(Hc & Hcn & Ho2)].
    + rewrite Z.eqb_refl. unfold bind at 1, errno, gets. cbv beta iota.
      destruct (unmap_rings_run s2 (sp_set_ring sz ptr zero_sqp) (cp_set_ring csz 0 zero_cqp) o)
        as (s3 & H3 & Ho3); [by rewrite Ho2, Ho1|split; try done|].
      eexists _, _, _, s3. erewrite (bind_ok _ _ s2 tt s3) by exact H3. split; [done|]. left. split; [lia|done].
    + destruct (Z.eqb_spec cptr MAP_FAILED); [unfold MAP_FAILED in *; lia|].
      rewrite (owns_maps _ _ Ho1) in Hcn. simpl in Hcn. apply lookup_insert_None in Hcn as [Hcn Hne].
      apply (Htail cptr s2); [|done| |].
      * unfold rings_map. simpl. destruct (Z.eqb_spec cptr 0); [lia|].
        destruct (Z.eqb_spec cptr ptr); [by subst|]. simpl. by rewrite Ho2, Ho1.
      * split; try done.
      * split; [done|]. intros ->. done.
Qed.

Lemma setup_run s n p :
  exists v p' s', __sys_io_uring_setup n p s = Ok ((v, p'), s') /\
    ((v < 0 /\ 0 < o_errno s' /\ owns (o_world s') = owns (o_world s)) \/
     (0 <= v /\ (v ∉ os_fds (o_world s)) /\ owns (o_world s') = add_fd v (owns (o_world s)))).
Proof.
  unfold __sys_io_uring_setup. destruct (os_setup _ _ _) as [[[w p'] v] e] eqn:He.
  eexists v, p', _. split; [done|]. simpl.
  destruct (setup_law _ _ _ _ _ _ _ He) as [[[-> ?] ?]|?]; [left|right]; [|done].
  split_and!; [lia|simpl; lia|done].
Qed.

Lemma rings_map_fd sq cq fd o : rings_map sq cq (add_fd fd o) = add_fd fd (rings_map sq cq o).
Proof. unfold rings_map. by destruct (_ && _). Qed.

(** What initialisation achieves on top of [o]. *)
Definition init_done (o : owned) (p : io_uring_params) (r : ring_ptrs) (o' : owned) : Prop :=
  exists fd ptr cptr sqes, r = ring_layout p fd ptr cptr sqes /\ mapped_at p fd ptr cptr sqes o /\
    (fd ∉ ow_fds o) /\ o' = ring_map (p_sq_entries p) r o.

Lemma init_params_run s n r0 p0 :
  exists v r p s', io_uring_queue_init_params n r0 p0 s = Ok ((v, r, p), s') /\
    ((v < 0 /\ owns (o_world s') = owns (o_world s)) \/
     (v = 0 /\ init_done (owns (o_world s)) p r (owns (o_world s')))).
Proof.
  unfold io_uring_queue_init_params.
  destruct (setup_run s n p0) as (fd & p & s1 & H1 & Hfd). rewrite (bind_ok _ _ _ _ _ H1).
  destruct Hfd as [(Hv & He & Ho1)|(Hv & Hnew & Ho1)].
  { rewrite (proj2 (Z.ltb_lt fd 0) Hv). eexists _, r0, p, s1. split; [done|]. left. split; [|done].
    unfold gets. simpl. lia. }
  rewrite (proj2 (Z.ltb_ge fd 0) Hv). unfold io_uring_queue_mmap.
  destruct (io_uring_mmap_run s1 fd p) as (v & sq & cq & s2 & H2 & Hres). rewrite Ho1 in Hres.
  destruct Hres as [[Hneg Ho2]|(-> & ptr & cptr & sqes & Hm & -> & -> & Ho2)].
  - destruct (close_run s2 fd) as (v2 & s3 & H3 & Ho3).
    eexists v, _, p, s3. split.
    + unfold bind at 1. rewrite (bind_ok _ _ _ _ _ H2). destruct (Z.eqb_spec v 0); [lia|].
      unfold ret at 1. cbv beta iota. destruct (Z.eqb_spec v 0); [lia|]. cbn [negb].
      by rewrite (bind_ok _ _ _ _ _ H3).
    + left. split; [done|]. rewrite Ho3, Ho2, del_add_fd; done.
  - eexists 0, (ring_layout p fd ptr cptr sqes), p, s2. split.
    + unfold bind at 1. by rewrite (bind_ok _ _ _ _ _ H2).
    + right. split; [done|]. exists fd, ptr, cptr, sqes. split_and!; [done| |done|].
      * unfold mapped_at in *. rewrite rings_map_fd in Hm. destruct Hm as ([? ? ?] & Hm).
        by split.
      * by rewrite Ho2, rings_map_fd.
Qed.

Lemma queue_init_run s n r0 fl v r p s' :
  io_uring_queue_init_params n r0 (init_params fl) s = Ok ((v, r, p), s') ->
  io_uring_queue_init n r0 fl s = Ok ((v, r), s').
Proof. intros H. unfold io_uring_queue_init. by rewrite (bind_ok _ _ _ _ _ H). Qed.

Lemma queue_exit_run s r n o :
  owns (o_world s) = ring_map n r o -> ring_fresh r o ->
  os_read32 (o_world s) (sp_kring_entries (rp_sq r)) = n ->
  exists s', io_uring_queue_exit r s = Ok (tt, s') /\ owns (o_world s') = o.
Proof.
  intros Ho [Hr Hs Hsn _ Hfd] Hn. unfold io_uring_queue_exit, read32, gets.
  unfold bind at 1. cbv beta iota. rewrite Hn. unfold ring_map in Ho.
  destruct (munmap_run s (sp_sqes (rp_sq r)) (u64 (n * sizeof_sqe)) _ Ho) as (v1 & s1 & H1 & Ho1);
    [apply lookup_insert_eq|].
  rewrite (bind_ok _ _ _ _ _ H1). rewrite del_map_add_fd, del_add_map, <- rings_map_fd in Ho1 by done.
  destruct (unmap_rings_run s1 _ _ _ Ho1) as (s2 & H2 & Ho2); [by destruct Hr|].
  rewrite (bind_ok _ _ _ _ _ H2).
  destruct (close_run s2 (rp_ring_fd r)) as (v3 & s3 & H3 & Ho3).
  exists s3. rewrite (bind_ok _ _ _ _ _ H3). split; [done|]. by rewrite Ho3, Ho2, del_add_fd.
Qed.

Lemma init_done_fresh o p r o' : init_done o p r o' -> ring_fresh r o.
Proof.
  intros (fd & ptr & cptr & sqes & -> & (Hr & Hs & Hc & Hn & _) & Hfd & _). by split.
Qed.
End calls.

(** ** Inputs of the witnesses *)

Definition sample_params : io_uring_params :=
  mk_params 2 4 0 0 0 IORING_FEAT_NODROP 0 (mk_sq_off 0 4 8 12 16 20 64 0 0)
    (mk_cq_off 24 28 32 36 40 64 44 0 0).
Definition sample_sim (plan : list bool) : ost sim :=
  mk_ost (mk_sim (mk_owned ∅ {[0]} ∅) ∅ 2 sample_params plan) 0.

(** ** Properties *)

(** C21: io_uring_queue_init always returns.  A failure, whether of setup or of any
    of the three mappings, is negative and leaves the process owning exactly what
    it owned before; a success gives the ring its descriptor, its mappings with
    the sizes computed from the kernel's parameters, and pointers at the kernel's
    offsets, on top of what the process owned. *)
Theorem queue_init_correct (W : Type) (O : Os W) (L : OsLaws W) (s : ost W) entries r0 flags :
  exists v r s', io_uring_queue_init entries r0 flags s = Ok ((v, r), s') /\
    ((v < 0 /\ owns (o_world s') = owns (o_world s)) \/
     (v = 0 /\ exists p, init_done (owns (o_world s)) p r (owns (o_world s')))).
Proof.
  destruct (init_params_run s entries r0 (init_params flags)) as (v & r & p & s' & H & Hres).
  exists v, r, s'. split; [by apply (queue_init_run _ _ _ _ _ _ p)|].
  destruct Hres as [?|[? ?]]; [by left|right; eauto].
Qed.

(** The third mapping fails. *)
Lemma queue_init_correct_witness :
  exists r s', io_uring_queue_init 2 zero_rp 0 (sample_sim [false; false; false; true]) =
      Ok ((- EINVAL, r), s') /\
    owns (o_world s') = owns (o_world (sample_sim [])).
Proof.
  destruct (queue_init_correct sim SimOs SimOs_laws (sample_sim [false; false; false; true])
    2 zero_rp 0) as (v & r & s' & H & Hres).
  exists r, s'. assert (v = - EINVAL) as -> by (vm_compute in H; by injection H as <- _ _).
  split; [exact H|]. destruct Hres as [[_ ?]|[? _]]; [done|]. done.
Defined.

(** Setting up a ring closes nothing. *)
Lemma queue_init_keeps_fds (W : Type) (O : Os W) (L : OsLaws W) (s s1 : ost W) entries r0 p0 r p :
  io_uring_queue_init_params entries r0 p0 s = Ok ((0, r, p), s1) ->
  os_fds (o_world s) ⊆ os_fds (o_world s1).
Proof.
  intros H. destruct (init_params_run s entries r0 p0) as (v & r' & p' & s' & H' & Hres).
  rewrite H in H'. injection H' as <- <- <- <-. destruct Hres as [[? _]|[_ Hd]]; [done|].
  destruct Hd as (fd & ptr & cptr & sqes & _ & _ & _ & Ho1). apply (f_equal ow_fds) in Ho1.
  change (os_fds (o_world s1) = ow_fds (ring_map (p_sq_entries p) r (owns (o_world s)))) in Ho1. rewrite Ho1.
  unfold ring_map, rings_map. destruct (_ && _); cbn; set_solver.
Qed.

(** Io_uring_queue_exit undoes io_uring_queue_init: after a successful
    initialisation, in any later state in which the process owns the same things
    and the ring still holds its number of entries, tearing down releases every
    mapping and the descriptor, and nothing else. *)
Theorem init_exit_roundtrip (W : Type) (O : Os W) (L : OsLaws W) (s s1 s2 : ost W)
    entries r0 p0 r p :
  io_uring_queue_init_params entries r0 p0 s = Ok ((0, r, p), s1) ->
  owns (o_world s2) = owns (o_world s1) ->
  os_read32 (o_world s2) (sp_kring_entries (rp_sq r)) = p_sq_entries p ->
  exists s3, io_uring_queue_exit r s2 = Ok (tt, s3) /\ owns (o_world s3) = owns (o_world s).
Proof.
  intros H Ho Hn. destruct (init_params_run s entries r0 p0) as (v & r' & p' & s' & H' & Hres).
  rewrite H in H'. injection H' as <- <- <- <-. destruct Hres as [[? _]|[_ Hd]]; [done|].
  pose proof (init_done_fresh _ _ _ _ Hd) as Hf.
  destruct Hd as (fd & ptr & cptr & sqes & _ & _ & _ & Ho1).
  apply (queue_exit_run s2 r (p_sq_entries p)); [by rewrite Ho, Ho1|done|done].
Qed.

Lemma init_exit_roundtrip_witness :
  exists r s1 s2, io_uring_queue_init 2 zero_rp 0 (sample_sim []) = Ok ((0, r), s1) /\
    io_uring_queue_exit r s1 = Ok (tt, s2) /\
    owns (o_world s2) = owns (o_world (sample_sim [])).
Proof.
  destruct (io_uring_queue_init_params 2 zero_rp (init_params 0) (sample_sim []))
    as [[[[v r] p] s1]|f|] eqn:E; [|discriminate E|discriminate E].
  assert (v = 0) as -> by (vm_compute in E; by injection E as <- _ _ _).
  assert (2 = p_sq_entries p) as Hp by (vm_compute in E; by injection E as _ <- _).
  assert (sim_word (o_world s1) = 2) as Hw by (vm_compute in E; by injection E as _ _ <-).
  destruct (init_exit_roundtrip sim SimOs SimOs_laws (sample_sim []) s1 s1 2 zero_rp (init_params 0)
    r p E eq_refl ltac:(simpl; congruence)) as (s3 & H & Ho).
  exists r, s1, s3. split_and!; [|exact H|exact Ho].
  exact (queue_init_run _ _ _ _ _ _ _ _ E).
Defined.

(** The layout io_uring_setup(2) promises: 32-bit offsets, the index words below
    the arrays. *)
Record params_ok (p : io_uring_params) : Prop := {
  po_sq_entries : 0 < p_sq_entries p < 2 ^ 32;
  po_cq_entries : 0 < p_cq_entries p < 2 ^ 32;
  po_sq_array : 0 <= sqo_array (p_sq_off p) < 2 ^ 32;
  po_cqes : 0 <= cqo_cqes (p_cq_off p) < 2 ^ 32;
  po_sq_words : Forall (fun o => 0 <= o /\ o + 4 <= sqo_array (p_sq_off p))
    [sqo_head (p_sq_off p); sqo_tail (p_sq_off p); sqo_ring_mask (p_sq_off p);
     sqo_ring_entries (p_sq_off p); sqo_flags (p_sq_off p); sqo_dropped (p_sq_off p)];
  po_cq_words : Forall (fun o => 0 <= o /\ o + 4 <= cqo_cqes (p_cq_off p))
    [cqo_head (p_cq_off p); cqo_tail (p_cq_off p); cqo_ring_mask (p_cq_off p);
     cqo_ring_entries (p_cq_off p); cqo_flags (p_cq_off p); cqo_overflow (p_cq_off p)];
}.

(** [len] bytes at [a] lie in the mapping of [sz] bytes at [base]. *)
Definition within (base sz a len : Z) : Prop := base <= a /\ a + len <= base + sz.

(** After a successful setup every pointer of the ring lies in its mapping: the
    index words, the indirection array and the completion entries are inside the
    ring mappings for their whole length, and the size of the entry mapping is
    that of [sq_entries] entries; the size computations do not wrap. *)
Theorem setup_pointers_in_bounds p fd ptr cptr sqes o :
  params_ok p -> mapped_at p fd ptr cptr sqes o ->
  let r := ring_layout p fd ptr cptr sqes in
  let sq := rp_sq r in let cq := rp_cq r in
  Forall (fun a => within (sp_ring_ptr sq) (sp_ring_sz sq) a 4)
    [sp_khead sq; sp_ktail sq; sp_kring_mask sq; sp_kring_entries sq; sp_kflags sq;
     sp_kdropped sq] /\
  within (sp_ring_ptr sq) (sp_ring_sz sq) (sp_array sq) (p_sq_entries p * 4) /\
  Forall (fun a => within (cp_ring_ptr cq) (cp_ring_sz cq) a 4)
    [cp_khead cq; cp_ktail cq; cp_kring_mask cq; cp_kring_entries cq; cp_koverflow cq] /\
  (cp_kflags cq = 0 \/ within (cp_ring_ptr cq) (cp_ring_sz cq) (cp_kflags cq) 4) /\
  within (cp_ring_ptr cq) (cp_ring_sz cq) (cp_cqes cq) (p_cq_entries p * 16) /\
  u64 (p_sq_entries p * sizeof_sqe) = p_sq_entries p * 64.
Proof.
  intros [H1 H2 H3 H4 H5 H6] Hm r sq cq.
  assert (sp_ring_sz sq = fst (ring_sizes p)) as Es by done.
  assert (cp_ring_sz cq = snd (ring_sizes p)) as Ec by done.
  assert (sqo_array (p_sq_off p) + p_sq_entries p * 4 <= fst (ring_sizes p) /\
    cqo_cqes (p_cq_off p) + p_cq_entries p * 16 <= snd (ring_sizes p)) as [Hs Hc].
  { unfold ring_sizes, sizeof_unsigned, sizeof_cqe. rewrite !wrap_small by (unfold in_u; lia).
    destruct (flag_set _ _); simpl; [|lia]. case_z; lia. }
  rewrite Es, Ec. rewrite !Forall_cons_iff in H5, H6. rewrite !Forall_cons_iff. unfold within. simpl.
  unfold sizeof_sqe. rewrite wrap_small by (unfold in_u; lia).
  split_and!; try done; try lia.
  case_z; simpl; lia.
Qed.

Lemma setup_pointers_in_bounds_witness :
  within 4096 (64 + 2 * 4) (4096 + 12) 4.
Proof.
  assert (params_ok sample_params) as Hp.
  { split; simpl; rewrite ?Forall_cons_iff; repeat split; try done; by apply Forall_nil. }
  assert (mapped_at sample_params 3 4096 8192 12288 (mk_owned ∅ ∅ ∅)) as Hm.
  { split_and!; try done. }
  destruct (setup_pointers_in_bounds sample_params 3 4096 8192 12288 (mk_owned ∅ ∅ ∅) Hp Hm)
    as (H & _).
  rewrite !Forall_cons_iff in H. destruct H as (_ & _ & _ & H & _). exact H.
Defined.

(** ** Fork and probes *)

Section more.
Context {W : Type} {O : Os W} {L : OsLaws W}.
Implicit Types (s : ost W).

Lemma dontfork_run s a len :
  exists v s', madvise a len MADV_DONTFORK s = Ok (v, s') /\
    owns (o_world s') = owns (o_world s) /\
    ((v = -1 /\ 0 < o_errno s' /\ os_nofork (o_world s') = os_nofork (o_world s)) \/
     (v = 0 /\ os_nofork (o_world s') = {[(a, len)]} ∪ os_nofork (o_world s))).
Proof.
  unfold madvise, syscall. destruct (os_madvise _ _ _ _) as [[w v] e] eqn:He.
  eexists v, _. split; [done|]. simpl.
  destruct (madvise_law _ _ _ _ _ _ _ He) as [Ho [[[-> ?] ?]|[-> ?]]]; (split; [done|]).
  - left. simpl. split_and!; [done|lia|done].
  - right. done.
Qed.

Lemma malloc_run s len :
  exists a s', malloc len s = Ok (a, s') /\
    ((a = 0 /\ owns (o_world s') = owns (o_world s)) \/
     (0 < a /\ (a ∉ os_heap (o_world s)) /\
      owns (o_world s') = add_block a (owns (o_world s)))).
Proof.
  unfold malloc. destruct (os_malloc _ _) as [w a] eqn:He. eexists a, _. split; [done|].
  apply (malloc_law _ _ _ _ He).
Qed.

Lemma register_probe_run s fd p n :
  exists v s', io_uring_register_probe fd p n s = Ok (v, s') /\
    owns (o_world s') = owns (o_world s).
Proof.
  unfold io_uring_register_probe.
  destruct (os_register (o_world s) fd (register_code IORING_REGISTER_PROBE) (RegPtr p) n)
    as [[w v] e] eqn:He. destruct (register_law _ _ _ _ _ _ _ _ He) as [Ho Hv].
  eexists _, (mk_ost w _). split; [|exact Ho].
  apply (wrapper_result false _ _ _ _ _ _ _ _ He). unfold proper_error in Hv. lia.
Qed.

Lemma probe_ring_run s r :
  (io_uring_get_probe_ring r s = Fault NullDeref) \/
  exists a s', io_uring_get_probe_ring r s = Ok (a, s') /\
    ((a = 0 /\ owns (o_world s') = owns (o_world s)) \/
     (0 < a /\ (a ∉ os_heap (o_world s)) /\
      owns (o_world s') = add_block a (owns (o_world s)))).
Proof.
  unfold io_uring_get_probe_ring.
  destruct (malloc_run s (sizeof_probe + 256 * sizeof_probe_op)) as (a & s1 & H1 & Ha).
  rewrite (bind_ok _ _ _ _ _ H1). destruct Ha as [[-> _]|(Ha & Hn & Ho1)]; [by left|right].
  destruct (Z.eqb_spec a 0); [lia|].
  destruct (register_probe_run s1 (rp_ring_fd r) a 256) as (v & s2 & H2 & Ho2).
  rewrite (bind_ok _ _ _ _ _ H2). rewrite Ho1 in Ho2. case_z.
  - eexists 0, _. unfold bind, free. split; [done|]. left. split; [done|]. simpl.
    rewrite free_law, Ho2, del_add_block; [done|done|].
    rewrite (owns_heap _ _ Ho2). simpl. set_solver.
  - exists a, s2. split; [done|]. by right.
Qed.
End more.

Lemma ring_map_block n r a o : add_block a (ring_map n r o) = ring_map n r (add_block a o).
Proof. unfold ring_map, rings_map. by destruct (_ && _). Qed.

Lemma ring_fresh_block r a o : ring_fresh r o -> ring_fresh r (add_block a o).
Proof.
  intros [[H1 H2 H3] H4 H5 H6 H7]. split; [by split|done| |done|done].
  rewrite <- H5. unfold rings_map. by destruct (_ && _).
Qed.

(** Io_uring_ring_dontfork returns 0 only if it kept every mapping of the
    ring out of a child: the entries, the submission ring and the completion ring,
    with their full lengths.  An unset ring gives -EINVAL, a refused call the
    negated errno, and the process owns what it did. *)
Theorem dontfork_covers_ring (W : Type) (O : Os W) (L : OsLaws W) (s : ost W) r :
  exists v s', io_uring_ring_dontfork r s = Ok (v, s') /\
    owns (o_world s') = owns (o_world s) /\
    (v = 0 ->
       let n := os_read32 (o_world s) (sp_kring_entries (rp_sq r)) in
       {[(sp_sqes (rp_sq r), u64 (n * sizeof_sqe));
         (sp_ring_ptr (rp_sq r), sp_ring_sz (rp_sq r))]} ⊆ os_nofork (o_world s') /\
       (cp_ring_ptr (rp_cq r) = sp_ring_ptr (rp_sq r) \/
        (cp_ring_ptr (rp_cq r), cp_ring_sz (rp_cq r)) ∈ os_nofork (o_world s'))) /\
    (v <> 0 -> v < 0).
Proof.
  unfold io_uring_ring_dontfork. destruct (_ || _).
  { eexists _, s. split; [done|]. unfold EINVAL. split_and!; [done|lia|lia]. }
  unfold bind at 1, read32 at 1, gets at 1. cbv beta iota.
  set (n := os_read32 _ _).
  destruct (dontfork_run s (sp_sqes (rp_sq r)) (u64 (n * sizeof_sqe))) as (v1 & s1 & H1 & Ho1 & N1).
  rewrite (bind_ok _ _ _ _ _ H1). destruct N1 as [(-> & He1 & _)|[-> N1]].
  { eexists _, s1. split; [done|]. unfold gets. simpl. split_and!; [done|lia|lia]. }
  change (0 =? -1) with false. cbv beta iota.
  destruct (dontfork_run s1 (sp_ring_ptr (rp_sq r)) (sp_ring_sz (rp_sq r)))
    as (v2 & s2 & H2 & Ho2 & N2).
  rewrite (bind_ok _ _ _ _ _ H2). rewrite Ho1 in Ho2. destruct N2 as [(-> & He2 & _)|[-> N2]].
  { eexists _, s2. split; [done|]. unfold gets. simpl. split_and!; [done|lia|lia]. }
  change (0 =? -1) with false. cbv beta iota.
  destruct (Z.eqb_spec (cp_ring_ptr (rp_cq r)) (sp_ring_ptr (rp_sq r))) as [E|E]; simpl.
  { exists 0, s2. split_and!; [done|done| |done]. rewrite N2, N1.
    split; [set_solver|by left]. }
  destruct (dontfork_run s2 (cp_ring_ptr (rp_cq r)) (cp_ring_sz (rp_cq r)))
    as (v3 & s3 & H3 & Ho3 & N3).
  rewrite (bind_ok _ _ _ _ _ H3). rewrite Ho2 in Ho3. destruct N3 as [(-> & He3 & _)|[-> N3]].
  { eexists _, s3. split; [done|]. unfold gets. simpl. split_and!; [done|lia|lia]. }
  exists 0, s3. split_and!; [done|done| |done]. rewrite N3, N2, N1. split; [|right]; set_solver.
Qed.

Lemma dontfork_covers_ring_witness :
  exists s', io_uring_ring_dontfork (ring_layout sample_params 3 4096 8192 12288) (sample_sim [])
      = Ok (0, s') /\ (8192, 128) ∈ os_nofork (o_world s').
Proof.
  destruct (dontfork_covers_ring sim SimOs SimOs_laws (sample_sim [])
    (ring_layout sample_params 3 4096 8192 12288)) as (v & s' & H & _ & Hc & _).
  assert (v = 0) as -> by (vm_compute in H; by injection H as <- _).
  exists s'. split; [exact H|]. destruct (Hc eq_refl) as [_ [?|Hin]]; [done|exact Hin].
Defined.

(** Io_uring_get_probe releases the temporary ring on every path, given that
    the ring's memory still holds its number of entries when it is torn down: it
    returns NULL with the process owning what it did, or the address of one fresh
    heap block, owned on top, which io_uring_free_probe gives back.  The one way it
    does not return is that malloc fails: its result is cleared unchecked. *)
Theorem get_probe_no_leak (W : Type) (O : Os W) (L : OsLaws W) (s : ost W) r0
    (ring_memory : forall r p s1 a s2,
       io_uring_queue_init_params 2 r0 (init_params 0) s = Ok ((0, r, p), s1) ->
       io_uring_get_probe_ring r s1 = Ok (a, s2) ->
       os_read32 (o_world s2) (sp_kring_entries (rp_sq r)) = p_sq_entries p) :
  io_uring_get_probe r0 s = Fault NullDeref \/
  exists a s', io_uring_get_probe r0 s = Ok (a, s') /\
    ((a = 0 /\ owns (o_world s') = owns (o_world s)) \/
     (0 < a /\ owns (o_world s') = add_block a (owns (o_world s)) /\
      exists s2, io_uring_free_probe a s' = Ok (tt, s2) /\
        owns (o_world s2) = owns (o_world s))).
Proof.
  destruct (init_params_run s 2 r0 (init_params 0)) as (v & r & p & s1 & H1 & Hres).
  unfold io_uring_get_probe. rewrite (bind_ok _ _ _ _ _ (queue_init_run _ _ _ _ _ _ _ _ H1)).
  set (o := owns (o_world s)) in *.
  destruct Hres as [[Hv Ho1]|[-> Hd]].
  { right. rewrite (proj2 (Z.ltb_lt v 0) Hv). exists 0, s1. split; [done|]. by left. }
  change (0 <? 0) with false. cbv beta iota. pose proof (init_done_fresh _ _ _ _ Hd) as Hf.
  assert (owns (o_world s1) = ring_map (p_sq_entries p) r o) as Ho1.
  { by destruct Hd as (fd & ptr & cptr & sqes & _ & _ & _ & ?). }
  destruct (probe_ring_run s1 r) as [Hn|(a & s2 & H2 & Ha)].
  { left. unfold bind. by rewrite Hn. }
  pose proof (ring_memory _ _ _ _ _ H1 H2) as Hmem.
  right. rewrite (bind_ok _ _ _ _ _ H2). rewrite (owns_heap _ _ Ho1) in Ha. rewrite Ho1 in Ha.
  destruct Ha as [[-> Ho2]|(Ha & Hnew & Ho2)].
  - destruct (queue_exit_run s2 r _ o Ho2 Hf Hmem) as (s3 & H3 & Ho3).
    exists 0, s3. rewrite (bind_ok _ _ _ _ _ H3). split; [done|]. by left.
  - rewrite ring_map_block in Ho2.
    assert (a ∉ ow_heap o) as Hnew0.
    { revert Hnew. unfold ring_map, rings_map. by destruct (_ && _). }
    destruct (queue_exit_run s2 r _ (add_block a o) Ho2) as (s3 & H3 & Ho3);
      [by apply ring_fresh_block|done|].
    exists a, s3. rewrite (bind_ok _ _ _ _ _ H3). split; [done|]. right.
    split_and!; [done|done|]. eexists. split; [done|]. simpl.
    rewrite free_law, Ho3, del_add_block; [done|done|].
    rewrite (owns_heap _ _ Ho3). simpl. set_solver.
Qed.

(** The kernel does not know the probe: registering it fails. *)
Lemma get_probe_no_leak_witness :
  exists s', io_uring_get_probe zero_rp (sample_sim [false; false; false; false; false; true])
      = Ok (0, s') /\ owns (o_world s') = owns (o_world (sample_sim [])).
Proof.
  set (s := sample_sim [false; false; false; false; false; true]).
  destruct (get_probe_no_leak sim SimOs SimOs_laws s zero_rp) as [H|(a & s' & H & Hres)].
  - intros r p s1 a s2 H1 H2. vm_compute in H1. injection H1 as <- <- <-. vm_compute in H2.
    injection H2 as _ <-. reflexivity.
  - vm_compute in H. discriminate H.
  - exists s'. assert (a = 0) as -> by (vm_compute in H; by injection H as <- _).
    split; [exact H|]. destruct Hres as [[_ ?]|[? _]]; [done|done].
Defined.

(** Io_uring_get_probe_ring clears the block malloc returned without checking
    it: on a failed allocation it dereferences NULL. *)
Theorem probe_ring_unchecked_malloc (W : Type) (O : Os W) (s : ost W) r w :
  os_malloc (o_world s) (sizeof_probe + 256 * sizeof_probe_op) = (w, 0) ->
  io_uring_get_probe_ring r s = Fault NullDeref.
Proof. intros H. unfold io_uring_get_probe_ring, bind, malloc. by rewrite H. Qed.

Lemma probe_ring_unchecked_malloc_witness :
  io_uring_get_probe_ring zero_rp (sample_sim [true]) = Fault NullDeref.
Proof. eapply (probe_ring_unchecked_malloc sim SimOs). reflexivity. Defined.
