(* ===== verification/Heap.v ===== *)
(** * The buffer heap (src/src/Heap.hpp, src/src/Heap.cpp)

    A slab allocator shared by threads: a flag per block, taken with a
    compare-and-swap.  The flags are a list, addresses are integers.
    [Config::VALGRIND_MODE] is the constant [false]; its branches are left out.
    A [debug_assert] is an assertion, as in a debug build. *)

From stdpp Require Import gmap.
From S2P Require Import Prelude.

Module Heap.

(** ** State and operations *)

Record heap : Type := mk_heap {
  usedList : list bool;
  data : Z;
  blocks : Z;
  blockSize : Z;
  alignment : Z;
}.

Definition set_used (l : list bool) (h : heap) : heap :=
  mk_heap l (data h) (blocks h) (blockSize h) (alignment h).

Definition getFreeBlocksCount (h : heap) : Z := zlen (filter (fun b => b = false) (usedList h)).

(** The constructor: [base] is what [aligned_alloc] returned. *)
Definition make (nblocks bsize align base : Z) : prog unit heap :=
  do* assert ((0 <? align) && (Z.land align (align - 1) =? 0)) in
  let h := mk_heap (replicate (Z.to_nat nblocks) false) base nblocks bsize align in
  do* assert (getFreeBlocksCount h =? nblocks) in
  ret h.

(** [usedList[i].compare_exchange_strong(false, true)] *)
Definition try_take (i : Z) (h : heap) : option heap :=
  match zget (usedList h) i with
  | Some false => Some (set_used (<[Z.to_nat i := true]> (usedList h)) h)
  | _ => None
  end.

Definition block_at (h : heap) (i : Z) : Z := data h + blockSize h * i.

Fixpoint getBlock_loop (n : nat) (i : Z) (h : heap) : option Z * heap :=
  match n with
  | O => (None, h)
  | S n =>
      match try_take i h with
      | Some h' => (Some (block_at h i), h')
      | None => getBlock_loop n (i + 1) h
      end
  end.

Definition getBlock (h : heap) : option Z * heap := getBlock_loop (Z.to_nat (blocks h)) 0 h.

Definition returnBlock (block : Z) : prog heap unit :=
  let* h := get in
  do* assert ((data h <=? block) && (block <? data h + blocks h * blockSize h)) in
  do* assert ((block - data h) mod blockSize h =? 0) in
  let i := (block - data h) / blockSize h in
  do* assert ((i <? blocks h) && match zget (usedList h) i with Some b => b | None => false end) in
  match zset (usedList h) i false with
  | Some l => put (set_used l h)
  | None => raise OutOfBounds
  end.

(** The move constructor: the new heap, and what is left of the other. *)
Definition move (other : heap) : heap * heap :=
  (mk_heap (usedList other) (data other) (blocks other) (blockSize other) (alignment other),
   mk_heap [] 0 0 0 0).

(** The loop of the destructor: no block may be out. *)
Fixpoint destroy_loop (n : nat) (i : Z) : prog heap unit :=
  match n with
  | O => ret tt
  | S n =>
      let* h := get in
      match zget (usedList h) i with
      | None => raise OutOfBounds
      | Some used => do* assert (negb used) in destroy_loop n (i + 1)
      end
  end.

(** The destructor: the address it gives to free(3). *)
Definition destroy : prog heap Z :=
  let* h := get in
  do* destroy_loop (Z.to_nat (blocks h)) 0 in
  ret (data h).

(** ** Well-formedness *)

Record heap_ok (h : heap) : Prop := {
  ho_len : zlen (usedList h) = blocks h;
  ho_size : 0 < blockSize h;
  ho_align : 0 < alignment h;
  ho_base : data h mod alignment h = 0;
  ho_step : blockSize h mod alignment h = 0;
}.

Definition used_at (h : heap) (i : Z) : Prop := zget (usedList h) i = Some true.

Lemma free_count_insert_true (l : list bool) i :
  zget l i = Some false ->
  zlen (filter (fun b => b = false) (<[Z.to_nat i := true]> l)) =
    zlen (filter (fun b => b = false) l) - 1.
Proof.
  unfold zget. destruct (i <? 0); [done|]. intros Hl.
  rewrite <- (take_drop_middle _ _ _ Hl) at 2.
  rewrite insert_take_drop by (by eapply lookup_lt_Some).
  unfold zlen. rewrite !list.filter_app, !list.filter_cons. simpl. rewrite !length_app. simpl. lia.
Qed.

Lemma free_count_insert_false (l : list bool) i :
  zget l i = Some true ->
  zlen (filter (fun b => b = false) (<[Z.to_nat i := false]> l)) =
    zlen (filter (fun b => b = false) l) + 1.
Proof.
  unfold zget. destruct (i <? 0); [done|]. intros Hl.
  rewrite <- (take_drop_middle _ _ _ Hl) at 2.
  rewrite insert_take_drop by (by eapply lookup_lt_Some).
  unfold zlen. rewrite !list.filter_app, !list.filter_cons. simpl. rewrite !length_app. simpl. lia.
Qed.

Lemma try_take_spec h i :
  match try_take i h with
  | Some h' => zget (usedList h) i = Some false /\
      h' = set_used (<[Z.to_nat i := true]> (usedList h)) h
  | None => zget (usedList h) i <> Some false
  end.
Proof. unfold try_take. destruct (zget _ i) as [[]|]; done. Qed.

Lemma set_used_ok h l : heap_ok h -> zlen l = zlen (usedList h) -> heap_ok (set_used l h).
Proof. intros [H1 H2 H3 H4 H5] Hl. split; simpl; try done. by rewrite Hl. Qed.

Lemma block_at_index h i : 0 < blockSize h -> (block_at h i - data h) / blockSize h = i.
Proof.
  intros. unfold block_at. replace (data h + blockSize h * i - data h) with (i * blockSize h) by lia.
  apply Z.div_mul. lia.
Qed.

Lemma block_at_aligned h i : heap_ok h -> block_at h i mod alignment h = 0.
Proof.
  intros [_ _ Ha Hb Hs]. unfold block_at. rewrite Zplus_mod, Zmult_mod, Hb, Hs.
  by rewrite ?Z.mul_0_l, ?Zmod_0_l, ?Z.add_0_l, ?Zmod_0_l.
Qed.

Lemma block_at_inj h i j : 0 < blockSize h -> block_at h i = block_at h j -> i = j.
Proof. intros ? E. rewrite <- (block_at_index h i), <- (block_at_index h j), E; done. Qed.

(** Returning a block that is out succeeds and clears its flag. *)
Lemma returnBlock_run h i :
  heap_ok h -> used_at h i ->
  returnBlock (block_at h i) h = Ok (tt, set_used (<[Z.to_nat i := false]> (usedList h)) h).
Proof.
  intros Hok Hu. pose proof (ho_size h Hok). pose proof (zget_range _ _ _ Hu) as Hr.
  rewrite (ho_len h Hok) in Hr. unfold returnBlock, bind, get, assert.
  rewrite (block_at_index h i) by done. rewrite Hu.
  assert ((block_at h i - data h) mod blockSize h = 0) as ->.
  { unfold block_at. replace (data h + blockSize h * i - data h) with (i * blockSize h) by lia.
    apply Z_mod_mult. }
  assert ((data h <=? block_at h i) = true) as -> by (unfold block_at; apply Z.leb_le; nia).
  assert ((block_at h i <? data h + blocks h * blockSize h) = true) as ->
    by (unfold block_at; apply Z.ltb_lt; nia).
  assert ((i <? blocks h) = true) as -> by (apply Z.ltb_lt; lia). simpl.
  by rewrite zset_in by (by rewrite (ho_len h Hok)).
Qed.

(** ** Threads

    Each thread inside [getBlock] is between two compare-and-swaps; the other
    operations on the flags are single atomic accesses. *)

Record pool : Type := mk_pool {
  p_heap : heap;
  p_scan : gmap nat Z;   (** the next flag each thread in [getBlock] will try *)
  p_out : list Z;        (** the blocks handed out and not returned *)
}.

Inductive pool_step : pool -> pool -> Prop :=
  | scan_start h sc out t :
      sc !! t = None -> pool_step (mk_pool h sc out) (mk_pool h (<[t := 0]> sc) out)
  | scan_miss h sc out t i :
      sc !! t = Some i -> i < blocks h -> try_take i h = None ->
      pool_step (mk_pool h sc out) (mk_pool h (<[t := i + 1]> sc) out)
  | scan_hit h sc out t i h' :
      sc !! t = Some i -> i < blocks h -> try_take i h = Some h' ->
      pool_step (mk_pool h sc out) (mk_pool h' (delete t sc) (block_at h i :: out))
  | scan_none h sc out t i :
      sc !! t = Some i -> ~ i < blocks h ->
      pool_step (mk_pool h sc out) (mk_pool h (delete t sc) out)
  | give_back h sc out1 b out2 h' :
      returnBlock b h = Ok (tt, h') ->
      pool_step (mk_pool h sc (out1 ++ b :: out2)) (mk_pool h' sc (out1 ++ out2)).

Inductive pool_steps : pool -> pool -> Prop :=
  | pool_refl p : pool_steps p p
  | pool_next p p1 p2 : pool_step p p1 -> pool_steps p1 p2 -> pool_steps p p2.

(** The blocks out are exactly the blocks whose flag is set, each once. *)
Record pool_ok (h0 : heap) (p : pool) : Prop := {
  po_shape : exists l, p_heap p = set_used l h0;
  po_heap : heap_ok (p_heap p);
  po_nodup : NoDup (p_out p);
  po_used : forall b, b ∈ p_out p <-> exists i, b = block_at (p_heap p) i /\ used_at (p_heap p) i;
  po_free : getFreeBlocksCount (p_heap p) = blocks (p_heap p) - zlen (p_out p);
}.

Lemma used_at_insert h i j v :
  0 <= i < zlen (usedList h) ->
  used_at (set_used (<[Z.to_nat i := v]> (usedList h)) h) j <->
    (if decide (j = i) then v = true else used_at h j).
Proof.
  intros Hr. unfold used_at. simpl. case_decide as E.
  - subst. rewrite zget_set_eq by done. split; [by intros [=->]|by intros ->].
  - rewrite zget_set_ne by lia. done.
Qed.

Lemma pool_hit_ok h0 h sc sc' out i h' :
  pool_ok h0 (mk_pool h sc out) -> try_take i h = Some h' ->
  pool_ok h0 (mk_pool h' sc' (block_at h i :: out)).
Proof.
  intros [[l0 Hl0] Hh Hn Hu Hf] Ht. pose proof (try_take_spec h i) as Hs. rewrite Ht in Hs.
  destruct Hs as [Hz ->]. pose proof (zget_range _ _ _ Hz) as Hr. simpl in *. split; simpl.
  - exists (<[Z.to_nat i := true]> (usedList h)). by rewrite Hl0.
  - apply set_used_ok; [done|]. by rewrite zlen_insert.
  - constructor; [|done]. rewrite Hu. intros (j & E & Hj).
    apply block_at_inj in E as <-; [|apply Hh]. unfold used_at in Hj. congruence.
  - intros b. rewrite elem_of_cons, Hu. change (block_at (set_used _ h)) with (block_at h).
    setoid_rewrite used_at_insert; [|done]. split.
    + intros [->|(j & -> & Hj)]; [exists i; by rewrite decide_True|].
      exists j. split; [done|]. by case_decide.
    + intros (j & -> & Hj). case_decide; [subst; by left|right; eauto].
  - unfold getFreeBlocksCount in *. simpl.
    rewrite free_count_insert_true, Hf by done. unfold zlen. simpl. lia.
Qed.

Lemma pool_back_ok h0 h sc out1 b out2 h' :
  pool_ok h0 (mk_pool h sc (out1 ++ b :: out2)) -> returnBlock b h = Ok (tt, h') ->
  pool_ok h0 (mk_pool h' sc (out1 ++ out2)).
Proof.
  intros [[l0 Hl0] Hh Hn Hu Hf] Hb. simpl in *.
  destruct (proj1 (Hu b)) as (i & -> & Hi); [apply elem_of_app; right; left|].
  rewrite (returnBlock_run h i Hh Hi) in Hb. injection Hb as <-.
  pose proof (zget_range _ _ _ Hi) as Hr.
  rewrite list.NoDup_app, list.NoDup_cons in Hn. destruct Hn as (Hn1 & Hn12 & Hnb & Hn2). split; simpl.
  - exists (<[Z.to_nat i := false]> (usedList h)). by rewrite Hl0.
  - apply set_used_ok; [done|]. by rewrite zlen_insert.
  - rewrite list.NoDup_app. split_and!; try done. intros x Hx Hx2. apply (Hn12 x Hx). set_solver.
  - intros b. change (block_at (set_used _ h)) with (block_at h).
    setoid_rewrite used_at_insert; [|done]. split.
    + intros Hin. destruct (proj1 (Hu b)) as (j & -> & Hj); [set_solver|].
      exists j. split; [done|]. case_decide; [|done]. subst j. exfalso.
      apply elem_of_app in Hin as [Hin|Hin]; [|done].
      apply (Hn12 _ Hin). set_solver.
    + intros (j & -> & Hj). case_decide; [done|].
      assert (block_at h j ∈ out1 ++ block_at h i :: out2) as Hin by (apply Hu; eauto).
      assert (block_at h j <> block_at h i) by (intros E; apply block_at_inj in E; [done|apply Hh]).
      set_solver.
  - unfold getFreeBlocksCount in *. simpl. rewrite free_count_insert_false, Hf by done.
    unfold zlen. rewrite !length_app. simpl. lia.
Qed.

Lemma pool_step_ok h0 p p' : pool_ok h0 p -> pool_step p p' -> pool_ok h0 p'.
Proof.
  intros Hp Hs. destruct Hs as [| |h sc out t i h' _ _ Ht| |h sc out1 b out2 h' Hb].
  1, 2, 4: by destruct Hp.
  - by eapply pool_hit_ok.
  - by eapply pool_back_ok.
Qed.

Lemma pool_steps_ok h0 p p' : pool_ok h0 p -> pool_steps p p' -> pool_ok h0 p'.
Proof. intros Hp Hs. induction Hs; eauto using pool_step_ok. Qed.

(** ** One thread *)

Lemma getBlock_loop_spec n i h :
  heap_ok h -> 0 <= i -> i + Z.of_nat n = blocks h -> (forall j, 0 <= j < i -> used_at h j) ->
  match getBlock_loop n i h with
  | (Some b, h') => exists k, b = block_at h k /\ zget (usedList h) k = Some false /\
      h' = set_used (<[Z.to_nat k := true]> (usedList h)) h /\ (forall j, 0 <= j < k -> used_at h j)
  | (None, h') => h' = h /\ (forall j, 0 <= j < blocks h -> used_at h j)
  end.
Proof.
  intros Hh. revert i. induction n as [|n IH]; intros i Hi Hn Hprev; simpl.
  - split; [done|]. intros j Hj. apply Hprev. lia.
  - pose proof (try_take_spec h i) as Ht. destruct (try_take i h) as [h'|].
    + destruct Ht as [Hz ->]. by exists i.
    + apply IH; [lia|lia|]. intros j Hj. destruct (decide (j = i)) as [->|]; [|apply Hprev; lia].
      destruct (zget_in (usedList h) i) as [[] Hz]; [rewrite (ho_len h Hh); lia|done|done].
Qed.

Lemma getBlock_spec h :
  heap_ok h ->
  match getBlock h with
  | (Some b, h') => exists k, b = block_at h k /\ zget (usedList h) k = Some false /\
      h' = set_used (<[Z.to_nat k := true]> (usedList h)) h /\ (forall j, 0 <= j < k -> used_at h j)
  | (None, h') => h' = h /\ (forall j, 0 <= j < blocks h -> used_at h j)
  end.
Proof.
  intros Hh. pose proof (ho_len h Hh). unfold zlen in *.
  apply getBlock_loop_spec; [done|lia|lia|lia].
Qed.

Lemma all_used_free h :
  heap_ok h -> (forall j, 0 <= j < blocks h -> used_at h j) -> getFreeBlocksCount h = 0.
Proof.
  intros Hh Hall. unfold getFreeBlocksCount. rewrite <- (ho_len h Hh) in Hall.
  unfold used_at in Hall. induction (usedList h) as [|b l IH]; [done|].
  assert (b = true) as ->.
  { specialize (Hall 0). unfold zlen, zget in Hall. simpl in Hall.
    assert (Some b = Some true) as E by (apply Hall; lia). congruence. }
  rewrite list.filter_cons. simpl. apply IH. intros j Hj. specialize (Hall (j + 1)).
  unfold zget, zlen in *. destruct (Z.ltb_spec j 0); [lia|]. simpl in Hall.
  destruct (Z.ltb_spec (j + 1) 0); [lia|]. rewrite Z2Nat.inj_add in Hall by lia.
  rewrite Nat.add_1_r in Hall. apply Hall. lia.
Qed.

Lemma make_shape n bsize align base h :
  make n bsize align base tt = Ok (h, tt) ->
  blocks h = n /\ blockSize h = bsize /\ alignment h = align /\ data h = base.
Proof.
  unfold make, bind, assert. destruct (_ && _); [|done].
  destruct (_ =? n); [|done]. by intros [= <-].
Qed.

Lemma make_ok n bsize align base h :
  0 <= n -> 0 < bsize -> bsize mod align = 0 -> base mod align = 0 ->
  make n bsize align base tt = Ok (h, tt) -> pool_ok h (mk_pool h ∅ []).
Proof.
  intros Hn Hs Hst Hb. unfold make, bind, assert.
  destruct (_ && _) eqn:Ha; [|done]. bools.
  destruct (getFreeBlocksCount _ =? n) eqn:Hf; [|done]. bools. intros [= <-].
  assert (zlen (replicate (Z.to_nat n) false) = n) as Hl
    by (unfold zlen; rewrite length_replicate; lia).
  split; simpl; [by eexists| |constructor| |by rewrite Hf; unfold zlen; simpl; lia].
  - split; simpl; done.
  - intros b. split; [by intros ?%elem_of_nil|]. intros (i & _ & Hi). unfold used_at in Hi.
    simpl in Hi. unfold zget in Hi. destruct (i <? 0); [done|].
    by apply lookup_replicate in Hi as [? _].
Qed.

(** ** The destructor *)

Lemma destroy_loop_run n i h :
  0 <= i -> i + Z.of_nat n <= zlen (usedList h) ->
  destroy_loop n i h =
    if bool_decide (Forall (fun b => b = false) (take n (drop (Z.to_nat i) (usedList h))))
    then Ok (tt, h) else Fault AssertFailed.
Proof.
  revert i. induction n as [|n IH]; intros i Hi Hn; [done|]. cbn [destroy_loop].
  destruct (zget_in (usedList h) i) as [b Hb]; [lia|]. unfold bind at 1, get. cbv beta iota. rewrite Hb.
  assert (drop (Z.to_nat i) (usedList h) = b :: drop (Z.to_nat (i + 1)) (usedList h)) as ->.
  { unfold zget in Hb. destruct (i <? 0); [done|]. rewrite (drop_S _ _ _ Hb). do 2 f_equal. lia. }
  cbn [take]. unfold bind, assert. destruct b; cbn [negb].
  - by rewrite bool_decide_eq_false_2 by (by intros [? _]%list.Forall_cons).
  - rewrite (IH (i + 1)) by lia.
    erewrite bool_decide_ext; [done|]. rewrite list.Forall_cons. naive_solver.
Qed.

Lemma all_free (l : list bool) :
  Forall (fun b => b = false) l <-> length (filter (fun b => b = false) l) = length l.
Proof.
  induction l as [|b l IH]; [done|]. rewrite list.Forall_cons, list.filter_cons.
  pose proof (length_filter (fun b => b = false) l). destruct b; simpl; rewrite IH; split; naive_solver lia.
Qed.

(** It returns exactly when every block was returned. *)
Lemma destroy_run h :
  heap_ok h ->
  destroy h = if getFreeBlocksCount h =? blocks h then Ok (data h, h) else Fault AssertFailed.
Proof.
  intros Hh. pose proof (ho_len h Hh) as Hl. unfold destroy, bind at 1, get. cbv beta iota.
  unfold bind. rewrite destroy_loop_run by (rewrite ?Hl; unfold zlen in *; lia).
  rewrite drop_0, firstn_all2 by (unfold zlen in Hl; lia). unfold getFreeBlocksCount. rewrite <- Hl.
  case_bool_decide as E; rewrite all_free in E; case_z; try done; unfold zlen in *; lia.
Qed.

(** ** Properties *)

(** GetBlock finds a free block whenever there is one.  It returns the first
    free block, sets its flag and no other, and leaves one block fewer free;
    returning that block restores the heap exactly.  Only when no block is free
    does it return null, leaving the heap as it was. *)
Theorem getBlock_returnBlock h :
  heap_ok h ->
  match getBlock h with
  | (Some b, h') => heap_ok h' /\ b mod alignment h = 0 /\
      getFreeBlocksCount h' = getFreeBlocksCount h - 1 /\ returnBlock b h' = Ok (tt, h)
  | (None, h') => h' = h /\ getFreeBlocksCount h = 0
  end.
Proof.
  intros Hh. pose proof (getBlock_spec h Hh) as Hs. destruct (getBlock h) as [[b|] h'].
  - destruct Hs as (k & -> & Hz & -> & _). pose proof (zget_range _ _ _ Hz) as Hr.
    assert (heap_ok (set_used (<[Z.to_nat k := true]> (usedList h)) h)) as Hh'
      by (apply set_used_ok; [done|by rewrite zlen_insert]).
    split_and!; [done|by apply block_at_aligned|by apply free_count_insert_true|].
    change (block_at h k) with (block_at (set_used (<[Z.to_nat k := true]> (usedList h)) h) k).
    rewrite returnBlock_run; [|done|by apply used_at_insert; rewrite ?decide_True].
    simpl. rewrite list_insert_insert_eq. do 2 f_equal. destruct h. unfold set_used. simpl in *.
    rewrite list_insert_id; [done|]. unfold zget in Hz. by destruct (k <? 0).
  - destruct Hs as [-> Hall]. split; [done|]. by apply all_used_free.
Qed.

Lemma getBlock_returnBlock_witness :
  let h := mk_heap [true; false] 8192 2 4096 4096 in
  exists b h', getBlock h = (Some b, h') /\ returnBlock b h' = Ok (tt, h).
Proof.
  intros h. assert (heap_ok h) as Hh by (split; reflexivity).
  pose proof (getBlock_returnBlock h Hh) as H.
  destruct (getBlock h) as [[b|] h'] eqn:E; [|vm_compute in E; discriminate E].
  exists b, h'. split; [reflexivity|]. apply H.
Defined.

(** C29: no block is handed out twice.  However the compare-and-swaps and returns of
    any number of threads interleave, starting from a fresh heap, the blocks out
    are pairwise different, aligned, a whole block apart and inside the
    allocation; the free count is the number of blocks less those out; and
    returning any of them trips no assertion. *)
Theorem heap_threads_safe n bsize align base h h' sc out :
  0 <= n -> 0 < bsize -> bsize mod align = 0 -> base mod align = 0 ->
  make n bsize align base tt = Ok (h, tt) -> pool_steps (mk_pool h ∅ []) (mk_pool h' sc out) ->
  NoDup out /\ getFreeBlocksCount h' = n - zlen out /\
  (forall b, b ∈ out -> b mod align = 0 /\ base <= b /\ b + bsize <= base + n * bsize /\
     exists h2, returnBlock b h' = Ok (tt, h2)) /\
  (forall b1 b2, b1 ∈ out -> b2 ∈ out -> b1 = b2 \/ b1 + bsize <= b2 \/ b2 + bsize <= b1).
Proof.
  intros Hn Hs Hst Hb Hm Hsteps.
  destruct (pool_steps_ok h _ _ (make_ok _ _ _ _ _ Hn Hs Hst Hb Hm) Hsteps)
    as [[l Hl] Hh Hnd Hu Hf]. simpl in *.
  destruct (make_shape _ _ _ _ _ Hm) as (E1 & E2 & E3 & E4).
  rewrite Hl in Hf. simpl in Hf. rewrite E1, <- Hl in Hf.
  assert (forall b, b ∈ out -> exists i, b = base + bsize * i /\ 0 <= i < n /\
    b mod align = 0 /\ used_at h' i /\ b = block_at h' i) as Hout.
  { intros b Hin. apply Hu in Hin as (i & -> & Hi). exists i.
    pose proof (zget_range _ _ _ Hi) as Hr. rewrite (ho_len h' Hh) in Hr.
    pose proof (block_at_aligned h' i Hh) as Ha. subst h'. simpl in *.
    unfold block_at in *. simpl in *. rewrite E4, E2, E3 in *. by rewrite E1 in Hr. }
  split_and!; [done|done| |].
  - intros b Hin. destruct (Hout b Hin) as (i & E & Hi & Ha & Hui & Eb).
    split_and!; [done|nia|nia|]. rewrite Eb. eexists. by apply returnBlock_run.
  - intros b1 b2 H1 H2. destruct (Hout b1 H1) as (i & -> & _), (Hout b2 H2) as (j & -> & _).
    destruct (Z.lt_trichotomy i j) as [?|[->|?]]; [right; left; nia|by left|right; right; nia].
Qed.

(** Two threads race for a heap of one block; the loser gets null. *)
Lemma heap_threads_safe_witness :
  exists h' sc, make 1 4096 4096 8192 tt = Ok (mk_heap [false] 8192 1 4096 4096, tt) /\
    pool_steps (mk_pool (mk_heap [false] 8192 1 4096 4096) ∅ []) (mk_pool h' sc [8192]) /\
    getFreeBlocksCount h' = 1 - 1.
Proof.
  set (h := mk_heap [false] 8192 1 4096 4096). set (h1 := mk_heap [true] 8192 1 4096 4096).
  assert (pool_steps (mk_pool h ∅ [])
    (mk_pool h1 (<[2%nat := 0 + 1]> (delete 1%nat (<[2%nat := 0]> (<[1%nat := 0]> ∅)))) [8192])) as H.
  { eapply pool_next; [by apply (scan_start h ∅ [] 1)|].
    eapply pool_next; [by apply (scan_start h _ [] 2)|].
    eapply pool_next; [by apply (scan_hit h _ [] 1 0 h1)|].
    eapply pool_next; [by apply (scan_miss h1 _ [8192] 2 0)|]. constructor. }
  exists h1, (<[2%nat := 0 + 1]> (delete 1%nat (<[2%nat := 0]> (<[1%nat := 0]> ∅)))).
  split; [reflexivity|]. split; [exact H|].
  apply (heap_threads_safe 1 4096 4096 8192 h h1
    (<[2%nat := 0 + 1]> (delete 1%nat (<[2%nat := 0]> (<[1%nat := 0]> ∅)))) [8192]);
    [lia|lia|reflexivity|reflexivity|reflexivity|exact H].
Defined.
End Heap.
