(* ===== verification/Eta.v ===== *)
(** * Copy statistics (src/src/ETACalculator.hpp, src/src/ETACalculator.cpp)

    The shifting bitset with its count in the top byte, and the counters of the
    copies that remain. *)

From Stdlib Require Import SpecFloat.
From S2P Require Import Prelude.

Module Rolling.

(** ** The bitset *)

Definition COUNT_MASK : Z := 0xFF00000000000000.
Definition SET_MASK : Z := 0x00FFFFFFFFFFFFFF.

(** The value [addToBuff] tries to swap in for [oldVal]. *)
Definition newVal (oldVal : Z) (b : bool) : Z :=
  let countPart := u64 (Z.shiftr (Z.land oldVal COUNT_MASK) (8 * 7) + 1) in
  let countPart := if 8 * 7 <? countPart then 8 * 7 else countPart in
  let countPart := u64 (Z.shiftl countPart (8 * 7)) in
  let v := Z.lor (u64 (Z.shiftl oldVal 1)) (Z.b2z b) in
  let v := Z.land v SET_MASK in
  Z.lor v countPart.

(** [compare_exchange_strong]: stores [desired] only over [expected]. *)
Definition compare_exchange_strong (buf expected desired : Z) : bool * Z :=
  if buf =? expected then (true, desired) else (false, buf).

(** Where a call of [addToBuff] is: before the load, between the load and the
    exchange, or returned. *)
Inductive phase := Loading | Loaded (oldVal : Z) | Returned.

(** A call of [addToBuff] up to its next access of [atomicBuffer], and that
    access: the load, or the exchange, after which it breaks or loops. *)
Definition addToBuff (b : bool) (p : phase) (buf : Z) : phase * Z :=
  match p with
  | Loading => (Loaded buf, buf)
  | Loaded oldVal =>
      let '(swapped, buf') := compare_exchange_strong buf oldVal (newVal oldVal b) in
      (if swapped then Returned else Loading, buf')
  | Returned => (Returned, buf)
  end.

(** Any number of calls, the bit and the place of each, on one buffer; the
    schedule gives whose access is next. *)
Definition shared : Type := list (bool * phase) * Z.

Definition access (s : shared) (i : nat) : shared :=
  match s.1 !! i with
  | Some (b, p) => let '(p', buf') := addToBuff b p s.2 in (<[i := (b, p')]> s.1, buf')
  | None => s
  end.

Definition run (schedule : list nat) (s : shared) : shared := fold_left access schedule s.

Definition getCount (val : Z) : Z := Z.shiftr (Z.land val COUNT_MASK) (8 * 7).
Definition getSet (val mask : Z) : Z := Z.land val mask.

Fixpoint count_loop (fuel : nat) (tmp count : Z) : option Z :=
  if tmp =? 0 then Some count
  else
    match fuel with
    | O => None
    | S n => count_loop n (Z.shiftr tmp 1) (s32 (count + Z.land tmp 1))
    end.

(** 64 rounds empty a 64-bit word. *)
Definition getBitsOnCount (val mask : Z) : option Z := count_loop 64 (getSet val mask) 0.

(** ** What it represents *)

(** The value of a list of bits, the first one the lowest. *)
Fixpoint bits (l : list bool) : Z :=
  match l with [] => 0 | b :: l => Z.b2z b + 2 * bits l end.

Definition ons (l : list bool) : Z := zlen (filter (fun b => b = true) l).

(** The buffer after the events [h], the latest first. *)
Definition represents (h : list bool) : Z :=
  bits (take 56 h) + Z.min 56 (zlen h) * 2 ^ 56.

Lemma bits_range l : 0 <= bits l < 2 ^ zlen l.
Proof.
  unfold zlen. induction l as [|b l IH]; [done|]. cbn [bits length].
  rewrite Nat2Z.inj_succ, Z.pow_succ_r by lia. destruct b; simpl Z.b2z; lia.
Qed.

Lemma bits_app l1 l2 : bits (l1 ++ l2) = bits l1 + 2 ^ zlen l1 * bits l2.
Proof.
  unfold zlen. induction l1 as [|b l IH]; [cbn [bits length app]; simpl Z.of_nat; lia|]. cbn [bits length app].
  rewrite Nat2Z.inj_succ, Z.pow_succ_r, IH by lia. lia.
Qed.

Lemma bits_take n l : bits (take n l) = bits l mod 2 ^ Z.of_nat n.
Proof.
  pose proof (bits_range (take n l)) as Hr. unfold zlen in Hr.
  assert (2 ^ Z.of_nat (length (take n l)) <= 2 ^ Z.of_nat n) as Hle.
  { apply Z.pow_le_mono_r; [lia|]. rewrite length_take. lia. }
  destruct (decide (n <= length l)%nat) as [Hn|Hn].
  - rewrite <- (take_drop n l) at 2. rewrite bits_app. unfold zlen.
    rewrite length_take, Nat.min_l by done. rewrite Z.mul_comm, Z_mod_plus_full.
    by rewrite Z.mod_small by lia.
  - rewrite take_ge in * by lia. by rewrite Z.mod_small by lia.
Qed.

(** Putting a value of [k] bits beside one shifted up by [k]. *)
Lemma lor_disjoint v c k : 0 <= k -> 0 <= v < 2 ^ k -> Z.lor v (c * 2 ^ k) = v + c * 2 ^ k.
Proof.
  intros Hk Hv. rewrite <- Z.shiftl_mul_pow2 by done.
  assert (Z.land v (Z.shiftl c k) = 0) as Hd.
  { apply Z.bits_inj'. intros i Hi. rewrite Z.land_spec, Z.bits_0.
    destruct (decide (i < k)).
    - by rewrite (Z.shiftl_spec_low c), andb_false_r by lia.
    - rewrite <- (Z.mod_small v (2 ^ k)) by done. by rewrite Z.mod_pow2_bits_high by lia. }
  rewrite (Z.add_nocarry_lxor _ _ Hd). by rewrite Z.lxor_lor.
Qed.

Lemma field_value v c :
  0 <= v < 2 ^ 56 -> 0 <= c < 2 ^ 8 ->
  Z.shiftr (Z.land (v + c * 2 ^ 56) COUNT_MASK) (8 * 7) = c /\
  Z.land (v + c * 2 ^ 56) SET_MASK = v.
Proof.
  intros Hv Hc. split.
  - rewrite Z.shiftr_land. change (Z.shiftr COUNT_MASK (8 * 7)) with (2 ^ 8 - 1).
    rewrite land_mask, Z.shiftr_div_pow2 by lia. change (8 * 7) with 56.
    rewrite Z.div_add, Z.div_small, Z.add_0_l by lia. by apply Z.mod_small.
  - change SET_MASK with (2 ^ 56 - 1). rewrite land_mask by lia.
    rewrite Z_mod_plus_full. by apply Z.mod_small.
Qed.

Lemma represents_parts h :
  exists v c, represents h = v + c * 2 ^ 56 /\ v = bits (take 56 h) /\ c = Z.min 56 (zlen h) /\
    0 <= v < 2 ^ 56 /\ 0 <= c < 2 ^ 8.
Proof.
  exists (bits (take 56 h)), (Z.min 56 (zlen h)). split_and!; try done.
  - apply bits_range.
  - rewrite bits_take. apply Z.mod_pos_bound. lia.
  - unfold zlen. lia.
  - lia.
Qed.

Lemma newVal_represents h b : newVal (represents h) b = represents (b :: h).
Proof.
  destruct (represents_parts h) as (v & c & -> & Hv & Hc & Hvr & Hcr).
  unfold newVal. destruct (field_value v c Hvr Hcr) as [-> _].
  rewrite (wrap_small 64 (c + 1)) by (unfold in_u; lia).
  assert ((if 8 * 7 <? c + 1 then 8 * 7 else c + 1) = Z.min 56 (zlen (b :: h))) as ->.
  { unfold zlen in *. simpl length. rewrite Nat2Z.inj_succ. case_z; lia. }
  set (c' := Z.min 56 (zlen (b :: h))). assert (0 <= c' <= 56) by (unfold c', zlen; lia).
  rewrite !Z.shiftl_mul_pow2 by lia. change (8 * 7) with 56.
  rewrite (wrap_small 64 (c' * 2 ^ 56)) by (unfold in_u; lia).
  assert (Z.land (Z.lor (u64 ((v + c * 2 ^ 56) * 2 ^ 1)) (Z.b2z b)) SET_MASK
    = bits (take 56 (b :: h))) as ->.
  { change SET_MASK with (2 ^ 56 - 1). rewrite land_mask by lia.
    set (u := u64 _). assert (u = (u / 2) * 2 ^ 1) as Hu.
    { unfold u, wrap. change (2 ^ 64) with (2 * 2 ^ 63). change (2 ^ 1) with 2.
      rewrite (Z.mul_comm _ 2), Zmult_mod_distr_l, (Z.mul_comm 2), Z.div_mul by lia. lia. }
    rewrite Hu, Z.lor_comm, lor_disjoint; [|lia|destruct b; simpl; lia].
    rewrite <- Hu, bits_take. cbn [bits]. change (Z.of_nat 56) with 56.
    rewrite Zplus_mod. unfold u. rewrite (wrap_mod_pow2 64 56) by lia. rewrite <- Zplus_mod.
    rewrite (Zplus_mod _ (2 * bits h)).
    rewrite Zplus_mod. f_equal. f_equal.
    rewrite Z.mul_add_distr_r. change ((c * 2 ^ 56) * 2 ^ 1) with ((c * 2 ^ 56) * 2).
    replace (v * 2 ^ 1 + c * 2 ^ 56 * 2) with (2 * v + (c * 2) * 2 ^ 56) by lia.
    rewrite Z_mod_plus_full, Hv, bits_take. change (Z.of_nat 56) with 56.
    by rewrite Zmult_mod_idemp_r. }
  rewrite lor_disjoint; [done|lia|]. rewrite bits_take. apply Z.mod_pos_bound. lia.
Qed.

Lemma land_1 b x : Z.land (Z.b2z b + 2 * x) 1 = Z.b2z b.
Proof.
  change 1 with (2 ^ 1 - 1). rewrite land_mask by lia. change (2 ^ 1) with 2.
  rewrite Z.mul_comm, Z_mod_plus_full. by destruct b.
Qed.

Lemma shiftr_1 b x : Z.shiftr (Z.b2z b + 2 * x) 1 = x.
Proof.
  rewrite Z.shiftr_div_pow2 by lia. change (2 ^ 1) with 2.
  rewrite Z.mul_comm, Z.div_add by lia. by destruct b.
Qed.

Lemma ons_cons b l : ons (b :: l) = Z.b2z b + ons l.
Proof.
  unfold ons, zlen. rewrite list.filter_cons. destruct b; simpl; lia.
Qed.

Lemma ons_zero l : bits l = 0 -> ons l = 0.
Proof.
  induction l as [|b l IH]; [done|]. rewrite ons_cons. cbn [bits]. intros Hb.
  pose proof (bits_range l). destruct b; simpl Z.b2z in *; [lia|]. rewrite IH; lia.
Qed.

Lemma count_loop_ok l fuel c :
  (length l <= fuel)%nat -> 0 <= c -> c + zlen l < 2 ^ 31 ->
  count_loop fuel (bits l) c = Some (c + ons l).
Proof.
  unfold zlen. revert fuel c. induction l as [|b l IH]; intros fuel c Hf Hc Hb.
  - destruct fuel; simpl; by rewrite Z.add_0_r.
  - destruct fuel as [|fuel]; [simpl in Hf; lia|]. simpl in Hf. cbn [length] in Hb.
    cbn [count_loop]. destruct (Z.eqb_spec (bits (b :: l)) 0) as [E|E].
    + by rewrite (ons_zero _ E), Z.add_0_r.
    + cbn [bits]. rewrite shiftr_1, land_1, ons_cons.
      rewrite sext_small by (lia || (unfold in_s; destruct b; simpl; lia)).
      rewrite IH by (destruct b; simpl Z.b2z; lia). f_equal. lia.
Qed.

Lemma bits_on_count_ok h k :
  (k <= 56)%nat -> getBitsOnCount (represents h) (2 ^ Z.of_nat k - 1) = Some (ons (take k h)).
Proof.
  intros Hk. unfold getBitsOnCount, getSet.
  destruct (represents_parts h) as (v & c & -> & -> & _ & Hv & Hc).
  rewrite land_mask by lia.
  replace (c * 2 ^ 56) with (c * 2 ^ (56 - Z.of_nat k) * 2 ^ Z.of_nat k)
    by (rewrite <- Z.mul_assoc, <- Z.pow_add_r by lia; do 2 f_equal; lia).
  rewrite Z_mod_plus_full, <- bits_take, take_take, Nat.min_l by done.
  rewrite count_loop_ok; [done| |done|]; unfold zlen; rewrite length_take; lia.
Qed.

Lemma count_ok h : getCount (represents h) = Z.min 56 (zlen h).
Proof.
  destruct (represents_parts h) as (v & c & -> & _ & <- & Hv & Hc).
  by destruct (field_value v c Hv Hc).
Qed.

(** ** Properties *)

(** The bitset is a window on the events shifted in: the count is the number
    of events up to 56, and for every [k] up to 56 the number of bits on under the
    mask of the low [k] bits is the number of true events among the latest [k]. *)
Theorem bitset_reads_window h k :
  (k <= 56)%nat ->
  getCount (represents h) = Z.min 56 (zlen h) /\
  getBitsOnCount (represents h) (2 ^ Z.of_nat k - 1) = Some (ons (take k h)).
Proof. intros Hk. split; [apply count_ok|by apply bits_on_count_ok]. Qed.

Lemma bitset_reads_window_witness :
  getBitsOnCount (represents [true; false; true]) 0xFF = Some 2.
Proof.
  destruct (bitset_reads_window [true; false; true] 8 ltac:(lia)) as [_ H]. exact H.
Defined.

(** The bits of the calls [o] in that order. *)
Definition added (bs : list bool) (o : list nat) : list bool :=
  (fun i => default false (bs !! i)) <$> o.

(** The calls [o], the latest first, are those that have returned, and the buffer
    is the window on their bits in front of [h]. *)
Record logged (h bs : list bool) (s : shared) (o : list nat) : Prop := {
  lg_bits : s.1.*1 = bs;
  lg_once : NoDup o;
  lg_returned : forall i, i ∈ o <-> snd <$> s.1 !! i = Some Returned;
  lg_window : s.2 = represents (added bs o ++ h) }.

Definition all_loading (h bs : list bool) : shared := ((., Loading) <$> bs, represents h).

Lemma all_loading_logged h bs : logged h bs (all_loading h bs) [].
Proof.
  split; cbn; [|apply NoDup_nil_2| |done].
  - rewrite <- list_fmap_compose. apply list_fmap_id.
  - intros i. rewrite list_lookup_fmap. split; [by intros ?%elem_of_nil|]. by destruct (bs !! i).
Qed.

Lemma access_logged h bs s o i :
  logged h bs s o -> exists o', logged h bs (access s i) (o' ++ o).
Proof.
  destruct s as [cs buf]. intros [Hb Hn Hr Hw]. cbn in *. unfold access. cbn [fst snd].
  destruct (cs !! i) as [[b p]|] eqn:Ei; [|by exists []].
  assert (forall p', (<[i := (b, p')]> cs).*1 = bs) as Hbits.
  { intros p'. rewrite list_fmap_insert. cbn. rewrite Hb, list_insert_id; [done|].
    rewrite <- Hb, list_lookup_fmap, Ei. done. }
  assert (forall p', (i ∈ o -> p' = Returned) -> p <> Returned \/ p' = Returned ->
    p' <> Returned \/ p = Returned ->
    forall j, j ∈ o <-> snd <$> (<[i := (b, p')]> cs) !! j = Some Returned) as Hsame.
  { intros p' H1 H2 H3 j. destruct (decide (i = j)) as [<-|].
    - rewrite list_lookup_insert_eq by (by eapply lookup_lt_Some).
      rewrite (Hr i), Ei. cbn. split; intros [= ->]; f_equal; tauto.
    - by rewrite list_lookup_insert_ne. }
  destruct p as [|oldVal|]; cbn [addToBuff].
  - exists []. split; cbn [fst snd]; auto. apply Hsame; [|by left|by left].
    rewrite (Hr i), Ei. done.
  - unfold compare_exchange_strong. destruct (Z.eqb_spec buf oldVal) as [<-|]; cbn [fst snd].
    + assert (i ∉ o) as Hi by (rewrite (Hr i), Ei; done).
      exists [i]. split; cbn [fst snd app]; [done|by constructor| |].
      * intros j. rewrite elem_of_cons. destruct (decide (i = j)) as [<-|].
        -- rewrite list_lookup_insert_eq by (by eapply lookup_lt_Some). cbn. tauto.
        -- rewrite list_lookup_insert_ne by done. rewrite (Hr j). split; [intros [?|]; congruence|by right].
      * rewrite Hw, newVal_represents. cbn. rewrite <- Hb, list_lookup_fmap, Ei. done.
    + exists []. split; cbn [fst snd]; auto. apply Hsame; [|by left|by left].
      rewrite (Hr i), Ei. done.
  - exists []. split; cbn [fst snd]; auto.
Qed.

Lemma run_logged h bs sched s o :
  logged h bs s o -> exists o', logged h bs (run sched s) (o' ++ o).
Proof.
  revert s o. induction sched as [|i sched IH]; intros s o Hl; cbn; [by exists []|].
  destruct (access_logged h bs s o i Hl) as [o1 H1]. destruct (IH _ _ H1) as [o2 H2].
  exists (o2 ++ o1). by rewrite <- app_assoc.
Qed.

(** C33: addToBuff is one atomic shift.  Any number of calls run on one buffer, their
    loads and compare-exchanges in any order.  There is one order of the calls that
    have returned, each in it once, such that the buffer is the window on their bits
    in that order; what returns later goes in front, so the order keeps real time,
    and no bit is lost or shifted in twice.  A call whose load and exchange nobody
    comes between returns. *)
Theorem addToBuff_linearizable h bs sched1 sched2 :
  exists o1 o2,
    let s1 := run sched1 (all_loading h bs) in
    let s2 := run sched2 s1 in
    logged h bs s1 o1 /\ logged h bs s2 (o2 ++ o1) /\
    (forall i b, s1.1 !! i = Some (b, Loading) -> (run [i; i] s1).1 !! i = Some (b, Returned)).
Proof.
  destruct (run_logged h bs sched1 _ _ (all_loading_logged h bs)) as [o1 H1].
  rewrite app_nil_r in H1. destruct (run_logged h bs sched2 _ _ H1) as [o2 H2].
  exists o1, o2. split_and!; [done|done|]. intros i b Hi. set (s1 := run sched1 _) in *.
  assert (i < length s1.1)%nat by (by eapply lookup_lt_Some).
  cbn [run fold_left]. unfold access at 2. rewrite Hi. cbn. unfold access. cbn [fst snd].
  rewrite list_lookup_insert_eq by done. cbn. unfold compare_exchange_strong.
  rewrite Z.eqb_refl. cbn. by rewrite list_lookup_insert_eq by (by rewrite length_insert).
Qed.

(** Two calls load the empty buffer; the second exchange fails and is tried again. *)
Example addToBuff_race :
  run [0; 1; 0; 1; 1; 1]%nat (all_loading [] [true; true]) =
    ([(true, Returned); (true, Returned)], represents [true; true]).
Proof. by vm_compute. Qed.
End Rolling.

(** ** The calculator *)

Module ETA.
Import Rolling.

(** [double] is IEEE binary64 with round to nearest even, by the standard
    library's executable definition. *)
Definition dadd := SFadd 53 1024.
Definition dsub := SFsub 53 1024.
Definition dmul := SFmul 53 1024.
Definition ddiv := SFdiv 53 1024.
Definition of_Z (z : Z) : spec_float := binary_normalize 53 1024 z 0 false.

(** [m * 2^e] as a quotient rounded by [f num den]; [None]: the conversion of a
    NaN or an infinity to an integer is undefined. *)
Definition to_int (f : Z -> Z -> Z) (x : spec_float) : option Z :=
  match x with
  | S754_zero _ => Some 0
  | S754_finite s m e =>
      let n := if s then Z.neg m else Z.pos m in
      Some (if 0 <=? e then n * 2 ^ e else f n (2 ^ (- e)))
  | _ => None
  end.

Definition floor := to_int Z.div.
Definition ceil := to_int (fun n d => - ((- n) / d)).
(** [std::round]: halves away from zero. *)
Definition round := to_int (fun n d => Z.sgn n * ((2 * Z.abs n + d) / (2 * d))).

Definition clamp (v lo hi : spec_float) : spec_float :=
  if SFltb v lo then lo else if SFltb hi v then hi else v.

Definition BIG_FILE_SIZE : Z := 1024 * 5.
Definition BITSET_MASK : Z := 0xFF.
Definition BUCKET_COUNT : Z := 8 + 1.

Record bucket : Type := mk_bucket { bytesPerSecond : spec_float; sampleCount : Z }.

Record eta : Type := mk_eta {
  copySpeedBuckets : list bucket;
  bigCopiesRemaining : Z;
  smallCopiesRemaining : Z;
  bigSmallBuff : Z;
}.

Definition eta0 : eta := mk_eta (replicate 9 (mk_bucket (of_Z 0) 0)) 0 0 0.

Definition onCopyAdded (size : Z) (e : eta) : eta :=
  let big := BIG_FILE_SIZE <? size in
  if big
  then mk_eta (copySpeedBuckets e) (u64 (bigCopiesRemaining e + 1)) (smallCopiesRemaining e)
         (bigSmallBuff e)
  else mk_eta (copySpeedBuckets e) (bigCopiesRemaining e) (u64 (smallCopiesRemaining e + 1))
         (bigSmallBuff e).

(** Only the submit thread shifts into the buffer, so its swap succeeds at once. *)
Definition onCopyCompleted (size : Z) (e : eta) : eta :=
  let big := BIG_FILE_SIZE <? size in
  let buff := newVal (bigSmallBuff e) big in
  if big
  then mk_eta (copySpeedBuckets e) (u64 (bigCopiesRemaining e - 1)) (smallCopiesRemaining e) buff
  else mk_eta (copySpeedBuckets e) (bigCopiesRemaining e) (u64 (smallCopiesRemaining e - 1)) buff.

(** [None]: the assertion on the index fails or a bucket out of range is touched. *)
Definition updateSpeedEstimate (current : spec_float) (e : eta) : option eta :=
  let val := bigSmallBuff e in
  if BUCKET_COUNT - 1 <=? getCount val then
    idx ← getBitsOnCount val BITSET_MASK;
    if negb (idx <=? 8) then None
    else
      b ← zget (copySpeedBuckets e) idx;
      let alpha := ddiv (of_Z 1) (of_Z 100) in
      let speed :=
        if sampleCount b =? 0 then current
        else dadd (dmul (dsub (of_Z 1) alpha) (bytesPerSecond b)) (dmul alpha current) in
      l ← zset (copySpeedBuckets e) idx (mk_bucket speed (u64 (sampleCount b + 1)));
      Some (mk_eta l (bigCopiesRemaining e) (smallCopiesRemaining e) (bigSmallBuff e))
  else Some e.

(** The search for the bucket nearest to the ideal one: best index and difference. *)
Definition nearest_step (ideal threshold : Z) (best : Z * Z) (i : Z) (b : bucket) : Z * Z :=
  let '(bestIndex, bestDiff) := best in
  let thisDiff := Z.abs (ideal - i) in
  if (thisDiff <? bestDiff) && (threshold <? sampleCount b) then (i, thisDiff)
  else (bestIndex, bestDiff).

Fixpoint nearest (ideal threshold i : Z) (bs : list bucket) (best : Z * Z) : Z :=
  match bs with
  | [] => fst best
  | b :: bs => nearest ideal threshold (i + 1) bs (nearest_step ideal threshold best i b)
  end.

Definition calculate (threshold : Z) (e : eta) : option spec_float :=
  let val := ddiv (of_Z (bigCopiesRemaining e))
               (of_Z (u64 (bigCopiesRemaining e + smallCopiesRemaining e))) in
  let val := clamp val (of_Z 0) (of_Z 1) in
  let val := dmul val (of_Z (BUCKET_COUNT - 1)) in
  fl ← floor val;
  ce ← ceil val;
  bf ← zget (copySpeedBuckets e) fl;
  bc ← zget (copySpeedBuckets e) ce;
  if (threshold <? sampleCount bf) && (threshold <? sampleCount bc) then
    let alpha := dsub val (of_Z fl) in
    Some (dadd (dmul (bytesPerSecond bf) alpha)
            (dmul (bytesPerSecond bc) (dsub (of_Z 1) alpha)))
  else
    idealIndex ← round val;
    let bestIndex := nearest idealIndex threshold 0 (copySpeedBuckets e) (-1, 2 ^ 31 - 1) in
    if negb (bestIndex =? -1)
    then b ← zget (copySpeedBuckets e) bestIndex; Some (bytesPerSecond b)
    else Some (of_Z (-1)).

Definition getEta (e : eta) : option spec_float :=
  if (bigCopiesRemaining e =? 0) && (smallCopiesRemaining e =? 0) then Some (of_Z 0)
  else
    v ← calculate 20 e;
    if SFeqb v (of_Z (-1)) then calculate 1 e else Some v.

(** ** The counters *)

Inductive copy_event : Type := Added (size : Z) | Completed (size : Z).

Definition run_event (e : eta) (ev : copy_event) : eta :=
  match ev with Added s => onCopyAdded s e | Completed s => onCopyCompleted s e end.

Definition is_big (size : Z) : bool := BIG_FILE_SIZE <? size.
Definition bigs (l : list Z) : Z := zlen (filter (fun s => is_big s = true) l).

(** The copies added and not completed, and the completions, the latest first. *)
Inductive history : list copy_event -> list Z -> list Z -> Prop :=
  | history_nil : history [] [] []
  | history_added evs s pend done :
      history evs pend done -> history (evs ++ [Added s]) (s :: pend) done
  | history_completed evs s pend1 pend2 done :
      history evs (pend1 ++ s :: pend2) done ->
      history (evs ++ [Completed s]) (pend1 ++ pend2) (s :: done).

Lemma bigs_cons s l : bigs (s :: l) = Z.b2z (is_big s) + bigs l.
Proof. unfold bigs, zlen. rewrite list.filter_cons. destruct (is_big s); simpl; lia. Qed.

Lemma bigs_app l1 l2 : bigs (l1 ++ l2) = bigs l1 + bigs l2.
Proof. unfold bigs, zlen. rewrite list.filter_app, length_app. lia. Qed.

Lemma bigs_range l : 0 <= bigs l <= zlen l.
Proof.
  unfold bigs, zlen. pose proof (length_filter (fun s => is_big s = true) l). lia.
Qed.

Lemma history_counters evs pend done :
  history evs pend done -> zlen evs < 2 ^ 64 ->
  zlen pend <= zlen evs /\
  foldl run_event eta0 evs =
    mk_eta (copySpeedBuckets eta0) (bigs pend) (zlen pend - bigs pend)
      (represents (is_big <$> done)).
Proof.
  induction 1 as [|evs s pend done Hh IH|evs s pend1 pend2 done Hh IH]; [done| |];
    rewrite foldl_app; unfold zlen; rewrite length_app; simpl length; intros Hl.
  - destruct IH as [Hp ->]; [unfold zlen; lia|]. unfold zlen in Hp. split; [lia|].
    pose proof (bigs_range pend) as Hr. unfold zlen in Hr.
    cbn [foldl run_event onCopyAdded]. unfold onCopyAdded. fold (is_big s).
    rewrite bigs_cons. destruct (is_big s); simpl; unfold zlen;
      rewrite wrap_small by (unfold in_u; lia); f_equal; lia.
  - destruct IH as [Hp ->]; [unfold zlen; lia|]. unfold zlen in *.
    rewrite !length_app in *. simpl length in *. split; [lia|].
    change (is_big <$> s :: done) with (is_big s :: (is_big <$> done)).
    pose proof (bigs_range pend1) as Hr1. pose proof (bigs_range pend2) as Hr2.
    unfold zlen in Hr1, Hr2. cbn [foldl run_event]. unfold onCopyCompleted. fold (is_big s).
    rewrite !bigs_app, bigs_cons. cbn [bigSmallBuff]. rewrite newVal_represents.
    destruct (is_big s); cbn [Z.b2z bigCopiesRemaining smallCopiesRemaining copySpeedBuckets];
      cbn [copySpeedBuckets bigCopiesRemaining smallCopiesRemaining];
      rewrite ?length_app; simpl length; rewrite wrap_small by (unfold in_u; lia); f_equal; lia.
Qed.

(** ** The nearest bucket *)

(** [i] has enough samples. *)
Definition sampled (bs : list bucket) (threshold i : Z) : Prop :=
  exists b, zget bs i = Some b /\ threshold < sampleCount b.

(** The best index so far, among the first [n] buckets. *)
Definition best_below (bs : list bucket) (ideal threshold n : Z) (best : Z * Z) : Prop :=
  (best = (-1, 2 ^ 31 - 1) /\ forall i, 0 <= i < n -> ~ sampled bs threshold i) \/
  (exists i, best = (i, Z.abs (ideal - i)) /\ 0 <= i < n /\ sampled bs threshold i /\
     forall j, 0 <= j < n -> sampled bs threshold j ->
       Z.abs (ideal - i) <= Z.abs (ideal - j) /\ (j < i -> Z.abs (ideal - i) < Z.abs (ideal - j))).

Lemma zget_middle {A} (l1 : list A) b l2 : zget (l1 ++ b :: l2) (zlen l1) = Some b.
Proof.
  unfold zget, zlen. destruct (Z.ltb_spec (Z.of_nat (length l1)) 0); [lia|].
  rewrite Nat2Z.id. by apply list_lookup_middle.
Qed.

Lemma nearest_step_ok pre b bs ideal threshold best :
  zlen (pre ++ b :: bs) <= 2 ^ 30 -> 0 <= ideal <= 2 ^ 30 ->
  best_below (pre ++ b :: bs) ideal threshold (zlen pre) best ->
  best_below (pre ++ b :: bs) ideal threshold (zlen pre + 1)
    (nearest_step ideal threshold best (zlen pre) b).
Proof.
  intros Hlen Hid Hb. pose proof (zget_middle pre b bs) as Hg.
  set (l := pre ++ b :: bs) in *. set (n := zlen pre) in *.
  assert (0 <= n < zlen l) as Hn by (unfold n, l, zlen; rewrite length_app; simpl; lia).
  assert (sampled l threshold n <-> threshold < sampleCount b) as Hs.
  { unfold sampled. rewrite Hg. split; [by intros (? & [= <-] & ?)|eauto]. }
  unfold nearest_step. destruct Hb as [[-> Hnone]|(i & -> & Hi & Hsi & Hmin)].
  - destruct (Z.ltb_spec (Z.abs (ideal - n)) (2 ^ 31 - 1)); [|lia].
    destruct (Z.ltb_spec threshold (sampleCount b)) as [Ht|Ht]; simpl.
    + right. exists n. split_and!; [done|lia|lia|by apply Hs|]. intros j Hj Hsj.
      destruct (decide (j = n)) as [->|]; [lia|]. exfalso. apply (Hnone j); [lia|done].
    + left. split; [done|]. intros j Hj Hsj. destruct (decide (j = n)) as [->|].
      * apply Hs in Hsj. lia.
      * apply (Hnone j); [lia|done].
  - destruct (Z.ltb_spec (Z.abs (ideal - n)) (Z.abs (ideal - i))) as [Hd|Hd];
      destruct (Z.ltb_spec threshold (sampleCount b)) as [Ht|Ht]; simpl.
    1: right; exists n; split_and!; [done|lia|lia|by apply Hs|]; intros j Hj Hsj;
       destruct (decide (j = n)) as [->|]; [lia|];
       destruct (Hmin j ltac:(lia) Hsj); lia.
    all: right; exists i; split_and!; [done|lia|lia|done|]; intros j Hj Hsj;
       destruct (decide (j = n)) as [->|]; [apply Hs in Hsj; lia|]; apply Hmin; [lia|done].
Qed.

Lemma nearest_ok bs pre ideal threshold best :
  zlen (pre ++ bs) <= 2 ^ 30 -> 0 <= ideal <= 2 ^ 30 ->
  best_below (pre ++ bs) ideal threshold (zlen pre) best ->
  exists d, best_below (pre ++ bs) ideal threshold (zlen (pre ++ bs))
    (nearest ideal threshold (zlen pre) bs best, d).
Proof.
  revert pre best. induction bs as [|b bs IH]; intros pre best Hlen Hid Hb; simpl.
  - exists (snd best). rewrite app_nil_r in *. by destruct best.
  - pose proof (nearest_step_ok pre b bs ideal threshold best Hlen Hid Hb) as H1.
    replace (pre ++ b :: bs) with ((pre ++ [b]) ++ bs) in * by (by rewrite <- app_assoc).
    assert (zlen pre + 1 = zlen (pre ++ [b])) as E
      by (unfold zlen; rewrite length_app; simpl; lia).
    rewrite E in *. by apply IH.
Qed.

(** ** Properties *)

(** For any order in which copies are added and completed, each completed once
    after it was added, the calculator's counters are the numbers of big and of
    small copies still to complete, without wrapping, and its bitset is the window
    on the sizes of the copies completed. *)
Theorem eta_counters_exact evs pend done :
  history evs pend done -> zlen evs < 2 ^ 64 ->
  let e := foldl run_event eta0 evs in
  bigCopiesRemaining e = bigs pend /\ smallCopiesRemaining e = zlen pend - bigs pend /\
  bigSmallBuff e = represents (is_big <$> done).
Proof. intros Hh Hl e. unfold e. by destruct (history_counters _ _ _ Hh Hl) as [_ ->]. Qed.

Lemma eta_counters_exact_witness :
  let e := foldl run_event eta0 [Added 10; Added 9000; Completed 10] in
  bigCopiesRemaining e = 1 /\ smallCopiesRemaining e = 0 /\ bigSmallBuff e = represents [false].
Proof.
  apply (eta_counters_exact [Added 10; Added 9000; Completed 10] [9000] [10]); [|reflexivity].
  apply (history_completed [Added 10; Added 9000] 10 [9000] []).
  apply (history_added [Added 10] 9000 [10]). apply (history_added [] 10 []). constructor.
Defined.

(** A speed update never trips its assertion nor leaves the buckets.  Before
    eight copies have completed it changes nothing; after that it adds one sample
    to the bucket numbered by how many of the latest eight copies were big, and
    touches no other. *)
Theorem updateSpeedEstimate_safe cur e h :
  bigSmallBuff e = represents h -> zlen (copySpeedBuckets e) = BUCKET_COUNT ->
  (zlen h < 8 -> updateSpeedEstimate cur e = Some e) /\
  (8 <= zlen h -> exists e' b b',
     let i := ons (take 8 h) in
     updateSpeedEstimate cur e = Some e' /\ 0 <= i <= 8 /\
     zget (copySpeedBuckets e) i = Some b /\ zget (copySpeedBuckets e') i = Some b' /\
     sampleCount b' = u64 (sampleCount b + 1) /\
     (sampleCount b = 0 -> bytesPerSecond b' = cur) /\
     (forall j, 0 <= j -> j <> i -> zget (copySpeedBuckets e') j = zget (copySpeedBuckets e) j) /\
     bigCopiesRemaining e' = bigCopiesRemaining e /\
     smallCopiesRemaining e' = smallCopiesRemaining e /\ bigSmallBuff e' = bigSmallBuff e).
Proof.
  intros Hb Hlen. unfold updateSpeedEstimate. rewrite Hb, count_ok.
  change (BUCKET_COUNT - 1) with 8. split; intros Hh.
  - by destruct (Z.leb_spec 8 (Z.min 56 (zlen h))); [lia|].
  - destruct (Z.leb_spec 8 (Z.min 56 (zlen h))); [|lia].
    change BITSET_MASK with (2 ^ Z.of_nat 8 - 1). rewrite bits_on_count_ok by lia.
    assert (0 <= ons (take 8 h) <= 8) as Hi.
    { unfold ons, zlen. pose proof (length_filter (fun b => b = true) (take 8 h)) as Hf.
      rewrite length_take in Hf. lia. }
    cbn [mbind option_bind]. set (i := ons (take 8 h)) in *.
    destruct (Z.leb_spec i 8); [|lia]. cbn [negb].
    destruct (zget_in (copySpeedBuckets e) i) as [b Hg]; [rewrite Hlen; unfold BUCKET_COUNT; lia|].
    rewrite Hg. cbn [mbind option_bind].
    rewrite zset_in by (rewrite Hlen; unfold BUCKET_COUNT; lia). cbn [mbind option_bind].
    eexists _, b, _. split; [reflexivity|]. cbn [copySpeedBuckets].
    split_and!; try done; try lia.
    + apply zget_set_eq. rewrite Hlen. unfold BUCKET_COUNT. lia.
    + done.
    + intros Hz. cbn [bytesPerSecond]. by rewrite Hz.
    + intros j Hj Hne. apply zget_set_ne; lia.
Qed.

Lemma updateSpeedEstimate_safe_witness :
  let e := mk_eta (copySpeedBuckets eta0) 0 0 (represents (replicate 8 true)) in
  exists e', updateSpeedEstimate (of_Z 7) e = Some e' /\ smallCopiesRemaining e' = 0.
Proof.
  intros e.
  destruct (updateSpeedEstimate_safe (of_Z 7) e (replicate 8 true) eq_refl eq_refl) as [_ H].
  destruct (H ltac:(by vm_compute)) as (e' & b & b' & H1 & _ & _ & _ & _ & _ & _ & _ & H2 & _).
  exists e'. split; [exact H1|exact H2].
Defined.

(** The search for a bucket returns one with more samples than the threshold
    whose index is nearest to the ideal one, the lower of two equally near, and -1
    only if no bucket has enough samples. *)
Theorem nearest_bucket_correct bs ideal threshold :
  zlen bs <= 2 ^ 30 -> 0 <= ideal <= 2 ^ 30 ->
  let i := nearest ideal threshold 0 bs (-1, 2 ^ 31 - 1) in
  (i = -1 /\ forall j, 0 <= j < zlen bs -> ~ sampled bs threshold j) \/
  (0 <= i < zlen bs /\ sampled bs threshold i /\
   forall j, 0 <= j < zlen bs -> sampled bs threshold j ->
     Z.abs (ideal - i) <= Z.abs (ideal - j) /\ (j < i -> Z.abs (ideal - i) < Z.abs (ideal - j))).
Proof.
  intros Hl Hid. destruct (nearest_ok bs [] ideal threshold (-1, 2 ^ 31 - 1) Hl Hid) as [d Hb].
  { left. split; [done|]. unfold zlen. simpl. lia. }
  change (zlen []) with 0 in Hb. simpl app in Hb.
  destruct Hb as [[[= -> _] ?]|(i & [= -> _] & ?)]; [by left|by right].
Qed.

Lemma nearest_bucket_correct_witness :
  let bs := [mk_bucket (of_Z 1) 30; mk_bucket (of_Z 2) 0; mk_bucket (of_Z 3) 30] in
  nearest 1 20 0 bs (-1, 2 ^ 31 - 1) = 0 /\ sampled bs 20 0.
Proof.
  intros bs. destruct (nearest_bucket_correct bs 1 20 ltac:(by vm_compute) ltac:(lia))
    as [[H _]|(_ & H & _)]; [vm_compute in H; discriminate H|].
  split; [reflexivity|exact H].
Defined.

(** Five big and twenty-seven small copies to go: the position between the buckets
    is 8 * 5 / 32 = 1.25. *)
Definition between_buckets : eta :=
  mk_eta [mk_bucket (of_Z 0) 0; mk_bucket (of_Z 100) 30; mk_bucket (of_Z 200) 30;
          mk_bucket (of_Z 0) 0; mk_bucket (of_Z 0) 0; mk_bucket (of_Z 0) 0;
          mk_bucket (of_Z 0) 0; mk_bucket (of_Z 0) 0; mk_bucket (of_Z 0) 0] 5 27 0.

(** GetEta's interpolation has its weights the wrong way round: a quarter of
    the way from the bucket at 100 bytes per second to the one at 200 it returns
    175, the value at three quarters, where linear interpolation gives 125. *)
Theorem getEta_weights_swapped :
  getEta between_buckets = Some (dadd (dmul (of_Z 100) (ddiv (of_Z 1) (of_Z 4)))
                                   (dmul (of_Z 200) (ddiv (of_Z 3) (of_Z 4)))) /\
  getEta between_buckets = Some (of_Z 175) /\
  dadd (dmul (of_Z 100) (ddiv (of_Z 3) (of_Z 4))) (dmul (of_Z 200) (ddiv (of_Z 1) (of_Z 4)))
    = of_Z 125.
Proof. by vm_compute. Qed.
End ETA.
