(* ===== verification/Util.v ===== *)
(** * System call helpers (src/src/Util.hpp, src/src/Util.cpp)

    [myOpen], [myClose] and [retrySyscall] over open(2) and close(2), which are
    operations of the class [Files].  An [Error] is the case that made it. *)

From stdpp Require Import strings.
From S2P Require Import Prelude Abi Os.

Definition O_DIRECT : Z := 16384.   (** x86-64 *)

Inductive Error : Type :=
  | CouldntOpen (path : string) (err : Z)
  | FailureOnClosing (err : Z)
  | FileShrank (path : string)
  | ErrorReading (path : string) (err : Z)
  | ErrorWriting (path : string) (err : Z)
  | FailedToStat (path : string) (err : Z)
  | CouldntOpenDirectory (path : string) (err : Z)
  | CouldntReadLink (path : string) (err : Z)
  | ErrorCopyingSymlink (path : string)
  | UnhandledFileType (path : string) (type : Z).

(** open(2) and close(2): a new world, the result and the value of [errno] if
    that is [-1]. *)
Class Files (W : Type) : Type := {
  f_open : W -> string -> forall (oflag mode : Z), W * Z * Z;
  f_close : W -> Z -> W * Z * Z;
}.

Section util.
Context {W : Type} {F : Files W}.

Definition sys_open (path : string) (oflag mode : Z) : prog (ost W) Z :=
  syscall (fun w => f_open w path oflag mode).
Definition sys_close (fd : Z) : prog (ost W) Z := syscall (fun w => f_close w fd).

(** The [for] loop of [myOpen] with [tries] rounds left: the last descriptor. *)
Fixpoint open_loop (tries : nat) (path : string) (oflag mode fd : Z) : prog (ost W) Z :=
  match tries with
  | O => ret fd
  | S n =>
      let* fd := sys_open path oflag mode in
      let* e := errno in
      if (fd <? 0) && flag_set oflag O_DIRECT && (e =? EINVAL)
      then open_loop n path (Z.lxor oflag O_DIRECT) mode fd
      else if (fd <? 0) && ((e =? EINTR) || (e =? EAGAIN))
      then open_loop n path oflag mode fd
      else ret fd
  end.

Definition myOpen (path : string) (oflag mode : Z) : prog (ost W) (Error + Z) :=
  let* fd := open_loop 5 path oflag mode (-1) in
  if fd <? 0 then let* e := errno in ret (inl (CouldntOpen path e)) else ret (inr fd).

Definition myClose (fd : Z) : prog (ost W) (option Error) :=
  let* err := sys_close fd in
  if err <? 0 then let* e := errno in ret (Some (FailureOnClosing e)) else ret None.

(** [retrySyscall] of a function that leaves its outcome in [errno]; [A] are the
    variables it captures by reference. *)
Fixpoint retry_loop {A} (tries : nat) (func : A -> prog (ost W) A) (a : A) : prog (ost W) A :=
  match tries with
  | O => ret a
  | S n =>
      let* a := func a in
      let* e := errno in
      if (e =? EINTR) || (e =? EAGAIN) then retry_loop n func a else ret a
  end.

Definition set_errno (e : Z) : prog (ost W) unit := modify (fun s => mk_ost (o_world s) e).

Definition retrySyscall {A} (func : A -> prog (ost W) A) (a : A) : prog (ost W) (Z * A) :=
  do* set_errno 0 in
  let* a := retry_loop 5 func a in
  let* e := errno in
  ret (e, a).

(** ** Lemmas *)

Lemma sys_open_run s path oflag mode w v e :
  f_open (o_world s) path oflag mode = (w, v, e) ->
  sys_open path oflag mode s = Ok (v, mk_ost w (if v =? -1 then e else o_errno s)).
Proof. intros H. unfold sys_open, syscall. by rewrite H. Qed.

Lemma open_loop_total tries path oflag mode fd s :
  exists fd' s', open_loop tries path oflag mode fd s = Ok (fd', s').
Proof.
  revert oflag fd s. induction tries as [|n IH]; intros oflag fd s; [by eexists _, _|].
  cbn [open_loop]. destruct (f_open (o_world s) path oflag mode) as [[w v] e] eqn:H.
  rewrite (bind_ok _ _ _ _ _ (sys_open_run _ _ _ _ _ _ _ H)).
  unfold bind, errno, gets. simpl. repeat case_match; eauto.
Qed.

Lemma open_loop_success n path oflag mode fd s w v e :
  f_open (o_world s) path oflag mode = (w, v, e) -> 0 <= v ->
  open_loop (S n) path oflag mode fd s = Ok (v, mk_ost w (o_errno s)).
Proof.
  intros H Hv. cbn [open_loop]. rewrite (bind_ok _ _ _ _ _ (sys_open_run _ _ _ _ _ _ _ H)).
  unfold bind, errno, gets. simpl. destruct (Z.ltb_spec v 0); [lia|]. simpl.
  by destruct (Z.eqb_spec v (-1)); [lia|].
Qed.

Lemma open_loop_fallback n path oflag mode fd s w :
  f_open (o_world s) path oflag mode = (w, -1, EINVAL) -> flag_set oflag O_DIRECT = true ->
  open_loop (S n) path oflag mode fd s =
    open_loop n path (Z.lxor oflag O_DIRECT) mode (-1) (mk_ost w EINVAL).
Proof.
  intros H Hd. cbn [open_loop]. rewrite (bind_ok _ _ _ _ _ (sys_open_run _ _ _ _ _ _ _ H)).
  unfold bind, errno, gets. simpl. by rewrite Hd.
Qed.

Lemma open_loop_retry n path oflag mode fd s w e :
  f_open (o_world s) path oflag mode = (w, -1, e) -> e = EINTR \/ e = EAGAIN ->
  open_loop (S n) path oflag mode fd s = open_loop n path oflag mode (-1) (mk_ost w e).
Proof.
  intros H He. cbn [open_loop]. rewrite (bind_ok _ _ _ _ _ (sys_open_run _ _ _ _ _ _ _ H)).
  unfold bind, errno, gets. simpl. destruct He as [-> | ->]; simpl;
    by rewrite andb_false_r.
Qed.

Lemma open_loop_fail n path oflag mode fd s w e :
  f_open (o_world s) path oflag mode = (w, -1, e) ->
  e <> EINTR -> e <> EAGAIN -> (e <> EINVAL \/ flag_set oflag O_DIRECT = false) ->
  open_loop (S n) path oflag mode fd s = Ok (-1, mk_ost w e).
Proof.
  intros H H1 H2 H3. cbn [open_loop].
  rewrite (bind_ok _ _ _ _ _ (sys_open_run _ _ _ _ _ _ _ H)).
  unfold bind, errno, gets. simpl.
  destruct (Z.eqb_spec e EINTR), (Z.eqb_spec e EAGAIN); try done. simpl.
  destruct (Z.eqb_spec e EINVAL), (flag_set oflag O_DIRECT) eqn:E; simpl; try done.
  destruct H3; congruence.
Qed.

(** [k] opens in a row that fail for a reason [myOpen] retries: the world and the
    flags it goes on with. *)
Inductive retried (path : string) (mode : Z) : W -> Z -> nat -> W -> Z -> Prop :=
  | retried_none w oflag : retried path mode w oflag O w oflag
  | retried_direct w oflag w1 k w2 oflag2 :
      f_open w path oflag mode = (w1, -1, EINVAL) -> flag_set oflag O_DIRECT = true ->
      retried path mode w1 (Z.lxor oflag O_DIRECT) k w2 oflag2 ->
      retried path mode w oflag (S k) w2 oflag2
  | retried_transient w oflag w1 e k w2 oflag2 :
      f_open w path oflag mode = (w1, -1, e) -> e = EINTR \/ e = EAGAIN ->
      retried path mode w1 oflag k w2 oflag2 ->
      retried path mode w oflag (S k) w2 oflag2.

Lemma myOpen_eq path oflag mode s :
  myOpen path oflag mode s =
    match open_loop 5 path oflag mode (-1) s with
    | Ok (fd, s') =>
        if fd <? 0 then Ok (inl (CouldntOpen path (o_errno s')), s') else Ok (inr fd, s')
    | Fault f => Fault f
    | NoFuel => NoFuel
    end.
Proof.
  unfold myOpen, bind at 1. destruct (open_loop _ _ _ _ _ _) as [[fd s']| |]; [|done..].
  by destruct (fd <? 0).
Qed.

Definition retry_errno (e : Z) : Prop := e = EINVAL \/ e = EINTR \/ e = EAGAIN.

Lemma retried_loop path mode w oflag k w2 oflag2 :
  retried path mode w oflag k w2 oflag2 ->
  forall tries fd e0, exists e,
    open_loop (k + tries) path oflag mode fd (mk_ost w e0) =
      open_loop tries path oflag2 mode (match k with O => fd | S _ => -1 end) (mk_ost w2 e) /\
    (k = O -> e = e0) /\ (k <> O -> retry_errno e).
Proof.
  unfold retry_errno.
  induction 1 as [w oflag|w oflag w1 k w2 oflag2 Ho Hd Hr IH|w oflag w1 e1 k w2 oflag2 Ho He Hr IH];
    intros tries fd e0.
  - by exists e0.
  - destruct (IH tries (-1) EINVAL) as (e & IHe & IH0 & IH1). exists e. cbn [Nat.add].
    rewrite (open_loop_fallback _ _ _ _ _ (mk_ost w e0) w1 Ho Hd), IHe.
    split; [by destruct k|]. split; [done|]. intros _. destruct k; [rewrite IH0|]; auto.
  - destruct (IH tries (-1) e1) as (e & IHe & IH0 & IH1). exists e. cbn [Nat.add].
    rewrite (open_loop_retry _ _ _ _ _ (mk_ost w e0) w1 e1 Ho He), IHe.
    split; [by destruct k|]. split; [done|]. intros _. destruct k; [rewrite IH0|]; auto.
Qed.
End util.

(** ** A concrete file system for the witnesses

    A script of the outcomes of the opens, [Some e] for a failure with [errno] [e];
    an open that succeeds returns descriptor 3. *)
Record script : Type := mk_script { sc_opens : list (option Z); sc_count : nat }.

#[export] Instance ScriptFiles : Files script := {|
  f_open w path oflag mode :=
    match sc_opens w with
    | [] => (mk_script [] (S (sc_count w)), 3, 0)
    | None :: l => (mk_script l (S (sc_count w)), 3, 0)
    | Some e :: l => (mk_script l (S (sc_count w)), -1, e)
    end;
  f_close w fd := (w, 0, 0);
|}.

(** ** Properties *)

(** C28: myOpen always returns, after at most five opens.  After [k] opens that
    failed with EINTR, EAGAIN, or EINVAL under O_DIRECT (which it then drops for
    the rest), a sixth is never made: for [k] below five the next open's
    descriptor, or its error if that is not one to retry, is the result; for five
    the result is an error that names the path and the last errno. *)
Theorem myOpen_correct (W : Type) (F : Files W) path mode w oflag e0 k w2 oflag2 w3 v e :
  retried path mode w oflag k w2 oflag2 -> (k <= 5)%nat ->
  f_open w2 path oflag2 mode = (w3, v, e) ->
  ((k < 5)%nat -> 0 <= v ->
     exists e', myOpen path oflag mode (mk_ost w e0) = Ok (inr v, mk_ost w3 e')) /\
  ((k < 5)%nat -> v = -1 -> e <> EINTR -> e <> EAGAIN ->
     e <> EINVAL \/ flag_set oflag2 O_DIRECT = false ->
     myOpen path oflag mode (mk_ost w e0) = Ok (inl (CouldntOpen path e), mk_ost w3 e)) /\
  (k = 5%nat ->
     exists e', retry_errno e' /\
       myOpen path oflag mode (mk_ost w e0) = Ok (inl (CouldntOpen path e'), mk_ost w2 e')).
Proof.
  intros Hr Hk Ho. destruct (retried_loop _ _ _ _ _ _ _ Hr (5 - k)%nat (-1) e0)
    as (e1 & Hl & _ & He1).
  replace (k + (5 - k))%nat with 5%nat in Hl by lia. rewrite myOpen_eq, Hl.
  set (fd := match k with O => -1 | S _ => -1 end). split_and!.
  - intros Hk5 Hv. destruct (5 - k)%nat as [|n] eqn:En; [lia|].
    rewrite (open_loop_success n path oflag2 mode fd (mk_ost w2 e1) _ _ _ Ho Hv). exists e1.
    by destruct (Z.ltb_spec v 0); [lia|].
  - intros Hk5 -> H1 H2 H3. destruct (5 - k)%nat as [|n] eqn:En; [lia|].
    by rewrite (open_loop_fail n path oflag2 mode fd (mk_ost w2 e1) _ _ Ho H1 H2 H3).
  - intros ->. exists e1. split; [by apply He1|done].
Qed.

(** O_DIRECT is not supported and the second open is interrupted. *)
Lemma myOpen_correct_witness :
  exists e', myOpen "f"%string O_DIRECT 0 (mk_ost (mk_script [Some EINVAL; Some EINTR] 0) 0) =
    Ok (inr 3, mk_ost (mk_script [] 3) e').
Proof.
  assert (retried "f"%string 0 (mk_script [Some EINVAL; Some EINTR] 0) O_DIRECT 2
    (mk_script [] 2) 0) as Hr.
  { eapply retried_direct; [reflexivity|reflexivity|].
    eapply retried_transient; [reflexivity|by left|]. apply retried_none. }
  destruct (myOpen_correct script ScriptFiles "f"%string 0
    (mk_script [Some EINVAL; Some EINTR] 0) O_DIRECT 0 2 (mk_script [] 2) 0 (mk_script [] 3) 3 0
    Hr ltac:(lia) eq_refl) as (H & _). exact (H ltac:(lia) ltac:(lia)).
Defined.

Lemma retrySyscall_eq {W A} (func : A -> prog (ost W) A) a s :
  retrySyscall func a s =
    match retry_loop 5 func a (mk_ost (o_world s) 0) with
    | Ok (a, s') => Ok ((o_errno s', a), s')
    | Fault f => Fault f
    | NoFuel => NoFuel
    end.
Proof.
  unfold retrySyscall, set_errno, modify. unfold bind at 1. unfold bind at 1.
  by destruct (retry_loop _ _ _ _) as [[b s']| |].
Qed.

(** A call whose result is stored. *)
Definition storing {W} (call : W -> W * Z * Z) (_ : Z) : prog (ost W) Z := syscall call.

Lemma retry_first {W} (call : W -> W * Z * Z) n w w' a e0 :
  call w = (w', -1, EINTR) ->
  retry_loop (S n) (storing call) a (mk_ost w e0) =
    retry_loop n (storing call) (-1) (mk_ost w' EINTR).
Proof.
  intros Hc. cbn [retry_loop]. unfold bind, storing, syscall, errno, gets, ret. simpl.
  by rewrite Hc.
Qed.

(** A round that succeeds with [errno] left over. *)
Lemma retry_stale {W} (call : W -> W * Z * Z) n w w' a v e :
  call w = (w', v, e) -> 0 <= v ->
  retry_loop (S n) (storing call) a (mk_ost w EINTR) =
    retry_loop n (storing call) v (mk_ost w' EINTR).
Proof.
  intros Hc Hv. cbn [retry_loop]. unfold bind, storing, syscall, errno, gets, ret. simpl. rewrite Hc.
  by destruct (Z.eqb_spec v (-1)); [lia|].
Qed.

(** RetrySyscall does not clear errno between its rounds.  A call interrupted
    once and then successful, which leaves errno at EINTR, is made four times
    more, and the result is EINTR although every repetition succeeded. *)
Theorem retry_repeats_successes (W : Type) (call : W -> W * Z * Z) w0 w1 w2 w3 w4 w5
    v2 e2 v3 e3 v4 e4 v5 e5 e0 :
  call w0 = (w1, -1, EINTR) -> call w1 = (w2, v2, e2) -> call w2 = (w3, v3, e3) ->
  call w3 = (w4, v4, e4) -> call w4 = (w5, v5, e5) ->
  0 <= v2 -> 0 <= v3 -> 0 <= v4 -> 0 <= v5 ->
  retrySyscall (storing call) 0 (mk_ost w0 e0) = Ok ((EINTR, v5), mk_ost w5 EINTR).
Proof.
  intros H1 H2 H3 H4 H5 P2 P3 P4 P5.
  rewrite retrySyscall_eq. cbn [o_world]. erewrite retry_first by eassumption.
  erewrite retry_stale by eassumption. erewrite retry_stale by eassumption.
  erewrite retry_stale by eassumption. by erewrite retry_stale by eassumption.
Qed.

Lemma retry_repeats_successes_witness :
  let call (n : nat) := (S n, if Nat.eqb n 0 then -1 else 7, EINTR) in
  retrySyscall (storing call) 0 (mk_ost O 0) = Ok ((EINTR, 7), mk_ost 5%nat EINTR).
Proof.
  intros call.
  apply (retry_repeats_successes nat call 0%nat 1%nat 2%nat 3%nat 4%nat 5%nat
    7 EINTR 7 EINTR 7 EINTR 7 EINTR 0); try reflexivity; lia.
Defined.
