(* ===== verification/CopyState.v ===== *)
(** * The state of a copy queue (src/src/CopyQueue.hpp, src/src/CopyRunner.hpp,
    src/src/QueueFileDescriptor.hpp)

    The objects of the C++ program live in a store: a pointer to a
    [QueueFileDescriptor], to a shared chunk counter or to a [CopyRunner] is a key
    of the corresponding map, so that aliasing is explicit.  Dereferencing a
    pointer that is not there is a fault. *)

From stdpp Require Import gmap strings.
From S2P Require Import Prelude Abi Prep RingBuf Ring Os Util Heap.

Definition NEVER_OPENED_VAL : Z := -1.
Definition CLOSED_VAL : Z := -2.

Record QueueFileDescriptor : Type := mk_qfd {
  q_path : string;
  q_oflag : Z;
  q_mode : Z;
  q_fd : Z;
}.

Definition qfd_set_fd (fd : Z) (q : QueueFileDescriptor) : QueueFileDescriptor :=
  mk_qfd (q_path q) (q_oflag q) (q_mode q) fd.

(** [eventDataBuffers] is represented by its two [resultOverride] members: the
    other members are constant. *)
Record CopyRunner : Type := mk_runner {
  sourceFd : Z;
  destFd : Z;
  offset : Z;
  size : Z;
  alignment : Z;
  chunksRemaining : Z;
  buffer : Z;              (** 0: [nullptr] *)
  bufferAligned : Z;
  readOffset : Z;
  writeOffset : Z;
  jobsRunning : Z;
  savedError : option Error;
  readOverride : Z;
  writeOverride : Z;
}.

Definition S32_MAX : Z := 2 ^ 31 - 1.

(** The constructor of [CopyRunner], without its effect on the queue. *)
Definition new_runner (src dst off sz align chunks : Z) : CopyRunner :=
  mk_runner src dst off sz align chunks 0 0 off off 0 None S32_MAX S32_MAX.

Definition r_set_buffer (b a : Z) (r : CopyRunner) : CopyRunner :=
  mk_runner (sourceFd r) (destFd r) (offset r) (size r) (alignment r) (chunksRemaining r) b a
    (readOffset r) (writeOffset r) (jobsRunning r) (savedError r) (readOverride r)
    (writeOverride r).
Definition r_set_readOffset (v : Z) (r : CopyRunner) : CopyRunner :=
  mk_runner (sourceFd r) (destFd r) (offset r) (size r) (alignment r) (chunksRemaining r)
    (buffer r) (bufferAligned r) v (writeOffset r) (jobsRunning r) (savedError r)
    (readOverride r) (writeOverride r).
Definition r_set_writeOffset (v : Z) (r : CopyRunner) : CopyRunner :=
  mk_runner (sourceFd r) (destFd r) (offset r) (size r) (alignment r) (chunksRemaining r)
    (buffer r) (bufferAligned r) (readOffset r) v (jobsRunning r) (savedError r)
    (readOverride r) (writeOverride r).
Definition r_set_jobs (v : Z) (r : CopyRunner) : CopyRunner :=
  mk_runner (sourceFd r) (destFd r) (offset r) (size r) (alignment r) (chunksRemaining r)
    (buffer r) (bufferAligned r) (readOffset r) (writeOffset r) v (savedError r)
    (readOverride r) (writeOverride r).
Definition r_set_error (e : option Error) (r : CopyRunner) : CopyRunner :=
  mk_runner (sourceFd r) (destFd r) (offset r) (size r) (alignment r) (chunksRemaining r)
    (buffer r) (bufferAligned r) (readOffset r) (writeOffset r) (jobsRunning r) e
    (readOverride r) (writeOverride r).
Definition r_set_overrides (a b : Z) (r : CopyRunner) : CopyRunner :=
  mk_runner (sourceFd r) (destFd r) (offset r) (size r) (alignment r) (chunksRemaining r)
    (buffer r) (bufferAligned r) (readOffset r) (writeOffset r) (jobsRunning r) (savedError r)
    a b.

(** The atomic counters of [CopyQueue]. *)
Record counters : Type := mk_counters {
  keepAliveCount : Z;
  submissionsRunning : Z;
  totalBytesToCopy : Z;
  totalBytesCopied : Z;
  totalBytesFailed : Z;
}.

Record queue (W : Type) : Type := mk_queue {
  qu_os : ost W;
  qu_ring : io_uring;
  qu_heap : Heap.heap;
  fileDescriptorCap : Z;
  fileDescriptorsUsed : Z;
  qu_counters : counters;
  qu_qfds : gmap Z QueueFileDescriptor;
  qu_chunks : gmap Z Z;
  qu_runners : gmap Z CopyRunner;
}.
Arguments mk_queue {W} _ _ _ _ _ _ _ _ _.
Arguments qu_os {W} _.
Arguments qu_ring {W} _.
Arguments qu_heap {W} _.
Arguments fileDescriptorCap {W} _.
Arguments fileDescriptorsUsed {W} _.
Arguments qu_counters {W} _.
Arguments qu_qfds {W} _.
Arguments qu_chunks {W} _.
Arguments qu_runners {W} _.

Section access.
Context {W : Type}.
Implicit Types (q : queue W).

Definition set_os (o : ost W) q : queue W :=
  mk_queue o (qu_ring q) (qu_heap q) (fileDescriptorCap q) (fileDescriptorsUsed q)
    (qu_counters q) (qu_qfds q) (qu_chunks q) (qu_runners q).
Definition set_qring (r : io_uring) q : queue W :=
  mk_queue (qu_os q) r (qu_heap q) (fileDescriptorCap q) (fileDescriptorsUsed q)
    (qu_counters q) (qu_qfds q) (qu_chunks q) (qu_runners q).
Definition set_heap (h : Heap.heap) q : queue W :=
  mk_queue (qu_os q) (qu_ring q) h (fileDescriptorCap q) (fileDescriptorsUsed q)
    (qu_counters q) (qu_qfds q) (qu_chunks q) (qu_runners q).
Definition set_fdsUsed (v : Z) q : queue W :=
  mk_queue (qu_os q) (qu_ring q) (qu_heap q) (fileDescriptorCap q) v
    (qu_counters q) (qu_qfds q) (qu_chunks q) (qu_runners q).
Definition set_counters (c : counters) q : queue W :=
  mk_queue (qu_os q) (qu_ring q) (qu_heap q) (fileDescriptorCap q) (fileDescriptorsUsed q)
    c (qu_qfds q) (qu_chunks q) (qu_runners q).
Definition set_qfds (m : gmap Z QueueFileDescriptor) q : queue W :=
  mk_queue (qu_os q) (qu_ring q) (qu_heap q) (fileDescriptorCap q) (fileDescriptorsUsed q)
    (qu_counters q) m (qu_chunks q) (qu_runners q).
Definition set_chunks (m : gmap Z Z) q : queue W :=
  mk_queue (qu_os q) (qu_ring q) (qu_heap q) (fileDescriptorCap q) (fileDescriptorsUsed q)
    (qu_counters q) (qu_qfds q) m (qu_runners q).
Definition set_runners (m : gmap Z CopyRunner) q : queue W :=
  mk_queue (qu_os q) (qu_ring q) (qu_heap q) (fileDescriptorCap q) (fileDescriptorsUsed q)
    (qu_counters q) (qu_qfds q) (qu_chunks q) m.

(** Dereferencing a pointer into one of the maps. *)
Definition deref {A} (m : queue W -> gmap Z A) (p : Z) : prog (queue W) A :=
  fun q => match m q !! p with Some a => Ok (a, q) | None => Fault NullDeref end.

Definition get_qfd : Z -> prog (queue W) QueueFileDescriptor := deref qu_qfds.
Definition put_qfd (p : Z) (d : QueueFileDescriptor) : prog (queue W) unit :=
  modify (fun q => set_qfds (<[p := d]> (qu_qfds q)) q).
Definition get_runner : Z -> prog (queue W) CopyRunner := deref qu_runners.
Definition put_runner (p : Z) (r : CopyRunner) : prog (queue W) unit :=
  modify (fun q => set_runners (<[p := r]> (qu_runners q)) q).
Definition get_chunks : Z -> prog (queue W) Z := deref qu_chunks.

(** A system call helper of [Util] on the queue's state. *)
Definition with_os {A} (c : prog (ost W) A) : prog (queue W) A :=
  fun q =>
    match c (qu_os q) with
    | Ok (a, o) => Ok (a, set_os o q)
    | Fault f => Fault f
    | NoFuel => NoFuel
    end.

Definition on_counters (f : counters -> counters) : prog (queue W) unit :=
  modify (fun q => set_counters (f (qu_counters q)) q).
Definition add_keepAlive (d : Z) (c : counters) : counters :=
  mk_counters (u32 (keepAliveCount c + d)) (submissionsRunning c) (totalBytesToCopy c)
    (totalBytesCopied c) (totalBytesFailed c).
Definition add_submissions (d : Z) (c : counters) : counters :=
  mk_counters (keepAliveCount c) (u32 (submissionsRunning c + d)) (totalBytesToCopy c)
    (totalBytesCopied c) (totalBytesFailed c).
Definition add_total (d : Z) (c : counters) : counters :=
  mk_counters (keepAliveCount c) (submissionsRunning c) (u64 (totalBytesToCopy c + d))
    (totalBytesCopied c) (totalBytesFailed c).
Definition add_copied (d : Z) (c : counters) : counters :=
  mk_counters (keepAliveCount c) (submissionsRunning c) (totalBytesToCopy c)
    (u64 (totalBytesCopied c + d)) (totalBytesFailed c).
Definition add_failed (d : Z) (c : counters) : counters :=
  mk_counters (keepAliveCount c) (submissionsRunning c) (totalBytesToCopy c)
    (totalBytesCopied c) (u64 (totalBytesFailed c + d)).
End access.
