(* ===== verification/FileDesc.v ===== *)
(** * File descriptors under a cap (src/src/QueueFileDescriptor.cpp)

    A queue descriptor is opened when it is created, if the cap leaves room for
    the threads with priority, and otherwise when it is needed.  Two threads
    reserve: [interfered] says that another thread changed the counter between a
    load and the compare-and-swap. *)

From stdpp Require Import gmap strings.
From S2P Require Import Prelude Abi Prep RingBuf Ring Os Util Heap CopyState.

Definition RESERVED_FD_COUNT : Z := 2.
Definition RESERVED_HIGH_PRIORITY_FD_COUNT : Z := 2.

Inductive OpenPriority : Type := Low | High.

Definition isOpen (d : QueueFileDescriptor) : bool := 0 <? q_fd d.
Definition hasBeenClosed (d : QueueFileDescriptor) : bool := q_fd d =? CLOSED_VAL.

Section fd.
Context {W : Type} {F : Files W}.

Definition reserveFileDescriptor (interfered : bool) (priority : OpenPriority)
    : prog (queue W) bool :=
  let* expected := gets fileDescriptorsUsed in
  let* limit := gets fileDescriptorCap in
  let limit :=
    match priority with
    | Low => u64 (limit - RESERVED_HIGH_PRIORITY_FD_COUNT)
    | High => limit
    end in
  if (limit <=? expected) || interfered then ret false
  else do* modify (set_fdsUsed (u64 (expected + 1))) in ret true.

Definition doOpen (p : Z) : prog (queue W) (option Error) :=
  let* d := get_qfd p in
  let* r := with_os (myOpen (q_path d) (q_oflag d) (q_mode d)) in
  match r with
  | inl e => ret (Some e)
  | inr fd => do* put_qfd p (qfd_set_fd fd d) in ret None
  end.

(** The constructor, at the address [p]. *)
Definition new_qfd (interfered : bool) (p : Z) (path : string) (oflag mode : Z)
    : prog (queue W) unit :=
  do* put_qfd p (mk_qfd path oflag mode NEVER_OPENED_VAL) in
  let* ok := reserveFileDescriptor interfered Low in
  if ok then do* doOpen p in ret tt else ret tt.

(** [while (!reserveFileDescriptor(High));] *)
Fixpoint reserve_loop (fuel : nat) : prog (queue W) unit :=
  match fuel with
  | O => no_fuel
  | S n =>
      let* ok := reserveFileDescriptor false High in
      if ok then ret tt else reserve_loop n
  end.

Definition ensureOpened (fuel : nat) (p : Z) : prog (queue W) (option Error) :=
  let* d := get_qfd p in
  do* assert (negb (q_fd d =? CLOSED_VAL)) in
  if q_fd d =? NEVER_OPENED_VAL then do* reserve_loop fuel in doOpen p
  else ret None.

Definition notifyClosed (p : Z) : prog (queue W) unit :=
  let* d := get_qfd p in
  do* put_qfd p (qfd_set_fd CLOSED_VAL d) in
  modify (fun q => set_fdsUsed (u64 (fileDescriptorsUsed q - 1)) q).

Definition getFd (p : Z) : prog (queue W) Z :=
  let* d := get_qfd p in
  do* assert (2 <? q_fd d) in ret (q_fd d).

(** [delete] of a descriptor. *)
Definition delete_qfd (p : Z) : prog (queue W) unit :=
  let* d := get_qfd p in
  do* assert ((q_fd d =? CLOSED_VAL) || (q_fd d =? NEVER_OPENED_VAL)) in
  modify (fun q => set_qfds (delete p (qu_qfds q)) q).
End fd.

(** ** Accounting *)

Definition open_count {W} (q : queue W) : Z :=
  Z.of_nat (base.size (filter (fun kv => isOpen (snd kv) = true) (qu_qfds q))).

(** The reservations cover the open descriptors and stay within the cap. *)
Record fds_ok {W} (q : queue W) : Prop := {
  fo_cover : RESERVED_FD_COUNT + open_count q <= fileDescriptorsUsed q;
  fo_cap : fileDescriptorsUsed q <= fileDescriptorCap q;
  fo_range : 4 <= fileDescriptorCap q < 2 ^ 63;
}.

(** open(2) never hands out the descriptors of the standard streams. *)
Definition open_law {W} (F : Files W) : Prop :=
  forall w path oflag mode w' v e, f_open w path oflag mode = (w', v, e) -> v = -1 \/ 2 < v.

(** One operation of either thread on the descriptors. *)
Inductive fd_step {W} {F : Files W} : queue W -> queue W -> Prop :=
  | fd_new q q' i p path oflag mode :
      qu_qfds q !! p = None -> new_qfd i p path oflag mode q = Ok (tt, q') -> fd_step q q'
  | fd_ensure q q' fuel p r : ensureOpened fuel p q = Ok (r, q') -> fd_step q q'
  | fd_close q q' p d :
      qu_qfds q !! p = Some d -> isOpen d = true -> notifyClosed p q = Ok (tt, q') -> fd_step q q'
  | fd_delete q q' p : delete_qfd p q = Ok (tt, q') -> fd_step q q'.

Inductive fd_steps {W} {F : Files W} : queue W -> queue W -> Prop :=
  | fd_refl q : fd_steps q q
  | fd_next q q1 q2 : fd_step q q1 -> fd_steps q1 q2 -> fd_steps q q2.

Section lemmas.
Context {W : Type} {F : Files W} (HF : open_law F).
Implicit Types (q : queue W).

Lemma open_loop_law tries path oflag mode fd s fd' s' :
  open_loop tries path oflag mode fd s = Ok (fd', s') -> fd = -1 \/ 2 < fd ->
  fd' = -1 \/ 2 < fd'.
Proof.
  revert oflag fd s. induction tries as [|n IH]; intros oflag fd s; cbn [open_loop].
  - by intros [= -> _].
  - intros Hl _. apply bind_inv in Hl as (v & s1 & Hv & Hl).
    unfold sys_open, syscall in Hv. destruct (f_open _ _ _ _) as [[w v'] e] eqn:Ho.
    injection Hv as -> <-. apply HF in Ho.
    apply bind_inv in Hl as (e' & s2 & _ & Hl).
    destruct (_ && _ && _); [by eapply IH|]. destruct (_ && _); [by eapply IH|].
    by injection Hl as <- _.
Qed.

Lemma myOpen_law path oflag mode s fd s' :
  myOpen path oflag mode s = Ok (inr fd, s') -> 2 < fd.
Proof.
  rewrite myOpen_eq. destruct (open_loop _ _ _ _ _ _) as [[v s1]| |] eqn:Hl; [|done..].
  apply open_loop_law in Hl; [|by left].
  destruct (Z.ltb_spec v 0); [done|]. intros [= <- <-]. lia.
Qed.

Lemma myOpen_total path oflag mode s :
  exists r s', myOpen path oflag mode s = Ok (r, s').
Proof.
  rewrite myOpen_eq. destruct (open_loop_total 5 path oflag mode (-1) s) as (v & s' & ->).
  destruct (v <? 0); eauto.
Qed.

Lemma open_count_insert q p d :
  open_count (set_qfds (<[p := d]> (qu_qfds q)) q) =
    Z.b2z (isOpen d) + open_count (set_qfds (delete p (qu_qfds q)) q).
Proof.
  unfold open_count. simpl. rewrite <- insert_delete_eq.
  set (m := delete p (qu_qfds q)). assert (m !! p = None) as Hp by apply lookup_delete_eq.
  destruct (isOpen d) eqn:E; simpl Z.b2z.
  - rewrite map_filter_insert_True by done. rewrite map_size_insert_None; [lia|].
    apply map_lookup_filter_None. by left.
  - rewrite map_filter_insert_False by (simpl; congruence).
    by rewrite delete_id by done.
Qed.

Lemma open_count_lookup q p d :
  qu_qfds q !! p = Some d ->
  open_count q = Z.b2z (isOpen d) + open_count (set_qfds (delete p (qu_qfds q)) q).
Proof.
  intros Hp. rewrite <- open_count_insert. unfold open_count. simpl. by rewrite insert_id.
Qed.

Lemma open_count_nonneg q : 0 <= open_count q.
Proof. unfold open_count. lia. Qed.

(** A reservation that is not used up yet. *)
Record fds_reserved q : Prop := {
  fr_cover : RESERVED_FD_COUNT + open_count q + 1 <= fileDescriptorsUsed q;
  fr_cap : fileDescriptorsUsed q <= fileDescriptorCap q;
  fr_range : 4 <= fileDescriptorCap q < 2 ^ 63;
}.

Lemma reserved_ok q : fds_reserved q -> fds_ok q.
Proof. intros [H1 H2 H3]. split; [lia|done|done]. Qed.

Lemma reserve_ok q i prio b q' :
  fds_ok q -> reserveFileDescriptor i prio q = Ok (b, q') ->
  qu_qfds q' = qu_qfds q /\ fileDescriptorCap q' = fileDescriptorCap q /\
  if b then fds_reserved q' /\ fileDescriptorsUsed q' = fileDescriptorsUsed q + 1
  else q' = q.
Proof.
  intros [H1 H2 H3]. pose proof (open_count_nonneg q). unfold RESERVED_FD_COUNT in *.
  unfold reserveFileDescriptor, bind, gets, modify, ret.
  set (limit := match prio with Low => _ | High => _ end).
  assert (limit <= fileDescriptorCap q) as Hlim.
  { unfold limit, RESERVED_HIGH_PRIORITY_FD_COUNT. destruct prio; [|done].
    rewrite wrap_small by (unfold in_u; lia). lia. }
  clearbody limit. destruct (Z.leb_spec limit (fileDescriptorsUsed q)); simpl.
  { by intros [= <- <-]. }
  destruct i; [by intros [= <- <-]|]. intros [= <- <-].
  assert (u64 (fileDescriptorsUsed q + 1) = fileDescriptorsUsed q + 1) as E
    by (apply wrap_small; unfold in_u; lia).
  split_and!; try done. split; simpl; rewrite ?E.
  - unfold open_count, RESERVED_FD_COUNT in *. simpl. lia.
  - lia.
  - done.
Qed.

Lemma reserve_run q prio :
  4 <= fileDescriptorCap q < 2 ^ 63 -> 0 <= fileDescriptorsUsed q ->
  fileDescriptorsUsed q < fileDescriptorCap q -
    match prio with Low => RESERVED_HIGH_PRIORITY_FD_COUNT | High => 0 end ->
  reserveFileDescriptor false prio q = Ok (true, set_fdsUsed (fileDescriptorsUsed q + 1) q).
Proof.
  intros H1 H2 H3. unfold reserveFileDescriptor, bind, gets, modify, ret.
  unfold RESERVED_HIGH_PRIORITY_FD_COUNT in *.
  destruct prio; rewrite !wrap_small by (unfold in_u; lia); by case_z; [lia|].
Qed.

Lemma doOpen_ok q p d r q' :
  fds_reserved q -> qu_qfds q !! p = Some d -> isOpen d = false ->
  doOpen p q = Ok (r, q') ->
  fds_ok q' /\ fileDescriptorsUsed q' = fileDescriptorsUsed q /\
  match r with
  | None => open_count q' = open_count q + 1
  | Some _ => qu_qfds q' = qu_qfds q
  end.
Proof.
  intros Hr Hp Hd. destruct Hr as [H1 H2 H3]. unfold doOpen, get_qfd, deref, bind. rewrite Hp.
  unfold with_os. destruct (myOpen_total (q_path d) (q_oflag d) (q_mode d) (qu_os q))
    as ([e|fd] & o & Ho); rewrite Ho.
  - intros [= <- <-]. split_and!; [|done|done]. split; simpl; try done.
    unfold open_count in *. simpl. lia.
  - apply myOpen_law in Ho. intros [= <- <-].
    assert (open_count (set_qfds (<[p := qfd_set_fd fd d]> (qu_qfds q)) q) = open_count q + 1) as E.
    { rewrite open_count_insert, (open_count_lookup q p d Hp), Hd.
      replace (isOpen (qfd_set_fd fd d)) with true; [simpl; lia|].
      unfold isOpen. simpl. symmetry. apply Z.ltb_lt. lia. }
    split_and!; [|done|exact E]. split; simpl; [|done|done].
    change (open_count _) with (open_count (set_qfds (<[p := qfd_set_fd fd d]> (qu_qfds q)) q)).
    rewrite E. lia.
Qed.

Lemma new_qfd_ok q i p path oflag mode q' :
  fds_ok q -> qu_qfds q !! p = None -> new_qfd i p path oflag mode q = Ok (tt, q') -> fds_ok q'.
Proof.
  intros [H1 H2 H3] Hp. unfold new_qfd, put_qfd. unfold bind at 1, modify.
  set (d := mk_qfd path oflag mode NEVER_OPENED_VAL).
  set (q1 := set_qfds (<[p := d]> (qu_qfds q)) q).
  assert (open_count q1 = open_count q) as E1.
  { unfold q1. rewrite open_count_insert. unfold open_count. simpl. by rewrite delete_id. }
  assert (fds_ok q1) as Hq1 by (split; [by rewrite E1|done|done]).
  intros H. apply bind_inv in H as (b & q2 & Hres & H).
  destruct (reserve_ok _ _ _ _ _ Hq1 Hres) as (Em & _ & Hb). destruct b; [|injection H as <-; by rewrite Hb].
  apply bind_inv in H as (r & q3 & Ho & [= <-]). destruct Hb as [Hb _].
  destruct (doOpen_ok q2 p d r q3 Hb) as (Hq3 & _); [|done|done|done].
  rewrite Em. apply lookup_insert_eq.
Qed.

Lemma reserve_loop_inv fuel (q : queue W) u q' : reserve_loop fuel q = Ok (u, q') -> exists n, q' = set_fdsUsed n q.
Proof.
  induction fuel as [|n IH]; cbn [reserve_loop]; [done|]. intros H.
  apply bind_inv in H as (b & q1 & Hr & H).
  unfold reserveFileDescriptor, bind, gets, modify, ret in Hr.
  destruct (_ || _); injection Hr as <- <-; [by apply IH|]. injection H as <-. by eexists.
Qed.

Lemma reserve_loop_ok q fuel q' :
  fds_ok q -> reserve_loop fuel q = Ok (tt, q') ->
  fds_reserved q' /\ qu_qfds q' = qu_qfds q.
Proof.
  revert q. induction fuel as [|n IH]; intros q Hq; [done|]. cbn [reserve_loop]. intros H.
  apply bind_inv in H as (b & q1 & Hres & H).
  destruct (reserve_ok _ _ _ _ _ Hq Hres) as (Em & _ & Hb). destruct b.
  - injection H as <-. by destruct Hb.
  - subst q1. by apply IH.
Qed.

Lemma ensure_ok q fuel p r q' :
  fds_ok q -> ensureOpened fuel p q = Ok (r, q') -> fds_ok q'.
Proof.
  intros Hq H. unfold ensureOpened in H. apply bind_inv in H as (d & q1 & Hd & H).
  unfold get_qfd, deref in Hd. destruct (qu_qfds q !! p) as [d0|] eqn:Hp; [|done].
  injection Hd as -> <-. apply bind_inv in H as ([] & q1 & Ha & H).
  unfold assert in Ha. destruct (negb _); [|done]. injection Ha as <-.
  destruct (Z.eqb_spec (q_fd d) NEVER_OPENED_VAL) as [E|E].
  - apply bind_inv in H as ([] & q1 & Hl & H).
    destruct (reserve_loop_ok _ _ _ Hq Hl) as [Hr Em].
    destruct (doOpen_ok q1 p d r q' Hr) as (Hq' & _); [by rewrite Em| |done|done].
    unfold isOpen. rewrite E. done.
  - by injection H as _ <-.
Qed.

Lemma fd_step_ok q q' : fds_ok q -> fd_step q q' -> fds_ok q'.
Proof.
  intros Hq Hs. destruct Hs as [q q' i p path oflag mode Hp H|q q' fuel p r H|q q' p d Hp Hd H
    |q q' p H].
  - by eapply new_qfd_ok.
  - by eapply ensure_ok.
  - destruct Hq as [H1 H2 H3]. pose proof (open_count_lookup q p d Hp) as Ho.
    rewrite Hd in Ho. cbn [Z.b2z] in Ho.
    pose proof (open_count_nonneg (set_qfds (delete p (qu_qfds q)) q)).
    unfold RESERVED_FD_COUNT in *.
    unfold notifyClosed, get_qfd, deref, put_qfd, bind, modify in H. rewrite Hp in H.
    injection H as <-. split; simpl; try done.
    + rewrite wrap_small by (unfold in_u; lia).
      change (open_count _) with
        (open_count (set_qfds (<[p := qfd_set_fd CLOSED_VAL d]> (qu_qfds q)) q)).
      rewrite open_count_insert. change (isOpen _) with false. unfold RESERVED_FD_COUNT.
      cbn [Z.b2z]. lia.
    + rewrite wrap_small by (unfold in_u; lia). lia.
  - unfold delete_qfd in H. apply bind_inv in H as (d & q1 & Hd & H).
    unfold get_qfd, deref in Hd. destruct (qu_qfds q !! p) as [d0|] eqn:Hp; [|done].
    injection Hd as -> <-. apply bind_inv in H as ([] & q1 & Ha & H).
    unfold assert in Ha. destruct (_ || _) eqn:Hb; [|done]. injection Ha as <-.
    injection H as <-. destruct Hq as [H1 H2 H3]. pose proof (open_count_lookup q p d Hp) as Ho.
    split; simpl; [|done|done].
    change (open_count _) with (open_count (set_qfds (delete p (qu_qfds q)) q)).
    destruct (isOpen d); cbn [Z.b2z] in Ho; lia.
Qed.
End lemmas.

(** ** Properties *)

(** C27: however the operations of the two threads on queue descriptors interleave,
    the descriptors open and the two the program reserves are covered by the
    reservations, and the reservations never exceed the cap. *)
Theorem fd_cap_respected (W : Type) (F : Files W) (q q' : queue W) :
  open_law F -> fds_ok q -> fd_steps q q' ->
  RESERVED_FD_COUNT + open_count q' <= fileDescriptorsUsed q' <= fileDescriptorCap q'.
Proof.
  intros HF Hq Hs. assert (fds_ok q') as [H1 H2 _].
  { induction Hs; eauto using fd_step_ok. }
  done.
Qed.

Lemma script_law : open_law ScriptFiles.
Proof.
  intros w path oflag mode w' v e. simpl.
  destruct (sc_opens w) as [|[e'|] l]; intros [= _ <- _]; [by right|by left|by right].
Qed.

(** A queue without objects, for the witnesses. *)
Definition empty_queue {W} (w : W) (cap used : Z) : queue W :=
  mk_queue (mk_ost w 0)
    (mk_ring (mk_sq 0 0 0 1 0 0 [] [] 0 0) (mk_cq 0 0 0 1 None 0 []) 0 0 0)
    (Heap.mk_heap [] 0 0 1 1) cap used (mk_counters 0 0 0 0 0) ∅ ∅ ∅.

Lemma fd_cap_respected_witness :
  let q := empty_queue (mk_script [] 0) 5 2 in
  exists q', new_qfd false 1 "a"%string 0 0 q = Ok (tt, q') /\
    RESERVED_FD_COUNT + open_count q' <= fileDescriptorsUsed q' <= fileDescriptorCap q'.
Proof.
  intros q. eexists. split; [reflexivity|].
  apply (fd_cap_respected script ScriptFiles q).
  - apply script_law.
  - split; by vm_compute.
  - eapply fd_next; [|apply fd_refl]. by apply (fd_new q _ false 1 "a"%string 0 0).
Defined.

(** A descriptor whose file cannot be opened takes two reservations it never
    gives back: one when it is created, where the failed open is ignored, and one
    when it is needed, although nothing is open and, being not open, it is never
    closed. *)
Theorem failed_open_leaks_reservations (W : Type) (F : Files W) (q : queue W) p path oflag mode
    fuel :
  fds_ok q -> qu_qfds q !! p = None ->
  fileDescriptorsUsed q < fileDescriptorCap q - RESERVED_HIGH_PRIORITY_FD_COUNT ->
  (forall s, exists e s', myOpen path oflag mode s = Ok (inl e, s')) ->
  exists q1 q2 e, new_qfd false p path oflag mode q = Ok (tt, q1) /\
    ensureOpened (S fuel) p q1 = Ok (Some e, q2) /\
    fileDescriptorsUsed q2 = fileDescriptorsUsed q + 2 /\ open_count q2 = open_count q /\
    qu_qfds q2 !! p = Some (mk_qfd path oflag mode NEVER_OPENED_VAL).
Proof.
  intros [H1 H2 H3] Hp Hroom Hfail. pose proof (open_count_nonneg q).
  unfold RESERVED_FD_COUNT, RESERVED_HIGH_PRIORITY_FD_COUNT in *.
  set (d := mk_qfd path oflag mode NEVER_OPENED_VAL). set (m := <[p := d]> (qu_qfds q)).
  assert (forall q', qu_qfds q' = m -> exists e o,
    doOpen p q' = Ok (Some e, set_os o q')) as Hop.
  { intros q' Hm. unfold doOpen, get_qfd, deref, bind, with_os. rewrite Hm.
    unfold m. rewrite lookup_insert_eq. simpl.
    destruct (Hfail (qu_os q')) as (e & o & ->). by exists e, o. }
  set (q1 := set_fdsUsed (fileDescriptorsUsed q + 1) (set_qfds m q)).
  destruct (Hop q1 eq_refl) as (e1 & o1 & Ho1).
  set (q2 := set_fdsUsed (fileDescriptorsUsed q + 2) (set_os o1 q1)).
  destruct (Hop q2 eq_refl) as (e2 & o2 & Ho2).
  exists (set_os o1 q1), (set_os o2 q2), e2. split_and!.
  - unfold new_qfd, put_qfd. unfold bind at 1, modify. fold d m.
    assert (reserveFileDescriptor false Low (set_qfds m q) = Ok (true, q1)) as Hr
      by (apply (reserve_run (set_qfds m q) Low); simpl; unfold RESERVED_HIGH_PRIORITY_FD_COUNT; lia).
    rewrite (bind_ok _ _ _ _ _ Hr). by rewrite (bind_ok _ _ _ _ _ Ho1).
  - assert (get_qfd p (set_os o1 q1) = Ok (d, set_os o1 q1)) as Hg.
    { unfold get_qfd, deref. simpl. unfold m. by rewrite lookup_insert_eq. }
    unfold ensureOpened. rewrite (bind_ok _ _ _ _ _ Hg). unfold bind at 1, assert. cbn [q_fd d].
    change (negb (NEVER_OPENED_VAL =? CLOSED_VAL)) with true. cbv iota beta.
    rewrite Z.eqb_refl.
    assert (reserve_loop (S fuel) (set_os o1 q1) = Ok (tt, q2)) as Hr.
    { cbn [reserve_loop].
      assert (reserveFileDescriptor false High (set_os o1 q1) =
        Ok (true, set_fdsUsed (fileDescriptorsUsed q + 1 + 1) (set_os o1 q1))) as Hr
        by (apply (reserve_run (set_os o1 q1) High); simpl; lia).
      rewrite (bind_ok _ _ _ _ _ Hr). unfold q2. by rewrite <- Z.add_assoc. }
    by rewrite (bind_ok _ _ _ _ _ Hr).
  - done.
  - change (open_count (set_os o2 q2)) with (open_count (set_qfds m q)). unfold m.
    rewrite open_count_insert. unfold open_count. simpl. by rewrite delete_id.
  - simpl. unfold m. apply lookup_insert_eq.
Qed.

(** The file does not exist. *)
Lemma failed_open_leaks_reservations_witness :
  exists q2 : queue Z, fileDescriptorsUsed q2 = 2 + 2 /\ open_count q2 = 0.
Proof.
  set (F := {| f_open := fun (w : Z) _ _ _ => (w, -1, ENOENT); f_close := fun w _ => (w, 0, 0) |}).
  destruct (failed_open_leaks_reservations Z F (empty_queue 0 6 2) 1 "gone"%string 0 0 0)
    as (q1 & q2 & e & _ & _ & Hu & Ho & _).
  - split; by vm_compute.
  - reflexivity.
  - reflexivity.
  - intros [w e]. exists (CouldntOpen "gone"%string ENOENT), (mk_ost w ENOENT). reflexivity.
  - exists q2. split; [exact Hu|]. rewrite Ho. reflexivity.
Defined.

(** When the reservations have reached the cap, opening a descriptor that was
    never opened does not return: its loop waits for a reservation to be given
    back, and only the thread that waits gives reservations back. *)
Theorem exhausted_cap_never_opens (W : Type) (F : Files W) (q : queue W) p d fuel :
  qu_qfds q !! p = Some d -> q_fd d = NEVER_OPENED_VAL ->
  fileDescriptorCap q <= fileDescriptorsUsed q ->
  ensureOpened fuel p q = NoFuel.
Proof.
  intros Hp Hd Hfull. unfold ensureOpened, get_qfd, deref, bind at 1. rewrite Hp.
  unfold bind at 1, assert. rewrite Hd. change (negb (NEVER_OPENED_VAL =? CLOSED_VAL)) with true.
  cbv iota beta. rewrite Z.eqb_refl.
  assert (reserve_loop fuel q = NoFuel) as E; [|unfold bind; by rewrite E].
  induction fuel as [|n IH]; [done|]. cbn [reserve_loop].
  unfold reserveFileDescriptor, bind, gets.
  by destruct (Z.leb_spec (fileDescriptorCap q) (fileDescriptorsUsed q)); [|lia].
Qed.

Lemma exhausted_cap_never_opens_witness :
  ensureOpened (F := ScriptFiles) 100 1
    (set_qfds {[1 := mk_qfd "a"%string 0 0 NEVER_OPENED_VAL]} (empty_queue (mk_script [] 0) 6 6))
    = NoFuel.
Proof.
  eapply (exhausted_cap_never_opens script ScriptFiles); [reflexivity|reflexivity|].
  by vm_compute.
Defined.
