(* ===== verification/Runner.v ===== *)
(** * One chunk of a copy (src/src/CopyRunner.cpp)

    The operations of [CopyRunner] on the queue's state.  [debug_assert] and
    [release_assert] are assertions.  [Config::DEBUG_COPY_OPS] is the constant
    [false]; the two switches that force partial reads and writes are parameters,
    with the values of [rand()] as arguments. *)

From stdpp Require Import gmap strings.
From S2P Require Import Prelude Abi Prep RingBuf Ring Os Util Heap CopyState FileDesc.

Record config : Type := mk_config {
  FORCE_PARTIAL_READS : bool;
  FORCE_PARTIAL_WRITES : bool;
}.

Inductive event_type : Type := EvRead | EvWrite.

(** [&this->eventDataBuffers[i]] as a [user_data] value: two per runner. *)
Definition event_addr (this : Z) (t : event_type) : Z :=
  u64 (2 * this + match t with EvRead => 0 | EvWrite => 1 end).

(** ** The decisions, as functions of the runner *)

Definition needsBuffer (r : CopyRunner) : bool := (buffer r =? 0) && (0 <? size r).

(** [bytesToRead] before the alignment: what is left, or a forced smaller part. *)
Definition bytes_to_read (cfg : config) (rnd : Z) (r : CopyRunner) : Z :=
  let n := u32 (offset r + size r - readOffset r) in
  if FORCE_PARTIAL_READS cfg && (0 <? n) then u32 (u32 (rnd) mod n + 1) else n.

Definition align_up (n a : Z) : Z :=
  if negb (n mod a =? 0) then u32 (u64 ((n / a + 1) * a)) else n.

Definition bytes_to_write (cfg : config) (rnd : Z) (r : CopyRunner) : Z :=
  let n := u32 (offset r + size r - writeOffset r) in
  if FORCE_PARTIAL_WRITES cfg then u32 rnd mod u32 (n + 1) else n.

(** The value [result] has after a forced partial read spoofed it. *)
Definition spoofed (cfg : config) (over result : Z) : Z :=
  if FORCE_PARTIAL_READS cfg && negb (over =? S32_MAX) && (0 <=? result)
     && ((over <? 0) || (over <=? result))
  then over else result.

(** [resultOverride] is reset when it was looked at. *)
Definition spent (cfg : config) (over : Z) : Z :=
  if FORCE_PARTIAL_READS cfg && negb (over =? S32_MAX) then S32_MAX else over.

(** The non-error case of a read completion: advance, and unless everything has
    been read, back up to an aligned offset. *)
Definition advance_read (result : Z) (r : CopyRunner) : CopyRunner :=
  let ro := s64 (readOffset r + result) in
  let bytesToRead := u32 (offset r + size r - ro) in
  r_set_readOffset
    (if negb (bytesToRead =? 0) then s64 (u64 ro / alignment r * alignment r) else ro) r.

(** ** Operations *)

Section runner.
Context {W : Type} {F : Files W}.

(** [new CopyRunner(...)] at the address [this]. *)
Definition create_runner (this src dst off sz align chunks : Z) : prog (queue W) unit :=
  do* put_runner this (new_runner src dst off sz align chunks) in
  on_counters (add_keepAlive 1).

Definition giveBuffer (this b : Z) : prog (queue W) unit :=
  let* r := get_runner this in
  do* assert (0 <? size r) in
  do* assert (buffer r =? 0) in
  let aligned := Z.land (u64 (b - 1 + alignment r)) (u64 (- alignment r)) in
  do* put_runner this (r_set_buffer b aligned r) in
  let* h := gets qu_heap in
  do* assert (aligned mod alignment r =? 0) in
  assert (aligned + size r <=? b + Heap.blockSize h).

(** [delete] of a runner. *)
Definition delete_runner (this : Z) : prog (queue W) unit :=
  let* r := get_runner this in
  do* assert (jobsRunning r =? 0) in
  do* (if negb (buffer r =? 0) then
         let* h := gets qu_heap in
         match Heap.returnBlock (buffer r) h with
         | Ok (_, h) => modify (set_heap h)
         | Fault f => raise f
         | NoFuel => no_fuel
         end
       else ret tt) in
  do* on_counters (add_keepAlive (-1)) in
  let* n := get_chunks (chunksRemaining r) in
  do* assert (1 <=? n) in
  do* modify (fun q => set_chunks (<[chunksRemaining r := n - 1]> (qu_chunks q)) q) in
  do* (if n - 1 =? 0 then
         do* delete_qfd (sourceFd r) in
         do* delete_qfd (destFd r) in
         modify (fun q => set_chunks (delete (chunksRemaining r) (qu_chunks q)) q)
       else ret tt) in
  modify (fun q => set_runners (delete this (qu_runners q)) q).

(** [while (!sqe) sqe = io_uring_get_sqe(...)] *)
Fixpoint sqe_loop (fuel : nat) : prog (queue W) Z :=
  match fuel with
  | O => no_fuel
  | S n =>
      let* ring := gets qu_ring in
      let '(slot, sq) := io_uring_get_sqe (r_sq ring) in
      do* modify (set_qring (set_sq sq ring)) in
      match slot with Some i => ret i | None => sqe_loop n end
  end.

Definition getSqe (fuel : nat) (this : Z) : prog (queue W) Z :=
  let* r := get_runner this in
  do* put_runner this (r_set_jobs (s32 (jobsRunning r + 1)) r) in
  do* on_counters (add_submissions 1) in
  sqe_loop fuel.

(** Filling the entry: the preparation and the stores that follow it. *)
Definition fill_sqe (slot : Z) (f : io_uring_sqe -> io_uring_sqe) : prog (queue W) unit :=
  let* ring := gets qu_ring in
  match zget (sq_sqes (r_sq ring)) slot with
  | None => raise OutOfBounds
  | Some e =>
      match sqe_store slot (f e) (r_sq ring) with
      | Some sq => modify (set_qring (set_sq sq ring))
      | None => raise OutOfBounds
      end
  end.

Definition close_one (p : Z) (result : option Error) : prog (queue W) (option Error) :=
  let* d := get_qfd p in
  if isOpen d then
    let* fd := getFd p in
    let* tmp := with_os (myClose fd) in
    do* notifyClosed p in
    ret (match result with Some e => Some e | None => tmp end)
  else ret result.

Definition handleFileClose (this : Z) : prog (queue W) (option Error) :=
  let* r := get_runner this in
  let* n := get_chunks (chunksRemaining r) in
  if n =? 1 then
    let* result := close_one (sourceFd r) None in
    close_one (destFd r) result
  else ret None.

Definition cleanupOnError (this : Z) : prog (queue W) unit :=
  do* handleFileClose this in ret tt.

Definition saveError (this : Z) (e : Error) : prog (queue W) unit :=
  let* r := get_runner this in
  match savedError r with
  | Some _ => ret tt
  | None => do* put_runner this (r_set_error (Some e) r) in cleanupOnError this
  end.

(** The loop over the two descriptors. *)
Definition open_both (fuel : nat) (r : CopyRunner) : prog (queue W) (option Error) :=
  let* result := ensureOpened fuel (sourceFd r) in
  match result with
  | Some e => ret (Some e)
  | None => ensureOpened fuel (destFd r)
  end.

Definition submit_read (fuel : nat) (this bytesToRead : Z) (forced : bool)
    : prog (queue W) unit :=
  let* slot := getSqe fuel this in
  let* r := get_runner this in
  let* fd := getFd (sourceFd r) in
  do* fill_sqe slot (io_uring_prep_read fd (bufferAligned r + readOffset r - offset r)
         (align_up bytesToRead (alignment r)) (readOffset r)) in
  do* fill_sqe slot (fun e => set_flags (Z.lor (sqe_flags e) IOSQE_IO_LINK) e) in
  do* fill_sqe slot (set_user_data (event_addr this EvRead)) in
  if forced then put_runner this (r_set_overrides (s32 bytesToRead) (writeOverride r) r)
  else ret tt.

Definition submit_write (cfg : config) (fuel : nat) (this rnd : Z) (forced : bool)
    : prog (queue W) unit :=
  let* slot := getSqe fuel this in
  let* r := get_runner this in
  do* (if forced then
         do* fill_sqe slot io_uring_prep_nop in
         put_runner this (r_set_overrides (readOverride r) (- ECANCELED) r)
       else
         let* fd := getFd (destFd r) in
         fill_sqe slot (io_uring_prep_write fd (bufferAligned r + writeOffset r - offset r)
           (bytes_to_write cfg rnd r) (writeOffset r))) in
  fill_sqe slot (set_user_data (event_addr this EvWrite)).

Definition submitReadWriteCommands (cfg : config) (fuel : nat) (this rnd1 rnd2 : Z)
    : prog (queue W) (option Error) :=
  let* r := get_runner this in
  let* result := open_both fuel r in
  match result with
  | Some e =>
      do* on_counters (add_failed (size r)) in
      do* cleanupOnError this in
      ret (Some e)
  | None =>
      do* assert (jobsRunning r =? 0) in
      do* assert (writeOffset r <=? offset r + size r) in
      let bytesToRead := bytes_to_read cfg rnd1 r in
      let readForcedPartial := bytesToRead <? offset r + size r - readOffset r in
      let forced := FORCE_PARTIAL_READS cfg && readForcedPartial in
      do* (if negb (bytesToRead =? 0) then submit_read fuel this bytesToRead forced else ret tt) in
      do* (if writeOffset r <? offset r + size r then submit_write cfg fuel this rnd2 forced
           else ret tt) in
      ret None
  end.

Definition addToBatch (cfg : config) (fuel : nat) (this rnd1 rnd2 : Z)
    : prog (queue W) (option Error) :=
  let* r := get_runner this in
  do* assert (negb (needsBuffer r)) in
  do* assert (match savedError r with None => true | Some _ => false end) in
  do* assert (writeOffset r <? offset r + size r) in
  submitReadWriteCommands cfg fuel this rnd1 rnd2.

Definition needsFileDescriptors (this : Z) : prog (queue W) bool :=
  let* r := get_runner this in
  let* s := get_qfd (sourceFd r) in
  if negb (isOpen s) then ret true
  else let* d := get_qfd (destFd r) in ret (negb (isOpen d)).

Inductive RunnerResult : Type :=
  | RError (e : Error)
  | RescheduleTag
  | FinishedTag
  | ContinueTag.

Definition on_read (this result : Z) : prog (queue W) unit :=
  let* r := get_runner this in
  let* s := get_qfd (sourceFd r) in
  do* (if result =? 0 then saveError this (FileShrank (q_path s)) else ret tt) in
  if result <? 0 then saveError this (ErrorReading (q_path s) (- result))
  else
    let* r := get_runner this in put_runner this (advance_read result r).

Definition on_write (this result : Z) : prog (queue W) unit :=
  let* r := get_runner this in
  if result <? 0 then
    if negb (result =? - ECANCELED) then
      let* d := get_qfd (destFd r) in saveError this (ErrorWriting (q_path d) (- result))
    else ret tt
  else
    do* put_runner this (r_set_writeOffset (s64 (writeOffset r + result)) r) in
    on_counters (add_copied result).

Definition onCompletionEvent (cfg : config) (this : Z) (t : event_type) (result : Z)
    : prog (queue W) RunnerResult :=
  let* r := get_runner this in
  let jobs := s32 (jobsRunning r - 1) in
  do* put_runner this (r_set_jobs jobs r) in
  do* assert (0 <=? jobs) in
  do* (match savedError r with
       | Some _ => ret tt
       | None =>
           match t with
           | EvRead =>
               let over := readOverride r in
               do* put_runner this (r_set_overrides (spent cfg over) (writeOverride r)
                                      (r_set_jobs jobs r)) in
               on_read this (spoofed cfg over result)
           | EvWrite =>
               let over := writeOverride r in
               do* put_runner this (r_set_overrides (readOverride r) (spent cfg over)
                                      (r_set_jobs jobs r)) in
               on_write this (spoofed cfg over result)
           end
       end) in
  let* r := get_runner this in
  do* assert (writeOffset r <=? offset r + size r) in
  if jobsRunning r =? 0 then
    match savedError r with
    | Some e =>
        (* the error is moved out of the optional, which stays engaged *)
        ret (RError e)
    | None =>
        if writeOffset r =? offset r + size r then ret FinishedTag else ret RescheduleTag
    end
  else ret ContinueTag.
End runner.
