(* ===== verification/RunnerData.v ===== *)
(** * What a chunk copies

    The data path of one [CopyRunner]: its read and write requests executed by a
    kernel that may return short counts and errors, with the write linked to the
    read, and its completion handler, in whatever order the completions arrive.
    File contents and the chunk's buffer are functions from offsets to bytes. *)

From stdpp Require Import gmap strings.
From S2P Require Import Prelude Abi Util CopyState Runner.

(** [completed]: the runner after [onCompletionEvent], descriptors apart. *)
Definition completed (cfg : config) (spath dpath : string) (t : event_type) (result : Z)
    (r : CopyRunner) : CopyRunner :=
  let r := r_set_jobs (s32 (jobsRunning r - 1)) r in
  match savedError r with
  | Some _ => r
  | None =>
      match t with
      | EvRead =>
          let result := spoofed cfg (readOverride r) result in
          let r := r_set_overrides (spent cfg (readOverride r)) (writeOverride r) r in
          if result =? 0 then advance_read 0 (r_set_error (Some (FileShrank spath)) r)
          else if result <? 0 then r_set_error (Some (ErrorReading spath (- result))) r
          else advance_read result r
      | EvWrite =>
          let result := spoofed cfg (writeOverride r) result in
          let r := r_set_overrides (readOverride r) (spent cfg (writeOverride r)) r in
          if result <? 0 then
            if negb (result =? - ECANCELED)
            then r_set_error (Some (ErrorWriting dpath (- result))) r else r
          else r_set_writeOffset (s64 (writeOffset r + result)) r
      end
  end.

(** The end of the chunk. *)
Definition chunk_end (r : CopyRunner) : Z := offset r + size r.

(** [readForcedPartial], under the switch. *)
Definition forced_partial (cfg : config) (rnd : Z) (r : CopyRunner) : bool :=
  FORCE_PARTIAL_READS cfg && (bytes_to_read cfg rnd r <? chunk_end r - readOffset r).

(** The runner after [submitReadWriteCommands] queued its entries. *)
Definition submitted (cfg : config) (rnd : Z) (r : CopyRunner) : CopyRunner :=
  let n := bytes_to_read cfg rnd r in
  let forced := forced_partial cfg rnd r in
  let r1 :=
    if negb (n =? 0) then
      let r := r_set_jobs (s32 (jobsRunning r + 1)) r in
      if forced then r_set_overrides (s32 n) (writeOverride r) r else r
    else r in
  if writeOffset r1 <? chunk_end r1 then
    let r := r_set_jobs (s32 (jobsRunning r1 + 1)) r1 in
    if forced then r_set_overrides (readOverride r) (- ECANCELED) r else r
  else r1.

Definition bytes := Z -> Z.
Definition splice (f : bytes) (at_ n : Z) (g : bytes) : bytes :=
  fun k => if (at_ <=? k) && (k <? at_ + n) then g k else f k.

Record chan : Type := mk_chan {
  c_runner : CopyRunner;
  c_buf : bytes;     (** relative to [bufferAligned] *)
  c_dst : bytes;
  c_pend : list (event_type * Z);
}.

Section data.
Context (cfg : config) (spath dpath : string).
(** The source file: its bytes and its length. *)
Context (src : bytes) (srclen : Z).

(** read(2) of [len] bytes at [ro] into the buffer: result, buffer, and whether it
    severs the link (it failed or was short). *)
Inductive exec_read (r : CopyRunner) (len : Z) (buf : bytes) : Z -> bytes -> bool -> Prop :=
  | read_fails e : e < 0 -> exec_read r len buf e buf true
  | read_returns n :
      0 <= n <= len -> n = 0 \/ readOffset r + n <= srclen ->
      exec_read r len buf n
        (splice buf (readOffset r - offset r) n (fun k => src (k + offset r))) (n <? len).

(** write(2) of [len] bytes of the buffer at [wo]. *)
Inductive exec_write (r : CopyRunner) (len : Z) (buf dst : bytes) : Z -> bytes -> Prop :=
  | write_fails e : e < 0 -> exec_write r len buf dst e dst
  | write_returns n :
      0 <= n <= len ->
      exec_write r len buf dst n (splice dst (writeOffset r) n (fun k => buf (k - offset r))).

(** The second entry: a no-op when a partial read is forced. *)
Inductive exec_second (rnd : Z) (forced : bool) (r : CopyRunner) (buf dst : bytes)
    : Z -> bytes -> Prop :=
  | second_nop : forced = true -> exec_second rnd forced r buf dst 0 dst
  | second_write res dst' :
      forced = false -> exec_write r (bytes_to_write cfg rnd r) buf dst res dst' ->
      exec_second rnd forced r buf dst res dst'.

Inductive chan_step : chan -> chan -> Prop :=
  | step_submit_both r buf dst rnd1 rnd2 res buf' severed wres dst' :
      savedError r = None -> writeOffset r < chunk_end r ->
      bytes_to_read cfg rnd1 r <> 0 ->
      exec_read r (align_up (bytes_to_read cfg rnd1 r) (alignment r)) buf res buf' severed ->
      (if severed then wres = - ECANCELED /\ dst' = dst
       else exec_second rnd2 (forced_partial cfg rnd1 r) r buf' dst wres dst') ->
      chan_step (mk_chan r buf dst [])
        (mk_chan (submitted cfg rnd1 r) buf' dst' [(EvRead, res); (EvWrite, wres)])
  | step_submit_write r buf dst rnd1 rnd2 wres dst' :
      savedError r = None -> writeOffset r < chunk_end r ->
      bytes_to_read cfg rnd1 r = 0 ->
      exec_second rnd2 (forced_partial cfg rnd1 r) r buf dst wres dst' ->
      chan_step (mk_chan r buf dst [])
        (mk_chan (submitted cfg rnd1 r) buf dst' [(EvWrite, wres)])
  | step_complete r buf dst p1 t res p2 :
      chan_step (mk_chan r buf dst (p1 ++ (t, res) :: p2))
        (mk_chan (completed cfg spath dpath t res r) buf dst (p1 ++ p2)).

Inductive chan_steps : chan -> chan -> Prop :=
  | chan_refl c : chan_steps c c
  | chan_next c c1 c2 : chan_step c c1 -> chan_steps c1 c2 -> chan_steps c c2.

(** ** Invariant *)

(** Chunks as [addCopyJob] makes them, of a file of [srclen] bytes. *)
Record chunk_ok (r : CopyRunner) : Prop := {
  ck_align : 0 < alignment r;
  ck_offset : 0 <= offset r /\ offset r mod alignment r = 0;
  ck_size : 0 < size r /\ size r + alignment r < 2 ^ 31;
  ck_end : chunk_end r < 2 ^ 62;
  ck_src : chunk_end r <= srclen;
  ck_last : chunk_end r = srclen \/ chunk_end r mod alignment r = 0;
}.

(** The effective results of the completions still to come. *)
Definition read_result (r : CopyRunner) (res : Z) : Z := spoofed cfg (readOverride r) res.
Definition write_result (r : CopyRunner) (res : Z) : Z := spoofed cfg (writeOverride r) res.

Definition copied_to (r : CopyRunner) (f : bytes) (base upto : Z) : Prop :=
  forall k, offset r <= k < upto -> f (k - base) = src k.

(** What holds of the completions to come: at most one of each kind, in any order. *)
Definition pending_ok (r : CopyRunner) (buf dst : bytes) (pend : list (event_type * Z)) : Prop :=
  NoDup (fst <$> pend) /\
  (forall res, (EvRead, res) ∈ pend ->
     let n := read_result r res in
     0 <= n -> readOffset r + n <= chunk_end r /\ copied_to r buf (offset r) (readOffset r + n)) /\
  (forall res, (EvWrite, res) ∈ pend ->
     let n := write_result r res in
     0 <= n -> writeOffset r + n <= chunk_end r /\ copied_to r dst 0 (writeOffset r + n)).

(** What the steps keep about the requests and counters. *)
Record core (r : CopyRunner) (buf dst : bytes) (pend : list (event_type * Z)) : Prop := {
  co_jobs : jobsRunning r = zlen pend;
  co_ro : offset r <= readOffset r <= chunk_end r;
  co_ro_align : readOffset r = chunk_end r \/ readOffset r mod alignment r = 0;
  co_wo : offset r <= writeOffset r <= chunk_end r;
  co_buf : copied_to r buf (offset r) (readOffset r);
  co_dst : copied_to r dst 0 (writeOffset r);
  co_pend : pending_ok r buf dst pend;
  co_rover : EvRead ∉ (fst <$> pend) \/ FORCE_PARTIAL_READS cfg = false ->
    readOverride r = S32_MAX;
  co_wover : EvWrite ∉ (fst <$> pend) \/ FORCE_PARTIAL_READS cfg = false ->
    writeOverride r = S32_MAX;
}.

Lemma spoofed_max result : spoofed cfg S32_MAX result = result.
Proof. unfold spoofed. rewrite Z.eqb_refl. simpl. by rewrite andb_false_r. Qed.

Lemma spoofed_neg over result : result < 0 -> spoofed cfg over result = result.
Proof.
  intros H. unfold spoofed. destruct (Z.leb_spec 0 result); [lia|].
  by rewrite andb_false_r.
Qed.

Lemma spoofed_le over result : 0 <= result -> spoofed cfg over result <= result.
Proof.
  intros H. unfold spoofed.
  destruct (FORCE_PARTIAL_READS cfg && negb (over =? S32_MAX) && (0 <=? result)); simpl; [|lia].
  destruct (Z.ltb_spec over 0); simpl; [lia|]. case_z; lia.
Qed.

Lemma spoofed_le_over over result :
  FORCE_PARTIAL_READS cfg = true -> over <> S32_MAX -> 0 <= result ->
  spoofed cfg over result <= over \/ (0 <= over /\ result < over).
Proof.
  intros Hf Ho Hr. unfold spoofed. rewrite Hf. destruct (Z.eqb_spec over S32_MAX); [done|].
  destruct (Z.leb_spec 0 result); [|lia]. simpl.
  destruct (Z.ltb_spec over 0); simpl; [lia|]. case_z; lia.
Qed.

Lemma spent_max over :
  FORCE_PARTIAL_READS cfg = true \/ over = S32_MAX -> spent cfg over = S32_MAX.
Proof.
  intros H. unfold spent. destruct (Z.eqb_spec over S32_MAX) as [->|Hne].
  - by rewrite andb_false_r.
  - destruct H as [-> | ?]; done.
Qed.

Lemma align_up_spec n a :
  0 < a -> 0 <= n -> n + a < 2 ^ 31 ->
  n <= align_up n a < 2 ^ 31 /\ (n mod a = 0 -> align_up n a = n).
Proof.
  intros Ha Hn Hb. unfold align_up. pose proof (Z.div_mod n a ltac:(lia)) as Hd.
  pose proof (Z.mod_pos_bound n a Ha).
  destruct (Z.eqb_spec (n mod a) 0); simpl; [lia|].
  assert ((n / a + 1) * a = n - n mod a + a) as -> by nia.
  rewrite !wrap_small by (unfold in_u; rewrite ?wrap_small by (unfold in_u; lia); lia). lia.
Qed.

Section runner.
Context (r : CopyRunner) (Hck : chunk_ok r).

Lemma read_left :
  offset r <= readOffset r <= chunk_end r ->
  u32 (offset r + size r - readOffset r) = chunk_end r - readOffset r.
Proof.
  intros H. destruct Hck as [Ha _ [Hs1 Hs2] _ _ _]. unfold chunk_end in *.
  apply wrap_small. unfold in_u. lia.
Qed.

Lemma bytes_to_read_spec rnd :
  offset r <= readOffset r <= chunk_end r ->
  let n := bytes_to_read cfg rnd r in
  0 <= n <= chunk_end r - readOffset r /\ (n = 0 <-> readOffset r = chunk_end r) /\
  (FORCE_PARTIAL_READS cfg = false -> n = chunk_end r - readOffset r).
Proof.
  intros H. unfold bytes_to_read. rewrite read_left by done.
  set (m := chunk_end r - readOffset r). assert (0 <= m < 2 ^ 31) as Hm.
  { destruct Hck as [Ha _ [Hs1 Hs2] _ _ _]. unfold m, chunk_end in *. lia. }
  destruct (FORCE_PARTIAL_READS cfg); simpl; [|lia].
  destruct (Z.ltb_spec 0 m); simpl; [|lia].
  pose proof (Z.mod_pos_bound (u32 rnd) m ltac:(lia)).
  rewrite wrap_small by (unfold in_u; lia). lia.
Qed.

Lemma bytes_to_write_spec rnd :
  offset r <= writeOffset r <= chunk_end r ->
  0 <= bytes_to_write cfg rnd r <= chunk_end r - writeOffset r.
Proof.
  intros H. destruct Hck as [Ha _ [Hs1 Hs2] _ _ _]. unfold bytes_to_write, chunk_end in *.
  rewrite (wrap_small 32 (offset r + size r - writeOffset r)) by (unfold in_u; lia).
  destruct (FORCE_PARTIAL_WRITES cfg); [|lia].
  rewrite (wrap_small 32 (offset r + size r - writeOffset r + 1)) by (unfold in_u; lia).
  pose proof (Z.mod_pos_bound (u32 rnd) (offset r + size r - writeOffset r + 1) ltac:(lia)). lia.
Qed.

(** A read request never asks past the end of a chunk that is not the last one, so
    its result stays in the chunk. *)
Lemma read_stays rnd n :
  offset r <= readOffset r <= chunk_end r ->
  readOffset r = chunk_end r \/ readOffset r mod alignment r = 0 ->
  FORCE_PARTIAL_READS cfg = false \/ bytes_to_read cfg rnd r = chunk_end r - readOffset r ->
  0 <= n <= align_up (bytes_to_read cfg rnd r) (alignment r) ->
  n = 0 \/ readOffset r + n <= srclen ->
  readOffset r + n <= chunk_end r.
Proof.
  intros Hro Hal Hfull Hn Hsrc. destruct (bytes_to_read_spec rnd Hro) as (Hb & _ & Hf).
  assert (bytes_to_read cfg rnd r = chunk_end r - readOffset r) as E by (destruct Hfull; auto).
  destruct Hck as [Ha _ [Hs1 Hs2] _ Hsl [Hlast|Hlast]]; [lia|].
  destruct Hal as [Hal|Hal].
  { rewrite E, Hal, Z.sub_diag in Hn. unfold align_up in Hn. rewrite Zmod_0_l in Hn.
    simpl in Hn. lia. }
  destruct (align_up_spec (bytes_to_read cfg rnd r) (alignment r) Ha) as [_ Hex];
    [lia|unfold chunk_end in *; lia|].
  rewrite Hex in Hn; [lia|]. rewrite E, Zminus_mod, Hal, Hlast. by rewrite Zmod_0_l.
Qed.
End runner.

(** ** Submitting *)

Lemma copied_splice_read r buf n m :
  offset r <= readOffset r -> copied_to r buf (offset r) (readOffset r) -> m <= n ->
  copied_to r (splice buf (readOffset r - offset r) n (fun k => src (k + offset r)))
    (offset r) (readOffset r + m).
Proof.
  intros Ho Hb Hm k Hk. unfold splice.
  destruct (Z.leb_spec (readOffset r - offset r) (k - offset r)); simpl.
  - destruct (Z.ltb_spec (k - offset r) (readOffset r - offset r + n)); [|lia].
    f_equal. lia.
  - apply Hb. lia.
Qed.

Lemma copied_splice_write r buf dst n :
  offset r <= writeOffset r -> copied_to r dst 0 (writeOffset r) ->
  copied_to r buf (offset r) (writeOffset r + n) ->
  copied_to r (splice dst (writeOffset r) n (fun k => buf (k - offset r))) 0 (writeOffset r + n).
Proof.
  intros Ho Hd Hb k Hk. unfold splice. rewrite Z.sub_0_r.
  destruct (Z.leb_spec (writeOffset r) k); simpl.
  - destruct (Z.ltb_spec k (writeOffset r + n)); [|lia]. by apply Hb.
  - specialize (Hd k). rewrite Z.sub_0_r in Hd. apply Hd. lia.
Qed.

(** A read that is not forced to be partial asks for everything left. *)
Lemma not_forced r rnd :
  chunk_ok r -> offset r <= readOffset r <= chunk_end r -> forced_partial cfg rnd r = false ->
  bytes_to_read cfg rnd r = chunk_end r - readOffset r.
Proof.
  intros Hck Hro Hf. destruct (bytes_to_read_spec r Hck rnd Hro) as (Hb & _ & Hn).
  unfold forced_partial in Hf. destruct (FORCE_PARTIAL_READS cfg); [|auto].
  simpl in Hf. apply Z.ltb_ge in Hf. lia.
Qed.

(** The effective result of the read, and what is in the buffer up to there. *)
Lemma read_effect r buf rnd res buf' severed :
  chunk_ok r -> offset r <= readOffset r <= chunk_end r ->
  readOffset r = chunk_end r \/ readOffset r mod alignment r = 0 ->
  copied_to r buf (offset r) (readOffset r) ->
  exec_read r (align_up (bytes_to_read cfg rnd r) (alignment r)) buf res buf' severed ->
  let over := if forced_partial cfg rnd r then s32 (bytes_to_read cfg rnd r) else S32_MAX in
  let n := spoofed cfg over res in
  (0 <= n -> readOffset r + n <= chunk_end r /\ copied_to r buf' (offset r) (readOffset r + n)) /\
  (severed = false -> forced_partial cfg rnd r = false ->
     copied_to r buf' (offset r) (chunk_end r)).
Proof.
  intros Hck Hro Hal Hbuf Hex over n.
  pose proof (bytes_to_read_spec r Hck rnd Hro) as (Hb & Hb0 & _).
  pose proof (ck_align _ Hck) as Ha. pose proof (ck_size _ Hck) as [Hs1 Hs2].
  assert (bytes_to_read cfg rnd r + alignment r < 2 ^ 31) as Hlt by (unfold chunk_end in *; lia).
  destruct (align_up_spec _ (alignment r) Ha (proj1 Hb) Hlt) as [Hup _].
  inversion Hex as [e He|m Hm Hsrc]; subst; clear Hex.
  - split; [|done]. unfold n. rewrite spoofed_neg by done. lia.
  - assert (n <= res) as Hnm by (apply spoofed_le; lia). split.
    + intros Hn. split; [|apply copied_splice_read; [lia|done|done]].
      destruct (forced_partial cfg rnd r) eqn:Hf.
      * unfold forced_partial in Hf. apply andb_prop in Hf as [Hf1 Hf2]. apply Z.ltb_lt in Hf2.
        assert (n = spoofed cfg (bytes_to_read cfg rnd r) res) as En.
        { unfold n, over. by rewrite sext_small by (lia || (unfold in_s; lia)). }
        destruct (spoofed_le_over (bytes_to_read cfg rnd r) res Hf1) as [?|?];
          [unfold S32_MAX; lia|lia|lia|lia].
      * unfold n, over in *. rewrite spoofed_max in *.
        apply (read_stays r Hck rnd); try done. right. by apply not_forced.
    + intros Hsev Hf. apply Z.ltb_ge in Hsev.
      pose proof (not_forced r rnd Hck Hro Hf) as E.
      assert (chunk_end r = readOffset r + (chunk_end r - readOffset r)) as -> by lia.
      apply copied_splice_read; [lia|done|lia].
Qed.

(** The second entry of a round. *)
Lemma second_effect r buf dst rnd1 rnd2 res dst' :
  chunk_ok r -> offset r <= writeOffset r <= chunk_end r ->
  copied_to r dst 0 (writeOffset r) ->
  (forced_partial cfg rnd1 r = false -> copied_to r buf (offset r) (chunk_end r)) ->
  exec_second rnd2 (forced_partial cfg rnd1 r) r buf dst res dst' ->
  let over := if forced_partial cfg rnd1 r then - ECANCELED else S32_MAX in
  let n := spoofed cfg over res in
  (0 <= n -> writeOffset r + n <= chunk_end r /\ copied_to r dst' 0 (writeOffset r + n)) /\
  copied_to r dst' 0 (writeOffset r) /\
  (forall k, ~ (offset r <= k < chunk_end r) -> dst' k = dst k).
Proof.
  intros Hck Hwo Hd Hb Hex over n.
  pose proof (bytes_to_write_spec r Hck rnd2 Hwo) as Hbw.
  inversion Hex as [Hf|res' d' Hf Hw]; subst; clear Hex.
  - split_and!; [|done|done]. unfold n, over. rewrite Hf. unfold forced_partial in Hf.
    apply andb_prop in Hf as [Hf _]. unfold spoofed. rewrite Hf.
    change (negb (- ECANCELED =? S32_MAX)) with true. simpl. unfold ECANCELED. lia.
  - assert (n = res) as -> by (unfold n, over; rewrite Hf; apply spoofed_max).
    inversion Hw as [e He|m Hm]; subst; clear Hw.
    + split_and!; [lia|done|done].
    + specialize (Hb Hf).
      assert (copied_to r (splice dst (writeOffset r) res (fun k => buf (k - offset r))) 0
        (writeOffset r + res)) as Hc.
      { apply copied_splice_write; [lia|done|]. intros k Hk. apply Hb. lia. }
      split_and!.
      * intros _. split; [lia|done].
      * intros k Hk. apply Hc. lia.
      * intros k Hk. unfold splice. destruct (Z.leb_spec (writeOffset r) k); simpl; [|done].
        by destruct (Z.ltb_spec k (writeOffset r + res)); [lia|].
Qed.

(** ** The invariant is kept *)

(** The chunk a runner copies. *)
Definition same_chunk (r r' : CopyRunner) : Prop :=
  offset r' = offset r /\ size r' = size r /\ alignment r' = alignment r.

Lemma same_chunk_ok r r' : same_chunk r r' -> chunk_ok r -> chunk_ok r'.
Proof.
  intros (E1 & E2 & E3) [H1 H2 H3 H4 H5 H6].
  split; unfold chunk_end in *; rewrite ?E1, ?E2, ?E3; done.
Qed.

Lemma same_chunk_trans r1 r2 r3 : same_chunk r1 r2 -> same_chunk r2 r3 -> same_chunk r1 r3.
Proof. unfold same_chunk. intros (?&?&?) (?&?&?). split_and!; congruence. Qed.

Record chan_inv (r0 : CopyRunner) (dst0 : bytes) (c : chan) : Prop := {
  ci_chunk : same_chunk r0 (c_runner c);
  ci_out : forall k, ~ (offset r0 <= k < chunk_end r0) -> c_dst c k = dst0 k;
  ci_len : zlen (c_pend c) <= 2;
  ci_jobs : jobsRunning (c_runner c) = zlen (c_pend c);
  ci_wo : offset r0 <= writeOffset (c_runner c) <= chunk_end r0;
  ci_dst : forall k, offset r0 <= k < writeOffset (c_runner c) -> c_dst c k = src k;
  ci_core : savedError (c_runner c) = None ->
    core (c_runner c) (c_buf c) (c_dst c) (c_pend c);
}.

Lemma submitted_fields r rnd :
  writeOffset r < chunk_end r -> jobsRunning r = 0 ->
  let r' := submitted cfg rnd r in
  let n := bytes_to_read cfg rnd r in
  same_chunk r r' /\ readOffset r' = readOffset r /\ writeOffset r' = writeOffset r /\
  savedError r' = savedError r /\ jobsRunning r' = (if n =? 0 then 1 else 2) /\
  readOverride r' =
    (if negb (n =? 0) && forced_partial cfg rnd r then s32 n else readOverride r) /\
  writeOverride r' = (if forced_partial cfg rnd r then - ECANCELED else writeOverride r).
Proof.
  intros Hw Hj r' n. unfold r', submitted. fold n. rewrite Hj.
  destruct (Z.eqb_spec n 0); simpl.
  - destruct (Z.ltb_spec (writeOffset r) (chunk_end r)); [|lia].
    rewrite Hj. by destruct (forced_partial cfg rnd r).
  - set (r1 := if forced_partial cfg rnd r then _ else _).
    assert ((writeOffset r1 <? chunk_end r1) = true) as ->.
    { unfold r1. apply Z.ltb_lt. by destruct (forced_partial cfg rnd r). }
    unfold r1. by destruct (forced_partial cfg rnd r).
Qed.

Lemma pend_two r buf dst a b :
  pending_ok r buf dst [(EvRead, a); (EvWrite, b)] <->
  (0 <= read_result r a -> readOffset r + read_result r a <= chunk_end r /\
     copied_to r buf (offset r) (readOffset r + read_result r a)) /\
  (0 <= write_result r b -> writeOffset r + write_result r b <= chunk_end r /\
     copied_to r dst 0 (writeOffset r + write_result r b)).
Proof.
  unfold pending_ok. split.
  - intros (_ & H1 & H2). split; [apply H1|apply H2]; set_solver.
  - intros (H1 & H2). split_and!.
    + simpl. repeat constructor; set_solver.
    + intros res Hin. apply elem_of_cons in Hin as [[= ->]|Hin]; [done|]. set_solver.
    + intros res Hin. apply elem_of_cons in Hin as [[=]|Hin].
      apply elem_of_cons in Hin as [[= ->]|Hin]; [done|]. set_solver.
Qed.

Lemma pend_write r buf dst b :
  pending_ok r buf dst [(EvWrite, b)] <->
  (0 <= write_result r b -> writeOffset r + write_result r b <= chunk_end r /\
     copied_to r dst 0 (writeOffset r + write_result r b)).
Proof.
  unfold pending_ok. split.
  - intros (_ & _ & H2). apply H2. set_solver.
  - intros H2. split_and!.
    + simpl. repeat constructor; set_solver.
    + intros res Hin. apply elem_of_cons in Hin as [[=]|Hin]. set_solver.
    + intros res Hin. apply elem_of_cons in Hin as [[= ->]|Hin]; [done|]. set_solver.
Qed.

Lemma copied_same r r' f base upto :
  same_chunk r r' -> copied_to r' f base upto <-> copied_to r f base upto.
Proof. intros (E & _ & _). unfold copied_to. by rewrite E. Qed.

Lemma chunk_end_same r r' : same_chunk r r' -> chunk_end r' = chunk_end r.
Proof. intros (E1 & E2 & _). unfold chunk_end. by rewrite E1, E2. Qed.

Lemma submit_both_core r buf dst rnd1 rnd2 res buf' severed wres dst' :
  chunk_ok r -> core r buf dst [] -> writeOffset r < chunk_end r ->
  bytes_to_read cfg rnd1 r <> 0 ->
  exec_read r (align_up (bytes_to_read cfg rnd1 r) (alignment r)) buf res buf' severed ->
  (if severed then wres = - ECANCELED /\ dst' = dst
   else exec_second rnd2 (forced_partial cfg rnd1 r) r buf' dst wres dst') ->
  core (submitted cfg rnd1 r) buf' dst' [(EvRead, res); (EvWrite, wres)] /\
  (forall k, ~ (offset r <= k < chunk_end r) -> dst' k = dst k).
Proof.
  intros Hck [C1 C2 C3 C4 C5 C6 _ C8 C9] Hw Hn Hrd Hwr.
  assert (readOverride r = S32_MAX) as Er by (apply C8; left; apply not_elem_of_nil).
  assert (writeOverride r = S32_MAX) as Ew by (apply C9; left; apply not_elem_of_nil).
  destruct (submitted_fields r rnd1 Hw C1) as (Hs & Ero & Ewo & _ & Ej & Erv & Ewv).
  set (r' := submitted cfg rnd1 r) in *. pose proof (chunk_end_same _ _ Hs) as Ee.
  destruct (Z.eqb_spec (bytes_to_read cfg rnd1 r) 0); [done|]. simpl in Ej, Erv.
  destruct (read_effect r buf rnd1 res buf' severed Hck C2 C3 C5 Hrd) as [Hread Hfull].
  cbv zeta in Hread. rewrite <- Er, <- Erv in Hread.
  assert ((0 <= write_result r' wres -> writeOffset r + write_result r' wres <= chunk_end r /\
     copied_to r dst' 0 (writeOffset r + write_result r' wres)) /\
     copied_to r dst' 0 (writeOffset r) /\
     (forall k, ~ (offset r <= k < chunk_end r) -> dst' k = dst k)) as (Hw1 & Hw2 & Hw3).
  { unfold write_result. rewrite Ewv, Ew. destruct severed.
    - destruct Hwr as [-> ->]. split_and!; [|done|done].
      rewrite spoofed_neg; unfold ECANCELED; lia.
    - apply (second_effect r buf' dst rnd1 rnd2 wres dst'); auto. }
  split; [|done]. destruct Hs as (E1 & E2 & E3) eqn:HsE.
  assert (same_chunk r r') as Hs' by done.
  assert (offset r <= readOffset r /\ copied_to r buf' (offset r) (readOffset r)) as [_ Hbuf].
  { split; [lia|]. inversion Hrd; subst; [done|].
    pose proof (copied_splice_read r buf res 0 ltac:(lia) C5 ltac:(lia)) as Hc.
    by rewrite Z.add_0_r in Hc. }
  split; rewrite ?Ero, ?Ewo, ?Ee, ?E1, ?E3; try done.
  - unfold copied_to. rewrite E1. exact Hbuf.
  - by apply (copied_same r r').
  - apply pend_two. unfold read_result. rewrite Ero, Ewo, Ee, E1.
    split; [|].
    + intros Hn0. destruct (Hread Hn0) as [? Hc]. split; [done|]. by apply (copied_same r r').
    + intros Hn0. destruct (Hw1 Hn0) as [? Hc]. split; [done|]. by apply (copied_same r r').
  - intros [Hni|Hf]; [exfalso; apply Hni; simpl; left|].
    rewrite Erv. unfold forced_partial. by rewrite Hf.
  - intros [Hni|Hf]; [exfalso; apply Hni; simpl; right; left|].
    rewrite Ewv. unfold forced_partial. by rewrite Hf.
Qed.

Lemma submit_write_core r buf dst rnd1 rnd2 wres dst' :
  chunk_ok r -> core r buf dst [] -> writeOffset r < chunk_end r ->
  bytes_to_read cfg rnd1 r = 0 ->
  exec_second rnd2 (forced_partial cfg rnd1 r) r buf dst wres dst' ->
  core (submitted cfg rnd1 r) buf dst' [(EvWrite, wres)] /\
  (forall k, ~ (offset r <= k < chunk_end r) -> dst' k = dst k).
Proof.
  intros Hck [C1 C2 C3 C4 C5 C6 _ C8 C9] Hw Hn Hwr.
  assert (readOverride r = S32_MAX) as Er by (apply C8; left; apply not_elem_of_nil).
  assert (writeOverride r = S32_MAX) as Ew by (apply C9; left; apply not_elem_of_nil).
  destruct (submitted_fields r rnd1 Hw C1) as (Hs & Ero & Ewo & _ & Ej & Erv & Ewv).
  set (r' := submitted cfg rnd1 r) in *. pose proof (chunk_end_same _ _ Hs) as Ee.
  destruct (bytes_to_read_spec r Hck rnd1 C2) as (_ & Hb0 & _).
  rewrite Hn in Ej, Erv. simpl in Ej, Erv.
  assert (forced_partial cfg rnd1 r = false) as Hnf.
  { unfold forced_partial. rewrite Hn. apply andb_false_intro2, Z.ltb_ge.
    rewrite (proj1 Hb0 Hn). lia. }
  assert (copied_to r buf (offset r) (chunk_end r)) as Hfull by (by rewrite <- (proj1 Hb0 Hn)).
  destruct (second_effect r buf dst rnd1 rnd2 wres dst' Hck C4 C6 (fun _ => Hfull) Hwr)
    as (Hw1 & Hw2 & Hw3).
  rewrite Hnf in Hw1, Ewv. split; [|done]. pose proof Hs as (E1 & E2 & E3).
  split; rewrite ?Ero, ?Ewo, ?Ee, ?E1, ?E3; try done.
  - by apply (copied_same r r').
  - by apply (copied_same r r').
  - apply pend_write. unfold write_result. rewrite Ewv, Ew, Ewo, Ee.
    intros Hn0. destruct (Hw1 Hn0) as [? Hc]. split; [done|]. by apply (copied_same r r').
  - intros _. by rewrite Erv.
  - intros _. by rewrite Ewv.
Qed.

(** ** Completing *)

Lemma pend_remove (p1 p2 : list (event_type * Z)) t res :
  NoDup (fst <$> (p1 ++ (t, res) :: p2)) ->
  NoDup (fst <$> (p1 ++ p2)) /\ t ∉ (fst <$> (p1 ++ p2)) /\
  (forall t' res', (t', res') ∈ p1 ++ p2 -> t' <> t /\ (t', res') ∈ p1 ++ (t, res) :: p2).
Proof.
  rewrite fmap_app, fmap_cons. simpl. intros Hn.
  assert (t ∉ (fst <$> p1) ++ (fst <$> p2) /\ NoDup ((fst <$> p1) ++ (fst <$> p2))) as [Ht Hn'].
  { rewrite <- list.NoDup_cons. eapply NoDup_Permutation_proper; [|exact Hn].
    apply Permutation_middle. }
  rewrite fmap_app. split_and!; [done|done|]. intros t' res' Hin. split.
  - intros ->. apply Ht. rewrite <- fmap_app. apply list_elem_of_fmap. by exists (t, res').
  - apply elem_of_app in Hin as [?|?]; apply elem_of_app; [by left|right; by right].
Qed.

Lemma advance_read_spec r n :
  chunk_ok r -> offset r <= readOffset r -> 0 < n -> readOffset r + n <= chunk_end r ->
  let r' := advance_read n r in
  offset r <= readOffset r' <= readOffset r + n /\
  (readOffset r' = chunk_end r \/ readOffset r' mod alignment r = 0).
Proof.
  intros Hck Ho Hn Hle. pose proof (ck_align _ Hck) as Ha. pose proof (ck_size _ Hck) as [Hs1 Hs2].
  pose proof (ck_end _ Hck). pose proof (ck_offset _ Hck) as [Ho1 Ho2].
  unfold advance_read, r_set_readOffset. cbn [readOffset].
  rewrite (sext_small 64 (readOffset r + n)) by (lia || (unfold in_s; lia)).
  unfold chunk_end in *. rewrite (wrap_small 32 (offset r + size r - (readOffset r + n))) by (unfold in_u; lia).
  set (ro := readOffset r + n) in *.
  destruct (Z.eqb_spec (offset r + size r - ro) 0) as [E|E]; cbn [negb]; [lia|].
  rewrite (wrap_small 64 ro) by (unfold in_u; lia).
  assert (offset r <= ro / alignment r * alignment r <= ro) as Hr.
  { split.
    - pose proof (Z.div_mod (offset r) (alignment r) ltac:(lia)) as Hd. rewrite Ho2 in Hd.
      assert (offset r / alignment r <= ro / alignment r) by (apply Z.div_le_mono; lia). nia.
    - pose proof (Z.mul_div_le ro (alignment r) Ha). lia. }
  rewrite sext_small by (lia || (unfold in_s; lia)).
  split; [lia|right]. apply Z_mod_mult.
Qed.

Lemma completed_chunk r t res : same_chunk r (completed cfg spath dpath t res r).
Proof.
  unfold completed. cbn [savedError r_set_jobs]. destruct (savedError r); [done|].
  destruct t; repeat case_match; done.
Qed.

Lemma complete_read_core r buf dst p1 res p2 :
  chunk_ok r -> savedError r = None -> core r buf dst (p1 ++ (EvRead, res) :: p2) ->
  zlen (p1 ++ (EvRead, res) :: p2) < 2 ^ 31 ->
  let r' := completed cfg spath dpath EvRead res r in
  savedError r' = None -> core r' buf dst (p1 ++ p2).
Proof.
  intros Hck He [C1 C2 C3 C4 C5 C6 [Hnd [Hr Hw]] C8 C9] Hlen r'.
  destruct (pend_remove _ _ _ _ Hnd) as (Hnd' & Hnin & Hsub).
  assert (zlen (p1 ++ (EvRead, res) :: p2) = zlen (p1 ++ p2) + 1) as Hz
    by (unfold zlen; rewrite !length_app; simpl; lia).
  assert (s32 (jobsRunning r - 1) = zlen (p1 ++ p2)) as Hj.
  { rewrite C1, Hz. rewrite sext_small; [lia|lia|].
    unfold in_s, zlen in *. rewrite !length_app in *. simpl in Hlen. lia. }
  assert (spent cfg (readOverride r) = S32_MAX) as Hsp.
  { apply spent_max. destruct (FORCE_PARTIAL_READS cfg) eqn:Hf; [by left|right; apply C8; by right]. }
  specialize (Hr res ltac:(apply elem_of_app; right; left)). unfold read_result in Hr.
  unfold r', completed. cbn [savedError r_set_jobs r_set_overrides]. rewrite He.
  cbn [readOverride r_set_jobs r_set_overrides]. set (n := spoofed cfg (readOverride r) res) in *.
  destruct (Z.eqb_spec n 0); [done|]. destruct (Z.ltb_spec n 0); [done|]. intros _.
  destruct (Hr ltac:(lia)) as [Hle Hc].
  destruct (advance_read_spec r n Hck ltac:(lia) ltac:(lia) Hle) as [Hro Hal].
  set (r2 := r_set_overrides (spent cfg (readOverride r)) _ _).
  assert (readOffset (advance_read n r2) = readOffset (advance_read n r)) as Ero by done.
  assert (chunk_end (advance_read n r2) = chunk_end r) as Ece by done.
  assert (offset (advance_read n r2) = offset r) as Eo by done.
  split; rewrite ?Ero, ?Ece, ?Eo.
  - exact Hj.
  - lia.
  - exact Hal.
  - exact C4.
  - intros k Hk. apply Hc. rewrite Eo in Hk. lia.
  - exact C6.
  - split; [done|]. split.
    + intros res' Hin. by destruct (Hsub _ _ Hin).
    + intros res' Hin. destruct (Hsub _ _ Hin) as [_ Hin']. apply (Hw res' Hin').
  - intros _. exact Hsp.
  - intros [Hni|Hf]; apply C9; [left|by right]. intros Hin. apply Hni.
    rewrite fmap_app, fmap_cons in Hin. rewrite fmap_app. set_solver.
Qed.

Lemma complete_write_core r buf dst p1 res p2 :
  chunk_ok r -> savedError r = None -> core r buf dst (p1 ++ (EvWrite, res) :: p2) ->
  zlen (p1 ++ (EvWrite, res) :: p2) < 2 ^ 31 ->
  let r' := completed cfg spath dpath EvWrite res r in
  savedError r' = None -> core r' buf dst (p1 ++ p2).
Proof.
  intros Hck He [C1 C2 C3 C4 C5 C6 [Hnd [Hr Hw]] C8 C9] Hlen r'.
  destruct (pend_remove _ _ _ _ Hnd) as (Hnd' & Hnin & Hsub).
  assert (zlen (p1 ++ (EvWrite, res) :: p2) = zlen (p1 ++ p2) + 1) as Hz
    by (unfold zlen; rewrite !length_app; simpl; lia).
  assert (s32 (jobsRunning r - 1) = zlen (p1 ++ p2)) as Hj.
  { rewrite C1, Hz. rewrite sext_small; [lia|lia|].
    unfold in_s, zlen in *. rewrite !length_app in *. simpl in Hlen. lia. }
  assert (spent cfg (writeOverride r) = S32_MAX) as Hsp.
  { apply spent_max. destruct (FORCE_PARTIAL_READS cfg) eqn:Hf; [by left|right; apply C9; by right]. }
  specialize (Hw res ltac:(apply elem_of_app; right; left)). unfold write_result in Hw.
  pose proof (ck_end _ Hck) as Hend. pose proof (ck_offset _ Hck) as [Ho1 _].
  unfold r', completed. cbn [savedError r_set_jobs r_set_overrides]. rewrite He.
  cbn [writeOverride r_set_jobs r_set_overrides].
  set (n := spoofed cfg (writeOverride r) res) in *.
  assert (forall wo, offset r <= wo <= chunk_end r -> copied_to r dst 0 wo ->
    core (r_set_writeOffset wo (r_set_overrides (readOverride r) (spent cfg (writeOverride r))
      (r_set_jobs (s32 (jobsRunning r - 1)) r))) buf dst (p1 ++ p2)) as Hgo.
  { intros wo Hwo Hd. split; try done.
    - split; [done|]. split.
      + intros res' Hin. destruct (Hsub _ _ Hin) as [_ Hin']. apply (Hr res' Hin').
      + intros res' Hin. destruct (Hsub _ _ Hin). done.
    - intros [Hni|Hf]; apply C8; [left|by right]. intros Hin. apply Hni.
      rewrite fmap_app, fmap_cons in Hin. rewrite fmap_app. set_solver. }
  destruct (Z.ltb_spec n 0).
  - destruct (Z.eqb_spec n (- ECANCELED)); [|done]. intros _.
    apply (Hgo (writeOffset r)); [done|done].
  - intros _. destruct (Hw ltac:(lia)) as [Hle Hc]. cbn [writeOffset r_set_overrides r_set_jobs].
    rewrite sext_small by (lia || (unfold in_s; lia)). apply Hgo; [lia|done].
Qed.

Lemma completed_jobs r t res :
  jobsRunning (completed cfg spath dpath t res r) = s32 (jobsRunning r - 1).
Proof.
  unfold completed. cbn [savedError r_set_jobs]. destruct (savedError r); [done|].
  destruct t; repeat case_match; done.
Qed.

(** A completion that leaves an error moves nothing. *)
Lemma completed_error_wo r t res e :
  savedError (completed cfg spath dpath t res r) = Some e ->
  writeOffset (completed cfg spath dpath t res r) = writeOffset r.
Proof.
  unfold completed. cbn [savedError r_set_jobs]. destruct (savedError r) eqn:He; [done|].
  destruct t; repeat case_match; simpl; try done; congruence.
Qed.

(** What the invariant says whether or not there is an error. *)
Lemma core_inv r0 dst0 r buf dst pend :
  same_chunk r0 r -> (forall k, ~ (offset r0 <= k < chunk_end r0) -> dst k = dst0 k) ->
  zlen pend <= 2 -> core r buf dst pend -> chan_inv r0 dst0 (mk_chan r buf dst pend).
Proof.
  intros Hs Ho Hl Hc. pose proof (chunk_end_same _ _ Hs) as Ee. destruct Hs as (E & ?).
  pose proof (co_wo _ _ _ _ Hc). split; cbn; try done; [apply (co_jobs _ _ _ _ Hc)|lia|].
  intros k Hk. pose proof (co_dst _ _ _ _ Hc k) as Hd. rewrite Z.sub_0_r in Hd.
  apply Hd. lia.
Qed.

Lemma chan_step_inv r0 dst0 c c' :
  chunk_ok r0 -> chan_inv r0 dst0 c -> chan_step c c' -> chan_inv r0 dst0 c'.
Proof.
  intros Hck [Hs Ho Hl Hj Hw Hd Hc] Hst. pose proof (same_chunk_ok _ _ Hs Hck) as Hck'.
  destruct Hst as [r buf dst rnd1 rnd2 res buf' severed wres dst' He Hlt Hn Hrd Hwr
    |r buf dst rnd1 rnd2 wres dst' He Hlt Hn Hwr|r buf dst p1 t res p2]; cbn in *.
  - specialize (Hc He). destruct (submit_both_core r buf dst rnd1 rnd2 res buf' severed wres dst'
      Hck' Hc Hlt Hn Hrd Hwr) as [Hc' Hout].
    destruct (submitted_fields r rnd1 Hlt (co_jobs _ _ _ _ Hc)) as (Hs' & _).
    apply core_inv; [by eapply same_chunk_trans| |unfold zlen; simpl; lia|done].
    intros k Hk. rewrite Hout; [by apply Ho|].
    rewrite (chunk_end_same _ _ Hs). by destruct Hs as (-> & _).
  - specialize (Hc He). destruct (submit_write_core r buf dst rnd1 rnd2 wres dst'
      Hck' Hc Hlt Hn Hwr) as [Hc' Hout].
    destruct (submitted_fields r rnd1 Hlt (co_jobs _ _ _ _ Hc)) as (Hs' & _).
    apply core_inv; [by eapply same_chunk_trans| |unfold zlen; simpl; lia|done].
    intros k Hk. rewrite Hout; [by apply Ho|].
    rewrite (chunk_end_same _ _ Hs). by destruct Hs as (-> & _).
  - assert (zlen (p1 ++ (t, res) :: p2) = zlen (p1 ++ p2) + 1) as Hz
      by (unfold zlen; rewrite !length_app; simpl; lia).
    pose proof (completed_chunk r t res) as Hs'.
    destruct (savedError (completed cfg spath dpath t res r)) as [e|] eqn:He'.
    + pose proof (completed_error_wo _ _ _ _ He') as Ewo.
      split; cbn; rewrite ?Ewo, ?He'; try done; [by eapply same_chunk_trans|lia|].
      rewrite completed_jobs, Hj, Hz. rewrite sext_small; [lia|lia|].
      unfold in_s, zlen in *. lia.
    + assert (savedError r = None) as He.
      { destruct (savedError r) eqn:He; [|done]. unfold completed in He'.
        cbn [savedError r_set_jobs] in He'. rewrite He in He'. cbn in He'. congruence. }
      specialize (Hc He). apply core_inv; [by eapply same_chunk_trans|done|lia|].
      destruct t; [eapply complete_read_core|eapply complete_write_core]; done || lia.
Qed.

Lemma chan_steps_inv r0 dst0 c c' :
  chunk_ok r0 -> chan_inv r0 dst0 c -> chan_steps c c' -> chan_inv r0 dst0 c'.
Proof. intros Hck Hi Hs. induction Hs; eauto using chan_step_inv. Qed.

Lemma chan_steps_app c1 c2 c3 : chan_steps c1 c2 -> chan_steps c2 c3 -> chan_steps c1 c3.
Proof. induction 1; [done|]. intros. eapply chan_next; eauto. Qed.

(** A runner just created and given a buffer. *)
Record fresh_runner (r : CopyRunner) : Prop := {
  fr_ro : readOffset r = offset r;
  fr_wo : writeOffset r = offset r;
  fr_jobs : jobsRunning r = 0;
  fr_error : savedError r = None;
  fr_over : readOverride r = S32_MAX /\ writeOverride r = S32_MAX;
}.

Lemma fresh_inv r buf dst :
  chunk_ok r -> fresh_runner r -> chan_inv r dst (mk_chan r buf dst []).
Proof.
  intros Hck [H1 H2 H3 H4 [H5 H6]]. pose proof (ck_size _ Hck) as [Hs _].
  pose proof (ck_offset _ Hck) as [Ho Ha].
  apply core_inv; [done|done|done|]. unfold chunk_end in *.
  split; unfold chunk_end, copied_to; rewrite ?H1, ?H2.
  - done.
  - lia.
  - by right.
  - lia.
  - intros k Hk. lia.
  - intros k Hk. lia.
  - split; [constructor|]. split; intros res Hin; by apply elem_of_nil in Hin.
  - done.
  - done.
Qed.
End data.

(** ** Properties *)

(** C4: what a chunk copies is what was there.  From a fresh runner, through any
    rounds of requests with any results (short counts, errors, cancelled writes,
    forced partial reads and writes) and completions in any order, the bytes of
    the chunk up to the write offset are those of the source, so a runner that
    finishes has copied its whole chunk; no byte of the destination outside the
    chunk changes; the write offset stays within the chunk and the runner counts its
    outstanding requests exactly. *)
Theorem chunk_copied_exactly cfg spath dpath (src : bytes) srclen r0 buf dst c :
  chunk_ok srclen r0 -> fresh_runner r0 ->
  chan_steps cfg spath dpath src srclen (mk_chan r0 buf dst []) c ->
  (forall k, ~ (offset r0 <= k < chunk_end r0) -> c_dst c k = dst k) /\
  jobsRunning (c_runner c) = zlen (c_pend c) /\
  offset r0 <= writeOffset (c_runner c) <= chunk_end r0 /\
  (forall k, offset r0 <= k < writeOffset (c_runner c) -> c_dst c k = src k) /\
  (writeOffset (c_runner c) = chunk_end (c_runner c) ->
     forall k, offset r0 <= k < chunk_end r0 -> c_dst c k = src k).
Proof.
  intros Hck Hf Hs.
  destruct (chan_steps_inv cfg spath dpath src srclen r0 dst _ _ Hck
    (fresh_inv cfg src srclen r0 buf dst Hck Hf) Hs) as [Hsame Ho _ Hj Hw Hd _].
  split_and!; try done; try lia. rewrite (chunk_end_same _ _ Hsame).
  intros Hfin k Hk. apply Hd. lia.
Qed.

Definition no_forcing : config := mk_config false false.

(** A file of ten bytes: the read is short of the 4096 it asked for, so the write is
    cancelled and done in a second round. *)
Lemma chunk_copied_exactly_witness :
  let r0 := r_set_buffer 8192 8192 (new_runner 1 2 0 10 4096 3) in
  exists c, chan_steps no_forcing "a" "b" (fun k => k + 7) 10 (mk_chan r0 (fun _ => 0) (fun _ => 0) []) c
    /\ c_dst c 9 = 9 + 7.
Proof.
  intros r0.
  assert (chunk_ok 10 r0) as Hck.
  { split; try done; try (by left); by vm_compute. }
  assert (fresh_runner r0) as Hf by (split; try reflexivity; split; reflexivity).
  set (src := fun k => k + 7).
  set (buf1 := splice (fun _ => 0) (readOffset r0 - offset r0) 10 (fun k => src (k + offset r0))).
  set (r1 := submitted no_forcing 0 r0).
  set (r2 := completed no_forcing "a" "b" EvRead 10 r1).
  set (r3 := completed no_forcing "a" "b" EvWrite (- ECANCELED) r2).
  set (dst1 := splice (fun _ => 0) (writeOffset r3) 10 (fun k => buf1 (k - offset r3))).
  set (r4 := submitted no_forcing 0 r3).
  set (c := mk_chan (completed no_forcing "a" "b" EvWrite 10 r4) buf1 dst1 []).
  assert (chan_steps no_forcing "a" "b" src 10 (mk_chan r0 (fun _ => 0) (fun _ => 0) []) c) as Hs.
  { eapply chan_next.
    { apply (step_submit_both no_forcing "a" "b" src 10 r0 _ (fun _ => 0) 0 0 10 buf1
        (10 <? 4096) (- ECANCELED) (fun _ => 0)); try reflexivity; [done| |by split].
      apply (read_returns src 10 r0 4096 (fun _ => 0) 10); [lia|right; by vm_compute]. }
    eapply chan_next; [apply (step_complete no_forcing "a" "b" src 10 r1 _ _ [] EvRead 10 _)|].
    eapply chan_next; [apply (step_complete no_forcing "a" "b" src 10 r2 _ _ [] EvWrite _ [])|].
    eapply chan_next.
    { apply (step_submit_write no_forcing "a" "b" src 10 r3 buf1 (fun _ => 0) 0 0 10 dst1);
        try reflexivity.
      apply second_write; [reflexivity|]. apply (write_returns r3 10 buf1 (fun _ => 0) 10). lia. }
    eapply chan_next; [apply (step_complete no_forcing "a" "b" src 10 r4 _ _ [] EvWrite 10 [])|].
    apply chan_refl. }
  exists c. split; [exact Hs|].
  destruct (chunk_copied_exactly no_forcing "a" "b" src 10 r0 (fun _ => 0) (fun _ => 0) c Hck Hf Hs)
    as (_ & _ & _ & _ & H4). apply (H4 eq_refl 9). by vm_compute.
Defined.
