(* ===== verification/RunnerLive.v ===== *)
(** * Requests, progress and the lack of it

    Where the requests of a chunk point, when a chunk finishes, and what happens
    when the source file changes its length while it is copied. *)

From stdpp Require Import gmap strings.
From S2P Require Import Prelude Abi Util CopyState Runner RunnerData.

Section live.
Context (cfg : config) (spath dpath : string) (src : bytes) (srclen : Z).

Definition round_up (n a : Z) : Z := (n + a - 1) / a * a.

Lemma align_up_round_up n a : 0 < a -> 0 <= n -> n + a < 2 ^ 31 -> align_up n a = round_up n a.
Proof.
  intros Ha Hn Hb. unfold align_up, round_up.
  pose proof (Z.div_mod n a ltac:(lia)) as Hd. pose proof (Z.mod_pos_bound n a Ha) as Hm.
  destruct (Z.eqb_spec (n mod a) 0) as [E|E]; cbn [negb].
  - assert ((n + a - 1) / a = n / a) as ->; [|lia].
    symmetry. apply (Z.div_unique _ _ _ (a - 1)); lia.
  - assert ((n + a - 1) / a = n / a + 1) as ->.
    { symmetry. apply (Z.div_unique _ _ _ (n mod a - 1)); lia. }
    rewrite (wrap_small 64) by (unfold in_u; nia). apply wrap_small. unfold in_u. nia.
Qed.

Lemma round_up_mono n m a : 0 < a -> n <= m -> round_up n a <= round_up m a.
Proof.
  intros Ha Hle. unfold round_up.
  assert ((n + a - 1) / a <= (m + a - 1) / a) by (apply Z.div_le_mono; lia). nia.
Qed.

Lemma round_up_add k n a : 0 < a -> k mod a = 0 -> k + round_up n a = round_up (k + n) a.
Proof.
  intros Ha Hk. unfold round_up. pose proof (Z.div_mod k a ltac:(lia)) as Hd.
  replace (k + n + a - 1) with ((n + a - 1) + k / a * a) by lia.
  rewrite Z.div_add by lia. lia.
Qed.

Lemma round_up_ge n a : 0 < a -> n <= round_up n a.
Proof.
  intros Ha. unfold round_up. pose proof (Z.div_mod (n + a - 1) a ltac:(lia)).
  pose proof (Z.mod_pos_bound (n + a - 1) a Ha). lia.
Qed.

Lemma core_request_bounds r buf dst rnd :
  chunk_ok srclen r -> core cfg src r buf dst [] ->
  readOffset r - offset r + align_up (bytes_to_read cfg rnd r) (alignment r)
    <= round_up (size r) (alignment r) /\
  writeOffset r - offset r + bytes_to_write cfg rnd r <= size r.
Proof.
  intros Hck [C1 C2 C3 C4 _ _ _ _ _].
  destruct (bytes_to_read_spec cfg srclen r Hck rnd C2) as (Hb & Hb0 & _).
  pose proof (bytes_to_write_spec cfg srclen r Hck rnd C4) as Hbw.
  pose proof (ck_align _ _ Hck) as Ha. pose proof (ck_size _ _ Hck) as [Hs1 Hs2].
  pose proof (ck_offset _ _ Hck) as [_ Ho]. unfold chunk_end in *. split; [|lia].
  rewrite align_up_round_up by lia. destruct C3 as [C3|C3].
  - rewrite (proj2 Hb0 C3), C3. pose proof (round_up_ge (size r) _ Ha).
    assert (round_up 0 (alignment r) = 0) as ->; [|lia].
    unfold round_up. rewrite Z.div_small; lia.
  - rewrite round_up_add; [apply round_up_mono; lia|done|].
    by rewrite Zminus_mod, C3, Ho.
Qed.

(** ** A round in which every request is served in full *)

Definition full_round (c : chan) : chan :=
  let r := c_runner c in
  let n := bytes_to_read no_forcing 0 r in
  let len := align_up n (alignment r) in
  let m := Z.min len (srclen - readOffset r) in
  let w := bytes_to_write no_forcing 0 r in
  let buf := if n =? 0 then c_buf c
    else splice (c_buf c) (readOffset r - offset r) m (fun k => src (k + offset r)) in
  let severed := negb (n =? 0) && (m <? len) in
  let dst := if severed then c_dst c
    else splice (c_dst c) (writeOffset r) w (fun k => buf (k - offset r)) in
  let r1 := submitted no_forcing 0 r in
  let r2 := if n =? 0 then r1 else completed no_forcing spath dpath EvRead m r1 in
  mk_chan (completed no_forcing spath dpath EvWrite (if severed then - ECANCELED else w) r2)
    buf dst [].

Lemma full_round_steps c :
  let r := c_runner c in
  c_pend c = [] -> chunk_ok srclen r -> core no_forcing src r (c_buf c) (c_dst c) [] ->
  savedError r = None -> writeOffset r < chunk_end r ->
  chan_steps no_forcing spath dpath src srclen c (full_round c).
Proof.
  intros r Hp Hck Hc He Hw. destruct c as [r' buf dst pend]. simpl in *. subst pend r.
  destruct Hc as [C1 C2 C3 C4 _ _ _ _ _].
  destruct (bytes_to_read_spec no_forcing srclen r' Hck 0 C2) as (Hb & _ & _).
  pose proof (bytes_to_write_spec no_forcing srclen r' Hck 0 C4) as Hbw.
  pose proof (ck_align _ _ Hck) as Ha. pose proof (ck_size _ _ Hck) as [Hs1 Hs2].
  pose proof (ck_src _ _ Hck) as Hsl.
  assert (bytes_to_read no_forcing 0 r' + alignment r' < 2 ^ 31) as Hlt
    by (unfold chunk_end in *; lia).
  destruct (align_up_spec _ (alignment r') Ha (proj1 Hb) Hlt) as [Hup _].
  unfold full_round. cbn [c_runner c_buf c_dst].
  set (n := bytes_to_read no_forcing 0 r') in *. set (len := align_up n (alignment r')) in *.
  set (m := Z.min len (srclen - readOffset r')) in *.
  destruct (Z.eqb_spec n 0) as [En|En]; cbn [negb andb].
  - eapply chan_next.
    { eapply (step_submit_write no_forcing _ _ _ _ r' buf dst 0 0); [done|done|done|].
      apply second_write; [done|]. apply (write_returns r' _ buf dst _ (conj (proj1 Hbw) (Z.le_refl _))). }
    eapply chan_next; [apply (step_complete no_forcing spath dpath src srclen _ _ _ [] EvWrite _ [])|].
    apply chan_refl.
  - assert (0 <= m <= len) as Hm by lia.
    assert (m = 0 \/ readOffset r' + m <= srclen) as Hms by lia.
    eapply chan_next.
    { set (buf' := splice buf (readOffset r' - offset r') m (fun k => src (k + offset r'))).
      eapply (step_submit_both no_forcing _ _ _ _ r' buf dst 0 0 m buf' _
        (if m <? len then - ECANCELED else bytes_to_write no_forcing 0 r')
        (if m <? len then dst else splice dst (writeOffset r') (bytes_to_write no_forcing 0 r')
           (fun k => buf' (k - offset r'))));
        [done|done|done|exact (read_returns src srclen r' len buf m Hm Hms)|].
      destruct (m <? len); [by split|]. apply second_write; [done|].
      apply write_returns. lia. }
    eapply chan_next; [apply (step_complete no_forcing spath dpath src srclen _ _ _ [] EvRead _ _)|].
    eapply chan_next; [apply (step_complete no_forcing spath dpath src srclen _ _ _ [] EvWrite _ [])|].
    destruct (m <? len); apply chan_refl.
Qed.

Lemma completed_write_ok r w :
  savedError r = None -> 0 <= w ->
  completed no_forcing spath dpath EvWrite w r =
    r_set_writeOffset (s64 (writeOffset r + w)) (r_set_jobs (s32 (jobsRunning r - 1)) r).
Proof.
  intros He Hw. unfold completed. cbn [savedError r_set_jobs]. rewrite He.
  unfold spoofed, spent. cbn [FORCE_PARTIAL_READS no_forcing andb].
  by destruct (Z.ltb_spec w 0); [lia|].
Qed.

Lemma completed_write_canceled r :
  savedError r = None ->
  completed no_forcing spath dpath EvWrite (- ECANCELED) r =
    r_set_jobs (s32 (jobsRunning r - 1)) r.
Proof.
  intros He. unfold completed. cbn [savedError r_set_jobs]. rewrite He. by destruct r.
Qed.

Lemma completed_read_ok r m :
  savedError r = None -> 0 < m ->
  completed no_forcing spath dpath EvRead m r =
    advance_read m (r_set_jobs (s32 (jobsRunning r - 1)) r).
Proof.
  intros He Hm. unfold completed. cbn [savedError r_set_jobs]. rewrite He.
  unfold spoofed, spent. cbn [FORCE_PARTIAL_READS no_forcing andb].
  destruct (Z.eqb_spec m 0); [lia|]. by destruct (Z.ltb_spec m 0); [lia|].
Qed.

Lemma submitted_plain r :
  writeOffset r < chunk_end r ->
  submitted no_forcing 0 r =
    r_set_jobs (s32 ((if bytes_to_read no_forcing 0 r =? 0 then jobsRunning r
                      else s32 (jobsRunning r + 1)) + 1)) r.
Proof.
  intros Hw. unfold submitted. change (forced_partial no_forcing 0 r) with false. cbv iota.
  destruct (Z.eqb_spec (bytes_to_read no_forcing 0 r) 0); cbn [negb].
  - by destruct (Z.ltb_spec (writeOffset r) (chunk_end r)); [|lia].
  - change (chunk_end (r_set_jobs _ r)) with (chunk_end r). cbn [writeOffset r_set_jobs].
    destruct (Z.ltb_spec (writeOffset r) (chunk_end r)); [by destruct r|lia].
Qed.

Lemma full_round_result c :
  let r := c_runner c in
  chunk_ok srclen r -> core no_forcing src r (c_buf c) (c_dst c) [] ->
  savedError r = None -> writeOffset r < chunk_end r ->
  let r' := c_runner (full_round c) in
  savedError r' = None /\ readOffset r' = chunk_end r /\
  (writeOffset r' = chunk_end r \/ writeOffset r' = writeOffset r) /\
  (readOffset r = chunk_end r -> writeOffset r' = chunk_end r).
Proof.
  intros r Hck [C1 C2 C3 C4 _ _ _ _ _] He Hw. cbn zeta. unfold full_round. cbn [c_runner].
  fold r. rewrite (submitted_plain r Hw).
  destruct (bytes_to_read_spec no_forcing srclen r Hck 0 C2) as (Hb & Hb0 & Hbe).
  pose proof (Hbe eq_refl) as Hn. pose proof (ck_align _ _ Hck) as Ha.
  pose proof (ck_size _ _ Hck) as [Hs1 Hs2]. pose proof (ck_end _ _ Hck) as Hend.
  pose proof (ck_src _ _ Hck) as Hsl. pose proof (ck_offset _ _ Hck) as [Ho _].
  assert (bytes_to_write no_forcing 0 r = chunk_end r - writeOffset r) as Hbw.
  { unfold bytes_to_write, chunk_end in *. cbn [FORCE_PARTIAL_WRITES no_forcing].
    apply wrap_small. unfold in_u. lia. }
  assert (bytes_to_read no_forcing 0 r + alignment r < 2 ^ 31) as Hlt
    by (unfold chunk_end in *; lia).
  destruct (align_up_spec _ (alignment r) Ha (proj1 Hb) Hlt) as [Hup _].
  set (n := bytes_to_read no_forcing 0 r) in *. set (len := align_up n (alignment r)) in *.
  set (m := Z.min len (srclen - readOffset r)). rewrite Hbw.
  assert (forall j (r2 := r_set_jobs j r), savedError r2 = None) as Hej by (intros; exact He).
  assert (forall wo, s64 (wo + (chunk_end r - wo)) = chunk_end r) as Hwe.
  { intros wo. replace (wo + (chunk_end r - wo)) with (chunk_end r) by lia.
    apply sext_small; [lia|]. unfold in_s, chunk_end in *. lia. }
  destruct (Z.eqb_spec n 0) as [En|En]; cbn [negb andb].
  - rewrite completed_write_ok by (apply Hej || lia).
    cbn [savedError readOffset writeOffset r_set_writeOffset r_set_jobs].
    rewrite Hwe. split_and!; [done|lia|by left|done].
  - assert (m = n) as Em.
    { assert (readOffset r + m <= chunk_end r); [|lia].
      apply (read_stays no_forcing srclen r Hck 0); try done; [by left| |right]; fold n len; lia. }
    rewrite completed_read_ok by (apply Hej || lia).
    set (r2 := advance_read m _).
    assert (readOffset r2 = chunk_end r) as Ero.
    { unfold r2, advance_read. cbn [readOffset r_set_readOffset r_set_jobs offset size alignment].
      rewrite (sext_small 64 (readOffset r + m)); [|lia|unfold in_s, chunk_end in *; lia].
      replace (offset r + size r - (readOffset r + m)) with 0 by (unfold chunk_end in *; lia).
      change (u32 0) with 0. cbn [negb Z.eqb]. lia. }
    assert (savedError r2 = None /\ writeOffset r2 = writeOffset r) as [He2 Ewo] by done.
    destruct (Z.ltb_spec m len).
    + rewrite completed_write_canceled by done.
      cbn [savedError readOffset writeOffset r_set_jobs].
      split_and!; [done|done|by right|]. lia.
    + rewrite completed_write_ok by (done || lia).
      cbn [savedError readOffset writeOffset r_set_writeOffset r_set_jobs].
      rewrite Ewo, Hwe. split_and!; [done|done|by left|done].
Qed.
(** ** Files that change their length *)

(** A round of requests needs no more than a chunk to work on and a file to read. *)
Lemma full_round_any c :
  let r := c_runner c in
  let len := align_up (bytes_to_read no_forcing 0 r) (alignment r) in
  c_pend c = [] -> savedError r = None -> writeOffset r < chunk_end r ->
  bytes_to_read no_forcing 0 r <> 0 -> 0 <= Z.min len (srclen - readOffset r) < len ->
  chan_steps no_forcing spath dpath src srclen c (full_round c).
Proof.
  intros r len Hp He Hw Hn Hm. destruct c as [r' buf dst pend]. simpl in *. subst pend r.
  unfold full_round. cbn [c_runner c_buf c_dst]. fold len.
  set (m := Z.min len (srclen - readOffset r')) in *.
  destruct (Z.eqb_spec (bytes_to_read no_forcing 0 r') 0); [done|]. cbn [negb andb].
  eapply chan_next.
  { eapply (step_submit_both no_forcing _ _ _ _ r' buf dst 0 0 m _ _ (- ECANCELED) dst);
      [done|done|done|apply (read_returns src srclen r' len buf m)|]; [lia|right; lia|].
    destruct (Z.ltb_spec m len); [by split|lia]. }
  eapply chan_next; [apply (step_complete no_forcing spath dpath src srclen _ _ _ [] EvRead _ _)|].
  eapply chan_next; [apply (step_complete no_forcing spath dpath src srclen _ _ _ [] EvWrite _ [])|].
  destruct (Z.ltb_spec m len); [|lia]. apply chan_refl.
Qed.

(** What a round does to a chunk of a file that ends inside it. *)
Lemma truncated_round r buf dst :
  let c := mk_chan r buf dst [] in
  let back := srclen / alignment r * alignment r in
  0 < alignment r -> 0 < size r -> size r + alignment r < 2 ^ 31 -> 0 <= offset r ->
  offset r <= readOffset r <= srclen -> readOffset r mod alignment r = 0 ->
  srclen mod alignment r <> 0 -> srclen < chunk_end r < 2 ^ 62 ->
  writeOffset r < chunk_end r -> savedError r = None -> jobsRunning r = 0 ->
  chan_steps no_forcing spath dpath src srclen c (full_round c) /\
  c_pend (full_round c) = [] /\ c_dst (full_round c) = dst /\
  c_runner (full_round c) = r_set_readOffset back r.
Proof.
  intros c back Ha Hs1 Hs2 Ho Hro Hal Hsm Hsl Hw He Hj. unfold chunk_end in Hsl.
  assert (bytes_to_read no_forcing 0 r = chunk_end r - readOffset r) as En.
  { unfold bytes_to_read, chunk_end. cbn [FORCE_PARTIAL_READS no_forcing andb].
    apply wrap_small. unfold in_u. lia. }
  assert (readOffset r <> srclen) as Hne by congruence.
  destruct (align_up_spec (chunk_end r - readOffset r) (alignment r)) as [Hup _];
    [done|unfold chunk_end; lia|unfold chunk_end; lia|].
  unfold chunk_end in Hup, En.
  split; [|split; [done|]].
  - apply full_round_any; unfold c; cbn [c_runner c_pend]; rewrite ?En; try done; try lia.
  - unfold full_round. cbn [c_runner c_buf c_dst]. unfold c. cbn [c_runner c_buf c_dst].
    rewrite submitted_plain by done. rewrite En.
    set (len := align_up (offset r + size r - readOffset r) (alignment r)) in *.
    replace (Z.min len (srclen - readOffset r)) with (srclen - readOffset r) by lia.
    destruct (Z.eqb_spec (offset r + size r - readOffset r) 0); [lia|]. cbn [negb andb].
    destruct (Z.ltb_spec (srclen - readOffset r) len); [|lia]. split; [done|].
    rewrite completed_read_ok by (done || lia). rewrite completed_write_canceled by done.
    unfold advance_read. cbn [readOffset jobsRunning r_set_readOffset r_set_jobs offset size alignment].
    rewrite Hj. replace (readOffset r + (srclen - readOffset r)) with srclen by lia.
    rewrite (sext_small 64 srclen) by (lia || (unfold in_s; lia)).
    rewrite wrap_small by (unfold in_u; lia).
    destruct (Z.eqb_spec (offset r + size r - srclen) 0); [lia|]. cbn [negb].
    rewrite (wrap_small 64 srclen) by (unfold in_u; lia).
    assert (0 <= back <= srclen).
    { pose proof (Z.mul_div_le srclen (alignment r) Ha).
      pose proof (Z.div_pos srclen (alignment r) ltac:(lia) Ha). unfold back. nia. }
    fold back. rewrite (sext_small 64 back); [|lia|unfold in_s; lia].
    destruct r; simpl in *; subst jobsRunning. reflexivity.
Qed.

(** A request for less than an alignment short of 4 GiB rounds up to nothing. *)
Lemma align_up_wraps d a : 0 < d < a -> (a | 2 ^ 32) -> align_up (2 ^ 32 - d) a = 0.
Proof.
  intros Hd [k Hk]. unfold align_up.
  assert ((2 ^ 32 - d) mod a = a - d) as ->.
  { symmetry. apply (Z.mod_unique _ _ (k - 1)); [left|]; lia. }
  destruct (Z.eqb_spec (a - d) 0); [lia|]. cbn [negb].
  assert ((2 ^ 32 - d) / a = k - 1) as ->.
  { symmetry. apply (Z.div_unique _ _ _ (a - d)); lia. }
  replace ((k - 1 + 1) * a) with (2 ^ 32) by lia. reflexivity.
Qed.
End live.

(** ** Properties *)

(** C22: every request of a chunk points into its buffer: with no request
    outstanding and no error, the read ends within the chunk size rounded up to
    the alignment, and the write within the chunk size. *)
Theorem chunk_requests_in_buffer cfg spath dpath (src : bytes) srclen r0 buf dst r b d rnd1 rnd2 :
  chunk_ok srclen r0 -> fresh_runner r0 ->
  chan_steps cfg spath dpath src srclen (mk_chan r0 buf dst []) (mk_chan r b d []) ->
  savedError r = None ->
  0 <= readOffset r - offset r /\
  readOffset r - offset r + align_up (bytes_to_read cfg rnd1 r) (alignment r)
    <= round_up (size r0) (alignment r0) /\
  0 <= writeOffset r - offset r /\
  writeOffset r - offset r + bytes_to_write cfg rnd2 r <= size r0.
Proof.
  intros Hck Hf Hs He.
  destruct (chan_steps_inv cfg spath dpath src srclen r0 dst _ _ Hck
    (fresh_inv cfg src srclen r0 buf dst Hck Hf) Hs) as [Hsame _ _ _ _ _ Hc].
  specialize (Hc He). simpl in *. pose proof (same_chunk_ok _ _ _ Hsame Hck) as Hck'.
  destruct (core_request_bounds cfg src srclen r b d rnd1 Hck' Hc) as [H1 _].
  destruct (core_request_bounds cfg src srclen r b d rnd2 Hck' Hc) as [_ H2].
  destruct Hsame as (E1 & E2 & E3). rewrite E2, E3 in *.
  pose proof (co_ro _ _ _ _ _ _ Hc). pose proof (co_wo _ _ _ _ _ _ Hc). lia.
Qed.

Definition sample_runner : CopyRunner := r_set_buffer 8192 8192 (new_runner 1 2 0 10 4096 3).

Lemma sample_chunk_ok : chunk_ok 10 sample_runner.
Proof. split; try done; try (by left); by vm_compute. Qed.

Lemma sample_fresh : fresh_runner sample_runner.
Proof. split; try reflexivity; split; reflexivity. Qed.

Lemma chunk_requests_in_buffer_witness :
  align_up (bytes_to_read no_forcing 0 sample_runner) 4096 = 4096 /\
  0 - 0 + align_up (bytes_to_read no_forcing 0 sample_runner) 4096 <= round_up 10 4096.
Proof.
  split; [reflexivity|].
  apply (chunk_requests_in_buffer no_forcing "a" "b" (fun _ => 0) 10 sample_runner (fun _ => 0)
    (fun _ => 0) sample_runner (fun _ => 0) (fun _ => 0) 0 0 sample_chunk_ok sample_fresh
    (chan_refl _ _ _ _ _ _) eq_refl).
Defined.

(** A chunk finishes.  When the kernel serves every request in full, as far as
    the file goes, a fresh runner has copied its chunk after one round of requests
    or two: the second is needed when the read was rounded up past the end of the
    file, which cancels the write. *)
Theorem chunk_finishes_in_two_rounds spath dpath (src : bytes) srclen r0 buf dst :
  chunk_ok srclen r0 -> fresh_runner r0 ->
  let c0 := mk_chan r0 buf dst [] in
  let c1 := full_round spath dpath src srclen c0 in
  let c2 := full_round spath dpath src srclen c1 in
  exists c, (c = c1 \/ c = c2) /\ chan_steps no_forcing spath dpath src srclen c0 c /\
    c_pend c = [] /\ savedError (c_runner c) = None /\
    writeOffset (c_runner c) = chunk_end (c_runner c) /\
    (forall k, offset r0 <= k < chunk_end r0 -> c_dst c k = src k).
Proof.
  intros Hck Hf c0 c1 c2.
  pose proof (fresh_inv no_forcing src srclen r0 buf dst Hck Hf) as Hi0.
  pose proof (ci_core _ _ _ _ _ Hi0 (fr_error _ Hf)) as Hc0.
  assert (writeOffset r0 < chunk_end r0) as Hw0.
  { rewrite (fr_wo _ Hf). unfold chunk_end. pose proof (ck_size _ _ Hck). lia. }
  pose proof (full_round_steps spath dpath src srclen c0 eq_refl Hck Hc0 (fr_error _ Hf) Hw0) as S1.
  destruct (full_round_result spath dpath src srclen c0 Hck Hc0 (fr_error _ Hf) Hw0)
    as (He1 & Hro1 & Hwo1 & _).
  fold c1 in S1, He1, Hro1, Hwo1. change (c_runner c0) with r0 in Hro1, Hwo1.
  pose proof (chan_steps_inv _ _ _ _ _ _ _ _ _ Hck Hi0 S1) as Hi1.
  pose proof (chunk_end_same _ _ (ci_chunk _ _ _ _ _ Hi1)) as Ee1.
  assert (forall c, chan_inv no_forcing src r0 dst c -> savedError (c_runner c) = None ->
    writeOffset (c_runner c) = chunk_end (c_runner c) ->
    forall k, offset r0 <= k < chunk_end r0 -> c_dst c k = src k) as Hcopied.
  { intros c [Hsame _ _ _ _ Hd _] _ Hw k Hk. apply Hd. by rewrite Hw, (chunk_end_same _ _ Hsame). }
  destruct (decide (writeOffset (c_runner c1) = chunk_end r0)) as [Hd|Hd].
  - exists c1. split_and!; [by left|done|done|done|by rewrite Ee1|].
    apply Hcopied; [done|done|by rewrite Ee1].
  - assert (writeOffset (c_runner c1) < chunk_end (c_runner c1)) as Hw1
      by (rewrite Ee1; destruct Hwo1 as [?|Ew]; [done|rewrite Ew; exact Hw0]).
    pose proof (same_chunk_ok _ _ _ (ci_chunk _ _ _ _ _ Hi1) Hck) as Hck1.
    pose proof (ci_core _ _ _ _ _ Hi1 He1) as Hc1.
    pose proof (full_round_steps spath dpath src srclen c1 eq_refl Hck1 Hc1 He1 Hw1) as S2.
    destruct (full_round_result spath dpath src srclen c1 Hck1 Hc1 He1 Hw1)
      as (He2 & _ & _ & Hfin). fold c2 in S2, He2, Hfin.
    pose proof (chan_steps_inv _ _ _ _ _ _ _ _ _ Hck Hi0 (chan_steps_app _ _ _ _ _ _ _ _ S1 S2))
      as Hi2.
    pose proof (chunk_end_same _ _ (ci_chunk _ _ _ _ _ Hi2)) as Ee2.
    assert (writeOffset (c_runner c2) = chunk_end (c_runner c2)) as Hw2
      by (rewrite Ee2, <- Ee1; apply Hfin; by rewrite Hro1, Ee1).
    exists c2. split_and!; [by right|by eapply chan_steps_app|done|done|done|by apply Hcopied].
Qed.

Lemma chunk_finishes_in_two_rounds_witness :
  exists c, chan_steps no_forcing "a" "b" (fun k => k) 10 (mk_chan sample_runner (fun _ => 0) (fun _ => 0) []) c
    /\ c_dst c 9 = 9.
Proof.
  destruct (chunk_finishes_in_two_rounds "a" "b" (fun k => k) 10 sample_runner (fun _ => 0)
    (fun _ => 0) sample_chunk_ok sample_fresh) as (c & _ & H & _ & _ & _ & Hd).
  exists c. split; [exact H|]. apply (Hd 9). by vm_compute.
Defined.

(** C38: a file truncated while it is copied, to a length that is not a multiple of
    the alignment, is never found out.  Each read returns the bytes up to the new end
    of the file, is short, cancels the write and backs up to the aligned offset; it
    never returns zero.  However many rounds the kernel serves with every byte there
    is, the chunk has no error, no request left, and has written nothing. *)
Theorem truncated_file_livelock n spath dpath (src : bytes) srclen r buf dst :
  fresh_runner r -> 0 < alignment r -> 0 < size r -> size r + alignment r < 2 ^ 31 ->
  0 <= offset r <= srclen -> offset r mod alignment r = 0 ->
  srclen mod alignment r <> 0 -> srclen < chunk_end r < 2 ^ 62 ->
  let c0 := mk_chan r buf dst [] in
  let c := Nat.iter n (full_round spath dpath src srclen) c0 in
  chan_steps no_forcing spath dpath src srclen c0 c /\
  c_pend c = [] /\ savedError (c_runner c) = None /\
  writeOffset (c_runner c) = offset r /\ c_dst c = dst.
Proof.
  intros [F1 F2 F3 F4 F5] Ha Hs1 Hs2 Ho Hal Hsm Hsl c0 c.
  enough (chan_steps no_forcing spath dpath src srclen c0 c /\ c_pend c = [] /\ c_dst c = dst /\
    (c_runner c = r \/ c_runner c = r_set_readOffset (srclen / alignment r * alignment r) r))
    as (H1 & H2 & H3 & H4).
  { split_and!; try done; destruct H4 as [-> | ->]; done. }
  subst c. induction n as [|n (IH1 & IH2 & IH3 & IH4)].
  - simpl. split_and!; [apply chan_refl|done|done|by left].
  - change (Nat.iter (S n) ?f c0) with (f (Nat.iter n f c0)).
    destruct (Nat.iter n (full_round spath dpath src srclen) c0) as [r1 buf1 dst1 pend1].
    cbn [c_runner c_pend c_dst] in IH2, IH3, IH4. subst pend1 dst1.
    pose proof (Z.mul_div_le srclen (alignment r) Ha) as Hle.
    assert (offset r <= srclen / alignment r * alignment r) as Hge.
    { pose proof (Z.div_mod (offset r) (alignment r) ltac:(lia)).
      pose proof (Z.div_le_mono (offset r) srclen (alignment r) Ha ltac:(lia)). nia. }
    pose proof (truncated_round spath dpath src srclen r1 buf1 dst) as Hround.
    cbv zeta in Hround.
    destruct Hround as (S1 & S2 & S3 & S4);
      try (destruct IH4 as [-> | ->]; cbn; rewrite ?F1, ?F2; try done; try lia; fail).
    + destruct IH4 as [-> | ->]; cbn; [by rewrite F1|]. apply Z_mod_mult.
    + destruct IH4 as [-> | ->]; unfold chunk_end in *; cbn; rewrite F2; lia.
    + split_and!; [by eapply chan_steps_app|done|done|right].
      rewrite S4. destruct IH4 as [-> | ->]; done.
Qed.

Definition shrinking_runner : CopyRunner := r_set_buffer 8192 8192 (new_runner 1 2 0 20000 4096 3).

(** Twenty thousand bytes when the copy was planned, ten thousand when it was read. *)
Lemma truncated_file_livelock_witness :
  let c0 := mk_chan shrinking_runner (fun _ => 0) (fun _ => 0) [] in
  let c := Nat.iter 1000 (full_round "a" "b" (fun k => k) 10000) c0 in
  chan_steps no_forcing "a" "b" (fun k => k) 10000 c0 c /\ writeOffset (c_runner c) = 0.
Proof.
  assert (fresh_runner shrinking_runner) as Hf.
  { split; try reflexivity; split; reflexivity. }
  assert (0 <= offset shrinking_runner <= 10000) as Ho by (split; discriminate).
  assert (10000 mod alignment shrinking_runner <> 0) as Hm by discriminate.
  assert (10000 < chunk_end shrinking_runner < 2 ^ 62) as He by (split; reflexivity).
  destruct (truncated_file_livelock 1000 "a" "b" (fun k => k) 10000 shrinking_runner (fun _ => 0)
    (fun _ => 0) Hf eq_refl eq_refl eq_refl Ho eq_refl Hm He) as (H1 & _ & _ & H2 & _).
  exact (conj H1 H2).
Defined.

Lemma u32_neg d : 0 < d < 2 ^ 32 -> u32 (- d) = 2 ^ 32 - d.
Proof. intros Hd. symmetry. apply (Z.mod_unique _ _ (-1)); [left|]; lia. Qed.

(** The runner after a read that went past the chunk and a short write. *)
Lemma overread_round spath dpath r len w :
  fresh_runner r -> 0 < alignment r -> 0 < size r < len -> len < size r + alignment r ->
  size r + alignment r < 2 ^ 31 -> 0 <= offset r -> offset r + len < 2 ^ 62 ->
  (offset r + len) mod alignment r = 0 -> 0 <= w < size r ->
  bytes_to_read no_forcing 0 r <> 0 ->
  let r3 := completed no_forcing spath dpath EvWrite w
    (completed no_forcing spath dpath EvRead len (submitted no_forcing 0 r)) in
  savedError r3 = None /\ offset r3 = offset r /\ size r3 = size r /\
  alignment r3 = alignment r /\ writeOffset r3 = offset r + w /\ readOffset r3 = offset r + len.
Proof.
  intros [F1 F2 F3 F4 F5] Ha Hlen Hla Hsa Ho Hb Hal Hw Hn.
  rewrite submitted_plain by (unfold chunk_end; lia).
  destruct (Z.eqb_spec (bytes_to_read no_forcing 0 r) 0); [done|].
  rewrite completed_read_ok by (done || lia). rewrite completed_write_ok by (done || lia).
  cbn. rewrite F1, F2.
  rewrite (sext_small 64 (offset r + len)) by (lia || (unfold in_s; lia)).
  replace (offset r + size r - (offset r + len)) with (- (len - size r)) by lia.
  rewrite u32_neg by lia. destruct (Z.eqb_spec (2 ^ 32 - (len - size r)) 0); [lia|]. cbn [negb].
  rewrite wrap_small by (unfold in_u; lia).
  rewrite sext_small by (lia || (unfold in_s; lia)).
  pose proof (Z.div_mod (offset r + len) (alignment r) ltac:(lia)).
  rewrite sext_small by (lia || (unfold in_s; lia)).
  split_and!; done || lia.
Qed.

(** The round itself. *)
Lemma overread_steps spath dpath src srclen r buf dst len w :
  savedError r = None -> writeOffset r < chunk_end r -> bytes_to_read no_forcing 0 r <> 0 ->
  align_up (bytes_to_read no_forcing 0 r) (alignment r) = len ->
  0 <= len -> readOffset r + len <= srclen ->
  0 <= w <= bytes_to_write no_forcing 0 r ->
  exists buf' dst', chan_steps no_forcing spath dpath src srclen (mk_chan r buf dst [])
    (mk_chan (completed no_forcing spath dpath EvWrite w
      (completed no_forcing spath dpath EvRead len (submitted no_forcing 0 r))) buf' dst' []).
Proof.
  intros He Hw Hn Hlen H0 Hsl Hw2. eexists _, _. eapply chan_next.
  { apply (step_submit_both no_forcing _ _ src srclen r buf dst 0 0 len
      (splice buf (readOffset r - offset r) len (fun k => src (k + offset r))) (len <? len) w
      (splice dst (writeOffset r) w (fun k => splice buf (readOffset r - offset r) len
        (fun k => src (k + offset r)) (k - offset r)))); [done|done|done| |].
    - rewrite Hlen. apply (read_returns src srclen r len buf len); [lia|by right].
    - rewrite Z.ltb_irrefl. apply second_write; [done|]. by apply write_returns. }
  eapply chan_next; [apply (step_complete no_forcing spath dpath src srclen _ _ _ [] EvRead len _)|].
  eapply chan_next; [apply (step_complete no_forcing spath dpath src srclen _ _ _ [] EvWrite w [])|].
  apply chan_refl.
Qed.

(** A round whose read was rounded up to nothing. *)
Lemma empty_read_steps spath dpath src srclen r buf dst :
  savedError r = None -> writeOffset r < chunk_end r -> bytes_to_read no_forcing 0 r <> 0 ->
  align_up (bytes_to_read no_forcing 0 r) (alignment r) = 0 ->
  0 <= bytes_to_write no_forcing 0 r ->
  exists c, chan_steps no_forcing spath dpath src srclen (mk_chan r buf dst []) c /\
    savedError (c_runner c) = Some (FileShrank spath).
Proof.
  intros He Hw Hn Hlen Hw2. eexists. split.
  { eapply chan_next.
    { apply (step_submit_both no_forcing _ _ src srclen r buf dst 0 0 0
        (splice buf (readOffset r - offset r) 0 (fun k => src (k + offset r))) (0 <? 0) 0
        (splice dst (writeOffset r) 0 (fun k => splice buf (readOffset r - offset r) 0
          (fun k => src (k + offset r)) (k - offset r)))); [done|done|done| |].
      - rewrite Hlen. apply (read_returns src srclen r 0 buf 0); [lia|by left].
      - apply second_write; [done|]. by apply write_returns. }
    eapply chan_next; [apply (step_complete no_forcing spath dpath src srclen _ _ _ [] EvRead 0 _)|].
    apply chan_refl. }
  cbn [c_runner]. rewrite submitted_plain by done. unfold completed.
  cbn [savedError r_set_jobs]. rewrite He. done.
Qed.

(** A file that grew while it is copied is reported to have shrunk.  The read of
    the last chunk, rounded up to the alignment, then returns bytes past the chunk;
    if the write is short, the next round computes what is left to read modulo 2^32,
    rounds it up to zero, and takes the empty read for the end of the file. *)
Theorem grown_file_reported_shrunk spath dpath (src : bytes) srclen r buf dst w :
  fresh_runner r -> 0 < alignment r -> (alignment r | 2 ^ 32) -> 0 < size r ->
  size r + alignment r < 2 ^ 31 -> 0 <= offset r -> offset r mod alignment r = 0 ->
  size r mod alignment r <> 0 -> chunk_end r + alignment r <= srclen < 2 ^ 62 ->
  0 <= w < size r ->
  exists c, chan_steps no_forcing spath dpath src srclen (mk_chan r buf dst []) c /\
    savedError (c_runner c) = Some (FileShrank spath).
Proof.
  intros [F1 F2 F3 F4 F5] Ha Hdiv Hs1 Hs2 Ho Hal Hsm Hsl Hw. unfold chunk_end in Hsl.
  assert (bytes_to_read no_forcing 0 r = size r) as En.
  { unfold bytes_to_read. cbn [FORCE_PARTIAL_READS no_forcing andb]. rewrite F1.
    replace (offset r + size r - offset r) with (size r) by lia. apply wrap_small.
    unfold in_u. lia. }
  destruct (align_up_spec (size r) (alignment r)) as [Hup _]; [done|lia|lia|].
  assert (align_up (size r) (alignment r) = size r - size r mod alignment r + alignment r) as Eup.
  { rewrite align_up_round_up by lia. unfold round_up.
    pose proof (Z.div_mod (size r) (alignment r) ltac:(lia)).
    pose proof (Z.mod_pos_bound (size r) (alignment r) Ha).
    assert ((size r + alignment r - 1) / alignment r = size r / alignment r + 1) as ->; [|lia].
    symmetry. apply (Z.div_unique _ _ _ (size r mod alignment r - 1)); lia. }
  pose proof (Z.mod_pos_bound (size r) (alignment r) Ha) as Hmb.
  set (len := align_up (size r) (alignment r)) in *. set (d := len - size r).
  assert (0 < d < alignment r) as Hd by lia.
  assert ((offset r + len) mod alignment r = 0) as Hmod.
  { rewrite Eup, Zplus_mod, Hal. rewrite (Z.mod_eq (size r)) by lia.
    replace (size r - (size r - alignment r * (size r / alignment r)) + alignment r)
      with ((size r / alignment r + 1) * alignment r) by lia.
    rewrite Z_mod_mult. apply Zmod_0_l. }
  destruct (overread_round spath dpath r len w) as (G1 & G2 & G3 & G4 & G5 & G6);
    [by split|lia..|rewrite En; lia|].
  destruct (overread_steps spath dpath src srclen r buf dst len w) as (b1 & d1 & S1);
    [done|unfold chunk_end; lia|lia|by rewrite En|lia|lia| |].
  { unfold bytes_to_write. cbn [FORCE_PARTIAL_WRITES no_forcing]. rewrite F2.
    rewrite wrap_small by (unfold in_u; lia). lia. }
  revert G1 G2 G3 G4 G5 G6 S1. cbv zeta.
  generalize (completed no_forcing spath dpath EvWrite w
    (completed no_forcing spath dpath EvRead len (submitted no_forcing 0 r))).
  intros r3 G1 G2 G3 G4 G5 G6 S1.
  assert (bytes_to_read no_forcing 0 r3 = 2 ^ 32 - d) as E3.
  { unfold bytes_to_read. cbn [FORCE_PARTIAL_READS no_forcing andb]. rewrite G2, G3, G6.
    replace (offset r + size r - (offset r + len)) with (- d) by lia. apply u32_neg. lia. }
  destruct (empty_read_steps spath dpath src srclen r3 b1 d1) as (c & S2 & He);
    [done|unfold chunk_end; lia|lia|rewrite E3, G4; by apply align_up_wraps| |].
  { unfold bytes_to_write. cbn [FORCE_PARTIAL_WRITES no_forcing].
    apply Z.mod_pos_bound. lia. }
  exists c. split; [by eapply chan_steps_app|done].
Qed.

(** Ten bytes when the copy was planned, ten thousand when it was read, and a write
    of four bytes. *)
Lemma grown_file_reported_shrunk_witness :
  exists c, chan_steps no_forcing "a" "b" (fun k => k) 10000
      (mk_chan sample_runner (fun _ => 0) (fun _ => 0) []) c /\
    savedError (c_runner c) = Some (FileShrank "a").
Proof.
  apply (grown_file_reported_shrunk "a" "b" (fun k => k) 10000 sample_runner (fun _ => 0)
    (fun _ => 0) 4 sample_fresh); try reflexivity; try discriminate;
    try (split; [discriminate|reflexivity]).
  exists (2 ^ 20). reflexivity.
Defined.
