(* ===== verification/RunnerSpec.v ===== *)
(** * What the runner's operations do to the queue

    [submitReadWriteCommands] and [onCompletionEvent] implement the data path of
    RunnerData.v: the entries they queue decode to its requests, and the runner they
    leave is its [submitted] and [completed]. *)

From stdpp Require Import gmap strings.
From S2P Require Import Prelude Abi Prep RingBuf Ring SqSpec Os Util Heap CopyState FileDesc Runner RunnerData RunnerLive.

(** ** Queueing an entry *)

(** The entries queued, and what else of the queue they touch. *)
Record queued {W} (this : Z) (r' : CopyRunner) (es : list io_uring_sqe) (q q' : queue W)
    : Prop := {
  qd_same : q' = set_qring (qu_ring q')
    (set_counters (qu_counters q') (set_runners (<[this := r']> (qu_runners q)) q));
  qd_counters : qu_counters q' = add_submissions (zlen es) (qu_counters q);
  qd_ring : qu_ring q' = set_sq (r_sq (qu_ring q')) (qu_ring q);
  qd_ok : sq_ok (r_sq (qu_ring q'));
  qd_size : sq_kring_entries (r_sq (qu_ring q')) = sq_kring_entries (r_sq (qu_ring q));
  qd_abs : sq_abs (r_sq (qu_ring q')) =
    mk_sq_spec (published (sq_abs (r_sq (qu_ring q))))
      (acquired (sq_abs (r_sq (qu_ring q))) ++ es);
}.

(** Entries that can still be acquired. *)
Definition room {W} (q : queue W) : Z :=
  let sq := r_sq (qu_ring q) in
  sq_kring_entries sq - zlen (published (sq_abs sq)) - zlen (acquired (sq_abs sq)).

Section queueing.
Context {W : Type} {F : Files W}.
Implicit Types (q : queue W) (r : CopyRunner).

Lemma deref_ok {A} (f : queue W -> gmap Z A) p q a : f q !! p = Some a -> deref f p q = Ok (a, q).
Proof. intros H. unfold deref. by rewrite H. Qed.

Lemma get_runner_ok this q r : qu_runners q !! this = Some r -> get_runner this q = Ok (r, q).
Proof. apply deref_ok. Qed.

Lemma get_qfd_ok p q d : qu_qfds q !! p = Some d -> get_qfd p q = Ok (d, q).
Proof. apply deref_ok. Qed.

Lemma getFd_ok p q d : qu_qfds q !! p = Some d -> 2 < q_fd d -> getFd p q = Ok (q_fd d, q).
Proof.
  intros H Hfd. unfold getFd. rewrite (bind_ok _ _ _ _ _ (get_qfd_ok _ _ _ H)).
  unfold bind, assert. by case_z; [|lia].
Qed.

Lemma ensureOpened_open fuel q p d :
  qu_qfds q !! p = Some d -> 2 < q_fd d -> ensureOpened fuel p q = Ok (None, q).
Proof.
  intros Hd Hfd. unfold ensureOpened. rewrite (bind_ok _ _ _ _ _ (get_qfd_ok _ _ _ Hd)).
  unfold bind, assert, CLOSED_VAL, NEVER_OPENED_VAL. do 2 (case_z; [lia|]). done.
Qed.

(** The submission ring with the entry at the tail acquired and filled. *)
Definition with_entry (e : io_uring_sqe) (sq : io_uring_sq) : io_uring_sq :=
  sq_set_sqes (<[Z.to_nat (sqe_tail sq mod sq_kring_entries sq) := e]> (sq_sqes sq))
    (sq_set_sqe_tail (u32 (sqe_tail sq + 1)) sq).

(** The queue [getSqe] leaves, its entry holding [e]. *)
Definition acquired_by (this : Z) (r' : CopyRunner) (e : io_uring_sqe) (q : queue W) : queue W :=
  set_qring (set_sq (with_entry e (r_sq (qu_ring q))) (qu_ring q))
    (set_counters (add_submissions 1 (qu_counters q))
      (set_runners (<[this := r']> (qu_runners q)) q)).

Lemma room_eq q :
  sq_ok (r_sq (qu_ring q)) ->
  room q = sq_kring_entries (r_sq (qu_ring q)) - sq_pending (r_sq (qu_ring q))
    - sq_unflushed (r_sq (qu_ring q)).
Proof. intros Hq. unfold room. by destruct (sq_abs_lengths _ Hq) as [-> ->]. Qed.

Lemma acquired_queued this r' e q :
  sq_ok (r_sq (qu_ring q)) -> 0 < room q -> queued this r' [e] q (acquired_by this r' e q).
Proof.
  intros Hq Hr. rewrite (room_eq q Hq) in Hr.
  destruct (get_store_ok (r_sq (qu_ring q)) e Hq ltac:(lia)) as (_ & Hok & Habs).
  by split.
Qed.

Lemma queued_trans this r1 r2 e es q q1 q2 :
  queued this r1 [e] q q1 -> queued this r2 es q1 q2 -> queued this r2 (e :: es) q q2.
Proof.
  intros [A1 A2 A3 A4 A5 A6] [B1 B2 B3 B4 B5 B6]. split.
  - rewrite B1, A1. simpl. by rewrite insert_insert_eq.
  - rewrite B2, A2. unfold add_submissions. simpl. f_equal. rewrite wrap_add_l. f_equal.
    unfold zlen. simpl. lia.
  - rewrite B3, A3. done.
  - done.
  - by rewrite B5.
  - rewrite B6, A6. simpl. by rewrite <- app_assoc.
Qed.

Lemma queued_room this r' es q q' : queued this r' es q q' -> room q' = room q - zlen es.
Proof.
  intros [_ _ _ _ Hs Ha]. unfold room. rewrite Ha, Hs. simpl. unfold zlen.
  rewrite length_app. lia.
Qed.

Lemma queued_runner this r' es q q' : queued this r' es q q' -> qu_runners q' !! this = Some r'.
Proof. intros [-> _ _ _ _ _]. apply lookup_insert_eq. Qed.

Lemma queued_qfds this r' es q q' : queued this r' es q q' -> qu_qfds q' = qu_qfds q.
Proof. by intros [-> _ _ _ _ _]. Qed.

Lemma queued_put this r' r2 es q q' :
  queued this r' es q q' -> exists q2, put_runner this r2 q' = Ok (tt, q2) /\ queued this r2 es q q2.
Proof.
  intros [A1 A2 A3 A4 A5 A6]. eexists. split; [done|]. split; try done. simpl.
  rewrite A1. simpl. by rewrite insert_insert_eq.
Qed.

(** Writing to the entry just acquired. *)
Lemma fill_acquired this r' e f q :
  sq_ok (r_sq (qu_ring q)) ->
  fill_sqe (sqe_tail (r_sq (qu_ring q)) mod sq_kring_entries (r_sq (qu_ring q))) f
    (acquired_by this r' e q) = Ok (tt, acquired_by this r' (f e) q).
Proof.
  intros Hq. set (sq := r_sq (qu_ring q)). set (slot := sqe_tail sq mod sq_kring_entries sq).
  assert (0 <= slot < zlen (sq_sqes sq)) as Hs.
  { rewrite (sq_sqes_len sq Hq). apply Z.mod_pos_bound, (sq_entries_pos sq Hq). }
  unfold fill_sqe, bind, gets. cbn. fold sq slot.
  rewrite zget_set_eq by done. unfold sqe_store. cbn. fold slot.
  rewrite zset_in by (by rewrite zlen_insert). cbn. unfold modify, acquired_by. cbn.
  by rewrite list_insert_insert_eq.
Qed.

Lemma put_acquired this r' r2 e q :
  put_runner this r2 (acquired_by this r' e q) = Ok (tt, acquired_by this r2 e q).
Proof. unfold put_runner, modify, acquired_by. cbn. by rewrite insert_insert_eq. Qed.

(** With an entry free the loop of [getSqe] ends at once. *)
Lemma getSqe_ok fuel this q r :
  qu_runners q !! this = Some r -> sq_ok (r_sq (qu_ring q)) -> 0 < room q -> (0 < fuel)%nat ->
  exists e, getSqe fuel this q =
    Ok (sqe_tail (r_sq (qu_ring q)) mod sq_kring_entries (r_sq (qu_ring q)),
        acquired_by this (r_set_jobs (s32 (jobsRunning r + 1)) r) e q).
Proof.
  intros Hr Hq Hroom Hf. rewrite (room_eq q Hq) in Hroom.
  set (sq := r_sq (qu_ring q)) in *. set (slot := sqe_tail sq mod sq_kring_entries sq).
  destruct (zget_in (sq_sqes sq) slot) as [e He].
  { rewrite (sq_sqes_len sq Hq). apply Z.mod_pos_bound, (sq_entries_pos sq Hq). }
  exists e. unfold getSqe. rewrite (bind_ok _ _ _ _ _ (get_runner_ok _ _ _ Hr)).
  destruct fuel as [|fuel]; [lia|]. unfold bind, put_runner, on_counters, modify.
  cbn -[io_uring_get_sqe]. unfold bind, gets. cbn -[io_uring_get_sqe]. fold sq.
  rewrite (get_sqe_eq sq Hq). case_z; [|lia]. unfold modify, ret, acquired_by. cbn. fold sq.
  do 4 f_equal. unfold with_entry. fold slot. rewrite list_insert_id; [by destruct sq|].
  unfold zget in He. destruct (slot <? 0); [done|]. exact He.
Qed.
End queueing.

(** ** The requests *)

Definition read_entry (this fd n : Z) (r : CopyRunner) : io_uring_sqe :=
  let e := io_uring_prep_read fd (bufferAligned r + readOffset r - offset r)
    (align_up n (alignment r)) (readOffset r) zero_sqe in
  set_user_data (event_addr this EvRead) (set_flags (Z.lor (sqe_flags e) IOSQE_IO_LINK) e).

Definition write_entry (cfg : config) (this fd rnd : Z) (forced : bool) (r : CopyRunner)
    : io_uring_sqe :=
  set_user_data (event_addr this EvWrite)
    (if forced then io_uring_prep_nop zero_sqe
     else io_uring_prep_write fd (bufferAligned r + writeOffset r - offset r)
       (bytes_to_write cfg rnd r) (writeOffset r) zero_sqe).

(** The entries of a round, in the order they are queued. *)
Definition round_entries (cfg : config) (this sfd dfd rnd1 rnd2 : Z) (r : CopyRunner)
    : list io_uring_sqe :=
  let n := bytes_to_read cfg rnd1 r in
  (if n =? 0 then [] else [read_entry this sfd n r]) ++
  [write_entry cfg this dfd rnd2 (forced_partial cfg rnd1 r) r].

(** What the kernel reads in an entry: the request, the link flag, the user data. *)
Definition entry_is (e : io_uring_sqe) (rq : request) (linked : bool) (ud : Z) : Prop :=
  decode e = Some rq /\ sqe_flags e = (if linked then IOSQE_IO_LINK else 0) /\
  sqe_user_data e = ud.

Lemma event_addr_u64 this t : u64 (event_addr this t) = event_addr this t.
Proof. unfold event_addr. apply wrap_wrap. Qed.

Lemma read_entry_is this fd n r :
  request_ok (Read fd (bufferAligned r + readOffset r - offset r) (align_up n (alignment r))
    (readOffset r)) ->
  entry_is (read_entry this fd n r)
    (Read fd (bufferAligned r + readOffset r - offset r) (align_up n (alignment r)) (readOffset r))
    true (event_addr this EvRead).
Proof.
  simpl. intros Hok. destruct_and?. split; [|by split; [|apply event_addr_u64]].
  unfold decode, read_entry. prep_simpl. autorewrite with wrapdb. simpl. prep_simpl.
  by rewrite ?sext_wrap, ?sext_small, ?wrap_small by (done || auto).
Qed.

Lemma write_entry_is cfg this fd rnd r :
  request_ok (Write fd (bufferAligned r + writeOffset r - offset r) (bytes_to_write cfg rnd r)
    (writeOffset r)) ->
  entry_is (write_entry cfg this fd rnd false r)
    (Write fd (bufferAligned r + writeOffset r - offset r) (bytes_to_write cfg rnd r)
      (writeOffset r)) false (event_addr this EvWrite).
Proof.
  simpl. intros Hok. destruct_and?. split; [|by split; [|apply event_addr_u64]].
  unfold decode, write_entry. prep_simpl. autorewrite with wrapdb. simpl. prep_simpl.
  by rewrite ?sext_wrap, ?sext_small, ?wrap_small by (done || auto).
Qed.

Lemma nop_entry_is cfg this fd rnd r :
  entry_is (write_entry cfg this fd rnd true r) Nop false (event_addr this EvWrite).
Proof. split; [done|]. split; [done|]. apply event_addr_u64. Qed.

Section submitting.
Context {W : Type} {F : Files W} (cfg : config) (fuel : nat) (Hfuel : (0 < fuel)%nat) (this : Z).
Implicit Types (q : queue W) (r : CopyRunner).

Lemma submit_read_ok q r d n (forced : bool) :
  qu_runners q !! this = Some r -> qu_qfds q !! sourceFd r = Some d -> 2 < q_fd d ->
  sq_ok (r_sq (qu_ring q)) -> 0 < room q ->
  let r1 := r_set_jobs (s32 (jobsRunning r + 1)) r in
  let r2 := if forced then r_set_overrides (s32 n) (writeOverride r1) r1 else r1 in
  exists q', submit_read fuel this n forced q = Ok (tt, q') /\
    queued this r2 [read_entry this (q_fd d) n r] q q'.
Proof.
  intros Hr Hd Hfd Hq Hroom r1 r2.
  destruct (getSqe_ok fuel this q r Hr Hq Hroom Hfuel) as [e0 Hget].
  exists (acquired_by this r2 (read_entry this (q_fd d) n r) q).
  split; [|by apply acquired_queued]. unfold submit_read. fold r1 in Hget.
  rewrite (bind_ok _ _ _ _ _ Hget).
  rewrite (bind_ok _ _ _ _ _ (get_runner_ok this (acquired_by this r1 e0 q) r1
    (lookup_insert_eq _ _ _))).
  rewrite (bind_ok _ _ _ _ _ (getFd_ok (sourceFd r1) (acquired_by this r1 e0 q) d Hd Hfd)).
  do 3 rewrite (bind_ok _ _ _ _ _ (fill_acquired this r1 _ _ q Hq)).
  subst r2. destruct forced; [|done]. apply put_acquired.
Qed.

Lemma submit_write_ok q r d rnd (forced : bool) :
  qu_runners q !! this = Some r -> qu_qfds q !! destFd r = Some d -> 2 < q_fd d ->
  sq_ok (r_sq (qu_ring q)) -> 0 < room q ->
  let r1 := r_set_jobs (s32 (jobsRunning r + 1)) r in
  let r2 := if forced then r_set_overrides (readOverride r1) (- ECANCELED) r1 else r1 in
  exists q', submit_write cfg fuel this rnd forced q = Ok (tt, q') /\
    queued this r2 [write_entry cfg this (q_fd d) rnd forced r] q q'.
Proof.
  intros Hr Hd Hfd Hq Hroom r1 r2.
  destruct (getSqe_ok fuel this q r Hr Hq Hroom Hfuel) as [e0 Hget].
  exists (acquired_by this r2 (write_entry cfg this (q_fd d) rnd forced r) q).
  split; [|by apply acquired_queued]. unfold submit_write. fold r1 in Hget.
  rewrite (bind_ok _ _ _ _ _ Hget).
  rewrite (bind_ok _ _ _ _ _ (get_runner_ok this (acquired_by this r1 e0 q) r1
    (lookup_insert_eq _ _ _))).
  subst r2. destruct forced.
  - erewrite bind_ok; [|rewrite (bind_ok _ _ _ _ _ (fill_acquired this r1 _ _ q Hq));
      apply put_acquired].
    by rewrite (fill_acquired this _ _ _ q Hq).
  - erewrite bind_ok; [|rewrite (bind_ok _ _ _ _ _
      (getFd_ok (destFd r1) (acquired_by this r1 e0 q) d Hd Hfd));
      apply (fill_acquired this r1 _ _ q Hq)].
    by rewrite (fill_acquired this _ _ _ q Hq).
Qed.
End submitting.

Section batch.
Context {W : Type} {F : Files W} (cfg : config) (fuel : nat) (Hfuel : (0 < fuel)%nat) (this : Z).

(** A runner ready for a round: its descriptors open, two entries free. *)
Record ready (q : queue W) (r : CopyRunner) (ds dd : QueueFileDescriptor) : Prop := {
  rd_runner : qu_runners q !! this = Some r;
  rd_src : qu_qfds q !! sourceFd r = Some ds;
  rd_dst : qu_qfds q !! destFd r = Some dd;
  rd_fds : in_s 32 (q_fd ds) /\ in_s 32 (q_fd dd) /\ 2 < q_fd ds /\ 2 < q_fd dd;
  rd_ring : sq_ok (r_sq (qu_ring q));
  rd_room : 2 <= room q;
  rd_buffer : buffer r <> 0;
  rd_addr : 0 <= bufferAligned r /\ bufferAligned r + size r + alignment r < 2 ^ 64;
}.

Lemma submit_commands_ok q r ds dd rnd1 rnd2 :
  ready q r ds dd -> jobsRunning r = 0 -> writeOffset r < chunk_end r ->
  exists q', submitReadWriteCommands cfg fuel this rnd1 rnd2 q = Ok (None, q') /\
    queued this (submitted cfg rnd1 r)
      (round_entries cfg this (q_fd ds) (q_fd dd) rnd1 rnd2 r) q q'.
Proof.
  intros [Hr Hs Hd (_ & _ & Hfs & Hfd) Hq Hroom _ _] Hj Hw. unfold submitReadWriteCommands.
  rewrite (bind_ok _ _ _ _ _ (get_runner_ok _ _ _ Hr)).
  assert (open_both fuel r q = Ok (None, q)) as Hopen.
  { unfold open_both. rewrite (bind_ok _ _ _ _ _ (ensureOpened_open fuel q _ ds Hs Hfs)).
    by apply (ensureOpened_open fuel q _ dd). }
  rewrite (bind_ok _ _ _ _ _ Hopen). unfold chunk_end in Hw.
  rewrite (bind_ok _ _ q tt q) by (by rewrite Hj).
  rewrite (bind_ok _ _ q tt q) by (unfold assert; by case_z; [|lia]).
  fold (chunk_end r). fold (forced_partial cfg rnd1 r).
  set (n := bytes_to_read cfg rnd1 r). set (forced := forced_partial cfg rnd1 r).
  assert ((writeOffset r <? chunk_end r) = true) as Hlt by (apply Z.ltb_lt; done).
  rewrite Hlt. unfold round_entries, submitted. fold n forced.
  destruct (Z.eqb_spec n 0) as [En|En]; cbn [negb app].
  - rewrite (bind_ok _ _ q tt q) by done. rewrite Hlt.
    destruct (submit_write_ok cfg fuel Hfuel this q r dd rnd2 forced Hr Hd Hfd Hq ltac:(lia))
      as (q' & Hsub & Hqd).
    rewrite (bind_ok _ _ _ _ _ Hsub). exists q'. split; [done|exact Hqd].
  - destruct (submit_read_ok fuel Hfuel this q r ds n forced Hr Hs Hfs Hq ltac:(lia))
      as (q1 & Hsub1 & Hqd1).
    rewrite (bind_ok _ _ _ _ _ Hsub1).
    set (r1 := if forced then _ else _) in Hqd1.
    pose proof (queued_runner _ _ _ _ _ Hqd1) as Hr1. pose proof (queued_room _ _ _ _ _ Hqd1).
    assert (qu_qfds q1 !! destFd r1 = Some dd) as Hd1
      by (rewrite (queued_qfds _ _ _ _ _ Hqd1); by destruct forced).
    destruct (submit_write_ok cfg fuel Hfuel this q1 r1 dd rnd2 forced Hr1 Hd1 Hfd
      (qd_ok _ _ _ _ _ Hqd1)) as (q2 & Hsub2 & Hqd2); [unfold zlen in *; simpl in *; lia|].
    rewrite (bind_ok _ _ _ _ _ Hsub2). exists q2. split; [done|].
    pose proof (queued_trans _ _ _ _ _ _ _ _ Hqd1 Hqd2) as Hqd.
    assert (write_entry cfg this (q_fd dd) rnd2 forced r1
      = write_entry cfg this (q_fd dd) rnd2 forced r) as Ew by (by destruct forced).
    rewrite Ew in Hqd. clearbody forced. subst r1.
    destruct forced; cbn -[write_entry read_entry chunk_end] in *;
      change (chunk_end (r_set_overrides _ _ _)) with (chunk_end r);
      change (chunk_end (r_set_jobs _ _)) with (chunk_end r); rewrite Hlt; exact Hqd.
Qed.
End batch.

(** The arguments of the requests of a reachable runner fit their members. *)
Lemma core_request_ok cfg (src : bytes) srclen r buf dst sfd dfd rnd1 rnd2 :
  chunk_ok srclen r -> core cfg src r buf dst [] -> in_s 32 sfd -> in_s 32 dfd ->
  0 <= bufferAligned r -> bufferAligned r + size r + alignment r < 2 ^ 64 ->
  request_ok (Read sfd (bufferAligned r + readOffset r - offset r)
    (align_up (bytes_to_read cfg rnd1 r) (alignment r)) (readOffset r)) /\
  request_ok (Write dfd (bufferAligned r + writeOffset r - offset r) (bytes_to_write cfg rnd2 r)
    (writeOffset r)).
Proof.
  intros Hck [C1 C2 C3 C4 _ _ _ _ _] Hs Hd Hb1 Hb2.
  pose proof (ck_align _ _ Hck) as Ha. pose proof (ck_size _ _ Hck) as [Hs1 Hs2].
  pose proof (ck_end _ _ Hck) as Hend. pose proof (ck_offset _ _ Hck) as [Ho1 Ho2].
  destruct (bytes_to_read_spec cfg srclen r Hck rnd1 C2) as (Hb & _ & _).
  pose proof (bytes_to_write_spec cfg srclen r Hck rnd2 C4) as Hbw.
  unfold chunk_end in *.
  destruct (align_up_spec (bytes_to_read cfg rnd1 r) (alignment r) Ha (proj1 Hb) ltac:(lia))
    as [Hup _].
  unfold request_ok, in_u, in_s in *. lia.
Qed.

(** C13: a round of requests is what the data path assumes.  For a runner that went
    through any rounds without an error and is not finished, with its descriptors
    open and two entries free, addToBatch queues, behind the entries there, a read
    linked to what follows (unless everything has been read) and a write, which the
    kernel decodes to exactly the requests of the data path, with the runner's
    addresses as user data; it leaves the runner as the data path says, counts the
    submissions and touches nothing else. *)
Theorem round_is_queued {W} {F : Files W} cfg fuel this spath dpath (src : bytes) srclen r0 r
    buf0 dst0 buf dst ds dd rnd1 rnd2 (q : queue W) :
  chunk_ok srclen r0 -> fresh_runner r0 ->
  chan_steps cfg spath dpath src srclen (mk_chan r0 buf0 dst0 []) (mk_chan r buf dst []) ->
  savedError r = None -> writeOffset r < chunk_end r ->
  ready this q r ds dd -> (0 < fuel)%nat ->
  let n := bytes_to_read cfg rnd1 r in
  exists q' rd wr,
    addToBatch cfg fuel this rnd1 rnd2 q = Ok (None, q') /\
    queued this (submitted cfg rnd1 r) (if n =? 0 then [wr] else [rd; wr]) q q' /\
    entry_is rd (Read (q_fd ds) (bufferAligned r + readOffset r - offset r)
      (align_up n (alignment r)) (readOffset r)) true (event_addr this EvRead) /\
    entry_is wr (if forced_partial cfg rnd1 r then Nop
      else Write (q_fd dd) (bufferAligned r + writeOffset r - offset r)
        (bytes_to_write cfg rnd2 r) (writeOffset r)) false (event_addr this EvWrite).
Proof.
  intros Hck Hf Hs He Hw Hrdy Hfuel n.
  destruct (chan_steps_inv cfg spath dpath src srclen r0 dst0 _ _ Hck
    (fresh_inv cfg src srclen r0 buf0 dst0 Hck Hf) Hs) as [Hsame _ _ _ _ _ Hc]. cbn in *.
  specialize (Hc He). pose proof (same_chunk_ok _ _ _ Hsame Hck) as Hck'.
  destruct (submit_commands_ok cfg fuel Hfuel this q r ds dd rnd1 rnd2 Hrdy
    (co_jobs _ _ _ _ _ _ Hc) Hw) as (q' & Hsub & Hqd).
  destruct (rd_fds _ _ _ _ _ Hrdy) as (F1 & F2 & _). destruct (rd_addr _ _ _ _ _ Hrdy) as [B1 B2].
  destruct (core_request_ok cfg src srclen r buf dst _ _ rnd1 rnd2 Hck' Hc F1 F2 B1 B2)
    as [Hrok Hwok].
  exists q', (read_entry this (q_fd ds) n r),
    (write_entry cfg this (q_fd dd) rnd2 (forced_partial cfg rnd1 r) r).
  split; [|split; [|split]].
  - unfold addToBatch. rewrite (bind_ok _ _ _ _ _ (get_runner_ok _ _ _ (rd_runner _ _ _ _ _ Hrdy))).
    unfold needsBuffer. pose proof (rd_buffer _ _ _ _ _ Hrdy).
    rewrite (bind_ok _ _ q tt q) by (by destruct (Z.eqb_spec (buffer r) 0)).
    rewrite (bind_ok _ _ q tt q) by (by rewrite He).
    rewrite (bind_ok _ _ q tt q) by (unfold assert, chunk_end in *; by case_z; [|lia]).
    exact Hsub.
  - unfold round_entries in Hqd. fold n in Hqd. by destruct (n =? 0).
  - by apply read_entry_is.
  - destruct (forced_partial cfg rnd1 r); [apply nop_entry_is|by apply write_entry_is].
Qed.

(** A queue with an empty ring of four entries and one runner, alone on its file. *)
Definition sample_queue : queue script :=
  mk_queue (mk_ost (mk_script [] 0) 0)
    (mk_ring (sq_fresh 2 0) (mk_cq 0 0 7 8 None 0 []) 0 5 0)
    (Heap.mk_heap [true] 8192 1 8192 4096) 16 4 (mk_counters 1 0 10 0 0)
    {[1 := mk_qfd "a" 0 0 3; 2 := mk_qfd "b" 0 0 4]} {[3 := 1]} {[100 := sample_runner]}.

Lemma sample_ready :
  ready 100 sample_queue sample_runner (mk_qfd "a" 0 0 3) (mk_qfd "b" 0 0 4).
Proof.
  split; try reflexivity; try discriminate.
  - split_and!; by vm_compute.
  - apply sq_fresh_ok; [lia|by vm_compute].
  - split; by vm_compute.
Qed.

Lemma round_is_queued_witness :
  exists q' rd wr, addToBatch no_forcing 1 100 0 0 sample_queue = Ok (None, q') /\
    queued 100 (submitted no_forcing 0 sample_runner) [rd; wr] sample_queue q' /\
    entry_is rd (Read 3 8192 4096 0) true 200 /\ entry_is wr (Write 4 8192 10 0) false 201.
Proof.
  destruct (round_is_queued no_forcing 1 100 "a" "b" (fun k => k) 10 sample_runner sample_runner
    (fun _ => 0) (fun _ => 0) (fun _ => 0) (fun _ => 0) _ _ 0 0 sample_queue
    sample_chunk_ok sample_fresh (chan_refl _ _ _ _ _ _) eq_refl eq_refl sample_ready
    (le_n 1)) as (q' & rd & wr & H1 & H2 & H3 & H4).
  exists q', rd, wr. split; [exact H1|]. split; [exact H2|]. split; [exact H3|exact H4].
Defined.

(** ** Completions *)

(** What the handler tells the queue to do with the runner. *)
Definition verdict (r : CopyRunner) : RunnerResult :=
  if jobsRunning r =? 0 then
    match savedError r with
    | Some e => RError e
    | None => if writeOffset r =? chunk_end r then FinishedTag else RescheduleTag
    end
  else ContinueTag.

(** The objects a runner points to. *)
Record files_ok {W} (q : queue W) (r : CopyRunner) (ds dd : QueueFileDescriptor) (n : Z)
    : Prop := {
  fi_src : qu_qfds q !! sourceFd r = Some ds;
  fi_dst : qu_qfds q !! destFd r = Some dd;
  fi_fds : (isOpen ds = true -> 2 < q_fd ds) /\ (isOpen dd = true -> 2 < q_fd dd);
  fi_chunks : qu_chunks q !! chunksRemaining r = Some n;
}.

(** Nothing but the descriptors and the operating system changed. *)
Definition same_but_files {W} (q q' : queue W) : Prop :=
  qu_ring q' = qu_ring q /\ qu_heap q' = qu_heap q /\ qu_counters q' = qu_counters q /\
  qu_chunks q' = qu_chunks q /\ qu_runners q' = qu_runners q.

Section closing.
Context {W : Type} {F : Files W}.
Implicit Types (q : queue W) (r : CopyRunner) (d : QueueFileDescriptor).

(** Closing one descriptor: afterwards it is not open, and no other has changed. *)
Lemma close_one_ok q p d result :
  qu_qfds q !! p = Some d -> (isOpen d = true -> 2 < q_fd d) ->
  exists res q', close_one p result q = Ok (res, q') /\ same_but_files q q' /\
    qu_qfds q' = (if isOpen d then <[p := qfd_set_fd CLOSED_VAL d]> (qu_qfds q) else qu_qfds q).
Proof.
  intros Hd Hfd. unfold close_one. rewrite (bind_ok _ _ _ _ _ (get_qfd_ok _ _ _ Hd)).
  destruct (isOpen d) eqn:Ho; [|by eexists _, _].
  rewrite (bind_ok _ _ _ _ _ (getFd_ok _ _ _ Hd (Hfd eq_refl))).
  assert (exists tmp o, with_os (myClose (q_fd d)) q = Ok (tmp, set_os o q)) as (tmp & o & Hcl).
  { unfold with_os, myClose, sys_close, syscall, bind. destruct (f_close _ _) as [[w v] e].
    destruct (v <? 0); by eexists _, _. }
  rewrite (bind_ok _ _ _ _ _ Hcl).
  assert (notifyClosed p (set_os o q) = Ok (tt, set_fdsUsed (u64 (fileDescriptorsUsed q - 1))
    (set_qfds (<[p := qfd_set_fd CLOSED_VAL d]> (qu_qfds q)) (set_os o q)))) as Hn.
  { unfold notifyClosed. by rewrite (bind_ok _ _ _ _ _ (get_qfd_ok p (set_os o q) d Hd)). }
  rewrite (bind_ok _ _ _ _ _ Hn). by eexists _, _.
Qed.

(** The fork of [handleFileClose]: the last chunk closes both files. *)
Lemma handleFileClose_ok this q r ds dd n :
  qu_runners q !! this = Some r -> files_ok q r ds dd n ->
  exists res q', handleFileClose this q = Ok (res, q') /\ same_but_files q q' /\
    (n <> 1 -> q' = q) /\
    (n = 1 -> forall d, qu_qfds q' !! sourceFd r = Some d \/ qu_qfds q' !! destFd r = Some d ->
       isOpen d = false).
Proof.
  intros Hr [Hs Hd [Fs Fd] Hn]. unfold handleFileClose.
  rewrite (bind_ok _ _ _ _ _ (get_runner_ok _ _ _ Hr)).
  rewrite (bind_ok _ _ _ _ _ (deref_ok qu_chunks _ _ _ Hn : get_chunks _ _ = _)).
  destruct (Z.eqb_spec n 1) as [->|Hne]; [|by eexists _, _].
  destruct (close_one_ok q _ ds None Hs Fs) as (r1 & q1 & H1 & S1 & Q1).
  rewrite (bind_ok _ _ _ _ _ H1).
  assert (exists dd', qu_qfds q1 !! destFd r = Some dd' /\ (isOpen dd' = true -> 2 < q_fd dd') /\
    (sourceFd r = destFd r -> isOpen dd' = false)) as (dd' & D1 & D2 & D3).
  { rewrite Q1. destruct (isOpen ds) eqn:Ho; [|exists dd; by split_and!; [| |intros E; congruence]].
    destruct (decide (sourceFd r = destFd r)) as [E|E].
    - exists (qfd_set_fd CLOSED_VAL ds). rewrite E, lookup_insert_eq. done.
    - exists dd. by rewrite lookup_insert_ne. }
  destruct (close_one_ok q1 _ dd' r1 D1 D2) as (r2 & q2 & H2 & S2 & Q2).
  eexists _, _. split; [exact H2|]. split; [|split; [done|]].
  { unfold same_but_files in *. intuition congruence. }
  intros _ d [Hx|Hx]; rewrite Q2 in Hx.
  - assert (qu_qfds q1 !! sourceFd r = Some d -> isOpen d = false) as Hsrc.
    { rewrite Q1. destruct (isOpen ds) eqn:Ho; [|congruence].
      rewrite lookup_insert_eq. by intros [= <-]. }
    destruct (isOpen dd'); [|by apply Hsrc]. destruct (decide (sourceFd r = destFd r)) as [E|E].
    + rewrite E, lookup_insert_eq in Hx. by injection Hx as <-.
    + rewrite lookup_insert_ne in Hx by done. by apply Hsrc.
  - destruct (isOpen dd') eqn:Ho; [|congruence]. rewrite lookup_insert_eq in Hx.
    by injection Hx as <-.
Qed.
End closing.

Section handling.
Context {W : Type} {F : Files W} (cfg : config) (this : Z).
Implicit Types (q : queue W) (r : CopyRunner).

(** The queue after an operation on the runner that may have closed its files. *)
Record handled (q q' : queue W) (r' : CopyRunner) (c : counters) : Prop := {
  ha_ring : qu_ring q' = qu_ring q;
  ha_heap : qu_heap q' = qu_heap q;
  ha_counters : qu_counters q' = c;
  ha_chunks : qu_chunks q' = qu_chunks q;
  ha_runners : qu_runners q' = <[this := r']> (qu_runners q);
}.

(** Storing the runner keeps what is known of its files. *)
Lemma put_files q r r1 ds dd n :
  files_ok q r ds dd n -> sourceFd r1 = sourceFd r -> destFd r1 = destFd r ->
  chunksRemaining r1 = chunksRemaining r ->
  files_ok (set_runners (<[this := r1]> (qu_runners q)) q) r1 ds dd n.
Proof. intros [H1 H2 H3 H4] E1 E2 E3. split; rewrite ?E1, ?E2, ?E3; done. Qed.

(** Whether the two files of a runner are closed. *)
Definition files_closed (q : queue W) (r : CopyRunner) : Prop :=
  forall d, qu_qfds q !! sourceFd r = Some d \/ qu_qfds q !! destFd r = Some d ->
    isOpen d = false.

Lemma saveError_ok q r e ds dd n :
  qu_runners q !! this = Some r -> savedError r = None -> files_ok q r ds dd n ->
  exists q', saveError this e q = Ok (tt, q') /\
    handled q q' (r_set_error (Some e) r) (qu_counters q) /\
    (n = 1 -> files_closed q' r) /\ (n <> 1 -> qu_qfds q' = qu_qfds q).
Proof.
  intros Hr He Hf. unfold saveError. rewrite (bind_ok _ _ _ _ _ (get_runner_ok _ _ _ Hr)), He.
  set (r1 := r_set_error (Some e) r). set (q1 := set_runners (<[this := r1]> (qu_runners q)) q).
  rewrite (bind_ok _ _ q tt q1) by done.
  destruct (handleFileClose_ok this q1 r1 ds dd n (lookup_insert_eq _ _ _)
    (put_files q r r1 ds dd n Hf eq_refl eq_refl eq_refl)) as (res & q' & Hc & Hs & Hne & Heq).
  unfold cleanupOnError. rewrite (bind_ok _ _ _ _ _ Hc). exists q'. split; [done|].
  destruct Hs as (S1 & S2 & S3 & S4 & S5). split; [by split|]. split.
  - intros E. exact (Heq E).
  - intros E. by rewrite (Hne E).
Qed.

(** [on_read] and [on_write] against [completed], on the runner [r] whose jobs and
    override were updated. *)
Lemma on_read_ok q r result ds dd n :
  qu_runners q !! this = Some r -> savedError r = None -> files_ok q r ds dd n ->
  let r' := if result =? 0 then advance_read 0 (r_set_error (Some (FileShrank (q_path ds))) r)
    else if result <? 0 then r_set_error (Some (ErrorReading (q_path ds) (- result))) r
    else advance_read result r in
  exists q', on_read this result q = Ok (tt, q') /\ handled q q' r' (qu_counters q) /\
    (savedError r' <> None -> n = 1 -> files_closed q' r) /\
    (savedError r' = None \/ n <> 1 -> qu_qfds q' = qu_qfds q).
Proof.
  intros Hr He Hf r'. unfold on_read.
  rewrite (bind_ok _ _ _ _ _ (get_runner_ok _ _ _ Hr)).
  rewrite (bind_ok _ _ _ _ _ (get_qfd_ok _ _ _ (fi_src _ _ _ _ _ Hf))). subst r'.
  destruct (Z.eqb_spec result 0) as [->|Hn0]; cbn [Z.ltb Z.compare].
  - destruct (saveError_ok q r (FileShrank (q_path ds)) ds dd n Hr He Hf)
      as (q1 & H1 & [A1 A2 A3 A4 A5] & C1 & C2).
    rewrite (bind_ok _ _ _ _ _ H1).
    rewrite (bind_ok _ _ _ _ _ (get_runner_ok this q1 _ ltac:(rewrite A5; apply lookup_insert_eq))).
    eexists. split; [done|]. split; [|split].
    + split; simpl; try done. by rewrite A5, insert_insert_eq.
    + intros _ E. exact (C1 E).
    + intros [E|E]; [done|]. simpl. by rewrite C2.
  - rewrite (bind_ok _ _ q tt q) by done.
    destruct (Z.ltb_spec result 0).
    + destruct (saveError_ok q r (ErrorReading (q_path ds) (- result)) ds dd n Hr He Hf)
        as (q1 & H1 & Ha & C1 & C2).
      exists q1. split; [done|]. split; [done|]. split; [intros _; exact C1|].
      intros [E|E]; [done|by apply C2].
    + rewrite (bind_ok _ _ _ _ _ (get_runner_ok _ _ _ Hr)).
      eexists. split; [done|]. split; [by split|]. split; [|done].
      intros E. by destruct E.
Qed.

Lemma on_write_ok q r result ds dd n :
  qu_runners q !! this = Some r -> savedError r = None -> files_ok q r ds dd n ->
  let r' := if result <? 0 then
      if negb (result =? - ECANCELED)
      then r_set_error (Some (ErrorWriting (q_path dd) (- result))) r else r
    else r_set_writeOffset (s64 (writeOffset r + result)) r in
  exists q', on_write this result q = Ok (tt, q') /\
    handled q q' r' (if result <? 0 then qu_counters q else add_copied result (qu_counters q)) /\
    (savedError r' <> None -> n = 1 -> files_closed q' r) /\
    (savedError r' = None \/ n <> 1 -> qu_qfds q' = qu_qfds q).
Proof.
  intros Hr He Hf r'. unfold on_write.
  rewrite (bind_ok _ _ _ _ _ (get_runner_ok _ _ _ Hr)). subst r'.
  destruct (Z.ltb_spec result 0).
  - destruct (Z.eqb_spec result (- ECANCELED)); cbn [negb].
    + exists q. split; [done|]. split.
      { split; try done. by rewrite insert_id. }
      split; [|done]. intros E. by destruct E.
    + rewrite (bind_ok _ _ _ _ _ (get_qfd_ok _ _ _ (fi_dst _ _ _ _ _ Hf))).
      destruct (saveError_ok q r (ErrorWriting (q_path dd) (- result)) ds dd n Hr He Hf)
        as (q1 & H1 & Ha & C1 & C2).
      exists q1. split; [done|]. split; [done|]. split; [intros _; exact C1|].
      intros [E|E]; [done|by apply C2].
  - eexists. split; [done|]. split; [by split|]. split; [|done].
    intros E. by destruct E.
Qed.
End handling.

(** What a write completion adds to the bytes copied. *)
Definition counted (cfg : config) (t : event_type) (result : Z) (r : CopyRunner) (c : counters)
    : counters :=
  match savedError r, t with
  | None, EvWrite =>
      let n := spoofed cfg (writeOverride r) result in
      if n <? 0 then c else add_copied n c
  | _, _ => c
  end.

Section completing.
Context {W : Type} {F : Files W} (cfg : config) (this : Z).
Implicit Types (q : queue W) (r : CopyRunner).

(** The handler's middle part: everything up to the verdict. *)
Definition handle_event (t : event_type) (result jobs : Z) (r : CopyRunner)
    : prog (queue W) unit :=
  match savedError r with
  | Some _ => ret tt
  | None =>
      match t with
      | EvRead =>
          let over := readOverride r in
          do* put_runner this (r_set_overrides (spent cfg over) (writeOverride r)
                                 (r_set_jobs jobs r)) in
          on_read this (spoofed cfg over result)
      | EvWrite =>
          let over := writeOverride r in
          do* put_runner this (r_set_overrides (readOverride r) (spent cfg over)
                                 (r_set_jobs jobs r)) in
          on_write this (spoofed cfg over result)
      end
  end.

Lemma handle_event_ok q r t result ds dd n :
  let r1 := r_set_jobs (s32 (jobsRunning r - 1)) r in
  let r' := completed cfg (q_path ds) (q_path dd) t result r in
  qu_runners q !! this = Some r1 -> files_ok q r1 ds dd n ->
  exists q', handle_event t result (s32 (jobsRunning r - 1)) r q = Ok (tt, q') /\
    handled this q q' r' (counted cfg t result r (qu_counters q)) /\
    (savedError r = None -> savedError r' <> None -> n = 1 -> files_closed q' r) /\
    (savedError r' = savedError r \/ n <> 1 -> qu_qfds q' = qu_qfds q).
Proof.
  intros r1 r' Hr Hf. unfold handle_event, counted. subst r'. unfold completed. fold r1.
  change (savedError r1) with (savedError r). destruct (savedError r) as [e|] eqn:He.
  { exists q. split; [done|]. split; [split; try done; by rewrite insert_id|]. by split. }
  destruct t.
  - set (r2 := r_set_overrides (spent cfg (readOverride r)) (writeOverride r) r1).
    set (q2 := set_runners (<[this := r2]> (qu_runners q)) q).
    rewrite (bind_ok _ _ q tt q2) by done.
    destruct (on_read_ok this q2 r2 (spoofed cfg (readOverride r) result) ds dd n
      (lookup_insert_eq _ _ _) He (put_files this q r1 r2 ds dd n Hf eq_refl eq_refl eq_refl))
      as (q' & H1 & [A1 A2 A3 A4 A5] & C1 & C2).
    exists q'. split; [exact H1|]. split; [|split].
    + split; try done. rewrite A5. cbn. by rewrite insert_insert_eq.
    + intros _. exact C1.
    + exact C2.
  - set (r2 := r_set_overrides (readOverride r) (spent cfg (writeOverride r)) r1).
    set (q2 := set_runners (<[this := r2]> (qu_runners q)) q).
    rewrite (bind_ok _ _ q tt q2) by done.
    destruct (on_write_ok this q2 r2 (spoofed cfg (writeOverride r) result) ds dd n
      (lookup_insert_eq _ _ _) He (put_files this q r1 r2 ds dd n Hf eq_refl eq_refl eq_refl))
      as (q' & H1 & [A1 A2 A3 A4 A5] & C1 & C2).
    exists q'. split; [exact H1|]. split; [|split].
    + split; try done. rewrite A5. cbn. by rewrite insert_insert_eq.
    + intros _. exact C1.
    + exact C2.
Qed.

Lemma onCompletion_ok q r t result ds dd n :
  let r' := completed cfg (q_path ds) (q_path dd) t result r in
  qu_runners q !! this = Some r -> files_ok q r ds dd n ->
  0 < jobsRunning r < 2 ^ 31 -> writeOffset r' <= chunk_end r' ->
  exists q', onCompletionEvent cfg this t result q = Ok (verdict r', q') /\
    handled this q q' r' (counted cfg t result r (qu_counters q)) /\
    (savedError r = None -> savedError r' <> None -> n = 1 -> files_closed q' r) /\
    (savedError r' = savedError r \/ n <> 1 -> qu_qfds q' = qu_qfds q).
Proof.
  intros r' Hr Hf Hj Hw. unfold onCompletionEvent.
  rewrite (bind_ok _ _ _ _ _ (get_runner_ok _ _ _ Hr)).
  set (r1 := r_set_jobs (s32 (jobsRunning r - 1)) r).
  set (q1 := set_runners (<[this := r1]> (qu_runners q)) q).
  rewrite (bind_ok _ _ q tt q1) by done.
  rewrite (bind_ok _ _ q1 tt q1).
  2:{ unfold assert. rewrite sext_small by (lia || (unfold in_s; lia)). by case_z; [|lia]. }
  destruct (handle_event_ok q1 r t result ds dd n (lookup_insert_eq _ _ _)
    (put_files this q r r1 ds dd n Hf eq_refl eq_refl eq_refl))
    as (q' & H1 & [A1 A2 A3 A4 A5] & C1 & C2).
  fold (handle_event t result (s32 (jobsRunning r - 1)) r).
  rewrite (bind_ok _ _ _ _ _ H1). fold r' in A5, C1, C2.
  rewrite (bind_ok _ _ _ _ _ (get_runner_ok this q' r' ltac:(rewrite A5; apply lookup_insert_eq))).
  fold (chunk_end r'). rewrite (bind_ok _ _ q' tt q') by (unfold assert; by case_z; [|lia]).
  exists q'. split.
  - unfold verdict. destruct (jobsRunning r' =? 0); [|done].
    destruct (savedError r'); [done|]. by destruct (writeOffset r' =? chunk_end r').
  - split; [|by split]. split; try done. rewrite A5. cbn. by rewrite insert_insert_eq.
Qed.
End completing.

(** The bytes counted are those the write offset moved by. *)
Lemma counted_exact cfg spath dpath (src : bytes) srclen r buf dst p1 t res p2 c :
  chunk_ok srclen r ->
  (savedError r = None -> core cfg src r buf dst (p1 ++ (t, res) :: p2)) ->
  in_u 64 (totalBytesCopied c) ->
  totalBytesCopied (counted cfg t res r c) =
    u64 (totalBytesCopied c +
      (writeOffset (completed cfg spath dpath t res r) - writeOffset r)).
Proof.
  intros Hck Hc Hu. unfold counted, completed. cbn [savedError r_set_jobs].
  destruct (savedError r) as [e|] eqn:He.
  { cbn. rewrite Z.sub_diag, Z.add_0_r. by rewrite wrap_small. }
  specialize (Hc eq_refl). pose proof (ck_end _ _ Hck). pose proof (ck_offset _ _ Hck) as [Ho _].
  destruct t.
  - cbn [readOverride r_set_jobs]. repeat case_match; cbn;
      rewrite Z.sub_diag, Z.add_0_r; by rewrite wrap_small.
  - cbn [writeOverride readOverride r_set_jobs r_set_overrides].
    pose proof (co_wo _ _ _ _ _ _ Hc) as Hwo.
    destruct (co_pend _ _ _ _ _ _ Hc) as (_ & _ & Hp).
    specialize (Hp res ltac:(apply elem_of_app; right; left)). unfold write_result in Hp.
    set (n := spoofed cfg (writeOverride r) res) in *.
    destruct (Z.ltb_spec n 0).
    + destruct (negb _); cbn; rewrite Z.sub_diag, Z.add_0_r; by rewrite wrap_small.
    + destruct (Hp ltac:(lia)) as [Hle _]. cbn.
      rewrite sext_small by (lia || (unfold in_s; lia)). f_equal. lia.
Qed.

(** C14: the completion handler is what the data path assumes.  For a completion a
    reachable runner expects, none of its assertions fails; it leaves the runner as
    the data path says, returns the verdict (continue while requests are
    outstanding, then the error, finished or to be rescheduled), adds to the bytes
    copied what the write offset moved by, and touches nothing else of the queue but
    the files of the runner, which it closes when the completion is the first error
    and no other chunk of the file is left. *)
Theorem completion_is_handled {W} {F : Files W} cfg this (src : bytes) srclen r0 r buf0 dst0
    buf dst ds dd n p1 t res p2 (q : queue W) :
  chunk_ok srclen r0 -> fresh_runner r0 ->
  chan_steps cfg (q_path ds) (q_path dd) src srclen (mk_chan r0 buf0 dst0 [])
    (mk_chan r buf dst (p1 ++ (t, res) :: p2)) ->
  qu_runners q !! this = Some r -> files_ok q r ds dd n ->
  in_u 64 (totalBytesCopied (qu_counters q)) ->
  let r' := completed cfg (q_path ds) (q_path dd) t res r in
  exists q', onCompletionEvent cfg this t res q = Ok (verdict r', q') /\
    (exists c, handled this q q' r' c /\ totalBytesCopied c =
      u64 (totalBytesCopied (qu_counters q) + (writeOffset r' - writeOffset r))) /\
    (savedError r' <> savedError r -> n = 1 -> files_closed q' r) /\
    (savedError r' = savedError r \/ n <> 1 -> qu_qfds q' = qu_qfds q).
Proof.
  intros Hck Hf Hs Hr Hfi Hu r'.
  pose proof (fresh_inv cfg src srclen r0 buf0 dst0 Hck Hf) as Hi0.
  destruct (chan_steps_inv _ _ _ _ _ _ _ _ _ Hck Hi0 Hs) as [Hsame _ Hl Hj _ _ Hc].
  destruct (chan_steps_inv _ _ _ _ _ _ _ _ _ Hck Hi0 (chan_steps_app _ _ _ _ _ _ _ _ Hs
    (chan_next _ _ _ _ _ _ _ _ (step_complete cfg (q_path ds) (q_path dd) src srclen r buf dst
      p1 t res p2) (chan_refl _ _ _ _ _ _)))) as [Hsame' _ _ _ Hw _ _].
  cbn in *. fold r' in Hsame', Hw.
  assert (0 < jobsRunning r < 2 ^ 31) as Hjr.
  { rewrite Hj. unfold zlen in *. rewrite length_app in *. simpl in *. lia. }
  destruct (onCompletion_ok cfg this q r t res ds dd n Hr Hfi Hjr) as (q' & H1 & H2 & H3 & H4).
  { fold r'. rewrite (chunk_end_same _ _ Hsame'). lia. }
  fold r' in H1, H2, H3, H4. exists q'. split; [done|]. split; [|split; [|done]].
  - eexists. split; [exact H2|].
    by eapply counted_exact; [exact (same_chunk_ok _ _ _ Hsame Hck)| |].
  - intros Hne. destruct (savedError r) eqn:He; [|by apply H3].
    destruct Hne. subst r'. unfold completed. cbn [savedError r_set_jobs]. by rewrite He.
Qed.

(** The read of the sample runner completes with its ten bytes. *)
Lemma completion_is_handled_witness :
  let r := submitted no_forcing 0 sample_runner in
  exists q', onCompletionEvent no_forcing 100 EvRead 10
      (set_runners {[100 := r]} sample_queue) = Ok (ContinueTag, q').
Proof.
  intros r.
  assert (chan_steps no_forcing "a" "b" (fun k => k) 10
    (mk_chan sample_runner (fun _ => 0) (fun _ => 0) [])
    (mk_chan r (splice (fun _ => 0) (0 - 0) 10 (fun k => k + 0)) (fun _ => 0)
      ([] ++ (EvRead, 10) :: [(EvWrite, - ECANCELED)]))) as Hs.
  { eapply chan_next; [|apply chan_refl].
    apply (step_submit_both no_forcing "a" "b" (fun k => k) 10 sample_runner _ _ 0 0 10 _
      (10 <? 4096)); try reflexivity; [done| |by split].
    apply (read_returns (fun k => k) 10 sample_runner 4096 (fun _ => 0) 10);
      [lia|right; by vm_compute]. }
  assert (files_ok (set_runners {[100 := r]} sample_queue) r (mk_qfd "a" 0 0 3)
    (mk_qfd "b" 0 0 4) 1) as Hf.
  { split; try reflexivity. split; intros _; reflexivity. }
  assert (qu_runners (set_runners {[100 := r]} sample_queue) !! 100 = Some r) as Hr
    by apply lookup_singleton_eq.
  destruct (completion_is_handled no_forcing 100 (fun k => k) 10 sample_runner r (fun _ => 0)
    (fun _ => 0) _ _ (mk_qfd "a" 0 0 3) (mk_qfd "b" 0 0 4) 1 [] EvRead 10 [(EvWrite, - ECANCELED)]
    (set_runners {[100 := r]} sample_queue) sample_chunk_ok sample_fresh Hs Hr Hf)
    as (q' & H & _); [by vm_compute|].
  exists q'. exact H.
Defined.
