(* ===== verification/CopyQueue.v ===== *)
(** * The copy queue (src/src/CopyQueue.cpp)

    Planning a copy as chunks, and the loop of the submit thread.  The main thread
    adds copies while the submit thread runs; each operation here is one critical
    section of either thread, on the state [cqueue] they share.  [new] returns the
    next address never used.  The display is in Progress.v. *)

From stdpp Require Import gmap strings.
From S2P Require Import Prelude Abi Prep RingBuf Ring Kernel Queue Os Util Heap Eta CopyState FileDesc Runner.
Import Eta.Rolling Eta.ETA.

Inductive State : Type := Idle | Running | AdditionComplete.
Inductive OnCompletionAction : Type := ExitProcessNoCleanup | Return.

Definition is_idle (s : State) : bool := match s with Idle => true | _ => false end.
Definition is_running (s : State) : bool := match s with Running => true | _ => false end.
Definition is_complete (s : State) : bool := match s with AdditionComplete => true | _ => false end.

Definition MAX_JOBS_PER_RUNNER : Z := 2.

Record cqueue (W : Type) : Type := mk_cqueue {
  cq_queue : queue W;
  ringSize : Z;
  copiesPendingStart : list Z;
  copiesPendingStartCount : Z;
  etaCalculator : eta;
  errored : bool;
  errorMessages : list Error;      (** every error reported, in order *)
  cq_state : State;
  completionAction : OnCompletionAction;
  showingProgress : bool;
  next_addr : Z;
}.
Arguments mk_cqueue {W} _ _ _ _ _ _ _ _ _ _ _.
Arguments cq_queue {W} _.
Arguments ringSize {W} _.
Arguments copiesPendingStart {W} _.
Arguments copiesPendingStartCount {W} _.
Arguments etaCalculator {W} _.
Arguments errored {W} _.
Arguments errorMessages {W} _.
Arguments cq_state {W} _.
Arguments completionAction {W} _.
Arguments showingProgress {W} _.
Arguments next_addr {W} _.

Section state.
Context {W : Type}.
Implicit Types (c : cqueue W).

Definition cq_set_queue (q : queue W) c : cqueue W :=
  mk_cqueue q (ringSize c) (copiesPendingStart c) (copiesPendingStartCount c) (etaCalculator c)
    (errored c) (errorMessages c) (cq_state c) (completionAction c) (showingProgress c)
    (next_addr c).
Definition cq_set_pending (l : list Z) (n : Z) c : cqueue W :=
  mk_cqueue (cq_queue c) (ringSize c) l n (etaCalculator c) (errored c) (errorMessages c)
    (cq_state c) (completionAction c) (showingProgress c) (next_addr c).
Definition cq_set_eta (e : eta) c : cqueue W :=
  mk_cqueue (cq_queue c) (ringSize c) (copiesPendingStart c) (copiesPendingStartCount c) e
    (errored c) (errorMessages c) (cq_state c) (completionAction c) (showingProgress c)
    (next_addr c).
Definition cq_add_error (e : Error) c : cqueue W :=
  mk_cqueue (cq_queue c) (ringSize c) (copiesPendingStart c) (copiesPendingStartCount c)
    (etaCalculator c) true (errorMessages c ++ [e]) (cq_state c) (completionAction c)
    (showingProgress c) (next_addr c).
Definition cq_set_state (st : State) (act : OnCompletionAction) c : cqueue W :=
  mk_cqueue (cq_queue c) (ringSize c) (copiesPendingStart c) (copiesPendingStartCount c)
    (etaCalculator c) (errored c) (errorMessages c) st act (showingProgress c) (next_addr c).
Definition cq_set_errored (b : bool) c : cqueue W :=
  mk_cqueue (cq_queue c) (ringSize c) (copiesPendingStart c) (copiesPendingStartCount c)
    (etaCalculator c) b (errorMessages c) (cq_state c) (completionAction c) (showingProgress c)
    (next_addr c).
Definition cq_set_showing (b : bool) c : cqueue W :=
  mk_cqueue (cq_queue c) (ringSize c) (copiesPendingStart c) (copiesPendingStartCount c)
    (etaCalculator c) (errored c) (errorMessages c) (cq_state c) (completionAction c) b
    (next_addr c).
Definition cq_set_next (a : Z) c : cqueue W :=
  mk_cqueue (cq_queue c) (ringSize c) (copiesPendingStart c) (copiesPendingStartCount c)
    (etaCalculator c) (errored c) (errorMessages c) (cq_state c) (completionAction c)
    (showingProgress c) a.

(** An operation on the queue's own state. *)
Definition on_queue {A} (m : prog (queue W) A) : prog (cqueue W) A :=
  fun c =>
    match m (cq_queue c) with
    | Ok (a, q) => Ok (a, cq_set_queue q c)
    | Fault f => Fault f
    | NoFuel => NoFuel
    end.

(** The address of a new object. *)
Definition fresh : prog (cqueue W) Z :=
  let* a := gets next_addr in
  do* modify (cq_set_next (a + 1)) in ret a.

Definition onError (e : Error) : prog (cqueue W) unit := modify (cq_add_error e).

Definition isDone : prog (cqueue W) bool :=
  gets (fun c => is_complete (cq_state c) && (keepAliveCount (qu_counters (cq_queue c)) =? 0)).
End state.

(** ** Adding copies *)

Definition O_RDONLY : Z := 0.
Definition O_WRONLY : Z := 1.
Definition O_CREAT : Z := 64.
Definition O_TRUNC : Z := 512.
Definition O_CLOEXEC : Z := 524288.

(** The members of [struct statx] the queue reads. *)
Record statx : Type := mk_statx { stx_size : Z; stx_blksize : Z; stx_mode : Z }.

Section adding.
Context {W : Type} {F : Files W}.

Definition addCopyJobPart (sourceFd destFd offset size alignment chunkCount : Z)
    : prog (cqueue W) unit :=
  let* st := gets cq_state in
  do* assert (is_running st || is_idle st) in
  do* on_queue (on_counters (add_total size)) in
  do* modify (fun c => cq_set_eta (onCopyAdded (u64 size) (etaCalculator c)) c) in
  let* this := fresh in
  do* on_queue (create_runner this sourceFd destFd offset size alignment chunkCount) in
  modify (fun c => cq_set_pending (copiesPendingStart c ++ [this])
                     (u32 (copiesPendingStartCount c + 1)) c).

(** The size of a chunk for a file system with blocks of [requiredAlignment]. *)
Definition chunk_size (blockSize heapAlignment requiredAlignment : Z) : Z :=
  if heapAlignment <? requiredAlignment then
    let bytesRemaining := u64 (blockSize - (requiredAlignment - 1)) in
    u64 (bytesRemaining / requiredAlignment * requiredAlignment)
  else blockSize.

(** [while (offset != st.stx_size)]: the number of chunks added. *)
Fixpoint part_loop (fuel : nat) (sourceFd destFd total chunkSize alignment tracker i offset : Z)
    : prog (cqueue W) Z :=
  if offset =? total then ret i
  else
    match fuel with
    | O => no_fuel
    | S n =>
        let count := Z.min chunkSize (u64 (total - offset)) in
        do* addCopyJobPart sourceFd destFd offset count alignment tracker in
        part_loop n sourceFd destFd total chunkSize alignment tracker (s32 (i + 1))
          (u64 (offset + count))
    end.

(** Cutting the file into parts, once its descriptors are there. *)
Definition add_parts (fuel : nat) (st : statx) (sourceFd destFd tracker : Z)
    : prog (cqueue W) unit :=
  let new_tracker n := on_queue (modify (fun q => set_chunks (<[tracker := n]> (qu_chunks q)) q)) in
  if stx_size st =? 0 then
    do* new_tracker 1 in
    addCopyJobPart sourceFd destFd 0 0 0 tracker
  else
    let requiredAlignment := stx_blksize st in
    let* h := gets (fun c => qu_heap (cq_queue c)) in
    let chunkSize := chunk_size (Heap.blockSize h) (Heap.alignment h) requiredAlignment in
    do* assert (0 <? chunkSize) in
    let chunkCount := s32 (stx_size st / chunkSize) in
    let chunkCount :=
      if negb (stx_size st mod chunkSize =? 0) then s32 (chunkCount + 1) else chunkCount in
    do* new_tracker chunkCount in
    let* i := part_loop fuel sourceFd destFd (stx_size st) chunkSize requiredAlignment tracker
                0 0 in
    assert (chunkCount =? i).

(** [i1], [i2]: whether the other thread interfered with the two reservations. *)
Definition addCopyJob (fuel : nat) (i1 i2 : bool) (src dest : string) (st : statx)
    : prog (cqueue W) unit :=
  let* sourceFd := fresh in
  do* on_queue (new_qfd i1 sourceFd src (Z.lor O_RDONLY (Z.lor O_DIRECT O_CLOEXEC)) 0) in
  let* destFd := fresh in
  do* on_queue (new_qfd i2 destFd dest
         (Z.lor (Z.lor O_WRONLY O_CREAT) (Z.lor O_TRUNC O_CLOEXEC)) (stx_mode st)) in
  let* tracker := fresh in
  add_parts fuel st sourceFd destFd tracker.

(** The result of [myStatx] is an argument when no buffer was given. *)
Definition addFileCopy (fuel : nat) (i1 i2 : bool) (from dest : string)
    (stat : Error + statx) : prog (cqueue W) unit :=
  match stat with
  | inl e => onError e
  | inr st => addCopyJob fuel i1 i2 from dest st
  end.
End adding.

(** ** The submit thread *)

(** Its local variables, and the position in the sequence of [rand()]. *)
Record loop (W : Type) : Type := mk_loop {
  lp_cq : cqueue W;
  nextBuffer : Z;                     (** 0: [nullptr] *)
  copiesPendingContinue : list Z;
  lp_rand : Z;
}.
Arguments mk_loop {W} _ _ _ _.
Arguments lp_cq {W} _.
Arguments nextBuffer {W} _.
Arguments copiesPendingContinue {W} _.
Arguments lp_rand {W} _.

Section loop_state.
Context {W : Type}.
Implicit Types (l : loop W).

Definition lp_set_cq (c : cqueue W) l : loop W :=
  mk_loop c (nextBuffer l) (copiesPendingContinue l) (lp_rand l).
Definition lp_set_buffer (b : Z) l : loop W :=
  mk_loop (lp_cq l) b (copiesPendingContinue l) (lp_rand l).
Definition lp_set_continue (p : list Z) l : loop W :=
  mk_loop (lp_cq l) (nextBuffer l) p (lp_rand l).

Definition on_cq {A} (m : prog (cqueue W) A) : prog (loop W) A :=
  fun l =>
    match m (lp_cq l) with
    | Ok (a, c) => Ok (a, lp_set_cq c l)
    | Fault f => Fault f
    | NoFuel => NoFuel
    end.

(** A call into liburing, on the ring of the queue. *)
Definition on_ring {A} (m : prog (ust W) A) : prog (queue W) A :=
  fun q =>
    match m (mk_ust (o_world (qu_os q)) (qu_ring q) (o_errno (qu_os q))) with
    | Ok (a, u) => Ok (a, set_qring (u_ring u) (set_os (mk_ost (u_world u) (u_errno u)) q))
    | Fault f => Fault f
    | NoFuel => NoFuel
    end.
End loop_state.

Section submit.
Context {W : Type} {F : Files W} {K : Kernel W} (cfg : config) (rand : Z -> Z).

Definition get_queue : prog (loop W) (queue W) := gets (fun l => cq_queue (lp_cq l)).

Definition next_rand : prog (loop W) Z :=
  fun l => Ok (rand (lp_rand l), mk_loop (lp_cq l) (nextBuffer l) (copiesPendingContinue l)
                                   (lp_rand l + 1)).

(** [waitingForStart == 0 || rateLimited || waitForDirectoryIteration] *)
Definition must_wait : prog (loop W) bool :=
  let* l := get in
  let c := lp_cq l in let n := qu_counters (cq_queue c) in
  let waitingForStart := u64 (copiesPendingStartCount c + zlen (copiesPendingContinue l)) in
  let rateLimited := u64 (ringSize c - submissionsRunning n) <? MAX_JOBS_PER_RUNNER in
  let waitForDirectoryIteration :=
    is_running (cq_state c) && (totalBytesToCopy n / 8 <=? totalBytesCopied n) in
  ret ((waitingForStart =? 0) || rateLimited || waitForDirectoryIteration).

(** [if (!nextBuffer) nextBuffer = this->copyBufferHeap.getBlock();] *)
Definition reserve_buffer : prog (loop W) unit :=
  let* l := get in
  if nextBuffer l =? 0 then
    let* q := get_queue in
    let '(b, h) := Heap.getBlock (qu_heap q) in
    do* on_cq (on_queue (modify (set_heap h))) in
    modify (lp_set_buffer (match b with Some a => a | None => 0 end))
  else ret tt.

(** A runner to continue, from the front of its queue. *)
Definition take_continue : prog (loop W) (option Z) :=
  let* l := get in
  match copiesPendingContinue l with
  | [] => ret None
  | r :: rest =>
      let* d := on_cq (on_queue (get_runner r)) in
      do* assert (negb (needsBuffer d)) in
      do* modify (lp_set_continue rest) in
      ret (Some r)
  end.

(** A runner to start: the critical section on [copiesPendingStartMutex]. *)
Definition take_start : prog (loop W) (option Z) :=
  let* l := get in
  match copiesPendingStart (lp_cq l) with
  | [] => raise AssertFailed
  | temp :: rest =>
      let* q := get_queue in
      let outOfFds :=
        u64 (fileDescriptorCap q - fileDescriptorsUsed q) <? RESERVED_HIGH_PRIORITY_FD_COUNT in
      let* needs := on_cq (on_queue (needsFileDescriptors temp)) in
      if negb outOfFds || negb needs then
        let* d := on_cq (on_queue (get_runner temp)) in
        do* (if needsBuffer d then
               do* on_cq (on_queue (giveBuffer temp (nextBuffer l))) in
               modify (lp_set_buffer 0)
             else ret tt) in
        do* on_cq (modify (fun c => cq_set_pending rest (u32 (copiesPendingStartCount c - 1)) c)) in
        ret (Some temp)
      else ret None
  end.

(** [if (holds_alternative<Error>(result)) onError(...)] *)
Definition report (result : option Error) : prog (loop W) unit :=
  match result with Some e => on_cq (onError e) | None => ret tt end.

(** A file of no bytes: open and close the destination. *)
Definition add_empty (fuel : nat) (this : Z) : prog (loop W) unit :=
  let* r := on_cq (on_queue (get_runner this)) in
  let* result := on_cq (on_queue (ensureOpened fuel (destFd r))) in
  let* result :=
    match result with
    | None => on_cq (on_queue (handleFileClose this))
    | Some e => ret (Some e)
    end in
  do* report result in
  on_cq (on_queue (delete_runner this)).

(** One iteration of [while (!doneAdding)]: [doneAdding], and the runners added.
    [look] is what the other threads do between [delete toAdd] and [onError]. *)
Definition add_one_seen (look : prog (loop W) unit) (fuel : nat) : prog (loop W) (bool * Z) :=
  let* wait := must_wait in
  if wait then ret (true, 0)
  else
    do* reserve_buffer in
    let* toAdd := take_continue in
    let* l := get in
    let* toAdd :=
      match toAdd with
      | Some r => ret (Some r)
      | None =>
          if negb (nextBuffer l =? 0) && (0 <? copiesPendingStartCount (lp_cq l))
          then take_start else ret None
      end in
    match toAdd with
    | None => ret (true, 0)
    | Some this =>
        let* r := on_cq (on_queue (get_runner this)) in
        if size r =? 0 then do* add_empty fuel this in ret (false, 0)
        else
          let* rnd1 := next_rand in
          let* rnd2 := next_rand in
          let* result := on_cq (on_queue (addToBatch cfg fuel this rnd1 rnd2)) in
          match result with
          | Some e =>
              do* on_cq (on_queue (delete_runner this)) in
              do* look in
              do* on_cq (onError e) in
              ret (true, 0)
          | None => ret (false, 1)
          end
    end.

Definition add_one : nat -> prog (loop W) (bool * Z) := add_one_seen (ret tt).

Fixpoint add_loop (n fuel : nat) (runnersAdded : Z) : prog (loop W) Z :=
  match n with
  | O => no_fuel
  | S n =>
      let* v := add_one fuel in
      let '(doneAdding, k) := v in
      let runnersAdded := s32 (runnersAdded + k) in
      if doneAdding then ret runnersAdded else add_loop n fuel runnersAdded
  end.

(** [do ret = io_uring_submit(...) while (ret == -EAGAIN || ret == -EINTR)] *)
Fixpoint submit_retry (n : nat) : prog (loop W) Z :=
  match n with
  | O => no_fuel
  | S n =>
      let* v := on_cq (on_queue (on_ring io_uring_submit)) in
      if (v =? - EAGAIN) || (v =? - EINTR) then submit_retry n else ret v
  end.

(** The completion handler's verdict, acted upon. *)
Definition on_result (this : Z) (v : RunnerResult) : prog (loop W) unit :=
  match v with
  | FinishedTag =>
      let* closeResult := on_cq (on_queue (handleFileClose this)) in
      do* report closeResult in
      let* r := on_cq (on_queue (get_runner this)) in
      do* on_cq (modify (fun c => cq_set_eta (onCopyCompleted (u64 (size r)) (etaCalculator c)) c)) in
      on_cq (on_queue (delete_runner this))
  | RError e =>
      do* on_cq (onError e) in
      on_cq (on_queue (delete_runner this))
  | RescheduleTag => modify (fun l => lp_set_continue (copiesPendingContinue l ++ [this]) l)
  | ContinueTag => ret tt
  end.

(** The runner and the kind of event behind a [user_data] value. *)
Definition event_of (ud : Z) : Z * event_type :=
  (ud / 2, if ud mod 2 =? 0 then EvRead else EvWrite).

(** A completion given to its runner, and the verdict acted upon. *)
Definition on_completion (this : Z) (t : event_type) (result : Z) : prog (loop W) unit :=
  let* v := on_cq (on_queue (onCompletionEvent cfg this t result)) in
  on_result this v.

(** One iteration of the completion loop: [false] when it breaks off. *)
Definition complete_one (fuel : nat) : prog (loop W) bool :=
  let* v := on_cq (on_queue (on_ring (io_uring_peek_cqe fuel))) in
  let '(err, cqe) := v in
  do* assert ((err =? 0) || (err =? - EINTR) || (err =? - EAGAIN)) in
  if negb (err =? 0) then ret false
  else
    let* q := get_queue in
    match cqe with
    | None => raise NullDeref
    | Some slot =>
        match zget (cq_cqes (r_cq (qu_ring q))) slot with
        | None => raise OutOfBounds
        | Some e =>
            let '(this, t) := event_of (cqe_user_data e) in
            do* on_completion this t (cqe_res e) in
            do* on_cq (on_queue (modify (fun q =>
                  set_qring (set_cq (io_uring_cqe_seen (Some slot) (r_cq (qu_ring q)))
                    (qu_ring q)) q))) in
            do* on_cq (on_queue (on_counters (add_submissions (-1)))) in
            ret true
        end
    end.

Fixpoint complete_loop (n fuel : nat) : prog (loop W) unit :=
  match n with
  | O => no_fuel
  | S n =>
      let* q := get_queue in
      if submissionsRunning (qu_counters q) =? 0 then ret tt
      else
        let* more := complete_one fuel in
        if more then complete_loop n fuel else ret tt
  end.

Inductive loop_end : Type := ProcessExited | LoopReturned.

(** [submitLoop]; [n] bounds the iterations of each of its loops. *)
Fixpoint submitLoop (n inner fuel : nat) : prog (loop W) loop_end :=
  match n with
  | O => no_fuel
  | S n =>
      let* runnersAdded := add_loop inner fuel 0 in
      do* (if negb (runnersAdded =? 0) then
             let* v := submit_retry inner in assert (0 <? v)
           else ret tt) in
      do* complete_loop inner fuel in
      let* done := on_cq isDone in
      if done then
        let* l := get in
        if match completionAction (lp_cq l) with
           | ExitProcessNoCleanup => negb (showingProgress (lp_cq l))
           | Return => false
           end
        then ret ProcessExited
        else
          do* (if negb (nextBuffer l =? 0) then
                 let* q := get_queue in
                 match Heap.returnBlock (nextBuffer l) (qu_heap q) with
                 | Ok (_, h) => on_cq (on_queue (modify (set_heap h)))
                 | Fault f => raise f
                 | NoFuel => no_fuel
                 end
               else ret tt) in
          ret LoopReturned
      else submitLoop n inner fuel
  end.
End submit.
