(* ===== verification/CopyJob.v ===== *)
(** * A copy job is a partition of its file

    [addCopyJob] cuts a file into chunks that cover it exactly, each one a chunk the
    data path of RunnerData.v copies, with a size that fits a block of the heap after
    alignment. *)

From stdpp Require Import gmap strings.
From S2P Require Import Prelude Abi Prep RingBuf Ring Kernel Queue Os Util Heap Eta CopyState FileDesc Runner RunnerData RunnerLive RunnerSpec CopyQueue.
Import Eta.Rolling Eta.ETA.

(** The length of the [k]-th chunk. *)
Definition chunk_len (cs total k : Z) : Z := Z.min cs (total - k * cs).

Section parts.
Context {W : Type} {F : Files W} (sfd dfd total cs align tracker : Z).
Implicit Types (c : cqueue W).

(** [n] chunks from the [i]-th on were added. *)
Record parts_added (i : Z) (n : nat) c c' : Prop := {
  pa_pending : copiesPendingStart c' = copiesPendingStart c ++ zseq (next_addr c) n;
  pa_count : copiesPendingStartCount c' = u32 (copiesPendingStartCount c + Z.of_nat n);
  pa_next : next_addr c' = next_addr c + Z.of_nat n;
  pa_runner : forall j, 0 <= j < Z.of_nat n ->
    qu_runners (cq_queue c') !! (next_addr c + j) =
      Some (new_runner sfd dfd ((i + j) * cs) (chunk_len cs total (i + j)) align tracker);
  pa_others : forall p, p < next_addr c ->
    qu_runners (cq_queue c') !! p = qu_runners (cq_queue c) !! p;
  pa_eta : etaCalculator c' =
    foldl (fun e k => onCopyAdded (chunk_len cs total k) e) (etaCalculator c) (zseq i n);
  pa_alive : keepAliveCount (qu_counters (cq_queue c')) =
    u32 (keepAliveCount (qu_counters (cq_queue c)) + Z.of_nat n);
  pa_total : totalBytesToCopy (qu_counters (cq_queue c')) =
    u64 (totalBytesToCopy (qu_counters (cq_queue c)) + (Z.min total ((i + Z.of_nat n) * cs) - i * cs));
  pa_qfds : qu_qfds (cq_queue c') = qu_qfds (cq_queue c);
  pa_chunks : qu_chunks (cq_queue c') = qu_chunks (cq_queue c);
  pa_heap : qu_heap (cq_queue c') = qu_heap (cq_queue c);
  pa_ring : qu_ring (cq_queue c') = qu_ring (cq_queue c);
  pa_state : cq_state c' = cq_state c;
  pa_os : qu_os (cq_queue c') = qu_os (cq_queue c);
  pa_errors : errorMessages c' = errorMessages c;
}.

Definition adding (c : cqueue W) : bool := is_running (cq_state c) || is_idle (cq_state c).

(** One chunk. *)
Lemma addCopyJobPart_ok i c :
  adding c = true -> 0 <= i -> 0 < cs -> 0 <= total - i * cs -> in_u 64 (chunk_len cs total i) ->
  exists c', addCopyJobPart sfd dfd (i * cs) (chunk_len cs total i) align tracker c = Ok (tt, c') /\
    parts_added i 1 c c'.
Proof.
  intros Ha Hi Hcs Hle Hu. unfold addCopyJobPart, adding in *.
  eexists. split.
  { unfold bind at 1, gets. unfold bind at 1, assert. rewrite Ha. reflexivity. }
  assert (forall a, zseq a 1 = [a]) as Hz1 by (intros a; unfold zseq; cbn; f_equal; lia).
  split; try done; cbn; rewrite ?Hz1.
  - done.
  - intros j Hj. assert (j = 0) as -> by lia. by rewrite !Z.add_0_r, lookup_insert_eq.
  - intros p Hp. rewrite lookup_insert_ne by lia. done.
  - by rewrite wrap_small by done.
  - f_equal. f_equal. unfold chunk_len. change (Z.of_nat 1) with 1. lia.
Qed.

Lemma parts_trans i n m c c1 c2 :
  0 < cs -> (0 < m)%nat -> (i + Z.of_nat n) * cs <= total ->
  parts_added i n c c1 -> parts_added (i + Z.of_nat n) m c1 c2 -> parts_added i (n + m) c c2.
Proof.
  intros Hcs Hm Hle [A1 A2 A3 A4 A5 A6 A7 A8 A9 A10 A11 A12 A13 A14 A15]
    [B1 B2 B3 B4 B5 B6 B7 B8 B9 B10 B11 B12 B13 B14 B15]. split; try congruence.
  - by rewrite B1, A1, A3, zseq_app, app_assoc.
  - rewrite B2, A2, wrap_add_l. f_equal. lia.
  - lia.
  - intros j Hj. destruct (Z_lt_le_dec j (Z.of_nat n)).
    + rewrite B5 by lia. apply A4. lia.
    + specialize (B4 (j - Z.of_nat n) ltac:(lia)). rewrite A3 in B4.
      replace (next_addr c + Z.of_nat n + (j - Z.of_nat n)) with (next_addr c + j) in B4 by lia.
      by replace (i + Z.of_nat n + (j - Z.of_nat n)) with (i + j) in B4 by lia.
  - intros p Hp. rewrite B5 by lia. by apply A5.
  - by rewrite B6, A6, zseq_app, foldl_app.
  - rewrite B7, A7, wrap_add_l. f_equal. lia.
  - rewrite B8, A8, wrap_add_l. f_equal.
    rewrite (Z.min_r total ((i + Z.of_nat n) * cs)) by lia. 
    replace (i + Z.of_nat n + Z.of_nat m) with (i + Z.of_nat (n + m)) by lia. lia.
Qed.

(** The loop adds the rest of the chunks, however much fuel is left. *)
Lemma part_loop_ok fuel n i c :
  adding c = true -> 0 <= i -> 0 < cs < 2 ^ 62 -> 0 <= total < 2 ^ 62 -> i + Z.of_nat n < 2 ^ 31 ->
  total <= (i + Z.of_nat n) * cs -> (n <> 0%nat -> (i + Z.of_nat n - 1) * cs < total) ->
  (n <= fuel)%nat ->
  exists c', part_loop fuel sfd dfd total cs align tracker i (Z.min total (i * cs)) c
    = Ok (i + Z.of_nat n, c') /\ (n <> 0%nat -> parts_added i n c c') /\ (n = 0%nat -> c' = c).
Proof.
  intros Ha Hi Hcs Htot. revert fuel i c Ha Hi.
  induction n as [|n IH]; intros fuel i c Ha Hi Hin Hz Hn Hf.
  { exists c. rewrite Z.min_l by lia.
    split; [|by split]. destruct fuel; cbn [part_loop]; rewrite Z.eqb_refl; unfold ret;
      do 2 f_equal; lia. }
  destruct fuel as [|fuel]; [lia|]. specialize (Hn ltac:(lia)).
  assert (i * cs < total) as Hlt by nia. rewrite Z.min_r by lia.
  cbn [part_loop]. destruct (Z.eqb_spec (i * cs) total); [lia|].
  rewrite (wrap_small 64 (total - i * cs)) by (unfold in_u; nia). fold (chunk_len cs total i).
  destruct (addCopyJobPart_ok i c Ha Hi ltac:(lia) ltac:(lia)) as (c1 & H1 & P1).
  { unfold chunk_len, in_u. nia. }
  rewrite (bind_ok _ _ _ _ _ H1).
  rewrite (sext_small 32 (i + 1)) by (lia || (unfold in_s; lia)).
  assert (i * cs + chunk_len cs total i = Z.min total ((i + 1) * cs)) as -> by (unfold chunk_len; lia).
  rewrite (wrap_small 64 (Z.min _ _)) by (unfold in_u; nia).
  destruct (IH fuel (i + 1) c1) as (c2 & H2 & P2 & P3); try lia.
  { unfold adding. by rewrite (pa_state _ _ _ _ P1). }
  exists c2. split; [by replace (i + Z.of_nat (S n)) with (i + 1 + Z.of_nat n) by lia|].
  split; [|done]. intros _. destruct (decide (n = 0%nat)) as [->|Hne].
  - by rewrite (P3 eq_refl).
  - apply (parts_trans i 1 n c c1 c2); [lia|lia| |done|by apply P2].
    assert ((i + Z.of_nat 1) * cs <= (i + Z.of_nat (S n) - 1) * cs) by nia. lia.
Qed.
End parts.

(** ** Opening the files of a job *)

Section files.
Context {W : Type} {F : Files W}.

(** Opening stores the descriptor, or leaves the one there. *)
Lemma doOpen_frame p (q : queue W) d :
  qu_qfds q !! p = Some d ->
  exists r fd o, doOpen p q = Ok (r, set_qfds (<[p := qfd_set_fd fd d]> (qu_qfds q)) (set_os o q)) /\
    exists x, myOpen (q_path d) (q_oflag d) (q_mode d) (qu_os q) = Ok (x, o).
Proof.
  intros Hp. unfold doOpen. rewrite (bind_ok _ _ _ _ _ (get_qfd_ok _ _ _ Hp)).
  destruct (myOpen_total (q_path d) (q_oflag d) (q_mode d) (qu_os q)) as (r & o & Ho).
  assert (with_os (myOpen (q_path d) (q_oflag d) (q_mode d)) q = Ok (r, set_os o q)) as Hw
    by (unfold with_os; by rewrite Ho).
  rewrite (bind_ok _ _ _ _ _ Hw). destruct r as [e|fd].
  - exists (Some e), (q_fd d), o. split; [|by eexists]. unfold ret.
    rewrite insert_id; [by destruct q|]. rewrite Hp. by destruct d.
  - exists None, fd, o. split; [done|by eexists].
Qed.

(** An attempt to open a file, or none. *)
Definition opens (path : string) (oflag mode : Z) (o o' : ost W) : Prop :=
  o' = o \/ exists r, myOpen path oflag mode o = Ok (r, o').

(** What creating a descriptor leaves alone. *)
Definition same_but_qfd (p : Z) (q q' : queue W) : Prop :=
  qu_ring q' = qu_ring q /\ qu_heap q' = qu_heap q /\ qu_counters q' = qu_counters q /\
  qu_chunks q' = qu_chunks q /\ qu_runners q' = qu_runners q /\
  (forall p', p' <> p -> qu_qfds q' !! p' = qu_qfds q !! p').

Lemma new_qfd_frame i p path oflag mode (q : queue W) :
  exists q' fd, new_qfd i p path oflag mode q = Ok (tt, q') /\ same_but_qfd p q q' /\
    qu_qfds q' !! p = Some (mk_qfd path oflag mode fd) /\ opens path oflag mode (qu_os q) (qu_os q').
Proof.
  unfold new_qfd. set (d := mk_qfd path oflag mode NEVER_OPENED_VAL).
  set (q1 := set_qfds (<[p := d]> (qu_qfds q)) q).
  rewrite (bind_ok _ _ q tt q1) by done.
  assert (same_but_qfd p q q1) as S1.
  { split_and!; try done. intros p' Hp. unfold q1. cbn. by rewrite lookup_insert_ne. }
  assert (exists b u, reserveFileDescriptor i Low q1 = Ok (b, set_fdsUsed u q1)) as (b & u & Hr).
  { unfold reserveFileDescriptor, bind, gets, modify, ret. destruct (_ || _).
    - exists false, (fileDescriptorsUsed q1). by destruct q1.
    - by eexists true, _. }
  rewrite (bind_ok _ _ _ _ _ Hr). destruct b.
  2:{ exists (set_fdsUsed u q1), NEVER_OPENED_VAL. split; [done|]. split; [done|].
      split; [apply lookup_insert_eq|by left]. }
  set (q2 := set_fdsUsed u q1) in *.
  destruct (doOpen_frame p q2 d (lookup_insert_eq _ _ _)) as (r & fd & o & Hd & Ho).
  rewrite (bind_ok _ _ _ _ _ Hd). eexists _, fd. split; [done|]. split.
  - destruct S1 as (?&?&?&?&?&Hn). split_and!; try done.
    intros p' Hp. cbn. rewrite lookup_insert_ne by done. by apply Hn.
  - cbn. rewrite lookup_insert_eq. split; [done|]. by right.
Qed.
End files.

(** ** Sizes *)

Definition chunk_count (total cs : Z) : Z := (total + cs - 1) / cs.

(** A file the queue can plan: alignments are powers of two, the block of the heap
    has room for an aligned chunk. *)
Record job_ok (h : Heap.heap) (st : statx) : Prop := {
  jo_heap : Heap.heap_ok h;
  jo_pow : exists k, 0 <= k /\ Heap.alignment h = 2 ^ k;
  jo_blk : exists k, 0 <= k /\ stx_blksize st = 2 ^ k;
  jo_block : Heap.blockSize h + stx_blksize st < 2 ^ 31;
  jo_room : stx_blksize st <= Heap.alignment h \/ 2 * stx_blksize st <= Heap.blockSize h;
  jo_size : 0 < stx_size st < 2 ^ 62;
  jo_count : chunk_count (stx_size st)
    (chunk_size (Heap.blockSize h) (Heap.alignment h) (stx_blksize st)) < 2 ^ 31;
}.

(** The chunk size is a multiple of the alignment, and leaves room to align. *)
Lemma chunk_size_ok h st :
  job_ok h st ->
  let cs := chunk_size (Heap.blockSize h) (Heap.alignment h) (stx_blksize st) in
  0 < cs <= Heap.blockSize h /\ cs mod stx_blksize st = 0 /\
  (cs + (stx_blksize st - 1) <= Heap.blockSize h \/
   cs = Heap.blockSize h /\ Heap.alignment h mod stx_blksize st = 0).
Proof.
  intros [[_ Hs Ha _ Hstep] (k & Hk & Ek) (m & Hm & Em) Hb Hroom _ _]. cbv zeta. unfold chunk_size.
  assert (0 < stx_blksize st) as Hra by (rewrite Em; by apply pow2_pos).
  destruct (Z.ltb_spec (Heap.alignment h) (stx_blksize st)) as [Hlt|Hge].
  - set (b := Heap.blockSize h - (stx_blksize st - 1)). assert (stx_blksize st <= b) as Hbr by lia.
    rewrite (wrap_small 64 b) by (unfold in_u; lia).
    assert (b / stx_blksize st * stx_blksize st <= b) as Hle
      by (rewrite Z.mul_comm; apply Z.mul_div_le; lia).
    assert (0 < b / stx_blksize st) by (apply Z.div_str_pos; lia).
    rewrite wrap_small by (unfold in_u; nia).
    split; [nia|]. split; [apply Z_mod_mult|]. left. lia.
  - assert (Heap.alignment h mod stx_blksize st = 0) as Hd.
    { rewrite Ek, Em in *. assert (m <= k) by (apply (Z.pow_le_mono_r_iff 2); lia).
      replace k with ((k - m) + m) by lia. rewrite Z.pow_add_r by lia. apply Z_mod_mult. }
    split; [lia|]. split; [|by right].
    apply Z.mod_divide in Hd; [|lia]. apply Z.mod_divide in Hstep; [|lia].
    apply Z.mod_divide; [lia|]. by eapply Z.divide_trans.
Qed.

Lemma chunk_count_spec total cs :
  0 < cs -> 0 < total ->
  0 < chunk_count total cs /\ (chunk_count total cs - 1) * cs < total <= chunk_count total cs * cs.
Proof.
  intros Hcs Ht. unfold chunk_count.
  pose proof (Z.div_mod (total + cs - 1) cs ltac:(lia)).
  pose proof (Z.mod_pos_bound (total + cs - 1) cs Hcs). split; [|nia].
  apply Z.div_str_pos. lia.
Qed.

(** The count the code computes. *)
Lemma chunk_count_code total cs :
  0 < cs -> 0 < total -> chunk_count total cs < 2 ^ 31 ->
  (if negb (total mod cs =? 0) then s32 (s32 (total / cs) + 1) else s32 (total / cs))
  = chunk_count total cs.
Proof.
  intros Hcs Ht Hn. pose proof (Z.div_mod total cs ltac:(lia)) as Hd.
  pose proof (Z.mod_pos_bound total cs Hcs). pose proof (Z.div_pos total cs ltac:(lia) Hcs).
  assert (chunk_count total cs = total / cs + (if total mod cs =? 0 then 0 else 1)) as E.
  { unfold chunk_count. destruct (Z.eqb_spec (total mod cs) 0).
    - symmetry. apply (Z.div_unique _ _ _ (cs - 1)); lia.
    - symmetry. apply (Z.div_unique _ _ _ (total mod cs - 1)); lia. }
  rewrite E in *. destruct (total mod cs =? 0); cbn [negb];
    rewrite !sext_small; try lia; unfold in_s; rewrite ?sext_small; unfold in_s; lia.
Qed.

(** Every planned chunk is one the data path copies. *)
Lemma planned_chunk_ok h st sfd dfd tracker j :
  job_ok h st ->
  let cs := chunk_size (Heap.blockSize h) (Heap.alignment h) (stx_blksize st) in
  0 <= j < chunk_count (stx_size st) cs ->
  let r := new_runner sfd dfd (j * cs) (chunk_len cs (stx_size st) j) (stx_blksize st) tracker in
  chunk_ok (stx_size st) r /\ fresh_runner r /\
  chunk_end r = Z.min (stx_size st) ((j + 1) * cs) /\
  (forall k, 0 <= k < stx_size st -> (offset r <= k < chunk_end r <-> j = k / cs)).
Proof.
  intros Hj cs Hjn r. destruct (chunk_size_ok h st Hj) as (Hcs & Hmod & _). fold cs in Hcs, Hmod.
  destruct Hj as [_ _ (m & Hm & Em) Hb _ Hsz _].
  destruct (chunk_count_spec (stx_size st) cs) as (Hn & Hn1 & Hn2); [lia|lia|].
  assert (0 < stx_blksize st) as Hra by (rewrite Em; by apply pow2_pos).
  assert (j * cs < stx_size st) as Hlt by nia.
  assert (chunk_end r = Z.min (stx_size st) ((j + 1) * cs)) as Hend
    by (unfold chunk_end, r, chunk_len; cbn; lia).
  split; [|split; [by repeat split|split; [done|]]].
  - split; rewrite ?Hend; cbn; unfold chunk_len; try nia.
    + split; [nia|]. rewrite Z.mul_mod, Hmod, Z.mul_0_r by lia. apply Zmod_0_l.
    + destruct (Z_le_gt_dec (stx_size st) ((j + 1) * cs)); [left; lia|right].
      rewrite Z.min_r by lia. rewrite Z.mul_mod, Hmod, Z.mul_0_r by lia. apply Zmod_0_l.
  - intros k Hk. rewrite Hend. cbn. split.
    + intros Hkj. apply (Z.div_unique _ _ _ (k - j * cs)); [left|]; lia.
    + intros ->. pose proof (Z.div_mod k cs ltac:(lia)). pose proof (Z.mod_pos_bound k cs). lia.
Qed.

(** ** The job *)

(** ** The plan *)

(** The chunks of a file: offset, size and alignment of each. *)
Definition plan (h : Heap.heap) (st : statx) : list (Z * Z * Z) :=
  if stx_size st =? 0 then [(0, 0, 0)]
  else
    let cs := chunk_size (Heap.blockSize h) (Heap.alignment h) (stx_blksize st) in
    map (fun j => (j * cs, chunk_len cs (stx_size st) j, stx_blksize st))
      (zseq 0 (Z.to_nat (chunk_count (stx_size st) cs))).

(** The runner of a chunk. *)
Definition chunk_runner (sfd dfd tracker : Z) (p : Z * Z * Z) : CopyRunner :=
  let '(o, n, al) := p in new_runner sfd dfd o n al tracker.

Definition src_flags : Z := Z.lor O_RDONLY (Z.lor O_DIRECT O_CLOEXEC).
Definition dest_flags : Z := Z.lor (Z.lor O_WRONLY O_CREAT) (Z.lor O_TRUNC O_CLOEXEC).

(** The state after the addition of a job: its descriptors, tracker and runners take
    the next addresses, and nothing else changes. *)
Record job_added {W} {F : Files W} (src dest : string) (st : statx) (c c' : cqueue W) : Prop := {
  ja_pending : copiesPendingStart c' =
    copiesPendingStart c ++ zseq (next_addr c + 3) (length (plan (qu_heap (cq_queue c)) st));
  ja_next : next_addr c' = next_addr c + 3 + zlen (plan (qu_heap (cq_queue c)) st);
  ja_tracker : qu_chunks (cq_queue c') !! (next_addr c + 2) =
    Some (zlen (plan (qu_heap (cq_queue c)) st));
  ja_src : exists d, qu_qfds (cq_queue c') !! (next_addr c) = Some d /\ q_path d = src;
  ja_dest : exists d, qu_qfds (cq_queue c') !! (next_addr c + 1) = Some d /\ q_path d = dest;
  ja_runner : forall j p, zget (plan (qu_heap (cq_queue c)) st) j = Some p ->
    qu_runners (cq_queue c') !! (next_addr c + 3 + j) =
      Some (chunk_runner (next_addr c) (next_addr c + 1) (next_addr c + 2) p);
  ja_total : totalBytesToCopy (qu_counters (cq_queue c')) =
    u64 (totalBytesToCopy (qu_counters (cq_queue c)) + stx_size st);
  ja_alive : keepAliveCount (qu_counters (cq_queue c')) =
    u32 (keepAliveCount (qu_counters (cq_queue c)) + zlen (plan (qu_heap (cq_queue c)) st));
  ja_old_qfds : forall p, p < next_addr c -> qu_qfds (cq_queue c') !! p = qu_qfds (cq_queue c) !! p;
  ja_old_chunks : forall p, p < next_addr c -> qu_chunks (cq_queue c') !! p = qu_chunks (cq_queue c) !! p;
  ja_old_runners : forall p, p < next_addr c + 3 ->
    qu_runners (cq_queue c') !! p = qu_runners (cq_queue c) !! p;
  ja_heap : qu_heap (cq_queue c') = qu_heap (cq_queue c);
  ja_ring : qu_ring (cq_queue c') = qu_ring (cq_queue c);
  ja_state : cq_state c' = cq_state c;
  ja_errors : errorMessages c' = errorMessages c;
  ja_os : exists o, opens src src_flags 0 (qu_os (cq_queue c)) o /\
    opens dest dest_flags (stx_mode st) o (qu_os (cq_queue c'));
}.

Lemma plan_nonempty h st :
  stx_size st <> 0 ->
  plan h st = map (fun j => (j * chunk_size (Heap.blockSize h) (Heap.alignment h) (stx_blksize st),
      chunk_len (chunk_size (Heap.blockSize h) (Heap.alignment h) (stx_blksize st)) (stx_size st) j,
      stx_blksize st))
    (zseq 0 (Z.to_nat (chunk_count (stx_size st)
      (chunk_size (Heap.blockSize h) (Heap.alignment h) (stx_blksize st))))).
Proof. intros H. unfold plan. by destruct (Z.eqb_spec (stx_size st) 0). Qed.

Lemma length_plan h st :
  job_ok h st ->
  zlen (plan h st) = chunk_count (stx_size st)
    (chunk_size (Heap.blockSize h) (Heap.alignment h) (stx_blksize st)).
Proof.
  intros Hj. destruct (jo_size _ _ Hj). pose proof (chunk_size_ok h st Hj) as [[Hcs _] _].
  rewrite plan_nonempty by lia. unfold zlen. rewrite length_map, zseq_length.
  destruct (chunk_count_spec (stx_size st) _ Hcs ltac:(done)). lia.
Qed.

Lemma plan_get h st j p :
  job_ok h st -> zget (plan h st) j = Some p ->
  let cs := chunk_size (Heap.blockSize h) (Heap.alignment h) (stx_blksize st) in
  0 <= j < chunk_count (stx_size st) cs /\
  p = (j * cs, chunk_len cs (stx_size st) j, stx_blksize st).
Proof.
  intros Hj Hp cs. pose proof (zget_range _ _ _ Hp) as Hr. rewrite length_plan in Hr by done.
  split; [done|]. destruct (jo_size _ _ Hj). rewrite plan_nonempty, zget_map in Hp by lia.
  rewrite zget_zseq in Hp by lia. by injection Hp as <-.
Qed.

Section job.
Context {W : Type} {F : Files W}.
Implicit Types (c : cqueue W).

Lemma on_queue_ok {A} (m : prog (queue W) A) c a q :
  m (cq_queue c) = Ok (a, q) -> on_queue m c = Ok (a, cq_set_queue q c).
Proof. intros H. unfold on_queue. by rewrite H. Qed.

(** Creating the two descriptors: the state afterwards. *)
Definition opened (src dest : string) (o1 o2 md : Z) c c' : Prop :=
  let q := cq_queue c in let q' := cq_queue c' in
  c' = cq_set_next (next_addr c + 3) (cq_set_queue q' c) /\
  qu_ring q' = qu_ring q /\ qu_heap q' = qu_heap q /\ qu_counters q' = qu_counters q /\
  qu_chunks q' = qu_chunks q /\ qu_runners q' = qu_runners q /\
  (exists d, qu_qfds q' !! (next_addr c) = Some d /\ q_path d = src) /\
  (exists d, qu_qfds q' !! (next_addr c + 1) = Some d /\ q_path d = dest) /\
  (forall p, p < next_addr c -> qu_qfds q' !! p = qu_qfds q !! p) /\
  exists o, opens src o1 0 (qu_os q) o /\ opens dest o2 md o (qu_os q').

Lemma open_files_ok {A} i1 i2 src dest o1 o2 md (k : Z -> Z -> Z -> prog (cqueue W) A) c :
  exists c', opened src dest o1 o2 md c c' /\
    (let* sfd := fresh in
     do* on_queue (new_qfd i1 sfd src o1 0) in
     let* dfd := fresh in
     do* on_queue (new_qfd i2 dfd dest o2 md) in
     let* tracker := fresh in
     k sfd dfd tracker) c = k (next_addr c) (next_addr c + 1) (next_addr c + 2) c'.
Proof.
  set (a := next_addr c). set (c1 := cq_set_next (a + 1) c).
  destruct (new_qfd_frame i1 a src o1 0 (cq_queue c1)) as (q1 & f1 & H1 & (S1&S2&S3&S4&S5&S6) & D1 & Op1).
  set (c2 := cq_set_next (a + 1 + 1) (cq_set_queue q1 c1)).
  destruct (new_qfd_frame i2 (a + 1) dest o2 md (cq_queue c2))
    as (q2 & f2 & H2 & (T1&T2&T3&T4&T5&T6) & D2 & Op2).
  exists (cq_set_next (a + 1 + 1 + 1) (cq_set_queue q2 c2)). split.
  - unfold opened. cbn in *. split; [fold a; by replace (a + 3) with (a + 1 + 1 + 1) by lia|].
    split_and!; try congruence.
    + eexists. split; [rewrite T6 by (unfold a; lia); exact D1|done].
    + eexists. split; [exact D2|done].
    + intros p Hp. rewrite T6 by (unfold a; lia). apply S6. unfold a. lia.
    + by exists (qu_os q1).
  - rewrite (bind_ok _ _ c a c1) by done. rewrite (bind_ok _ _ _ _ _ (on_queue_ok _ c1 _ _ H1)).
    rewrite (bind_ok _ _ _ (a + 1) c2) by done.
    rewrite (bind_ok _ _ _ _ _ (on_queue_ok _ c2 _ _ H2)).
    rewrite (bind_ok _ _ _ (a + 1 + 1) (cq_set_next (a + 1 + 1 + 1) (cq_set_queue q2 c2))) by done.
    by replace (a + 2) with (a + 1 + 1) by lia.
Qed.

(** A file of no bytes. *)
Lemma plan_empty_ok st fuel src dest c c1 :
  stx_size st = 0 -> adding c = true -> opened src dest src_flags dest_flags (stx_mode st) c c1 ->
  exists c', add_parts fuel st (next_addr c) (next_addr c + 1) (next_addr c + 2) c1 = Ok (tt, c') /\
    job_added src dest st c c'.
Proof.
  intros Hs Ha (O1&O2&O3&O4&O5&O6&O7&O8&O9&O10). set (a := next_addr c) in *.
  unfold add_parts. rewrite Hs. cbn [Z.eqb].
  set (c2 := cq_set_queue (set_chunks (<[a + 2 := 1]> (qu_chunks (cq_queue c1))) (cq_queue c1)) c1).
  rewrite (bind_ok _ _ c1 tt c2) by done.
  assert (adding c2 = true) as Ha2 by (unfold c2; rewrite O1; exact Ha).
  destruct (addCopyJobPart_ok a (a + 1) 0 1 0 (a + 2) 0 c2) as (c3 & H3 & P); try done || lia.
  exists c3. split; [exact H3|]. destruct P as [P1 P2 P3 P4 P5 P6 P7 P8 P9 P10 P11 P12 P13 P14 P15].
  assert (next_addr c2 = a + 3) as En by (unfold c2; rewrite O1; done). rewrite En in *.
  assert (plan (qu_heap (cq_queue c)) st = [(0, 0, 0)]) as Ep by (unfold plan; by rewrite Hs).
  change (Z.of_nat 1) with 1 in *.
  split; fold a; rewrite ?Ep; change (zlen [(0, 0, 0)]) with 1.
  - rewrite P1. unfold c2. by rewrite O1.
  - by rewrite P3.
  - rewrite P10. apply lookup_insert_eq.
  - rewrite P9. exact O7.
  - rewrite P9. exact O8.
  - intros j p Hp. pose proof (zget_range _ _ _ Hp) as Hr. change (zlen [(0, 0, 0)]) with 1 in Hr.
    assert (j = 0) as -> by lia. injection Hp as <-. by apply (P4 0).
  - rewrite P8. cbn. by rewrite O4, Hs.
  - rewrite P7. cbn. by rewrite O4.
  - intros p Hp. rewrite P9. by apply O9.
  - intros p Hp. rewrite P10. cbn. by rewrite lookup_insert_ne, O5 by lia.
  - intros p Hp. rewrite P5 by lia. cbn. by rewrite O6.
  - rewrite P11. exact O3.
  - rewrite P12. exact O2.
  - rewrite P13. unfold c2. by rewrite O1.
  - rewrite P15. unfold c2. by rewrite O1.
  - destruct O10 as (o & Q1 & Q2). exists o. split; [done|]. by rewrite P14.
Qed.

(** A file of some bytes. *)
Lemma plan_chunks_ok st fuel src dest c c1 :
  job_ok (qu_heap (cq_queue c)) st -> (length (plan (qu_heap (cq_queue c)) st) <= fuel)%nat ->
  adding c = true -> opened src dest src_flags dest_flags (stx_mode st) c c1 ->
  exists c', add_parts fuel st (next_addr c) (next_addr c + 1) (next_addr c + 2) c1 = Ok (tt, c') /\
    job_added src dest st c c'.
Proof.
  intros Hj Hf Ha (O1&O2&O3&O4&O5&O6&O7&O8&O9&O10). set (a := next_addr c) in *.
  set (h := qu_heap (cq_queue c)) in *.
  set (cs := chunk_size (Heap.blockSize h) (Heap.alignment h) (stx_blksize st)).
  pose proof (length_plan h st Hj) as Hlen. fold cs in Hlen. set (n := chunk_count _ cs) in Hlen.
  assert (0 < cs <= Heap.blockSize h) as Hcs by apply (chunk_size_ok h st Hj).
  destruct (jo_size _ _ Hj) as [Hs0 Hsz]. pose proof (jo_block _ _ Hj) as Hblk.
  assert (n < 2 ^ 31) as Hcnt by apply (jo_count _ _ Hj).
  destruct (chunk_count_spec (stx_size st) cs (proj1 Hcs) Hs0) as (Hn & Hn1 & Hn2).
  fold n in Hn, Hn1, Hn2.
  assert (0 < stx_blksize st) as Hra.
  { destruct (jo_blk _ _ Hj) as (m & Hm & ->). by apply pow2_pos. }
  unfold add_parts. destruct (Z.eqb_spec (stx_size st) 0); [lia|].
  rewrite (bind_ok _ _ c1 h c1) by (unfold gets; by rewrite O3). fold cs.
  rewrite (bind_ok _ _ c1 tt c1) by (unfold assert; by case_z; [|lia]).
  rewrite (chunk_count_code (stx_size st) cs) by done || lia. fold n.
  set (c2 := cq_set_queue (set_chunks (<[a + 2 := n]> (qu_chunks (cq_queue c1))) (cq_queue c1)) c1).
  rewrite (bind_ok _ _ c1 tt c2) by done.
  assert (adding c2 = true) as Ha2 by (unfold c2; rewrite O1; exact Ha).
  destruct (part_loop_ok a (a + 1) (stx_size st) cs (stx_blksize st) (a + 2) fuel (Z.to_nat n) 0 c2)
    as (c3 & H3 & P & _); try done; try (unfold zlen in Hlen; lia).
  specialize (P ltac:(lia)). rewrite Z.mul_0_l, Z.min_r in H3 by lia.
  rewrite (bind_ok _ _ _ _ _ H3). rewrite Z2Nat.id, Z.add_0_l, Z.eqb_refl by lia.
  assert (next_addr c2 = a + 3) as En by (unfold c2; rewrite O1; done).
  assert (length (plan h st) = Z.to_nat n) as Hln by (unfold zlen in Hlen; lia).
  destruct P as [P1 P2 P3 P4 P5 P6 P7 P8 P9 P10 P11 P12 P13 P14 P15].
  rewrite En, ?Z2Nat.id in * by lia.
  exists c3. split; [done|]. split; fold h a; rewrite ?Hlen, ?Hln.
  - rewrite P1. unfold c2. by rewrite O1.
  - done.
  - rewrite P10. apply lookup_insert_eq.
  - rewrite P9. exact O7.
  - rewrite P9. exact O8.
  - intros j p Hp. destruct (plan_get h st j p Hj Hp) as (Hjn & ->). by apply P4.
  - rewrite P8. cbn. rewrite O4, Z.min_l by lia. f_equal. lia.
  - rewrite P7. cbn. by rewrite O4.
  - intros p Hp. rewrite P9. by apply O9.
  - intros p Hp. rewrite P10. cbn. by rewrite lookup_insert_ne, O5 by lia.
  - intros p Hp. rewrite P5 by lia. cbn. by rewrite O6.
  - rewrite P11. exact O3.
  - rewrite P12. exact O2.
  - rewrite P13. unfold c2. by rewrite O1.
  - rewrite P15. unfold c2. by rewrite O1.
  - destruct O10 as (o & Q1 & Q2). exists o. split; [done|]. by rewrite P14.
Qed.

(** A file the queue accepts: it is empty, or its chunks fit the buffers. *)
Definition plannable (h : Heap.heap) (st : statx) : Prop := stx_size st = 0 \/ job_ok h st.

Lemma addCopyJob_ok fuel i1 i2 src dest st c :
  adding c = true -> plannable (qu_heap (cq_queue c)) st ->
  (length (plan (qu_heap (cq_queue c)) st) <= fuel)%nat ->
  exists c', addCopyJob fuel i1 i2 src dest st c = Ok (tt, c') /\ job_added src dest st c c'.
Proof.
  intros Ha Hp Hf. unfold addCopyJob. fold src_flags dest_flags.
  destruct (open_files_ok i1 i2 src dest src_flags dest_flags (stx_mode st) (add_parts fuel st) c)
    as (c1 & O & ->).
  destruct Hp as [Hs|Hj]; [by apply plan_empty_ok|by apply plan_chunks_ok].
Qed.
End job.

(** C15: a copy job is a partition of its file.  With fuel for the number of chunks,
    addCopyJob always succeeds: it appends that many new runners to the pending
    copies, every one of them a fresh runner for a chunk the data path copies, on the
    two descriptors it created; each byte of the file is in exactly one chunk; the
    shared tracker holds the number of chunks, and the totals grow by the size of the
    file and the number of runners. *)
Theorem addCopyJob_partitions {W} {F : Files W} fuel i1 i2 src dest st (c : cqueue W) :
  adding c = true -> job_ok (qu_heap (cq_queue c)) st ->
  let h := qu_heap (cq_queue c) in
  let cs := chunk_size (Heap.blockSize h) (Heap.alignment h) (stx_blksize st) in
  let n := chunk_count (stx_size st) cs in
  let a := next_addr c in
  (Z.to_nat n <= fuel)%nat ->
  exists c', addCopyJob fuel i1 i2 src dest st c = Ok (tt, c') /\
    copiesPendingStart c' = copiesPendingStart c ++ zseq (a + 3) (Z.to_nat n) /\
    qu_chunks (cq_queue c') !! (a + 2) = Some n /\
    (exists d, qu_qfds (cq_queue c') !! a = Some d /\ q_path d = src) /\
    (exists d, qu_qfds (cq_queue c') !! (a + 1) = Some d /\ q_path d = dest) /\
    totalBytesToCopy (qu_counters (cq_queue c')) =
      u64 (totalBytesToCopy (qu_counters (cq_queue c)) + stx_size st) /\
    keepAliveCount (qu_counters (cq_queue c')) =
      u32 (keepAliveCount (qu_counters (cq_queue c)) + n) /\
    (forall j, 0 <= j < n -> exists r, qu_runners (cq_queue c') !! (a + 3 + j) = Some r /\
       chunk_ok (stx_size st) r /\ fresh_runner r /\ 
       sourceFd r = a /\ destFd r = a + 1 /\ chunksRemaining r = a + 2 /\
       (forall k, 0 <= k < stx_size st -> (offset r <= k < chunk_end r <-> j = k / cs))) /\
    (forall k, 0 <= k < stx_size st -> 0 <= k / cs < n).
Proof.
  intros Ha Hj h cs n a Hf. pose proof (length_plan h st Hj) as Hlen. fold cs n in Hlen.
  assert (length (plan h st) = Z.to_nat n) as Hln by (unfold zlen in Hlen; lia).
  destruct (addCopyJob_ok fuel i1 i2 src dest st c Ha (or_intror Hj)) as (c' & H & J);
    [fold h; lia|].
  assert (0 < cs) as Hcs by apply (chunk_size_ok h st Hj).
  destruct (jo_size _ _ Hj) as [Hs0 _].
  destruct (chunk_count_spec (stx_size st) cs Hcs Hs0) as (Hn & Hn1 & Hn2). fold n in Hn, Hn1, Hn2.
  destruct J. fold h a in ja_pending0, ja_tracker0, ja_src0, ja_dest0, ja_runner0, ja_alive0.
  rewrite Hln in ja_pending0. rewrite Hlen in ja_tracker0, ja_alive0.
  exists c'. do 7 (split; [done|]). split.
  - intros j Hjn. destruct (zget_in (plan h st) j) as (p & Hp); [lia|].
    pose proof (ja_runner0 j p Hp) as Hr. destruct (plan_get h st j p Hj Hp) as (_ & ->).
    eexists. split; [exact Hr|].
    destruct (planned_chunk_ok h st a (a + 1) (a + 2) j Hj Hjn) as (K1 & K2 & _ & K3). by split_and!.
  - intros k Hk. split; [by apply Z.div_pos; lia|]. apply Z.div_lt_upper_bound; lia.
Qed.

(** ** Buffers *)

(** Masking with the negated power of two clears the low bits. *)
Lemma land_neg_pow2 x m :
  0 <= m <= 64 -> in_u 64 x -> Z.land x (u64 (- 2 ^ m)) = x / 2 ^ m * 2 ^ m.
Proof.
  intros Hm Hx. rewrite <- Z.shiftr_div_pow2, <- Z.shiftl_mul_pow2, <- Z.ldiff_ones_r by lia.
  apply Z.bits_inj'. intros i Hi. rewrite Z.land_spec, Z.ldiff_spec, testbit_wrap by lia.
  replace (- 2 ^ m) with (Z.lnot (Z.ones m)) by (rewrite Z.ones_equiv; unfold Z.lnot; lia).
  rewrite Z.lnot_spec by done. destruct (Z.ltb_spec i 64); [done|]. simpl.
  rewrite andb_false_r. symmetry. apply andb_false_intro1.
  rewrite <- (wrap_small 64 x Hx), testbit_wrap by lia. by destruct (Z.ltb_spec i 64); [lia|].
Qed.

(** The aligned address of a block leaves room for a chunk, rounded up. *)
Lemma aligned_block h st i sz :
  let b := Heap.block_at h i in let a := stx_blksize st in
  job_ok h st -> 0 < Heap.data h -> Heap.data h + Heap.blocks h * Heap.blockSize h < 2 ^ 63 ->
  0 <= i < Heap.blocks h ->
  sz <= chunk_size (Heap.blockSize h) (Heap.alignment h) a ->
  let al := (b - 1 + a) / a * a in
  Z.land (u64 (b - 1 + a)) (u64 (- a)) = al /\ al mod a = 0 /\ b <= al /\
  al + round_up sz a <= b + Heap.blockSize h /\ 0 < a.
Proof.
  intros b a Hj Hd0 Hd Hi Hsz al.
  destruct (chunk_size_ok h st Hj) as (Hcs & Hmod & Hfit). fold a in Hcs, Hmod, Hfit.
  set (cs := chunk_size _ _ _) in *. pose proof (jo_heap _ _ Hj) as Hh.
  pose proof (jo_block _ _ Hj) as Hblk. fold a in Hblk.
  destruct (jo_blk _ _ Hj) as (m & Hm & Em). fold a in Em. pose proof (pow2_pos m Hm) as Hra.
  assert (m <= 64) as Hm64 by (apply (Z.pow_le_mono_r_iff 2); lia).
  rewrite <- Em in Hra. pose proof (Heap.ho_size _ Hh).
  assert (Heap.data h <= b /\ b + Heap.blockSize h <= Heap.data h + Heap.blocks h * Heap.blockSize h)
    as [Hb1 Hb2] by (unfold b, Heap.block_at; nia).
  assert (in_u 64 (b - 1 + a)) as Hx by (unfold in_u; lia).
  assert (b <= al < b + a) as Hbal.
  { unfold al. pose proof (Z.div_mod (b - 1 + a) a ltac:(lia)).
    pose proof (Z.mod_pos_bound (b - 1 + a) a ltac:(lia)). lia. }
  assert (round_up sz a <= cs) as Hup.
  { transitivity (round_up cs a); [apply round_up_mono; lia|].
    unfold round_up. pose proof (Z.div_mod cs a ltac:(lia)).
    assert ((cs + a - 1) / a = cs / a) as ->; [|lia].
    symmetry. apply (Z.div_unique _ _ _ (a - 1)); lia. }
  split_and!; [|apply Z_mod_mult|lia| |done].
  - rewrite (wrap_small 64 _ Hx). unfold al. rewrite Em. apply land_neg_pow2; [lia|].
    by rewrite <- Em.
  - destruct Hfit as [Hfit|[Hfit Hdiv]]; [lia|].
    assert (b mod a = 0) as Hbm.
    { apply Z.mod_divide; [lia|]. apply Z.mod_divide in Hdiv; [|lia].
      pose proof (Heap.ho_base _ Hh) as H1. pose proof (Heap.ho_step _ Hh) as H2.
      pose proof (Heap.ho_align _ Hh).
      apply Z.mod_divide in H1, H2; try lia. unfold b, Heap.block_at.
      apply Z.divide_add_r; [by eapply Z.divide_trans|].
      apply Z.divide_mul_l. by eapply Z.divide_trans. }
    assert (al = b); [|lia]. unfold al. pose proof (Z.div_mod b a ltac:(lia)).
    assert ((b - 1 + a) / a = b / a) as ->; [|lia].
    symmetry. apply (Z.div_unique _ _ _ (a - 1)); lia.
Qed.

(** The buffer of a runner: the block, and the aligned address inside it. *)
Lemma giveBuffer_ok {W} (q : queue W) this r st i :
  let h := qu_heap q in let b := Heap.block_at h i in
  job_ok h st -> 0 < Heap.data h -> Heap.data h + Heap.blocks h * Heap.blockSize h < 2 ^ 63 ->
  0 <= i < Heap.blocks h ->
  qu_runners q !! this = Some r -> buffer r = 0 -> alignment r = stx_blksize st ->
  0 < size r <= chunk_size (Heap.blockSize h) (Heap.alignment h) (stx_blksize st) ->
  exists al, giveBuffer this b q =
      Ok (tt, set_runners (<[this := r_set_buffer b al r]> (qu_runners q)) q) /\
    al mod alignment r = 0 /\ b <= al /\
    al + round_up (size r) (alignment r) <= b + Heap.blockSize h.
Proof.
  intros h b Hj Hd0 Hd Hi Hr Hb Hal Hsz.
  destruct (aligned_block h st i (size r) Hj Hd0 Hd Hi (proj2 Hsz))
    as (Hland & Ham & Hbal & Hend & Hra).
  fold b in Hland, Ham, Hbal, Hend. rewrite <- Hal in *. set (al := _ / _ * _) in *.
  exists al. split; [|done].
  unfold giveBuffer. rewrite (bind_ok _ _ _ _ _ (get_runner_ok _ _ _ Hr)).
  rewrite (bind_ok _ _ q tt q) by (unfold assert; by case_z; [|lia]).
  rewrite (bind_ok _ _ q tt q) by (by rewrite Hb). rewrite Hland.
  set (q1 := set_runners (<[this := r_set_buffer b al r]> (qu_runners q)) q).
  rewrite (bind_ok _ _ q tt q1) by done. rewrite (bind_ok _ _ q1 h q1) by done.
  rewrite Ham. rewrite (bind_ok _ _ q1 tt q1) by done. unfold assert.
  pose proof (round_up_ge (size r) (alignment r) Hra). by case_z; [|lia].
Qed.

(** C23: the assertions of giveBuffer never fail.  For a chunk no larger than the
    chunk size of its job and any block of the heap, the aligned address is a
    multiple of the alignment inside the block, and the chunk rounded up to the
    alignment ends inside it. *)
Theorem giveBuffer_fits {W} (q : queue W) this r st i :
  let h := qu_heap q in let b := Heap.block_at h i in
  job_ok h st -> 0 < Heap.data h -> Heap.data h + Heap.blocks h * Heap.blockSize h < 2 ^ 63 ->
  0 <= i < Heap.blocks h ->
  qu_runners q !! this = Some r -> buffer r = 0 -> alignment r = stx_blksize st ->
  0 < size r <= chunk_size (Heap.blockSize h) (Heap.alignment h) (stx_blksize st) ->
  exists al, giveBuffer this b q =
      Ok (tt, set_runners (<[this := r_set_buffer b al r]> (qu_runners q)) q) /\
    al mod alignment r = 0 /\ b <= al /\
    al + round_up (size r) (alignment r) <= b + Heap.blockSize h.
Proof. apply giveBuffer_ok. Qed.

(** Two blocks of 8192 bytes. *)
Definition small_heap : Heap.heap := Heap.mk_heap [false; false] 8192 2 8192 4096.

Definition small_file : statx := mk_statx 10000 4096 420.

Lemma small_job_ok : job_ok small_heap small_file.
Proof.
  split; try (by exists 12); try (by left); try done.
Qed.

Definition empty_cqueue : cqueue script :=
  mk_cqueue (set_heap small_heap (empty_queue (mk_script [] 0) 900 2)) 8 [] 0 eta0 false [] Running
    Return false 1.

(** Ten thousand bytes in chunks of 8192: the last byte is in the second one. *)
Lemma addCopyJob_partitions_witness :
  exists c', addCopyJob 2 false false "a" "b" small_file empty_cqueue = Ok (tt, c') /\
    copiesPendingStart c' = [4; 5].
Proof.
  destruct (addCopyJob_partitions 2 false false "a" "b" small_file empty_cqueue eq_refl small_job_ok
    (le_n 2)) as (c' & H1 & H2 & _).
  exists c'. split; [exact H1|exact H2].
Defined.

Lemma giveBuffer_fits_witness :
  let q := set_runners {[100 := new_runner 1 2 8192 1808 4096 3]}
    (set_heap small_heap (empty_queue (mk_script [] 0) 900 2)) in
  exists al, giveBuffer 100 (Heap.block_at small_heap 1) q =
    Ok (tt, set_runners (<[100 := r_set_buffer (Heap.block_at small_heap 1) al
      (new_runner 1 2 8192 1808 4096 3)]> (qu_runners q)) q).
Proof.
  intros q.
  assert (qu_runners q !! 100 = Some (new_runner 1 2 8192 1808 4096 3)) as Hr
    by apply lookup_singleton_eq.
  destruct (giveBuffer_fits q 100 (new_runner 1 2 8192 1808 4096 3) small_file 1 small_job_ok
    eq_refl eq_refl ltac:(split; [discriminate|reflexivity]) Hr eq_refl eq_refl
    ltac:(split; [reflexivity|discriminate])) as (al & H & _).
  exists al. exact H.
Defined.
