(* ===== verification/SubmitLoop.v ===== *)
(** * The life of a runner in the submit thread

    What the loop does with a runner whose chunk is finished, failed or empty, and
    what becomes of the descriptors, the tracker and the buffer it used. *)

From stdpp Require Import gmap strings.
From S2P Require Import Prelude Abi Prep RingBuf Ring SqSpec Kernel Queue Os Util Heap Eta CopyState FileDesc Runner RunnerData RunnerLive RunnerSpec CopyQueue CopyJob.
Import Eta.Rolling Eta.ETA.

Section life.
Context {W : Type} {F : Files W} {K : Kernel W}.
Implicit Types (q : queue W) (l : loop W).

(** The queue of the loop. *)
Definition lq l : queue W := cq_queue (lp_cq l).
Definition lp_set_queue q l : loop W := lp_set_cq (cq_set_queue q (lp_cq l)) l.

(** An operation of the queue, lifted to the loop. *)
Lemma lift_ok {A} (m : prog (queue W) A) l a q :
  m (lq l) = Ok (a, q) -> on_cq (on_queue m) l = Ok (a, lp_set_queue q l).
Proof. intros H. unfold on_cq, on_queue. unfold lq in H. by rewrite H. Qed.

Lemma lift_fault {A} (m : prog (queue W) A) l f :
  m (lq l) = Fault f -> on_cq (on_queue m) l = Fault f.
Proof. intros H. unfold on_cq, on_queue. unfold lq in H. by rewrite H. Qed.

Lemma bind_fault {S A B} (m : prog S A) (k : A -> prog S B) s f :
  m s = Fault f -> bind m k s = Fault f.
Proof. intros H. unfold bind. by rewrite H. Qed.

(** Returning the buffer of a runner, if it has one. *)
Definition returned (r : CopyRunner) (h h' : Heap.heap) : Prop :=
  if buffer r =? 0 then h' = h else Heap.returnBlock (buffer r) h = Ok (tt, h').

(** The first half of the destructor: the buffer and the counters. *)
Definition released (r : CopyRunner) (h : Heap.heap) (n : Z) q : queue W :=
  set_chunks (<[chunksRemaining r := n - 1]> (qu_chunks q))
    (set_counters (add_keepAlive (-1) (qu_counters q)) (set_heap h q)).

Lemma delete_runner_eq this r n h q :
  qu_runners q !! this = Some r -> jobsRunning r = 0 -> returned r (qu_heap q) h ->
  qu_chunks q !! chunksRemaining r = Some n -> 1 <= n ->
  delete_runner this q =
    (do* (if n - 1 =? 0 then
            do* delete_qfd (sourceFd r) in
            do* delete_qfd (destFd r) in
            modify (fun q => set_chunks (delete (chunksRemaining r) (qu_chunks q)) q)
          else ret tt) in
     modify (fun q => set_runners (delete this (qu_runners q)) q)) (released r h n q).
Proof.
  intros Hr Hj Hh Hn H1. unfold delete_runner, returned in *.
  rewrite (bind_ok _ _ _ _ _ (get_runner_ok _ _ _ Hr)).
  rewrite (bind_ok _ _ q tt q) by (by rewrite Hj).
  rewrite (bind_ok _ _ q tt (set_heap h q)).
  2:{ destruct (buffer r =? 0); cbn [negb]; [subst h; by destruct q|].
      rewrite (bind_ok _ _ q (qu_heap q) q) by done. by rewrite Hh. }
  set (q1 := set_counters (add_keepAlive (-1) (qu_counters q)) (set_heap h q)).
  rewrite (bind_ok _ _ _ tt q1) by done.
  rewrite (bind_ok _ _ _ n q1) by (unfold get_chunks, deref; cbn; by rewrite Hn).
  rewrite (bind_ok _ _ _ tt q1) by (unfold assert; by case_z; [|lia]).
  by rewrite (bind_ok _ _ _ tt (released r h n q)).
Qed.

(** Not the last chunk: the files stay. *)
Lemma delete_runner_more this r n h q :
  qu_runners q !! this = Some r -> jobsRunning r = 0 -> returned r (qu_heap q) h ->
  qu_chunks q !! chunksRemaining r = Some n -> 1 < n ->
  delete_runner this q =
    Ok (tt, set_runners (delete this (qu_runners q)) (released r h n q)).
Proof.
  intros Hr Hj Hh Hn H1. rewrite (delete_runner_eq this r n h q); [|done..|lia].
  by case_z; [lia|].
Qed.

(** Deleting a descriptor that is open fails its assertion. *)
Lemma delete_qfd_open p d q :
  qu_qfds q !! p = Some d -> isOpen d = true -> delete_qfd p q = Fault AssertFailed.
Proof.
  intros Hd Ho. unfold delete_qfd. rewrite (bind_ok _ _ _ _ _ (get_qfd_ok _ _ _ Hd)).
  apply bind_fault. unfold assert, isOpen, CLOSED_VAL, NEVER_OPENED_VAL in *. bools.
  do 2 (case_z; [lia|]). done.
Qed.

Lemma delete_qfd_ok p d q :
  qu_qfds q !! p = Some d -> q_fd d = CLOSED_VAL \/ q_fd d = NEVER_OPENED_VAL ->
  delete_qfd p q = Ok (tt, set_qfds (delete p (qu_qfds q)) q).
Proof.
  intros Hd Hc. unfold delete_qfd. rewrite (bind_ok _ _ _ _ _ (get_qfd_ok _ _ _ Hd)).
  assert ((q_fd d =? CLOSED_VAL) || (q_fd d =? NEVER_OPENED_VAL) = true) as ->.
  { destruct Hc as [-> | ->]; done. }
  done.
Qed.

(** The last chunk: a source still open faults. *)
Lemma delete_runner_open this r h q d :
  qu_runners q !! this = Some r -> jobsRunning r = 0 -> returned r (qu_heap q) h ->
  qu_chunks q !! chunksRemaining r = Some 1 ->
  qu_qfds q !! sourceFd r = Some d -> isOpen d = true ->
  delete_runner this q = Fault AssertFailed.
Proof.
  intros Hr Hj Hh Hn Hd Ho. rewrite (delete_runner_eq this r 1 h q); [|done..].
  apply bind_fault, bind_fault. by apply (delete_qfd_open _ d).
Qed.

(** Closing a descriptor that is open, exactly. *)
Lemma close_one_open p d result q :
  qu_qfds q !! p = Some d -> 2 < q_fd d ->
  exists res o, close_one p result q = Ok (res,
    set_fdsUsed (u64 (fileDescriptorsUsed q - 1))
      (set_qfds (<[p := qfd_set_fd CLOSED_VAL d]> (qu_qfds q)) (set_os o q))).
Proof.
  intros Hd Hfd. unfold close_one. rewrite (bind_ok _ _ _ _ _ (get_qfd_ok _ _ _ Hd)).
  assert (isOpen d = true) as -> by (apply Z.ltb_lt; lia).
  rewrite (bind_ok _ _ _ _ _ (getFd_ok _ _ _ Hd Hfd)).
  assert (exists tmp o, with_os (myClose (q_fd d)) q = Ok (tmp, set_os o q)) as (tmp & o & Hcl).
  { unfold with_os, myClose, sys_close, syscall, bind. destruct (f_close _ _) as [[w v] e].
    destruct (v <? 0); by eexists _, _. }
  rewrite (bind_ok _ _ _ _ _ Hcl).
  assert (notifyClosed p (set_os o q) = Ok (tt, set_fdsUsed (u64 (fileDescriptorsUsed q - 1))
    (set_qfds (<[p := qfd_set_fd CLOSED_VAL d]> (qu_qfds q)) (set_os o q)))) as Hn.
  { unfold notifyClosed. by rewrite (bind_ok _ _ _ _ _ (get_qfd_ok p (set_os o q) d Hd)). }
  rewrite (bind_ok _ _ _ _ _ Hn). by eexists _, o.
Qed.

(** What a runner on open files points to. *)
Record on_files q (r : CopyRunner) (ds dd : QueueFileDescriptor) (n : Z) : Prop := {
  of_src : qu_qfds q !! sourceFd r = Some ds;
  of_dst : qu_qfds q !! destFd r = Some dd;
  of_ne : sourceFd r <> destFd r;
  of_fds : 2 < q_fd ds /\ 2 < q_fd dd;
  of_chunks : qu_chunks q !! chunksRemaining r = Some n;
}.

(** The queue after both files were closed. *)
Definition both_closed (r : CopyRunner) (ds dd : QueueFileDescriptor) (o : ost W) q : queue W :=
  set_fdsUsed (u64 (fileDescriptorsUsed q - 2))
    (set_qfds (<[destFd r := qfd_set_fd CLOSED_VAL dd]>
      (<[sourceFd r := qfd_set_fd CLOSED_VAL ds]> (qu_qfds q))) (set_os o q)).

Lemma handleFileClose_last this r ds dd q :
  qu_runners q !! this = Some r -> on_files q r ds dd 1 ->
  exists res o, handleFileClose this q = Ok (res, both_closed r ds dd o q).
Proof.
  intros Hr [Hs Hd Hne [Fs Fd] Hn]. unfold handleFileClose.
  rewrite (bind_ok _ _ _ _ _ (get_runner_ok _ _ _ Hr)).
  rewrite (bind_ok _ _ _ _ _ (deref_ok qu_chunks _ _ _ Hn : get_chunks _ _ = _)).
  destruct (close_one_open _ ds None q Hs Fs) as (r1 & o1 & H1). cbn [Z.eqb Pos.eqb].
  rewrite (bind_ok _ _ _ _ _ H1). set (q1 := set_fdsUsed _ _) in *.
  assert (qu_qfds q1 !! destFd r = Some dd) as Hd1 by (cbn; by rewrite lookup_insert_ne).
  destruct (close_one_open _ dd r1 q1 Hd1 Fd) as (r2 & o2 & H2).
  exists r2, o2. rewrite H2. unfold both_closed. cbn. rewrite wrap_sub_l.
  by replace (fileDescriptorsUsed q - 1 - 1) with (fileDescriptorsUsed q - 2) by lia.
Qed.

(** A failed open changes only the operating system and the reservations. *)
Lemma ensureOpened_error fuel p e q q1 :
  ensureOpened fuel p q = Ok (Some e, q1) ->
  exists o u, q1 = set_os o (set_fdsUsed u q).
Proof.
  unfold ensureOpened. intros H. apply bind_inv in H as (d & q2 & Hd & H).
  assert (q2 = q /\ qu_qfds q !! p = Some d) as [-> Hd'].
  { unfold get_qfd, deref in Hd. destruct (qu_qfds q !! p); by simplify_eq. }
  apply bind_inv in H as ([] & q2 & Ha & H). unfold assert in Ha.
  destruct (negb _); simplify_eq. destruct (q_fd d =? NEVER_OPENED_VAL); [|done].
  apply bind_inv in H as ([] & q3 & Hl & H).
  assert (exists u, q3 = set_fdsUsed u q2) as [u ->].
  { clear -Hl. induction fuel as [|n IH]; [done|]. cbn [reserve_loop] in Hl.
    apply bind_inv in Hl as (b & q4 & Hr & Hl).
    unfold reserveFileDescriptor, bind, gets, modify, ret in Hr.
    destruct (_ || _); simplify_eq; [by apply IH|]. injection Hl as <-. by eexists. }
  unfold doOpen in H. rewrite (bind_ok _ _ _ _ _ (get_qfd_ok _ _ _ (Hd' : qu_qfds (set_fdsUsed u q2) !! p = _))) in H.
  apply bind_inv in H as (v & q5 & Hm & H). unfold with_os in Hm.
  destruct (myOpen _ _ _ _) as [[? o']| |]; simplify_eq. destruct v; simplify_eq.
  injection H as _ <-. by exists o', u.
Qed.

(** The last chunk with its files closed: everything it used is deleted. *)
Lemma delete_runner_last this r h q ds dd :
  qu_runners q !! this = Some r -> jobsRunning r = 0 -> returned r (qu_heap q) h ->
  qu_chunks q !! chunksRemaining r = Some 1 -> sourceFd r <> destFd r ->
  qu_qfds q !! sourceFd r = Some ds -> q_fd ds = CLOSED_VAL \/ q_fd ds = NEVER_OPENED_VAL ->
  qu_qfds q !! destFd r = Some dd -> q_fd dd = CLOSED_VAL \/ q_fd dd = NEVER_OPENED_VAL ->
  delete_runner this q =
    Ok (tt, set_runners (delete this (qu_runners q))
      (set_chunks (delete (chunksRemaining r) (qu_chunks q))
        (set_qfds (delete (destFd r) (delete (sourceFd r) (qu_qfds q)))
          (set_counters (add_keepAlive (-1) (qu_counters q)) (set_heap h q))))).
Proof.
  intros Hr Hj Hh Hn Hne Hs Cs Hd Cd. rewrite (delete_runner_eq this r 1 h q); [|done..].
  change (1 - 1 =? 0) with true. cbv iota.
  set (q1 := released r h 1 q). unfold bind at 1.
  rewrite (bind_ok _ _ _ _ _ (delete_qfd_ok (sourceFd r) ds q1 Hs Cs)).
  set (q2 := set_qfds (delete (sourceFd r) (qu_qfds q1)) q1).
  assert (qu_qfds q2 !! destFd r = Some dd) as Hd2 by (cbn; by rewrite lookup_delete_ne).
  rewrite (bind_ok _ _ _ _ _ (delete_qfd_ok (destFd r) dd q2 Hd2 Cd)).
  unfold modify. cbn. do 3 f_equal. by rewrite delete_insert_eq.
Qed.
End life.

(** ** Properties *)

(** C24: the last chunk that finishes gives everything back.  When the last runner of
    a file finishes, the loop closes both files, returns the runner's buffer to the
    heap, deletes the runner, the descriptors and the tracker, gives back the two
    reservations, and counts the copy as completed; it reports at most the failure
    to close. *)
Theorem finished_releases_all {W} {F : Files W} this r ds dd h (l : loop W) :
  qu_runners (lq l) !! this = Some r -> jobsRunning r = 0 -> on_files (lq l) r ds dd 1 ->
  returned r (qu_heap (lq l)) h ->
  exists l', on_result this FinishedTag l = Ok (tt, l') /\
    qu_runners (lq l') = delete this (qu_runners (lq l)) /\
    qu_qfds (lq l') = delete (destFd r) (delete (sourceFd r) (qu_qfds (lq l))) /\
    qu_chunks (lq l') = delete (chunksRemaining r) (qu_chunks (lq l)) /\
    qu_heap (lq l') = h /\
    fileDescriptorsUsed (lq l') = u64 (fileDescriptorsUsed (lq l) - 2) /\
    qu_counters (lq l') = add_keepAlive (-1) (qu_counters (lq l)) /\
    qu_ring (lq l') = qu_ring (lq l) /\
    etaCalculator (lp_cq l') = onCopyCompleted (u64 (size r)) (etaCalculator (lp_cq l)) /\
    (exists e, errorMessages (lp_cq l') = errorMessages (lp_cq l) ++ e /\ zlen e <= 1) /\
    copiesPendingContinue l' = copiesPendingContinue l /\ nextBuffer l' = nextBuffer l.
Proof.
  intros Hr Hj Hf Hh. unfold on_result.
  destruct (handleFileClose_last this r ds dd (lq l) Hr Hf) as (res & o & Hc).
  rewrite (bind_ok _ _ _ _ _ (lift_ok _ l _ _ Hc)).
  set (q1 := both_closed r ds dd o (lq l)). set (l1 := lp_set_queue q1 l).
  assert (exists c2, report res l1 = Ok (tt, lp_set_cq c2 l1) /\ cq_queue c2 = q1 /\
    etaCalculator c2 = etaCalculator (lp_cq l) /\
    exists e, errorMessages c2 = errorMessages (lp_cq l) ++ e /\ zlen e <= 1)
    as (c2 & Hrep & Q2 & E2 & e2 & M2 & N2).
  { destruct res as [e|].
    - eexists. split; [done|]. do 2 (split; [done|]). by exists [e].
    - exists (lp_cq l1). split; [by destruct l|]. do 2 (split; [done|]). exists [].
      by rewrite app_nil_r. }
  rewrite (bind_ok _ _ _ _ _ Hrep). set (l2 := lp_set_cq c2 l1).
  assert (lq l2 = q1) as Hq2 by done.
  assert (qu_runners (lq l2) !! this = Some r) as Hr2 by (by rewrite Hq2).
  rewrite (bind_ok _ _ _ _ _ (lift_ok _ l2 _ _ (get_runner_ok _ _ _ Hr2))).
  set (c3 := cq_set_eta (onCopyCompleted (u64 (size r)) (etaCalculator c2))
    (lp_cq (lp_set_queue (lq l2) l2))).
  set (l3 := lp_set_cq c3 l2).
  rewrite (bind_ok _ _ _ tt l3) by done.
  assert (lq l3 = q1) as Hq3 by done.
  destruct Hf as [Hs Hd Hne _ Hn].
  assert (qu_qfds q1 !! sourceFd r = Some (qfd_set_fd CLOSED_VAL ds)) as Hs1
    by (cbn; by rewrite lookup_insert_ne, lookup_insert_eq).
  assert (qu_qfds q1 !! destFd r = Some (qfd_set_fd CLOSED_VAL dd)) as Hd1
    by (cbn; by rewrite lookup_insert_eq).
  pose proof (delete_runner_last this r h q1 _ _ Hr Hj Hh Hn Hne Hs1 (or_introl eq_refl)
    Hd1 (or_introl eq_refl)) as Hdel.
  rewrite <- Hq3 in Hdel at 1.
  rewrite (lift_ok (delete_runner this) l3 _ _ Hdel). eexists. split; [done|]. cbn.
  split_and!; try done; [|by rewrite E2|by exists e2].
  rewrite delete_insert_ne, delete_insert_eq by done. by rewrite delete_insert_eq.
Qed.

Definition finished_queue : queue script :=
  set_runners {[100 := r_set_writeOffset 10 (r_set_readOffset 10 sample_runner)]} sample_queue.

Definition sample_loop (q : queue script) : loop script :=
  mk_loop (mk_cqueue q 8 [] 0 eta0 false [] Running Return false 200) 0 [] 0.

Lemma finished_releases_all_witness :
  exists l', on_result 100 FinishedTag (sample_loop finished_queue) = Ok (tt, l') /\
    fileDescriptorsUsed (lq l') = 2 /\ Heap.usedList (qu_heap (lq l')) = [false].
Proof.
  assert (on_files finished_queue (r_set_writeOffset 10 (r_set_readOffset 10 sample_runner))
    (mk_qfd "a" 0 0 3) (mk_qfd "b" 0 0 4) 1) as Hf.
  { split; try reflexivity; [done|by split]. }
  destruct (finished_releases_all 100 (r_set_writeOffset 10 (r_set_readOffset 10 sample_runner))
    _ _ (Heap.mk_heap [false] 8192 1 8192 4096) (sample_loop finished_queue) eq_refl eq_refl Hf
    eq_refl) as (l' & H & _ & _ & _ & Hh & Hu & _).
  exists l'. split; [exact H|]. rewrite Hh, Hu. by split.
Defined.

(** A destination that cannot be created leaks the source of an empty file.  The
    loop closes nothing after the failed open; when it then deletes the runner of an
    empty file whose source is open, the assertion in the destructor of the source's
    descriptor fails, and without assertions the descriptor stays open. *)
Theorem empty_copy_leaks_source {W} {F : Files W} fuel this r ds h e q1 (l : loop W) :
  qu_runners (lq l) !! this = Some r -> jobsRunning r = 0 ->
  qu_chunks (lq l) !! chunksRemaining r = Some 1 ->
  ensureOpened fuel (destFd r) (lq l) = Ok (Some e, q1) ->
  qu_qfds (lq l) !! sourceFd r = Some ds -> isOpen ds = true ->
  returned r (qu_heap (lq l)) h ->
  add_empty fuel this l = Fault AssertFailed.
Proof.
  intros Hr Hj Hn He Hs Ho Hh.
  destruct (ensureOpened_error _ _ _ _ _ He) as (o & u & ->).
  unfold add_empty. rewrite (bind_ok _ _ _ _ _ (lift_ok _ l _ _ (get_runner_ok _ _ _ Hr))).
  set (l0 := lp_set_queue (lq l) l).
  rewrite (bind_ok _ _ _ _ _ (lift_ok (ensureOpened fuel (destFd r)) l0 _ _ He)).
  set (l1 := lp_set_queue _ l0). rewrite (bind_ok _ _ l1 (Some e) l1) by done.
  set (l2 := lp_set_cq (cq_add_error e (lp_cq l1)) l1).
  rewrite (bind_ok _ _ l1 tt l2) by done.
  by apply lift_fault, (delete_runner_open this r h _ ds).
Qed.

(** A runner of no bytes whose destination cannot be created. *)
Definition empty_file_queue : queue script :=
  mk_queue (mk_ost (mk_script [Some 13] 0) 0)
    (mk_ring (sq_fresh 2 0) (mk_cq 0 0 7 8 None 0 []) 0 5 0)
    (Heap.mk_heap [false] 8192 1 8192 4096) 16 3 (mk_counters 1 0 0 0 0)
    {[1 := mk_qfd "a" 0 0 3; 2 := mk_qfd "b" 0 0 (-1)]} {[3 := 1]}
    {[100 := new_runner 1 2 0 0 0 3]}.

Lemma empty_copy_leaks_source_witness :
  add_empty 1 100 (sample_loop empty_file_queue) = Fault AssertFailed.
Proof.
  assert (exists q1, ensureOpened 1 2 empty_file_queue = Ok (Some (CouldntOpen "b" 13), q1))
    as [q1 He] by (eexists; vm_compute; reflexivity).
  exact (empty_copy_leaks_source 1 100 (new_runner 1 2 0 0 0 3) (mk_qfd "a" 0 0 3)
    (qu_heap empty_file_queue) (CouldntOpen "b" 13) q1 (sample_loop empty_file_queue)
    eq_refl eq_refl eq_refl He eq_refl eq_refl eq_refl).
Defined.

(** The state after a completion was handled, seen from the loop. *)
Lemma on_completion_ok {W} {F : Files W} cfg this (l : loop W) r t res ds dd n :
  let r' := completed cfg (q_path ds) (q_path dd) t res r in
  qu_runners (lq l) !! this = Some r -> files_ok (lq l) r ds dd n ->
  0 < jobsRunning r < 2 ^ 31 -> writeOffset r' <= chunk_end r' ->
  savedError r' = savedError r \/ n <> 1 ->
  exists q', handled this (lq l) q' r' (counted cfg t res r (qu_counters (lq l))) /\
    qu_qfds q' = qu_qfds (lq l) /\
    on_completion cfg this t res l = on_result this (verdict r') (lp_set_queue q' l).
Proof.
  intros r' Hr Hf Hj Hw Hn.
  destruct (onCompletion_ok cfg this (lq l) r t res ds dd n Hr Hf Hj Hw) as (q' & H1 & H2 & _ & H4).
  exists q'. split; [done|]. split; [by apply H4|]. unfold on_completion.
  by rewrite (bind_ok _ _ _ _ _ (lift_ok _ l _ _ H1)).
Qed.

Lemma on_files_ok {W} (q : queue W) r ds dd n : on_files q r ds dd n -> files_ok q r ds dd n.
Proof. intros [H1 H2 _ [H3 H4] H5]. by split. Qed.

Lemma on_files_same {W} (q q' : queue W) r r' ds dd n :
  on_files q r ds dd n -> qu_qfds q' = qu_qfds q -> qu_chunks q' = qu_chunks q ->
  sourceFd r' = sourceFd r -> destFd r' = destFd r -> chunksRemaining r' = chunksRemaining r ->
  on_files q' r' ds dd n.
Proof. intros [H1 H2 H3 H4 H5] E1 E2 E3 E4 E5. split; rewrite ?E1, ?E2, ?E3, ?E4, ?E5; done. Qed.

(** A finished chunk that is not the last of its file. *)
Lemma finished_more {W} {F : Files W} this (l : loop W) r ds dd n h :
  qu_runners (lq l) !! this = Some r -> jobsRunning r = 0 -> on_files (lq l) r ds dd n ->
  1 < n -> returned r (qu_heap (lq l)) h ->
  exists c, on_result this FinishedTag l = Ok (tt, lp_set_cq c l) /\
    cq_queue c = set_runners (delete this (qu_runners (lq l))) (released r h n (lq l)).
Proof.
  intros Hr Hj Hf Hn Hh. unfold on_result.
  assert (handleFileClose this (lq l) = Ok (None, lq l)) as Hc.
  { unfold handleFileClose. rewrite (bind_ok _ _ _ _ _ (get_runner_ok _ _ _ Hr)).
    rewrite (bind_ok _ _ _ _ _ (deref_ok qu_chunks _ _ _ (of_chunks _ _ _ _ _ Hf)
      : get_chunks _ _ = _)).
    by case_z; [lia|]. }
  rewrite (bind_ok _ _ _ _ _ (lift_ok _ l _ _ Hc)).
  set (l1 := lp_set_queue (lq l) l). rewrite (bind_ok _ _ l1 tt l1) by done.
  rewrite (bind_ok _ _ _ _ _ (lift_ok _ l1 _ _ (get_runner_ok _ _ _ (Hr : qu_runners (lq l1) !! this = _)))).
  set (c3 := cq_set_eta (onCopyCompleted (u64 (size r)) (etaCalculator (lp_cq l)))
    (lp_cq (lp_set_queue (lq l1) l1))).
  set (l3 := lp_set_cq c3 l1). rewrite (bind_ok _ _ _ tt l3) by done.
  pose proof (delete_runner_more this r n h (lq l3) Hr Hj Hh (of_chunks _ _ _ _ _ Hf) Hn) as Hd.
  rewrite (lift_ok (delete_runner this) l3 _ _ Hd). eexists. split; [done|]. done.
Qed.

Lemma completed_pointers cfg spath dpath t res r :
  let r' := completed cfg spath dpath t res r in
  sourceFd r' = sourceFd r /\ destFd r' = destFd r /\ chunksRemaining r' = chunksRemaining r /\
  buffer r' = buffer r.
Proof.
  unfold completed. cbn [savedError r_set_jobs]. destruct (savedError r); [done|].
  destruct t; repeat case_match; done.
Qed.

(** A read error of a chunk with a request left. *)
Lemma completed_read_error cfg spath dpath e r :
  savedError r = None -> jobsRunning r = 2 -> e < 0 ->
  completed cfg spath dpath EvRead e r = r_set_error (Some (ErrorReading spath (- e)))
    (r_set_overrides (spent cfg (readOverride r)) (writeOverride r) (r_set_jobs 1 r)).
Proof.
  intros He Hj Hneg. unfold completed. rewrite Hj. cbn [savedError r_set_jobs]. rewrite He.
  cbn [readOverride r_set_jobs]. rewrite spoofed_neg by done.
  by destruct (Z.eqb_spec e 0), (Z.ltb_spec e 0); try lia.
Qed.

(** C36: an error in one chunk while another chunk is alive can leak both files.  The
    error closes nothing because two chunks are left; if the other chunk finishes
    before the last request of the failed one completes, it closes nothing either,
    for the same reason; the failed one is then the last, and is deleted with both
    files open: the assertion in the destructor of the source's descriptor fails. *)
Theorem interleaved_error_leaks_files {W} {F : Files W} cfg a b ra rb ds dd ea nb h (l : loop W) :
  a <> b -> qu_runners (lq l) !! a = Some ra -> qu_runners (lq l) !! b = Some rb ->
  sourceFd rb = sourceFd ra -> destFd rb = destFd ra -> chunksRemaining rb = chunksRemaining ra ->
  on_files (lq l) ra ds dd 2 ->
  savedError ra = None -> jobsRunning ra = 2 -> writeOffset ra <= chunk_end ra -> ea < 0 ->
  jobsRunning rb = 1 -> savedError rb = None ->
  (let rb' := completed cfg (q_path ds) (q_path dd) EvWrite nb rb in
   savedError rb' = None /\ writeOffset rb' = chunk_end rb') ->
  returned rb (qu_heap (lq l)) h -> (exists h', returned ra h h') ->
  (do* on_completion cfg a EvRead ea in
   do* on_completion cfg b EvWrite nb in
   on_completion cfg a EvWrite (- ECANCELED)) l = Fault AssertFailed.
Proof.
  intros Hab Ha Hb Es Ed Ec Hf Hea Hja Hwa Hneg Hjb Heb [Heb' Hwb] Hh [h2 Hh2].
  pose proof (completed_read_error cfg (q_path ds) (q_path dd) ea ra Hea Hja Hneg) as E1.
  (* the read of [a] fails *)
  destruct (on_completion_ok cfg a l ra EvRead ea ds dd 2 Ha (on_files_ok _ _ _ _ _ Hf))
    as (q1 & [R1 P1 _ C1 A1] & Q1 & H1); rewrite ?E1; try (by rewrite Hja); try done; [by right|].
  rewrite E1 in H1, A1. set (ra1 := r_set_error _ _) in *. set (l1 := lp_set_queue q1 l) in *.
  rewrite (bind_ok _ _ l tt l1) by exact H1.
  (* the write of [b] finishes it *)
  assert (qu_runners (lq l1) !! b = Some rb) as Hb1
    by (unfold l1; cbn; by rewrite A1, lookup_insert_ne).
  assert (on_files (lq l1) rb ds dd 2) as Hf1 by (by apply (on_files_same (lq l) _ ra)).
  destruct (completed_pointers cfg (q_path ds) (q_path dd) EvWrite nb rb) as (G1 & G2 & G3 & G4).
  destruct (on_completion_ok cfg b l1 rb EvWrite nb ds dd 2 Hb1 (on_files_ok _ _ _ _ _ Hf1))
    as (q2 & [R2 P2 _ C2 A2] & Q2 & H2); [by rewrite Hjb|by rewrite Hwb|by right|].
  pose proof (completed_jobs cfg (q_path ds) (q_path dd) rb EvWrite nb) as Hj.
  rewrite Hjb in Hj. change (s32 (1 - 1)) with 0 in Hj.
  change (qu_runners (lq l1)) with (qu_runners q1) in A2.
  change (qu_qfds (lq l1)) with (qu_qfds q1) in Q2.
  change (qu_chunks (lq l1)) with (qu_chunks q1) in C2.
  set (rb1 := completed _ _ _ _ _ rb) in *. set (l2 := lp_set_queue q2 l1) in *.
  assert (verdict rb1 = FinishedTag) as Hv by (unfold verdict; by rewrite Hj, Heb', Hwb, !Z.eqb_refl).
  rewrite Hv in H2.
  destruct (finished_more b l2 rb1 ds dd 2 h) as (c3 & H3 & Q3); try done.
  { unfold l2. cbn. by rewrite A2, lookup_insert_eq. }
  { by apply (on_files_same (lq l1) _ rb). }
  { unfold returned in *. rewrite G4. change (qu_heap (lq l2)) with (qu_heap q2).
    rewrite P2. change (qu_heap (lq l1)) with (qu_heap q1). by rewrite P1. }
  rewrite (bind_ok _ _ l1 tt (lp_set_cq c3 l2)) by (by rewrite H2). set (l3 := lp_set_cq c3 l2).
  (* the write of [a] is cancelled *)
  assert (lq l3 = set_runners (delete b (qu_runners q2)) (released rb1 h 2 q2)) as E3 by exact Q3.
  assert (qu_runners (lq l3) !! a = Some ra1) as Ha3.
  { rewrite E3. cbn. by rewrite lookup_delete_ne, A2, lookup_insert_ne, A1, lookup_insert_eq. }
  assert (on_files (lq l3) ra1 ds dd 1) as Hf3.
  { destruct Hf as [F1 F2 F3 F4 F5]. rewrite E3. split; cbn; try done.
    - by rewrite Q2, Q1.
    - by rewrite Q2, Q1.
    - by rewrite G3, Ec, lookup_insert_eq. }
  destruct (on_completion_ok cfg a l3 ra1 EvWrite (- ECANCELED) ds dd 1 Ha3
    (on_files_ok _ _ _ _ _ Hf3)) as (q4 & [R4 P4 _ C4 A4] & Q4 & ->); try done; [by left|].
  (* it was the last request of the last chunk *)
  set (ra2 := completed _ _ _ _ _ ra1) in *. change (verdict ra2) with
    (RError (ErrorReading (q_path ds) (- ea))).
  set (l4 := lp_set_queue q4 l3). unfold on_result.
  set (l5 := lp_set_cq (cq_add_error (ErrorReading (q_path ds) (- ea)) (lp_cq l4)) l4).
  rewrite (bind_ok _ _ l4 tt l5) by done.
  apply lift_fault, (delete_runner_open a ra2 h2 _ ds); try done.
  - cbn. rewrite A4. apply lookup_insert_eq.
  - unfold returned in *. change (buffer ra2) with (buffer ra). cbn. by rewrite P4, E3.
  - change (qu_chunks q4 !! chunksRemaining ra1 = Some 1). rewrite C4. apply (of_chunks _ _ _ _ _ Hf3).
  - change (qu_qfds q4 !! sourceFd ra1 = Some ds). rewrite Q4. apply (of_src _ _ _ _ _ Hf3).
  - destruct Hf as [_ _ _ [H2a _] _]. apply Z.ltb_lt. lia.
Qed.

(** Two chunks of one file: the first has two requests outstanding, the second its
    write. *)
Definition chunk_a : CopyRunner :=
  r_set_jobs 2 (r_set_buffer 8192 8192 (new_runner 1 2 0 8192 4096 3)).
Definition chunk_b : CopyRunner :=
  r_set_jobs 1 (r_set_readOffset 9000 (r_set_buffer 16384 16384 (new_runner 1 2 8192 808 4096 3))).

Definition two_chunks : queue script :=
  mk_queue (mk_ost (mk_script [] 0) 0)
    (mk_ring (sq_fresh 2 0) (mk_cq 0 0 7 8 None 0 []) 0 5 0)
    (Heap.mk_heap [true; true] 8192 2 8192 4096) 16 4 (mk_counters 2 3 9000 0 0)
    {[1 := mk_qfd "a" 0 0 3; 2 := mk_qfd "b" 0 0 4]} {[3 := 2]}
    (<[101 := chunk_b]> {[100 := chunk_a]}).

Lemma interleaved_error_leaks_files_witness :
  (do* on_completion no_forcing 100 EvRead (-5) in
   do* on_completion no_forcing 101 EvWrite 808 in
   on_completion no_forcing 100 EvWrite (- ECANCELED)) (sample_loop two_chunks)
  = Fault AssertFailed.
Proof.
  assert (on_files (lq (sample_loop two_chunks)) chunk_a (mk_qfd "a" 0 0 3) (mk_qfd "b" 0 0 4) 2)
    as Hf by (split; try reflexivity; [done|by split]).
  apply (interleaved_error_leaks_files no_forcing 100 101 chunk_a chunk_b _ _ (-5) 808
    (Heap.mk_heap [true; false] 8192 2 8192 4096) (sample_loop two_chunks)) with (7 := Hf);
    try reflexivity; try discriminate.
  - split; reflexivity.
  - by exists (Heap.mk_heap [false; false] 8192 2 8192 4096).
Defined.
