(* ===== verification/Shape.v ===== *)
(** * Who owns what in a copy queue

    The part of a queue's state that says which object belongs to which runner: the
    [shape].  Opening, closing and queueing requests leave it alone or change it in
    one place; these are the lemmas the accounting of the submit thread rests on.
    Each speaks of a run that returned. *)

From stdpp Require Import gmap strings.
From S2P Require Import Prelude Abi Prep RingBuf Ring Kernel Queue Os Util Heap CopyState FileDesc Runner.

(** What a runner holds on to. *)
Record owner : Type := mk_owner {
  ow_src : Z;
  ow_dst : Z;
  ow_tracker : Z;
  ow_buffer : Z;
  ow_jobs : Z;
}.

Definition owner_of (r : CopyRunner) : owner :=
  mk_owner (sourceFd r) (destFd r) (chunksRemaining r) (buffer r) (jobsRunning r).

Definition ow_set_jobs (n : Z) (o : owner) : owner :=
  mk_owner (ow_src o) (ow_dst o) (ow_tracker o) (ow_buffer o) n.
Definition ow_set_buffer (b : Z) (o : owner) : owner :=
  mk_owner (ow_src o) (ow_dst o) (ow_tracker o) b (ow_jobs o).

Record shape : Type := mk_shape {
  sh_heap : Heap.heap;
  sh_alive : Z;
  sh_subs : Z;
  sh_chunks : gmap Z Z;
  sh_owners : gmap Z owner;
  sh_keys : gset Z;
}.

Definition shape_of {W} (q : queue W) : shape :=
  mk_shape (qu_heap q) (keepAliveCount (qu_counters q)) (submissionsRunning (qu_counters q))
    (qu_chunks q) (owner_of <$> qu_runners q) (dom (qu_qfds q)).

Definition sh_set_owners (m : gmap Z owner) (s : shape) : shape :=
  mk_shape (sh_heap s) (sh_alive s) (sh_subs s) (sh_chunks s) m (sh_keys s).
Definition sh_set_subs (n : Z) (s : shape) : shape :=
  mk_shape (sh_heap s) (sh_alive s) n (sh_chunks s) (sh_owners s) (sh_keys s).
Definition sh_set_heap (h : Heap.heap) (s : shape) : shape :=
  mk_shape h (sh_alive s) (sh_subs s) (sh_chunks s) (sh_owners s) (sh_keys s).

(** [keeps m]: the runs of [m] that return leave the shape as it was. *)
Definition keeps {W A} (m : prog (queue W) A) : Prop :=
  forall q a q', m q = Ok (a, q') -> shape_of q' = shape_of q.

Create HintDb keeps.

Section keeps.
Context {W : Type} {F : Files W}.
Implicit Types (q : queue W).

Lemma keeps_ret {A} (a : A) : keeps (W := W) (ret a).
Proof. by intros q a' q' [= _ <-]. Qed.

Lemma keeps_raise {A} f : keeps (W := W) (A := A) (raise f).
Proof. by intros q a' q' [=]. Qed.

Lemma keeps_nofuel {A} : keeps (W := W) (A := A) no_fuel.
Proof. by intros q a' q' [=]. Qed.

Lemma keeps_gets {A} (f : queue W -> A) : keeps (gets f).
Proof. by intros q a' q' [= _ <-]. Qed.

Lemma keeps_assert b : keeps (W := W) (assert b).
Proof. intros q a' q'. unfold assert. by destruct b; [intros [= _ <-]|]. Qed.

Lemma keeps_bind {A B} (m : prog (queue W) A) (k : A -> prog (queue W) B) :
  keeps m -> (forall a, keeps (k a)) -> keeps (bind m k).
Proof.
  intros Hm Hk q b q' H. apply bind_inv in H as (a & q1 & H1 & H2).
  by rewrite (Hk _ _ _ _ H2), (Hm _ _ _ H1).
Qed.

Lemma keeps_deref {A} (f : queue W -> gmap Z A) p : keeps (deref f p).
Proof. intros q a q'. unfold deref. by destruct (f q !! p); [intros [= _ <-]|]. Qed.

Lemma keeps_with_os {A} (c : prog (ost W) A) : keeps (with_os c).
Proof.
  intros q a q'. unfold with_os. destruct (c (qu_os q)) as [[b o]| |]; [|done..].
  by intros [= _ <-].
Qed.

Lemma keeps_modify (f : queue W -> queue W) :
  (forall q, shape_of (f q) = shape_of q) -> keeps (modify f).
Proof. intros Hf q a q' [= _ <-]. apply Hf. Qed.

Lemma deref_inv {A} (f : queue W -> gmap Z A) p q a q' :
  deref f p q = Ok (a, q') -> f q !! p = Some a /\ q' = q.
Proof. unfold deref. destruct (f q !! p); [by intros [= -> ->]|done]. Qed.

(** Storing into a descriptor that is there. *)
Lemma put_qfd_shape p d q d0 :
  qu_qfds q !! p = Some d0 -> shape_of (set_qfds (<[p := d]> (qu_qfds q)) q) = shape_of q.
Proof.
  intros Hp. unfold shape_of. cbn. f_equal. rewrite dom_insert_L.
  apply elem_of_dom_2 in Hp. set_solver.
Qed.

(** Storing a runner with the same holdings. *)
Lemma put_runner_shape this r r0 q :
  qu_runners q !! this = Some r0 -> owner_of r = owner_of r0 ->
  shape_of (set_runners (<[this := r]> (qu_runners q)) q) = shape_of q.
Proof.
  intros Hr E. unfold shape_of. cbn. f_equal. rewrite fmap_insert, E.
  apply insert_id. by rewrite lookup_fmap, Hr.
Qed.

Lemma put_runner_owner this r q :
  shape_of (set_runners (<[this := r]> (qu_runners q)) q) =
    sh_set_owners (<[this := owner_of r]> (sh_owners (shape_of q))) (shape_of q).
Proof. unfold shape_of, sh_set_owners. cbn. by rewrite fmap_insert. Qed.

Lemma shape_owner this r q :
  qu_runners q !! this = Some r -> sh_owners (shape_of q) !! this = Some (owner_of r).
Proof. intros Hr. cbn. by rewrite lookup_fmap, Hr. Qed.

(** Two states of the same shape have the same runners, up to their progress. *)
Lemma same_owner this r q q' :
  shape_of q' = shape_of q -> qu_runners q !! this = Some r ->
  exists r', qu_runners q' !! this = Some r' /\ owner_of r' = owner_of r.
Proof.
  intros E Hr. apply (f_equal sh_owners) in E. cbn in E.
  assert ((owner_of <$> qu_runners q') !! this = Some (owner_of r)) as H
    by (by rewrite E, lookup_fmap, Hr).
  rewrite lookup_fmap in H. destruct (qu_runners q' !! this) as [r'|]; [|done].
  exists r'. split; [done|]. change (Some (owner_of r') = Some (owner_of r)) in H. congruence.
Qed.

Lemma assert_inv {S} b (s s' : S) u : assert b s = Ok (u, s') -> b = true /\ s' = s.
Proof. unfold assert. by destruct b; [intros [= _ <-]|]. Qed.

Lemma owner_runner this o q :
  sh_owners (shape_of q) !! this = Some o ->
  exists r, qu_runners q !! this = Some r /\ o = owner_of r.
Proof. cbn. rewrite lookup_fmap_Some. naive_solver. Qed.
End keeps.

#[export] Hint Resolve keeps_ret keeps_raise keeps_nofuel keeps_gets keeps_assert keeps_bind
  keeps_with_os keeps_deref : keeps.

(** Opening a sequence of binds and tests. *)
Ltac keep :=
  repeat first
    [ progress intros
    | solve [eauto with keeps]
    | apply keeps_bind
    | match goal with |- keeps (if ?b then _ else _) => destruct b end
    | match goal with |- keeps (match ?x with _ => _ end) => destruct x end ].

(** ** Descriptors *)

Section descriptors.
Context {W : Type} {F : Files W}.
Implicit Types (q : queue W).

Lemma keeps_reserve i p : keeps (W := W) (reserveFileDescriptor i p).
Proof. unfold reserveFileDescriptor. keep. by apply keeps_modify. Qed.

Lemma with_os_inv {A} (c : prog (ost W) A) q a q' :
  with_os c q = Ok (a, q') -> exists o, q' = set_os o q.
Proof.
  unfold with_os. destruct (c (qu_os q)) as [[b o]| |]; [|done..]. intros [= _ <-]. eauto.
Qed.

Lemma keeps_doOpen p : keeps (W := W) (doOpen p).
Proof.
  intros q a q' H. unfold doOpen in H. apply bind_inv in H as (d & q1 & Hd & H).
  apply deref_inv in Hd as [Hd ->]. apply bind_inv in H as (r & q2 & Hr & H).
  apply with_os_inv in Hr as [o ->]. destruct r as [e|fd]; injection H as _ <-; [done|].
  exact (put_qfd_shape p (qfd_set_fd fd d) (set_os o q) d Hd).
Qed.
#[local] Hint Resolve keeps_reserve keeps_doOpen : keeps.

Lemma keeps_reserve_loop fuel : keeps (W := W) (reserve_loop fuel).
Proof. induction fuel as [|n IH]; cbn [reserve_loop]; keep. Qed.
#[local] Hint Resolve keeps_reserve_loop : keeps.

Lemma keeps_ensureOpened fuel p : keeps (W := W) (ensureOpened fuel p).
Proof. unfold ensureOpened, get_qfd. keep. Qed.

Lemma keeps_notifyClosed p : keeps (W := W) (notifyClosed p).
Proof.
  intros q a q' H. unfold notifyClosed in H. apply bind_inv in H as (d & q1 & Hd & H).
  apply deref_inv in Hd as [Hd ->]. injection H as _ <-.
  exact (put_qfd_shape p (qfd_set_fd CLOSED_VAL d) q d Hd).
Qed.

Lemma keeps_getFd p : keeps (W := W) (getFd p).
Proof. unfold getFd, get_qfd. keep. Qed.
#[local] Hint Resolve keeps_ensureOpened keeps_notifyClosed keeps_getFd : keeps.

Lemma keeps_close_one p res : keeps (W := W) (close_one p res).
Proof. unfold close_one, get_qfd. keep. Qed.
#[local] Hint Resolve keeps_close_one : keeps.

Lemma keeps_handleFileClose this : keeps (W := W) (handleFileClose this).
Proof. unfold handleFileClose, get_runner, get_chunks. keep. Qed.
#[local] Hint Resolve keeps_handleFileClose : keeps.

Lemma keeps_cleanup this : keeps (W := W) (cleanupOnError this).
Proof. unfold cleanupOnError. keep. Qed.

Lemma keeps_open_both fuel r : keeps (W := W) (open_both fuel r).
Proof. unfold open_both. keep. Qed.

Lemma keeps_needs this : keeps (W := W) (needsFileDescriptors this).
Proof. unfold needsFileDescriptors, get_runner, get_qfd. keep. Qed.

(** Creating a descriptor, and deleting one. *)
Lemma new_qfd_shape i p path oflag mode q a q' :
  new_qfd i p path oflag mode q = Ok (a, q') ->
  shape_of q' = mk_shape (qu_heap q) (keepAliveCount (qu_counters q))
    (submissionsRunning (qu_counters q)) (qu_chunks q) (owner_of <$> qu_runners q)
    ({[p]} ∪ dom (qu_qfds q)).
Proof.
  unfold new_qfd. intros H. apply bind_inv in H as ([] & q1 & Hp & H). injection Hp as <-.
  transitivity (shape_of (set_qfds (<[p := mk_qfd path oflag mode NEVER_OPENED_VAL]> (qu_qfds q)) q)).
  - revert H. generalize (set_qfds (<[p := mk_qfd path oflag mode NEVER_OPENED_VAL]> (qu_qfds q)) q).
    intros q1 H. apply bind_inv in H as (b & q2 & Hr & H).
    rewrite <- (keeps_reserve _ _ _ _ _ Hr). destruct b.
    + apply bind_inv in H as (r & q3 & Ho & H). injection H as _ <-. by apply keeps_doOpen in Ho.
    + by injection H as _ <-.
  - unfold shape_of. cbn. f_equal. by rewrite dom_insert_L.
Qed.

Lemma delete_qfd_inv p q a q' :
  delete_qfd p q = Ok (a, q') -> q' = set_qfds (delete p (qu_qfds q)) q.
Proof.
  unfold delete_qfd. intros H. apply bind_inv in H as (d & q1 & Hd & H).
  apply deref_inv in Hd as [_ ->]. apply bind_inv in H as ([] & q1 & Ha & H).
  unfold assert in Ha. destruct (_ || _); [|done]. injection Ha as <-. by injection H as _ <-.
Qed.

Lemma delete_qfd_closed p q a q' :
  delete_qfd p q = Ok (a, q') -> exists d, qu_qfds q !! p = Some d /\ q_fd d <= 2.
Proof.
  unfold delete_qfd. intros H. apply bind_inv in H as (d & q1 & Hd & H).
  apply deref_inv in Hd as [Hd ->]. apply bind_inv in H as ([] & q1 & Ha & H).
  apply assert_inv in Ha as [Ha _]. exists d. split; [done|]. unfold CLOSED_VAL, NEVER_OPENED_VAL in Ha.
  bools. lia.
Qed.
End descriptors.
#[export] Hint Resolve keeps_ensureOpened keeps_handleFileClose keeps_cleanup keeps_open_both
  keeps_needs keeps_getFd : keeps.

(** ** Requests *)

Section requests.
Context {W : Type} {F : Files W} (cfg : config).
Implicit Types (q : queue W).

Lemma keeps_fill slot f : keeps (W := W) (fill_sqe slot f).
Proof. unfold fill_sqe. keep; by apply keeps_modify. Qed.

Lemma keeps_sqe_loop fuel : keeps (W := W) (sqe_loop fuel).
Proof.
  induction fuel as [|n IH]; cbn [sqe_loop]; [by apply keeps_nofuel|].
  apply keeps_bind; [by eauto with keeps|]. intros ring.
  destruct (io_uring_get_sqe (r_sq ring)) as [slot sq].
  apply keeps_bind; [by apply keeps_modify|]. intros _. destruct slot; keep.
Qed.
#[local] Hint Resolve keeps_fill keeps_sqe_loop : keeps.

(** [k] requests more of one runner. *)
Definition requested (this : Z) (o : owner) (k : Z) (s s' : shape) : Prop :=
  s' = sh_set_subs (u32 (sh_subs s + k))
         (sh_set_owners (<[this := ow_set_jobs (s32 (ow_jobs o + k)) o]> (sh_owners s)) s).

Lemma getSqe_shape fuel this q slot q' r :
  qu_runners q !! this = Some r -> getSqe fuel this q = Ok (slot, q') ->
  requested this (owner_of r) 1 (shape_of q) (shape_of q') /\
  qu_runners q' !! this = Some (r_set_jobs (s32 (jobsRunning r + 1)) r).
Proof.
  intros Hr H. unfold getSqe in H. apply bind_inv in H as (r' & q1 & Hd & H).
  apply deref_inv in Hd as [Hd ->]. rewrite Hr in Hd. injection Hd as <-.
  apply bind_inv in H as ([] & q1 & H1 & H). injection H1 as <-.
  apply bind_inv in H as ([] & q1 & H1 & H). injection H1 as <-.
  assert (forall f q0 a q'', sqe_loop f q0 = Ok (a, q'') -> qu_runners q'' = qu_runners q0) as Hsame.
  { clear. intros f. induction f as [|n IH]; intros q0 a q''; [done|]. cbn [sqe_loop].
    unfold bind at 1, gets. destruct (io_uring_get_sqe (r_sq (qu_ring q0))) as [s sq].
    unfold bind, modify. destruct s; [by intros [= _ <-]|]. intros H. by rewrite (IH _ _ _ H). }
  split.
  - unfold requested. rewrite (keeps_sqe_loop _ _ _ _ H). unfold shape_of. cbn.
    rewrite fmap_insert. reflexivity.
  - rewrite (Hsame _ _ _ _ H). cbn. apply lookup_insert_eq.
Qed.

(** Keeping the holdings of the runner [this], besides the rest of the shape. *)
Lemma keeps_put_overrides this a b r q :
  qu_runners q !! this = Some r ->
  shape_of (set_runners (<[this := r_set_overrides a b r]> (qu_runners q)) q) = shape_of q.
Proof. intros Hr. by apply (put_runner_shape this _ r). Qed.

Lemma submit_read_shape fuel this n forced q a q' r :
  qu_runners q !! this = Some r -> submit_read fuel this n forced q = Ok (a, q') ->
  requested this (owner_of r) 1 (shape_of q) (shape_of q').
Proof.
  intros Hr H. unfold submit_read in H. apply bind_inv in H as (slot & q1 & H1 & H).
  destruct (getSqe_shape _ _ _ _ _ _ Hr H1) as [Hs Hr1].
  unfold requested in *. rewrite <- Hs. clear Hs H1 Hr.
  apply bind_inv in H as (r' & q2 & Hd & H). apply deref_inv in Hd as [Hd ->].
  apply bind_inv in H as (fd & q2 & H2 & H). rewrite <- (keeps_getFd _ _ _ _ H2).
  apply bind_inv in H as ([] & q3 & H3 & H). rewrite <- (keeps_fill _ _ _ _ _ H3).
  apply bind_inv in H as ([] & q4 & H4 & H). rewrite <- (keeps_fill _ _ _ _ _ H4).
  apply bind_inv in H as ([] & q5 & H5 & H). rewrite <- (keeps_fill _ _ _ _ _ H5).
  destruct forced; injection H as _ <-; [|done].
  assert (shape_of q5 = shape_of q1) as E
    by (by rewrite (keeps_fill _ _ _ _ _ H5), (keeps_fill _ _ _ _ _ H4),
        (keeps_fill _ _ _ _ _ H3), (keeps_getFd _ _ _ _ H2)).
  destruct (same_owner this r' q1 q5 E Hd) as (r5 & Hr5 & Eo).
  by apply (put_runner_shape this _ r5 q5 Hr5).
Qed.

Lemma submit_write_shape fuel this rnd forced q a q' r :
  qu_runners q !! this = Some r -> submit_write cfg fuel this rnd forced q = Ok (a, q') ->
  requested this (owner_of r) 1 (shape_of q) (shape_of q').
Proof.
  intros Hr H. unfold submit_write in H. apply bind_inv in H as (slot & q1 & H1 & H).
  destruct (getSqe_shape _ _ _ _ _ _ Hr H1) as [Hs Hr1].
  unfold requested in *. rewrite <- Hs. clear Hs H1 Hr.
  apply bind_inv in H as (r' & q2 & Hd & H). apply deref_inv in Hd as [Hd ->].
  apply bind_inv in H as ([] & q5 & H5 & H). rewrite (keeps_fill _ _ _ _ _ H).
  destruct forced.
  - apply bind_inv in H5 as ([] & q3 & H3 & H5). injection H5 as <-.
    destruct (same_owner this r' q1 q3 (keeps_fill _ _ _ _ _ H3) Hd) as (r3 & Hr3 & Eo).
    rewrite <- (keeps_fill _ _ _ _ _ H3). by apply (put_runner_shape this _ r3 q3 Hr3).
  - apply bind_inv in H5 as (fd & q3 & H3 & H5).
    by rewrite (keeps_fill _ _ _ _ _ H5), (keeps_getFd _ _ _ _ H3).
Qed.

Lemma requested_trans this o s s1 s2 :
  -2 ^ 31 <= ow_jobs o < 2 ^ 31 - 2 -> requested this o 1 s s1 ->
  requested this (ow_set_jobs (s32 (ow_jobs o + 1)) o) 1 s1 s2 -> requested this o 2 s s2.
Proof.
  unfold requested. intros Hj -> ->. unfold sh_set_subs, sh_set_owners, ow_set_jobs. cbn.
  rewrite insert_insert_eq, wrap_add_l, (sext_small 32 (ow_jobs o + 1)) by (unfold in_s; lia).
  by replace (ow_jobs o + 1 + 1) with (ow_jobs o + 2) by lia;
    replace (sh_subs s + 1 + 1) with (sh_subs s + 2) by lia.
Qed.

(** A batch that reports an error queued nothing; one that does not queued one or
    two requests for a runner that had none. *)
Lemma addToBatch_shape fuel this rnd1 rnd2 q res q' :
  addToBatch cfg fuel this rnd1 rnd2 q = Ok (res, q') ->
  exists o, sh_owners (shape_of q) !! this = Some o /\
  match res with
  | Some _ => shape_of q' = shape_of q
  | None => ow_jobs o = 0 /\ exists k, (k = 1 \/ k = 2) /\ requested this o k (shape_of q) (shape_of q')
  end.
Proof.
  intros H. unfold addToBatch in H. apply bind_inv in H as (r & q1 & Hd & H).
  apply deref_inv in Hd as [Hr ->]. exists (owner_of r). split; [by apply shape_owner|].
  apply bind_inv in H as ([] & q1 & Ha & H). rewrite <- (keeps_assert _ _ _ _ Ha).
  apply assert_inv in Ha as [_ ->].
  apply bind_inv in H as ([] & q1 & Ha & H). apply assert_inv in Ha as [_ ->].
  apply bind_inv in H as ([] & q1 & Ha & H). apply assert_inv in Ha as [Hw ->].
  unfold submitReadWriteCommands in H. apply bind_inv in H as (r' & q1 & Hd & H).
  apply deref_inv in Hd as [Hr' ->]. rewrite Hr in Hr'. injection Hr' as <-.
  apply bind_inv in H as (e & q1 & Ho & H). pose proof (keeps_open_both _ _ _ _ _ Ho) as E1.
  destruct e as [e|].
  { apply bind_inv in H as ([] & q2 & H2 & H). apply bind_inv in H as ([] & q3 & H3 & H).
    injection H as <- <-. rewrite (keeps_cleanup _ _ _ _ H3). injection H2 as <-. exact E1. }
  apply bind_inv in H as ([] & q2 & Ha & H). apply assert_inv in Ha as [Hj ->].
  apply bind_inv in H as ([] & q2 & Ha & H). apply assert_inv in Ha as [_ ->].
  rewrite <- E1. destruct (same_owner this r q q1 E1 Hr) as (r1 & Hr1 & Eo).
  apply Z.ltb_lt in Hw. apply Z.eqb_eq in Hj.
  apply bind_inv in H as ([] & q2 & H2 & H). apply bind_inv in H as ([] & q3 & H3 & H).
  injection H as <- <-. split; [done|]. rewrite <- Eo. destruct (Z.ltb_spec (writeOffset r) (offset r + size r)); [|lia].
  assert (ow_jobs (owner_of r1) = 0) as Hj1 by (by rewrite Eo).
  destruct (negb (bytes_to_read cfg rnd1 r =? 0)).
  - exists 2. split; [by right|]. pose proof (submit_read_shape _ _ _ _ _ _ _ _ Hr1 H2) as S1.
    assert (sh_owners (shape_of q2) !! this = Some (ow_set_jobs (s32 (ow_jobs (owner_of r1) + 1)) (owner_of r1)))
      as H2o by (rewrite S1; cbn; apply lookup_insert_eq).
    apply owner_runner in H2o as (r2 & Hr2 & Eo2).
    apply (requested_trans _ _ _ (shape_of q2)); [lia|done|]. rewrite Eo2.
    by eapply submit_write_shape.
  - injection H2 as <-. exists 1. split; [by left|]. by eapply submit_write_shape.
Qed.
End requests.

(** ** Completions, buffers, creation and deletion *)

Section events.
Context {W : Type} {F : Files W} (cfg : config).
Implicit Types (q : queue W).

(** Storing a runner that holds what the one there holds. *)
Lemma put_runner_keeps this r0 r q a q' :
  put_runner this r q = Ok (a, q') -> qu_runners q !! this = Some r0 ->
  owner_of r = owner_of r0 -> shape_of q' = shape_of q.
Proof. intros [= _ <-] Hr E. by apply (put_runner_shape this r r0). Qed.

Lemma keeps_saveError this e : keeps (W := W) (saveError this e).
Proof.
  intros q a q' H. unfold saveError in H. apply bind_inv in H as (r & q1 & Hd & H).
  apply deref_inv in Hd as [Hr ->]. destruct (savedError r); [by injection H as _ <-|].
  apply bind_inv in H as ([] & q1 & Hp & H). rewrite (keeps_cleanup _ _ _ _ H).
  by apply (put_runner_keeps this r _ _ _ _ Hp).
Qed.
#[local] Hint Resolve keeps_saveError : keeps.

Lemma keeps_counters f :
  (forall c, keepAliveCount (f c) = keepAliveCount c /\ submissionsRunning (f c) = submissionsRunning c) ->
  keeps (W := W) (on_counters f).
Proof.
  intros Hf. apply keeps_modify. intros q. unfold shape_of. cbn.
  by destruct (Hf (qu_counters q)) as [-> ->].
Qed.

Lemma keeps_on_read this n : keeps (W := W) (on_read this n).
Proof.
  unfold on_read, get_qfd. apply keeps_bind; [by apply keeps_deref|]. intros r.
  apply keeps_bind; [by apply keeps_deref|]. intros s.
  apply keeps_bind; [by destruct (n =? 0); eauto with keeps|]. intros _.
  destruct (n <? 0); [by eauto with keeps|].
  intros q a q' H. apply bind_inv in H as (r1 & q1 & Hd & H).
  apply deref_inv in Hd as [Hr ->]. by apply (put_runner_keeps this r1 _ _ _ _ H).
Qed.

Lemma keeps_on_write this n : keeps (W := W) (on_write this n).
Proof.
  intros q a q' H. unfold on_write in H. apply bind_inv in H as (r & q1 & Hd & H).
  apply deref_inv in Hd as [Hr ->]. destruct (n <? 0).
  - destruct (negb _); [|by injection H as _ <-].
    apply bind_inv in H as (d & q1 & Hd & H). apply deref_inv in Hd as [_ ->].
    by apply keeps_saveError in H.
  - apply bind_inv in H as ([] & q1 & Hp & H).
    rewrite (keeps_counters (add_copied n) ltac:(done) _ _ _ H).
    by apply (put_runner_keeps this r _ _ _ _ Hp).
Qed.

(** A completion takes one request off its runner, which goes on exactly when it
    has another one. *)
Lemma onCompletion_shape this t n q v q' :
  onCompletionEvent cfg this t n q = Ok (v, q') ->
  exists o, sh_owners (shape_of q) !! this = Some o /\
    let j := s32 (ow_jobs o - 1) in
    0 <= j /\ shape_of q' =
      sh_set_owners (<[this := ow_set_jobs j o]> (sh_owners (shape_of q))) (shape_of q) /\
    (v = ContinueTag <-> j <> 0).
Proof.
  intros H. unfold onCompletionEvent in H. apply bind_inv in H as (r & q1 & Hd & H).
  apply deref_inv in Hd as [Hr ->]. exists (owner_of r). split; [by apply shape_owner|].
  cbv zeta. set (j := s32 (jobsRunning r - 1)) in *. change (s32 (ow_jobs _ - 1)) with j.
  apply bind_inv in H as ([] & q1 & Hp & H). injection Hp as <-.
  set (q1 := set_runners _ q) in *.
  assert (shape_of q1 = sh_set_owners (<[this := ow_set_jobs j (owner_of r)]>
    (sh_owners (shape_of q))) (shape_of q)) as E1 by apply put_runner_owner.
  apply bind_inv in H as ([] & q2 & Ha & H). apply assert_inv in Ha as [Hj ->].
  apply bind_inv in H as ([] & q2 & H2 & H).
  assert (shape_of q2 = shape_of q1) as E2.
  { assert (qu_runners q1 !! this = Some (r_set_jobs j r)) as Hr1 by apply lookup_insert_eq.
    destruct (savedError r); [by injection H2 as <-|].
    destruct t; apply bind_inv in H2 as ([] & q3 & Hp & H2).
    - rewrite (keeps_on_read _ _ _ _ _ H2). by apply (put_runner_keeps this _ _ _ _ _ Hp Hr1).
    - rewrite (keeps_on_write _ _ _ _ _ H2). by apply (put_runner_keeps this _ _ _ _ _ Hp Hr1). }
  apply bind_inv in H as (r2 & q3 & Hd & H). apply deref_inv in Hd as [Hr2 ->].
  apply bind_inv in H as ([] & q3 & Ha & H). apply assert_inv in Ha as [_ ->].
  apply Z.leb_le in Hj. split; [done|]. rewrite <- E1, <- E2.
  assert (jobsRunning r2 = j) as Ej.
  { apply shape_owner in Hr2. rewrite E2, E1 in Hr2. cbn in Hr2.
    rewrite lookup_insert_eq in Hr2. apply (f_equal (fmap ow_jobs)) in Hr2. cbn in Hr2. congruence. }
  rewrite Ej in H. destruct (Z.eqb_spec j 0) as [E|E].
  - destruct (savedError r2); [injection H as <- <-|]; [by split|].
    by destruct (_ =? _); injection H as <- <-.
  - injection H as <- <-. by split.
Qed.

(** The loop gives its buffer to a runner that has none. *)
Lemma giveBuffer_shape this b q a q' :
  giveBuffer this b q = Ok (a, q') ->
  exists o, sh_owners (shape_of q) !! this = Some o /\ ow_buffer o = 0 /\
    shape_of q' =
      sh_set_owners (<[this := ow_set_buffer b o]> (sh_owners (shape_of q))) (shape_of q).
Proof.
  intros H. unfold giveBuffer in H. apply bind_inv in H as (r & q1 & Hd & H).
  apply deref_inv in Hd as [Hr ->]. exists (owner_of r). split; [by apply shape_owner|].
  apply bind_inv in H as ([] & q1 & Ha & H). apply assert_inv in Ha as [_ ->].
  apply bind_inv in H as ([] & q1 & Ha & H). apply assert_inv in Ha as [Hb ->].
  apply Z.eqb_eq in Hb. split; [done|].
  apply bind_inv in H as ([] & q1 & Hp & H). injection Hp as <-.
  apply bind_inv in H as (h & q2 & Hh & H). injection Hh as <- <-.
  apply bind_inv in H as ([] & q2 & Ha & H). apply assert_inv in Ha as [_ ->].
  apply assert_inv in H as [_ ->]. apply put_runner_owner.
Qed.

Lemma create_runner_shape this src dst off sz al tr q a q' :
  create_runner this src dst off sz al tr q = Ok (a, q') ->
  shape_of q' = mk_shape (qu_heap q) (u32 (keepAliveCount (qu_counters q) + 1))
    (submissionsRunning (qu_counters q)) (qu_chunks q)
    (<[this := mk_owner src dst tr 0 0]> (owner_of <$> qu_runners q)) (dom (qu_qfds q)).
Proof. intros [= _ <-]. unfold shape_of. cbn. by rewrite fmap_insert. Qed.

(** The heap after a buffer was given back, if there was one. *)
Definition gave_back (b : Z) (h h' : Heap.heap) : Prop :=
  if b =? 0 then h' = h else Heap.returnBlock b h = Ok (tt, h').

(** The shape after the runner [this], holding [o], was deleted. *)
Definition deleted (this : Z) (o : owner) (n : Z) (h : Heap.heap) (s : shape) : shape :=
  mk_shape h (u32 (sh_alive s - 1)) (sh_subs s)
    (if n =? 1 then delete (ow_tracker o) (sh_chunks s)
     else <[ow_tracker o := n - 1]> (sh_chunks s))
    (delete this (sh_owners s))
    (if n =? 1 then sh_keys s ∖ {[ow_src o]} ∖ {[ow_dst o]} else sh_keys s).

Lemma delete_runner_shape this q a q' :
  delete_runner this q = Ok (a, q') ->
  exists o n h, sh_owners (shape_of q) !! this = Some o /\ ow_jobs o = 0 /\
    gave_back (ow_buffer o) (qu_heap q) h /\ qu_chunks q !! ow_tracker o = Some n /\ 1 <= n /\
    shape_of q' = deleted this o n h (shape_of q).
Proof.
  intros H. unfold delete_runner in H. apply bind_inv in H as (r & q1 & Hd & H).
  apply deref_inv in Hd as [Hr ->]. exists (owner_of r).
  apply bind_inv in H as ([] & q1 & Ha & H). apply assert_inv in Ha as [Hj ->].
  apply Z.eqb_eq in Hj. apply bind_inv in H as ([] & q1 & Hh & H).
  assert (exists h, q1 = set_heap h q /\ gave_back (buffer r) (qu_heap q) h) as (h & -> & Hb).
  { unfold gave_back. destruct (buffer r =? 0); cbn [negb] in Hh.
    - injection Hh as <-. exists (qu_heap q). by destruct q.
    - apply bind_inv in Hh as (h & q2 & Hg & Hh). injection Hg as <- <-.
      destruct (Heap.returnBlock _ _) as [[[] h]| |]; [|done..]. injection Hh as <-. by exists h. }
  apply bind_inv in H as ([] & q1 & Hc & H). injection Hc as <-.
  apply bind_inv in H as (n & q1 & Hn & H). apply deref_inv in Hn as [Hn ->].
  apply bind_inv in H as ([] & q1 & Ha & H). apply assert_inv in Ha as [Hn1 ->].
  apply Z.leb_le in Hn1. apply bind_inv in H as ([] & q1 & Hc & H). injection Hc as <-.
  exists n, h. split_and!; [by apply shape_owner|done..|].
  apply bind_inv in H as ([] & q1 & Hl & H). injection H as _ <-.
  unfold shape_of, deleted. cbn. destruct (Z.eqb_spec (n - 1) 0) as [E|E].
  - apply bind_inv in Hl as ([] & q2 & H2 & Hl). apply delete_qfd_inv in H2 as ->.
    apply bind_inv in Hl as ([] & q2 & H2 & Hl). apply delete_qfd_inv in H2 as ->.
    injection Hl as <-. destruct (Z.eqb_spec n 1); [|lia]. cbn.
    rewrite fmap_delete, !dom_delete_L. f_equal.
    by rewrite delete_insert_eq.
  - injection Hl as <-. destruct (Z.eqb_spec n 1); [lia|]. cbn. by rewrite fmap_delete.
Qed.
End events.
