(* ===== verification/Accounts.v ===== *)
(** * The books of the copy queue

    Every runner alive is idle, in one of the two pending queues, or has requests
    outstanding; the counters of the queue, the chunk trackers, the descriptors and
    the blocks of the heap are in step with the runners.  [accounted] says so of a
    shape; here every change of the shape keeps it. *)

From stdpp Require Import gmap strings.
From S2P Require Import Prelude Heap CopyState Shape.

(** ** Sums over the runners *)

Definition total {A} (f : A -> Z) (m : gmap Z A) : Z :=
  map_fold (fun _ o acc => f o + acc) 0 m.

Definition alive : gmap Z owner -> Z := total (fun _ => 1).
Definition jobs : gmap Z owner -> Z := total ow_jobs.
Definition sharing (t : Z) : gmap Z owner -> Z :=
  total (fun o => if ow_tracker o =? t then 1 else 0).

Section total.
Context {A : Type} (f : A -> Z).
Implicit Types (m : gmap Z A).

Lemma total_insert m a o :
  m !! a = None -> total f (<[a := o]> m) = f o + total f m.
Proof. intros Ha. unfold total. by rewrite map_fold_insert_L by (intros; lia || done). Qed.

Lemma total_delete m a o : m !! a = Some o -> total f m = f o + total f (delete a m).
Proof. intros Ha. unfold total. by rewrite (map_fold_delete_L _ 0 a o m) by (intros; lia || done). Qed.

Lemma total_update m a o o' :
  m !! a = Some o -> total f (<[a := o']> m) = f o' - f o + total f m.
Proof.
  intros Ha. rewrite (total_delete m a o Ha), <- insert_delete_eq, total_insert; [lia|].
  apply lookup_delete_eq.
Qed.

Lemma total_nonneg m : (forall a o, m !! a = Some o -> 0 <= f o) -> 0 <= total f m.
Proof.
  induction m as [|a o m Ha IH] using map_ind; intros Hf; [done|].
  rewrite total_insert by done. pose proof (Hf a o (lookup_insert_eq _ _ _)).
  enough (0 <= total f m) by lia. apply IH. intros b ob Hb. apply (Hf b).
  rewrite lookup_insert_ne; [done|congruence].
Qed.

Lemma total_zero : total f ∅ = 0.
Proof. done. Qed.
End total.

Lemma sharing_pos t m a o : m !! a = Some o -> ow_tracker o = t -> 0 < sharing t m.
Proof.
  intros Ha Ht. unfold sharing. rewrite (total_delete _ _ _ _ Ha), Ht, Z.eqb_refl.
  enough (0 <= total (fun o => if ow_tracker o =? t then 1 else 0) (delete a m)) by lia.
  apply total_nonneg. intros. by case_z.
Qed.

Lemma alive_zero m : alive m = 0 -> m = ∅.
Proof.
  intros H. apply map_empty. intros a. destruct (m !! a) as [o|] eqn:Ha; [|done].
  unfold alive in H. rewrite (total_delete _ _ _ _ Ha) in H.
  enough (0 <= total (fun _ => 1) (delete a m)) by lia. by apply total_nonneg.
Qed.

(** ** The invariant *)

(** What the main thread is in the middle of: nothing, having created descriptors,
    or cutting a file into parts, with the parts still to be added. *)
Inductive stage : Type :=
  | NotAdding
  | Opening (fds : list Z)
  | Cutting (src dst tracker parts : Z).

Definition to_come (t : Z) (g : stage) : Z :=
  match g with Cutting _ _ t' k => if t' =? t then k else 0 | _ => 0 end.
Definition opening (g : stage) : list Z := match g with Opening l => l | _ => [] end.

(** The runners and the counters.  [d]: completions handled whose entries are still
    to be given back. *)
Record work_ok (d : Z) (s : shape) (idle : list Z) : Prop := {
  wk_alive : sh_alive s = u32 (alive (sh_owners s));
  wk_few : alive (sh_owners s) < 2 ^ 32;
  wk_subs : sh_subs s = u32 (jobs (sh_owners s) + d);
  wk_jobs : forall a o, sh_owners s !! a = Some o -> 0 <= ow_jobs o <= 2;
  wk_nodup : NoDup idle;
  wk_idle : forall a, a ∈ idle <-> exists o, sh_owners s !! a = Some o /\ ow_jobs o = 0;
}.

(** The trackers and the descriptors; [files]: the two descriptors of each tracker. *)
Record files_of_ok (files : gmap Z (Z * Z)) (s : shape) (g : stage) : Prop := {
  fl_chunks : forall t n, sh_chunks s !! t = Some n ->
    0 < n /\ n = sharing t (sh_owners s) + to_come t g;
  fl_dom : dom files = dom (sh_chunks s);
  fl_owner : forall a o, sh_owners s !! a = Some o ->
    files !! ow_tracker o = Some (ow_src o, ow_dst o);
  fl_cut : forall src dst t k, g = Cutting src dst t k -> 0 < k /\ files !! t = Some (src, dst);
  fl_apart : forall t t' x y x' y', t <> t' ->
    files !! t = Some (x, y) -> files !! t' = Some (x', y') ->
    x <> x' /\ x <> y' /\ y <> x' /\ y <> y';
  fl_open : forall t x y, files !! t = Some (x, y) -> (x ∉ opening g) /\ (y ∉ opening g);
  fl_keys : forall p, p ∈ sh_keys s <->
    p ∈ opening g \/ exists t x y, files !! t = Some (x, y) /\ (p = x \/ p = y);
}.

(** The blocks of the heap that are out: one per runner at most, and the buffer the
    loop has at hand. *)
Record blocks_ok (h : Heap.heap) (owners : gmap Z owner) (nb : Z) : Prop := {
  bl_heap : Heap.heap_ok h;
  bl_base : 0 < Heap.data h;
  bl_used : forall i, 0 <= i < Heap.blocks h ->
    (Heap.used_at h i <-> nb = Heap.block_at h i \/
       exists a o, owners !! a = Some o /\ ow_buffer o = Heap.block_at h i);
  bl_inj : forall a b oa ob, owners !! a = Some oa -> owners !! b = Some ob ->
    ow_buffer oa = ow_buffer ob -> ow_buffer oa <> 0 -> a = b;
  bl_next : forall a o, owners !! a = Some o -> ow_buffer o = nb -> nb = 0;
}.

(** Addresses from [next] on were never used. *)
Record fresh_ok (next : Z) (s : shape) : Prop := {
  fr_pos : 0 < next;
  fr_owners : forall a, next <= a -> sh_owners s !! a = None;
  fr_chunks : forall t, next <= t -> sh_chunks s !! t = None;
  fr_keys : forall p, next <= p -> p ∉ sh_keys s;
  fr_low : forall a, a <= 0 -> sh_owners s !! a = None;
}.

Definition accounted (d : Z) (s : shape) (nb : Z) (idle : list Z) (next : Z) (g : stage) : Prop :=
  work_ok d s idle /\ (exists files, files_of_ok files s g) /\
  blocks_ok (sh_heap s) (sh_owners s) nb /\ fresh_ok next s.

(** The order of the idle runners does not matter. *)
Lemma accounted_perm d s nb idle idle' next g :
  idle ≡ₚ idle' -> accounted d s nb idle next g -> accounted d s nb idle' next g.
Proof.
  intros Hp ([] & H). split; [|done]. split; try done; [by rewrite <- Hp|].
  intros a. by rewrite <- Hp.
Qed.

#[export] Instance accounted_proper d s nb :
  Proper ((≡ₚ) ==> eq ==> eq ==> iff) (accounted d s nb).
Proof.
  intros l1 l2 Hl n ? <- g ? <-. split; apply accounted_perm; [done|by symmetry].
Qed.

(** ** The heap *)

Lemma blocks_get h owners h' b :
  blocks_ok h owners 0 -> Heap.getBlock h = (Some b, h') -> blocks_ok h' owners b /\ b <> 0.
Proof.
  intros [Hh Hb Hu Hi Hn] Hg. pose proof (Heap.getBlock_spec h Hh) as Hs. rewrite Hg in Hs.
  destruct Hs as (k & -> & Hz & -> & _). pose proof (zget_range _ _ _ Hz) as Hr.
  pose proof (Heap.ho_size h Hh). pose proof (Heap.ho_len h Hh) as Hl.
  assert (Heap.block_at h k <> 0) as Hk0 by (unfold Heap.block_at; nia).
  assert (forall a o, owners !! a = Some o -> ow_buffer o <> Heap.block_at h k) as Hfree.
  { intros a o Ho E. assert (Heap.used_at h k) as Hk by (apply Hu; [lia|right; eauto]).
    unfold Heap.used_at in Hk. congruence. }
  split; [|done]. split; cbn; try done.
  - apply Heap.set_used_ok; [done|]. by rewrite zlen_insert.
  - intros i Hir. rewrite Heap.used_at_insert by done.
    change (Heap.block_at (Heap.set_used _ h)) with (Heap.block_at h). case_decide as E.
    + subst i. split; [by left|done].
    + rewrite Hu by done. split; [intros [?|?]|intros [?|?]]; try by right.
      * exfalso. unfold Heap.block_at in *. nia.
      * exfalso. apply E. symmetry. by eapply Heap.block_at_inj.
  - intros a o Ho E. exfalso. by eapply Hfree.
Qed.

(** Giving a block back clears its flag. *)
Lemma returnBlock_inv h b h' :
  Heap.heap_ok h -> Heap.returnBlock b h = Ok (tt, h') ->
  exists k, 0 <= k < Heap.blocks h /\ b = Heap.block_at h k /\ Heap.used_at h k /\
    h' = Heap.set_used (<[Z.to_nat k := false]> (Heap.usedList h)) h.
Proof.
  intros Hh H. unfold Heap.returnBlock in H. unfold bind, get, assert in H.
  destruct (_ && _) eqn:H1; [|done]. destruct (_ mod _ =? 0) eqn:H2; [|done].
  destruct (_ && _) eqn:H3 in H; [|done]. bools. pose proof (Heap.ho_size h Hh).
  set (k := (b - Heap.data h) / Heap.blockSize h) in *.
  assert (b = Heap.block_at h k) as Eb.
  { unfold Heap.block_at, k. pose proof (Z.div_mod (b - Heap.data h) (Heap.blockSize h)). lia. }
  destruct (zget (Heap.usedList h) k) as [[]|] eqn:Hz; [|done..].
  pose proof (zget_range _ _ _ Hz) as Hr. rewrite (zset_in _ _ _ Hr) in H.
  injection H as <-. exists k. rewrite (Heap.ho_len h Hh) in Hr. done.
Qed.

(** A block that no runner and not the loop has at hand any more. *)
Lemma blocks_return h owners nb owners' nb' b h' :
  blocks_ok h owners nb -> Heap.returnBlock b h = Ok (tt, h') ->
  (nb' = nb \/ nb' = 0) -> (forall a o, owners' !! a = Some o -> owners !! a = Some o) ->
  (forall i, 0 <= i < Heap.blocks h -> Heap.block_at h i <> b ->
     (nb = Heap.block_at h i <-> nb' = Heap.block_at h i) /\
     ((exists a o, owners !! a = Some o /\ ow_buffer o = Heap.block_at h i) <->
      (exists a o, owners' !! a = Some o /\ ow_buffer o = Heap.block_at h i))) ->
  nb' <> b -> (forall a o, owners' !! a = Some o -> ow_buffer o <> b) ->
  blocks_ok h' owners' nb'.
Proof.
  intros [Hh Hb Hu Hi Hn] Hr Hnb Hsub Hsame Hnb' Hob.
  destruct (returnBlock_inv h b h' Hh Hr) as (k & Hk & -> & Huk & ->).
  pose proof (Heap.ho_size h Hh). pose proof (Heap.ho_len h Hh) as Hl.
  split; cbn; try done.
  - apply Heap.set_used_ok; [done|]. by rewrite zlen_insert.
  - intros i Hir. rewrite Heap.used_at_insert by lia.
    change (Heap.block_at (Heap.set_used _ h)) with (Heap.block_at h). case_decide as E.
    + subst i. split; [done|]. intros [?|(a & o & Ho & E)]; [done|]. by destruct (Hob a o Ho).
    + assert (Heap.block_at h i <> Heap.block_at h k) as Hne
        by (intros E'; by apply Heap.block_at_inj in E').
      destruct (Hsame i Hir Hne) as [Hs1 Hs2]. by rewrite Hu, Hs1, Hs2 by done.
  - intros a1 a2 o1 o2 H1 H2. by apply Hi; apply Hsub.
  - intros a o Ho E. destruct Hnb as [->| ->]; [by eapply Hn; [apply Hsub|]|done].
Qed.

(** The runner [this] takes the buffer at hand. *)
Lemma blocks_give h owners nb this o :
  blocks_ok h owners nb -> owners !! this = Some o -> ow_buffer o = 0 ->
  blocks_ok h (<[this := ow_set_buffer nb o]> owners) 0.
Proof.
  intros [Hh Hb Hu Hi Hn] Ho Hob. pose proof (Heap.ho_size h Hh). split; try done.
  - intros i Hir. rewrite Hu by done. assert (Heap.block_at h i <> 0) by (unfold Heap.block_at; nia).
    split.
    + intros [E|(a & oa & Ha & E)]; right.
      * exists this, (ow_set_buffer nb o). by rewrite lookup_insert_eq.
      * exists a, oa. split; [|done]. rewrite lookup_insert_ne; [done|]. intros ->. congruence.
    + intros [?|(a & oa & Ha & E)]; [done|]. apply lookup_insert_Some in Ha as [[<- <-]|[Hne Ha]].
      * by left.
      * right. eauto.
  - intros a b oa ob Ha Hb'. apply lookup_insert_Some in Ha as [[<- <-]|[Hna Ha]],
      Hb' as [[<- <-]|[Hnb Hb']]; cbn; [done|..].
    + intros E Hz. by destruct Hz, (Hn _ _ Hb' (eq_sym E)).
    + intros E Hz. destruct Hz. rewrite E. by apply (Hn _ _ Ha).
    + by apply Hi.
Qed.

(** Changing a runner's requests. *)
Lemma blocks_jobs h owners nb this o j :
  blocks_ok h owners nb -> owners !! this = Some o ->
  blocks_ok h (<[this := ow_set_jobs j o]> owners) nb.
Proof.
  intros [Hh Hb Hu Hi Hn] Ho.
  assert (forall a oa, <[this := ow_set_jobs j o]> owners !! a = Some oa ->
    exists oa', owners !! a = Some oa' /\ ow_buffer oa' = ow_buffer oa) as Hl.
  { intros a oa Ha. apply lookup_insert_Some in Ha as [[<- <-]|[Hne Ha]]; eauto. }
  split; try done.
  - intros i Hir. rewrite Hu by done. split; (intros [?|(a & oa & Ha & E)]; [by left|right]).
    + destruct (decide (this = a)) as [<-|Hne].
      * exists this, (ow_set_jobs j o). rewrite lookup_insert_eq. split; [done|].
        cbn. congruence.
      * exists a, oa. by rewrite lookup_insert_ne.
    + destruct (Hl a oa Ha) as (oa' & Ha' & Eb). exists a, oa'. split; [done|]. congruence.
  - intros a b oa ob Ha Hb' E Hz. destruct (Hl a oa Ha) as (oa' & Ha' & Ea),
      (Hl b ob Hb') as (ob' & Hb'' & Eb). apply (Hi a b oa' ob'); congruence.
  - intros a oa Ha E. destruct (Hl a oa Ha) as (oa' & Ha' & Ea). apply (Hn a oa'); congruence.
Qed.

(** ** Requests and completions *)

Section changes.
Context (s : shape).
Implicit Types (o : owner).

(** Changing the requests of one runner. *)
Definition with_jobs (this : Z) (o : owner) (j : Z) : shape :=
  sh_set_owners (<[this := ow_set_jobs j o]> (sh_owners s)) s.

Lemma jobs_with this o j :
  sh_owners s !! this = Some o ->
  alive (sh_owners (with_jobs this o j)) = alive (sh_owners s) /\
  jobs (sh_owners (with_jobs this o j)) = jobs (sh_owners s) + (j - ow_jobs o) /\
  forall t, sharing t (sh_owners (with_jobs this o j)) = sharing t (sh_owners s).
Proof.
  intros Ho. unfold alive, jobs, sharing. cbn.
  split_and!; [|  |intros t]; rewrite (total_update _ _ _ _ _ Ho); cbn; lia.
Qed.

Lemma files_jobs files g this o j :
  files_of_ok files s g -> sh_owners s !! this = Some o -> files_of_ok files (with_jobs this o j) g.
Proof.
  intros [H1 H2 H3 H4 H5 H6 H7] Ho. split; try done.
  - intros t n Ht. destruct (H1 t n Ht) as [Hn ->]. split; [done|].
    by destruct (jobs_with this o j Ho) as (_ & _ & ->).
  - intros a oa Ha. cbn in Ha. apply lookup_insert_Some in Ha as [[<- <-]|[Hne Ha]]; cbn; eauto.
Qed.

Lemma fresh_jobs next this o j :
  fresh_ok next s -> sh_owners s !! this = Some o -> fresh_ok next (with_jobs this o j).
Proof.
  intros [H1 H2 H3 H4 H5] Ho. split; try done; intros a Ha; cbn.
  - rewrite lookup_insert_ne; [by apply H2|]. intros ->. specialize (H2 a Ha). congruence.
  - rewrite lookup_insert_ne; [by apply H5|]. intros ->. specialize (H5 a Ha). congruence.
Qed.

(** One of the idle runners is given requests. *)
Lemma work_request d idle this o k :
  work_ok d s (this :: idle) -> sh_owners s !! this = Some o -> ow_jobs o = 0 -> 0 < k <= 2 ->
  work_ok d (sh_set_subs (u32 (sh_subs s + k)) (with_jobs this o k)) idle.
Proof.
  intros [H1 H2 H3 H4 H5 H6] Ho Hj Hk. destruct (jobs_with this o k Ho) as (Ea & Ej & _).
  apply list.NoDup_cons in H5 as [Hni H5]. split; cbn [sh_alive sh_subs sh_owners sh_set_subs];
    try rewrite Ea; try done.
  - cbn. rewrite H3, wrap_add_l. cbn in Ej. f_equal. lia.
  - intros a oa Ha. cbn in Ha. apply lookup_insert_Some in Ha as [[<- <-]|[Hne Ha]]; [cbn; lia|eauto].
  - intros a. cbn. split.
    + intros Ha. destruct (proj1 (H6 a)) as (oa & Hoa & Hja); [by right|]. exists oa.
      rewrite lookup_insert_ne; [done|]. by intros ->.
    + intros (oa & Ha & Hja). apply lookup_insert_Some in Ha as [[<- <-]|[Hne Ha]]; [cbn in Hja; lia|].
      assert (a ∈ this :: idle) as Hin by (apply H6; eauto). set_solver.
Qed.

(** A completion takes a request off. *)
Lemma work_complete d idle this o :
  work_ok d s idle -> sh_owners s !! this = Some o -> 0 < ow_jobs o ->
  work_ok (d + 1) (with_jobs this o (ow_jobs o - 1))
    (if ow_jobs o - 1 =? 0 then this :: idle else idle).
Proof.
  intros [H1 H2 H3 H4 H5 H6] Ho Hj. destruct (jobs_with this o (ow_jobs o - 1) Ho) as (Ea & Ej & _).
  assert (this ∉ idle) as Hni.
  { intros Hin. apply H6 in Hin as (o' & Ho' & Hj'). assert (o' = o) as -> by congruence. lia. }
  pose proof (H4 _ _ Ho). split; try rewrite Ea; try done.
  - cbn [sh_subs with_jobs sh_set_owners]. rewrite H3, Ej. f_equal. lia.
  - intros a oa Ha. cbn in Ha. apply lookup_insert_Some in Ha as [[<- <-]|[Hne Ha]]; [cbn; lia|eauto].
  - case_z; [by constructor|done].
  - intros a. cbn. assert (a <> this -> (a ∈ idle <-> exists oa,
      <[this := ow_set_jobs (ow_jobs o - 1) o]> (sh_owners s) !! a = Some oa /\ ow_jobs oa = 0)) as Hne.
    { intros Hne. rewrite H6. by setoid_rewrite lookup_insert_ne; [|done]. }
    destruct (decide (a = this)) as [->|Hn].
    + rewrite lookup_insert_eq. case_z.
      * split; [intros _; eexists; split; [done|cbn; lia]|intros _; by left].
      * split; [done|]. intros (oa & [= <-] & E). cbn in E. lia.
    + rewrite <- (Hne Hn). case_z; [|done]. set_solver.
Qed.

Lemma work_seen d idle :
  work_ok (d + 1) s idle -> work_ok d (sh_set_subs (u32 (sh_subs s - 1)) s) idle.
Proof.
  intros [H1 H2 H3 H4 H5 H6]. split; try done. cbn. rewrite H3, wrap_sub_l. f_equal. lia.
Qed.

(** ** Deleting an idle runner *)

Lemma work_delete d idle this o n h :
  work_ok d s (this :: idle) -> sh_owners s !! this = Some o -> ow_jobs o = 0 ->
  work_ok d (deleted this o n h s) idle.
Proof.
  intros [H1 H2 H3 H4 H5 H6] Ho Hj. apply list.NoDup_cons in H5 as [Hni H5].
  pose proof (total_delete (fun _ => 1) _ _ _ Ho) as Ea. pose proof (total_delete ow_jobs _ _ _ Ho) as Ej.
  unfold alive, jobs in *. split; cbn; unfold alive, jobs; try done.
  - rewrite H1, Ea, wrap_sub_l. f_equal. lia.
  - lia.
  - rewrite H3, Ej, Hj. done.
  - intros a oa Ha. apply lookup_delete_Some in Ha as [_ Ha]. eauto.
  - intros a. split.
    + intros Ha. destruct (proj1 (H6 a)) as (oa & Hoa & Hja); [by right|]. exists oa.
      rewrite lookup_delete_ne; [done|]. by intros ->.
    + intros (oa & Ha & Hja). apply lookup_delete_Some in Ha as [Hne Ha].
      assert (a ∈ this :: idle) as Hin by (apply H6; eauto). set_solver.
Qed.

Lemma fresh_delete next this o n h :
  fresh_ok next s -> (exists m, sh_chunks s !! ow_tracker o = Some m) ->
  fresh_ok next (deleted this o n h s).
Proof.
  intros [H1 H2 H3 H4 H5] [m Hm]. split; cbn; try done.
  - intros a Ha. apply lookup_delete_None. right. by apply H2.
  - intros t Ht. assert (t <> ow_tracker o) by (intros ->; specialize (H3 _ Ht); congruence).
    destruct (n =? 1); [apply lookup_delete_None; right|rewrite lookup_insert_ne by done];
      by apply H3.
  - intros p Hp. specialize (H4 p Hp). destruct (n =? 1); set_solver.
  - intros a Ha. apply lookup_delete_None. right. by apply H5.
Qed.

Lemma sharing_delete this o t :
  sh_owners s !! this = Some o ->
  sharing t (delete this (sh_owners s)) =
    sharing t (sh_owners s) - (if ow_tracker o =? t then 1 else 0).
Proof. intros Ho. unfold sharing. rewrite (total_delete _ _ _ _ Ho). lia. Qed.

(** With the last part of a job its tracker and its descriptors go. *)
Lemma files_delete files g this o n h :
  files_of_ok files s g -> sh_owners s !! this = Some o ->
  sh_chunks s !! ow_tracker o = Some n ->
  exists files', files_of_ok files' (deleted this o n h s) g.
Proof.
  intros [H1 H2 H3 H4 H5 H6 H7] Ho Hn. destruct (H1 _ _ Hn) as [Hn0 En].
  pose proof (sharing_pos _ _ _ _ Ho eq_refl) as Hs.
  assert (0 <= to_come (ow_tracker o) g) as Hc.
  { destruct g; cbn; try lia. case_z; [|lia]. destruct (H4 _ _ _ _ eq_refl). lia. }
  assert (forall a oa, delete this (sh_owners s) !! a = Some oa -> sh_owners s !! a = Some oa) as Hsub
    by (intros a oa Ha; by apply lookup_delete_Some in Ha as [_ Ha]).
  destruct (Z.eqb_spec n 1) as [E1|E1].
  - exists (delete (ow_tracker o) files). unfold deleted.
    destruct (Z.eqb_spec n 1); [|done].
    assert (forall t x y, delete (ow_tracker o) files !! t = Some (x, y) <->
      t <> ow_tracker o /\ files !! t = Some (x, y)) as Hf
      by (intros t x y; rewrite lookup_delete_Some; naive_solver).
    split; cbn.
    + intros t m Ht. apply lookup_delete_Some in Ht as [Hne Ht].
      rewrite (sharing_delete _ _ _ Ho). destruct (H1 t m Ht) as [? ->]. case_z; [done|]. split; lia.
    + by rewrite !dom_delete_L, H2.
    + intros a oa Ha. pose proof (H3 a oa (Hsub a oa Ha)) as Hfa. apply Hf. split; [|done].
      intros Et. assert (0 < sharing (ow_tracker o) (delete this (sh_owners s))) as Hp
        by (by eapply sharing_pos). rewrite (sharing_delete _ _ _ Ho), Z.eqb_refl in Hp. lia.
    + intros src dst t k Hg. destruct (H4 _ _ _ _ Hg) as [Hk Ht]. split; [done|]. apply Hf.
      split; [|done]. intros ->. rewrite Hg in En. cbn in En. rewrite Z.eqb_refl in En. lia.
    + intros t t' x y x' y' Ht [_ Hx]%Hf [_ Hx']%Hf. by apply (H5 t t').
    + intros t x y [_ Hx]%Hf. eauto.
    + intros p. rewrite !elem_of_difference, !elem_of_singleton, H7. setoid_rewrite Hf.
      pose proof (H3 _ _ Ho) as Hfo. split.
      * intros [[[Hp|(t & x & y & Ht & Hp)] Hp1] Hp2]; [by left|right]. exists t, x, y.
        split; [|done]. split; [|done]. intros ->. rewrite Hfo in Ht. injection Ht as <- <-.
        by destruct Hp.
      * intros [Hp|(t & x & y & [Hne Ht] & Hp)].
        -- destruct (H6 _ _ _ Hfo). split; [split; [by left|]|]; intros ->; done.
        -- destruct (H5 _ _ _ _ _ _ Hne Ht Hfo) as (A1 & A2 & A3 & A4).
           split; [split; [right; eauto|]|]; intros ->; destruct Hp; congruence.
  - exists files. unfold deleted. destruct (Z.eqb_spec n 1); [done|]. split; cbn; try done.
    + intros t m Ht. rewrite (sharing_delete _ _ _ Ho).
      apply lookup_insert_Some in Ht as [[<- <-]|[Hne Ht]].
      * rewrite Z.eqb_refl. lia.
      * destruct (H1 t m Ht) as [? ->]. case_z; [done|]. lia.
    + rewrite H2, dom_insert_L. apply elem_of_dom_2 in Hn. set_solver.
    + intros a oa Ha. apply (H3 a oa), Hsub, Ha.
Qed.

Lemma blocks_delete nb this o n h :
  blocks_ok (sh_heap s) (sh_owners s) nb -> sh_owners s !! this = Some o ->
  gave_back (ow_buffer o) (sh_heap s) h ->
  blocks_ok (sh_heap (deleted this o n h s)) (sh_owners (deleted this o n h s)) nb.
Proof.
  intros Hb Ho Hg. cbn. unfold gave_back in Hg.
  assert (forall a oa, delete this (sh_owners s) !! a = Some oa -> a <> this /\ sh_owners s !! a = Some oa)
    as Hsub by (intros a oa Ha; by apply lookup_delete_Some in Ha as [? Ha]).
  assert (forall i, Heap.block_at (sh_heap s) i <> ow_buffer o ->
    (exists a oa, sh_owners s !! a = Some oa /\ ow_buffer oa = Heap.block_at (sh_heap s) i) <->
    (exists a oa, delete this (sh_owners s) !! a = Some oa /\
       ow_buffer oa = Heap.block_at (sh_heap s) i)) as Hsame.
  { intros i Hi. split; intros (a & oa & Ha & E).
    - exists a, oa. rewrite lookup_delete_ne; [done|]. intros <-. congruence.
    - exists a, oa. by apply Hsub in Ha as [_ Ha]. }
  destruct (Z.eqb_spec (ow_buffer o) 0) as [E|E].
  - subst h. destruct Hb as [Hh Hbase Hu Hi Hn]. pose proof (Heap.ho_size _ Hh).
    split; try done.
    + intros i Hir. rewrite Hu by done. rewrite Hsame; [done|]. rewrite E. unfold Heap.block_at. nia.
    + intros a b oa ob [_ Ha]%Hsub [_ Hb]%Hsub. by apply Hi.
    + intros a oa [_ Ha]%Hsub. by apply (Hn a).
  - pose proof Hb as [Hh Hbase Hu Hi Hn]. eapply blocks_return; try done; [by left| | | |].
    + intros a oa Ha. by apply Hsub in Ha as [_ Ha].
    + intros i Hir Hne. split; [done|]. by apply Hsame.
    + intros ->. by destruct E, (Hn _ _ Ho).
    + intros a oa [Hne Ha]%Hsub Eb. destruct Hne. by apply (Hi _ _ oa o); [..|congruence].
Qed.
End changes.

(** ** What the main thread adds *)

Section adding.
Context (s : shape).

Definition with_key (p : Z) : shape :=
  mk_shape (sh_heap s) (sh_alive s) (sh_subs s) (sh_chunks s) (sh_owners s) ({[p]} ∪ sh_keys s).
Definition with_tracker (t n : Z) : shape :=
  mk_shape (sh_heap s) (sh_alive s) (sh_subs s) (<[t := n]> (sh_chunks s)) (sh_owners s) (sh_keys s).
Definition with_runner (a src dst t : Z) : shape :=
  mk_shape (sh_heap s) (u32 (sh_alive s + 1)) (sh_subs s) (sh_chunks s)
    (<[a := mk_owner src dst t 0 0]> (sh_owners s)) (sh_keys s).

(** A descriptor, at an address never used. *)
Lemma accounted_open d nb idle next l g :
  accounted d s nb idle next g -> (g = NotAdding \/ exists l, g = Opening l) -> opening g = l ->
  accounted d (with_key next) nb idle (next + 1) (Opening (l ++ [next])).
Proof.
  intros (Hw & [files [H1 H2 H3 H4 H5 H6 H7]] & Hb & Hf) Hg Hl.
  assert (forall t, to_come t g = 0) as Hc by (destruct Hg as [->|[? ->]]; done).
  split_and!; [by destruct Hw|exists files|done|].
  - split; try done.
    + intros t n Ht. cbn. destruct (H1 t n Ht) as [? E]. rewrite Hc in E. lia.
    + intros t x y Ht. cbn [opening]. rewrite !elem_of_app, !list_elem_of_singleton, <- Hl.
      destruct (H6 t x y Ht). destruct Hf as [_ _ _ Hk _]. specialize (Hk next ltac:(lia)).
      assert (forall z, z = x \/ z = y -> z <> next).
      { intros z Hz ->. apply Hk, H7. right. exists t, x, y. done. }
      split; intros [?|?]; naive_solver.
    + intros p. cbn. rewrite elem_of_union, elem_of_singleton, H7, elem_of_app,
        list_elem_of_singleton, Hl. clear. tauto.
  - destruct Hf as [F1 F2 F3 F4 F5]. split; cbn; [lia| | | |done].
    + intros a Ha. apply F2. lia.
    + intros t Ht. apply F3. lia.
    + intros p Hp. rewrite elem_of_union, elem_of_singleton. intros [->|Hk]; [lia|].
      apply (F4 p); [lia|done].
Qed.

(** The tracker of the parts to come. *)
Lemma accounted_track d nb idle next src dst n :
  accounted d s nb idle next (Opening [src; dst]) -> 0 < n ->
  accounted d (with_tracker next n) nb idle (next + 1) (Cutting src dst next n).
Proof.
  intros (Hw & [files [H1 H2 H3 H4 H5 H6 H7]] & Hb & Hf) Hn. destruct Hf as [F1 F2 F3 F4 F5].
  assert (files !! next = None) as Hnf.
  { apply not_elem_of_dom. rewrite H2. apply not_elem_of_dom, F3. lia. }
  assert (forall a o, sh_owners s !! a = Some o -> ow_tracker o <> next) as Hot.
  { intros a o Ho E. apply H3 in Ho. rewrite E, Hnf in Ho. done. }
  assert (sharing next (sh_owners s) = 0) as Hs0.
  { unfold sharing. revert Hot. generalize (sh_owners s). intros m. 
    induction m as [|a o m Ha IH] using map_ind; intros Hot; [done|].
    rewrite total_insert, IH; [|  |done].
    - specialize (Hot a o (lookup_insert_eq _ _ _)). cbn. case_z; lia.
    - intros b ob Hob. apply (Hot b). rewrite lookup_insert_ne; [done|congruence]. }
  split_and!; [by destruct Hw|exists (<[next := (src, dst)]> files)|done|].
  - split; cbn.
    + intros t m Ht. apply lookup_insert_Some in Ht as [[<- <-]|[Hne Ht]].
      * rewrite Hs0, Z.eqb_refl. lia.
      * destruct (H1 t m Ht) as [? ->]. cbn. by case_z.
    + by rewrite !dom_insert_L, H2.
    + intros a o Ho. rewrite lookup_insert_ne; [eauto|]. intros E. by apply (Hot a o).
    + intros src' dst' t k [= <- <- <- <-]. by rewrite lookup_insert_eq.
    + assert (forall t x y, files !! t = Some (x, y) -> src <> x /\ src <> y /\ dst <> x /\ dst <> y)
        as Hap by (intros t x y Ht; destruct (H6 t x y Ht); cbn in *; set_solver).
      intros t t' x y x' y' Hne Ht Ht'.
      apply lookup_insert_Some in Ht as [[<- [= <- <-]]|[Hn1 Ht]],
        Ht' as [[<- [= <- <-]]|[Hn2 Ht']]; [done| | |by apply (H5 t t')].
      * by apply (Hap t').
      * destruct (Hap t x y Ht) as (?&?&?&?). split_and!; congruence.
    + set_solver.
    + intros p. rewrite H7. cbn. split.
      * intros [Hp|(t & x & y & Ht & Hp)]; right.
        -- exists next, src, dst. rewrite lookup_insert_eq. split; [done|]. set_solver.
        -- exists t, x, y. rewrite lookup_insert_ne; [done|]. intros <-. congruence.
      * intros [Hp|(t & x & y & Ht & Hp)]; [by apply elem_of_nil in Hp|].
        apply lookup_insert_Some in Ht as [[<- [= <- <-]]|[Hne Ht]]; [left; set_solver|right; eauto 6].
  - split; cbn; [lia|intros a Ha; apply F2; lia| |intros p Hp; apply F4; lia|done].
    intros t Ht. rewrite lookup_insert_ne by lia. apply F3. lia.
Qed.

(** One part. *)
Lemma accounted_part d nb idle next src dst t k :
  accounted d s nb idle next (Cutting src dst t k) -> sh_alive s + 1 < 2 ^ 32 ->
  accounted d (with_runner next src dst t) nb (next :: idle) (next + 1)
    (if k =? 1 then NotAdding else Cutting src dst t (k - 1)).
Proof.
  intros (Hw & [files [H1 H2 H3 H4 H5 H6 H7]] & Hb & Hf) Hlim. destruct Hf as [F1 F2 F3 F4 F5].
  pose proof (F2 next ltac:(lia)) as Hno. destruct (H4 _ _ _ _ eq_refl) as [Hk Ht].
  set (g := if k =? 1 then _ else _).
  assert (forall t', to_come t' g = to_come t' (Cutting src dst t k) - (if t =? t' then 1 else 0)) as Hc.
  { intros t'. unfold g. cbn. destruct (Z.eqb_spec k 1); cbn; case_z; lia. }
  assert (opening g = []) as Hg by (unfold g; by case_z).
  split_and!.
  - destruct Hw as [W1 W2 W3 W4 W5 W6].
    assert (0 <= alive (sh_owners s)) by (by apply total_nonneg).
    rewrite W1, wrap_small in Hlim by (unfold in_u; lia).
    split; cbn; unfold alive, jobs in *; rewrite ?total_insert by done; cbn.
    + rewrite W1, wrap_add_l. f_equal. lia.
    + lia.
    + done.
    + intros a o Ha. apply lookup_insert_Some in Ha as [[<- <-]|[Hne Ha]]; [cbn; lia|eauto].
    + constructor; [|done]. intros Hin. apply W6 in Hin as (o & Ho & _). congruence.
    + intros a. rewrite elem_of_cons, W6. destruct (decide (a = next)) as [->|Hne].
      * rewrite lookup_insert_eq. naive_solver.
      * rewrite lookup_insert_ne by done. naive_solver.
  - exists files. split; cbn; try done.
    + intros t' n Hn. unfold sharing. rewrite total_insert by done. cbn. fold (sharing t' (sh_owners s)).
      destruct (H1 t' n Hn) as [? E]. rewrite Hc. cbn in *. destruct (Z.eqb_spec t t'); lia.
    + intros a o Ha. apply lookup_insert_Some in Ha as [[<- <-]|[Hne Ha]]; [done|eauto].
    + intros src' dst' t' k' Eg. unfold g in Eg. destruct (Z.eqb_spec k 1); [done|].
      injection Eg as <- <- <- <-. split; [lia|done].
    + intros t' x y Ht'. rewrite Hg. set_solver.
    + intros p. rewrite H7, Hg. done.
  - destruct Hb as [Hh Hbase Hu Hi Hn]. pose proof (Heap.ho_size _ Hh). cbn. split; try done.
    + intros i Hir. rewrite Hu by done. assert (Heap.block_at (sh_heap s) i <> 0)
        by (unfold Heap.block_at; nia).
      split; (intros [?|(a & o & Ha & E)]; [by left|right]).
      * exists a, o. rewrite lookup_insert_ne; [done|]. intros <-. congruence.
      * apply lookup_insert_Some in Ha as [[<- <-]|[Hne Ha]]; [done|eauto].
    + intros a b oa ob Ha Hb. apply lookup_insert_Some in Ha as [[<- <-]|[Hna Ha]],
        Hb as [[<- <-]|[Hnb Hb]]; cbn; [done|done| |by apply Hi]. by intros -> .
    + intros a o Ha. apply lookup_insert_Some in Ha as [[<- <-]|[Hne Ha]]; [cbn; congruence|eauto].
  - split; cbn; [lia| |intros t' Ht'; apply F3; lia|intros p Hp; apply F4; lia|]; intros a Ha;
      rewrite lookup_insert_ne by lia; [apply F2; lia|by apply F5].
Qed.
End adding.

Lemma list_filter_all_false (l : list bool) :
  Forall (fun b => b = false) l -> filter (fun b => b = false) l = l.
Proof.
  induction 1 as [|b l Hb _ IH]; [done|]. rewrite list.filter_cons, decide_True by done. by f_equal.
Qed.

(** When no runner is left, nothing is. *)
Lemma accounted_empty s next :
  accounted 0 s 0 [] next NotAdding -> sh_alive s = 0 ->
  sh_owners s = ∅ /\ sh_subs s = 0 /\ sh_chunks s = ∅ /\ sh_keys s = ∅ /\
  Heap.getFreeBlocksCount (sh_heap s) = Heap.blocks (sh_heap s).
Proof.
  intros ([W1 W2 W3 W4 W5 W6] & [files [H1 H2 H3 H4 H5 H6 H7]] & [Hh Hb Hu _ _] & _) Ha.
  assert (sh_owners s = ∅) as E.
  { apply alive_zero. assert (0 <= alive (sh_owners s)) by (by apply total_nonneg).
    rewrite W1, wrap_small in Ha by (unfold in_u; lia). done. }
  rewrite E in *. assert (sh_chunks s = ∅) as Ec.
  { apply map_empty. intros t. destruct (sh_chunks s !! t) as [n|] eqn:Ht; [|done].
    destruct (H1 t n Ht) as [? ->]. done. }
  assert (files = ∅) as Ef by (apply dom_empty_inv_L; by rewrite H2, Ec, dom_empty_L).
  split_and!; [done|by rewrite W3|done| |].
  - apply set_eq. intros p. rewrite H7, Ef. cbn. split; [|set_solver].
    intros [Hp|(t & x & y & Ht & _)]; [by apply elem_of_nil in Hp|done].
  - assert (forall i, ~ Heap.used_at (sh_heap s) i) as Hno.
    { intros i Hi. pose proof (zget_range _ _ _ Hi) as Hr. rewrite (Heap.ho_len _ Hh) in Hr.
      pose proof (Heap.ho_size _ Hh).
      apply Hu in Hi as [E0|(a & o & Hao & _)]; [|done|done]. unfold Heap.block_at in E0. nia. }
    unfold Heap.getFreeBlocksCount. rewrite <- (Heap.ho_len _ Hh). unfold Heap.used_at in Hno.
    rewrite list_filter_all_false; [done|]. apply Forall_lookup. intros k b Hk. destruct b; [|done].
    destruct (Hno (Z.of_nat k)). unfold zget. case_z; [lia|]. by rewrite Nat2Z.id.
Qed.
