(* ===== verification/System.v ===== *)
(** * The copy queue as a system of two threads

    The main thread adds files, the submit thread starts runners, submits their
    requests and handles completions.  Their critical sections interleave freely: a
    step relation over the loop's state and the main thread's stage.  Every reachable
    state has its books in order, so that when the submit thread returns, nothing is
    left of any copy. *)

From stdpp Require Import gmap strings.
From S2P Require Import Prelude Abi Prep RingBuf Ring Kernel Queue Os Util Heap Eta CopyState FileDesc Runner CopyQueue SubmitLoop Shape Accounts.
Import Eta.Rolling Eta.ETA.

(** ** Lifting *)

Section lift.
Context {W : Type}.
Implicit Types (l : loop W).

Lemma lift_inv {A} (m : prog (queue W) A) l a l' :
  on_cq (on_queue m) l = Ok (a, l') ->
  exists q, m (lq l) = Ok (a, q) /\ l' = lp_set_queue q l.
Proof.
  unfold on_cq, on_queue, lq. destruct (m _) as [[b q]| |]; [|done..].
  intros [= <- <-]. by exists q.
Qed.

Lemma lp_set_queue_id l : lp_set_queue (lq l) l = l.
Proof. by destruct l as [[] ? ? ?]. Qed.

(** Reading a runner. *)
Lemma lift_runner this l r l' :
  on_cq (on_queue (get_runner this)) l = Ok (r, l') -> l' = l.
Proof.
  intros H. apply lift_inv in H as (q & H & ->). apply deref_inv in H as [_ ->].
  apply lp_set_queue_id.
Qed.

Lemma modify_inv {S} (f : S -> S) s u s' : modify f s = Ok (u, s') -> s' = f s.
Proof. by intros [= _ <-]. Qed.

Lemma ret_inv {S A} (a b : A) (s s' : S) : ret a s = Ok (b, s') -> b = a /\ s' = s.
Proof. by intros [= <- <-]. Qed.

Lemma gets_inv {S A} (f : S -> A) s a s' : gets f s = Ok (a, s') -> a = f s /\ s' = s.
Proof. by intros [= <- <-]. Qed.

(** A call into liburing leaves the shape alone. *)
Lemma keeps_on_ring {A} (m : prog (ust W) A) : keeps (on_ring m).
Proof.
  intros q a q'. unfold on_ring. destruct (m _) as [[b u]| |]; [|done..]. by intros [= _ <-].
Qed.
End lift.

(** The runners waiting for the submit thread. *)
Definition waiting {W} (l : loop W) : list Z :=
  copiesPendingStart (lp_cq l) ++ copiesPendingContinue l.

(** The requests that are outstanding. *)
Definition outstanding {W} (q : queue W) : Z := jobs (sh_owners (shape_of q)).

(** The books of a state: [d] completions are being handled, [cur] is the runner in
    the hands of the submit thread, if it is idle, and the ring has room for [room]
    more requests. *)
Record loop_ok {W} (room d : Z) (cur : list Z) (g : stage) (l : loop W) : Prop := {
  lo_acc : accounted d (shape_of (lq l)) (nextBuffer l) (cur ++ waiting l)
             (next_addr (lp_cq l)) g;
  lo_count : copiesPendingStartCount (lp_cq l) = u32 (zlen (copiesPendingStart (lp_cq l)));
  lo_room : outstanding (lq l) + room <= ringSize (lp_cq l);
  lo_ring : ringSize (lp_cq l) < 2 ^ 32;
}.

Section submit_thread.
Context {W : Type} {F : Files W} {K : Kernel W} (cfg : config) (rand : Z -> Z).
Implicit Types (l : loop W) (g : stage).

(** Operations of the queue, by what they do to its shape. *)
Lemma loop_ok_queue rm d cur rm' d' cur' g l q :
  loop_ok rm d cur g l -> outstanding q + rm' <= outstanding (lq l) + rm ->
  (accounted d (shape_of (lq l)) (nextBuffer l) (cur ++ waiting l) (next_addr (lp_cq l)) g ->
   accounted d' (shape_of q) (nextBuffer l) (cur' ++ waiting l) (next_addr (lp_cq l)) g) ->
  loop_ok rm' d' cur' g (lp_set_queue q l).
Proof.
  intros [H1 H2 H3 H4] Ho H. split; [by apply H|done| |done].
  change (lq (lp_set_queue q l)) with q. change (ringSize _) with (ringSize (lp_cq l)). lia.
Qed.

Lemma loop_ok_keeps {A} (m : prog (queue W) A) rm d cur g l a l' :
  keeps m -> loop_ok rm d cur g l -> on_cq (on_queue m) l = Ok (a, l') ->
  loop_ok rm d cur g l' /\ shape_of (lq l') = shape_of (lq l).
Proof.
  intros Hm Hl H. apply lift_inv in H as (q & H & ->). apply Hm in H as E.
  split; [|done]. eapply loop_ok_queue; [done|unfold outstanding; by rewrite E|by rewrite E].
Qed.

Lemma loop_ok_error rm d cur g l e :
  loop_ok rm d cur g l -> loop_ok rm d cur g (lp_set_cq (cq_add_error e (lp_cq l)) l).
Proof. by intros []. Qed.

Lemma report_ok rm d cur g l r u l' :
  loop_ok rm d cur g l -> report r l = Ok (u, l') -> loop_ok rm d cur g l'.
Proof.
  intros Hl. destruct r as [e|]; cbn [report]; [|by intros [_ ->]%ret_inv].
  intros [= _ <-]. by apply loop_ok_error.
Qed.

Lemma loop_ok_less rm rm' d cur g l : loop_ok rm d cur g l -> rm' <= rm -> loop_ok rm' d cur g l.
Proof. intros [H1 H2 H3 H4] Hr. split; [done..|lia|done]. Qed.

Lemma outstanding_nonneg rm d cur g l : loop_ok rm d cur g l -> 0 <= outstanding (lq l).
Proof.
  intros [(Hw & _) _ _ _]. apply total_nonneg. intros a o Ho. by apply (wk_jobs _ _ _ Hw) in Ho as [? _].
Qed.

(** The loop goes on only when the ring has room for the requests of a runner. *)
Lemma must_wait_ok g l b l' :
  loop_ok 0 0 [] g l -> must_wait l = Ok (b, l') ->
  l' = l /\ (b = false -> loop_ok MAX_JOBS_PER_RUNNER 0 [] g l).
Proof.
  intros Hl H. injection H as <- <-. split; [done|]. intros Hb. bools.
  pose proof (outstanding_nonneg _ _ _ _ _ Hl). destruct Hl as [L1 L2 L3 L4].
  split; [done..| |done]. pose proof (wk_subs _ _ _ (proj1 L1)) as Hs.
  change (submissionsRunning (qu_counters (lq l)) = u32 (outstanding (lq l) + 0)) in Hs.
  rewrite Z.add_0_r, wrap_small in Hs by (unfold in_u; lia).
  fold (lq l) in *. rewrite Hs, wrap_small in * by (unfold in_u; lia). lia.
Qed.

Lemma reserve_buffer_ok rm g l u l' :
  loop_ok rm 0 [] g l -> reserve_buffer l = Ok (u, l') -> loop_ok rm 0 [] g l'.
Proof.
  intros [H1 H2 H3 H4] H. unfold reserve_buffer in H. apply bind_inv in H as (l0 & l1 & Hg & H).
  injection Hg as <- <-. destruct (Z.eqb_spec (nextBuffer l) 0) as [E|E];
    [|by apply ret_inv in H as [_ ->]; split].
  apply bind_inv in H as (q & l1 & Hg & H). injection Hg as <- <-.
  fold (lq l) in H. destruct H1 as (Hw & Hf & Hb & Hr). rewrite E in Hb.
  change (sh_heap (shape_of (lq l))) with (qu_heap (lq l)) in Hb.
  destruct (Heap.getBlock (qu_heap (lq l))) as [b h] eqn:Hgb.
  injection H as _ <-. split; [|done|exact H3|done].
  destruct b as [b|].
  - destruct (blocks_get _ _ _ _ Hb Hgb) as [Hb' _]. split_and!; [by destruct Hw| |done|].
    + destruct Hf as [files []]. by exists files.
    + by destruct Hr.
  - pose proof (Heap.getBlock_spec _ (bl_heap _ _ _ Hb)) as Hs. rewrite Hgb in Hs.
    destruct Hs as [-> _]. split_and!; [by destruct Hw| |done|].
    + destruct Hf as [files []]. by exists files.
    + by destruct Hr.
Qed.

Lemma take_continue_ok rm g l r l' :
  loop_ok rm 0 [] g l -> take_continue l = Ok (r, l') ->
  loop_ok rm 0 (match r with Some a => [a] | None => [] end) g l'.
Proof.
  intros Hl H. unfold take_continue in H. apply bind_inv in H as (l0 & l1 & Hg & H).
  injection Hg as <- <-. destruct (copiesPendingContinue l) as [|a rest] eqn:Hc;
    [by apply ret_inv in H as [-> ->]|].
  apply bind_inv in H as (d & l1 & Hd & H). apply lift_runner in Hd as ->.
  apply bind_inv in H as ([] & l1 & Ha & H).
  apply assert_inv in Ha as [_ ->]. apply bind_inv in H as ([] & l1 & Hm & H).
  apply modify_inv in Hm as ->. apply ret_inv in H as [-> ->].
  destruct Hl as [H1 H2 H3 H4]. split; [|done|exact H3|done]. eapply accounted_perm; [|exact H1].
  unfold waiting. cbn. rewrite Hc. by rewrite Permutation_middle.
Qed.

(** Giving the buffer at hand to a runner that is in the hands of the thread. *)
Lemma accounted_give d s nb idle next g this o :
  accounted d s nb idle next g -> sh_owners s !! this = Some o -> ow_buffer o = 0 ->
  accounted d (sh_set_owners (<[this := ow_set_buffer nb o]> (sh_owners s)) s) 0 idle next g.
Proof.
  intros (Hw & [files Hf] & Hb & Hr) Ho Hob.
  assert (forall f, f (ow_set_buffer nb o) = f o ->
    total f (<[this := ow_set_buffer nb o]> (sh_owners s)) = total f (sh_owners s)) as Ht.
  { intros f Hf'. rewrite (total_update _ _ _ _ _ Ho). lia. }
  assert (forall a oa, <[this := ow_set_buffer nb o]> (sh_owners s) !! a = Some oa ->
    exists oa', sh_owners s !! a = Some oa' /\ ow_jobs oa' = ow_jobs oa /\
      ow_tracker oa' = ow_tracker oa /\ ow_src oa' = ow_src oa /\ ow_dst oa' = ow_dst oa) as Hl.
  { intros a oa Ha. apply lookup_insert_Some in Ha as [[<- <-]|[_ Ha]]; eauto 10. }
  split_and!; [destruct Hw as [W1 W2 W3 W4 W5 W6]|exists files; destruct Hf as [H1 H2 H3 H4 H5 H6 H7]|
    by apply blocks_give|destruct Hr as [F1 F2 F3 F4 F5]].
  - split; cbn; unfold alive, jobs; rewrite ?Ht by done; try done.
    + intros a oa Ha. destruct (Hl a oa Ha) as (oa' & Ha' & <- & _). eauto.
    + intros a. rewrite W6. split.
      * intros (oa & Ha & Hj). destruct (decide (this = a)) as [<-|Hne].
        -- exists (ow_set_buffer nb o). rewrite lookup_insert_eq. split; [done|]. cbn. congruence.
        -- exists oa. by rewrite lookup_insert_ne.
      * intros (oa & Ha & Hj). destruct (Hl a oa Ha) as (oa' & Ha' & E & _).
        exists oa'. by rewrite E.
  - split; cbn; try done.
    + intros t n Hn. destruct (H1 t n Hn) as [? ->]. unfold sharing. by rewrite Ht.
    + intros a oa Ha. destruct (Hl a oa Ha) as (oa' & Ha' & _ & <- & <- & <-). eauto.
  - split; cbn; try done; intros a Ha.
    + rewrite lookup_insert_ne; [by apply F2|]. intros ->. rewrite F2 in Ho; done.
    + rewrite lookup_insert_ne; [by apply F5|]. intros ->. rewrite F5 in Ho; done.
Qed.

Lemma take_start_ok rm g l r l' :
  loop_ok rm 0 [] g l -> take_start l = Ok (r, l') ->
  loop_ok rm 0 (match r with Some a => [a] | None => [] end) g l'.
Proof.
  intros Hl H. unfold take_start in H. apply bind_inv in H as (l0 & l1 & Hg & H).
  injection Hg as <- <-. destruct (copiesPendingStart (lp_cq l)) as [|a rest] eqn:Hc; [done|].
  apply bind_inv in H as (q & l1 & Hg & H). injection Hg as <- <-.
  apply bind_inv in H as (needs & l1 & Hn & H).
  destruct (loop_ok_keeps _ _ _ _ _ _ _ _ (keeps_needs a) Hl Hn) as [Hl1 _].
  apply lift_inv in Hn as (q1 & _ & ->). set (l1 := lp_set_queue q1 l) in *.
  destruct (negb _ || negb needs); [|by apply ret_inv in H as [-> ->]].
  apply bind_inv in H as (d & l2 & Hd & H). apply lift_runner in Hd as ->.
  apply bind_inv in H as ([] & l2 & Hb & H).
  assert (loop_ok rm 0 [] g l2 /\ waiting l2 = waiting l /\
    lp_cq l2 = cq_set_queue (lq l2) (lp_cq l)) as (Hl2 & Hw & Hcq).
  { destruct (needsBuffer d); [|by apply ret_inv in Hb as [_ ->]].
    apply bind_inv in Hb as ([] & l3 & Hgb & Hb). apply lift_inv in Hgb as (q3 & Hgb & ->).
    apply modify_inv in Hb as ->. destruct (giveBuffer_shape _ _ _ _ _ Hgb) as (o & Ho & Hob & E).
    destruct Hl1 as [H1 H2 H3 H4]. split; [|done].
    assert (outstanding q3 = outstanding (lq l1)) as Eo.
    { unfold outstanding, jobs. rewrite E. cbn. rewrite (total_update _ _ _ _ _ Ho). cbn. lia. }
    split; [|done| |done].
    - cbn. change (shape_of (lq _)) with (shape_of q3). rewrite E. by apply accounted_give.
    - change (outstanding q3 + rm <= ringSize (lp_cq l1)). lia. }
  apply bind_inv in H as ([] & l3 & Hm & H). apply ret_inv in H as [-> ->].
  unfold on_cq, modify in Hm. injection Hm as <-. destruct Hl2 as [H1 H2 H3 H4].
  assert (copiesPendingStart (lp_cq l2) = a :: rest) as Hc2 by (rewrite Hcq; exact Hc).
  split; [| |exact H3|done].
  - change (shape_of (lq _)) with (shape_of (lq l2)). cbn.
    eapply accounted_perm; [|exact H1]. cbn. unfold waiting at 1. by rewrite Hc2.
  - cbn. rewrite H2, Hc2, wrap_sub_l. f_equal. unfold zlen. cbn. lia.
Qed.

(** Deleting the runner in the hands of the thread. *)
Lemma delete_ok rm d g l this u l' :
  loop_ok rm d [this] g l -> on_cq (on_queue (delete_runner this)) l = Ok (u, l') ->
  loop_ok rm d [] g l'.
Proof.
  intros Hl H. apply lift_inv in H as (q & H & ->).
  destruct (delete_runner_shape _ _ _ _ H) as (o & n & h & Ho & Hj & Hg & Hn & _ & E).
  eapply loop_ok_queue; [exact Hl| |].
  { unfold outstanding, jobs. rewrite E. cbn. pose proof (total_delete ow_jobs _ _ _ Ho) as Et.
    cbn in Et. lia. }
  rewrite E. cbn [app]. intros (Hw & [files Hf] & Hb & Hr). split_and!.
  - by eapply work_delete.
  - by eapply files_delete.
  - by apply blocks_delete.
  - apply fresh_delete; [done|]. by exists n.
Qed.

(** Requests of the runner in the hands of the thread. *)
Lemma request_ok rm d g l this o k q :
  loop_ok rm d [this] g l -> sh_owners (shape_of (lq l)) !! this = Some o -> ow_jobs o = 0 ->
  (k = 1 \/ k = 2) -> requested this o k (shape_of (lq l)) (shape_of q) ->
  loop_ok (rm - k) d [] g (lp_set_queue q l).
Proof.
  intros Hl Ho Hj Hk E. unfold requested in E.
  rewrite Hj, (sext_small 32 (0 + k)) in E by (unfold in_s; lia).
  eapply loop_ok_queue; [exact Hl| |].
  { destruct (jobs_with _ this o k Ho) as (_ & Ej & _). unfold outstanding. rewrite E.
    change (jobs (sh_owners (with_jobs (shape_of (lq l)) this o k)) + (rm - k)
      <= jobs (sh_owners (shape_of (lq l))) + rm). lia. }
  rewrite E. intros (Hw & [files Hf] & Hb & Hr). split_and!.
  - apply (work_request _ d (waiting l) this o k); [exact Hw|done|done|lia].
  - exists files. destruct (files_jobs _ files g this o k Hf Ho). by split.
  - by apply blocks_jobs.
  - destruct (fresh_jobs _ _ this o k Hr Ho). by split.
Qed.

(** A file of no bytes. *)
Lemma add_empty_ok fuel rm g l this u l' :
  loop_ok rm 0 [this] g l -> add_empty fuel this l = Ok (u, l') -> loop_ok rm 0 [] g l'.
Proof.
  intros Hl H. unfold add_empty in H. apply bind_inv in H as (r & l1 & Hd & H).
  apply lift_runner in Hd as ->. apply bind_inv in H as (res & l2 & H1 & H).
  destruct (loop_ok_keeps _ _ _ _ _ _ _ _ (keeps_ensureOpened _ _) Hl H1) as [Hl2 _].
  apply bind_inv in H as (res2 & l3 & H2 & H).
  assert (loop_ok rm 0 [this] g l3) as Hl3.
  { destruct res; [by apply ret_inv in H2 as [_ ->]|].
    by destruct (loop_ok_keeps _ _ _ _ _ _ _ _ (keeps_handleFileClose _) Hl2 H2). }
  apply bind_inv in H as ([] & l4 & H4 & H). apply (report_ok _ _ _ _ _ _ _ _ Hl3) in H4.
  exact (delete_ok _ _ _ _ _ _ _ H4 H).
Qed.

(** Queueing the requests of the runner in the hands of the thread. *)
Lemma start_ok fuel g l this v l' :
  loop_ok 2 0 [this] g l ->
  (let* rnd1 := next_rand rand in
   let* rnd2 := next_rand rand in
   let* result := on_cq (on_queue (addToBatch cfg fuel this rnd1 rnd2)) in
   match result with
   | Some e =>
       do* on_cq (on_queue (delete_runner this)) in
       do* on_cq (onError e) in
       ret (true, 0)
   | None => ret (false, 1)
   end) l = Ok (v, l') -> loop_ok 0 0 [] g l'.
Proof.
  intros Hl H.
  apply bind_inv in H as (n1 & l5 & H5 & H). injection H5 as <- <-.
  apply bind_inv in H as (n2 & l6 & H6 & H). injection H6 as <- <-.
  apply bind_inv in H as (res & l7 & H7 & H). apply lift_inv in H7 as (q & H7 & ->).
  set (l6 := mk_loop _ _ _ _) in *. assert (loop_ok 2 0 [this] g l6) as Hl6 by (by destruct Hl).
  destruct (addToBatch_shape _ _ _ _ _ _ _ _ H7) as (o & Ho & Hs). destruct res as [e|].
  - apply bind_inv in H as ([] & l8 & H8 & H).
    assert (loop_ok 2 0 [this] g (lp_set_queue q l6)) as Hl7
      by (eapply loop_ok_queue; [exact Hl6|unfold outstanding; by rewrite Hs|by rewrite Hs]).
    apply (delete_ok _ _ _ _ _ _ _ Hl7) in H8.
    apply bind_inv in H as ([] & l9 & H9 & H). injection H9 as <-.
    apply ret_inv in H as [_ ->]. apply loop_ok_error. by eapply loop_ok_less.
  - apply ret_inv in H as [_ ->]. destruct Hs as (Hj & k & Hk & Hq).
    pose proof (request_ok _ _ _ _ _ _ _ _ Hl6 Ho Hj Hk Hq) as Hr.
    eapply loop_ok_less; [exact Hr|lia].
Qed.

(** One iteration of the loop that starts runners. *)
Lemma add_one_ok fuel g l v l' :
  loop_ok 0 0 [] g l -> add_one cfg rand fuel l = Ok (v, l') -> loop_ok 0 0 [] g l'.
Proof.
  intros Hl0 H. unfold add_one, add_one_seen in H. apply bind_inv in H as (w & l1 & Hw & H).
  apply (must_wait_ok _ _ _ _ Hl0) in Hw as [-> Hl]. destruct w; [by apply ret_inv in H as [_ ->]|].
  specialize (Hl eq_refl). change MAX_JOBS_PER_RUNNER with 2 in Hl.
  apply bind_inv in H as ([] & l1 & H1 & H). apply (reserve_buffer_ok _ _ _ _ _ Hl) in H1.
  apply bind_inv in H as (c & l2 & H2 & H). apply (take_continue_ok _ _ _ _ _ H1) in H2.
  apply bind_inv in H as (l2' & l2'' & Hg & H). injection Hg as <- <-.
  apply bind_inv in H as (toAdd & l3 & H3 & H).
  assert (loop_ok 2 0 (match toAdd with Some a => [a] | None => [] end) g l3) as Hl3.
  { destruct c as [a|]; [by apply ret_inv in H3 as [-> ->]|].
    destruct (_ && _); [exact (take_start_ok _ _ _ _ _ H2 H3)|by apply ret_inv in H3 as [-> ->]]. }
  clear H1 H2 H3 Hl Hl0. destruct toAdd as [this|].
  2:{ apply ret_inv in H as [_ ->]. by eapply loop_ok_less. }
  apply bind_inv in H as (r & l4 & Hd & H). apply lift_runner in Hd as ->.
  destruct (size r =? 0).
  { apply bind_inv in H as ([] & l5 & H5 & H). apply ret_inv in H as [_ ->].
    apply (add_empty_ok _ _ _ _ _ _ _ Hl3) in H5. by eapply loop_ok_less. }
  by eapply start_ok.
Qed.

(** What a completion does to the books. *)
Lemma completion_ok g l this t n v l' :
  loop_ok 0 0 [] g l -> on_cq (on_queue (onCompletionEvent cfg this t n)) l = Ok (v, l') ->
  loop_ok 0 1 (match v with ContinueTag => [] | _ => [this] end) g l'.
Proof.
  intros Hl H. apply lift_inv in H as (q & H & ->).
  destruct (onCompletion_shape _ _ _ _ _ _ _ H) as (o & Ho & Hj & E & Hv). cbv zeta in *.
  pose proof (wk_jobs _ _ _ (proj1 (lo_acc _ _ _ _ _ Hl)) this o Ho) as Hjr.
  rewrite (sext_small 32) in * by (unfold in_s; lia).
  eapply loop_ok_queue; [exact Hl| |].
  { destruct (jobs_with _ this o (ow_jobs o - 1) Ho) as (_ & Ej & _). unfold outstanding.
    rewrite E. change (jobs (sh_owners (with_jobs (shape_of (lq l)) this o (ow_jobs o - 1))) + 0
      <= jobs (sh_owners (shape_of (lq l))) + 0). lia. }
  rewrite E. cbn [app]. intros (Hw & [files Hf] & Hb & Hr).
  pose proof (work_complete _ 0 (waiting l) this o Hw Ho ltac:(lia)) as Hw'.
  split_and!.
  - destruct (Z.eqb_spec (ow_jobs o - 1) 0) as [Ej|Ej].
    + destruct v; try exact Hw'. by destruct (proj1 Hv eq_refl).
    + rewrite (proj2 Hv Ej). exact Hw'.
  - exists files. by apply files_jobs.
  - by apply blocks_jobs.
  - by apply fresh_jobs.
Qed.

Lemma on_result_ok g l this v u l' :
  loop_ok 0 1 (match v with ContinueTag => [] | _ => [this] end) g l ->
  on_result this v l = Ok (u, l') -> loop_ok 0 1 [] g l'.
Proof.
  intros Hl H. destruct v as [e| | |]; cbn [on_result] in H.
  - apply bind_inv in H as ([] & l1 & H1 & H). injection H1 as <-.
    eapply delete_ok; [|exact H]. by apply loop_ok_error.
  - apply modify_inv in H as ->. destruct Hl as [H1 H2 H3 H4]. split; [|done..].
    eapply accounted_perm; [|exact H1]. unfold waiting. cbn. rewrite app_assoc.
    by rewrite <- Permutation_cons_append.
  - apply bind_inv in H as (res & l1 & H1 & H).
    destruct (loop_ok_keeps _ _ _ _ _ _ _ _ (keeps_handleFileClose _) Hl H1) as [Hl1 _].
    apply bind_inv in H as ([] & l2 & H2 & H). apply (report_ok _ _ _ _ _ _ _ _ Hl1) in H2.
    apply bind_inv in H as (r & l3 & Hd & H). apply lift_runner in Hd as ->.
    apply bind_inv in H as ([] & l4 & H4 & H).
    injection H4 as <-. eapply delete_ok; [|exact H]. by destruct H2.
  - by apply ret_inv in H as [_ ->].
Qed.

Lemma complete_one_ok fuel g l more l' :
  loop_ok 0 0 [] g l -> complete_one cfg fuel l = Ok (more, l') -> loop_ok 0 0 [] g l'.
Proof.
  intros Hl H. unfold complete_one in H. apply bind_inv in H as ([err cqe] & l1 & H1 & H).
  destruct (loop_ok_keeps _ _ _ _ _ _ _ _ (keeps_on_ring _) Hl H1) as [Hl1 _].
  apply bind_inv in H as ([] & l2 & Ha & H). apply assert_inv in Ha as [_ ->].
  destruct (negb (err =? 0)); [by apply ret_inv in H as [_ ->]|].
  apply bind_inv in H as (q & l2 & Hg & H). injection Hg as <- <-.
  destruct cqe as [slot|]; [|done]. destruct (zget _ slot) as [e|]; [|done].
  destruct (event_of _) as [this t]. apply bind_inv in H as ([] & l2 & H2 & H).
  unfold on_completion in H2. apply bind_inv in H2 as (v & l3 & H3 & H2).
  apply (completion_ok _ _ _ _ _ _ _ Hl1) in H3. apply (on_result_ok _ _ _ _ _ _ H3) in H2.
  apply bind_inv in H as ([] & l4 & H4 & H). apply lift_inv in H4 as (q & H4 & ->).
  apply modify_inv in H4 as ->. apply bind_inv in H as ([] & l5 & H5 & H).
  apply lift_inv in H5 as (q & H5 & ->). apply modify_inv in H5 as ->.
  apply ret_inv in H as [_ ->]. destruct H2 as [(Hw & [files Hf] & Hb & Hr) Hc Ho Hri].
  split; [|exact Hc|exact Ho|done]. split_and!.
  - apply (work_seen _ 0) in Hw. by destruct Hw.
  - exists files. by destruct Hf.
  - exact Hb.
  - by destruct Hr.
Qed.
End submit_thread.

(** ** Both threads *)

Section system.
Context {W : Type} {F : Files W} {K : Kernel W} (cfg : config) (rand : Z -> Z).
Implicit Types (l : loop W) (g : stage).

(** A critical section of either thread.  The main thread creates the descriptors of
    a file, its tracker, and its parts one after the other; it makes system calls and
    reports errors of its own; start and join change the state; the last three
    constructors are the submit thread: starting a runner, entering the kernel,
    handling a completion. *)
Inductive sys_step : loop W * stage -> loop W * stage -> Prop :=
  | main_open l l' g i path oflag mode :
      (g = NotAdding \/ exists a, g = Opening [a]) ->
      on_cq (let* a := fresh in on_queue (new_qfd i a path oflag mode)) l = Ok (tt, l') ->
      sys_step (l, g) (l', Opening (opening g ++ [next_addr (lp_cq l)]))
  | main_track l l' src dst n :
      0 < n ->
      on_cq (let* t := fresh in
             on_queue (modify (fun q => set_chunks (<[t := n]> (qu_chunks q)) q))) l = Ok (tt, l') ->
      sys_step (l, Opening [src; dst]) (l', Cutting src dst (next_addr (lp_cq l)) n)
  | main_part l l' src dst t k off sz al :
      keepAliveCount (qu_counters (lq l)) + 1 < 2 ^ 32 ->
      on_cq (addCopyJobPart src dst off sz al t) l = Ok (tt, l') ->
      sys_step (l, Cutting src dst t k)
        (l', if k =? 1 then NotAdding else Cutting src dst t (k - 1))
  | main_state l g st act : sys_step (l, g) (lp_set_cq (cq_set_state st act (lp_cq l)) l, g)
  | main_show l g b : sys_step (l, g) (lp_set_cq (cq_set_showing b (lp_cq l)) l, g)
  | main_call l l' g A (m : prog (ost W) A) a :
      on_cq (on_queue (with_os m)) l = Ok (a, l') -> sys_step (l, g) (l', g)
  | main_error l l' g e : on_cq (onError e) l = Ok (tt, l') -> sys_step (l, g) (l', g)
  | submit_start l l' g fuel v : add_one cfg rand fuel l = Ok (v, l') -> sys_step (l, g) (l', g)
  | submit_enter l l' g v :
      on_cq (on_queue (on_ring io_uring_submit)) l = Ok (v, l') -> sys_step (l, g) (l', g)
  | submit_complete l l' g fuel b :
      complete_one cfg fuel l = Ok (b, l') -> sys_step (l, g) (l', g).

Inductive sys_steps : loop W * stage -> loop W * stage -> Prop :=
  | sys_refl s : sys_steps s s
  | sys_next s s1 s2 : sys_step s s1 -> sys_steps s1 s2 -> sys_steps s s2.

Lemma sys_steps_trans s1 s2 s3 : sys_steps s1 s2 -> sys_steps s2 s3 -> sys_steps s1 s3.
Proof. induction 1; eauto using sys_steps. Qed.

Lemma on_cq_inv {A} (m : prog (cqueue W) A) l a l' :
  on_cq m l = Ok (a, l') -> exists c, m (lp_cq l) = Ok (a, c) /\ l' = lp_set_cq c l.
Proof.
  unfold on_cq. destruct (m _) as [[b c]| |]; [|done..]. intros [= <- <-]. by exists c.
Qed.

Lemma on_queue_inv {A} (m : prog (queue W) A) (c : cqueue W) a c' :
  on_queue m c = Ok (a, c') -> exists q, m (cq_queue c) = Ok (a, q) /\ c' = cq_set_queue q c.
Proof.
  unfold on_queue. destruct (m _) as [[b q]| |]; [|done..]. intros [= <- <-]. by exists q.
Qed.

Lemma fresh_run (c : cqueue W) a c' :
  fresh c = Ok (a, c') -> a = next_addr c /\ c' = cq_set_next (next_addr c + 1) c.
Proof. by intros [= <- <-]. Qed.

Lemma fresh_bind {A} (k : Z -> prog (cqueue W) A) (c : cqueue W) :
  (let* a := fresh in k a) c = k (next_addr c) (cq_set_next (next_addr c + 1) c).
Proof. done. Qed.

(** The state after a part was added. *)
Lemma addCopyJobPart_inv src dst off sz al t (c : cqueue W) u c' :
  addCopyJobPart src dst off sz al t c = Ok (u, c') ->
  let a := next_addr c in
  shape_of (cq_queue c') = with_runner (shape_of (cq_queue c)) a src dst t /\
  next_addr c' = a + 1 /\ copiesPendingStart c' = copiesPendingStart c ++ [a] /\
  copiesPendingStartCount c' = u32 (copiesPendingStartCount c + 1) /\
  cq_state c' = cq_state c /\ ringSize c' = ringSize c.
Proof.
  intros H. unfold addCopyJobPart in H. apply bind_inv in H as (st & c1 & Hg & H).
  injection Hg as _ <-. apply bind_inv in H as ([] & c1 & Ha & H). apply assert_inv in Ha as [_ ->].
  apply bind_inv in H as ([] & c1 & Hc & H). injection Hc as <-.
  apply bind_inv in H as ([] & c2 & Hc & H). injection Hc as <-.
  apply bind_inv in H as (a & c3 & Hc & H). apply fresh_run in Hc as [-> ->].
  apply bind_inv in H as ([] & c4 & Hc & H). apply on_queue_inv in Hc as (q & Hc & ->).
  apply create_runner_shape in Hc. apply modify_inv in H as ->. cbn. rewrite Hc. done.
Qed.

Lemma main_open_ok l g i path oflag mode l' :
  loop_ok 0 0 [] g l -> (g = NotAdding \/ exists a, g = Opening [a]) ->
  on_cq (let* a := fresh in on_queue (new_qfd i a path oflag mode)) l = Ok (tt, l') ->
  loop_ok 0 0 [] (Opening (opening g ++ [next_addr (lp_cq l)])) l'.
Proof.
  intros [Ha Hc Hro Hri] Hg H. apply on_cq_inv in H as (c & H & ->).
  apply bind_inv in H as (a & c1 & Hf & H). apply fresh_run in Hf as [-> ->].
  apply on_queue_inv in H as (q & H & ->). apply new_qfd_shape in H as E.
  split; [|exact Hc|change (outstanding q + 0 <= ringSize (lp_cq l));
    unfold outstanding; by rewrite E|done].
  change (shape_of (lq _)) with (shape_of q). rewrite E.
  eapply (accounted_open (shape_of (lq l))); [exact Ha| |done]. naive_solver.
Qed.

Lemma main_part_ok l src dst t k off sz al l' :
  loop_ok 0 0 [] (Cutting src dst t k) l -> keepAliveCount (qu_counters (lq l)) + 1 < 2 ^ 32 ->
  on_cq (addCopyJobPart src dst off sz al t) l = Ok (tt, l') ->
  loop_ok 0 0 [] (if k =? 1 then NotAdding else Cutting src dst t (k - 1)) l'.
Proof.
  intros [Ha Hc Hro Hri] Hlim H. apply on_cq_inv in H as (c & H & ->).
  apply addCopyJobPart_inv in H as (E & En & Ep & Ec & _ & Er).
  pose proof (fr_owners _ _ (proj2 (proj2 (proj2 Ha))) _ ltac:(reflexivity)) as Hno.
  split.
  - change (shape_of (lq _)) with (shape_of (cq_queue c)).
    change (next_addr (lp_cq (lp_set_cq c l))) with (next_addr c). rewrite E, En.
    eapply accounted_perm; [|by apply accounted_part; [exact Ha|]].
    unfold waiting. cbn. rewrite Ep, <- app_assoc. cbn. by rewrite Permutation_middle.
  - cbn. rewrite Ec, Ep, Hc, wrap_add_l. f_equal. unfold zlen. rewrite length_app. cbn. lia.
  - change (outstanding (cq_queue c) + 0 <= ringSize c). rewrite Er. unfold outstanding in *.
    rewrite E. unfold jobs in *. cbn [sh_owners with_runner].
    rewrite total_insert by exact Hno. cbn [ow_jobs].
    change (cq_queue (lp_cq l)) with (lq l). lia.
  - cbn. by rewrite Er.
Qed.

Lemma sys_step_ok l g l' g' :
  loop_ok 0 0 [] g l -> sys_step (l, g) (l', g') -> loop_ok 0 0 [] g' l'.
Proof.
  intros Hl Hs. inversion Hs as [? ? ? i path oflag mode Hg H|? ? src dst n Hn H
    |? ? src dst t k off sz al Hlim H|? ? st act|? ? b|? ? ? A m a H|? ? ? e H
    |? ? ? fuel v H|? ? ? v H|? ? ? fuel b H]; subst.
  - by eapply main_open_ok.
  - destruct Hl as [Ha Hc Hro Hri]. apply on_cq_inv in H as (c & H & ->).
    apply bind_inv in H as (t & c1 & Hf & H). apply fresh_run in Hf as [-> ->].
    injection H as <-. split; [|exact Hc|exact Hro|done]. by apply (accounted_track (shape_of (lq l))).
  - by eapply main_part_ok.
  - by destruct Hl.
  - by destruct Hl.
  - by destruct (loop_ok_keeps _ _ _ _ _ _ _ _ (keeps_with_os _) Hl H).
  - injection H as <-. by apply loop_ok_error.
  - exact (add_one_ok _ _ _ _ _ _ _ Hl H).
  - by destruct (loop_ok_keeps _ _ _ _ _ _ _ _ (keeps_on_ring _) Hl H).
  - exact (complete_one_ok _ _ _ _ _ _ Hl H).
Qed.

Lemma sys_steps_ok s s' : loop_ok 0 0 [] s.2 s.1 -> sys_steps s s' -> loop_ok 0 0 [] s'.2 s'.1.
Proof.
  intros Hl Hs. induction Hs as [|[l g] [l1 g1] s2 H Hs IH]; [done|]. by apply IH, (sys_step_ok l g).
Qed.

(** ** The submit thread's loop as steps *)

(** The loop of the submit thread stays in any relation its three actions are in. *)
Section loop_runs.
Context (R : loop W -> loop W -> Prop).
Context (Rrefl : forall l, R l l) (Rtrans : forall l1 l2 l3, R l1 l2 -> R l2 l3 -> R l1 l3).
Context (Rstart : forall l l' fuel v, add_one cfg rand fuel l = Ok (v, l') -> R l l').
Context (Renter : forall l l' v, on_cq (on_queue (on_ring io_uring_submit)) l = Ok (v, l') -> R l l').
Context (Rcomplete : forall l l' fuel b, complete_one cfg fuel l = Ok (b, l') -> R l l').

Lemma add_loop_runs n fuel k l v l' : add_loop cfg rand n fuel k l = Ok (v, l') -> R l l'.
Proof.
  revert k l. induction n as [|n IH]; intros k l H; [done|]. cbn [add_loop] in H.
  apply bind_inv in H as ([b m] & l1 & H1 & H). eapply Rtrans; [by eapply Rstart|].
  destruct b; [apply ret_inv in H as [_ ->]; apply Rrefl|by eapply IH].
Qed.

Lemma submit_retry_runs n l v l' : submit_retry n l = Ok (v, l') -> R l l'.
Proof.
  revert l. induction n as [|n IH]; intros l H; [done|]. cbn [submit_retry] in H.
  apply bind_inv in H as (r & l1 & H1 & H). eapply Rtrans; [by eapply Renter|].
  destruct (_ || _); [by eapply IH|apply ret_inv in H as [_ ->]; apply Rrefl].
Qed.

Lemma complete_loop_runs n fuel l v l' : complete_loop cfg n fuel l = Ok (v, l') -> R l l'.
Proof.
  revert l. induction n as [|n IH]; intros l H; [done|]. cbn [complete_loop] in H.
  apply bind_inv in H as (q & l1 & Hg & H). injection Hg as <- <-.
  destruct (_ =? 0); [apply ret_inv in H as [_ ->]; apply Rrefl|].
  apply bind_inv in H as (b & l1 & H1 & H). eapply Rtrans; [by eapply Rcomplete|].
  destruct b; [by eapply IH|apply ret_inv in H as [_ ->]; apply Rrefl].
Qed.

(** Running [submitLoop] to its end: actions, and then the buffer at hand goes back. *)
Lemma submitLoop_runs n inner fuel l l' :
  submitLoop cfg rand n inner fuel l = Ok (LoopReturned, l') ->
  exists l1, R l l1 /\
    cq_state (lp_cq l1) = AdditionComplete /\ keepAliveCount (qu_counters (lq l1)) = 0 /\
    ((nextBuffer l1 = 0 /\ l' = l1) \/
     (nextBuffer l1 <> 0 /\ exists h, Heap.returnBlock (nextBuffer l1) (qu_heap (lq l1)) = Ok (tt, h) /\
        l' = lp_set_queue (set_heap h (lq l1)) l1)).
Proof.
  revert l. induction n as [|n IH]; intros l H; [done|]. cbn [submitLoop] in H.
  apply bind_inv in H as (k & l1 & H1 & H). apply add_loop_runs in H1.
  apply bind_inv in H as ([] & l2 & H2 & H).
  assert (R l1 l2) as S2.
  { destruct (negb _); [|apply ret_inv in H2 as [_ ->]; apply Rrefl].
    apply bind_inv in H2 as (v & l3 & H3 & H2). apply assert_inv in H2 as [_ ->].
    by eapply submit_retry_runs. }
  apply bind_inv in H as ([] & l3 & H3 & H). apply complete_loop_runs in H3.
  assert (R l l3) as S by eauto.
  apply bind_inv in H as (b & l4 & H4 & H). apply on_cq_inv in H4 as (c & H4 & ->).
  apply gets_inv in H4 as [-> ->]. assert (lp_set_cq (lp_cq l3) l3 = l3) as E by (by destruct l3).
  rewrite E in H. destruct (is_complete _ && _) eqn:Hd.
  2:{ destruct (IH l3 H) as (l5 & S5 & He). exists l5. split; [by eapply Rtrans|done]. }
  exists l3. split; [done|]. apply andb_prop in Hd as [Hd1 Hd2]. apply Z.eqb_eq in Hd2.
  split; [by destruct (cq_state (lp_cq l3))|]. split; [done|].
  apply bind_inv in H as (l5 & l6 & Hg & H). injection Hg as <- <-.
  destruct (match completionAction (lp_cq l3) with
            | ExitProcessNoCleanup => negb (showingProgress (lp_cq l3)) | Return => false end); [done|].
  apply bind_inv in H as ([] & l5 & H5 & H). apply ret_inv in H as [_ ->].
  destruct (Z.eqb_spec (nextBuffer l3) 0) as [E0|E0]; cbn [negb] in H5.
  { left. split; [done|]. by apply ret_inv in H5 as [_ ->]. }
  right. split; [done|]. apply bind_inv in H5 as (q & l6 & Hg & H5). injection Hg as <- <-.
  fold (lq l3) in H5. destruct (Heap.returnBlock _ _) as [[[] h]| |] eqn:Hrb; [|done..].
  exists h. split; [done|]. by injection H5 as <-.
Qed.
End loop_runs.

#[local] Hint Constructors sys_step sys_steps : core.
#[local] Hint Resolve sys_steps_trans : core.

Lemma add_loop_steps n fuel k l v l' g :
  add_loop cfg rand n fuel k l = Ok (v, l') -> sys_steps (l, g) (l', g).
Proof. apply (add_loop_runs (fun l l' => sys_steps (l, g) (l', g))); eauto. Qed.

Lemma submit_retry_steps n l v l' g : submit_retry n l = Ok (v, l') -> sys_steps (l, g) (l', g).
Proof. apply (submit_retry_runs (fun l l' => sys_steps (l, g) (l', g))); eauto. Qed.

Lemma complete_loop_steps n fuel l v l' g :
  complete_loop cfg n fuel l = Ok (v, l') -> sys_steps (l, g) (l', g).
Proof. apply (complete_loop_runs (fun l l' => sys_steps (l, g) (l', g))); eauto. Qed.

Lemma submitLoop_steps n inner fuel l l' g :
  submitLoop cfg rand n inner fuel l = Ok (LoopReturned, l') ->
  exists l1, sys_steps (l, g) (l1, g) /\
    cq_state (lp_cq l1) = AdditionComplete /\ keepAliveCount (qu_counters (lq l1)) = 0 /\
    ((nextBuffer l1 = 0 /\ l' = l1) \/
     (nextBuffer l1 <> 0 /\ exists h, Heap.returnBlock (nextBuffer l1) (qu_heap (lq l1)) = Ok (tt, h) /\
        l' = lp_set_queue (set_heap h (lq l1)) l1)).
Proof. apply (submitLoop_runs (fun l l' => sys_steps (l, g) (l', g))); eauto. Qed.

(** The buffer at hand goes back. *)
Lemma give_back_ok l h :
  loop_ok 0 0 [] NotAdding l -> Heap.returnBlock (nextBuffer l) (qu_heap (lq l)) = Ok (tt, h) ->
  nextBuffer l <> 0 ->
  accounted 0 (sh_set_heap h (shape_of (lq l))) 0 (waiting l) (next_addr (lp_cq l)) NotAdding.
Proof.
  intros [(Hw & [files Hf] & Hb & Hr) _ _ _] Hrb Hne. split_and!; [by destruct Hw| | |by destruct Hr].
  { exists files. by destruct Hf. }
  cbn. pose proof Hb as [Hh Hbase Hu Hi Hn]. pose proof (Heap.ho_size _ Hh).
  eapply blocks_return; [exact Hb|exact Hrb|by right|done| |done|].
  - intros i Hir Hni. split; [|done]. split; [congruence|]. cbn in *.
    unfold Heap.block_at in *. nia.
  - intros a o Ho E. apply Hne. by apply (Hn a o).
Qed.

(** ** Adding a file as steps *)

Definition cutting (src dst t k : Z) : stage := if k =? 0 then NotAdding else Cutting src dst t k.

Lemma part_loop_steps fuel src dst total cs al t i off l i' c' :
  part_loop fuel src dst total cs al t i off (lp_cq l) = Ok (i', c') ->
  0 <= i -> i + Z.of_nat fuel < 2 ^ 31 -> 0 <= keepAliveCount (qu_counters (lq l)) ->
  keepAliveCount (qu_counters (lq l)) + Z.of_nat fuel < 2 ^ 32 ->
  i <= i' /\ (off <> total -> i < i') /\
  sys_steps (l, cutting src dst t (i' - i)) (lp_set_cq c' l, NotAdding).
Proof.
  revert i off l. induction fuel as [|n IH]; intros i off l H Hi Hlim Hk Hklim;
    cbn [part_loop] in H; destruct (Z.eqb_spec off total) as [Eo|Eo]; try done.
  1, 2: apply ret_inv in H as [-> ->]; split; [lia|]; split; [done|]; unfold cutting;
    rewrite Z.sub_diag; assert (lp_set_cq (lp_cq l) l = l) as -> by (by destruct l); apply sys_refl.
  apply bind_inv in H as ([] & c1 & H1 & H). set (l1 := lp_set_cq c1 l).
  assert (on_cq (addCopyJobPart src dst off (Z.min cs (u64 (total - off))) al t) l = Ok (tt, l1)) as Hp
    by (unfold on_cq; by rewrite H1).
  apply addCopyJobPart_inv in H1 as (E & _). apply (f_equal sh_alive) in E.
  cbn [sh_alive with_runner] in E.
  change (keepAliveCount (qu_counters (lq l1)) = u32 (keepAliveCount (qu_counters (lq l)) + 1)) in E.
  rewrite wrap_small in E by (unfold in_u; lia).
  rewrite (sext_small 32 (i + 1)) in H by (unfold in_s; lia).
  destruct (IH (i + 1) _ l1 H) as (I1 & I2 & I3); [lia..|].
  split; [lia|]. split; [lia|]. eapply sys_next; [|exact I3].
  unfold cutting at 1. destruct (Z.eqb_spec (i' - i) 0); [lia|].
  pose proof (main_part l l1 src dst t (i' - i) off (Z.min cs (u64 (total - off))) al) as Hm.
  unfold cutting. replace (i' - (i + 1)) with (i' - i - 1) by lia.
  destruct (Z.eqb_spec (i' - i) 1); destruct (Z.eqb_spec (i' - i - 1) 0); try lia;
    (apply Hm; [lia|done]).
Qed.

(** [addCopyJob] is a sequence of the main thread's critical sections. *)
Lemma addCopyJob_steps fuel i1 i2 src dest st l c' :
  addCopyJob fuel i1 i2 src dest st (lp_cq l) = Ok (tt, c') ->
  Z.of_nat fuel < 2 ^ 31 -> 0 <= keepAliveCount (qu_counters (lq l)) ->
  keepAliveCount (qu_counters (lq l)) + Z.of_nat fuel + 1 < 2 ^ 32 ->
  sys_steps (l, NotAdding) (lp_set_cq c' l, NotAdding).
Proof.
  intros H Hf Hk Hklim. unfold addCopyJob in H.
  set (o1 := Z.lor O_RDONLY _) in H. set (o2 := Z.lor (Z.lor O_WRONLY O_CREAT) _) in H.
  apply bind_inv in H as (s & c1 & H1 & H). apply fresh_run in H1 as [-> ->].
  apply bind_inv in H as ([] & c2 & H2 & H). apply bind_inv in H as (d & c3 & H3 & H).
  apply fresh_run in H3 as [-> ->]. apply bind_inv in H as ([] & c4 & H4 & H).
  apply bind_inv in H as (t & c5 & H5 & H). apply fresh_run in H5 as [-> ->].
  set (s := next_addr (lp_cq l)) in *. set (l2 := lp_set_cq c2 l).
  assert (sys_step (l, NotAdding) (l2, Opening [s])) as S1.
  { apply (main_open l l2 NotAdding i1 src o1 0); [by left|].
    unfold on_cq. rewrite fresh_bind. fold s. by rewrite H2. }
  set (l4 := lp_set_cq c4 l). set (d := next_addr c2) in *.
  assert (sys_step (l2, Opening [s]) (l4, Opening [s; d])) as S2.
  { apply (main_open l2 l4 (Opening [s]) i2 dest o2 (stx_mode st)); [right; by exists s|].
    unfold on_cq. rewrite fresh_bind. change (lp_cq l2) with c2. fold d. by rewrite H4. }
  assert (keepAliveCount (qu_counters (cq_queue c4)) = keepAliveCount (qu_counters (lq l))) as Ek.
  { apply on_queue_inv in H4 as (q4 & H4 & ->). apply new_qfd_shape, (f_equal sh_alive) in H4.
    apply on_queue_inv in H2 as (q2 & H2 & ->). apply new_qfd_shape, (f_equal sh_alive) in H2.
    exact (eq_trans H4 H2). }
  set (t := next_addr c4) in *.
  assert (forall n, 0 < n -> exists l5,
    on_queue (modify (fun q => set_chunks (<[t := n]> (qu_chunks q)) q)) (cq_set_next (t + 1) c4)
      = Ok (tt, lp_cq l5) /\ lp_set_cq (lp_cq l5) l = l5 /\
    qu_counters (lq l5) = qu_counters (cq_queue c4) /\
    sys_step (l4, Opening [s; d]) (l5, Cutting s d t n)) as S3.
  { intros n Hn. eexists (lp_set_cq _ l). split; [reflexivity|]. split; [done|]. split; [done|].
    apply (main_track l4 _ s d n Hn). reflexivity. }
  unfold add_parts in H. destruct (Z.eqb_spec (stx_size st) 0) as [E0|E0].
  - destruct (S3 1) as (l5 & H5 & Hl5 & Ec & S); [lia|]. rewrite (bind_ok _ _ _ _ _ H5) in H.
    do 3 (eapply sys_next; [done|]). eapply sys_next; [|apply sys_refl].
    apply (main_part l5 (lp_set_cq c' l) s d t 1 0 0 0); [rewrite Ec, Ek; lia|].
    unfold on_cq. by rewrite H, <- Hl5.
  - apply bind_inv in H as (h & c6 & Hg & H). injection Hg as _ <-.
    apply bind_inv in H as ([] & c6 & Ha & H). apply assert_inv in Ha as [_ ->].
    set (n := if negb _ then _ else _) in H.
    destruct (bind_inv _ _ _ _ H) as ([] & c6 & H6 & H').
    apply bind_inv in H' as (i' & c7 & H7 & Hi). apply assert_inv in Hi as [Hi ->].
    apply Z.eqb_eq in Hi. injection H6 as <-.
    set (l5 := lp_set_cq (cq_set_queue (set_chunks (<[t := n]> (qu_chunks (cq_queue c4)))
      (cq_queue c4)) (cq_set_next (t + 1) c4)) l).
    destruct (part_loop_steps _ _ _ _ _ _ _ 0 0 l5 _ _ H7) as (I1 & I2 & I3);
      [lia|lia|cbn; rewrite Ek; lia|cbn; rewrite Ek; lia|].
    specialize (I2 ltac:(lia)). rewrite Z.sub_0_r in I3. subst i'.
    unfold cutting in I3. destruct (Z.eqb_spec n 0); [lia|].
    do 2 (eapply sys_next; [done|]). eapply sys_next; [|exact I3].
    apply (main_track l4 _ s d n); [lia|reflexivity].
Qed.
End system.
