(* ===== verification/Demo.v ===== *)
(** * A disk, for the witnesses

    A kernel that serves the reads and writes of one file: every entry submitted
    completes at once, reads stop at the end of the file, and a request linked to one
    that was cut short is cancelled.  Opens succeed with the next descriptor. *)

From stdpp Require Import gmap strings.
From S2P Require Import Prelude Abi Prep RingBuf Ring SqSpec CqSpec Kernel Queue Os Util Heap Eta CopyState FileDesc Runner CopyQueue SubmitLoop.
Import Eta.Rolling Eta.ETA.

Record disk : Type := mk_disk {
  dk_size : Z;       (** of the file read *)
  dk_fd : Z;         (** the next descriptor *)
  dk_written : Z;    (** the bytes written *)
}.

#[export] Instance DiskFiles : Files disk := {|
  f_open w path oflag mode := (mk_disk (dk_size w) (dk_fd w + 1) (dk_written w), dk_fd w, 0);
  f_close w fd := (w, 0, 0);
|}.

(** One entry: the result, and whether the link to the next one is severed. *)
Definition serve (w : disk) (severed : bool) (e : io_uring_sqe) : disk * Z * bool :=
  if severed then (w, - ECANCELED, false)
  else if sqe_opcode e =? op_code IORING_OP_READ then
    let n := Z.min (sqe_len e) (Z.max 0 (dk_size w - sqe_off e)) in
    (w, n, flag_set (sqe_flags e) IOSQE_IO_LINK && (n <? sqe_len e))
  else (mk_disk (dk_size w) (dk_fd w) (dk_written w + sqe_len e), sqe_len e, false).

Fixpoint serve_all (w : disk) (severed : bool) (es : list io_uring_sqe) (q : io_uring_cq)
    : disk * io_uring_cq :=
  match es with
  | [] => (w, q)
  | e :: es =>
      let '(w, n, severed) := serve w severed e in
      serve_all w severed es (cq_kernel_post (mk_cqe (sqe_user_data e) n 0) q)
  end.

Definition disk_enter (w : disk) (r : io_uring) (fd sub mn fl : Z) (a : enter_arg) (sz : Z)
    : disk * io_uring * Z * Z :=
  let n := Z.max 0 (Z.min sub (sq_pending (r_sq r))) in
  let es := match kernel_reads (r_sq r) n with Some es => es | None => [] end in
  let '(w, q) := serve_all w false es (r_cq r) in
  (w, set_cq q (set_sq (sq_kernel_update n 0 0 (r_sq r)) r), n, 0).

#[export] Instance DiskKernel : Kernel disk := {| sys_enter := disk_enter |}.

(** A queue on the disk, with a ring of 4 entries and two buffers of 8192 bytes. *)
Definition disk_queue (size : Z) : queue disk :=
  mk_queue (mk_ost (mk_disk size 3 0) 0)
    (mk_ring (sq_fresh 2 0) (mk_cq 0 0 7 8 (Some 0) 0 (replicate 8 (mk_cqe 0 0 0))) 0 9 0)
    (Heap.mk_heap [false; false] 8192 2 8192 4096) 16 2 (mk_counters 0 0 0 0 0) ∅ ∅ ∅.

Definition disk_loop (size : Z) : loop disk :=
  mk_loop (mk_cqueue (disk_queue size) 4 [] 0 eta0 false [] Idle Return false 1) 0 [] 0.

(** A file of [size] bytes added and the addition declared complete. *)
Definition disk_added (size : Z) : loop disk :=
  match addCopyJob 10 false false "a" "b" (mk_statx size 4096 0) (lp_cq (disk_loop size)) with
  | Ok (_, c) => lp_set_cq (cq_set_state AdditionComplete Return c) (disk_loop size)
  | _ => disk_loop size
  end.

(** The submit thread, run to its end. *)
Definition disk_run (size : Z) : res (loop_end * loop disk) :=
  submitLoop (mk_config false false) (fun _ => 0) 20 20 20 (disk_added size).
