(* ===== verification/SystemSpec.v ===== *)
(** * What the two threads of a copy queue guarantee

    Reachable states have no lost runner, no dangling pointer and no block of the
    heap with two owners; and a submit thread that returns has released everything.
    The witnesses run the whole program on a kernel that serves reads and writes of
    one file. *)

From stdpp Require Import gmap strings.
From S2P Require Import Prelude Abi Prep RingBuf Ring SqSpec Kernel Queue Os Util Heap Eta CopyState FileDesc Runner RunnerData CopyQueue SubmitLoop Shape Accounts System Demo.
Import Eta.Rolling Eta.ETA.

(** A queue to which nothing was added. *)
Record starting {W} (l : loop W) : Prop := {
  st_runners : qu_runners (lq l) = ∅;
  st_chunks : qu_chunks (lq l) = ∅;
  st_qfds : qu_qfds (lq l) = ∅;
  st_alive : keepAliveCount (qu_counters (lq l)) = 0;
  st_subs : submissionsRunning (qu_counters (lq l)) = 0;
  st_heap : Heap.heap_ok (qu_heap (lq l)) /\ 0 < Heap.data (qu_heap (lq l));
  st_unused : forall i, ~ Heap.used_at (qu_heap (lq l)) i;
  st_buffer : nextBuffer l = 0;
  st_waiting : copiesPendingStart (lp_cq l) = [] /\ copiesPendingContinue l = [];
  st_count : copiesPendingStartCount (lp_cq l) = 0;
  st_next : 0 < next_addr (lp_cq l);
  st_ring : 0 <= ringSize (lp_cq l) < 2 ^ 32;
}.

Lemma starting_ok {W} (l : loop W) : starting l -> loop_ok 0 0 [] NotAdding l.
Proof.
  intros [R1 R2 R3 R4 R5 [R6 R6'] R7 R8 [R9 R9'] R10 R11 R12].
  assert (shape_of (lq l) = mk_shape (qu_heap (lq l)) 0 0 ∅ ∅ ∅) as E
    by (unfold shape_of; by rewrite R1, R2, R3, R4, R5, fmap_empty, dom_empty_L).
  split; [|by rewrite R10, R9| |by destruct R12].
  2:{ unfold outstanding. rewrite E. change (0 + 0 <= ringSize (lp_cq l)). lia. }
  unfold waiting. rewrite E, R8, R9, R9'. split_and!.
  - split; cbn; try done; [constructor|]. intros a. split; [by intros ?%elem_of_nil|].
    by intros (o & ? & _).
  - exists ∅. split; cbn; try done. intros p. split; [set_solver|].
    intros [?%elem_of_nil|(t & x & y & ? & _)]; done.
  - split; cbn; try done. intros i Hi. split; [by intros ?%R7|].
    pose proof (Heap.ho_size _ R6). intros [E0|(a & o & ? & _)]; [|done]. unfold Heap.block_at in E0. nia.
  - by split.
Qed.

Section guarantees.
Context {W : Type} {F : Files W} {K : Kernel W} (cfg : config) (rand : Z -> Z).
Implicit Types (l : loop W).

(** Reachable from an empty queue, whatever the threads did in between. *)
Definition reachable (l : loop W) (g : stage) : Prop :=
  exists l0, starting l0 /\ sys_steps cfg rand (l0, NotAdding) (l, g).

Lemma reachable_ok l g : reachable l g -> loop_ok 0 0 [] g l.
Proof.
  intros (l0 & Hs & H). exact (sys_steps_ok _ _ (l0, NotAdding) (l, g) (starting_ok _ Hs) H).
Qed.

Lemma alive_size (m : gmap Z CopyRunner) :
  alive (owner_of <$> m) = Z.of_nat (base.size m).
Proof.
  induction m as [|a r m Ha IH] using map_ind; [done|].
  rewrite fmap_insert, map_size_insert_None by done. unfold alive in *.
  rewrite total_insert by (by rewrite lookup_fmap, Ha). lia.
Qed.

(** The part of a reachable state one runner depends on. *)
Lemma owner_facts l g a r :
  loop_ok 0 0 [] g l -> qu_runners (lq l) !! a = Some r ->
  0 <= jobsRunning r <= 2 /\ (jobsRunning r = 0 <-> a ∈ waiting l) /\
  is_Some (qu_qfds (lq l) !! sourceFd r) /\ is_Some (qu_qfds (lq l) !! destFd r) /\
  is_Some (qu_chunks (lq l) !! chunksRemaining r).
Proof.
  intros [(Hw & [files Hf] & _) _ _ _] Hr. pose proof (shape_owner _ _ _ Hr) as Ho.
  pose proof (wk_jobs _ _ _ Hw _ _ Ho) as Hj. pose proof (fl_owner _ _ _ Hf _ _ Ho) as Hfo.
  cbn [ow_jobs ow_tracker ow_src ow_dst owner_of] in *.
  split; [done|]. split; [|split; [|split]].
  - rewrite (wk_idle _ _ _ Hw a). split; [by exists (owner_of r)|]. intros (o & Ho' & E).
    assert (o = owner_of r) as -> by congruence. done.
  - apply elem_of_dom, (fl_keys _ _ _ Hf). right. eexists _, _, _. split; [exact Hfo|by left].
  - apply elem_of_dom, (fl_keys _ _ _ Hf). right. eexists _, _, _. split; [exact Hfo|by right].
  - apply elem_of_dom. change (qu_chunks (lq l)) with (sh_chunks (shape_of (lq l))).
    rewrite <- (fl_dom _ _ _ Hf). apply elem_of_dom. eauto.
Qed.
End guarantees.

(** C6: no runner is ever lost or started twice.  Whatever the interleaving of the
    two threads, every live runner either waits, exactly once, in one of the two
    pending queues and has no request outstanding, or has one or two requests
    outstanding and waits in neither.  The atomic counters are exact: the runners
    alive, the requests outstanding, the copies waiting to start; and the requests
    never exceed the size of the ring, so that completions cannot overflow it. *)
Theorem no_runner_lost {W} {F : Files W} {K : Kernel W} cfg rand (l : loop W) g :
  reachable cfg rand l g ->
  let q := lq l in
  (forall a r, qu_runners q !! a = Some r ->
     0 <= jobsRunning r <= 2 /\ (jobsRunning r = 0 <-> a ∈ waiting l)) /\
  NoDup (waiting l) /\ (forall a, a ∈ waiting l -> is_Some (qu_runners q !! a)) /\
  keepAliveCount (qu_counters q) = Z.of_nat (base.size (qu_runners q)) /\
  submissionsRunning (qu_counters q) = outstanding q /\ outstanding q <= ringSize (lp_cq l) /\
  copiesPendingStartCount (lp_cq l) = u32 (zlen (copiesPendingStart (lp_cq l))).
Proof.
  intros Hr q. apply reachable_ok in Hr as Hl. pose proof (outstanding_nonneg _ _ _ _ _ Hl) as Hn.
  destruct Hl as [Hacc Hc Hro Hri]. destruct Hacc as ([W1 W2 W3 W4 W5 W6] & _).
  split_and!; try done.
  - intros a r Ha. by destruct (owner_facts l g a r (reachable_ok _ _ _ _ Hr) Ha) as (? & ? & _).
  - intros a Ha. apply W6 in Ha as (o & Ho & _). apply owner_runner in Ho as (r & Hra & _). by exists r.
  - cbn in W1, W2. rewrite alive_size in W1, W2. unfold q. rewrite W1, wrap_small; [done|].
    unfold in_u. lia.
  - change (submissionsRunning (qu_counters q) = u32 (outstanding q + 0)) in W3.
    rewrite W3, Z.add_0_r, wrap_small; [done|]. unfold in_u. fold q in Hn, Hro. lia.
  - fold q in Hro. lia.
Qed.

(** ** Ownership *)

Lemma sharing_size t (m : gmap Z CopyRunner) :
  sharing t (owner_of <$> m) =
    Z.of_nat (base.size (filter (fun kv => chunksRemaining (snd kv) = t) m)).
Proof.
  unfold sharing. induction m as [|a r m Ha IH] using map_ind; [done|].
  rewrite fmap_insert, total_insert, IH by (by rewrite lookup_fmap, Ha).
  cbn [ow_tracker owner_of]. case_z.
  - rewrite map_filter_insert_True by done. rewrite map_size_insert_None; [lia|].
    apply map_lookup_filter_None. by left.
  - rewrite map_filter_insert_False by done. rewrite delete_id by done. lia.
Qed.

Lemma sharing_owner t (m : gmap Z CopyRunner) :
  0 < sharing t (owner_of <$> m) -> exists a r, m !! a = Some r /\ chunksRemaining r = t.
Proof.
  rewrite sharing_size. intros H.
  destruct (map_choose (filter (fun kv => chunksRemaining (snd kv) = t) m)) as (a & r & Hr).
  { intros E. rewrite E in H. by rewrite map_size_empty in H. }
  apply map_lookup_filter_Some in Hr as [Hr Ht]. by exists a, r.
Qed.

(** The main thread still holds the descriptor [p]. *)
Definition being_added (p : Z) (g : stage) : Prop :=
  match g with
  | NotAdding => False
  | Opening l => p ∈ l
  | Cutting src dst _ _ => p = src \/ p = dst
  end.

(** C12: no pointer of a runner dangles and no descriptor is left behind.  In every
    reachable state the descriptors and the tracker a runner points to exist;
    a tracker counts the live runners of its file and the parts still to be added,
    and is never 0; every descriptor object is in use by a live runner or by the file
    being added; and runners with a descriptor in common belong to the same file. *)
Theorem no_dangling_no_leak {W} {F : Files W} {K : Kernel W} cfg rand (l : loop W) g :
  reachable cfg rand l g ->
  let q := lq l in
  (forall a r, qu_runners q !! a = Some r ->
     is_Some (qu_qfds q !! sourceFd r) /\ is_Some (qu_qfds q !! destFd r) /\
     is_Some (qu_chunks q !! chunksRemaining r)) /\
  (forall t n, qu_chunks q !! t = Some n -> 0 < n /\
     n = Z.of_nat (base.size (filter (fun kv => chunksRemaining (snd kv) = t) (qu_runners q))) +
         to_come t g) /\
  (forall p, is_Some (qu_qfds q !! p) -> being_added p g \/
     exists a r, qu_runners q !! a = Some r /\ (p = sourceFd r \/ p = destFd r)) /\
  (forall a b ra rb, qu_runners q !! a = Some ra -> qu_runners q !! b = Some rb ->
     sourceFd ra = sourceFd rb \/ sourceFd ra = destFd rb \/ destFd ra = destFd rb ->
     chunksRemaining ra = chunksRemaining rb /\ sourceFd ra = sourceFd rb /\ destFd ra = destFd rb).
Proof.
  intros Hr q. apply reachable_ok in Hr as Hl. destruct Hl as [(Hw & [files Hf] & _) _ _ _].
  split_and!.
  - intros a r Ha. by destruct (owner_facts l g a r (reachable_ok _ _ _ _ Hr) Ha) as (_ & _ & ?).
  - intros t n Ht. rewrite <- sharing_size. by apply (fl_chunks _ _ _ Hf t n).
  - intros p Hp. apply elem_of_dom, (fl_keys _ _ _ Hf) in Hp as [Hp|(t & x & y & Ht & Hp)].
    { left. by destruct g; try apply elem_of_nil in Hp. }
    assert (is_Some (qu_chunks q !! t)) as [n Hn].
    { apply elem_of_dom. change (qu_chunks q) with (sh_chunks (shape_of (lq l))).
      rewrite <- (fl_dom _ _ _ Hf). apply elem_of_dom. eauto. }
    destruct (fl_chunks _ _ _ Hf t n Hn) as [Hn0 En].
    destruct (Z_lt_le_dec 0 (sharing t (owner_of <$> qu_runners q))) as [Hs|Hs].
    + right. apply sharing_owner in Hs as (a & r & Ha & Hat). exists a, r. split; [done|].
      pose proof (fl_owner _ _ _ Hf a _ (shape_owner _ _ _ Ha)) as Hfo.
      cbn [ow_tracker ow_src ow_dst owner_of] in Hfo. rewrite Hat, Ht in Hfo. by injection Hfo as -> ->.
    + left. change (sh_owners (shape_of (lq l))) with (owner_of <$> qu_runners q) in En.
      destruct g as [| |src dst t' k]; cbn in En; [lia|lia|].
      destruct (Z.eqb_spec t' t) as [->|]; [|lia].
      destruct (fl_cut _ _ _ Hf _ _ _ _ eq_refl) as [_ Hc]. rewrite Ht in Hc.
      by injection Hc as -> ->.
  - intros a b ra rb Ha Hb Hsame.
    pose proof (fl_owner _ _ _ Hf a _ (shape_owner _ _ _ Ha)) as Fa.
    pose proof (fl_owner _ _ _ Hf b _ (shape_owner _ _ _ Hb)) as Fb.
    cbn [ow_tracker ow_src ow_dst owner_of] in *.
    destruct (Z.eq_dec (chunksRemaining ra) (chunksRemaining rb)) as [Et|Et].
    + rewrite Et, Fb in Fa. by injection Fa as -> ->.
    + destruct (fl_apart _ _ _ Hf _ _ _ _ _ _ Et Fa Fb) as (?&?&?&?). by destruct Hsame as [?|[?|?]].
Qed.

(** C30: no two runners ever write to the same memory and no buffer is lost.  In
    every reachable state a block of the heap is marked used exactly when a runner
    has it or the submit thread has it at hand, and it has one owner only. *)
Theorem buffers_have_one_owner {W} {F : Files W} {K : Kernel W} cfg rand (l : loop W) g :
  reachable cfg rand l g ->
  let q := lq l in let h := qu_heap q in
  (forall i, 0 <= i < Heap.blocks h ->
     (Heap.used_at h i <-> nextBuffer l = Heap.block_at h i \/
        exists a r, qu_runners q !! a = Some r /\ buffer r = Heap.block_at h i)) /\
  (forall a b ra rb, qu_runners q !! a = Some ra -> qu_runners q !! b = Some rb ->
     buffer ra = buffer rb -> buffer ra <> 0 -> a = b) /\
  (forall a r, qu_runners q !! a = Some r -> buffer r = nextBuffer l -> nextBuffer l = 0).
Proof.
  intros Hr q h. apply reachable_ok in Hr as [(_ & _ & [Hh Hb Hu Hi Hn] & _) _ _ _].
  split_and!.
  - intros i Hir. etransitivity; [exact (Hu i Hir)|]. split; (intros [?|(a & r & Ha & E)]; [by left|right]).
    + apply owner_runner in Ha as (r' & Ha & ->). by exists a, r'.
    + exists a, (owner_of r). split; [by apply shape_owner|done].
  - intros a b ra rb Ha Hb'. apply (Hi a b (owner_of ra) (owner_of rb)); by apply shape_owner.
  - intros a r Ha. apply (Hn a (owner_of r)). by apply shape_owner.
Qed.

(** The state a submit thread leaves behind is one to start from. *)
Definition rested {W} (l : loop W) : loop W := mk_loop (lp_cq l) 0 [] (lp_rand l).

Lemma unused_all_free h :
  Heap.heap_ok h -> (forall i, ~ Heap.used_at h i) ->
  Heap.getFreeBlocksCount h = Heap.blocks h.
Proof.
  intros Hh Hno. unfold Heap.getFreeBlocksCount. rewrite <- (Heap.ho_len _ Hh).
  rewrite list_filter_all_false; [done|]. apply Forall_lookup. intros k b Hk. destruct b; [|done].
  destruct (Hno (Z.of_nat k)). unfold Heap.used_at, zget. case_z; [lia|]. by rewrite Nat2Z.id.
Qed.

Section returned.
Context {W : Type} {F : Files W} {K : Kernel W} (cfg : config) (rand : Z -> Z).

Lemma returned_starting n inner fuel (l l' : loop W) :
  reachable cfg rand l NotAdding ->
  submitLoop cfg rand n inner fuel l = Ok (LoopReturned, l') ->
  starting (rested l') /\ waiting l' = [] /\ cq_state (lp_cq l') = AdditionComplete.
Proof.
  intros Hr H. apply (submitLoop_steps _ _ _ _ _ _ _ NotAdding) in H as (l1 & Hs & Hst & Hk & Hend).
  assert (loop_ok 0 0 [] NotAdding l1) as Hl.
  { exact (sys_steps_ok _ _ (l, NotAdding) (l1, NotAdding) (reachable_ok _ _ _ _ Hr) Hs). }
  pose proof (outstanding_nonneg _ _ _ _ _ Hl) as Hn.
  assert (accounted 0 (shape_of (lq l')) 0 (waiting l') (next_addr (lp_cq l')) NotAdding /\
    sh_alive (shape_of (lq l')) = 0 /\ cq_state (lp_cq l') = AdditionComplete /\
    copiesPendingStartCount (lp_cq l') = u32 (zlen (copiesPendingStart (lp_cq l'))) /\
    0 <= ringSize (lp_cq l') < 2 ^ 32) as (Ha & H0 & Hst' & Hc & Hri).
  { destruct Hl as [Ha Hc Hro Hri] eqn:E. clear E.
    destruct Hend as [[Hnb ->]|(Hnb & h & Hrb & ->)]; split_and!; try done; try lia.
    - by rewrite Hnb in Ha.
    - exact (give_back_ok l1 h Hl Hrb Hnb).
    - cbn. lia. }
  assert (waiting l' = []) as Hw.
  { destruct Ha as ([W1 W2 _ _ _ W6] & _). destruct (waiting l') as [|a rest]; [done|].
    destruct (proj1 (W6 a)) as (o & Ho & _); [by left|].
    assert (sh_owners (shape_of (lq l')) = ∅) as Ee.
    { apply alive_zero. assert (0 <= alive (sh_owners (shape_of (lq l')))) by (by apply total_nonneg).
      rewrite W1, wrap_small in H0 by (unfold in_u; lia). done. }
    by rewrite Ee in Ho. }
  rewrite Hw in Ha. destruct (accounted_empty _ _ Ha H0) as (E1 & E2 & E3 & E4 & E5).
  destruct Ha as (_ & _ & [Hh Hb Hu _ _] & [Hnx _ _ _]). apply app_eq_nil in Hw as Hw'.
  split; [|done]. split; try done.
  - by apply fmap_empty_inv in E1.
  - by apply dom_empty_inv_L.
  - intros i Hi. 
    assert (0 <= i < Heap.blocks (sh_heap (shape_of (lq l')))) as Hir
      by (rewrite <- (Heap.ho_len _ Hh); exact (zget_range _ _ _ Hi)).
    pose proof (Heap.ho_size _ Hh). apply Hu in Hi as [E0|(a & o & Hao & _)]; [| |done].
    + unfold Heap.block_at in E0. cbn in *. nia.
    + by rewrite E1 in Hao.
  - split; [apply Hw'|done].
  - change (copiesPendingStartCount (lp_cq l') = 0). by rewrite Hc, (proj1 Hw').
Qed.
End returned.

(** C7: a submit thread that returns has released everything.  Whatever was copied,
    failed or interleaved before, when submitLoop returns no runner, tracker or
    descriptor object is left, nothing waits, no request is outstanding and every
    block of the heap is free: the assertions of join hold. *)
Theorem returned_loop_leaves_nothing {W} {F : Files W} {K : Kernel W} cfg rand n inner fuel
    (l l' : loop W) :
  reachable cfg rand l NotAdding ->
  submitLoop cfg rand n inner fuel l = Ok (LoopReturned, l') ->
  let q := lq l' in
  qu_runners q = ∅ /\ qu_chunks q = ∅ /\ qu_qfds q = ∅ /\ waiting l' = [] /\
  submissionsRunning (qu_counters q) = 0 /\
  Heap.getFreeBlocksCount (qu_heap q) = Heap.blocks (qu_heap q) /\
  cq_state (lp_cq l') = AdditionComplete.
Proof.
  intros Hr H q. destruct (returned_starting _ _ _ _ _ _ _ Hr H) as ([] & Hw & Hst).
  split_and!; try done. apply unused_all_free; [by destruct st_heap0|done].
Qed.

(** ** A run *)

Lemma disk_starting size : starting (disk_loop size).
Proof.
  assert (Heap.heap_ok (qu_heap (lq (disk_loop size)))) as Hh by (split; by vm_compute).
  split; try reflexivity; try (by split).
  intros i Hi. pose proof (zget_range _ _ _ Hi) as Hr. unfold Heap.used_at in Hi.
  change (0 <= i < 2) in Hr. assert (i = 0 \/ i = 1) as [-> | ->] by lia; done.
Qed.

(** A file of 20000 bytes was added, in three chunks. *)
Lemma disk_reachable cfg rand : reachable cfg rand (disk_added 20000) NotAdding.
Proof.
  exists (disk_loop 20000). split; [apply disk_starting|].
  assert (exists c, addCopyJob 10 false false "a" "b" (mk_statx 20000 4096 0)
    (lp_cq (disk_loop 20000)) = Ok (tt, c)) as [c H].
  { eexists. vm_compute. reflexivity. }
  unfold disk_added. rewrite H. eapply sys_steps_trans.
  - apply (addCopyJob_steps _ _ _ _ _ _ _ _ _ _ H); vm_compute; congruence.
  - eapply sys_next; [|apply sys_refl].
    apply (main_state _ _ (lp_set_cq c (disk_loop 20000)) NotAdding AdditionComplete Return).
Qed.

Definition plain : config := mk_config false false.

Lemma no_runner_lost_witness :
  let l := disk_added 20000 in
  NoDup (waiting l) /\ zlen (waiting l) = 3 /\
  keepAliveCount (qu_counters (lq l)) = Z.of_nat (base.size (qu_runners (lq l))).
Proof.
  destruct (no_runner_lost plain (fun _ => 0) (disk_added 20000) NotAdding
    (disk_reachable plain (fun _ => 0))) as (_ & Hd & _ & Hk & _).
  split; [exact Hd|]. split; [by vm_compute|exact Hk].
Defined.

Lemma no_dangling_no_leak_witness :
  let q := lq (disk_added 20000) in
  (forall t n, qu_chunks q !! t = Some n -> 0 < n /\
    n = Z.of_nat (base.size (filter (fun kv => chunksRemaining (snd kv) = t) (qu_runners q))) + 0) /\
  qu_chunks q !! 3 = Some 3.
Proof.
  destruct (no_dangling_no_leak plain (fun _ => 0) (disk_added 20000) NotAdding
    (disk_reachable plain (fun _ => 0))) as (_ & Ht & _ & _).
  split; [exact Ht|by vm_compute].
Defined.

Lemma buffers_have_one_owner_witness :
  let q := lq (disk_added 20000) in
  Heap.used_at (qu_heap q) 0 <-> nextBuffer (disk_added 20000) = Heap.block_at (qu_heap q) 0 \/
    exists a r, qu_runners q !! a = Some r /\ buffer r = Heap.block_at (qu_heap q) 0.
Proof.
  destruct (buffers_have_one_owner plain (fun _ => 0) (disk_added 20000) NotAdding
    (disk_reachable plain (fun _ => 0))) as (Hu & _ & _).
  apply Hu. split; by vm_compute.
Defined.

(** The run copies all 20000 bytes and ends with the heap free. *)
Lemma returned_loop_leaves_nothing_witness :
  exists l', disk_run 20000 = Ok (LoopReturned, l') /\
    dk_written (o_world (qu_os (lq l'))) = 20000 /\
    qu_runners (lq l') = ∅ /\ Heap.getFreeBlocksCount (qu_heap (lq l')) = 2.
Proof.
  assert (exists l', disk_run 20000 = Ok (LoopReturned, l') /\
    dk_written (o_world (qu_os (lq l'))) = 20000 /\ Heap.blocks (qu_heap (lq l')) = 2)
    as (l' & H & Hw & Hb).
  { eexists. split; [vm_compute; reflexivity|by vm_compute]. }
  destruct (returned_loop_leaves_nothing plain (fun _ => 0) 20 20 20 (disk_added 20000) l'
    (disk_reachable plain (fun _ => 0)) H) as (Hr & _ & _ & _ & _ & Hf & _).
  exists l'. split; [exact H|]. split; [exact Hw|]. split; [exact Hr|]. by rewrite Hf, Hb.
Defined.

(** ** What adding a file does to the books

    Adding uses addresses and creates runners, no more of these than of those; it leaves
    the state of the queue and the heap of buffers alone. *)

(** ** Addresses bound the runners *)

(** No more runners are alive than addresses were used. *)
Definition covered {W} (c : cqueue W) : Prop :=
  0 <= keepAliveCount (qu_counters (cq_queue c)) <= next_addr c.

(** A part of an addition keeps the state of the queue, the heap and the bound. *)
Definition booked {W A} (m : prog (cqueue W) A) : Prop :=
  forall c a c', m c = Ok (a, c') -> cq_state c' = cq_state c /\
    qu_heap (cq_queue c') = qu_heap (cq_queue c) /\ next_addr c <= next_addr c' /\ (covered c -> covered c').

Create HintDb booked.

Section booked.
Context {W : Type} {F : Files W}.

Lemma booked_ret {A} (a : A) : booked (W := W) (ret a).
Proof. by intros c b c' [= _ <-]. Qed.

Lemma booked_nofuel {A} : booked (W := W) (A := A) no_fuel.
Proof. by intros c b c' [=]. Qed.

Lemma booked_gets {A} (f : cqueue W -> A) : booked (gets f).
Proof. by intros c b c' [= _ <-]. Qed.

Lemma booked_assert b : booked (W := W) (assert b).
Proof. intros c u c' H. by apply assert_inv in H as [_ ->]. Qed.

Lemma booked_bind {A B} (m : prog (cqueue W) A) (k : A -> prog (cqueue W) B) :
  booked m -> (forall a, booked (k a)) -> booked (bind m k).
Proof.
  intros Hm Hk c b c' H. apply bind_inv in H as (a & c1 & H1 & H2).
  destruct (Hm _ _ _ H1) as (<- & <- & N1 & R1). destruct (Hk _ _ _ _ H2) as (? & ? & N2 & R2).
  split_and!; [done..|lia|auto].
Qed.

Lemma booked_fresh : booked (W := W) fresh.
Proof. intros c a c' H. apply fresh_run in H as [-> ->]. unfold covered. cbn. split_and!; [done..|lia|lia]. Qed.

(** An operation of the queue that changes neither the count of runners nor the heap. *)
Lemma booked_queue {A} (m : prog (queue W) A) :
  (forall q a q', m q = Ok (a, q') -> sh_alive (shape_of q') = sh_alive (shape_of q) /\
     sh_heap (shape_of q') = sh_heap (shape_of q)) ->
  booked (on_queue m).
Proof.
  intros Hm c a c' H. apply on_queue_inv in H as (q & H & ->). pose proof (Hm _ _ _ H) as [E Eh].
  split; [done|]. split; [exact Eh|]. split; [done|]. unfold covered. cbn.
  change (keepAliveCount (qu_counters q) = keepAliveCount (qu_counters (cq_queue c))) in E.
  by rewrite E.
Qed.

Lemma booked_new_qfd i p path oflag mode : booked (W := W) (on_queue (new_qfd i p path oflag mode)).
Proof. apply booked_queue. intros q a q' H. by rewrite (new_qfd_shape _ _ _ _ _ _ _ _ H). Qed.

Lemma booked_tracker t n :
  booked (W := W) (on_queue (modify (fun q => set_chunks (<[t := n]> (qu_chunks q)) q))).
Proof. apply booked_queue. by intros q a q' ->%modify_inv. Qed.

Lemma booked_part sfd dfd o s al t : booked (W := W) (addCopyJobPart sfd dfd o s al t).
Proof.
  intros c u c' H. apply addCopyJobPart_inv in H as (E & En & _ & _ & Es & _). split; [done|].
  split; [exact (f_equal sh_heap E)|]. split; [lia|]. intros [R1 R2]. apply (f_equal sh_alive) in E. unfold covered. rewrite En.
  change (keepAliveCount (qu_counters (cq_queue c')) =
    u32 (keepAliveCount (qu_counters (cq_queue c)) + 1)) in E.
  rewrite E. unfold wrap. pose proof (Z.mod_pos_bound (keepAliveCount (qu_counters (cq_queue c)) + 1) (2 ^ 32) eq_refl).
  pose proof (Z.mod_le (keepAliveCount (qu_counters (cq_queue c)) + 1) (2 ^ 32)). lia.
Qed.
#[local] Hint Resolve booked_ret booked_nofuel booked_gets booked_assert booked_fresh booked_new_qfd
  booked_tracker booked_part : booked.

Ltac booked :=
  repeat first
    [ progress intros
    | solve [auto with booked]
    | apply booked_bind
    | match goal with |- booked (if ?b then _ else _) => destruct b end ].

Lemma booked_part_loop fuel sfd dfd total cs al t i o :
  booked (W := W) (part_loop fuel sfd dfd total cs al t i o).
Proof. revert i o. induction fuel as [|n IH]; intros i o; cbn [part_loop]; booked. Qed.
#[local] Hint Resolve booked_part_loop : booked.

Lemma booked_addCopyJob fuel i1 i2 a b st : booked (W := W) (addCopyJob fuel i1 i2 a b st).
Proof. unfold addCopyJob, add_parts. booked. Qed.
End booked.

