(* ===== verification/Lifecycle.v ===== *)
(** * The life of a copy queue (src/src/CopyQueue.cpp, src/src/CopyQueue.hpp)

    Its constructor and destructor, [start], [join] and [exitProcess].  Creating a thread is not
    modelled: after [start] the steps of System.v interleave.  [join] waits for the
    submit thread, so the rest of [submitLoop] runs inside it. *)

From stdpp Require Import gmap strings.
From S2P Require Import Prelude Abi Prep RingBuf Ring SqSpec CqSpec Kernel Queue Os SimOs Setup SetupSpec Util Heap Eta CopyState FileDesc Runner RunnerData CopyQueue SubmitLoop Shape Accounts System Demo SystemSpec.
Import Eta.Rolling Eta.ETA.

Definition minimumFileDescriptorCap : Z := RESERVED_FD_COUNT + RESERVED_HIGH_PRIORITY_FD_COUNT.

(** The rings io_uring_setup(2) made: empty, with the sizes it reported. *)
Definition made_ring (rp : ring_ptrs) (p : io_uring_params) : io_uring :=
  let n := p_sq_entries p in let m := p_cq_entries p in
  mk_ring
    (mk_sq 0 0 (n - 1) n 0 0 (replicate (Z.to_nat n) 0) (replicate (Z.to_nat n) zero_sqe) 0 0)
    (mk_cq 0 0 (m - 1) m (Some 0) 0 (replicate (Z.to_nat m) (mk_cqe 0 0 0)))
    (rp_flags rp) (rp_ring_fd rp) (rp_features rp).

(** The constructor; [Heap] was built by the caller. *)
Definition CopyQueue_new {W} {O : Os W} (requestedRingSize cap : Z) (h : Heap.heap)
    : prog (ost W) (ring_ptrs * cqueue W) :=
  do* assert (minimumFileDescriptorCap <=? cap) in
  let* (ret_, rp, params) :=
    io_uring_queue_init_params (u32 requestedRingSize) zero_rp (init_params 0) in
  do* assert (ret_ =? 0) in
  let* o := get in
  ret (rp, mk_cqueue
    (mk_queue o (made_ring rp params) h cap RESERVED_FD_COUNT (mk_counters 0 0 0 0 0) ∅ ∅ ∅)
    (p_sq_entries params) [] 0 eta0 false [] Idle Return false 1).

(** The destructors.  free(3) of a null pointer does nothing; the list of flags is freed
    too.  The mutex of the queue is not locked when its threads are gone. *)
Definition Heap_delete {W} {O : Os W} (h : Heap.heap) : prog (ost W) unit :=
  match Heap.destroy h with
  | Ok (data, _) => if data =? 0 then ret tt else free data
  | Fault f => raise f
  | NoFuel => no_fuel
  end.

Definition CopyQueue_delete {W} {O : Os W} (rp : ring_ptrs) (c : cqueue W) : prog (ost W) unit :=
  do* io_uring_queue_exit rp in
  Heap_delete (qu_heap (cq_queue c)).

Section life.
Context {W : Type} {F : Files W} {K : Kernel W} (cfg : config) (rand : Z -> Z).

(** [tty]: standard error is a terminal and TERM is set. *)
Definition start (tty : bool) : prog (cqueue W) unit :=
  let* st := gets cq_state in
  do* assert (is_idle st) in
  do* modify (fun c => cq_set_state Running (completionAction c) c) in
  modify (cq_set_showing tty).

(** How a call ends: the process is gone with a status, or it returns. *)
Inductive outcome : Type := Exited (status : Z) | Joined (success : bool).

Definition exitProcess : prog (cqueue W) outcome :=
  let* e := gets errored in ret (Exited (Z.b2z e)).

Definition reset_totals (c : counters) : counters :=
  mk_counters (keepAliveCount c) (submissionsRunning c) 0 0 0.

(** Before and after [pthread_join(this->submitThread)]. *)
Definition join_begin (act : OnCompletionAction) : prog (cqueue W) unit :=
  let* st := gets cq_state in
  do* assert (is_running st) in
  modify (cq_set_state AdditionComplete act).

Definition join_end : prog (cqueue W) outcome :=
  let* q := gets cq_queue in
  do* assert (submissionsRunning (qu_counters q) =? 0) in
  do* assert (Heap.getFreeBlocksCount (qu_heap q) =? Heap.blocks (qu_heap q)) in
  let* c := get in
  (* the progress thread ends the process when it is asked to stop *)
  if showingProgress c && match completionAction c with ExitProcessNoCleanup => true | _ => false end
  then exitProcess
  else
    do* modify (fun c => cq_set_state Idle (completionAction c) c) in
    do* on_queue (on_counters reset_totals) in
    let* e := gets errored in
    do* modify (cq_set_errored false) in
    ret (Joined (negb e)).

Definition join (n inner fuel : nat) (act : OnCompletionAction) : prog (loop W) outcome :=
  do* on_cq (join_begin act) in
  let* e := submitLoop cfg rand n inner fuel in
  match e with
  | ProcessExited => on_cq exitProcess
  | LoopReturned => on_cq join_end
  end.
End life.

(** ** Making and destroying *)

Section made.
Context {W : Type} {O : Os W} {L : OsLaws W}.
Implicit Types (o : ost W).

Lemma CopyQueue_new_inv n cap h o rp c o1 :
  CopyQueue_new n cap h o = Ok ((rp, c), o1) ->
  exists p, io_uring_queue_init_params (u32 n) zero_rp (init_params 0) o = Ok ((0, rp, p), o1) /\
    ringSize c = p_sq_entries p /\ qu_heap (cq_queue c) = h.
Proof.
  intros H. apply bind_inv in H as (u & o2 & Ha & H). apply assert_inv in Ha as [_ ->].
  apply bind_inv in H as ([[v rp'] p] & o2 & Hi & H).
  apply bind_inv in H as (u2 & o3 & Ha & H). apply assert_inv in Ha as [Hv ->].
  apply Z.eqb_eq in Hv as ->. injection H as <- <- <-. by exists p.
Qed.

Lemma new_world n cap h o rp c o1 :
  CopyQueue_new n cap h o = Ok ((rp, c), o1) -> qu_os (cq_queue c) = o1.
Proof.
  intros H. apply bind_inv in H as (u & o2 & Ha & H). apply assert_inv in Ha as [_ ->].
  apply bind_inv in H as ([[v rp'] p] & o2 & Hi & H).
  apply bind_inv in H as (u2 & o3 & Ha & H). apply assert_inv in Ha as [_ ->]. by injection H as <- <- <-.
Qed.

(** A queue to start from. *)
Lemma new_starting n cap h o rp c o1 r :
  Heap.heap_ok h -> 0 < Heap.data h -> (forall i, ~ Heap.used_at h i) ->
  CopyQueue_new n cap h o = Ok ((rp, c), o1) -> in_u 32 (ringSize c) -> starting (mk_loop c 0 [] r).
Proof.
  intros Hh Hb Hu H Hr. apply bind_inv in H as (u & o2 & Ha & H). apply assert_inv in Ha as [_ ->].
  apply bind_inv in H as ([[v rp'] p] & o2 & Hi & H).
  apply bind_inv in H as (u2 & o3 & Ha & H). apply assert_inv in Ha as [_ ->].
  injection H as <- <- <-. by split.
Qed.

(** What is left of a heap that was moved needs nothing. *)
Lemma moved_deleted h o : Heap_delete (snd (Heap.move h)) o = Ok (tt, o).
Proof. done. Qed.

Lemma heap_deleted h o :
  Heap.heap_ok h -> Heap.getFreeBlocksCount h = Heap.blocks h -> 0 < Heap.data h ->
  Heap.data h ∈ os_heap (o_world o) ->
  exists o', Heap_delete h o = Ok (tt, o') /\ owns (o_world o') = del_block (Heap.data h) (owns (o_world o)).
Proof.
  intros Hh Hf Hd Ho. unfold Heap_delete. rewrite Heap.destroy_run, Hf, Z.eqb_refl by done.
  case_z; [lia|]. eexists. split; [done|]. by apply free_law.
Qed.

(** The ring is unmapped and closed, and the memory of the heap freed. *)
Lemma queue_deleted n cap h o rp c o1 c' o2 :
  CopyQueue_new n cap h o = Ok ((rp, c), o1) -> owns (o_world o2) = owns (o_world o1) ->
  os_read32 (o_world o2) (sp_kring_entries (rp_sq rp)) = ringSize c ->
  let h' := qu_heap (cq_queue c') in
  Heap.heap_ok h' -> Heap.getFreeBlocksCount h' = Heap.blocks h' -> Heap.data h' = Heap.data h ->
  0 < Heap.data h -> Heap.data h ∈ os_heap (o_world o) ->
  exists o3, CopyQueue_delete rp c' o2 = Ok (tt, o3) /\
    owns (o_world o3) = del_block (Heap.data h) (owns (o_world o)).
Proof.
  intros (p & Hi & Hr & _)%CopyQueue_new_inv Ho Hn h' Hh Hf Hd Hpos Hin. rewrite Hr in Hn.
  destruct (init_exit_roundtrip W O L _ _ _ _ _ _ _ _ Hi Ho Hn) as (o3 & He & Ho3).
  destruct (heap_deleted h' o3 Hh Hf) as (o4 & H4 & Ho4); [by rewrite Hd|by rewrite Hd, (owns_heap _ _ Ho3)|].
  exists o4. unfold CopyQueue_delete. rewrite (bind_ok _ _ _ _ _ He). split; [done|].
  by rewrite Ho4, Ho3, Hd.
Qed.
End made.

(** ** Errors *)

(** Errors are only ever added, and [errored] says that there are some; addresses are
    not used twice. *)
Definition errs {W} (l l' : loop W) : Prop :=
  exists es, errorMessages (lp_cq l') = errorMessages (lp_cq l) ++ es /\
    errored (lp_cq l') = errored (lp_cq l) || negb (bool_decide (es = [])) /\
    next_addr (lp_cq l) <= next_addr (lp_cq l').

(** A relation of states that has the steps of the submit thread: on the queue, on what
    the loop keeps for itself, and reporting an error. *)
Class LoopRel {W} (R : loop W -> loop W -> Prop) : Prop := {
  lr_refl l : R l l;
  lr_trans l1 l2 l3 : R l1 l2 -> R l2 l3 -> R l1 l3;
  lr_same l l' : errorMessages (lp_cq l') = errorMessages (lp_cq l) ->
    errored (lp_cq l') = errored (lp_cq l) -> next_addr (lp_cq l') = next_addr (lp_cq l) ->
    cq_state (lp_cq l') = cq_state (lp_cq l) -> R l l';
  lr_error e l : R l (lp_set_cq (cq_add_error e (lp_cq l)) l);
}.

Definition along {W A} (R : loop W -> loop W -> Prop) (m : prog (loop W) A) : Prop :=
  forall l a l', m l = Ok (a, l') -> R l l'.

Notation reports := (along errs).

Create HintDb reports.

Section errs.
Context {W : Type}.
Implicit Types (l : loop W).

Lemma errs_refl l : errs l l.
Proof. exists []. by rewrite app_nil_r, orb_false_r. Qed.

Lemma errs_trans l1 l2 l3 : errs l1 l2 -> errs l2 l3 -> errs l1 l3.
Proof.
  intros (e1 & M1 & B1 & N1) (e2 & M2 & B2 & N2). exists (e1 ++ e2).
  rewrite M2, M1, B2, B1, app_assoc. split; [done|]. split; [|lia].
  rewrite <- orb_assoc. f_equal. destruct e1, e2; by repeat case_bool_decide.
Qed.

Lemma errs_same l l' :
  errorMessages (lp_cq l') = errorMessages (lp_cq l) -> errored (lp_cq l') = errored (lp_cq l) ->
  next_addr (lp_cq l) <= next_addr (lp_cq l') -> errs l l'.
Proof. intros E1 E2 E3. exists []. by rewrite E1, E2, app_nil_r, orb_false_r. Qed.

#[export] Instance errs_rel : LoopRel (W := W) errs.
Proof.
  split; [apply errs_refl|apply errs_trans|intros; apply errs_same; [done..|lia]|].
  intros e l. exists [e]. split; [done|]. cbn. by rewrite orb_true_r.
Qed.
End errs.

Section reports.
Context {W : Type} {F : Files W} {K : Kernel W} (cfg : config) (rand : Z -> Z).
Context {R : loop W -> loop W -> Prop} {LR : LoopRel R}.
Implicit Types (l : loop W).

Lemma reports_ret {A} (a : A) : along R (ret a).
Proof. intros l b l' H. apply ret_inv in H as [_ ->]. apply lr_refl. Qed.

Lemma reports_raise {A} f : along (A := A) R (raise f).
Proof. by intros l b l' [=]. Qed.

Lemma reports_nofuel {A} : along (A := A) R no_fuel.
Proof. by intros l b l' [=]. Qed.

Lemma reports_get : along R get.
Proof. intros l b l' [= _ <-]. apply lr_refl. Qed.

Lemma reports_gets {A} (f : loop W -> A) : along R (gets f).
Proof. intros l b l' [= _ <-]. apply lr_refl. Qed.

Lemma reports_assert b : along R (assert b).
Proof. intros l u l' H. apply assert_inv in H as [_ ->]. apply lr_refl. Qed.

Lemma reports_bind {A B} (m : prog (loop W) A) (k : A -> prog (loop W) B) :
  along R m -> (forall a, along R (k a)) -> along R (bind m k).
Proof.
  intros Hm Hk l b l' H. apply bind_inv in H as (a & l1 & H1 & H2).
  eapply lr_trans; [by eapply Hm|by eapply Hk].
Qed.

Lemma reports_queue {A} (m : prog (queue W) A) : along R (on_cq (on_queue m)).
Proof. intros l a l' H. apply lift_inv in H as (q & _ & ->). by apply lr_same. Qed.

Lemma reports_modify (f : loop W -> loop W) : (forall l, R l (f l)) -> along R (modify f).
Proof. intros Hf l u l' H. apply modify_inv in H as ->. apply Hf. Qed.

Lemma reports_cq_modify (f : cqueue W -> cqueue W) :
  (forall c, errorMessages (f c) = errorMessages c /\ errored (f c) = errored c /\
     next_addr (f c) = next_addr c /\ cq_state (f c) = cq_state c) ->
  along R (on_cq (modify f)).
Proof.
  intros Hf l u l' H. apply on_cq_inv in H as (c & H & ->). apply modify_inv in H as ->.
  destruct (Hf (lp_cq l)) as (E1 & E2 & E3 & E4). by apply lr_same.
Qed.

Lemma reports_onError e : along R (on_cq (onError e)).
Proof.
  intros l u l' H. apply on_cq_inv in H as (c & H & ->). apply modify_inv in H as ->.
  apply lr_error.
Qed.

Lemma reports_isDone : along R (on_cq isDone).
Proof. intros l u l' H. apply on_cq_inv in H as (c & [= _ <-] & ->). by apply lr_same. Qed.

Lemma reports_next_rand : along R (next_rand rand).
Proof. intros l u l' [= _ <-]. by apply lr_same. Qed.
End reports.

#[export] Hint Resolve reports_ret reports_raise reports_nofuel reports_get reports_gets
  reports_assert reports_queue reports_onError reports_isDone reports_next_rand : reports.

Ltac report_all :=
  repeat first
    [ progress intros
    | solve [eauto with reports]
    | apply reports_bind
    | match goal with |- along _ (if ?b then _ else _) => destruct b end
    | match goal with |- along _ (match ?x with _ => _ end) => destruct x end
    | (apply reports_modify; intros; by apply lr_same)
    | (apply reports_cq_modify; intros; done) ].

Section errors.
Context {W : Type} {F : Files W} {K : Kernel W} (cfg : config) (rand : Z -> Z).
Context {R : loop W -> loop W -> Prop} {LR : LoopRel R}.

Lemma reports_report r : along R (report r).
Proof. unfold report. report_all. Qed.
#[local] Hint Resolve reports_report : reports.

Lemma reports_must_wait : along R must_wait.
Proof. unfold must_wait. report_all. Qed.

Lemma reports_reserve : along R reserve_buffer.
Proof. unfold reserve_buffer, get_queue. report_all. Qed.

Lemma reports_take_continue : along R take_continue.
Proof. unfold take_continue. report_all. Qed.

Lemma reports_take_start : along R take_start.
Proof. unfold take_start, get_queue. report_all. Qed.

Lemma reports_add_empty fuel this : along R (add_empty fuel this).
Proof. unfold add_empty. report_all. Qed.
#[local] Hint Resolve reports_must_wait reports_reserve reports_take_continue reports_take_start
  reports_add_empty : reports.

Lemma reports_add_one fuel : along R (add_one cfg rand fuel).
Proof. unfold add_one, add_one_seen. report_all. Qed.

Lemma reports_on_result this v : along R (on_result this v).
Proof. destruct v; unfold on_result; report_all. Qed.
#[local] Hint Resolve reports_add_one reports_on_result : reports.

Lemma reports_complete_one fuel : along R (complete_one cfg fuel).
Proof. unfold complete_one, on_completion, get_queue. report_all. Qed.
#[local] Hint Resolve reports_complete_one : reports.

Lemma reports_add_loop n fuel k : along R (add_loop cfg rand n fuel k).
Proof. revert k. induction n as [|n IH]; intros k; cbn [add_loop]; report_all. Qed.

Lemma reports_submit_retry n : along R (submit_retry n).
Proof. induction n as [|n IH]; cbn [submit_retry]; report_all. Qed.

Lemma reports_complete_loop n fuel : along R (complete_loop cfg n fuel).
Proof. induction n as [|n IH]; cbn [complete_loop]; unfold get_queue; report_all. Qed.
#[local] Hint Resolve reports_add_loop reports_submit_retry reports_complete_loop : reports.

Lemma reports_submitLoop n inner fuel : along R (submitLoop cfg rand n inner fuel).
Proof. induction n as [|n IH]; cbn [submitLoop]; unfold get_queue; report_all. Qed.
End errors.

(** ** Joining *)

Section joining.
Context {W : Type} {F : Files W} {K : Kernel W} (cfg : config) (rand : Z -> Z).
Implicit Types (l : loop W).

(** What the submit thread runs on when [join] waits for it. *)
Definition completing (act : OnCompletionAction) l : loop W :=
  lp_set_cq (cq_set_state AdditionComplete act (lp_cq l)) l.

Lemma reachable_completing act l :
  reachable cfg rand l NotAdding -> reachable cfg rand (completing act l) NotAdding.
Proof.
  intros (l0 & Hs & H). exists l0. split; [done|]. eapply sys_steps_trans; [exact H|].
  eapply sys_next; [apply main_state|apply sys_refl].
Qed.

(** An idle state keeps the queue ready for another start. *)
Lemma starting_idle l q c :
  starting (rested l) -> q = set_counters (reset_totals (qu_counters (lq l))) (lq l) ->
  cq_queue c = q -> copiesPendingStart c = [] -> copiesPendingStartCount c = 0 ->
  next_addr c = next_addr (lp_cq l) -> ringSize c = ringSize (lp_cq l) ->
  starting (mk_loop c 0 [] (lp_rand l)).
Proof.
  intros [] -> E1 E2 E3 E4 E5.
  assert (lq (mk_loop c 0 [] (lp_rand l)) = set_counters (reset_totals (qu_counters (lq l))) (lq l))
    as Eq by exact E1.
  split; rewrite ?Eq; cbn; rewrite ?E2, ?E3, ?E4, ?E5; done.
Qed.
End joining.

(** What [join] does once the submit thread has ended. *)
Lemma join_ok {W} {F : Files W} {K : Kernel W} cfg rand n inner fuel act (l l1 : loop W) e :
  reachable cfg rand l NotAdding -> cq_state (lp_cq l) = Running ->
  submitLoop cfg rand n inner fuel (completing act l) = Ok (e, l1) ->
  exists out l' es,
    join cfg rand n inner fuel act l = Ok (out, l') /\
    errorMessages (lp_cq l') = errorMessages (lp_cq l) ++ es /\
    errorMessages (lp_cq l1) = errorMessages (lp_cq l) ++ es /\
    next_addr (lp_cq l) <= next_addr (lp_cq l') /\
    let failed := errored (lp_cq l) || negb (bool_decide (es = [])) in
    match out with
    | Exited status => status = Z.b2z failed
    | Joined success => success = negb failed /\ starting (rested l') /\
        cq_state (lp_cq l') = Idle /\ errored (lp_cq l') = false /\
        totalBytesToCopy (qu_counters (lq l')) = 0 /\
        totalBytesCopied (qu_counters (lq l')) = 0
    end.
Proof.
  intros Hr Hrun H. pose proof (reports_submitLoop cfg rand (R := errs) n inner fuel _ _ _ H) as (es & Hm & He & Hn).
  change (lp_cq (completing act l)) with (cq_set_state AdditionComplete act (lp_cq l)) in *.
  cbn [errorMessages errored next_addr cq_set_state] in *.
  assert (forall k, join cfg rand n inner fuel act l = k ->
    (match e with ProcessExited => on_cq exitProcess | LoopReturned => on_cq join_end end) l1 = k)
    as Hjoin.
  { intros k <-. unfold join. assert (on_cq (join_begin act) l = Ok (tt, completing act l)) as Hb.
    { unfold on_cq, join_begin, bind, gets, assert. by rewrite Hrun. }
    rewrite (bind_ok _ _ _ _ _ Hb), (bind_ok _ _ _ _ _ H). done. }
  specialize (Hjoin _ eq_refl). rewrite <- Hjoin. clear Hjoin. destruct e.
  { eexists _, _, es. split; [reflexivity|]. cbn. by rewrite Hm, He. }
  destruct (returned_starting _ _ _ _ _ _ _ (reachable_completing cfg rand act l Hr) H)
    as (Hs & Hw & _).
  unfold on_cq, join_end. unfold bind at 1, gets.
  rewrite (bind_ok _ _ (lp_cq l1) tt (lp_cq l1))
    by (unfold assert; by rewrite (st_subs _ Hs
          : submissionsRunning (qu_counters (cq_queue (lp_cq l1))) = 0)).
  rewrite (bind_ok _ _ (lp_cq l1) tt (lp_cq l1)).
  2:{ unfold assert. rewrite unused_all_free, Z.eqb_refl; [done| |apply (st_unused _ Hs)].
      apply (st_heap _ Hs). }
  unfold bind at 1, get. destruct (_ && _).
  - eexists _, _, es. split; [reflexivity|]. cbn. by rewrite Hm, He.
  - eexists _, _, es. split; [reflexivity|]. cbn. split; [by rewrite Hm|]. split; [exact Hm|]. split; [exact Hn|].
    split; [by rewrite He|].
    split; [|done]. eapply (starting_idle l1); try done; apply (st_waiting _ Hs) || apply (st_count _ Hs).
Qed.

(** C8: join reports what happened, and leaves a queue to start again.  Once the
    submit thread has ended, join always returns or ends the process, since its
    assertions hold.  The result, or the exit status, is a success exactly when no
    error was reported by either thread, and then and only then no message was
    added; a queue whose join returned is idle and empty, with its totals at 0, and
    has forgotten the errors. *)
Theorem join_correct {W} {F : Files W} {K : Kernel W} cfg rand n inner fuel act (l l1 : loop W) e :
  reachable cfg rand l NotAdding -> cq_state (lp_cq l) = Running ->
  submitLoop cfg rand n inner fuel (completing act l) = Ok (e, l1) ->
  exists out l' es,
    join cfg rand n inner fuel act l = Ok (out, l') /\
    errorMessages (lp_cq l') = errorMessages (lp_cq l) ++ es /\
    let failed := errored (lp_cq l) || negb (bool_decide (es = [])) in
    match out with
    | Exited status => status = Z.b2z failed
    | Joined success => success = negb failed /\ starting (rested l') /\
        cq_state (lp_cq l') = Idle /\ errored (lp_cq l') = false /\
        totalBytesToCopy (qu_counters (lq l')) = 0 /\
        totalBytesCopied (qu_counters (lq l')) = 0
    end.
Proof.
  intros Hr Hrun H. destruct (join_ok _ _ _ _ _ _ _ _ _ Hr Hrun H) as (out & l' & es & Hj & Hm & _ & _ & Ho).
  by exists out, l', es.
Qed.

(** The same run, joined: 20000 bytes are copied and the result is a success. *)
Definition disk_running (size : Z) : loop disk :=
  match addCopyJob 10 false false "a" "b" (mk_statx size 4096 0)
          (cq_set_state Running Return (lp_cq (disk_loop size))) with
  | Ok (_, c) => lp_set_cq c (disk_loop size)
  | _ => disk_loop size
  end.

Lemma disk_running_reachable cfg rand : reachable cfg rand (disk_running 20000) NotAdding.
Proof.
  exists (disk_loop 20000). split; [apply disk_starting|].
  set (l1 := lp_set_cq (cq_set_state Running Return (lp_cq (disk_loop 20000))) (disk_loop 20000)).
  assert (exists c, addCopyJob 10 false false "a" "b" (mk_statx 20000 4096 0) (lp_cq l1) = Ok (tt, c))
    as [c H] by (eexists; vm_compute; reflexivity).
  unfold disk_running. change (cq_set_state Running Return _) with (lp_cq l1). rewrite H.
  eapply sys_next; [apply (main_state _ _ _ NotAdding Running Return)|].
  apply (addCopyJob_steps _ _ _ _ _ _ _ _ l1 _ H); vm_compute; congruence.
Qed.

Lemma join_correct_witness :
  exists l', join plain (fun _ => 0) 20 20 20 Return (disk_running 20000) = Ok (Joined true, l') /\
    starting (rested l').
Proof.
  assert (exists l1, submitLoop plain (fun _ => 0) 20 20 20 (completing Return (disk_running 20000))
    = Ok (LoopReturned, l1)) as [l1 H] by (eexists; vm_compute; reflexivity).
  assert (exists l', join plain (fun _ => 0) 20 20 20 Return (disk_running 20000)
    = Ok (Joined true, l')) as [l2 H2] by (eexists; vm_compute; reflexivity).
  destruct (join_correct plain (fun _ => 0) 20 20 20 Return (disk_running 20000) l1 LoopReturned
    (disk_running_reachable _ _) eq_refl H) as (out & l' & es & Hj & _ & Ho).
  rewrite H2 in Hj. injection Hj as <- <-. exists l2. split; [exact H2|]. by destruct Ho as (_ & ? & _).
Defined.

(** What the display looks at, and what ends the process, are as they were. *)
Definition looks_same {W} {F : Files W} (l l' : loop W) : Prop :=
  errored (lp_cq l') = errored (lp_cq l) /\ cq_state (lp_cq l') = cq_state (lp_cq l) /\
  keepAliveCount (qu_counters (lq l')) = keepAliveCount (qu_counters (lq l)).

Section late_error.
Context {W : Type} {F : Files W} {K : Kernel W} (cfg : config) (rand : Z -> Z).
Implicit Types (l : loop W).

Lemma looks_trans l1 l2 l3 : looks_same l1 l2 -> looks_same l2 l3 -> looks_same l1 l3.
Proof. unfold looks_same. intuition congruence. Qed.

Lemma looks_queue l q : sh_alive (shape_of q) = sh_alive (shape_of (lq l)) -> looks_same l (lp_set_queue q l).
Proof. done. Qed.

Lemma reserve_looks l u l' : reserve_buffer l = Ok (u, l') -> looks_same l l'.
Proof.
  unfold reserve_buffer, get_queue, bind, get, gets, modify, ret. destruct (nextBuffer l =? 0).
  - destruct (Heap.getBlock _) as [b h]. by intros [= _ <-].
  - by intros [= _ <-].
Qed.

Lemma take_continue_looks l r l' : take_continue l = Ok (r, l') -> looks_same l l'.
Proof.
  intros H. unfold take_continue in H. apply bind_inv in H as (l0 & l1 & Hg & H). injection Hg as <- <-.
  destruct (copiesPendingContinue l) as [|a rest]; [by apply ret_inv in H as [_ ->]|].
  apply bind_inv in H as (d & l1 & Hd & H). apply lift_runner in Hd as ->.
  apply bind_inv in H as ([] & l1 & Ha & H). apply assert_inv in Ha as [_ ->].
  apply bind_inv in H as ([] & l1 & Hm & H). apply modify_inv in Hm as ->. by apply ret_inv in H as [_ ->].
Qed.

Lemma take_start_looks l r l' : take_start l = Ok (r, l') -> looks_same l l'.
Proof.
  intros H. unfold take_start in H. apply bind_inv in H as (l0 & l1 & Hg & H). injection Hg as <- <-.
  destruct (copiesPendingStart (lp_cq l)) as [|a rest]; [done|].
  apply bind_inv in H as (q & l1 & Hg & H). injection Hg as <- <-.
  apply bind_inv in H as (needs & l1 & Hn & H).
  assert (looks_same l l1) as H1.
  { apply lift_inv in Hn as (q & Hn & ->). apply looks_queue. by rewrite (keeps_needs _ _ _ _ Hn). }
  destruct (_ || _); [|by apply ret_inv in H as [_ ->]].
  apply bind_inv in H as (d & l2 & Hd & H). apply lift_runner in Hd as ->.
  apply bind_inv in H as ([] & l2 & Hb & H).
  assert (looks_same l1 l2) as H2.
  { destruct (needsBuffer d); [|by apply ret_inv in Hb as [_ ->]].
    apply bind_inv in Hb as ([] & l3 & Hb & Hm). apply modify_inv in Hm as ->.
    apply lift_inv in Hb as (q & Hb & ->).
    destruct (giveBuffer_shape _ _ _ _ _ Hb) as (o & _ & _ & E).
    apply (looks_queue l1 q). by rewrite E. }
  apply bind_inv in H as ([] & l3 & Hm & H). apply on_cq_inv in Hm as (c & Hm & ->).
  apply modify_inv in Hm as ->. apply ret_inv in H as [_ ->]. by eapply looks_trans, H2.
Qed.

(** C40: a failure to start the last runner can go unreported.  When an iteration of
    the loop ends with the error of a runner that could not be started, and it was the
    last one, there is a moment, between [delete toAdd] and [onError], at which the
    queue is done and has no error: whatever the other threads do then, they do it
    in that state.  The progress thread looks at just that and ends the process with the
    status of a success; at the end of the iteration the status is 1. *)
Theorem error_reported_too_late fuel l l2 :
  cq_state (lp_cq l) = AdditionComplete -> keepAliveCount (qu_counters (lq l)) = 1 ->
  errored (lp_cq l) = false ->
  add_one cfg rand fuel l = Ok ((true, 0), l2) -> errored (lp_cq l2) = true ->
  exists e l1,
    (forall look, add_one_seen cfg rand look fuel l =
       (do* look in do* on_cq (onError e) in ret (true, 0)) l1) /\
    on_cq isDone l1 = Ok (true, l1) /\ on_cq exitProcess l1 = Ok (Exited 0, l1) /\
    on_cq isDone l2 = Ok (true, l2) /\ on_cq exitProcess l2 = Ok (Exited 1, l2).
Proof.
  intros Hst Hk He H He2.
  assert (forall la, looks_same l la -> ret (true, 0) la = Ok ((true, 0), l2) -> False) as Hno.
  { intros la (E & _) Hr. apply ret_inv in Hr as [_ ->]. congruence. }
  unfold add_one, add_one_seen in *. apply bind_inv in H as (w & la & Hw & H).
  setoid_rewrite (bind_ok _ _ _ _ _ Hw). injection Hw as <- <-.
  destruct (_ || _ || _); [by destruct (Hno l)|].
  apply bind_inv in H as ([] & la & H1 & H). setoid_rewrite (bind_ok _ _ _ _ _ H1).
  apply reserve_looks in H1 as L1.
  apply bind_inv in H as (c & lb & H2 & H). setoid_rewrite (bind_ok _ _ _ _ _ H2).
  apply take_continue_looks in H2 as L2.
  apply bind_inv in H as (lb' & lb'' & Hg & H). setoid_rewrite (bind_ok _ _ _ _ _ Hg). injection Hg as <- <-.
  apply bind_inv in H as (toAdd & lc & H3 & H). setoid_rewrite (bind_ok _ _ _ _ _ H3).
  assert (looks_same lb lc) as L3.
  { destruct c as [a|]; [by apply ret_inv in H3 as [_ ->]|].
    destruct (_ && _); [exact (take_start_looks _ _ _ H3)|by apply ret_inv in H3 as [_ ->]]. }
  pose proof (looks_trans _ _ _ (looks_trans _ _ _ L1 L2) L3) as L. clear L1 L2 L3 H1 H2 H3.
  destruct toAdd as [this|]; [|by destruct (Hno lc)].
  apply bind_inv in H as (r & ld & Hd & H). setoid_rewrite (bind_ok _ _ _ _ _ Hd). apply lift_runner in Hd as ->.
  destruct (size r =? 0).
  { apply bind_inv in H as (? & ? & _ & H). by apply ret_inv in H as [? _]. }
  apply bind_inv in H as (n1 & l5 & H5 & H). setoid_rewrite (bind_ok _ _ _ _ _ H5).
  apply bind_inv in H as (n2 & l6 & H6 & H). setoid_rewrite (bind_ok _ _ _ _ _ H6).
  apply bind_inv in H as (res & l7 & H7 & H). setoid_rewrite (bind_ok _ _ _ _ _ H7).
  destruct res as [e|]; [|by apply ret_inv in H as [? _]].
  injection H5 as _ <-. injection H6 as _ <-. apply lift_inv in H7 as (q & H7 & ->).
  destruct (addToBatch_shape _ _ _ _ _ _ _ _ H7) as (o & _ & Es).
  apply bind_inv in H as ([] & l8 & H8 & H). setoid_rewrite (bind_ok _ _ _ _ _ H8).
  apply lift_inv in H8 as (q8 & H8 & ->).
  destruct (delete_runner_shape _ _ _ _ H8) as (o8 & n8 & h8 & _ & _ & _ & _ & _ & E8).
  apply (f_equal sh_alive) in E8. cbn [sh_alive deleted] in E8.
  change (shape_of (lq (lp_set_queue q ?x))) with (shape_of q) in E8. rewrite Es in E8.
  destruct L as (L1 & L2 & L3). cbn in L3. unfold lq in E8, L3, Hk. cbn in E8.
  rewrite L3, Hk in E8. exists e. eexists. split; [done|].
  apply bind_inv in H as ([] & l9 & H9 & H). apply ret_inv in H9 as [_ ->].
  apply bind_inv in H as ([] & l9 & H9 & H). injection H9 as <-. apply ret_inv in H as [_ ->].
  unfold on_cq, isDone, exitProcess, bind, gets. cbn. rewrite L2, Hst, L1, He, E8. done.
Qed.
End late_error.

(** A file added to a queue whose opens fail after the first, and the addition complete. *)
Definition refused_loop : loop script :=
  let q := mk_queue (mk_ost (mk_script [None; Some ENOENT; Some ENOENT] 0) 0)
    (mk_ring (sq_fresh 2 0) (mk_cq 0 0 7 8 (Some 0) 0 (replicate 8 (mk_cqe 0 0 0))) 0 9 0)
    (Heap.mk_heap [false; false] 8192 2 8192 4096) 16 2 (mk_counters 0 0 0 0 0) ∅ ∅ ∅ in
  let c := mk_cqueue q 4 [] 0 eta0 false [] Idle Return false 1 in
  match addCopyJob 10 false false "a" "b" (mk_statx 100 4096 0) c with
  | Ok (_, c) => mk_loop (cq_set_state AdditionComplete ExitProcessNoCleanup c) 0 [] 0
  | _ => mk_loop c 0 [] 0
  end.

(** The source of the only file cannot be opened; meanwhile the display looks. *)
Lemma error_reported_too_late_witness :
  exists e (l1 l2 : loop script),
    add_one plain (fun _ => 0) 20 refused_loop = Ok ((true, 0), l2) /\
    (forall look, add_one_seen plain (fun _ => 0) look 20 refused_loop =
       (do* look in do* on_cq (onError e) in ret (true, 0)) l1) /\
    on_cq exitProcess l1 = Ok (Exited 0, l1) /\ on_cq exitProcess l2 = Ok (Exited 1, l2).
Proof.
  assert (exists l2, add_one plain (fun _ => 0) 20 refused_loop = Ok ((true, 0), l2) /\
    errored (lp_cq l2) = true) as (l2 & H & He) by (eexists; split; vm_compute; reflexivity).
  destruct (error_reported_too_late plain (fun _ => 0) 20 refused_loop l2 eq_refl eq_refl eq_refl H He)
    as (e & l1 & H1 & _ & H2 & _ & H3).
  exists e, l1, l2. exact (conj H (conj H1 (conj H2 H3))).
Defined.

(** The constructor gives a queue to start from.  With room for at least four
    descriptors, a fresh heap and a setup that succeeds, the queue has no object, an
    empty ring of the size the kernel chose and two descriptors reserved; with fewer
    than four, or when the setup fails, it aborts. *)
Theorem constructor_correct {W} {O : Os W} n cap h o :
  Heap.heap_ok h -> 0 < Heap.data h -> (forall i, ~ Heap.used_at h i) ->
  match CopyQueue_new n cap h o with
  | Ok (rp, c, o') =>
      4 <= cap /\ (in_u 32 (ringSize c) -> forall r, starting (mk_loop c 0 [] r)) /\
      (exists p, io_uring_queue_init_params (u32 n) zero_rp (init_params 0) o = Ok ((0, rp, p), o') /\
        ringSize c = p_sq_entries p /\ sq_kring_entries (r_sq (qu_ring (cq_queue c))) = p_sq_entries p) /\
      cq_state c = Idle /\ fileDescriptorsUsed (cq_queue c) = 2 /\ fileDescriptorCap (cq_queue c) = cap
  | Fault f => cap < 4 \/ (exists v rp p o',
      io_uring_queue_init_params (u32 n) zero_rp (init_params 0) o = Ok ((v, rp, p), o') /\ v <> 0) \/
      io_uring_queue_init_params (u32 n) zero_rp (init_params 0) o = Fault f
  | NoFuel => io_uring_queue_init_params (u32 n) zero_rp (init_params 0) o = NoFuel
  end.
Proof.
  intros Hh Hb Hu. unfold CopyQueue_new. unfold bind at 1, assert at 1.
  change minimumFileDescriptorCap with 4. destruct (Z.leb_spec 4 cap); [|by left].
  unfold bind at 1. destruct (io_uring_queue_init_params _ _ _ o) as [[[[v rp] p] o']|f|];
    [|by right; right|done].
  unfold bind at 1, assert. destruct (Z.eqb_spec v 0) as [->|]; [|right; left; by eexists _, _, _, _].
  unfold bind, get, ret. split; [done|]. split; [|split; [by exists p|done]].
  intros Hr r. by split.
Qed.

(** A system that reports a ring of 8 entries. *)
Definition ring8 : sim :=
  mk_sim (mk_owned ∅ ∅ ∅) ∅ 8 (mk_params 8 16 0 0 0 0 0 (mk_sq_off 0 0 0 0 0 0 0 0 0)
    (mk_cq_off 0 0 0 0 0 0 0 0 0)) [].

Lemma constructor_correct_witness :
  match CopyQueue_new (O := SimOs) 8 900 (qu_heap (disk_queue 0)) (mk_ost ring8 0) with
  | Ok (_, c, _) => cq_state c = Idle /\ fileDescriptorCap (cq_queue c) = 900
  | _ => False
  end.
Proof.
  pose proof (constructor_correct (O := SimOs) 8 900 (qu_heap (disk_queue 0)) (mk_ost ring8 0)
    (proj1 (st_heap _ (disk_starting 0))) eq_refl (st_unused _ (disk_starting 0))) as H.
  destruct (CopyQueue_new 8 900 (qu_heap (disk_queue 0)) (mk_ost ring8 0)) as [[[rp c] o']|f|] eqn:E.
  - by destruct H as (_ & _ & _ & ? & _ & ?).
  - by vm_compute in E.
  - by vm_compute in E.
Defined.
