(* ===== verification/Service.v ===== *)
(** * A world that serves every request

    The laws of an operating system that opens every file it is asked to and of a
    kernel that serves every read and write it is given in full, in order, before
    io_uring_enter(2) returns.  They are what the termination of the submit thread is
    proved against.  The second half says what submitting to such a kernel and
    looking at its completions does to the rings. *)

From stdpp Require Import gmap strings.
From S2P Require Import Prelude Abi Prep RingBuf Ring SqSpec CqSpec Kernel Queue QueueSpec Os Util.

(** ** What the kernel answers *)

(** The entry's next one waits for it. *)
Definition linked (e : io_uring_sqe) : bool := flag_set (sqe_flags e) IOSQE_IO_LINK.

Section answers.
(** The paths behind the descriptors, and the lengths of the files read. *)
Context (paths : gmap Z string) (len : string -> Z).

(** A request on a descriptor that is open. *)
Definition servable (e : io_uring_sqe) : Prop :=
  match decode e with
  | Some (Read fd _ _ _) | Some (Write fd _ _ _) => is_Some (paths !! fd)
  | _ => False
  end.

(** What one entry comes to, and whether it severs its link: a read returns as much
    as the file has, a write everything. *)
Definition serve_one (e : io_uring_sqe) : Z * bool :=
  match decode e with
  | Some (Read fd _ n off) =>
      let m := Z.min n (Z.max 0 (len (default "" (paths !! fd)) - off)) in
      (m, linked e && (m <? n))
  | Some (Write _ _ n _) => (n, false)
  | _ => (0, false)
  end.

(** The user data and the result of each entry; [cut]: the first one is cancelled. *)
Fixpoint answers (cut : bool) (es : list io_uring_sqe) : list (Z * Z) :=
  match es with
  | [] => []
  | e :: es =>
      if cut then (sqe_user_data e, - ECANCELED) :: answers (linked e) es
      else
        let '(m, severed) := serve_one e in (sqe_user_data e, m) :: answers severed es
  end.
End answers.

Definition answer_of (c : io_uring_cqe) : Z * Z := (cqe_user_data c, cqe_res c).

(** What is known of the world: the open descriptors, the lengths of the files, and
    the limit on open descriptors. *)
Class View (W : Type) : Type := {
  sv_paths : W -> gmap Z string;
  sv_length : W -> string -> Z;
  sv_limit : W -> Z;
}.

(** open(2) succeeds below the limit, with a descriptor that was not open; close(2)
    succeeds; without a
    flag that defers it, io_uring_enter(2) takes every entry and has served them all
    when it returns. *)
Class ServiceLaws (W : Type) {F : Files W} {K : Kernel W} {V : View W} : Prop := {
  srv_open w path oflag mode : Z.of_nat (base.size (sv_paths w)) < sv_limit w -> exists w' fd e,
    f_open w path oflag mode = (w', fd, e) /\ 2 < fd < 2 ^ 31 /\ sv_paths w !! fd = None /\
    sv_paths w' = <[fd := path]> (sv_paths w) /\ sv_length w' = sv_length w /\ sv_limit w' = sv_limit w;
  srv_close w fd : is_Some (sv_paths w !! fd) -> exists w' e,
    f_close w fd = (w', 0, e) /\
    sv_paths w' = delete fd (sv_paths w) /\ sv_length w' = sv_length w /\ sv_limit w' = sv_limit w;
  srv_enter w r es sz :
    ring_ok r -> r_flags r = 0 -> published (sq_abs (r_sq r)) = es -> es <> [] ->
    Forall (servable (sv_paths w)) es ->
    io_uring_cq_ready (r_cq r) + zlen es <= cq_kring_entries (r_cq r) ->
    exists w' r' cs e,
      sys_enter w r (r_ring_fd r) (zlen es) 0 0 ArgNull sz = (w', r', zlen es, e) /\
      kernel_acts (zlen es) cs r r' /\
      answer_of <$> cs = answers (sv_paths w) (sv_length w) false es /\
      sv_paths w' = sv_paths w /\ sv_length w' = sv_length w /\ sv_limit w' = sv_limit w;
}.

(** ** Submitting *)

Lemma cq_posts_entries q cs q' :
  cq_posts q cs q' -> cq_kring_entries q' = cq_kring_entries q.
Proof. induction 1 as [|q c cs q' _ _ IH]; [done|]. by rewrite IH. Qed.

Lemma answers_length paths len cut es : length (answers paths len cut es) = length es.
Proof.
  revert cut. induction es as [|e es IH]; intros cut; [done|]. cbn [answers].
  destruct cut; [cbn; by rewrite (IH (linked e))|].
  destruct (serve_one _ _ _) as [m sv]. cbn. by rewrite (IH sv).
Qed.

(** The rings between two rounds: nothing queued, nothing to reap. *)
Record ring_sized (n : Z) (r : io_uring) : Prop := {
  rz_ok : ring_ok r;
  rz_flags : r_flags r = 0;
  rz_sq : sq_kring_entries (r_sq r) = n;
  rz_cq : n <= cq_kring_entries (r_cq r);
  rz_pub : published (sq_abs (r_sq r)) = [];
}.

Section service.
Context {W : Type} {F : Files W} {K : Kernel W} {V : View W} {L : ServiceLaws W}.
Implicit Types (s : ust W).

Lemma submit_served n s :
  let es := acquired (sq_abs (r_sq (u_ring s))) in
  ring_sized n (u_ring s) -> cq_contents (r_cq (u_ring s)) = [] -> es <> [] ->
  Forall (servable (sv_paths (u_world s))) es ->
  exists s' cs, io_uring_submit s = Ok (zlen es, s') /\ ring_sized n (u_ring s') /\
    cq_contents (r_cq (u_ring s')) = cs /\ acquired (sq_abs (r_sq (u_ring s'))) = [] /\
    answer_of <$> cs = answers (sv_paths (u_world s)) (sv_length (u_world s)) false es /\
    sv_paths (u_world s') = sv_paths (u_world s) /\
    sv_length (u_world s') = sv_length (u_world s) /\ sv_limit (u_world s') = sv_limit (u_world s).
Proof.
  intros es [Hok Hfl Hsq Hcq Hpub] Hc Hne Hse.
  assert (flag_set (r_flags (u_ring s)) IORING_SETUP_SQPOLL = false) as Hp by (by rewrite Hfl).
  destruct (submit_enters s 0 Hok Hp) as (s1 & (q & -> & Hq & Ha & Hqe) & Hrun).
  unfold io_uring_submit, __io_uring_submit_and_wait in *. rewrite Hrun. clear Hrun.
  assert (queued s = es) as Eq by (unfold queued; by rewrite Hpub).
  rewrite Eq in *. change (r_flags (u_ring (with_sq q s))) with (r_flags (u_ring s)).
  rewrite Hfl. cbn [negb Z.eqb orb].
  change (flag_set 0 IORING_SETUP_IOPOLL) with false. cbv iota.
  pose proof (cq_contents_len _ (proj2 Hok)) as Hcl. rewrite Hc in Hcl. change (zlen []) with 0 in Hcl.
  assert (zlen es <= n) as Hlen.
  { destruct (sq_abs_lengths _ (proj1 Hok)) as [_ Hla]. fold es in Hla.
    pose proof (sq_unflushed_range _ (proj1 Hok)).
    pose proof (sq_pending_range _ (proj1 Hok)). rewrite <- Hsq, Hla. lia. }
  destruct (srv_enter (u_world (with_sq q s)) (u_ring (with_sq q s)) es NSIG_8)
    as (w' & r' & cs & e & He & Hact & Hans & Hw'); try done.
  { split; [exact Hq|exact (proj2 Hok)]. }
  { change (published (sq_abs q) = es). by rewrite Ha. }
  { change (r_cq (u_ring (with_sq q s))) with (r_cq (u_ring s)). lia. }
  destruct (kernel_acts_ok _ _ _ _ Hact (conj Hq (proj2 Hok))) as (Hok' & Hpub' & Hacq' & Hcont').
  unfold __sys_io_uring_enter, __sys_io_uring_enter2, bind.
  change (r_ring_fd (u_ring s)) with (r_ring_fd (u_ring (with_sq q s))).
  rewrite He. destruct (Z.ltb_spec (zlen es) 0); [unfold zlen in *; lia|].
  destruct Hact as (_ & (kf & kd & Esq) & Hpo & Efl & _ & _).
  eexists _, cs. split; [done|]. cbn [u_ring u_world]. split; [|split; [|split; [|split; [|exact Hw']]]].
  - split; [done|by rewrite Efl| | |].
    + rewrite Esq. cbn. by rewrite Hqe.
    + rewrite (cq_posts_entries _ _ _ Hpo). exact Hcq.
    + change (published (sq_abs (r_sq r')) = []). rewrite Hpub'.
      change (r_sq (u_ring (with_sq q s))) with q. rewrite Ha.
      apply drop_ge. cbn. unfold zlen. lia.
  - change (cq_contents (r_cq r') = cs). rewrite Hcont'.
    change (r_cq (u_ring (with_sq q s))) with (r_cq (u_ring s)). by rewrite Hc.
  - change (acquired (sq_abs (r_sq r')) = []). rewrite Hacq'.
    change (r_sq (u_ring (with_sq q s))) with q. by rewrite Ha.
  - exact Hans.
Qed.
End service.

(** ** Looking at completions *)

Section peeking.
Context {W : Type} {K : Kernel W}.
Implicit Types (s : ust W).

(** With a completion that is no internal timeout's the peek changes nothing. *)
Lemma peek_first n s c rest :
  ring_ok (u_ring s) -> cq_contents (r_cq (u_ring s)) = c :: rest ->
  cqe_user_data c <> LIBURING_UDATA_TIMEOUT ->
  exists slot, io_uring_peek_cqe (S n) s = Ok ((0, Some slot), s) /\
    zget (cq_cqes (r_cq (u_ring s))) slot = Some c.
Proof.
  intros [_ Hc] Hcont Hud. set (q := r_cq (u_ring s)) in *.
  assert (0 < io_uring_cq_ready q) as Hr.
  { rewrite <- (cq_contents_len q Hc), Hcont. unfold zlen. cbn. lia. }
  pose proof (cq_deref q Hc (cq_khead q)) as Hz. rewrite (cq_contents_cons q Hr) in Hcont.
  injection Hcont as Hc0 _. rewrite Hc0 in Hz. exists (cqe_slot q (cq_khead q)). split; [|exact Hz].
  assert (peek_cqe s = Ok ((0, Some (cqe_slot q (cq_khead q)), io_uring_cq_ready q), s)) as Hp.
  { unfold peek_cqe, ring, gets, bind. fold q. cbn [__io_uring_peek_cqe].
    fold (io_uring_cq_ready q). destruct (Z.eqb_spec (io_uring_cq_ready q) 0); [lia|].
    rewrite Hz. destruct (Z.eqb_spec (cqe_user_data c) LIBURING_UDATA_TIMEOUT); [done|].
    unfold set_ring, modify, ret, q. by destruct s as [? [] ?]. }
  unfold io_uring_peek_cqe, io_uring_wait_cqe_nr, __io_uring_get_cqe, _io_uring_get_cqe.
  cbn [get_cqe_loop]. unfold get_cqe_iter. unfold bind at 1 2. rewrite Hp. cbn.
  unfold bind, ring, gets, get_errno. cbn. 
  by destruct (Z.ltb_spec (io_uring_cq_ready q) 0); [lia|].
Qed.

(** Giving the first completion back. *)
Lemma ring_seen n r c rest slot :
  ring_sized n r -> cq_contents (r_cq r) = c :: rest ->
  let r' := set_cq (io_uring_cqe_seen (Some slot) (r_cq r)) r in
  ring_sized n r' /\ cq_contents (r_cq r') = rest /\ r_sq r' = r_sq r.
Proof.
  intros [[Hs Hc] H1 H2 H3 H4] Hcont r'.
  destruct (cq_advance_ok (r_cq r) 1 Hc) as (Hc' & _ & He & _ & _ & _ & Hd).
  { rewrite <- (cq_contents_len _ Hc), Hcont. unfold zlen. cbn. lia. }
  split; [|split; [|done]].
  - split; done.
  - change (cq_contents (r_cq r')) with (cq_contents (io_uring_cq_advance 1 (r_cq r))).
    by rewrite Hd, Hcont.
Qed.
End peeking.
