(* ===== verification/Rounds.v ===== *)
(** * A round served in full

    One round of requests of a runner against a kernel that serves them: what its
    entries are answered, what the answers make of the runner, and how much less it
    has to do afterwards. *)

From stdpp Require Import gmap strings.
From S2P Require Import Prelude Abi Prep RingBuf Ring SqSpec Kernel Queue Os Util Heap CopyState FileDesc Runner RunnerData RunnerLive RunnerSpec SubmitLoop Service.

(** ** A runner with work left *)

Definition zeros : bytes := fun _ => 0.

(** A chunk between two rounds; what it has copied is followed elsewhere. *)
Record working (srclen : Z) (r : CopyRunner) : Prop := {
  wo_chunk : chunk_ok srclen r;
  wo_core : exists buf dst, core no_forcing zeros r buf dst [];
  wo_error : savedError r = None;
  wo_left : writeOffset r < chunk_end r;
}.

(** The parts of a runner a round leaves alone. *)
Definition same_place (r r' : CopyRunner) : Prop :=
  sourceFd r' = sourceFd r /\ destFd r' = destFd r /\ chunksRemaining r' = chunksRemaining r /\
  buffer r' = buffer r /\ bufferAligned r' = bufferAligned r /\ same_chunk r r'.

Lemma same_place_refl r : same_place r r.
Proof. by split_and!. Qed.

Lemma same_place_trans r1 r2 r3 : same_place r1 r2 -> same_place r2 r3 -> same_place r1 r3.
Proof.
  intros (A1 & A2 & A3 & A4 & A5 & A6 & A7 & A8) (B1 & B2 & B3 & B4 & B5 & B6 & B7 & B8).
  split_and!; try congruence. split_and!; congruence.
Qed.

Lemma submitted_place cfg rnd r : same_place r (submitted cfg rnd r).
Proof.
  unfold submitted. destruct (_ =? 0), (forced_partial _ _ _); cbn [negb];
    match goal with |- context [if ?b then _ else _] => destruct b end; by split_and!.
Qed.

Lemma completed_place cfg spath dpath t res r : same_place r (completed cfg spath dpath t res r).
Proof.
  unfold completed. cbn [savedError r_set_jobs]. destruct (savedError r); [by split_and!|].
  destruct t; repeat case_match; by split_and!.
Qed.

(** How many rounds a runner may still need. *)
Definition weight (r : CopyRunner) : Z :=
  if size r =? 0 then 1 else if readOffset r =? chunk_end r then 1 else 2.

Lemma weight_range r : 1 <= weight r <= 2.
Proof. unfold weight. repeat case_z; lia. Qed.

(** ** The round *)

Section round.
Context (spath dpath : string) (srclen : Z).

Definition read_len (r : CopyRunner) : Z :=
  align_up (bytes_to_read no_forcing 0 r) (alignment r).

(** The completions of a round, in order. *)
Definition round_results (r : CopyRunner) : list (event_type * Z) :=
  let n := bytes_to_read no_forcing 0 r in
  let m := Z.min (read_len r) (srclen - readOffset r) in
  let w := bytes_to_write no_forcing 0 r in
  if n =? 0 then [(EvWrite, w)]
  else [(EvRead, m); (EvWrite, if m <? read_len r then - ECANCELED else w)].

(** The runner when it has handled them. *)
Definition after (r : CopyRunner) : CopyRunner :=
  foldl (fun r '(t, n) => completed no_forcing spath dpath t n r) (submitted no_forcing 0 r)
    (round_results r).

Lemma after_full_round r buf dst :
  after r = c_runner (full_round spath dpath zeros srclen (mk_chan r buf dst [])).
Proof.
  unfold after, round_results, full_round, read_len. cbn [c_runner].
  destruct (_ =? 0); [done|]. cbn [negb andb foldl]. by destruct (_ <? _).
Qed.

Lemma after_place r : same_place r (after r).
Proof.
  unfold after. assert (forall l r1, same_place r1 (foldl (fun r '(t, n) =>
    completed no_forcing spath dpath t n r) r1 l)) as H.
  { induction l as [|[t n] l IH]; intros r1; [apply same_place_refl|]. cbn [foldl].
    eapply same_place_trans; [apply completed_place|apply IH]. }
  eapply same_place_trans; [apply submitted_place|apply H].
Qed.

Lemma round_inv r buf dst :
  chunk_ok srclen r -> core no_forcing zeros r buf dst [] ->
  chan_inv no_forcing zeros r dst (mk_chan r buf dst []).
Proof.
  intros Hck Hc. pose proof (co_dst _ _ _ _ _ _ Hc) as Hd. pose proof (co_wo _ _ _ _ _ _ Hc).
  split; cbn; try done; [apply (co_jobs _ _ _ _ _ _ Hc)|].
  intros k Hk. specialize (Hd k Hk). by rewrite Z.sub_0_r in Hd.
Qed.

(** The runner with its round outstanding. *)
Lemma submit_core r :
  working srclen r ->
  exists buf dst, core no_forcing zeros (submitted no_forcing 0 r) buf dst (round_results r).
Proof.
  intros [Hck (buf & dst & Hc) He Hw]. pose proof Hc as [C1 C2 C3 C4 _ _ _ _ _].
  destruct (bytes_to_read_spec no_forcing srclen r Hck 0 C2) as (Hb & _ & _).
  pose proof (bytes_to_write_spec no_forcing srclen r Hck 0 C4) as Hbw.
  pose proof (ck_size _ _ Hck). pose proof (ck_src _ _ Hck).
  assert (bytes_to_read no_forcing 0 r + alignment r < 2 ^ 31) as Hlt by (unfold chunk_end in *; lia).
  destruct (align_up_spec _ (alignment r) (ck_align _ _ Hck) (proj1 Hb) Hlt) as [Hup _].
  unfold round_results. fold (read_len r) in Hup.
  set (m := Z.min (read_len r) (srclen - readOffset r)).
  destruct (Z.eqb_spec (bytes_to_read no_forcing 0 r) 0) as [En|En].
  - destruct (submit_write_core no_forcing zeros srclen r buf dst 0 0 _ _ Hck Hc Hw En
      (second_write no_forcing 0 _ r buf dst _ _ eq_refl
        (write_returns r _ buf dst _ (conj (proj1 Hbw) (Z.le_refl _))))) as [Hcore _].
    by eexists _, _.
  - set (buf' := splice buf (readOffset r - offset r) m (fun k => zeros (k + offset r))).
    destruct (submit_both_core no_forcing zeros srclen r buf dst 0 0 m buf' (m <? read_len r)
      (if m <? read_len r then - ECANCELED else bytes_to_write no_forcing 0 r)
      (if m <? read_len r then dst else splice dst (writeOffset r) (bytes_to_write no_forcing 0 r)
         (fun k => buf' (k - offset r))) Hck Hc Hw En) as [Hcore _].
    + apply (read_returns zeros srclen r (read_len r) buf m); [lia|right; lia].
    + destruct (m <? read_len r); [by split|]. apply second_write; [done|]. apply write_returns. lia.
    + by eexists _, _.
Qed.

(** A round finishes the chunk, or leaves it with everything read. *)
Lemma round_works r :
  working srclen r ->
  savedError (after r) = None /\ jobsRunning (after r) = 0 /\
  (writeOffset (after r) = chunk_end (after r) \/
   working srclen (after r) /\ weight (after r) = 1 /\ weight r = 2).
Proof.
  intros [Hck (buf & dst & Hc) He Hw].
  destruct (full_round_result spath dpath zeros srclen (mk_chan r buf dst []) Hck Hc He Hw)
    as (E1 & E2 & E3 & E4). rewrite <- after_full_round in E1, E2, E3, E4. cbn [c_runner] in *.
  pose proof (full_round_steps spath dpath zeros srclen (mk_chan r buf dst []) eq_refl Hck Hc He Hw) as Hs.
  destruct (chan_steps_inv _ _ _ _ _ _ _ _ _ Hck (round_inv r buf dst Hck Hc) Hs)
    as [Hsame _ _ Hj Hwo _ Hcore].
  rewrite <- after_full_round in Hsame, Hj, Hwo, Hcore.
  specialize (Hcore E1). split; [done|]. split; [done|].
  pose proof (chunk_end_same _ _ Hsame) as Ece.
  destruct E3 as [E3|E3]; [left; congruence|]. right.
  assert (readOffset r <> chunk_end r) as Hro by (intros E; specialize (E4 E); lia).
  pose proof (ck_size _ _ Hck) as [Hsz _]. destruct Hsame as (S1 & S2 & S3).
  split_and!.
  - split; [by apply (same_chunk_ok _ r)| |done|lia]. by eexists _, _.
  - unfold weight. rewrite S2, E2, Ece, Z.eqb_refl. by case_z.
  - unfold weight. by case_z; [lia|]; case_z; [lia|].
Qed.
End round.

(** ** What a round is answered *)

Definition tag (this : Z) (p : event_type * Z) : Z * Z := (event_addr this (fst p), snd p).

Section answered.
Context (paths : gmap Z string) (len : string -> Z).

Lemma servable_entry e rq linked ud fd :
  entry_is e rq linked ud ->
  (exists b n o, rq = Read fd b n o \/ rq = Write fd b n o) -> is_Some (paths !! fd) ->
  servable paths e.
Proof.
  intros (Hd & _ & _) (b & n & o & Hr) Hp. unfold servable. rewrite Hd.
  by destruct Hr as [-> | ->].
Qed.

Lemma answer_read e fd b n o ud p es :
  entry_is e (Read fd b n o) true ud -> paths !! fd = Some p -> 0 <= o <= len p ->
  let m := Z.min n (len p - o) in
  answers paths len false (e :: es) = (ud, m) :: answers paths len (m <? n) es.
Proof.
  intros (Hd & Hf & Hu) Hp Ho m. cbn [answers]. unfold serve_one, linked. rewrite Hd, Hf, Hu, Hp.
  change (flag_set IOSQE_IO_LINK IOSQE_IO_LINK) with true.
  change (default ""%string (Some p)) with p. cbn [andb].
  by rewrite Z.max_r by lia.
Qed.

Lemma answer_write cut e fd b n o ud es :
  entry_is e (Write fd b n o) false ud ->
  answers paths len cut (e :: es) =
    (ud, if cut then - ECANCELED else n) :: answers paths len false es.
Proof.
  intros (Hd & Hf & Hu). cbn [answers]. unfold serve_one, linked. rewrite Hd, Hf, Hu.
  by destruct cut.
Qed.

(** The entries of a runner with work left are served, and answered as its round. *)
Lemma round_answered this sfd dfd rnd1 rnd2 p r es :
  working (len p) r -> paths !! sfd = Some p -> is_Some (paths !! dfd) ->
  in_s 32 sfd -> in_s 32 dfd -> 0 <= bufferAligned r ->
  bufferAligned r + size r + alignment r < 2 ^ 64 ->
  let rs := round_entries no_forcing this sfd dfd rnd1 rnd2 r in
  Forall (servable paths) rs /\
  answers paths len false (rs ++ es) =
    (tag this <$> round_results (len p) r) ++ answers paths len false es.
Proof.
  intros [Hck (buf & dst & Hc) He Hw] Hs Hd Hsf Hdf Hb1 Hb2 rs.
  destruct (core_request_ok no_forcing zeros (len p) r buf dst sfd dfd 0 0 Hck Hc Hsf Hdf Hb1 Hb2)
    as [Hrok Hwok].
  pose proof (read_entry_is this sfd (bytes_to_read no_forcing 0 r) r Hrok) as Hre.
  pose proof (write_entry_is no_forcing this dfd 0 r Hwok) as Hwe.
  pose proof (co_ro _ _ _ _ _ _ Hc) as Hro. pose proof (ck_src _ _ Hck).
  pose proof (ck_offset _ _ Hck) as [Ho _].
  assert (rs = (if bytes_to_read no_forcing 0 r =? 0 then []
                else [read_entry this sfd (bytes_to_read no_forcing 0 r) r]) ++
               [write_entry no_forcing this dfd 0 false r]) as -> by done.
  unfold round_results, read_len. destruct (_ =? 0); cbn [app fmap list_fmap].
  - split; [apply Forall_singleton; eapply servable_entry; [exact Hwe|eauto|exact Hd]|].
    by rewrite (answer_write _ _ _ _ _ _ _ _ Hwe).
  - split.
    + apply Forall_cons_2; [eapply servable_entry; [exact Hre|eauto|by exists p]|].
      apply Forall_singleton. eapply servable_entry; [exact Hwe|eauto|exact Hd].
    + rewrite (answer_read _ _ _ _ _ _ _ _ Hre Hs) by lia.
      by rewrite (answer_write _ _ _ _ _ _ _ _ Hwe).
Qed.
End answered.
