(* ===== verification/ServedFiles.v ===== *)
(** * Descriptors in a world that opens every file

    When every open and close succeeds the reservations of a queue are exactly its
    open descriptors.  [fds_serve started q] also keeps apart the descriptors of the
    files a runner was started for: those opened early, for files still waiting, leave
    the reserve for the submit thread alone. *)

From stdpp Require Import gmap strings.
From S2P Require Import Prelude Abi Prep RingBuf Ring Kernel Os Util Heap CopyState FileDesc Runner RunnerSpec SubmitLoop Service.

(** ** Counting descriptors *)

Definition count (f : Z -> QueueFileDescriptor -> bool) (m : gmap Z QueueFileDescriptor) : Z :=
  Z.of_nat (base.size (filter (fun kv => f (fst kv) (snd kv) = true) m)).

Section count.
Implicit Types (f g : Z -> QueueFileDescriptor -> bool) (m : gmap Z QueueFileDescriptor).

Lemma count_insert f m p d : count f (<[p := d]> m) = Z.b2z (f p d) + count f (delete p m).
Proof.
  unfold count. rewrite <- insert_delete_eq. set (m' := delete p m).
  assert (m' !! p = None) as Hp by apply lookup_delete_eq.
  destruct (f p d) eqn:E; simpl Z.b2z.
  - rewrite map_filter_insert_True by done. rewrite map_size_insert_None; [lia|].
    apply map_lookup_filter_None. by left.
  - rewrite map_filter_insert_False by (simpl; congruence). by rewrite delete_id by done.
Qed.

Lemma count_lookup f m p d : m !! p = Some d -> count f m = Z.b2z (f p d) + count f (delete p m).
Proof. intros Hp. by rewrite <- count_insert, insert_id. Qed.

Lemma count_mono f g m :
  (forall p d, m !! p = Some d -> f p d = true -> g p d = true) -> count f m <= count g m.
Proof.
  intros H. unfold count. apply inj_le, map_subseteq_size, map_subseteq_spec. intros p d Hp.
  apply map_lookup_filter_Some in Hp as [Hp Hf]. apply map_lookup_filter_Some. eauto.
Qed.

Lemma count_ext f g m :
  (forall p d, m !! p = Some d -> f p d = g p d) -> count f m = count g m.
Proof. intros H. apply Z.le_antisymm; apply count_mono; intros p d Hp; by rewrite (H p d Hp). Qed.

Lemma count_nonneg f m : 0 <= count f m.
Proof. unfold count. lia. Qed.
End count.

Lemma open_count_eq {W} (q : queue W) : open_count q = count (fun _ d => isOpen d) (qu_qfds q).
Proof. done. Qed.

(** ** The invariant *)

Definition early (started : gset Z) (p : Z) (d : QueueFileDescriptor) : bool :=
  isOpen d && bool_decide (p ∉ started).

Definition world {W} (q : queue W) : W := o_world (qu_os q).

Section served.
Context {W : Type} {F : Files W} {K : Kernel W} {V : View W} {L : ServiceLaws W}.
Implicit Types (q : queue W) (P : gset Z).

Record fds_serve P q : Prop := {
  fs_open : forall p d, qu_qfds q !! p = Some d ->
    q_fd d = NEVER_OPENED_VAL \/ q_fd d = CLOSED_VAL \/
    (2 < q_fd d < 2 ^ 31 /\ sv_paths (world q) !! q_fd d = Some (q_path d));
  fs_inj : forall p p' d d', qu_qfds q !! p = Some d -> qu_qfds q !! p' = Some d' ->
    isOpen d = true -> q_fd d = q_fd d' -> p = p';
  fs_used : fileDescriptorsUsed q = RESERVED_FD_COUNT + open_count q;
  fs_most : fileDescriptorsUsed q <= fileDescriptorCap q;
  fs_cap : 4 <= fileDescriptorCap q < 2 ^ 63;
  fs_early : RESERVED_FD_COUNT + count (early P) (qu_qfds q) <=
    fileDescriptorCap q - RESERVED_HIGH_PRIORITY_FD_COUNT;
  fs_started : forall p d, p ∈ P -> qu_qfds q !! p = Some d -> isOpen d = true;
  fs_room : Z.of_nat (base.size (sv_paths (world q))) <= fileDescriptorsUsed q;
  fs_limit : fileDescriptorCap q <= sv_limit (world q);
}.

(** The invariant reads only the descriptors, the reservations and the world. *)
Lemma fds_serve_same P q q' :
  fds_serve P q -> qu_qfds q' = qu_qfds q -> fileDescriptorsUsed q' = fileDescriptorsUsed q ->
  fileDescriptorCap q' = fileDescriptorCap q -> sv_paths (world q') = sv_paths (world q) ->
  sv_limit (world q') = sv_limit (world q) -> fds_serve P q'.
Proof.
  intros [H1 H2 H3 H4 H5 H6 H7 H8 H9] E1 E2 E3 E4 E5.
  split; rewrite ?open_count_eq, ?E1, ?E2, ?E3, ?E4, ?E5; try done.
Qed.

Lemma open_fd P q p d :
  fds_serve P q -> qu_qfds q !! p = Some d -> isOpen d = true ->
  2 < q_fd d < 2 ^ 31 /\ sv_paths (world q) !! q_fd d = Some (q_path d).
Proof.
  intros Hs Hp Ho. unfold isOpen in Ho. apply Z.ltb_lt in Ho.
  destruct (fs_open _ _ Hs p d Hp) as [E|[E|?]]; 
    [unfold NEVER_OPENED_VAL in E; lia|unfold CLOSED_VAL in E; lia|done].
Qed.

Lemma fds_serve_mono P P' q :
  fds_serve P q -> P ⊆ P' -> (forall p d, p ∈ P' -> qu_qfds q !! p = Some d -> isOpen d = true) ->
  fds_serve P' q.
Proof.
  intros [H1 H2 H3 H4 H5 H6 H7 H8 H9] Hs Ho. split; try done.
  enough (count (early P') (qu_qfds q) <= count (early P) (qu_qfds q)) by lia.
  apply count_mono. intros p d _. unfold early. rewrite !andb_true_iff, !bool_decide_eq_true.
  set_solver.
Qed.

(** ** Opening *)

Lemma myOpen_served path oflag mode (o : ost W) :
  Z.of_nat (base.size (sv_paths (o_world o))) < sv_limit (o_world o) ->
  exists fd o', myOpen path oflag mode o = Ok (inr fd, o') /\ 2 < fd < 2 ^ 31 /\
    sv_paths (o_world o) !! fd = None /\
    sv_paths (o_world o') = <[fd := path]> (sv_paths (o_world o)) /\
    sv_length (o_world o') = sv_length (o_world o) /\ sv_limit (o_world o') = sv_limit (o_world o).
Proof.
  intros Hlt.
  destruct (srv_open (o_world o) path oflag mode Hlt) as (w & fd & e & Ho & Hfd & Hn & Hp & Hl & Hm).
  exists fd. eexists. split.
  - rewrite myOpen_eq. cbn [open_loop]. unfold bind at 1, sys_open, syscall. rewrite Ho.
    unfold bind, errno, gets, ret.
    destruct (Z.ltb_spec fd 0); [lia|]. cbn [andb]. by destruct (Z.ltb_spec fd 0); [lia|].
  - split_and!; done || lia.
Qed.

(** What opening a descriptor does to the queue. *)
Definition opened_at (p : Z) (d : QueueFileDescriptor) (fd : Z) (o : ost W) q : queue W :=
  set_qfds (<[p := qfd_set_fd fd d]> (qu_qfds q))
    (set_os o (set_fdsUsed (fileDescriptorsUsed q + 1) q)).

Lemma doOpen_served p d q :
  qu_qfds q !! p = Some d -> Z.of_nat (base.size (sv_paths (world q))) < sv_limit (world q) ->
  exists fd o, doOpen p q = Ok (None, set_qfds (<[p := qfd_set_fd fd d]> (qu_qfds q)) (set_os o q)) /\
    2 < fd < 2 ^ 31 /\ sv_paths (world q) !! fd = None /\
    sv_paths (o_world o) = <[fd := q_path d]> (sv_paths (world q)) /\
    sv_length (o_world o) = sv_length (world q) /\ sv_limit (o_world o) = sv_limit (world q).
Proof.
  intros Hp Hlt. destruct (myOpen_served (q_path d) (q_oflag d) (q_mode d) (qu_os q) Hlt)
    as (fd & o & Ho & Hrest). exists fd, o. split; [|exact Hrest].
  unfold doOpen. rewrite (bind_ok _ _ _ _ _ (get_qfd_ok _ _ _ Hp)).
  assert (with_os (myOpen (q_path d) (q_oflag d) (q_mode d)) q = Ok (inr fd, set_os o q)) as Hw
    by (unfold with_os; by rewrite Ho).
  by rewrite (bind_ok _ _ _ _ _ Hw).
Qed.

(** A descriptor opened in place of one that was not open. *)
Lemma opened_serves P q p d fd o :
  fds_serve P q -> qu_qfds q !! p = Some d -> isOpen d = false ->
  fileDescriptorsUsed q < fileDescriptorCap q -> 2 < fd < 2 ^ 31 ->
  sv_paths (world q) !! fd = None ->
  sv_paths (o_world o) = <[fd := q_path d]> (sv_paths (world q)) ->
  sv_limit (o_world o) = sv_limit (world q) ->
  fds_serve ({[p]} ∪ P) (opened_at p d fd o q).
Proof.
  intros [H1 H2 H3 H4 H5 H6 H7 H8 H9] Hp Hd Hlt Hfd Hn Hpa Hlim.
  assert (isOpen (qfd_set_fd fd d) = true) as Ho by (apply Z.ltb_lt; cbn; lia).
  split; cbn.
  - intros p' d' Hp'. apply lookup_insert_Some in Hp' as [[<- <-]|[Hne Hp']].
    + right. right. cbn. split; [done|]. change (world (opened_at p d fd o q)) with (o_world o).
      rewrite Hpa. apply lookup_insert_eq.
    + destruct (H1 p' d' Hp') as [?|[?|[? Hs]]]; [by left|by right; left|]. right. right.
      split; [done|]. change (world (opened_at p d fd o q)) with (o_world o).
      rewrite Hpa, lookup_insert_ne; [done|]. intros ->. congruence.
  - intros p1 p2 d1 d2 [[<- <-]|[Hn1 Hp1]]%lookup_insert_Some [[<- <-]|[Hn2 Hp2]]%lookup_insert_Some.
    + done.
    + cbn. intros _ E. destruct (H1 p2 d2 Hp2) as [E'|[E'|[_ E']]];
        [rewrite E' in E; unfold NEVER_OPENED_VAL in E; lia
        |rewrite E' in E; unfold CLOSED_VAL in E; lia|congruence].
    + cbn. intros Ho1 E. destruct (open_fd P q p1 d1 (Build_fds_serve P q H1 H2 H3 H4 H5 H6 H7 H8 H9) Hp1 Ho1)
        as [_ E']. congruence.
    + by apply H2.
  - rewrite open_count_eq. cbn. rewrite count_insert, Ho.
    rewrite H3, open_count_eq, (count_lookup _ _ _ _ Hp), Hd. cbn. lia.
  - lia.
  - done.
  - assert (count (early ({[p]} ∪ P)) (<[p:=qfd_set_fd fd d]> (qu_qfds q)) <=
            count (early P) (qu_qfds q)); [|lia].
    rewrite count_insert. assert (early ({[p]} ∪ P) p (qfd_set_fd fd d) = false) as ->.
    { unfold early. rewrite bool_decide_eq_false_2 by set_solver. by rewrite andb_false_r. }
    rewrite (count_lookup (early P) _ _ _ Hp). 
    enough (count (early ({[p]} ∪ P)) (delete p (qu_qfds q)) <= count (early P) (delete p (qu_qfds q))).
    { destruct (early P p d); cbn; lia. }
    apply count_mono. intros p' d' _. unfold early.
    rewrite !andb_true_iff, !bool_decide_eq_true. set_solver.
  - intros p' d' Hin [[<- <-]|[Hne Hp']]%lookup_insert_Some; [done|]. apply (H7 p' d'); set_solver.
  - change (world (opened_at p d fd o q)) with (o_world o). rewrite Hpa, map_size_insert_None by done. lia.
  - change (world (opened_at p d fd o q)) with (o_world o). by rewrite Hlim.
Qed.

(** Descriptors were opened, and nothing else happened to any. *)
Definition opened_more q q' : Prop :=
  (forall p d', qu_qfds q' !! p = Some d' -> exists d, qu_qfds q !! p = Some d /\
     q_path d' = q_path d /\ (d' = d \/ isOpen d = false /\ isOpen d' = true)) /\
  (forall p d, qu_qfds q !! p = Some d -> exists d', qu_qfds q' !! p = Some d' /\
     (isOpen d = true -> d' = d)).

Lemma opened_more_refl q : opened_more q q.
Proof. split; intros p d Hp; exists d; auto. Qed.

Lemma opened_more_trans q1 q2 q3 : opened_more q1 q2 -> opened_more q2 q3 -> opened_more q1 q3.
Proof.
  intros [A1 A2] [B1 B2]. split.
  - intros p d3 H3. destruct (B1 p d3 H3) as (d2 & H2 & E2 & C2).
    destruct (A1 p d2 H2) as (d1 & H1 & E1 & C1). exists d1. split; [done|]. split; [congruence|].
    destruct C1 as [-> |[? ?]], C2 as [-> |[? ?]]; auto.
  - intros p d1 H1. destruct (A2 p d1 H1) as (d2 & H2 & E2). destruct (B2 p d2 H2) as (d3 & H3 & E3).
    exists d3. split; [done|]. intros Ho.
    pose proof (E2 Ho) as ->. by apply E3.
Qed.

(** Opening a descriptor for a runner, with a reservation left. *)
Lemma ensureOpened_served P q p d fuel :
  fds_serve P q -> qu_qfds q !! p = Some d -> q_fd d <> CLOSED_VAL -> (0 < fuel)%nat ->
  isOpen d = true \/ fileDescriptorsUsed q < fileDescriptorCap q ->
  exists q', ensureOpened fuel p q = Ok (None, q') /\ fds_serve ({[p]} ∪ P) q' /\
    same_but_files q q' /\ fileDescriptorCap q' = fileDescriptorCap q /\
    sv_length (world q') = sv_length (world q) /\ opened_more q q' /\
    fileDescriptorsUsed q' = fileDescriptorsUsed q + (if isOpen d then 0 else 1).
Proof.
  intros Hs Hp Hc Hf Hor. destruct (isOpen d) eqn:Ho.
  - destruct (open_fd _ _ _ _ Hs Hp Ho) as [Hfd _].
    exists q. split; [apply (ensureOpened_open _ q p d Hp); lia|]. split.
    { apply (fds_serve_mono P); [done|set_solver|]. intros p' d' Hin Hp'.
      destruct (decide (p' = p)) as [->|]; [congruence|].
      apply (fs_started _ _ Hs p' d'); [set_solver|done]. }
    split_and!; try done; [apply opened_more_refl|lia].
  - destruct Hor as [|Hlt]; [done|].
    assert (q_fd d = NEVER_OPENED_VAL) as Hd.
    { destruct (fs_open _ _ Hs p d Hp) as [?|[?|[? _]]]; [done|done|].
      unfold isOpen in Ho. apply Z.ltb_ge in Ho. lia. }
    set (q1 := set_fdsUsed (fileDescriptorsUsed q + 1) q).
    destruct (doOpen_served p d q1 Hp) as (fd & o & Hop & Hfd & Hn & Hpa & Hle & Hlim).
    { pose proof (fs_room _ _ Hs). pose proof (fs_limit _ _ Hs). change (world q1) with (world q). lia. }
    exists (opened_at p d fd o q). split; [|split; [by eapply opened_serves|]].
    + unfold ensureOpened. rewrite (bind_ok _ _ _ _ _ (get_qfd_ok _ _ _ Hp)).
      rewrite (bind_ok _ _ q tt q) by (by rewrite Hd). rewrite Hd, Z.eqb_refl.
      assert (reserve_loop fuel q = Ok (tt, q1)) as Hr.
      { destruct fuel as [|fuel]; [lia|]. cbn [reserve_loop].
        pose proof (fs_used _ _ Hs). pose proof (open_count_nonneg q).
        rewrite (bind_ok _ _ _ _ _ (reserve_run q High (fs_cap _ _ Hs)
          ltac:(unfold RESERVED_FD_COUNT in *; lia) ltac:(cbn; lia))). done. }
      rewrite (bind_ok _ _ _ _ _ Hr). exact Hop.
    + split_and!; try done. split; cbn.
      * intros p' d' [[<- <-]|[Hne Hp']]%lookup_insert_Some; [|by eauto 6].
        exists d. split; [done|]. split; [done|]. right. split; [done|]. apply Z.ltb_lt. cbn. lia.
      * intros p' d' Hp'. destruct (decide (p' = p)) as [->|Hne].
        -- eexists. split; [apply lookup_insert_eq|]. congruence.
        -- exists d'. by rewrite lookup_insert_ne.
Qed.

Lemma open_both_served P q r ds dd fuel :
  fds_serve P q -> (forall p d, qu_qfds q !! p = Some d -> q_fd d <> CLOSED_VAL) -> (0 < fuel)%nat ->
  qu_qfds q !! sourceFd r = Some ds -> qu_qfds q !! destFd r = Some dd -> sourceFd r <> destFd r ->
  isOpen ds && isOpen dd = true \/ fileDescriptorsUsed q + 2 <= fileDescriptorCap q ->
  exists q', open_both fuel r q = Ok (None, q') /\ fds_serve ({[sourceFd r; destFd r]} ∪ P) q' /\
    same_but_files q q' /\ fileDescriptorCap q' = fileDescriptorCap q /\
    sv_length (world q') = sv_length (world q) /\ opened_more q q' /\ open_both fuel r q' = Ok (None, q').
Proof.
  intros Hs Hc Hf Hsrc Hdst Hne Hor. unfold open_both.
  destruct (ensureOpened_served P q (sourceFd r) ds fuel Hs Hsrc (Hc _ _ Hsrc) Hf)
    as (q1 & H1 & S1 & B1 & C1 & L1 & O1 & U1).
  { destruct Hor as [[? _]%andb_prop|?]; [by left|right; lia]. }
  rewrite (bind_ok _ _ _ _ _ H1).
  destruct (proj2 O1 _ _ Hdst) as (dd1 & Hd1 & Edd).
  assert (q_fd dd1 <> CLOSED_VAL) as Hc1.
  { destruct (proj1 O1 _ _ Hd1) as (dd0 & Hd0 & _ & [-> |[_ Ho]]); [by apply (Hc _ _ Hd0)|].
    unfold isOpen in Ho. apply Z.ltb_lt in Ho. unfold CLOSED_VAL. lia. }
  destruct (ensureOpened_served _ q1 (destFd r) dd1 fuel S1 Hd1 Hc1 Hf)
    as (q2 & H2 & S2 & B2 & C2 & L2 & O2 & U2).
  { destruct Hor as [[Ho1 Ho2]%andb_prop|Hu]; [left; by rewrite (Edd Ho2)|].
    right. destruct (isOpen ds); lia. }
  exists q2. split; [done|]. assert ({[destFd r]} ∪ ({[sourceFd r]} ∪ P) = {[sourceFd r; destFd r]} ∪ P :> gset Z) as E
    by set_solver. rewrite E in S2. split; [done|].
  split; [by destruct B1 as (?&?&?&?&?), B2 as (?&?&?&?&?); split_and!; congruence|].
  do 2 (split; [congruence|]). pose proof (opened_more_trans _ _ _ O1 O2) as O3. split; [done|].
  destruct (proj2 O3 _ _ Hsrc) as (ds' & Hs' & _). destruct (proj2 O3 _ _ Hdst) as (dd' & Hd' & _).
  pose proof (fs_started _ _ S2 (sourceFd r) _ ltac:(set_solver) Hs') as Hos.
  pose proof (fs_started _ _ S2 (destFd r) _ ltac:(set_solver) Hd') as Hod.
  destruct (open_fd _ _ _ _ S2 Hs' Hos) as [Fs _]. destruct (open_fd _ _ _ _ S2 Hd' Hod) as [Fd _].
  rewrite (bind_ok _ _ _ _ _ (ensureOpened_open fuel q2 _ _ Hs' (proj1 Fs))).
  by apply (ensureOpened_open fuel q2 _ _ Hd' (proj1 Fd)).
Qed.

(** ** Closing *)

Definition shut (d : QueueFileDescriptor) : Prop :=
  q_fd d = CLOSED_VAL \/ q_fd d = NEVER_OPENED_VAL.

Lemma shut_not_open d : shut d -> isOpen d = false.
Proof. unfold isOpen. by intros [-> | ->]. Qed.

Lemma myClose_served fd (o : ost W) :
  is_Some (sv_paths (o_world o) !! fd) ->
  exists o', myClose fd o = Ok (None, o') /\
    sv_paths (o_world o') = delete fd (sv_paths (o_world o)) /\
    sv_length (o_world o') = sv_length (o_world o) /\ sv_limit (o_world o') = sv_limit (o_world o).
Proof.
  intros Hs. destruct (srv_close (o_world o) fd Hs) as (w & e & Hc & Hp & Hl & Hm).
  eexists. split.
  - unfold myClose, sys_close, syscall, bind. by rewrite Hc.
  - by split.
Qed.

(** The queue after the descriptor [p], which was open, was closed. *)
Definition closed_at (p : Z) (d : QueueFileDescriptor) (o : ost W) q : queue W :=
  set_fdsUsed (fileDescriptorsUsed q - 1)
    (set_qfds (<[p := qfd_set_fd CLOSED_VAL d]> (qu_qfds q)) (set_os o q)).

Lemma closed_serves P q p d o :
  fds_serve P q -> qu_qfds q !! p = Some d -> isOpen d = true ->
  sv_paths (o_world o) = delete (q_fd d) (sv_paths (world q)) ->
  sv_limit (o_world o) = sv_limit (world q) ->
  fds_serve (P ∖ {[p]}) (closed_at p d o q).
Proof.
  intros Hs Hp Ho Hpa Hlim. pose proof Hs as [H1 H2 H3 H4 H5 H6 H7 H8 H9].
  set (d' := qfd_set_fd CLOSED_VAL d). set (m := qu_qfds q) in *.
  pose proof (count_lookup (fun _ d => isOpen d) m p d Hp) as Hc. cbv beta in Hc. rewrite Ho in Hc.
  cbn [Z.b2z] in Hc. split; cbn; fold m d'.
  - intros p' d1 [[<- <-]|[Hne Hp']]%lookup_insert_Some; [by right; left|].
    destruct (H1 p' d1 Hp') as [?|[?|[Hr Hs1]]]; [by left|by right; left|]. right. right.
    split; [done|]. change (world (closed_at p d o q)) with (o_world o).
    rewrite Hpa, lookup_delete_ne; [done|]. intros E. destruct Hne. by apply (H2 p p' d d1).
  - intros p1 p2 d1 d2 [[<- <-]|[Hn1 Hp1]]%lookup_insert_Some [[<- <-]|[Hn2 Hp2]]%lookup_insert_Some;
      try done; [|by apply H2].
    unfold isOpen, d'. cbn. intros Ho1%Z.ltb_lt E. rewrite E in Ho1. unfold CLOSED_VAL in Ho1. lia.
  - rewrite open_count_eq. cbn. fold m d'. rewrite count_insert. change (isOpen d') with false.
    rewrite open_count_eq in H3. fold m in H3. cbn [Z.b2z]. lia.
  - lia.
  - done.
  - rewrite count_insert. change (early (P ∖ {[p]}) p d') with false. cbn [Z.b2z].
    enough (count (early (P ∖ {[p]})) (delete p m) <= count (early P) m) by lia.
    rewrite (count_lookup _ _ _ _ Hp).
    enough (count (early (P ∖ {[p]})) (delete p m) <= count (early P) (delete p m))
      by (destruct (early P p d); cbn; lia).
    apply count_mono. intros p' d1 [Hne _]%lookup_delete_Some. unfold early.
    rewrite !andb_true_iff, !bool_decide_eq_true. set_solver.
  - intros p' d1 Hin [[<- <-]|[Hne Hp']]%lookup_insert_Some; [set_solver|]. apply (H7 p' d1); set_solver.
  - change (world (closed_at p d o q)) with (o_world o). rewrite Hpa.
    destruct (open_fd P q p d Hs Hp Ho) as [_ Hin].
    rewrite <- (insert_delete_id _ _ _ Hin), map_size_insert_None in H8 by apply lookup_delete_eq. lia.
  - change (world (closed_at p d o q)) with (o_world o). by rewrite Hlim.
Qed.

Lemma close_one_served P q p d result :
  fds_serve P q -> qu_qfds q !! p = Some d ->
  exists q' d', close_one p result q = Ok (result, q') /\ fds_serve (P ∖ {[p]}) q' /\
    same_but_files q q' /\ fileDescriptorCap q' = fileDescriptorCap q /\
    sv_length (world q') = sv_length (world q) /\
    qu_qfds q' = <[p := d']> (qu_qfds q) /\ shut d'.
Proof.
  intros Hs Hp. unfold close_one. rewrite (bind_ok _ _ _ _ _ (get_qfd_ok _ _ _ Hp)).
  destruct (isOpen d) eqn:Ho.
  - destruct (open_fd _ _ _ _ Hs Hp Ho) as [Hfd Hpa].
    rewrite (bind_ok _ _ _ _ _ (getFd_ok _ _ _ Hp (proj1 Hfd))).
    destruct (myClose_served (q_fd d) (qu_os q)) as (o & Hc & Hpo & Hle & Hlim); [by eexists|].
    assert (with_os (myClose (q_fd d)) q = Ok (None, set_os o q)) as Hw
      by (unfold with_os; by rewrite Hc).
    rewrite (bind_ok _ _ _ _ _ Hw).
    assert (notifyClosed p (set_os o q) = Ok (tt, closed_at p d o q)) as Hn.
    { unfold notifyClosed. rewrite (bind_ok _ _ _ _ _ (get_qfd_ok p (set_os o q) d Hp)).
      unfold put_qfd, bind, modify, closed_at. cbn. do 3 f_equal.
      pose proof (fs_used _ _ Hs). pose proof (open_count_nonneg q). pose proof (fs_most _ _ Hs).
      pose proof (fs_cap _ _ Hs). unfold RESERVED_FD_COUNT in *. apply wrap_small. unfold in_u. lia. }
    rewrite (bind_ok _ _ _ _ _ Hn). exists (closed_at p d o q), (qfd_set_fd CLOSED_VAL d).
    split; [by destruct result|]. split; [by eapply closed_serves|]. split_and!; try done. by left.
  - exists q, d. split; [by destruct result|]. split.
    { destruct Hs as [H1 H2 H3 H4 H5 H6 H7 H8 H9]. split; try done.
      - enough (count (early (P ∖ {[p]})) (qu_qfds q) <= count (early P) (qu_qfds q)) by lia.
        apply count_mono. intros p' d' Hp'. unfold early.
        rewrite !andb_true_iff, !bool_decide_eq_true. intros [Ho' Hn]. split; [done|].
        intros Hin. apply Hn. apply elem_of_difference. split; [done|].
        rewrite elem_of_singleton. intros ->. congruence.
      - intros p' d' Hin. apply H7. set_solver. }
    split_and!; try done; [by rewrite insert_id|].
    destruct (fs_open _ _ Hs p d Hp) as [?|[?|[? _]]]; [by right|by left|].
    unfold isOpen in Ho. apply Z.ltb_ge in Ho. lia.
Qed.

Lemma deleted_serves P q p d :
  fds_serve P q -> qu_qfds q !! p = Some d -> isOpen d = false ->
  fds_serve P (set_qfds (delete p (qu_qfds q)) q).
Proof.
  intros [H1 H2 H3 H4 H5 H6 H7 H8 H9] Hp Ho. split; cbn; try done.
  - intros p' d' [_ Hp']%lookup_delete_Some. by apply (H1 p').
  - intros p1 p2 d1 d2 [_ Hp1]%lookup_delete_Some [_ Hp2]%lookup_delete_Some. by apply H2.
  - rewrite H3, !open_count_eq. cbn. rewrite (count_lookup (fun _ d => isOpen d) _ _ _ Hp), Ho. done.
  - rewrite (count_lookup (early P) _ _ _ Hp) in H6. destruct (early P p d); cbn in H6; lia.
  - intros p' d' Hin [_ Hp']%lookup_delete_Some. by apply (H7 p').
Qed.

(** Closing the two files of the last runner of a job. *)
Lemma last_closes P q this r ds dd :
  fds_serve P q -> qu_runners q !! this = Some r -> qu_chunks q !! chunksRemaining r = Some 1 ->
  qu_qfds q !! sourceFd r = Some ds -> qu_qfds q !! destFd r = Some dd -> sourceFd r <> destFd r ->
  exists q' ds' dd', handleFileClose this q = Ok (None, q') /\
    fds_serve (P ∖ {[sourceFd r; destFd r]}) q' /\ same_but_files q q' /\
    fileDescriptorCap q' = fileDescriptorCap q /\ sv_length (world q') = sv_length (world q) /\
    qu_qfds q' = <[destFd r := dd']> (<[sourceFd r := ds']> (qu_qfds q)) /\ shut ds' /\ shut dd'.
Proof.
  intros Hs Hr Hn Hsrc Hdst Hne. unfold handleFileClose.
  rewrite (bind_ok _ _ _ _ _ (get_runner_ok _ _ _ Hr)).
  rewrite (bind_ok _ _ _ _ _ (deref_ok qu_chunks _ _ _ Hn : get_chunks _ _ = _)).
  cbn [Z.eqb Pos.eqb].
  destruct (close_one_served P q (sourceFd r) ds None Hs Hsrc)
    as (q1 & ds' & H1 & S1 & B1 & C1 & L1 & Q1 & Sh1).
  rewrite (bind_ok _ _ _ _ _ H1).
  assert (qu_qfds q1 !! destFd r = Some dd) as Hd1 by (by rewrite Q1, lookup_insert_ne).
  destruct (close_one_served _ q1 (destFd r) dd None S1 Hd1)
    as (q2 & dd' & H2 & S2 & B2 & C2 & L2 & Q2 & Sh2).
  exists q2, ds', dd'. split; [done|]. split_and!; try congruence; try done.
  - by replace (P ∖ {[sourceFd r; destFd r]}) with ((P ∖ {[sourceFd r]}) ∖ {[destFd r]}) by set_solver.
  - destruct B1 as (?&?&?&?&?), B2 as (?&?&?&?&?). split_and!; congruence.
Qed.
End served.
