(* ===== verification/Serving.v ===== *)
(** * The submit thread in a world that serves it

    The state of the submit loop when every open succeeds and every request is
    served: which runners wait and which were started, which descriptors are open,
    and what is queued.  Starting runners keeps it, and never gets stuck: a runner
    waiting can always be started when no request is outstanding. *)

From stdpp Require Import gmap strings.
From S2P Require Import Prelude Abi Prep RingBuf Ring SqSpec CqSpec Kernel Queue Os Util Heap Eta CopyState FileDesc Runner RunnerData RunnerLive RunnerSpec CopyQueue CopyJob SubmitLoop Shape Accounts System Service Rounds ServedFiles.
Import Eta.Rolling Eta.ETA.

(** ** Files in a row *)

(** Equal elements follow one another. *)
Fixpoint grouped {A} (l : list A) : Prop :=
  match l with
  | [] => True
  | a :: rest => (a ∈ rest -> head rest = Some a) /\ grouped rest
  end.

Lemma grouped_next {A} (a : A) rest (S : A -> Prop) :
  grouped (a :: rest) -> (forall x, S x -> x ∈ a :: rest -> x = a) ->
  forall x, x = a \/ S x -> x ∈ rest -> head rest = Some x.
Proof.
  intros [Hg _] HS x [->|Hx] Hin; [by apply Hg|].
  assert (x = a) as -> by (apply HS; [done|by right]). by apply Hg.
Qed.

(** ** The state *)

(** A runner whose requests are in the ring: its address, the runner before the
    round, and its descriptors. *)
Record started : Type := mk_started {
  b_this : Z;
  b_runner : CopyRunner;
  b_src : Z;
  b_dst : Z;
}.

Definition b_entries (b : started) : list io_uring_sqe :=
  round_entries no_forcing (b_this b) (b_src b) (b_dst b) 0 0 (b_runner b).

(** The bytes of a runner not yet written. *)
Definition unwritten (r : CopyRunner) : Z := chunk_end r - writeOffset r.

Section serving.
Context {W : Type} {F : Files W} {K : Kernel W} {V : View W} {L : ServiceLaws W}.
(** The heap the jobs were planned for. *)
Context (h0 : Heap.heap) (Hbase : 0 < Heap.data h0)
  (Hend : Heap.data h0 + Heap.blocks h0 * Heap.blockSize h0 < 2 ^ 63).
Implicit Types (q : queue W) (l : loop W) (P H : gset Z) (X : list Z) (r : CopyRunner).

Definition geometry (h : Heap.heap) : Prop :=
  Heap.blockSize h = Heap.blockSize h0 /\ Heap.blocks h = Heap.blocks h0 /\
  Heap.data h = Heap.data h0 /\ Heap.alignment h = Heap.alignment h0.

(** A chunk of a job, as far as the heap goes. *)
Definition fits r : Prop :=
  exists st, job_ok h0 st /\ alignment r = stx_blksize st /\
    0 < size r <= chunk_size (Heap.blockSize h0) (Heap.alignment h0) (stx_blksize st).

(** It has its buffer. *)
Definition placed r : Prop :=
  buffer r <> 0 /\ 0 <= bufferAligned r /\ bufferAligned r + size r + alignment r < 2 ^ 64 /\
  exists i, 0 <= i < Heap.blocks h0 /\ buffer r = Heap.block_at h0 i.

(** The runner of an empty file. *)
Definition empty_ok q r : Prop :=
  size r = 0 /\ jobsRunning r = 0 /\ buffer r = 0 /\ unwritten r = 0 /\
  qu_chunks q !! chunksRemaining r = Some 1.

(** A runner with work left, on a source of the length it was planned for. *)
Definition chunk_ready q r : Prop :=
  fits r /\ forall ds, qu_qfds q !! sourceFd r = Some ds ->
    working (sv_length (world q) (q_path ds)) r.

Definition idle_ok q r : Prop :=
  empty_ok q r \/ chunk_ready q r /\ (buffer r = 0 \/ placed r).

Definition batch_ok P q (b : started) : Prop :=
  let r := b_runner b in
  qu_runners q !! b_this b = Some (submitted no_forcing 0 r) /\ chunk_ready q r /\ placed r /\
  sourceFd r ∈ P /\ destFd r ∈ P /\
  (exists ds, qu_qfds q !! sourceFd r = Some ds /\ q_fd ds = b_src b) /\
  (exists dd, qu_qfds q !! destFd r = Some dd /\ q_fd dd = b_dst b).

(** The sources of the runners of a list. *)
Definition sources q (l : list Z) : list (option Z) := (fun a => sourceFd <$> qu_runners q !! a) <$> l.

(** [P]: the descriptors opened for runners started; [H]: those of the files a runner
    was taken of, in whose order the copies waiting are; [X]: the runner whose
    completions are being handled. *)
Record serving P H X (batch : list started) l : Prop := {
  se_ring : ring_sized (ringSize (lp_cq l)) (qu_ring (lq l));
  se_geom : geometry (qu_heap (lq l));
  se_addr : next_addr (lp_cq l) <= 2 ^ 62 /\
    forall a r, qu_runners (lq l) !! a = Some r -> 0 < a;
  se_fds : fds_serve P (lq l);
  se_none : forall p d, qu_qfds (lq l) !! p = Some d -> q_fd d <> CLOSED_VAL;
  se_idle : forall a r, qu_runners (lq l) !! a = Some r -> a ∉ X -> a ∉ b_this <$> batch ->
    idle_ok (lq l) r;
  se_batch : Forall (batch_ok P (lq l)) batch;
  se_nodup : NoDup (b_this <$> batch);
  se_start : forall a r, a ∈ copiesPendingStart (lp_cq l) -> qu_runners (lq l) !! a = Some r ->
    buffer r = 0;
  se_cont : forall a r, a ∈ copiesPendingContinue l -> qu_runners (lq l) !! a = Some r ->
    placed r /\ size r <> 0 /\ sourceFd r ∈ P /\ destFd r ∈ P;
  se_pair : forall a r, qu_runners (lq l) !! a = Some r ->
    sourceFd r <> destFd r /\ (sourceFd r ∈ H <-> destFd r ∈ H);
  se_head : forall x, x ∈ H -> Some x ∈ sources (lq l) (copiesPendingStart (lp_cq l)) ->
    head (sources (lq l) (copiesPendingStart (lp_cq l))) = Some (Some x);
  se_group : grouped (sources (lq l) (copiesPendingStart (lp_cq l)));
  se_bytes : in_u 64 (totalBytesCopied (qu_counters (lq l))) /\
    totalBytesCopied (qu_counters (lq l)) =
      u64 (totalBytesToCopy (qu_counters (lq l)) - total unwritten (qu_runners (lq l)));
  se_buffer : nextBuffer l = 0 \/
    exists i, 0 <= i < Heap.blocks h0 /\ nextBuffer l = Heap.block_at h0 i;
}.

(** What the rings hold while runners are started. *)
Definition queued_ring (batch : list started) q : Prop :=
  cq_contents (r_cq (qu_ring q)) = [] /\
  acquired (sq_abs (r_sq (qu_ring q))) = concat (b_entries <$> batch) /\
  submissionsRunning (qu_counters q) = u32 (zlen (acquired (sq_abs (r_sq (qu_ring q))))).

Lemma geometry_job h st : geometry h -> Heap.heap_ok h -> job_ok h0 st -> job_ok h st.
Proof.
  intros (E1 & E2 & E3 & E4) Hh [J1 J2 J3 J4 J5 J6 J7]. split; rewrite ?E1, ?E4; done.
Qed.

(** What the submit thread leaves alone when nothing fails. *)
Definition steady l l' : Prop :=
  errorMessages (lp_cq l') = errorMessages (lp_cq l) /\ ringSize (lp_cq l') = ringSize (lp_cq l) /\
  cq_state (lp_cq l') = cq_state (lp_cq l) /\ completionAction (lp_cq l') = completionAction (lp_cq l) /\
  showingProgress (lp_cq l') = showingProgress (lp_cq l) /\
  totalBytesToCopy (qu_counters (lq l')) = totalBytesToCopy (qu_counters (lq l)) /\
  next_addr (lp_cq l') = next_addr (lp_cq l) /\
  sv_length (world (lq l')) = sv_length (world (lq l)).

Lemma steady_refl l : steady l l.
Proof. by split_and!. Qed.

Lemma steady_trans l1 l2 l3 : steady l1 l2 -> steady l2 l3 -> steady l1 l3.
Proof. intros (?&?&?&?&?&?&?&?) (?&?&?&?&?&?&?&?). split_and!; congruence. Qed.

(** ** A buffer *)

(** With no buffer at hand after [reserve_buffer], every block is out. *)
Lemma reserve_buffer_served P H X batch l :
  Heap.heap_ok (qu_heap (lq l)) -> serving P H X batch l -> queued_ring batch (lq l) ->
  exists l', reserve_buffer l = Ok (tt, l') /\ serving P H X batch l' /\ queued_ring batch (lq l') /\
    copiesPendingStart (lp_cq l') = copiesPendingStart (lp_cq l) /\
    copiesPendingStartCount (lp_cq l') = copiesPendingStartCount (lp_cq l) /\
    copiesPendingContinue l' = copiesPendingContinue l /\
    qu_runners (lq l') = qu_runners (lq l) /\ qu_counters (lq l') = qu_counters (lq l) /\
    steady l l' /\
    fileDescriptorsUsed (lq l') = fileDescriptorsUsed (lq l) /\
    (nextBuffer l' = 0 -> nextBuffer l = 0 /\
      forall j, 0 <= j < Heap.blocks (qu_heap (lq l)) -> Heap.used_at (qu_heap (lq l)) j).
Proof.
  intros Hh Hs Hq. unfold reserve_buffer. rewrite (bind_ok _ _ l l l) by done.
  destruct (Z.eqb_spec (nextBuffer l) 0) as [E|E].
  - rewrite (bind_ok _ _ l (lq l) l) by done. pose proof (Heap.getBlock_spec _ Hh) as Hg.
    destruct (Heap.getBlock (qu_heap (lq l))) as [b h] eqn:Hgb.
    assert (geometry h) as Hge.
    { pose proof (se_geom _ _ _ _ _ Hs) as Hge. destruct b as [b|].
      - by destruct Hg as (k & _ & _ & -> & _).
      - by destruct Hg as [-> _]. }
    eexists. split; [done|]. split; [|split; [exact Hq|]].
    + destruct Hs as [S2 S3 S4 S5 S6 S7 S8 S9 S10 S11 S12 S13 S14 S15 S16].
      split; try done; [by eapply fds_serve_same|]. cbn. destruct b as [b|]; [|by left]. right.
      destruct Hg as (k & -> & Hk & _). pose proof (zget_range _ _ _ Hk) as Hkr.
      rewrite (Heap.ho_len _ Hh) in Hkr. destruct S3 as (E1 & E2 & E3 & _). exists k.
      split; [lia|]. unfold Heap.block_at. by rewrite E1, E3.
    + split_and!; try done. cbn. intros Hz. destruct b as [b|]; [|split; [done|apply Hg]].
      destruct Hg as (k & -> & Hk & _). pose proof (zget_range _ _ _ Hk) as Hkr.
      destruct (se_geom _ _ _ _ _ Hs) as (_ & _ & E3 & _).
      pose proof (Heap.ho_size _ Hh). unfold Heap.block_at in Hz. rewrite E3 in Hz. nia.
  - exists l. split_and!; try done.
Qed.

(** ** Changing a runner, taking one *)

(** Runners with a descriptor in common are of one file. *)
Lemma same_file rm d cur g l a b ra rb :
  loop_ok rm d cur g l -> qu_runners (lq l) !! a = Some ra -> qu_runners (lq l) !! b = Some rb ->
  sourceFd rb = sourceFd ra \/ sourceFd rb = destFd ra \/ destFd rb = sourceFd ra \/
    destFd rb = destFd ra ->
  chunksRemaining rb = chunksRemaining ra /\ sourceFd rb = sourceFd ra /\ destFd rb = destFd ra.
Proof.
  intros [(_ & [files Hf] & _) _ _ _] Ha Hb Hsame.
  pose proof (fl_owner _ _ _ Hf a _ (shape_owner _ _ _ Ha)) as Fa.
  pose proof (fl_owner _ _ _ Hf b _ (shape_owner _ _ _ Hb)) as Fb.
  cbn [ow_tracker ow_src ow_dst owner_of] in *.
  destruct (Z.eq_dec (chunksRemaining rb) (chunksRemaining ra)) as [Et|Et].
  - rewrite Et, Fa in Fb. by injection Fb as -> ->.
  - destruct (fl_apart _ _ _ Hf _ _ _ _ _ _ Et Fb Fa) as (?&?&?&?). by destruct Hsame as [?|[?|[?|?]]].
Qed.

Lemma sources_insert q a r r' (ls : list Z) :
  qu_runners q !! a = Some r -> sourceFd r' = sourceFd r ->
  sources (set_runners (<[a := r']> (qu_runners q)) q) ls = sources q ls.
Proof.
  intros Hr E. apply list_fmap_ext. intros i b _. cbn. destruct (decide (a = b)) as [<-|Hne].
  - rewrite lookup_insert_eq, Hr. cbn. by rewrite E.
  - by rewrite lookup_insert_ne.
Qed.

(** An idle runner replaced by one on the same files with as much to write. *)
Lemma serving_update P H X batch l a r r' :
  serving P H X batch l -> qu_runners (lq l) !! a = Some r -> a ∉ b_this <$> batch ->
  sourceFd r' = sourceFd r -> destFd r' = destFd r -> idle_ok (lq l) r' ->
  unwritten r' = unwritten r ->
  (a ∈ copiesPendingStart (lp_cq l) -> buffer r' = 0) ->
  (a ∈ copiesPendingContinue l -> placed r' /\ size r' <> 0) ->
  serving P H X batch
    (lp_set_queue (set_runners (<[a := r']> (qu_runners (lq l))) (lq l)) l).
Proof.
  intros Hs Hr Hb E1 E2 Hi Hu Hst Hco.
  destruct Hs as [S2 S3 S4 S5 S6 S7 S8 S9 S10 S11 S12 S13 S14 S15 S16].
  set (q' := set_runners _ _).
  assert (forall b rb, qu_runners q' !! b = Some rb ->
    b = a /\ rb = r' \/ b <> a /\ qu_runners (lq l) !! b = Some rb) as Hl.
  { intros b rb Hrb. cbn in Hrb. apply lookup_insert_Some in Hrb. naive_solver. }
  split; try done.
  - split; [apply S4|]. by intros b rb [[-> ->]|[Hne Hrb]]%Hl; eapply S4.
  - by eapply fds_serve_same.
  - intros b rb [[-> ->]|[Hne Hrb]]%Hl Hx Hnb; [exact Hi|by apply (S7 b)].
  - apply Forall_lookup. intros i b Hib. destruct (Forall_lookup_1 _ _ _ _ S8 Hib) as [Hrb Hrest].
    split; [|exact Hrest]. cbn. rewrite lookup_insert_ne; [done|]. intros ->. apply Hb.
    by eapply list_elem_of_fmap_2, list_elem_of_lookup_2.
  - intros b rb Hin [[-> ->]|[Hne Hrb]]%Hl; [by apply Hst|by apply (S10 b rb)].
  - intros b rb Hin [[-> ->]|[Hne Hrb]]%Hl; [|by apply (S11 b)].
    destruct (S11 a r Hin Hr) as (_ & _ & ? & ?). destruct (Hco Hin). rewrite E1, E2. done.
  - intros b rb [[-> ->]|[Hne Hrb]]%Hl; [rewrite E1, E2; by apply (S12 a)|by apply (S12 b)].
  - change (sources (lq (lp_set_queue q' l))) with (sources q'). unfold q'.
    rewrite (sources_insert _ a r) by done. exact S13.
  - change (sources (lq (lp_set_queue q' l))) with (sources q'). unfold q'.
    rewrite (sources_insert _ a r) by done. exact S14.
  - cbn. rewrite (total_update _ _ _ _ _ Hr), Hu. destruct S15 as [? ->]. split; [|f_equal; lia].
    apply wrap_range. lia.
Qed.

(** Taking the first copy that waits: its file is one a runner was taken of. *)
Lemma serving_pop rm d cur g P X batch l a rest n r :
  loop_ok rm d cur g l -> serving P P X batch l ->
  copiesPendingStart (lp_cq l) = a :: rest -> qu_runners (lq l) !! a = Some r ->
  serving P ({[sourceFd r; destFd r]} ∪ P) X batch
    (lp_set_cq (cq_set_pending rest n (lp_cq l)) l).
Proof.
  intros Hl Hs Hp Hr.
  destruct Hs as [S2 S3 S4 S5 S6 S7 S8 S9 S10 S11 S12 S13 S14 S15 S16].
  rewrite Hp in S10, S13, S14. destruct (S12 a r Hr) as [Hne Hpair].
  assert (forall b rb, qu_runners (lq l) !! b = Some rb ->
    sourceFd rb = sourceFd r /\ destFd rb = destFd r \/
    (sourceFd rb ∉ ({[sourceFd r; destFd r]} : gset Z) /\
     destFd rb ∉ ({[sourceFd r; destFd r]} : gset Z))) as Hfile.
  { intros b rb Hb. pose proof (same_file _ _ _ _ _ _ _ _ _ Hl Hr Hb) as Hsf.
    destruct (decide (sourceFd rb = sourceFd r)); [left; tauto|].
    right. rewrite !not_elem_of_union, !not_elem_of_singleton. tauto. }
  set (H' := {[sourceFd r; destFd r]} ∪ P).
  assert (forall b rb, b ∈ rest -> qu_runners (lq l) !! b = Some rb -> sourceFd rb ∈ H' ->
    Some (sourceFd rb) = Some (sourceFd r) \/ sourceFd rb ∈ P) as Hin.
  { intros b rb _ Hb Hx. destruct (Hfile b rb Hb) as [[-> _]|[Hn _]]; [by left|right; set_solver]. }
  assert (sources (lq l) (a :: rest) = Some (sourceFd r) :: sources (lq l) rest) as Hsrc
    by (cbn; by rewrite Hr).
  rewrite Hsrc in S13, S14. split; try done.
  - intros b rb Hb. apply (S10 b rb). by right.
  - intros b rb Hb. split; [apply (S12 b rb Hb)|]. unfold H'.
    pose proof (proj2 (S12 b rb Hb)) as Hpb.
    destruct (Hfile b rb Hb) as [[-> ->]|[Hn1 Hn2]]; [|clear -Hn1 Hn2 Hpb; set_solver].
    split; intros _; set_solver.
  - cbn [lp_cq lp_set_cq copiesPendingStart cq_set_pending]. intros x Hx Hsx.
    change (lq (lp_set_cq (cq_set_pending rest n (lp_cq l)) l)) with (lq l) in *.
    apply (grouped_next (Some (sourceFd r)) (sources (lq l) rest)
      (fun y => exists z, y = Some z /\ z ∈ P)); [done| |  |done].
    + intros y (z & -> & Hz) Hy. specialize (S13 z Hz Hy). cbn in S13. by injection S13 as ->.
    + apply list_elem_of_fmap in Hsx as (b & Eb & Hb).
      destruct (qu_runners (lq l) !! b) as [rb|] eqn:Hrb; [|done]. injection Eb as ->.
      destruct (Hin b rb Hb Hrb Hx) as [E|E]; [by left|right; eauto].
  - by destruct S14.
Qed.

Lemma working_buffer n b al r : working n r -> working n (r_set_buffer b al r).
Proof.
  intros [[C1 C2 C3 C4 C5 C6] (buf & dst & [D1 D2 D3 D4 D5 D6 D7 D8 D9]) He Hw].
  split; try done. exists buf, dst. by split.
Qed.

Lemma needs_run q a r ds dd :
  qu_runners q !! a = Some r -> qu_qfds q !! sourceFd r = Some ds ->
  qu_qfds q !! destFd r = Some dd ->
  needsFileDescriptors a q = Ok (negb (isOpen ds && isOpen dd), q).
Proof.
  intros Hr Hs Hd. unfold needsFileDescriptors.
  rewrite (bind_ok _ _ _ _ _ (get_runner_ok _ _ _ Hr)), (bind_ok _ _ _ _ _ (get_qfd_ok _ _ _ Hs)).
  destruct (isOpen ds); [|done]. cbn [negb]. by rewrite (bind_ok _ _ _ _ _ (get_qfd_ok _ _ _ Hd)).
Qed.

(** A chunk gets the buffer at hand. *)
Lemma give_served q a r nb i :
  Heap.heap_ok (qu_heap q) -> geometry (qu_heap q) -> qu_runners q !! a = Some r ->
  chunk_ready q r -> buffer r = 0 -> 0 <= i < Heap.blocks h0 -> nb = Heap.block_at h0 i ->
  exists al, giveBuffer a nb q =
      Ok (tt, set_runners (<[a := r_set_buffer nb al r]> (qu_runners q)) q) /\
    chunk_ready q (r_set_buffer nb al r) /\ placed (r_set_buffer nb al r).
Proof.
  intros Hh Hg Hr [(st & Hj & Ha & Hsz) Hw] Hb Hi ->.
  pose proof (geometry_job _ _ Hg Hh Hj) as Hj'. pose proof Hg as (E1 & E2 & E3 & E4).
  assert (Heap.block_at h0 i = Heap.block_at (qu_heap q) i) as Eb
    by (unfold Heap.block_at; by rewrite E1, E3).
  rewrite Eb. pose proof (Heap.ho_size _ Hh) as Hbs.
  destruct (giveBuffer_ok q a r st i Hj') as (al & H1 & H2 & H3 & H4); try rewrite ?E1, ?E2, ?E3, ?E4; try done.
  exists al. split; [done|]. split.
  - split; [by exists st|]. intros ds Hds. by apply working_buffer, Hw.
  - pose proof (jo_block _ _ Hj). pose proof (jo_blk _ _ Hj) as (m & Hm & Em).
    pose proof (pow2_pos m Hm). unfold placed, Heap.block_at in *. cbn. rewrite E1, E3 in *.
    pose proof (round_up_ge (size r) (alignment r) ltac:(lia)).
    split_and!; [nia|nia|nia|by exists i].
Qed.

Lemma serving_nobuffer P H X batch l : serving P H X batch l -> serving P H X batch (lp_set_buffer 0 l).
Proof. intros [S2 S3 S4 S5 S6 S7 S8 S9 S10 S11 S12 S13 S14 S15 S16]. split; try done. by left. Qed.

Lemma waiting_runner rm d cur g l a :
  loop_ok rm d cur g l -> a ∈ cur ++ waiting l ->
  exists r, qu_runners (lq l) !! a = Some r /\ jobsRunning r = 0.
Proof.
  intros [([_ _ _ _ _ W6] & _) _ _ _] Ha. apply W6 in Ha as (o & Ho & Hj).
  apply owner_runner in Ho as (r & Hr & ->). by exists r.
Qed.

(** A runner of a batch has requests outstanding. *)
Lemma batch_busy P H X batch l a r :
  serving P H X batch l -> a ∈ b_this <$> batch -> qu_runners (lq l) !! a = Some r ->
  jobsRunning r <> 0.
Proof.
  intros Hs Hin Hr. apply list_elem_of_fmap in Hin as (b & -> & Hb).
  apply list_elem_of_lookup_1 in Hb as (i & Hi).
  destruct (Forall_lookup_1 _ _ _ _ (se_batch _ _ _ _ _ Hs) Hi) as (Hrb & [_ Hw] & _ & _ & _ & (ds & Hds & _) & _).
  destruct (Hw ds Hds) as [Hck (buf & dst & Hc) _ Hleft].
  destruct (submitted_fields no_forcing (b_runner b) 0 Hleft) as (_ & _ & _ & _ & Hj & _).
  { by rewrite (co_jobs _ _ _ _ _ _ Hc). }
  rewrite Hr in Hrb. injection Hrb as ->. rewrite Hj. by case_z.
Qed.

(** What taking a runner leaves: [r'] has what it needs but its descriptors. *)
Record taken (l : loop W) (a : Z) (r' : CopyRunner) (l' : loop W) : Prop := {
  tk_runner : qu_runners (lq l') = <[a := r']> (qu_runners (lq l));
  tk_qfds : qu_qfds (lq l') = qu_qfds (lq l);
  tk_used : fileDescriptorsUsed (lq l') = fileDescriptorsUsed (lq l);
  tk_cap : fileDescriptorCap (lq l') = fileDescriptorCap (lq l);
  tk_counters : qu_counters (lq l') = qu_counters (lq l);
  tk_steady : steady l l';
  tk_waiting : length (waiting l) = S (length (waiting l'));
  tk_ready : empty_ok (lq l') r' \/ chunk_ready (lq l') r' /\ placed r';
  tk_weight : exists r, qu_runners (lq l) !! a = Some r /\ weight r' = weight r;
}.

Lemma take_start_served rm P batch l a rest r ds dd :
  Heap.heap_ok (qu_heap (lq l)) -> loop_ok rm 0 [] NotAdding l -> serving P P [] batch l ->
  queued_ring batch (lq l) ->
  copiesPendingStart (lp_cq l) = a :: rest -> qu_runners (lq l) !! a = Some r ->
  qu_qfds (lq l) !! sourceFd r = Some ds -> qu_qfds (lq l) !! destFd r = Some dd ->
  nextBuffer l <> 0 ->
  exists res l', take_start l = Ok (res, l') /\
    match res with
    | None => l' = l /\ fileDescriptorCap (lq l) - fileDescriptorsUsed (lq l) < 2 /\
        isOpen ds && isOpen dd = false
    | Some b => b = a /\ exists r', taken l a r' l' /\ sourceFd r' = sourceFd r /\ destFd r' = destFd r /\
        serving P ({[sourceFd r; destFd r]} ∪ P) [] batch l' /\ queued_ring batch (lq l') /\
        (isOpen ds && isOpen dd = true \/
         fileDescriptorsUsed (lq l) + 2 <= fileDescriptorCap (lq l))
    end.
Proof.
  intros Hh Hl Hs Hq Hp Hr Hds Hdd Hnb. pose proof (se_fds _ _ _ _ _ Hs) as Hfd.
  assert (a ∈ [] ++ waiting l) as Hwa by (unfold waiting; rewrite Hp; by left).
  assert (jobsRunning r = 0) as Hj
    by (destruct (waiting_runner _ _ _ _ _ _ Hl Hwa) as (r0 & Hr0 & ?); congruence).
  assert (a ∉ b_this <$> batch) as Hnin by (intros Hin; by apply (batch_busy _ _ _ _ _ _ _ Hs Hin Hr)).
  pose proof (se_start _ _ _ _ _ Hs a r ltac:(rewrite Hp; by left) Hr) as Hb0.
  unfold take_start. rewrite (bind_ok _ _ l l l) by done. rewrite Hp.
  rewrite (bind_ok _ _ l (lq l) l) by done.
  pose proof (lift_ok (needsFileDescriptors a) l _ _ (needs_run _ _ _ _ _ Hr Hds Hdd)) as Hneed.
  rewrite lp_set_queue_id in Hneed. rewrite (bind_ok _ _ _ _ _ Hneed). rewrite negb_involutive.
  pose proof (fs_most _ _ Hfd). pose proof (fs_cap _ _ Hfd). pose proof (fs_used _ _ Hfd).
  pose proof (open_count_nonneg (lq l)). unfold RESERVED_FD_COUNT in *.
  rewrite wrap_small by (unfold in_u; lia).
  change RESERVED_HIGH_PRIORITY_FD_COUNT with 2. rewrite <- Z.leb_antisym.
  destruct ((2 <=? fileDescriptorCap (lq l) - fileDescriptorsUsed (lq l)) || (isOpen ds && isOpen dd))
    eqn:Hgo.
  2:{ apply orb_false_iff in Hgo as [Hlt ?]. exists None, l. split; [done|]. split_and!; [done|lia|done]. }
  assert (isOpen ds && isOpen dd = true \/ fileDescriptorsUsed (lq l) + 2 <= fileDescriptorCap (lq l))
    as Hfds by (apply orb_true_iff in Hgo as [?|?]; [right; lia|by left]).
  pose proof (lift_ok (get_runner a) l _ _ (get_runner_ok _ _ _ Hr)) as Hget.
  rewrite lp_set_queue_id in Hget. rewrite (bind_ok _ _ _ _ _ Hget).
  set (n := u32 (copiesPendingStartCount (lp_cq l) - 1)).
  pose proof (serving_pop _ _ _ _ _ _ _ _ _ _ n _ Hl Hs Hp Hr) as Hpop.
  set (lpop := lp_set_cq (cq_set_pending rest n (lp_cq l)) l) in Hpop.
  assert (a ∉ rest /\ a ∉ copiesPendingContinue l) as [Ha1 Ha2].
  { destruct Hl as [([_ _ _ _ Hnd _] & _) _ _ _]. unfold waiting in Hnd. rewrite Hp in Hnd.
    cbn in Hnd. inversion Hnd as [|? ? Hx _]. rewrite elem_of_app in Hx. tauto. }
  destruct (se_idle _ _ _ _ _ Hs a r Hr (not_elem_of_nil _) Hnin) as [He|[Hc _]].
  - destruct He as (He & _). unfold needsBuffer. rewrite He, andb_false_r.
    rewrite (bind_ok _ _ l tt l) by done. rewrite (bind_ok _ _ l tt lpop) by done.
    exists (Some a), lpop. split; [done|]. split; [done|]. exists r. split_and!; try done.
    split; try done; [by rewrite insert_id|unfold waiting; by rewrite Hp| |by exists r].
    destruct (se_idle _ _ _ _ _ Hs a r Hr (not_elem_of_nil _) Hnin) as [?|[[(st & _ & _ & ?) _] _]]; [by left|lia].
  - assert (needsBuffer r = true) as ->.
    { destruct Hc as [(st & _ & _ & Hsz) _]. unfold needsBuffer. rewrite Hb0, Z.eqb_refl.
      apply Z.ltb_lt. lia. }
    destruct (se_buffer _ _ _ _ _ Hs) as [|(i & Hi & Hnbi)]; [done|].
    destruct (give_served (lq l) a r (nextBuffer l) i Hh (se_geom _ _ _ _ _ Hs) Hr Hc Hb0 Hi Hnbi)
      as (al & Hg & Hc' & Hpl).
    set (r' := r_set_buffer (nextBuffer l) al r) in *. set (q' := set_runners _ _) in Hg.
    pose proof (lift_ok (giveBuffer a (nextBuffer l)) l _ _ Hg) as Hgl.
    rewrite (bind_ok _ _ l tt (lp_set_buffer 0 (lp_set_queue q' l))).
    2:{ by rewrite (bind_ok _ _ _ _ _ Hgl). }
    set (l' := lp_set_buffer 0 (lp_set_queue q' lpop)).
    rewrite (bind_ok _ _ _ tt l') by done. exists (Some a), l'. split; [done|]. split; [done|].
    exists r'. split_and!; try done.
    + split; try done; [unfold waiting; by rewrite Hp|by right|by exists r].
    + apply serving_nobuffer, (serving_update _ _ _ _ lpop a r r'); try done.
      right. split; [done|by right].
Qed.
End serving.
