(* ===== verification/Retiring.v ===== *)
(** * Giving a runner back in a world that serves it

    A runner that has nothing left to do is deleted: its buffer goes back, and with
    the last runner of a file the descriptors and the tracker.  The state of the
    submit thread that serves goes on without it. *)

From stdpp Require Import gmap strings.
From S2P Require Import Prelude Abi Prep RingBuf Ring SqSpec CqSpec Kernel Queue Os Util Heap Eta CopyState FileDesc Runner RunnerData RunnerLive RunnerSpec CopyQueue CopyJob SubmitLoop Shape Accounts System Service Rounds ServedFiles Serving.
Import Eta.Rolling Eta.ETA.

Section retiring.
Context {W : Type} {F : Files W} {K : Kernel W} {V : View W} {L : ServiceLaws W}.
Context (h0 : Heap.heap).
Implicit Types (q : queue W) (l : loop W) (P H : gset Z) (X : list Z) (r : CopyRunner).

(** What a runner in the hands of the thread, with nothing left to do, looks like. *)
Record spent_runner (X : list Z) (batch : list started) l (a : Z) r : Prop := {
  sp_runner : qu_runners (lq l) !! a = Some r;
  sp_only : forall x, x ∈ X -> x = a;
  sp_batch : a ∉ b_this <$> batch;
  sp_start : a ∉ copiesPendingStart (lp_cq l);
  sp_cont : a ∉ copiesPendingContinue l;
  sp_jobs : jobsRunning r = 0;
  sp_done : unwritten r = 0;
  sp_buffer : buffer r = 0 \/ placed h0 r;
}.

(** What is left of the queue when the runner was deleted. *)
Record dropped P P' (H' : gset Z) l (a : Z) q2 : Prop := {
  dr_ring : qu_ring q2 = qu_ring (lq l);
  dr_heap : geometry h0 (qu_heap q2);
  dr_runners : qu_runners q2 = delete a (qu_runners (lq l));
  dr_bytes : totalBytesCopied (qu_counters q2) = totalBytesCopied (qu_counters (lq l)) /\
    totalBytesToCopy (qu_counters q2) = totalBytesToCopy (qu_counters (lq l));
  dr_length : sv_length (world q2) = sv_length (world (lq l));
  dr_fds : fds_serve P' q2;
  dr_qfds : forall p d, qu_qfds q2 !! p = Some d -> qu_qfds (lq l) !! p = Some d;
  dr_others : forall b rb, b <> a -> qu_runners (lq l) !! b = Some rb ->
    qu_qfds q2 !! sourceFd rb = qu_qfds (lq l) !! sourceFd rb /\
    qu_qfds q2 !! destFd rb = qu_qfds (lq l) !! destFd rb /\
    (sourceFd rb ∈ P -> sourceFd rb ∈ P') /\ (destFd rb ∈ P -> destFd rb ∈ P') /\
    (sourceFd rb ∈ H' <-> destFd rb ∈ H') /\
    (qu_chunks (lq l) !! chunksRemaining rb = Some 1 ->
     qu_chunks q2 !! chunksRemaining rb = Some 1);
}.

Lemma serving_dropped P P' H H' X batch l a r q2 :
  serving h0 P H X batch l -> spent_runner X batch l a r -> H' ⊆ H -> dropped P P' H' l a q2 ->
  serving h0 P' H' [] batch (lp_set_queue q2 l).
Proof.
  intros Hs [P1 P2 P3 P4 P5 P6 P7 P8] HH [D1 D2 D3 [D4 D4'] D5 D6 D7 D8].
  destruct Hs as [S2 S3 S4 S5 S6 S7 S8 S9 S10 S11 S12 S13 S14 S15 S16].
  assert (forall b rb, qu_runners q2 !! b = Some rb ->
    b <> a /\ qu_runners (lq l) !! b = Some rb) as Hl.
  { intros b rb. rewrite D3, lookup_delete_Some. naive_solver. }
  assert (forall rb, chunk_ready h0 (lq l) rb -> chunk_ready h0 q2 rb) as Hcr.
  { intros rb [? Hw]. split; [done|]. intros ds Hds. rewrite D5. by apply Hw, D7. }
  assert (forall ls, a ∉ ls -> sources q2 ls = sources (lq l) ls) as Hsrc.
  { intros ls Hls. apply list_fmap_ext. intros i c Hc. cbn. rewrite D3, lookup_delete_ne; [done|].
    intros <-. by apply Hls, (list_elem_of_lookup_2 _ i). }
  split; change (lq (lp_set_queue q2 l)) with q2;
    change (copiesPendingStart (lp_cq (lp_set_queue q2 l))) with (copiesPendingStart (lp_cq l));
    rewrite ?Hsrc by done; rewrite ?D1, ?D4, ?D4'; try done.
  - split; [apply S4|]. intros b rb [_ Hrb]%Hl. by eapply S4.
  - intros p d Hp. by apply (S6 p d), D7.
  - intros b rb [Hne Hrb]%Hl _ Hb.
    destruct (S7 b rb Hrb ltac:(intros Hx; by apply Hne, P2) Hb) as [He|[Hc Hbf]].
    + left. destruct He as (? & ? & ? & ? & ?). split_and!; try done. by apply (D8 b rb).
    + right. split; [by apply Hcr|done].
  - apply Forall_lookup. intros i b Hi.
    destruct (Forall_lookup_1 _ _ _ _ S8 Hi) as (R1 & R2 & R3 & R4 & R5 & R6 & R7).
    assert (b_this b <> a) as Hne.
    { intros <-. apply P3. by eapply list_elem_of_fmap_2, list_elem_of_lookup_2. }
    destruct (submitted_place no_forcing 0 (b_runner b)) as (E1 & E2 & _).
    destruct (D8 _ _ Hne R1) as (A1 & A2 & A3 & A4 & _). rewrite E1, E2 in *.
    unfold batch_ok. rewrite D3, lookup_delete_ne, A1, A2 by done. split_and!; auto.
  - intros b rb Hb [Hne Hrb]%Hl. by apply (S10 b).
  - intros b rb Hb [Hne Hrb]%Hl. destruct (S11 b rb Hb Hrb) as (? & ? & ? & ?).
    destruct (D8 b rb Hne Hrb) as (_ & _ & ? & ? & _). auto.
  - intros b rb [Hne Hrb]%Hl. split; [apply (S12 b rb Hrb)|]. by apply (D8 b rb).
  - intros x Hx. apply S13. by apply HH.
  - destruct S15 as [S15 E15]. split; [done|]. rewrite E15.
    pose proof (total_delete unwritten _ _ _ P1) as E. rewrite D3. f_equal. lia.
Qed.

(** The descriptors of a runner are there. *)
Lemma runner_files rm d cur g l a r :
  loop_ok rm d cur g l -> qu_runners (lq l) !! a = Some r ->
  exists ds dd n, qu_qfds (lq l) !! sourceFd r = Some ds /\ qu_qfds (lq l) !! destFd r = Some dd /\
    qu_chunks (lq l) !! chunksRemaining r = Some n /\ 0 < n.
Proof.
  intros [(_ & [files Hf] & _) _ _ _] Hr.
  pose proof (fl_owner _ _ _ Hf a _ (shape_owner _ _ _ Hr)) as Fa.
  cbn [ow_tracker ow_src ow_dst owner_of] in Fa.
  assert (sourceFd r ∈ dom (qu_qfds (lq l)) /\ destFd r ∈ dom (qu_qfds (lq l))) as [Hs Hd].
  { split; apply (fl_keys _ _ _ Hf); right; eexists _, _, _; (split; [exact Fa|]); auto. }
  assert (chunksRemaining r ∈ dom (qu_chunks (lq l))) as Hn.
  { change (qu_chunks (lq l)) with (sh_chunks (shape_of (lq l))). rewrite <- (fl_dom _ _ _ Hf).
    by apply elem_of_dom. }
  apply elem_of_dom in Hs as [ds Hs], Hd as [dd Hd], Hn as [n Hn].
  exists ds, dd, n. split_and!; try done. by apply (fl_chunks _ _ _ Hf) in Hn as [? _].
Qed.

(** The buffer goes back. *)
Lemma spent_returned rm d cur g P H X batch l a r :
  loop_ok rm d cur g l -> serving h0 P H X batch l -> spent_runner X batch l a r ->
  exists h, returned r (qu_heap (lq l)) h /\ geometry h0 h.
Proof.
  intros [(_ & _ & Hb & _) _ _ _] Hs Hsp. pose proof (se_geom _ _ _ _ _ _ Hs) as Hg.
  unfold returned. destruct (Z.eqb_spec (buffer r) 0) as [E|E]; [by exists (qu_heap (lq l))|].
  destruct (sp_buffer _ _ _ _ _ Hsp) as [|(_ & _ & _ & i & Hi & Ei)]; [done|].
  pose proof Hg as (E1 & E2 & E3 & E4).
  assert (Heap.block_at (qu_heap (lq l)) i = Heap.block_at h0 i) as Eb
    by (unfold Heap.block_at; by rewrite E1, E3).
  assert (Heap.used_at (qu_heap (lq l)) i) as Hu.
  { apply (bl_used _ _ _ Hb); [change (sh_heap (shape_of (lq l))) with (qu_heap (lq l)); lia|].
    right. exists a, (owner_of r). split; [by apply shape_owner, Hsp|].
    change (sh_heap (shape_of (lq l))) with (qu_heap (lq l)). by rewrite Eb. }
  pose proof (Heap.returnBlock_run _ _ (bl_heap _ _ _ Hb) Hu) as Hrb.
  change (sh_heap (shape_of (lq l))) with (qu_heap (lq l)) in Hrb.
  rewrite Ei, <- Eb. by eexists.
Qed.

(** No other runner has to do with the files of the last one of a job. *)
Lemma last_apart rm d cur l a b r rb :
  loop_ok rm d cur NotAdding l -> qu_runners (lq l) !! a = Some r ->
  qu_chunks (lq l) !! chunksRemaining r = Some 1 -> b <> a -> qu_runners (lq l) !! b = Some rb ->
  chunksRemaining rb <> chunksRemaining r /\ sourceFd rb ∉ ({[sourceFd r; destFd r]} : gset Z) /\
  destFd rb ∉ ({[sourceFd r; destFd r]} : gset Z).
Proof.
  intros Hl Hr Hn Hne Hrb.
  assert (chunksRemaining rb <> chunksRemaining r) as Ht.
  { intros E. destruct Hl as [(_ & [files Hf] & _) _ _ _].
    destruct (fl_chunks _ _ _ Hf _ _ Hn) as [_ E1]. cbn [to_come] in E1.
    unfold sharing in E1.
    rewrite (total_delete _ _ _ _ (shape_owner _ _ _ Hr)) in E1. cbn [ow_tracker owner_of] in E1.
    rewrite Z.eqb_refl in E1.
    assert (0 < sharing (chunksRemaining r) (delete a (sh_owners (shape_of (lq l))))) as Hp.
    { apply (sharing_pos _ _ b (owner_of rb)); [|done].
      rewrite lookup_delete_ne by done. by apply shape_owner. }
    unfold sharing in Hp. lia. }
  split; [done|]. pose proof (same_file _ _ _ _ _ _ _ _ _ Hl Hr Hrb) as Hsf.
  split; intros [E|E]%elem_of_union; apply elem_of_singleton in E; apply Ht, Hsf; tauto.
Qed.

(** The sources of the other runners are what they were. *)
Definition others_keep l (a : Z) q2 : Prop :=
  sv_length (world q2) = sv_length (world (lq l)) /\
  forall b rb, b <> a -> qu_runners (lq l) !! b = Some rb ->
    qu_qfds q2 !! sourceFd rb = qu_qfds (lq l) !! sourceFd rb.

Lemma dropped_keep P P' H' l a q2 : dropped P P' H' l a q2 -> others_keep l a q2.
Proof. intros [_ _ _ _ D5 _ _ D8]. split; [done|]. intros b rb Hb Hr. by apply (D8 b rb). Qed.

(** The last runner of a file. *)
Lemma retire_last rm d cur P H X batch l a r :
  loop_ok rm d cur NotAdding l -> serving h0 P H X batch l -> spent_runner X batch l a r ->
  qu_chunks (lq l) !! chunksRemaining r = Some 1 ->
  exists q1 q2, handleFileClose a (lq l) = Ok (None, q1) /\ qu_runners q1 !! a = Some r /\
    delete_runner a q1 = Ok (tt, q2) /\ qu_ring q2 = qu_ring (lq l) /\
    qu_runners q2 = delete a (qu_runners (lq l)) /\
    qu_counters q2 = add_keepAlive (-1) (qu_counters (lq l)) /\ others_keep l a q2 /\
    serving h0 (P ∖ {[sourceFd r; destFd r]}) (H ∖ {[sourceFd r; destFd r]}) [] batch
      (lp_set_queue q2 l).
Proof.
  intros Hl Hs Hsp Hn. pose proof (sp_runner _ _ _ _ _ Hsp) as Hr.
  destruct (spent_returned _ _ _ _ _ _ _ _ _ _ _ Hl Hs Hsp) as (h & Hh & Hg).
  destruct (se_pair _ _ _ _ _ _ Hs a r Hr) as [Hne _].
  destruct (runner_files _ _ _ _ _ _ _ Hl Hr) as (ds & dd & _ & Hds & Hdd & _).
  destruct (last_closes P (lq l) a r ds dd (se_fds _ _ _ _ _ _ Hs) Hr Hn Hds Hdd Hne)
    as (q1 & ds' & dd' & Hc & Hfd & (B1 & B2 & B3 & B4 & B5) & Hcap & Hle & Eq & Sh1 & Sh2).
  assert (qu_qfds q1 !! sourceFd r = Some ds') as Hs1
    by (by rewrite Eq, lookup_insert_ne, lookup_insert_eq).
  assert (qu_qfds q1 !! destFd r = Some dd') as Hd1 by (by rewrite Eq, lookup_insert_eq).
  rewrite <- B2 in Hh. rewrite <- B5 in Hr. rewrite <- B4 in Hn.
  pose proof (delete_runner_last a r h q1 ds' dd' Hr (sp_jobs _ _ _ _ _ Hsp) Hh Hn Hne
    Hs1 Sh1 Hd1 Sh2) as Hdel.
  set (q2 := set_runners _ _) in Hdel. exists q1, q2. rewrite B5 in Hr.
  assert (qu_runners q2 = delete a (qu_runners (lq l))) as E2 by (cbn; by rewrite B5).
  split; [done|]. split; [by rewrite B5|]. split; [done|]. split; [by rewrite <- B1|].
  split; [done|]. split; [cbn; by rewrite B3|].
  assert (forall p, p <> sourceFd r -> p <> destFd r -> qu_qfds q2 !! p = qu_qfds (lq l) !! p) as Hq.
  { intros p Hp1 Hp2. cbn. rewrite Eq, !lookup_delete_ne, !lookup_insert_ne by done. done. }
  set (S := {[sourceFd r; destFd r]} : gset Z) in *.
  assert (dropped P (P ∖ S) (H ∖ S) l a q2) as Hdr;
    [|split; [by eapply dropped_keep|];
      by apply (serving_dropped P _ H (H ∖ S) X batch l a r q2 Hs Hsp ltac:(set_solver) Hdr)].
  split.
  - by rewrite <- B1.
  - done.
  - done.
  - cbn. by rewrite B3.
  - rewrite <- Hle. done.
  - pose proof (deleted_serves _ _ _ _ Hfd Hs1 (shut_not_open _ Sh1)) as Hf1.
    pose proof (deleted_serves _ _ (destFd r) dd' Hf1 ltac:(cbn; by rewrite lookup_delete_ne)
      (shut_not_open _ Sh2)) as Hf2.
    by eapply fds_serve_same.
  - intros p x Hp. assert (p <> destFd r /\ p <> sourceFd r) as [Hp2 Hp1].
    { cbn in Hp. rewrite !lookup_delete_Some in Hp. naive_solver. }
    by rewrite <- Hq.
  - intros b rb Hb Hrb. rewrite B4 in Hn.
    destruct (last_apart _ _ _ _ _ _ _ _ Hl Hr Hn Hb Hrb) as (Ht & Hs' & Hd').
    fold S in Hs', Hd'.
    assert (sourceFd rb <> sourceFd r /\ sourceFd rb <> destFd r /\
      destFd rb <> sourceFd r /\ destFd rb <> destFd r) as (N1 & N2 & N3 & N4)
      by (clear -Hs' Hd'; unfold S in *; set_solver).
    rewrite !Hq by done. split_and!; try done; rewrite ?elem_of_difference; try tauto.
    + pose proof (proj2 (se_pair _ _ _ _ _ _ Hs b rb Hrb)). tauto.
    + cbn. by rewrite lookup_delete_ne, B4.
Qed.

(** One that leaves others of its file behind. *)
Lemma retire_more rm d cur P H X batch l a r n :
  loop_ok rm d cur NotAdding l -> serving h0 P H X batch l -> spent_runner X batch l a r ->
  qu_chunks (lq l) !! chunksRemaining r = Some n -> 1 < n ->
  exists q2, handleFileClose a (lq l) = Ok (None, lq l) /\
    delete_runner a (lq l) = Ok (tt, q2) /\ qu_ring q2 = qu_ring (lq l) /\
    qu_runners q2 = delete a (qu_runners (lq l)) /\
    qu_counters q2 = add_keepAlive (-1) (qu_counters (lq l)) /\ others_keep l a q2 /\
    serving h0 P H [] batch (lp_set_queue q2 l).
Proof.
  intros Hl Hs Hsp Hn H1. pose proof (sp_runner _ _ _ _ _ Hsp) as Hr.
  destruct (spent_returned _ _ _ _ _ _ _ _ _ _ _ Hl Hs Hsp) as (h & Hh & Hg).
  pose proof (delete_runner_more a r n h (lq l) Hr (sp_jobs _ _ _ _ _ Hsp) Hh Hn H1) as Hdel.
  eexists. split; [|split; [exact Hdel|]].
  { unfold handleFileClose. rewrite (bind_ok _ _ _ _ _ (get_runner_ok _ _ _ Hr)).
    rewrite (bind_ok _ _ _ _ _ (deref_ok qu_chunks _ _ _ Hn : get_chunks _ _ = _)).
    by case_z; [lia|]. }
  do 3 (split; [done|]). set (q2 := set_runners _ _).
  assert (dropped P P H l a q2) as Hdr;
    [|split; [by eapply dropped_keep|];
      by apply (serving_dropped P P H H X batch l a r q2 Hs Hsp ltac:(done) Hdr)].
  split; try done.
  - by eapply fds_serve_same; [apply (se_fds _ _ _ _ _ _ Hs)|..].
  - intros b rb Hb Hrb. split_and!; try done; [apply (se_pair _ _ _ _ _ _ Hs b rb Hrb)|].
    intros E. cbn. rewrite lookup_insert_ne; [done|]. intros Et. rewrite Et in Hn. 
    rewrite E in Hn. injection Hn as <-. lia.
Qed.
End retiring.
