(* ===== verification/Starting.v ===== *)
(** * Starting a runner in a world that serves it

    What the submit thread does with the runner it has taken: the requests of a chunk
    are queued, a file of no bytes is created and done with. *)

From stdpp Require Import gmap strings.
From S2P Require Import Prelude Abi Prep RingBuf Ring SqSpec CqSpec Kernel Queue Os Util Heap Eta CopyState FileDesc Runner RunnerData RunnerLive RunnerSpec CopyQueue CopyJob SubmitLoop Shape Accounts System Service Rounds ServedFiles Serving Retiring.
Import Eta.Rolling Eta.ETA.

Section starting.
Context {W : Type} {F : Files W} {K : Kernel W} {V : View W} {L : ServiceLaws W}.
Context (h0 : Heap.heap).
Implicit Types (q : queue W) (l : loop W) (P H : gset Z) (X : list Z) (r : CopyRunner).

(** ** Opening *)

Lemma chunk_ready_open q q' r :
  opened_more q q' -> sv_length (world q') = sv_length (world q) ->
  chunk_ready h0 q r -> chunk_ready h0 q' r.
Proof.
  intros [Ho _] Hl [Hf Hw]. split; [done|]. intros ds' Hds'.
  destruct (Ho _ _ Hds') as (ds & Hds & Ep & _). rewrite Hl, Ep. by apply Hw.
Qed.

Lemma serving_open P P' H X batch l q1 :
  serving h0 P H X batch l -> P ⊆ P' -> fds_serve P' q1 -> same_but_files (lq l) q1 ->
  sv_length (world q1) = sv_length (world (lq l)) -> opened_more (lq l) q1 ->
  serving h0 P' H X batch (lp_set_queue q1 l).
Proof.
  intros Hs HP Hfd (B1 & B2 & B3 & B4 & B5) Hle Ho.
  destruct Hs as [S2 S3 S4 S5 S6 S7 S8 S9 S10 S11 S12 S13 S14 S15 S16].
  assert (forall ls, sources q1 ls = sources (lq l) ls) as Hsrc
    by (intros ls; unfold sources; by rewrite B5).
  assert (forall p d, p ∈ P -> qu_qfds (lq l) !! p = Some d -> qu_qfds q1 !! p = Some d) as Hkeep.
  { intros p d Hp Hd. destruct (proj2 Ho p d Hd) as (d' & Hd' & E).
    rewrite E in Hd'; [done|]. by apply (fs_started _ _ S5 p). }
  split; change (lq (lp_set_queue q1 l)) with q1; rewrite ?B1, ?B2, ?B3, ?B5; try done.
  - intros p d Hp. destruct (proj1 Ho p d Hp) as (d0 & Hd0 & _ & [-> |[_ E]]); [by apply (S6 p)|].
    unfold isOpen in E. apply Z.ltb_lt in E. unfold CLOSED_VAL. lia.
  - intros a r Hr Hx Hn. destruct (S7 a r Hr Hx Hn) as [He|[Hc Hb]]; [left|right; split; [|done]].
    + unfold empty_ok in *. by rewrite B4.
    + by eapply chunk_ready_open.
  - eapply Forall_impl; [|exact S8]. intros b (R1 & R2 & R3 & R4 & R5 & (ds & R6 & R7) & (dd & R8 & R9)).
    split_and!; try done; try (by apply HP).
    + by rewrite B5.
    + by eapply chunk_ready_open.
    + exists ds. split; [by apply Hkeep|done].
    + exists dd. split; [by apply Hkeep|done].
  - intros a r Ha Hr. destruct (S11 a r Ha Hr) as (? & ? & ? & ?).
    split_and!; try done; by apply HP.
  - change (copiesPendingStart (lp_cq (lp_set_queue q1 l))) with (copiesPendingStart (lp_cq l)).
    by rewrite Hsrc.
  - change (copiesPendingStart (lp_cq (lp_set_queue q1 l))) with (copiesPendingStart (lp_cq l)).
    by rewrite Hsrc.
Qed.

(** [submitReadWriteCommands] goes on from the state [open_both] leaves. *)
Lemma commands_after_open fuel this r n1 n2 q q1 :
  qu_runners q !! this = Some r -> open_both fuel r q = Ok (None, q1) ->
  qu_runners q1 !! this = Some r -> open_both fuel r q1 = Ok (None, q1) ->
  submitReadWriteCommands no_forcing fuel this n1 n2 q =
    submitReadWriteCommands no_forcing fuel this n1 n2 q1.
Proof.
  intros Hr Ho Hr1 Ho1. unfold submitReadWriteCommands.
  rewrite (bind_ok _ _ _ _ _ (get_runner_ok _ _ _ Hr)), (bind_ok _ _ _ _ _ Ho).
  by rewrite (bind_ok _ _ _ _ _ (get_runner_ok _ _ _ Hr1)), (bind_ok _ _ _ _ _ Ho1).
Qed.

(** A runner with its requests queued joins the batch. *)
Lemma serving_queued P H X batch l b q' :
  let a := b_this b in let r := b_runner b in
  serving h0 P H X batch l -> qu_runners (lq l) !! a = Some r -> a ∉ b_this <$> batch ->
  a ∉ copiesPendingStart (lp_cq l) -> a ∉ copiesPendingContinue l ->
  chunk_ready h0 (lq l) r -> placed h0 r -> sourceFd r ∈ P -> destFd r ∈ P ->
  (exists ds, qu_qfds (lq l) !! sourceFd r = Some ds /\ q_fd ds = b_src b) ->
  (exists dd, qu_qfds (lq l) !! destFd r = Some dd /\ q_fd dd = b_dst b) ->
  queued a (submitted no_forcing 0 r) (b_entries b) (lq l) q' ->
  serving h0 P H X (batch ++ [b]) (lp_set_queue q' l).
Proof.
  intros a r Hs Hr Hnb Hn1 Hn2 Hc Hpl Hp1 Hp2 Hds Hdd [Q1 Q2 Q3 Q4 Q5 Q6].
  destruct Hs as [S2 S3 S4 S5 S6 S7 S8 S9 S10 S11 S12 S13 S14 S15 S16].
  set (r' := submitted no_forcing 0 r) in *.
  destruct (submitted_place no_forcing 0 r : same_place r r') as (P1 & P2 & P3 & P4 & P5 & P6 & P7 & P8).
  assert (qu_runners q' = <[a := r']> (qu_runners (lq l))) as E1 by (by rewrite Q1).
  assert (qu_qfds q' = qu_qfds (lq l) /\ qu_heap q' = qu_heap (lq l) /\
    qu_chunks q' = qu_chunks (lq l) /\ qu_os q' = qu_os (lq l) /\
    fileDescriptorsUsed q' = fileDescriptorsUsed (lq l) /\
    fileDescriptorCap q' = fileDescriptorCap (lq l)) as (E2 & E3 & E4 & E5 & E6 & E7)
    by (rewrite Q1; done).
  assert (forall c rc, qu_runners q' !! c = Some rc ->
    c = a /\ rc = r' \/ c <> a /\ qu_runners (lq l) !! c = Some rc) as Hl.
  { intros c rc Hrc. rewrite E1 in Hrc. apply lookup_insert_Some in Hrc. naive_solver. }
  assert (forall rc, chunk_ready h0 (lq l) rc -> chunk_ready h0 q' rc) as Hcr.
  { intros rc [? Hw]. split; [done|]. rewrite E2. unfold world. by rewrite E5. }
  assert (forall ls, sources q' ls = sources (lq l) ls) as Hsrc.
  { intros ls. apply list_fmap_ext. intros i c _. cbn. rewrite E1.
    destruct (decide (a = c)) as [<-|Hne]; [|by rewrite lookup_insert_ne].
    rewrite lookup_insert_eq, Hr. cbn. by rewrite P1. }
  split; change (lq (lp_set_queue q' l)) with q';
    change (copiesPendingStart (lp_cq (lp_set_queue q' l))) with (copiesPendingStart (lp_cq l));
    rewrite ?E2, ?E3, ?Hsrc; try done.
  - change (ringSize (lp_cq (lp_set_queue q' l))) with (ringSize (lp_cq l)).
    destruct S2 as [[R0 R1] R2 R3 R4 R5]. rewrite Q3. split; cbn; try done.
    + by rewrite <- R3.
    + change (published (sq_abs (r_sq (qu_ring q'))) = []). by rewrite Q6.
  - split; [apply S4|]. by intros c rc [[-> ->]|[Hne Hrc]]%Hl; eapply S4.
  - by eapply fds_serve_same; [exact S5|done|done|done|unfold world; rewrite E5..].
  - intros c rc Hrc Hx Hnc. rewrite fmap_app in Hnc. apply not_elem_of_app in Hnc as [Hnc Hca].
    destruct (Hl c rc Hrc) as [[-> _]|[_ Hrc']]; [by destruct Hca; left|].
    destruct (S7 c rc Hrc' Hx Hnc) as [He|[Hcc Hb]]; [left|right; split; [by apply Hcr|done]].
    unfold empty_ok in *. by rewrite E4.
  - apply Forall_app. split.
    + apply Forall_lookup. intros i c Hi.
      destruct (Forall_lookup_1 _ _ _ _ S8 Hi) as (R1 & R2 & R3 & R4 & R5 & R6 & R7).
      assert (b_this c <> a) as Hne.
      { intros E. apply Hnb. rewrite <- E. by eapply list_elem_of_fmap_2, list_elem_of_lookup_2. }
      unfold batch_ok. rewrite E1, E2, lookup_insert_ne by done. split_and!; try done.
      by apply Hcr.
    + apply Forall_singleton. unfold batch_ok. rewrite E1, E2, lookup_insert_eq.
      split_and!; try done. by apply Hcr.
  - rewrite fmap_app. apply list.NoDup_app. split_and!; [done| |apply list.NoDup_singleton].
    intros c Hin [->|Hx%elem_of_nil]%elem_of_cons; done.
  - intros c rc Hin Hrc. destruct (Hl c rc Hrc) as [[-> _]|[_ Hrc']]; [done|by apply (S10 c)].
  - intros c rc Hin Hrc. destruct (Hl c rc Hrc) as [[-> _]|[_ Hrc']]; [done|by apply (S11 c)].
  - intros c rc Hrc. destruct (Hl c rc Hrc) as [[-> ->]|[_ Hrc']]; [|by apply (S12 c)].
    rewrite P1, P2. by apply (S12 a).
  - rewrite E1, (total_update _ _ _ _ _ Hr), Q2. cbn. destruct S15 as [? ->].
    assert (unwritten r' = unwritten r) as ->.
    { unfold unwritten, chunk_end. rewrite P6, P7.
      destruct Hc as [_ Hw]. destruct Hds as (ds & Hds & _). destruct (Hw ds Hds) as [_ (bf & dt & Hco) _ Hleft].
      destruct (submitted_fields no_forcing r 0 Hleft (co_jobs _ _ _ _ _ _ Hco))
        as (_ & _ & Ewo & _).
      change (submitted no_forcing 0 r) with r' in Ewo. by rewrite Ewo. }
    split; [apply wrap_range; lia|f_equal; lia].
Qed.

(** Queueing the requests of a runner that has its buffer. *)
Lemma addToBatch_served P H X batch l a r ds dd fuel n1 n2 :
  serving h0 P H X batch l -> queued_ring batch (lq l) -> (0 < fuel)%nat ->
  qu_runners (lq l) !! a = Some r -> a ∉ b_this <$> batch ->
  a ∉ copiesPendingStart (lp_cq l) -> a ∉ copiesPendingContinue l ->
  chunk_ready h0 (lq l) r -> placed h0 r ->
  qu_qfds (lq l) !! sourceFd r = Some ds -> qu_qfds (lq l) !! destFd r = Some dd ->
  isOpen ds && isOpen dd = true \/ fileDescriptorsUsed (lq l) + 2 <= fileDescriptorCap (lq l) ->
  2 <= room (lq l) ->
  exists q' b, addToBatch no_forcing fuel a n1 n2 (lq l) = Ok (None, q') /\
    serving h0 ({[sourceFd r; destFd r]} ∪ P) H X (batch ++ [b]) (lp_set_queue q' l) /\
    b_this b = a /\ b_runner b = r /\ queued_ring (batch ++ [b]) q' /\
    qu_runners q' = <[a := submitted no_forcing 0 r]> (qu_runners (lq l)) /\
    qu_counters q' = add_submissions (zlen (b_entries b)) (qu_counters (lq l)) /\
    sv_length (world q') = sv_length (world (lq l)).
Proof.
  intros Hs Hq Hf Hr Hnb Hn1 Hn2 Hc Hpl Hds Hdd Hor Hroom.
  destruct (se_pair _ _ _ _ _ _ Hs a r Hr) as [Hne _].
  destruct (open_both_served P (lq l) r ds dd fuel (se_fds _ _ _ _ _ _ Hs) (se_none _ _ _ _ _ _ Hs) Hf
    Hds Hdd Hne Hor) as (q1 & Ho & Hfd & Hsame & Hcap & Hle & Hmore & Ho1).
  pose proof (serving_open P ({[sourceFd r; destFd r]} ∪ P) H X batch l q1 Hs ltac:(set_solver) Hfd Hsame Hle Hmore) as Hs1.
  set (P' := {[sourceFd r; destFd r]} ∪ P) in *.
  pose proof Hsame as (B1 & B2 & B3 & B4 & B5).
  assert (qu_runners q1 !! a = Some r) as Hr1 by (by rewrite B5).
  destruct (proj2 Hmore _ _ Hds) as (ds1 & Hds1 & _). destruct (proj2 Hmore _ _ Hdd) as (dd1 & Hdd1 & _).
  destruct (open_fd _ _ _ _ Hfd Hds1 (fs_started _ _ Hfd (sourceFd r) _ ltac:(set_solver) Hds1)) as [Fs _].
  destruct (open_fd _ _ _ _ Hfd Hdd1 (fs_started _ _ Hfd (destFd r) _ ltac:(set_solver) Hdd1)) as [Fd _].
  pose proof (chunk_ready_open _ _ _ Hmore Hle Hc) as Hc1.
  pose proof (proj2 Hc1 _ Hds1) as [Hck (buf & dst & Hco) He Hleft].
  assert (room q1 = room (lq l)) as Er by (unfold room; by rewrite B1).
  assert (ready a q1 r ds1 dd1) as Hrdy.
  { destruct Hpl as (Hp1 & Hp2 & Hp3 & _). split; try done.
    - unfold in_s. lia.
    - rewrite B1. apply (rz_ok _ _ (se_ring _ _ _ _ _ _ Hs)).
    - lia. }
  destruct (submit_commands_ok no_forcing fuel Hf a q1 r ds1 dd1 n1 n2 Hrdy (co_jobs _ _ _ _ _ _ Hco) Hleft)
    as (q' & Hsub & Hqd).
  set (b := mk_started a r (q_fd ds1) (q_fd dd1)).
  change (round_entries no_forcing a (q_fd ds1) (q_fd dd1) n1 n2 r) with (b_entries b) in Hqd.
  change (submitted no_forcing n1 r) with (submitted no_forcing 0 r) in Hqd.
  destruct Hqd as [Q1 Q2 Q3 Q4 Q5 Q6]. exists q', b. split.
  { unfold addToBatch. rewrite (bind_ok _ _ _ _ _ (get_runner_ok _ _ _ Hr)). unfold needsBuffer.
    destruct (Z.eqb_spec (buffer r) 0) as [E|_]; [by destruct (proj1 Hpl)|].
    rewrite (bind_ok _ _ (lq l) tt (lq l)) by done.
    rewrite (bind_ok _ _ (lq l) tt (lq l)) by (by rewrite He). unfold chunk_end in Hleft.
    rewrite (bind_ok _ _ (lq l) tt (lq l)) by (unfold assert; by case_z; [|lia]).
    rewrite (commands_after_open fuel a r n1 n2 (lq l) q1); done. }
  destruct Hq as (Hcq & Hacq & Hsub').
  assert (qu_runners q' = <[a := submitted no_forcing 0 r]> (qu_runners (lq l))) as E1
    by (rewrite Q1; cbn; by rewrite B5).
  assert (qu_counters q' = add_submissions (zlen (b_entries b)) (qu_counters (lq l))) as E2
    by (by rewrite Q2, B3).
  split; [|split; [done|split; [done|split; [|split; [done|split; [done|]]]]]].
  - assert (serving h0 ({[sourceFd r; destFd r]} ∪ P) H X (batch ++ [b])
      (lp_set_queue q' (lp_set_queue q1 l))); [|done].
    apply serving_queued; try done; try set_solver; cbn; rewrite ?B5; eauto.
  - assert (acquired (sq_abs (r_sq (qu_ring q'))) =
      acquired (sq_abs (r_sq (qu_ring (lq l)))) ++ b_entries b) as Ea by (by rewrite Q6, <- B1).
    split_and!.
    + rewrite Q3. cbn. by rewrite B1.
    + rewrite Ea, Hacq, fmap_app, concat_app. cbn. by rewrite app_nil_r.
    + rewrite E2, Ea, zlen_app. cbn. by rewrite Hsub', wrap_add_l.
  - unfold world. rewrite Q1. exact Hle.
Qed.
(** ** A file of no bytes *)

(** Closing both files and deleting the last runner of a file, as one step. *)
Lemma add_empty_served rm P X batch l a r ds dd fuel :
  let S := {[sourceFd r; destFd r]} : gset Z in
  loop_ok rm 0 [a] NotAdding l -> serving h0 P (S ∪ P) X batch l ->
  spent_runner h0 X batch l a r -> qu_chunks (lq l) !! chunksRemaining r = Some 1 ->
  (0 < fuel)%nat ->
  qu_qfds (lq l) !! sourceFd r = Some ds -> qu_qfds (lq l) !! destFd r = Some dd ->
  isOpen ds && isOpen dd = true \/ fileDescriptorsUsed (lq l) + 2 <= fileDescriptorCap (lq l) ->
  exists q, add_empty fuel a l = Ok (tt, lp_set_queue q l) /\
    serving h0 (P ∖ S) (P ∖ S) [] batch (lp_set_queue q l) /\
    qu_ring q = qu_ring (lq l) /\ qu_runners q = delete a (qu_runners (lq l)) /\
    qu_counters q = add_keepAlive (-1) (qu_counters (lq l)) /\
    sv_length (world q) = sv_length (world (lq l)).
Proof.
  intros S Hl Hs Hsp Hn Hf Hds Hdd Hor. pose proof (sp_runner _ _ _ _ _ _ Hsp) as Hr.
  destruct (ensureOpened_served P (lq l) (destFd r) dd fuel (se_fds _ _ _ _ _ _ Hs) Hdd
    (se_none _ _ _ _ _ _ Hs _ _ Hdd) Hf) as (q1 & Ho & Hfd & Hsame & _ & Hle & Hmore & _).
  { destruct Hor as [[_ ?]%andb_prop|?]; [by left|right; lia]. }
  pose proof (serving_open P ({[destFd r]} ∪ P) _ X batch l q1 Hs ltac:(set_solver) Hfd Hsame Hle
    Hmore) as Hs1. pose proof Hsame as (B1 & B2 & B3 & B4 & B5).
  set (l1 := lp_set_queue q1 l) in *.
  pose proof (lift_ok (ensureOpened fuel (destFd r)) l _ _ Ho) as Hol.
  destruct (loop_ok_keeps _ _ _ _ _ _ _ _ (keeps_ensureOpened _ _) Hl Hol) as [Hl1 _]. fold l1 in Hl1.
  assert (spent_runner h0 X batch l1 a r) as Hsp1.
  { destruct Hsp. split; try done. change (qu_runners q1 !! a = Some r). by rewrite B5. }
  destruct (retire_last h0 _ _ _ _ _ X batch l1 a r Hl1 Hs1 Hsp1)
    as (q2 & q3 & Hc & _ & Hd & R1 & R2 & R3 & [R4 _] & Hs3).
  { change (qu_chunks q1 !! chunksRemaining r = Some 1). by rewrite B4. }
  exists q3. change (qu_ring (lq l1)) with (qu_ring q1) in R1.
  change (qu_runners (lq l1)) with (qu_runners q1) in R2.
  change (qu_counters (lq l1)) with (qu_counters q1) in R3. rewrite B1 in R1. rewrite B5 in R2.
  rewrite B3 in R3. split; [|split; [|do 3 (split; [done|]); by rewrite R4]].
  - unfold add_empty. pose proof (lift_ok (get_runner a) l _ _ (get_runner_ok _ _ _ Hr)) as Hg.
    rewrite lp_set_queue_id in Hg. rewrite (bind_ok _ _ _ _ _ Hg), (bind_ok _ _ _ _ _ Hol).
    pose proof (lift_ok (handleFileClose a) l1 _ _ Hc) as Hcl.
    rewrite (bind_ok _ _ _ _ _ Hcl). rewrite (bind_ok _ _ _ tt (lp_set_queue q2 l1)) by done.
    by rewrite (lift_ok (delete_runner a) (lp_set_queue q2 l1) _ _ Hd).
  - fold S in Hs3. assert (({[destFd r]} ∪ P) ∖ S = P ∖ S) as E1 by (unfold S; set_solver).
    assert ((S ∪ P) ∖ S = P ∖ S) as E2 by set_solver. rewrite E1, E2 in Hs3. exact Hs3.
Qed.
End starting.
