(* ===== verification/Adding.v ===== *)
(** * The loop that starts runners, in a world that serves them

    One iteration on each of its branches: a runner continued, a chunk or an empty
    file started, nothing to start; and the loop itself.  With nothing outstanding it
    never gets stuck: a buffer is free, and the copy at the head of those waiting has
    its files open already or there are descriptors enough to open them. *)

From stdpp Require Import gmap strings.
From S2P Require Import Prelude Abi Prep RingBuf Ring SqSpec CqSpec Kernel Queue Os Util Heap Eta CopyState FileDesc Runner RunnerData RunnerLive RunnerSpec CopyQueue CopyJob SubmitLoop Shape Accounts System SystemSpec Service Rounds ServedFiles Serving Retiring Starting.
Import Eta.Rolling Eta.ETA.

Lemma sext_add_l w x y : sext w (sext w x + y) = sext w (x + y).
Proof.
  assert (sext w x mod 2 ^ w = x mod 2 ^ w) as E.
  { unfold sext. destruct (_ <? _); [by rewrite Zmod_mod|].
    replace (x mod 2 ^ w - 2 ^ w) with (x mod 2 ^ w + (-1) * 2 ^ w) by lia.
    by rewrite Z_mod_plus_full, Zmod_mod. }
  assert ((sext w x + y) mod 2 ^ w = (x + y) mod 2 ^ w) as E2
    by (by rewrite Zplus_mod, E, <- Zplus_mod).
  unfold sext at 1 3. by rewrite E2.
Qed.

(** What the runners alive may still need, in rounds. *)
Definition load {W} (l : loop W) : Z := total weight (qu_runners (lq l)).

Lemma weight_submitted r : weight (submitted no_forcing 0 r) = weight r.
Proof.
  unfold submitted. destruct (_ =? 0), (forced_partial _ _ _); cbn [negb];
    match goal with |- context [if ?b then _ else _] => destruct b end; done.
Qed.

Section adding.
Context {W : Type} {F : Files W} {K : Kernel W} {V : View W} {L : ServiceLaws W}.
Context (h0 : Heap.heap).
Implicit Types (q : queue W) (l : loop W) (P H : gset Z) (X : list Z) (r : CopyRunner).

(** ** Who waits *)

Lemma waiting_few rm d cur g l : loop_ok rm d cur g l -> zlen (cur ++ waiting l) < 2 ^ 32.
Proof.
  intros [([_ W2 _ _ W5 W6] & _) _ _ _]. eapply Z.le_lt_trans; [|exact W2].
  change (sh_owners (shape_of (lq l))) with (owner_of <$> qu_runners (lq l)) in *.
  rewrite alive_size. unfold zlen. apply inj_le.
  rewrite <- (size_list_to_set (C := gset Z) (cur ++ waiting l)) by done.
  rewrite <- (size_dom (D := gset Z) (qu_runners (lq l))). apply subseteq_size.
  intros a Ha. apply elem_of_list_to_set, W6 in Ha as (o & Ho & _).
  rewrite lookup_fmap_Some in Ho. destruct Ho as (r & _ & Hr). by apply elem_of_dom.
Qed.

Lemma idle_jobs rm d cur g l a r :
  loop_ok rm d cur g l -> qu_runners (lq l) !! a = Some r -> idle_ok h0 (lq l) r -> jobsRunning r = 0.
Proof.
  intros Hl Hr [(_ & ? & _)|[[_ Hw] _]]; [done|].
  destruct (runner_files _ _ _ _ _ _ _ Hl Hr) as (ds & _ & _ & Hds & _).
  destruct (Hw ds Hds) as [_ (buf & dst & Hc) _ _]. by rewrite (co_jobs _ _ _ _ _ _ Hc).
Qed.

(** With nothing started, everyone waits. *)
Lemma all_waiting rm d g P H l a r :
  loop_ok rm d [] g l -> serving h0 P H [] [] l -> qu_runners (lq l) !! a = Some r -> a ∈ waiting l.
Proof.
  intros Hl Hs Hr.
  pose proof (idle_jobs _ _ _ _ _ _ _ Hl Hr
    (se_idle _ _ _ _ _ _ Hs a r Hr (not_elem_of_nil _) (not_elem_of_nil _))) as Hj.
  destruct Hl as [([_ _ _ _ _ W6] & _) _ _ _]. apply (W6 a). exists (owner_of r).
  split; [by apply shape_owner|done].
Qed.

(** The guard of the loop: it goes on when there is work and room, and with nothing
    started there is room. *)
Lemma must_wait_served P batch l :
  loop_ok 0 0 [] NotAdding l -> serving h0 P P [] batch l -> queued_ring batch (lq l) ->
  2 <= ringSize (lp_cq l) ->
  exists b, must_wait l = Ok (b, l) /\
    (b = false -> 2 <= room (lq l) /\ loop_ok 2 0 [] NotAdding l) /\
    (b = true -> cq_state (lp_cq l) = AdditionComplete -> batch = [] -> waiting l = []).
Proof.
  intros Hl Hs (Hq1 & Hq2 & Hq3) H2. pose proof (waiting_few _ _ _ _ _ Hl) as Hfew.
  destruct (must_wait l) as [[b l0]| |] eqn:Hw; [|done..].
  destruct (must_wait_ok _ _ _ _ Hl Hw) as [-> Hok]. exists b. split; [done|].
  injection Hw as <-. fold (lq l) in *. destruct (se_ring _ _ _ _ _ _ Hs) as [[R1 _] _ R3 _ R5].
  set (dir := is_running (cq_state (lp_cq l)) && _) in *.
  set (s := sq_abs (r_sq (qu_ring (lq l)))) in *.
  destruct (sq_abs_lengths _ R1) as [_ La]. fold s in La.
  pose proof (sq_unflushed_range _ R1). pose proof (sq_pending_range _ R1).
  pose proof (lo_ring _ _ _ _ _ Hl) as Hri.
  assert (zlen (acquired s) <= ringSize (lp_cq l)) as Hle by lia.
  assert (0 <= zlen (acquired s)) by (unfold zlen; lia).
  rewrite Hq3, !(wrap_small 32 (zlen _)) in * by (unfold in_u; lia).
  rewrite (lo_count _ _ _ _ _ Hl) in *. unfold waiting in Hfew. cbn [app] in Hfew.
  rewrite zlen_app in Hfew.
  assert (0 <= zlen (copiesPendingStart (lp_cq l)) /\ 0 <= zlen (copiesPendingContinue l)) as []
    by (unfold zlen; lia).
  rewrite (wrap_small 32 (zlen _)), (wrap_small 64 (zlen _ + zlen _)) in * by (unfold in_u; lia).
  rewrite (wrap_small 64 (ringSize _ - _)) in * by (unfold in_u; lia).
  change MAX_JOBS_PER_RUNNER with 2 in *. split.
  - intros Hb. split; [|by apply Hok]. unfold room. fold s. rewrite R5, R3.
    change (zlen []) with 0. bools. lia.
  - intros Hb Hst ->. assert (zlen (acquired s) = 0) as E0 by (by rewrite Hq2).
    unfold dir in Hb. rewrite Hst in Hb. cbn [is_running andb] in Hb. rewrite orb_false_r in Hb.
    apply orb_true_iff in Hb as [Hb|Hb]; bools; [|lia]. unfold waiting.
    apply nil_length_inv. rewrite length_app. unfold zlen in *. lia.
Qed.

(** ** Progress *)

(** With nothing started and nothing to continue a buffer is free. *)
Lemma free_buffer rm d g P H l :
  loop_ok rm d [] g l -> serving h0 P H [] [] l -> copiesPendingContinue l = [] ->
  0 < Heap.blocks h0 -> nextBuffer l = 0 -> ~ Heap.used_at (qu_heap (lq l)) 0.
Proof.
  intros Hl Hs Hc Hb Hnb Hu. pose proof Hl as [(_ & _ & [Hh Hbase Hus _ _] & _) _ _ _].
  change (sh_heap (shape_of (lq l))) with (qu_heap (lq l)) in *.
  destruct (se_geom _ _ _ _ _ _ Hs) as (_ & E2 & _).
  pose proof (Heap.ho_size _ Hh). apply Hus in Hu; [|lia]. rewrite Hnb in Hu.
  unfold Heap.block_at in Hu. destruct Hu as [Hu|(a & o & Ho & Hob)]; [lia|].
  apply owner_runner in Ho as (r & Hr & ->). pose proof (all_waiting _ _ _ _ _ _ _ _ Hl Hs Hr) as Ha.
  unfold waiting in Ha. rewrite Hc, app_nil_r in Ha.
  pose proof (se_start _ _ _ _ _ _ Hs a r Ha Hr) as E. cbn in Hob. lia.
Qed.

(** With nothing started and nothing to continue, the files of the copy at the head
    are open, or can be. *)
Lemma head_opens rm P l a rest r ds dd :
  loop_ok rm 0 [] NotAdding l -> serving h0 P P [] [] l -> copiesPendingContinue l = [] ->
  copiesPendingStart (lp_cq l) = a :: rest -> qu_runners (lq l) !! a = Some r ->
  qu_qfds (lq l) !! sourceFd r = Some ds -> qu_qfds (lq l) !! destFd r = Some dd ->
  isOpen ds && isOpen dd = true \/ fileDescriptorsUsed (lq l) + 2 <= fileDescriptorCap (lq l).
Proof.
  intros Hl Hs Hc Hp Hr Hds Hdd. pose proof (se_fds _ _ _ _ _ _ Hs) as Hfd.
  pose proof (se_pair _ _ _ _ _ _ Hs a r Hr) as [_ Hpair].
  destruct (decide (sourceFd r ∈ P)) as [Hin|Hin].
  - left. rewrite (fs_started _ _ Hfd _ _ Hin Hds).
    by rewrite (fs_started _ _ Hfd _ _ (proj1 Hpair Hin) Hdd).
  - right. rewrite (fs_used _ _ Hfd). pose proof (fs_early _ _ Hfd) as He.
    rewrite open_count_eq. change RESERVED_HIGH_PRIORITY_FD_COUNT with 2 in He.
    enough (count (fun _ d => isOpen d) (qu_qfds (lq l)) = count (early P) (qu_qfds (lq l))) by lia.
    apply count_ext. intros p d Hd. unfold early. rewrite bool_decide_eq_true_2; [by rewrite andb_true_r|].
    intros HpP. apply Hin.
    pose proof Hl as [(_ & [files Hf] & _) _ _ _].
    assert (p ∈ sh_keys (shape_of (lq l))) as Hk by (apply elem_of_dom; by exists d).
    apply (fl_keys _ _ _ Hf) in Hk as [Hk%elem_of_nil|(t & x & y & Ht & Hxy)]; [done|].
    assert (is_Some (sh_chunks (shape_of (lq l)) !! t)) as [n Hn].
    { apply elem_of_dom. rewrite <- (fl_dom _ _ _ Hf). apply elem_of_dom. eauto. }
    destruct (fl_chunks _ _ _ Hf _ _ Hn) as [Hn0 En]. cbn [to_come] in En.
    assert (0 < sharing t (owner_of <$> qu_runners (lq l))) as Hsh
      by (change (owner_of <$> _) with (sh_owners (shape_of (lq l))); lia).
    apply sharing_owner in Hsh as (b & rb & Hb & Hbt).
    pose proof (fl_owner _ _ _ Hf b _ (shape_owner _ _ _ Hb)) as Hfo.
    cbn [ow_tracker ow_src ow_dst owner_of] in Hfo. rewrite Hbt, Ht in Hfo. injection Hfo as -> ->.
    assert (sourceFd rb ∈ P) as Hsb.
    { destruct Hxy as [->| ->]; [done|]. by apply (se_pair _ _ _ _ _ _ Hs b rb Hb). }
    pose proof (all_waiting _ _ _ _ _ _ _ _ Hl Hs Hb) as Hw.
    unfold waiting in Hw. rewrite Hc, app_nil_r in Hw.
    pose proof (se_head _ _ _ _ _ _ Hs (sourceFd rb) Hsb) as Hh. rewrite Hp in Hh, Hw.
    assert (Some (sourceFd rb) ∈ sources (lq l) (a :: rest)) as Hsr
      by (apply list_elem_of_fmap; exists b; by rewrite Hb).
    specialize (Hh Hsr). cbn in Hh. rewrite Hr in Hh. cbn in Hh. by injection Hh as ->.
Qed.

(** ** Taking a runner *)

Lemma serving_continue P H X batch l rest :
  serving h0 P H X batch l -> (forall a, a ∈ rest -> a ∈ copiesPendingContinue l) ->
  serving h0 P H X batch (lp_set_continue rest l).
Proof.
  intros [S2 S3 S4 S5 S6 S7 S8 S9 S10 S11 S12 S13 S14 S15 S16] Hr. split; try done.
  intros a r Ha. by apply S11, Hr.
Qed.
End adding.

Section taking.
Context {W : Type} {F : Files W} {K : Kernel W} {V : View W} {L : ServiceLaws W}.
Context (h0 : Heap.heap) (Hbase : 0 < Heap.data h0)
  (Hend : Heap.data h0 + Heap.blocks h0 * Heap.blockSize h0 < 2 ^ 63).
Implicit Types (q : queue W) (l : loop W) (P H : gset Z) (X : list Z) (r : CopyRunner).

(** What the loop needs of a runner it has taken. *)
Record in_hand rm P batch l (a : Z) r l' : Prop := {
  ih_taken : taken h0 l a r l';
  ih_serving : serving h0 P ({[sourceFd r; destFd r]} ∪ P) [] batch l';
  ih_queued : queued_ring batch (lq l');
  ih_loop : loop_ok rm 0 [a] NotAdding l';
  ih_files : exists ds dd, qu_qfds (lq l') !! sourceFd r = Some ds /\
    qu_qfds (lq l') !! destFd r = Some dd /\
    (isOpen ds && isOpen dd = true \/ fileDescriptorsUsed (lq l') + 2 <= fileDescriptorCap (lq l'));
}.

(** A runner with its buffer goes on. *)
Lemma take_continue_served rm P batch l a rest :
  loop_ok rm 0 [] NotAdding l -> serving h0 P P [] batch l -> queued_ring batch (lq l) ->
  copiesPendingContinue l = a :: rest ->
  exists l' r, take_continue l = Ok (Some a, l') /\ in_hand rm P batch l a r l'.
Proof.
  intros Hl Hs Hq Hc. assert (a ∈ [] ++ waiting l) as Hw
    by (unfold waiting; rewrite Hc; cbn; apply elem_of_app; right; by left).
  destruct (waiting_runner _ _ _ _ _ _ Hl Hw) as (r & Hr & Hj).
  destruct (se_cont _ _ _ _ _ _ Hs a r ltac:(rewrite Hc; by left) Hr) as (Hpl & Hsz & Hp1 & Hp2).
  assert (take_continue l = Ok (Some a, lp_set_continue rest l)) as Ht.
  { unfold take_continue. rewrite (bind_ok _ _ l l l) by done. rewrite Hc.
    pose proof (lift_ok (get_runner a) l _ _ (get_runner_ok _ _ _ Hr)) as Hg.
    rewrite lp_set_queue_id in Hg. rewrite (bind_ok _ _ _ _ _ Hg).
    assert (needsBuffer r = false) as ->
      by (unfold needsBuffer; destruct (Z.eqb_spec (buffer r) 0); [by destruct (proj1 Hpl)|done]).
    done. }
  exists (lp_set_continue rest l), r. split; [done|].
  assert (a ∉ b_this <$> batch) as Hnin
    by (intros Hin; by apply (batch_busy _ _ _ _ _ _ _ _ Hs Hin Hr)).
  assert ({[sourceFd r; destFd r]} ∪ P = P) as EP by (clear -Hp1 Hp2; set_solver).
  split.
  - split; try done; [by rewrite insert_id| | |by exists r].
    + unfold waiting. rewrite Hc. cbn. rewrite !length_app. cbn. lia.
    + destruct (se_idle _ _ _ _ _ _ Hs a r Hr (not_elem_of_nil _) Hnin) as [[? _]|[? _]]; [done|].
      by right.
  - rewrite EP. apply serving_continue; [done|]. rewrite Hc. by right.
  - done.
  - exact (take_continue_ok _ _ _ _ _ Hl Ht).
  - destruct (runner_files _ _ _ _ _ _ _ Hl Hr) as (ds & dd & _ & Hds & Hdd & _).
    exists ds, dd. split_and!; [done|done|left]. pose proof (se_fds _ _ _ _ _ _ Hs) as Hfd.
    by rewrite (fs_started _ _ Hfd _ _ Hp1 Hds), (fs_started _ _ Hfd _ _ Hp2 Hdd).
Qed.

(** The choice of a runner, before what is done with it. *)
Lemma take_served rm P batch l :
  loop_ok rm 0 [] NotAdding l -> serving h0 P P [] batch l -> queued_ring batch (lq l) ->
  (batch = [] -> copiesPendingContinue l = [] -> nextBuffer l <> 0) ->
  exists res l', (forall A (k : option Z -> prog (loop W) A),
      (let* toAdd := take_continue in
       let* l := get in
       let* toAdd :=
         match toAdd with
         | Some r => ret (Some r)
         | None => if negb (nextBuffer l =? 0) && (0 <? copiesPendingStartCount (lp_cq l))
                   then take_start else ret None
         end in k toAdd) l = k res l') /\
    match res with
    | None => l' = l /\ (batch = [] -> waiting l = [])
    | Some a => exists r, in_hand rm P batch l a r l'
    end.
Proof.
  intros Hl Hs Hq Hnb. destruct (copiesPendingContinue l) as [|a rest] eqn:Hc.
  2:{ destruct (take_continue_served _ _ _ _ _ _ Hl Hs Hq Hc) as (l' & r & Ht & Hih).
      exists (Some a), l'. split; [|by exists r]. intros A k.
      rewrite (bind_ok _ _ _ _ _ Ht), (bind_ok _ _ l' l' l') by done. done. }
  assert (take_continue l = Ok (None, l)) as Ht
    by (unfold take_continue; rewrite (bind_ok _ _ l l l) by done; by rewrite Hc).
  pose proof (waiting_few _ _ _ _ _ Hl) as Hfew. unfold waiting in Hfew. cbn [app] in Hfew.
  rewrite zlen_app in Hfew. rewrite Hc in Hfew. change (zlen []) with 0 in Hfew.
  assert (0 <= zlen (copiesPendingStart (lp_cq l))) by (unfold zlen; lia).
  pose proof (lo_count _ _ _ _ _ Hl) as Hcnt. rewrite wrap_small in Hcnt by (unfold in_u; lia).
  assert (forall A (k : option Z -> prog (loop W) A) res l',
    (if negb (nextBuffer l =? 0) && (0 <? copiesPendingStartCount (lp_cq l))
     then take_start else ret None) l = Ok (res, l') ->
    (let* toAdd := take_continue in
     let* l := get in
     let* toAdd :=
       match toAdd with
       | Some r => ret (Some r)
       | None => if negb (nextBuffer l =? 0) && (0 <? copiesPendingStartCount (lp_cq l))
                 then take_start else ret None
       end in k toAdd) l = k res l') as Hrun.
  { intros A k res l' H'. rewrite (bind_ok _ _ _ _ _ Ht), (bind_ok _ _ l l l) by done.
    by rewrite (bind_ok _ _ _ _ _ H'). }
  destruct (copiesPendingStart (lp_cq l)) as [|a rest] eqn:Hp.
  { exists None, l. split; [|split; [done|]].
    - intros A k. apply Hrun. rewrite Hcnt. by rewrite andb_false_r.
    - intros _. unfold waiting. by rewrite Hp, Hc. }
  assert ((0 <? copiesPendingStartCount (lp_cq l)) = true) as Hpos
    by (rewrite Hcnt; apply Z.ltb_lt; unfold zlen; cbn; lia).
  destruct (Z.eqb_spec (nextBuffer l) 0) as [E|E].
  { exists None, l. split; [intros A k; by apply Hrun|]. split; [done|]. intros Eb. by destruct (Hnb Eb eq_refl). }
  assert (a ∈ [] ++ waiting l) as Hw by (unfold waiting; rewrite Hp; by left).
  destruct (waiting_runner _ _ _ _ _ _ Hl Hw) as (r & Hr & _).
  destruct (runner_files _ _ _ _ _ _ _ Hl Hr) as (ds & dd & _ & Hds & Hdd & _).
  pose proof Hl as [(_ & _ & Hb & _) _ _ _].
  destruct (take_start_served h0 Hbase Hend rm P batch l a rest r ds dd (bl_heap _ _ _ Hb) Hl Hs Hq Hp Hr
    Hds Hdd E) as (res & l' & Hts & Hres).
  exists res, l'. split; [intros A k; apply Hrun; rewrite Hpos; exact Hts|].
  pose proof (take_start_ok _ _ _ _ _ Hl Hts) as Hl'. destruct res as [a'|].
  - destruct Hres as (-> & r' & Htk & E1 & E2 & Hs' & Hq' & Hor). exists r'.
    rewrite <- E1, <- E2 in Hs'. split; try done. exists ds, dd.
    rewrite (tk_qfds _ _ _ _ _ Htk), (tk_used _ _ _ _ _ Htk), (tk_cap _ _ _ _ _ Htk), E1, E2. done.
  - destruct Hres as (-> & Hlt & Hno). split; [done|]. intros ->.
    destruct (head_opens h0 _ _ _ _ _ _ _ _ Hl Hs Hc Hp Hr Hds Hdd) as [Ho|Ho]; [congruence|lia].
Qed.

(** ** One iteration *)

Definition lp_set_rand (n : Z) l : loop W :=
  mk_loop (lp_cq l) (nextBuffer l) (copiesPendingContinue l) n.

Lemma serving_rand P H X batch l n :
  serving h0 P H X batch l -> serving h0 P H X batch (lp_set_rand n l).
Proof. by intros [S2 S3 S4 S5 S6 S7 S8 S9 S10 S11 S12 S13 S14 S15 S16]. Qed.

Lemma room_served P H X batch l :
  serving h0 P H X batch l -> queued_ring batch (lq l) ->
  room (lq l) = ringSize (lp_cq l) - zlen (concat (b_entries <$> batch)).
Proof.
  intros Hs (_ & Ha & _). destruct (se_ring _ _ _ _ _ _ Hs) as [_ _ R3 _ R5].
  unfold room. rewrite R3, R5, Ha. change (zlen []) with 0. lia.
Qed.

Lemma load_taken l a r l' : taken h0 l a r l' -> load l' = load l.
Proof.
  intros Ht. destruct (tk_weight _ _ _ _ _ Ht) as (r0 & Hr0 & Ew). unfold load.
  rewrite (tk_runner _ _ _ _ _ Ht), (total_update _ _ _ _ _ Hr0). lia.
Qed.

(** What one iteration that started or finished something leaves; each counts. *)
Record went_on (batch : list started) l (k : Z) (batch' : list started) l' : Prop := {
  wo_load : load l' - zlen batch' + 1 <= load l - zlen batch;
  wo_less : load l' <= load l;
  wo_waiting : (length (waiting l') < length (waiting l))%nat;
  wo_added : zlen batch' = zlen batch + k;
  wo_grows : 0 <= k;
}.

(** The runner in hand is done with. *)
Lemma in_hand_fresh rm P batch l a r l' :
  in_hand rm P batch l a r l' ->
  qu_runners (lq l') !! a = Some r /\ a ∉ copiesPendingStart (lp_cq l') /\
  a ∉ copiesPendingContinue l' /\ (jobsRunning r = 0 -> a ∉ b_this <$> batch).
Proof.
  intros [Ht Hs Hq Hl _]. assert (qu_runners (lq l') !! a = Some r) as Hr
    by (rewrite (tk_runner _ _ _ _ _ Ht); apply lookup_insert_eq).
  destruct Hl as [([_ _ _ _ Hnd _] & _) _ _ _]. apply list.NoDup_cons in Hnd as [Hn _].
  unfold waiting in Hn. rewrite elem_of_app in Hn. split; [done|]. do 2 (split; [tauto|]).
  intros Hj Hin. by apply (batch_busy _ _ _ _ _ _ _ _ Hs Hin Hr).
Qed.

Lemma hand_empty fuel P batch l a r l' :
  in_hand 2 P batch l a r l' -> size r = 0 -> (0 < fuel)%nat ->
  exists l2 P2, add_empty fuel a l' = Ok (tt, l2) /\ serving h0 P2 P2 [] batch l2 /\
    queued_ring batch (lq l2) /\ steady l l2 /\ went_on batch l 0 batch l2.
Proof.
  intros Hih Hsz Hf. destruct (in_hand_fresh _ _ _ _ _ _ _ Hih) as (Hr & Hn1 & Hn2 & Hnb).
  destruct Hih as [Ht Hs Hq Hl (ds & dd & Hds & Hdd & Hor)].
  destruct (tk_ready _ _ _ _ _ Ht) as [(_ & Hj & Hb & Hu & Hc)|[[(st & _ & _ & ?) _] _]]; [|lia].
  destruct (add_empty_served h0 2 P [] batch l' a r ds dd fuel Hl Hs) as
    (q & He & Hs2 & E1 & E2 & E3 & E4); try done.
  { split; try done; [by intros x ?%elem_of_nil|by apply Hnb|by left]. }
  exists (lp_set_queue q l'), (P ∖ {[sourceFd r; destFd r]}). split; [done|]. split; [done|].
  split; [|split].
  - destruct Hq as (Q1 & Q2 & Q3). unfold queued_ring.
    change (lq (lp_set_queue q l')) with q. rewrite E1, E3. done.
  - destruct (tk_steady _ _ _ _ _ Ht) as (T1 & T2 & T0 & T3 & T4 & T5 & T6 & T7).
    split_and!; try done; change (lq (lp_set_queue q l')) with q; [by rewrite E3|by rewrite E4].
  - pose proof (load_taken _ _ _ _ Ht). pose proof (tk_waiting _ _ _ _ _ Ht).
    pose proof (weight_range r). pose proof (total_delete weight _ _ _ Hr) as Edel.
    split; try lia.
    + unfold load in *. change (lq (lp_set_queue q l')) with q. rewrite E2. lia.
    + unfold load in *. change (lq (lp_set_queue q l')) with q. rewrite E2. lia.
    + change (waiting (lp_set_queue q l')) with (waiting l'). lia.
Qed.

Lemma hand_chunk fuel rand P batch l a r l' :
  in_hand 2 P batch l a r l' -> size r <> 0 -> (0 < fuel)%nat -> 2 <= room (lq l') ->
  exists l2 P2 batch2, (let* rnd1 := next_rand rand in
     let* rnd2 := next_rand rand in
     let* result := on_cq (on_queue (addToBatch no_forcing fuel a rnd1 rnd2)) in
     match result with
     | Some e => do* on_cq (on_queue (delete_runner a)) in do* on_cq (onError e) in ret (true, 0)
     | None => ret (false, 1)
     end) l' = Ok ((false, 1), l2) /\
    serving h0 P2 P2 [] batch2 l2 /\ queued_ring batch2 (lq l2) /\ steady l l2 /\
    went_on batch l 1 batch2 l2.
Proof.
  intros Hih Hsz Hf Hroom. destruct (in_hand_fresh _ _ _ _ _ _ _ Hih) as (Hr & Hn1 & Hn2 & Hnb).
  destruct Hih as [Ht Hs Hq Hl (ds & dd & Hds & Hdd & Hor)].
  destruct (tk_ready _ _ _ _ _ Ht) as [(? & _)|[Hc Hpl]]; [done|].
  pose proof (idle_jobs h0 _ _ _ _ _ _ _ Hl Hr (or_intror (conj Hc (or_intror Hpl)))) as Hj.
  set (n1 := rand (lp_rand l')). set (n2 := rand (lp_rand l' + 1)).
  destruct (addToBatch_served h0 P _ [] batch l' a r ds dd fuel n1 n2 Hs Hq Hf Hr (Hnb Hj) Hn1 Hn2 Hc Hpl
    Hds Hdd Hor Hroom) as (q' & b & Ha & Hs2 & _ & _ & Hq2 & E1 & E2 & E3).
  exists (lp_set_queue q' (lp_set_rand (lp_rand l' + 1 + 1) l')), ({[sourceFd r; destFd r]} ∪ P), (batch ++ [b]).
  split; [|split; [|split; [done|split]]].
  - rewrite (bind_ok _ _ l' n1 (lp_set_rand (lp_rand l' + 1) l')) by done.
    rewrite (bind_ok _ _ _ n2 (lp_set_rand (lp_rand l' + 1 + 1) l')) by done.
    by rewrite (bind_ok _ _ _ _ _ (lift_ok _ (lp_set_rand (lp_rand l' + 1 + 1) l') _ _ Ha)).
  - exact (serving_rand _ _ _ _ _ (lp_rand l' + 1 + 1) Hs2).
  - destruct (tk_steady _ _ _ _ _ Ht) as (T1 & T2 & T0 & T3 & T4 & T5 & T6 & T7).
    split_and!; try done; change (lq (lp_set_queue q' _)) with q'; [by rewrite E2|by rewrite E3].
  - pose proof (load_taken _ _ _ _ Ht). pose proof (tk_waiting _ _ _ _ _ Ht).
    assert (zlen (batch ++ [b]) = zlen batch + 1) as Ez by (by rewrite zlen_app).
    assert (load (lp_set_queue q' (lp_set_rand (lp_rand l' + 1 + 1) l')) = load l') as Elo.
    { unfold load. change (lq (lp_set_queue q' _)) with q'.
      rewrite E1, (total_update _ _ _ _ _ Hr), weight_submitted. lia. }
    split; [lia|lia| |done|done].
    + change (waiting (lp_set_queue q' _)) with (waiting l'). lia.
Qed.

Lemma add_one_served rand fuel P batch l :
  (0 < fuel)%nat -> 0 < Heap.blocks h0 -> 2 <= ringSize (lp_cq l) ->
  loop_ok 0 0 [] NotAdding l -> serving h0 P P [] batch l -> queued_ring batch (lq l) ->
  exists stop k l' P' batch', add_one no_forcing rand fuel l = Ok ((stop, k), l') /\
    loop_ok 0 0 [] NotAdding l' /\ serving h0 P' P' [] batch' l' /\ queued_ring batch' (lq l') /\
    steady l l' /\
    if stop : bool then batch' = batch /\ load l' = load l /\ k = 0 /\
      (cq_state (lp_cq l) = AdditionComplete -> batch = [] -> waiting l = [])
    else went_on batch l k batch' l'.
Proof.
  intros Hf Hb H2 Hl Hs Hq.
  enough (exists stop k l' P' batch', add_one no_forcing rand fuel l = Ok ((stop, k), l') /\
    serving h0 P' P' [] batch' l' /\ queued_ring batch' (lq l') /\ steady l l' /\
    if stop : bool then batch' = batch /\ load l' = load l /\ k = 0 /\
      (cq_state (lp_cq l) = AdditionComplete -> batch = [] -> waiting l = [])
    else went_on batch l k batch' l') as (stop & k & l' & P' & batch' & Hrun & Hrest).
  { exists stop, k, l', P', batch'. split; [done|]. split; [|done].
    exact (add_one_ok _ _ _ _ _ _ _ Hl Hrun). }
  destruct (must_wait_served h0 P batch l Hl Hs Hq H2) as (b & Hw & Hgo & Hstop).
  unfold add_one, add_one_seen. rewrite (bind_ok _ _ _ _ _ Hw). destruct b.
  { exists true, 0, l, P, batch. split_and!; try done. intros Hst. by apply Hstop. }
  destruct (Hgo eq_refl) as [Hroom Hl0].
  destruct (reserve_buffer_served h0 Hbase P P [] batch l) as
    (l1 & H1 & Hs1 & Hq1 & Ep & Ec & Ek & Er & Eq & Hst1 & Eu & Hnb); [|done|done|].
  { destruct Hl as [(_ & _ & Hbl & _) _ _ _]. apply (bl_heap _ _ _ Hbl). }
  rewrite (bind_ok _ _ _ _ _ H1). pose proof (reserve_buffer_ok _ _ _ _ _ Hl0 H1) as Hl1.
  assert (waiting l1 = waiting l) as Ew by (unfold waiting; by rewrite Ep, Ek).
  assert (load l1 = load l) as Eload by (unfold load; by rewrite Er).
  destruct (take_served 2 P batch l1 Hl1 Hs1 Hq1) as (res & l2 & Hrun & Hres).
  { intros -> Hc Hz. destruct (Hnb Hz) as [Hz0 Hused].
    destruct (se_geom _ _ _ _ _ _ Hs) as (_ & E2 & _).
    destruct (free_buffer h0 _ _ _ _ _ l Hl Hs ltac:(congruence) Hb Hz0). apply Hused. lia. }
  rewrite Hrun. destruct res as [a|].
  2:{ destruct Hres as [-> Hend0]. exists true, 0, l1, P, batch. split_and!; try done. intros _. by rewrite <- Ew. }
  destruct Hres as (r & Hih).
  assert (forall k batch2 l3, steady l1 l3 /\ went_on batch l1 k batch2 l3 ->
    steady l l3 /\ went_on batch l k batch2 l3) as Hback.
  { intros k batch2 l3 [Hst [A1 A0 A2 A3 A4]]. split; [by eapply steady_trans|].
    rewrite Ew in A2. rewrite Eload in A1, A0. by split. }
  destruct (in_hand_fresh _ _ _ _ _ _ _ Hih) as (Hr & _).
  pose proof (lift_ok (get_runner a) l2 _ _ (get_runner_ok _ _ _ Hr)) as Hget.
  rewrite lp_set_queue_id in Hget. rewrite (bind_ok _ _ _ _ _ Hget).
  destruct (Z.eqb_spec (size r) 0) as [Hz|Hz].
  - destruct (hand_empty fuel _ _ _ _ _ _ Hih Hz Hf) as (l3 & P3 & He & Hs3 & Hq3 & Hst & Hgone).
    exists false, 0, l3, P3, batch. rewrite (bind_ok _ _ _ _ _ He). split; [done|].
    do 2 (split; [done|]). by apply Hback.
  - assert (2 <= room (lq l2)) as Hroom2.
    { destruct Hih as [Htk Hs2 Hq2 _ _]. rewrite (room_served _ _ _ _ _ Hs2 Hq2).
      rewrite (room_served _ _ _ _ _ Hs Hq) in Hroom.
      destruct (tk_steady _ _ _ _ _ Htk) as (_ & -> & _), Hst1 as (_ & -> & _). done. }
    destruct (hand_chunk fuel rand _ _ _ _ _ _ Hih Hz Hf Hroom2)
      as (l3 & P3 & batch3 & He & Hs3 & Hq3 & Hst & Hgone).
    exists false, 1, l3, P3, batch3. split; [exact He|]. do 2 (split; [done|]). by apply Hback.
Qed.

(** ** The loop *)

(** With iterations enough for the copies that wait the loop ends; what was started
    and what was finished add up, and if someone waited and nothing was started
    before, something was. *)
Lemma add_loop_served rand n fuel P batch l k :
  (0 < fuel)%nat -> 0 < Heap.blocks h0 -> 2 <= ringSize (lp_cq l) ->
  (length (waiting l) < n)%nat -> k = s32 (zlen batch) ->
  loop_ok 0 0 [] NotAdding l -> serving h0 P P [] batch l -> queued_ring batch (lq l) ->
  exists l' P' batch', add_loop no_forcing rand n fuel k l = Ok (s32 (zlen batch'), l') /\
    loop_ok 0 0 [] NotAdding l' /\ serving h0 P' P' [] batch' l' /\ queued_ring batch' (lq l') /\
    steady l l' /\ load l' - zlen batch' <= load l - zlen batch /\ load l' <= load l /\
    (cq_state (lp_cq l) = AdditionComplete -> batch = [] -> waiting l <> [] ->
     load l' - zlen batch' < load l).
Proof.
  intros Hf Hb. revert P batch l k. induction n as [|n IH]; intros P batch l k H2 Hn Hk Hl Hs Hq; [lia|].
  cbn [add_loop].
  destruct (add_one_served rand fuel P batch l Hf Hb H2 Hl Hs Hq)
    as (stop & k1 & l1 & P1 & batch1 & H1 & Hl1 & Hs1 & Hq1 & Hst1 & Hcase).
  rewrite (bind_ok _ _ _ _ _ H1). cbv beta iota. destruct stop.
  - destruct Hcase as (-> & Eload & -> & Hnone). exists l1, P1, batch. split.
    { unfold ret. by rewrite Hk, sext_add_l, Z.add_0_r. }
    split_and!; try done; [lia|lia|]. intros Hst Eb Hw. by destruct Hw, Hnone.
  - destruct Hcase as [A1 A0 A2 A3 A4].
    destruct (IH P1 batch1 l1 (s32 (k + k1))) as (l2 & P2 & batch2 & E2 & Hl2 & Hs2 & Hq2 & Hst2 & Hle & Hle2 & _);
      try done; [by destruct Hst1 as (_ & -> & _)|lia|by rewrite Hk, sext_add_l, A3|].
    exists l2, P2, batch2. split; [done|]. split_and!; try done; [by eapply steady_trans|lia|lia|].
    intros _ ->. change (zlen []) with 0 in *. lia.
Qed.
End taking.
