(* ===== verification/Finishing.v ===== *)
(** * Handling completions in a world that serves

    After the kernel has served what was submitted, its completions are handled one
    runner after the other: each runner's round ends with the runner finished and
    given back, or set aside to be continued with nothing left to read. *)

From stdpp Require Import gmap strings.
From S2P Require Import Prelude Abi Prep RingBuf Ring SqSpec CqSpec Kernel Queue QueueSpec Os Util Heap Eta CopyState FileDesc Runner RunnerData RunnerLive RunnerSpec CopyQueue CopyJob SubmitLoop Shape Accounts System SystemSpec Service Rounds ServedFiles Serving Retiring Starting Adding.
Import Eta.Rolling Eta.ETA.

(** ** A completion without an error *)

Section quiet.
Context {W : Type} {F : Files W}.
Implicit Types (q : queue W) (r : CopyRunner).

(** The queue with a runner replaced and its bytes counted. *)
Definition progressed (this : Z) (r' : CopyRunner) (c : counters) q : queue W :=
  set_counters c (set_runners (<[this := r']> (qu_runners q)) q).

Lemma handle_quiet cfg this q r t res ds spath dpath :
  let r1 := r_set_jobs (s32 (jobsRunning r - 1)) r in
  let r' := completed cfg spath dpath t res r in
  qu_runners q !! this = Some r1 -> qu_qfds q !! sourceFd r = Some ds ->
  savedError r = None -> savedError r' = None ->
  handle_event cfg this t res (s32 (jobsRunning r - 1)) r q =
    Ok (tt, progressed this r' (counted cfg t res r (qu_counters q)) q).
Proof.
  intros r1 r' Hr Hds He He'. unfold r', completed in He'. subst r'.
  unfold handle_event, counted, completed, progressed. cbn [savedError r_set_jobs] in *.
  rewrite He in *. destruct t.
  - set (r2 := r_set_overrides _ _ _) in *. set (q2 := set_runners (<[this := r2]> (qu_runners q)) q).
    rewrite (bind_ok _ _ q tt q2) by done.
    assert (qu_runners q2 !! this = Some r2) as Hr2 by apply lookup_insert_eq.
    unfold on_read. rewrite (bind_ok _ _ _ _ _ (get_runner_ok _ _ _ Hr2)).
    rewrite (bind_ok _ _ _ _ _ (get_qfd_ok (sourceFd r2) q2 ds Hds)).
    cbn [readOverride r_set_jobs] in *. set (n := spoofed cfg (readOverride r) res) in *.
    destruct (Z.eqb_spec n 0); [done|]. rewrite (bind_ok _ _ q2 tt q2) by done.
    destruct (n <? 0); [done|]. rewrite (bind_ok _ _ _ _ _ (get_runner_ok _ _ _ Hr2)).
    unfold put_runner, modify, q2. cbn. rewrite insert_insert_eq. by destruct q.
  - set (r2 := r_set_overrides _ _ _) in *. set (q2 := set_runners (<[this := r2]> (qu_runners q)) q).
    rewrite (bind_ok _ _ q tt q2) by done.
    assert (qu_runners q2 !! this = Some r2) as Hr2 by apply lookup_insert_eq.
    unfold on_write. rewrite (bind_ok _ _ _ _ _ (get_runner_ok _ _ _ Hr2)).
    cbn [writeOverride r_set_jobs] in *. set (n := spoofed cfg (writeOverride r) res) in *.
    destruct (n <? 0).
    + destruct (negb (n =? - ECANCELED)); [done|]. unfold q2, ret. by destruct q.
    + unfold put_runner, on_counters, modify, bind, q2. cbn. rewrite insert_insert_eq. by destruct q.
Qed.

Lemma completion_quiet cfg this q r t res ds spath dpath :
  let r' := completed cfg spath dpath t res r in
  qu_runners q !! this = Some r -> qu_qfds q !! sourceFd r = Some ds ->
  savedError r = None -> savedError r' = None ->
  0 < jobsRunning r < 2 ^ 31 -> writeOffset r' <= chunk_end r' ->
  onCompletionEvent cfg this t res q =
    Ok (verdict r', progressed this r' (counted cfg t res r (qu_counters q)) q).
Proof.
  intros r' Hr Hds He He' Hj Hw. unfold onCompletionEvent.
  rewrite (bind_ok _ _ _ _ _ (get_runner_ok _ _ _ Hr)).
  set (r1 := r_set_jobs (s32 (jobsRunning r - 1)) r).
  set (q1 := set_runners (<[this := r1]> (qu_runners q)) q).
  rewrite (bind_ok _ _ q tt q1) by done. rewrite (bind_ok _ _ q1 tt q1).
  2:{ unfold assert. rewrite sext_small by (lia || (unfold in_s; lia)). by case_z; [|lia]. }
  pose proof (handle_quiet cfg this q1 r t res ds spath dpath (lookup_insert_eq _ _ _) Hds He He') as H1.
  fold (handle_event cfg this t res (s32 (jobsRunning r - 1)) r). rewrite (bind_ok _ _ _ _ _ H1).
  fold r'. set (q2 := progressed _ _ _ q1).
  rewrite (bind_ok _ _ _ _ _ (get_runner_ok this q2 r' (lookup_insert_eq _ _ _))).
  fold (chunk_end r'). rewrite (bind_ok _ _ q2 tt q2) by (unfold assert; by case_z; [|lia]).
  assert (q2 = progressed this r' (counted cfg t res r (qu_counters q)) q) as ->.
  { unfold q2, progressed, q1. cbn. rewrite insert_insert_eq. by destruct q. }
  unfold verdict. destruct (jobsRunning r' =? 0); [|done].
  destruct (savedError r'); [done|]. by destruct (writeOffset r' =? chunk_end r').
Qed.
End quiet.

(** ** Submitting what was started *)

Section finishing.
Context {W : Type} {F : Files W} {K : Kernel W} {V : View W} {L : ServiceLaws W}.
Context (h0 : Heap.heap).
Implicit Types (q : queue W) (l : loop W) (P H : gset Z) (X : list Z) (r : CopyRunner).

(** The length of the file a runner reads. *)
Definition src_length q r : Z :=
  match qu_qfds q !! sourceFd r with Some ds => sv_length (world q) (q_path ds) | None => 0 end.

(** The completions of a runner's round, as the ring has them. *)
Definition round_of q (b : started) : list (Z * Z) :=
  tag (b_this b) <$> round_results (src_length q (b_runner b)) (b_runner b).

(** What the rings hold once the kernel has served them: the answers [cs]. *)
Record answered_ring (cs : list (Z * Z)) q : Prop := {
  an_acquired : acquired (sq_abs (r_sq (qu_ring q))) = [];
  an_answers : answer_of <$> cq_contents (r_cq (qu_ring q)) = cs;
  an_subs : submissionsRunning (qu_counters q) = u32 (zlen cs);
}.

Definition rounds_of q (batch : list started) : list (Z * Z) := concat (round_of q <$> batch).

(** The ring, the world and the requests counted may change. *)
Lemma serving_io P H X batch l q :
  serving h0 P H X batch l ->
  qu_qfds q = qu_qfds (lq l) -> qu_heap q = qu_heap (lq l) -> qu_chunks q = qu_chunks (lq l) ->
  qu_runners q = qu_runners (lq l) -> fileDescriptorsUsed q = fileDescriptorsUsed (lq l) ->
  fileDescriptorCap q = fileDescriptorCap (lq l) ->
  sv_paths (world q) = sv_paths (world (lq l)) -> sv_length (world q) = sv_length (world (lq l)) ->
  sv_limit (world q) = sv_limit (world (lq l)) ->
  totalBytesCopied (qu_counters q) = totalBytesCopied (qu_counters (lq l)) ->
  totalBytesToCopy (qu_counters q) = totalBytesToCopy (qu_counters (lq l)) ->
  ring_sized (ringSize (lp_cq l)) (qu_ring q) ->
  serving h0 P H X batch (lp_set_queue q l).
Proof.
  intros [S2 S3 S4 S5 S6 S7 S8 S9 S10 S11 S12 S13 S14 S15 S16] E1 E2 E3 E4 E5 E6 E7 E8 Em E9 E10 Hr.
  assert (forall ls, sources q ls = sources (lq l) ls) as Hsrc by (intros; unfold sources; by rewrite E4).
  assert (forall r, chunk_ready h0 (lq l) r -> chunk_ready h0 q r) as Hc
    by (intros r [? Hw]; split; [done|]; by rewrite E1, E8).
  split; change (lq (lp_set_queue q l)) with q;
    change (copiesPendingStart (lp_cq (lp_set_queue q l))) with (copiesPendingStart (lp_cq l));
    rewrite ?E1, ?E2, ?E4, ?E9, ?E10, ?Hsrc; try done.
  - by eapply fds_serve_same.
  - intros a r Hr' Hx Hb. destruct (S7 a r Hr' Hx Hb) as [He|[Hcr ?]]; [left|right; by split; [apply Hc|]].
    unfold empty_ok in *. by rewrite E3.
  - eapply Forall_impl; [|exact S8]. intros b (R1 & R2 & R3). unfold batch_ok. rewrite E4, E1.
    split_and!; try apply R3; [done|by apply Hc].
Qed.

Lemma src_length_eq q r ds :
  qu_qfds q !! sourceFd r = Some ds -> src_length q r = sv_length (world q) (q_path ds).
Proof. intros H. unfold src_length. by rewrite H. Qed.

(** The kernel's answers to the requests of a batch. *)
Lemma batch_answered P q batch :
  fds_serve P q -> Forall (batch_ok h0 P q) batch ->
  let es := concat (b_entries <$> batch) in
  Forall (servable (sv_paths (world q))) es /\
  answers (sv_paths (world q)) (sv_length (world q)) false es = rounds_of q batch.
Proof.
  intros Hfd. induction 1 as [|b batch (_ & [_ Hw] & (_ & P2 & P3 & _) & I1 & I2 & (ds & Hds & Es) & (dd & Hdd & Ed)) _ IH];
    [by split|]. unfold rounds_of in *. cbn [fmap list_fmap concat]. destruct IH as [IH1 IH2].
  destruct (open_fd _ _ _ _ Hfd Hds (fs_started _ _ Hfd _ _ I1 Hds)) as [Fs Ps].
  destruct (open_fd _ _ _ _ Hfd Hdd (fs_started _ _ Hfd _ _ I2 Hdd)) as [Fd Pd].
  rewrite Es in Fs, Ps. rewrite Ed in Fd, Pd.
  destruct (round_answered (sv_paths (world q)) (sv_length (world q)) (b_this b) (b_src b) (b_dst b) 0 0
    (q_path ds) (b_runner b) (concat (b_entries <$> batch)) (Hw ds Hds) Ps) as [A1 A2];
    try done; try (unfold in_s; lia).
  split; [by apply Forall_app|]. unfold b_entries at 1. rewrite A2, IH2. f_equal.
  unfold round_of. by rewrite (src_length_eq _ _ _ Hds).
Qed.

Lemma b_entries_nonempty b : b_entries b <> [].
Proof. unfold b_entries, round_entries. intros E. by apply app_eq_nil in E as [_ ?]. Qed.

(** Submitting: every request is answered when the call returns. *)
Lemma submit_started P batch l n :
  serving h0 P P [] batch l -> queued_ring batch (lq l) -> batch <> [] ->
  exists v q, submit_retry (S n) l = Ok (v, lp_set_queue q l) /\ 0 < v /\
    on_cq (on_queue (on_ring io_uring_submit)) l = Ok (v, lp_set_queue q l) /\
    serving h0 P P [] batch (lp_set_queue q l) /\ answered_ring (rounds_of q batch) q /\
    qu_runners q = qu_runners (lq l) /\ qu_counters q = qu_counters (lq l) /\
    sv_length (world q) = sv_length (world (lq l)).
Proof.
  intros Hs (Hq1 & Hq2 & Hq3) Hne. pose proof (se_fds _ _ _ _ _ _ Hs) as Hfd.
  destruct (batch_answered P (lq l) batch Hfd (se_batch _ _ _ _ _ _ Hs)) as [Hsv Hans].
  set (s := mk_ust (o_world (qu_os (lq l))) (qu_ring (lq l)) (o_errno (qu_os (lq l)))).
  assert (acquired (sq_abs (r_sq (u_ring s))) = concat (b_entries <$> batch)) as Eacq by exact Hq2.
  assert (concat (b_entries <$> batch) <> []) as Hne2.
  { destruct batch as [|b batch]; [done|]. cbn. intros E. apply app_eq_nil in E as [E _].
    by apply (b_entries_nonempty b). }
  destruct (submit_served (ringSize (lp_cq l)) s (se_ring _ _ _ _ _ _ Hs) Hq1) as
    (s' & cs & Hrun & Hsz & Hcs & Ha' & Hcans & Ep & El & Em).
  { by rewrite Eacq. } { by rewrite Eacq. }
  rewrite Eacq in Hrun, Hcans.
  assert (answer_of <$> cs = concat (round_of (lq l) <$> batch)) as Hround
    by (rewrite Hcans; exact Hans).
  set (q := set_qring (u_ring s') (set_os (mk_ost (u_world s') (u_errno s')) (lq l))).
  set (v := zlen (concat (b_entries <$> batch))) in *.
  assert (0 < v) as Hv by (unfold v, zlen; destruct (concat (b_entries <$> batch)); [done|cbn; lia]).
  assert (on_ring io_uring_submit (lq l) = Ok (v, q)) as Hon by (unfold on_ring; fold s; by rewrite Hrun).
  pose proof (lift_ok _ l _ _ Hon) as Hlift.
  exists v, q. split; [|split; [done|split; [done|split; [|split; [|done]]]]].
  - cbn [submit_retry]. rewrite (bind_ok _ _ _ _ _ Hlift).
    destruct (Z.eqb_spec v (- EAGAIN)); [unfold EAGAIN in *; lia|].
    by destruct (Z.eqb_spec v (- EINTR)); [unfold EINTR in *; lia|].
  - by apply serving_io.
  - assert (rounds_of q batch = answer_of <$> cs) as Er.
    { rewrite Hround. unfold rounds_of. f_equal. apply list_fmap_ext.
      intros i b _. unfold round_of, src_length. change (qu_qfds q) with (qu_qfds (lq l)).
      change (world q) with (u_world s'). by rewrite El. }
    rewrite Er. split; [done|by rewrite <- Hcs|].
    change (qu_counters q) with (qu_counters (lq l)). rewrite Hq3, Hq2. f_equal.
    unfold zlen. rewrite Hcans, answers_length. done.
Qed.
End finishing.
