(* ===== verification/Completing.v ===== *)
(** * A runner's completions, in a world that serves

    The completions of one runner are handled one after the other; the last one ends
    the round: the runner is given back, or set aside to go on. *)

From stdpp Require Import gmap strings.
From S2P Require Import Prelude Abi Prep RingBuf Ring SqSpec CqSpec Kernel Queue QueueSpec Os Util Heap Eta CopyState FileDesc Runner RunnerData RunnerLive RunnerSpec CopyQueue CopyJob SubmitLoop Shape Accounts System SystemSpec Service Rounds ServedFiles Serving Retiring Starting Adding Finishing.
Import Eta.Rolling Eta.ETA.

Section completing.
Context {W : Type} {F : Files W} {K : Kernel W} {V : View W} {L : ServiceLaws W}.
Context (h0 : Heap.heap).
Implicit Types (q : queue W) (l : loop W) (P H : gset Z) (X : list Z) (r : CopyRunner).

(** ** One completion *)

(** The queue with the completion at the head given back. *)
Definition reaped (slot : Z) q : queue W :=
  set_counters (add_submissions (-1) (qu_counters q))
    (set_qring (set_cq (io_uring_cqe_seen (Some slot) (r_cq (qu_ring q))) (qu_ring q)) q).

Lemma event_of_addr a t :
  0 < a < 2 ^ 62 -> event_of (event_addr a t) = (a, t) /\ event_addr a t <> LIBURING_UDATA_TIMEOUT.
Proof.
  intros Ha. unfold event_addr. set (k := match t with EvRead => 0 | EvWrite => 1 end).
  assert (k = 0 /\ t = EvRead \/ k = 1 /\ t = EvWrite) as Hk by (destruct t; auto).
  clearbody k.
  rewrite wrap_small by (unfold in_u; lia). split; [|change LIBURING_UDATA_TIMEOUT with (2 ^ 64 - 1); lia].
  unfold event_of. rewrite (Z.mul_comm 2 a), Z.div_add_l, (Z.add_comm (a * 2)), Z_mod_plus_full by lia.
  destruct Hk as [[-> ->]|[-> ->]]; f_equal; apply Z.add_0_r.
Qed.

(** Handling the completion at the head, given what its runner makes of it. *)
Lemma complete_step n l c rest a t res l2 fuel :
  ring_sized n (qu_ring (lq l)) -> cq_contents (r_cq (qu_ring (lq l))) = c :: rest ->
  answer_of c = tag a (t, res) -> 0 < a < 2 ^ 62 ->
  on_completion no_forcing a t res l = Ok (tt, l2) -> qu_ring (lq l2) = qu_ring (lq l) ->
  exists slot, complete_one no_forcing (S fuel) l = Ok (true, lp_set_queue (reaped slot (lq l2)) l2).
Proof.
  intros Hr Hc Han Ha Hon Hring. destruct (event_of_addr a t Ha) as [Hev Hne].
  injection Han as Hu Hres.
  set (s := mk_ust (o_world (qu_os (lq l))) (qu_ring (lq l)) (o_errno (qu_os (lq l)))).
  destruct (peek_first fuel s c rest (rz_ok _ _ Hr) Hc) as (slot & Hpeek & Hz); [by rewrite Hu|].
  assert (on_ring (io_uring_peek_cqe (S fuel)) (lq l) = Ok ((0, Some slot), lq l)) as Hp.
  { unfold on_ring. fold s. rewrite Hpeek. do 2 f_equal. unfold s. cbn.
    by destruct (lq l) as [[w e] ? ? ? ? ? ? ? ?]. }
  exists slot. unfold complete_one. pose proof (lift_ok _ l _ _ Hp) as Hl. rewrite lp_set_queue_id in Hl.
  rewrite (bind_ok _ _ _ _ _ Hl). cbv beta iota. rewrite (bind_ok _ _ l tt l) by done.
  change (negb (0 =? 0)) with false. cbv iota. rewrite (bind_ok _ _ l (lq l) l) by done.
  change (cq_cqes (r_cq (u_ring s))) with (cq_cqes (r_cq (qu_ring (lq l)))) in Hz. rewrite Hz.
  rewrite Hu, Hev, Hres. cbv beta iota. rewrite (bind_ok _ _ _ _ _ Hon). unfold bind, on_cq, on_queue, modify, ret.
  cbn. do 3 f_equal.
Qed.

Lemma answered_seen n c0 cs q slot :
  ring_sized n (qu_ring q) -> answered_ring (c0 :: cs) q ->
  ring_sized n (qu_ring (reaped slot q)) /\ answered_ring cs (reaped slot q).
Proof.
  intros Hr [H1 H2 H3]. destruct (cq_contents (r_cq (qu_ring q))) as [|c rest] eqn:Hc; [done|].
  injection H2 as _ H2. destruct (ring_seen n _ c rest slot Hr Hc) as (Hr' & Hc' & Hs').
  split; [exact Hr'|]. split.
  - exact H1.
  - change (answer_of <$> cq_contents (r_cq (set_cq (io_uring_cqe_seen (Some slot) (r_cq (qu_ring q)))
      (qu_ring q))) = cs). by rewrite Hc'.
  - cbn. rewrite H3, wrap_add_l. f_equal. unfold zlen. cbn. lia.
Qed.

Lemma serving_reaped P H X batch l c0 cs slot :
  serving h0 P H X batch l -> answered_ring (c0 :: cs) (lq l) ->
  serving h0 P H X batch (lp_set_queue (reaped slot (lq l)) l) /\ answered_ring cs (reaped slot (lq l)).
Proof.
  intros Hs Ha. destruct (answered_seen _ _ _ _ slot (se_ring _ _ _ _ _ _ Hs) Ha) as [Hr Ha'].
  split; [|done]. by apply serving_io.
Qed.

(** The loop goes on while completions are expected. *)
Lemma complete_loop_step l c0 cs n fuel l' :
  ring_ok (qu_ring (lq l)) -> answered_ring (c0 :: cs) (lq l) ->
  complete_one no_forcing fuel l = Ok (true, l') ->
  complete_loop no_forcing (S n) fuel l = complete_loop no_forcing n fuel l'.
Proof.
  intros [_ Hcq] [_ H2 H3] Hone. cbn [complete_loop]. rewrite (bind_ok _ _ l (lq l) l) by done.
  assert (submissionsRunning (qu_counters (lq l)) <> 0) as Hne.
  { rewrite H3. pose proof (cq_contents_len _ Hcq) as Hl.
    assert (zlen (cq_contents (r_cq (qu_ring (lq l)))) = zlen (c0 :: cs)) as El
      by (unfold zlen; by rewrite <- H2, length_fmap).
    rewrite El in Hl. rewrite Hl. unfold io_uring_cq_ready in *. rewrite wrap_wrap, <- Hl.
    unfold zlen. cbn. lia. }
  fold (lq l). destruct (Z.eqb_spec (submissionsRunning (qu_counters (lq l))) 0); [done|].
  by rewrite (bind_ok _ _ _ _ _ Hone).
Qed.

(** ** A runner between its completions *)

(** [b]'s runner, now [rc], has the completions [ps] still to come. *)
Record handling P (b : started) rc (ps : list (event_type * Z)) (batch : list started) l : Prop := {
  hd_serving : serving h0 P P [b_this b] batch l;
  hd_runner : qu_runners (lq l) !! b_this b = Some rc;
  hd_batch : b_this b ∉ b_this <$> batch;
  hd_start : b_this b ∉ copiesPendingStart (lp_cq l);
  hd_cont : b_this b ∉ copiesPendingContinue l;
  hd_ready : chunk_ready h0 (lq l) (b_runner b);
  hd_placed : placed h0 (b_runner b);
  hd_open : sourceFd (b_runner b) ∈ P /\ destFd (b_runner b) ∈ P;
  hd_place : same_place (b_runner b) rc;
  hd_error : savedError rc = None;
  hd_core : exists buf dst, core no_forcing zeros rc buf dst ps;
  hd_after : foldl (fun r '(t, n) => completed no_forcing "" "" t n r) rc ps =
    after "" "" (src_length (lq l) (b_runner b)) (b_runner b);
}.

(** A runner of the batch leaves it. *)
Lemma serving_pick P b batch l :
  serving h0 P P [] (b :: batch) l -> serving h0 P P [b_this b] batch l.
Proof.
  intros [S2 S3 S4 S5 S6 S7 S8 S9 S10 S11 S12 S13 S14 S15 S16].
  apply list.NoDup_cons in S9 as [S9 S9']. inversion S8; subst. split; try done.
  intros a r Hr Hx Hn. apply (S7 a r Hr (not_elem_of_nil _)). cbn. 
  intros [->|Hin]%elem_of_cons; [|done]. by apply Hx, list_elem_of_singleton.
Qed.

Lemma ready_working q r ds :
  chunk_ready h0 q r -> qu_qfds q !! sourceFd r = Some ds -> working (src_length q r) r.
Proof. intros [_ Hw] Hds. rewrite (src_length_eq _ _ _ Hds). by apply Hw. Qed.

Lemma handling_starts rm d g P b batch l :
  loop_ok rm d [] g l -> serving h0 P P [] (b :: batch) l ->
  let r := b_runner b in
  handling P b (submitted no_forcing 0 r) (round_results (src_length (lq l) r) r) batch l.
Proof.
  intros Hl Hs r. pose proof (se_nodup _ _ _ _ _ _ Hs) as Hnd. apply list.NoDup_cons in Hnd as [Hnd _].
  pose proof (Forall_inv (se_batch _ _ _ _ _ _ Hs)) as (Hr & Hc & Hp & I1 & I2 & (ds & Hds & _) & _).
  fold r in Hr, Hc, Hp, I1, I2, Hds. pose proof (ready_working _ _ _ Hc Hds) as Hw.
  assert (b_this b ∉ waiting l) as Hnw.
  { intros Hin. destruct (waiting_runner _ _ _ _ _ _ Hl (Hin : b_this b ∈ [] ++ waiting l)) as (r0 & Hr0 & Hj).
    apply (batch_busy _ _ _ _ _ _ _ _ Hs (list_elem_of_here _ _) Hr0 Hj). }
  unfold waiting in Hnw. apply not_elem_of_app in Hnw as [Hn1 Hn2].
  split; try done.
  - by apply serving_pick.
  - apply submitted_place.
  - destruct Hw as [_ (buf & dst & Hco) He Hlt].
    by destruct (submitted_fields no_forcing r 0 Hlt (co_jobs _ _ _ _ _ _ Hco)) as (_ & _ & _ & -> & _).
  - by apply submit_core.
Qed.

(** A runner keeps its first error. *)
Lemma foldl_no_error ps r :
  savedError (foldl (fun r '(t, n) => completed no_forcing "" "" t n r) r ps) = None ->
  savedError r = None.
Proof.
  revert r. induction ps as [|[t n] ps IH]; intros r; [done|]. cbn [foldl]. intros H. apply IH in H.
  destruct (savedError r) as [e|] eqn:He; [|done]. unfold completed in H.
  cbn [savedError r_set_jobs] in H. rewrite He in H. cbn in H. congruence.
Qed.

(** The runner in the thread's hands makes progress. *)
Lemma serving_progress P H batch l a r r' c :
  serving h0 P H [a] batch l -> qu_runners (lq l) !! a = Some r ->
  a ∉ b_this <$> batch -> a ∉ copiesPendingStart (lp_cq l) -> a ∉ copiesPendingContinue l ->
  sourceFd r' = sourceFd r -> destFd r' = destFd r -> same_chunk r r' ->
  totalBytesCopied c = u64 (totalBytesCopied (qu_counters (lq l)) + (writeOffset r' - writeOffset r)) ->
  totalBytesToCopy c = totalBytesToCopy (qu_counters (lq l)) ->
  serving h0 P H [a] batch (lp_set_queue (progressed a r' c (lq l)) l).
Proof.
  intros [S2 S3 S4 S5 S6 S7 S8 S9 S10 S11 S12 S13 S14 S15 S16] Hr Hb Hn1 Hn2 E1 E2 E3 E4 E5.
  set (q' := progressed _ _ _ _).
  assert (forall b rb, qu_runners q' !! b = Some rb ->
    b = a /\ rb = r' \/ b <> a /\ qu_runners (lq l) !! b = Some rb) as Hl.
  { intros b rb Hrb. cbn in Hrb. apply lookup_insert_Some in Hrb. naive_solver. }
  assert (forall ls, sources q' ls = sources (lq l) ls) as Hsrc by (intros; by apply (sources_insert _ a r)).
  split; change (lq (lp_set_queue q' l)) with q';
    change (copiesPendingStart (lp_cq (lp_set_queue q' l))) with (copiesPendingStart (lp_cq l));
    rewrite ?Hsrc; try done.
  - split; [apply S4|]. by intros b rb [[-> ->]|[Hne Hrb]]%Hl; eapply S4.
  - by eapply fds_serve_same.
  - intros b rb [[-> ->]|[Hne Hrb]]%Hl Hx Hnb; [by destruct Hx; left|by apply (S7 b)].
  - apply Forall_lookup. intros i b Hib. destruct (Forall_lookup_1 _ _ _ _ S8 Hib) as [Hrb Hrest].
    split; [|exact Hrest]. cbn. rewrite lookup_insert_ne; [done|]. intros ->. apply Hb.
    by eapply list_elem_of_fmap_2, list_elem_of_lookup_2.
  - intros b rb Hin [[-> ->]|[Hne Hrb]]%Hl; [done|by apply (S10 b rb)].
  - intros b rb Hin [[-> ->]|[Hne Hrb]]%Hl; [done|by apply (S11 b)].
  - intros b rb [[-> ->]|[Hne Hrb]]%Hl; [rewrite E1, E2; by apply (S12 a)|by apply (S12 b)].
  - change (qu_counters q') with c. rewrite E4, E5. split; [apply wrap_range; lia|].
    change (qu_runners q') with (<[a := r']> (qu_runners (lq l))).
    rewrite (total_update _ _ _ _ _ Hr). destruct S15 as [_ ->]. rewrite wrap_add_l. f_equal.
    unfold unwritten. rewrite (chunk_end_same _ _ E3). lia.
Qed.

(** A completion of the runner in hand. *)
Lemma handling_next P b rc t n ps batch l rm d g :
  loop_ok rm d [] g l -> handling P b rc ((t, n) :: ps) batch l ->
  let rc' := completed no_forcing "" "" t n rc in
  exists l', on_cq (on_queue (onCompletionEvent no_forcing (b_this b) t n)) l = Ok (verdict rc', l') /\
    handling P b rc' ps batch l' /\ jobsRunning rc' = zlen ps /\
    qu_ring (lq l') = qu_ring (lq l) /\ load l' = load l - weight rc + weight rc' /\
    (forall bs, rounds_of (lq l') bs = rounds_of (lq l) bs) /\ steady l l' /\
    submissionsRunning (qu_counters (lq l')) = submissionsRunning (qu_counters (lq l)).
Proof.
  intros Hl [Hs Hr Hb Hn1 Hn2 Hc Hpl Ho Hplace He (buf & dst & Hco) Haf] rc'. cbn [foldl] in Haf. fold rc' in Haf.
  pose proof Hplace as (E1 & E2 & E3 & E4 & E5 & E6).
  destruct (runner_files _ _ _ _ _ _ _ Hl Hr) as (ds & _ & _ & Hds & _).
  pose proof (Hds : qu_qfds (lq l) !! sourceFd rc = _) as Hds0. rewrite E1 in Hds0.
  pose proof (ready_working _ _ _ Hc Hds0) as Hw.
  pose proof (same_chunk_ok _ _ _ E6 (wo_chunk _ _ Hw)) as Hck.
  assert (savedError rc' = None) as He'.
  { apply (foldl_no_error ps). rewrite Haf. apply round_works. done. }
  assert (zlen ((t, n) :: ps) < 2 ^ 31) as Hlen.
  { rewrite <- (co_jobs _ _ _ _ _ _ Hco). destruct Hl as [(Hwk & _) _ _ _].
    pose proof (wk_jobs _ _ _ Hwk _ _ (shape_owner _ _ _ Hr)). cbn in *. lia. }
  assert (core no_forcing zeros rc' buf dst ps) as Hco'.
  { destruct t; [by apply (complete_read_core no_forcing "" "" zeros _ rc buf dst [] n ps Hck)
      |by apply (complete_write_core no_forcing "" "" zeros _ rc buf dst [] n ps Hck)]. }
  pose proof (completed_chunk no_forcing "" "" rc t n) as Hsc. fold rc' in Hsc.
  pose proof (co_wo _ _ _ _ _ _ Hco') as Hwo. set (c := counted no_forcing t n rc (qu_counters (lq l))).
  pose proof (completion_quiet no_forcing (b_this b) (lq l) rc t n ds "" "" Hr Hds He He') as Hrun.
  fold rc' c in Hrun. rewrite (co_jobs _ _ _ _ _ _ Hco) in Hrun.
  specialize (Hrun ltac:(unfold zlen in *; cbn in *; lia) ltac:(lia)).
  set (q1 := progressed (b_this b) rc' c (lq l)) in Hrun.
  exists (lp_set_queue q1 l). split; [by apply lift_ok|].
  assert (totalBytesCopied c =
    u64 (totalBytesCopied (qu_counters (lq l)) + (writeOffset rc' - writeOffset rc))) as Hcount.
  { eapply (counted_exact no_forcing "" "" zeros _ rc buf dst [] t n ps); [exact Hck|by intros _|].
    apply (se_bytes _ _ _ _ _ _ Hs). }
  assert (totalBytesToCopy c = totalBytesToCopy (qu_counters (lq l)) /\
    submissionsRunning c = submissionsRunning (qu_counters (lq l))) as [Htc Hsr].
  { unfold c, counted. destruct (savedError rc); [done|]. destruct t; [done|]. by case_match. }
  pose proof (completed_place no_forcing "" "" t n rc) as Hpl2. fold rc' in Hpl2.
  pose proof Hpl2 as (F1 & F2 & _).
  split; [|split; [by rewrite (co_jobs _ _ _ _ _ _ Hco')|split; [done|split; [|split; [done|by split]]]]].
  - split; try done; [by apply (serving_progress P P batch l _ rc)|apply lookup_insert_eq
      |by eapply same_place_trans|by exists buf, dst].
  - unfold load. change (qu_runners (lq (lp_set_queue q1 l))) with (<[b_this b := rc']> (qu_runners (lq l))).
    rewrite (total_update _ _ _ _ _ Hr). lia.
Qed.

(** ** The end of a round *)

Lemma serving_eta P H X batch l e :
  serving h0 P H X batch l -> serving h0 P H X batch (lp_set_cq (cq_set_eta e (lp_cq l)) l).
Proof. by intros [S2 S3 S4 S5 S6 S7 S8 S9 S10 S11 S12 S13 S14 S15 S16]. Qed.

(** The copy is done: its files are closed and it is deleted. *)
Lemma finish_result a r q1 q2 l :
  handleFileClose a (lq l) = Ok (None, q1) -> qu_runners q1 !! a = Some r ->
  delete_runner a q1 = Ok (tt, q2) ->
  on_result a FinishedTag l = Ok (tt, lp_set_cq (cq_set_eta (onCopyCompleted (u64 (size r))
    (etaCalculator (lp_cq l))) (lp_cq (lp_set_queue q2 l))) (lp_set_queue q2 l)).
Proof.
  intros Hc Hr Hd. unfold on_result. rewrite (bind_ok _ _ _ _ _ (lift_ok _ l _ _ Hc)).
  set (l1 := lp_set_queue q1 l). rewrite (bind_ok _ _ l1 tt l1) by done.
  pose proof (lift_ok (get_runner a) l1 _ _ (get_runner_ok _ _ _ Hr)) as Hg.
  change (lp_set_queue q1 l1) with l1 in Hg. rewrite (bind_ok _ _ _ _ _ Hg).
  set (l2 := lp_set_cq (cq_set_eta (onCopyCompleted (u64 (size r)) (etaCalculator (lp_cq l1)))
    (lp_cq l1)) l1). rewrite (bind_ok _ _ l1 tt l2) by done.
  by rewrite (lift_ok (delete_runner a) l2 _ _ (Hd : delete_runner a (lq l2) = _)).
Qed.

(** A runner set aside can go on. *)
Lemma serving_resume P batch l a r :
  serving h0 P P [a] batch l -> qu_runners (lq l) !! a = Some r ->
  chunk_ready h0 (lq l) r -> placed h0 r -> sourceFd r ∈ P -> destFd r ∈ P ->
  serving h0 P P [] batch (lp_set_continue (copiesPendingContinue l ++ [a]) l).
Proof.
  intros [S2 S3 S4 S5 S6 S7 S8 S9 S10 S11 S12 S13 S14 S15 S16] Hr Hc Hpl I1 I2.
  split; try done.
  - intros b rb Hb _ Hn. destruct (decide (b = a)) as [->|Hne].
    + assert (rb = r) as -> by (change (qu_runners (lq l) !! a = Some rb) in Hb; congruence).
      right. split; [done|by right].
    + apply (S7 b rb Hb); [|done]. intros E%list_elem_of_singleton. done.
  - intros b rb Hin Hb. cbn in Hin. apply elem_of_app in Hin as [Hin|Hin%list_elem_of_singleton].
    + by apply (S11 b).
    + subst b. assert (rb = r) as -> by (change (qu_runners (lq l) !! a = Some rb) in Hb; congruence).
      split_and!; try done. destruct Hc as [(st & _ & _ & ?) _]. lia.
Qed.

Lemma rounds_keep P batch l a q2 :
  Forall (batch_ok h0 P (lq l)) batch -> a ∉ b_this <$> batch -> others_keep l a q2 ->
  rounds_of q2 batch = rounds_of (lq l) batch.
Proof.
  intros Hb Hn [El Hk]. unfold rounds_of. f_equal. apply list_fmap_ext. intros i b Hi.
  pose proof (Forall_lookup_1 _ _ _ _ Hb Hi) as (Hr & _).
  assert (b_this b <> a) as Hne.
  { intros <-. apply Hn. by eapply list_elem_of_fmap_2, list_elem_of_lookup_2. }
  pose proof (Hk _ _ Hne Hr) as E. destruct (submitted_place no_forcing 0 (b_runner b)) as (E1 & _).
  rewrite E1 in E. unfold round_of, src_length. by rewrite E, El.
Qed.

Lemma placed_same r r' : same_place r r' -> placed h0 r -> placed h0 r'.
Proof.
  intros (_ & _ & _ & E1 & E2 & _ & E3 & E4) (? & ? & ? & ?). unfold placed. by rewrite E1, E2, E3, E4.
Qed.

(** The last completion of a round. *)
Lemma round_ends P b rc batch l rm :
  loop_ok rm 1 [b_this b] NotAdding l -> handling P b rc [] batch l ->
  exists l' P', on_result (b_this b) (verdict rc) l = Ok (tt, l') /\ verdict rc <> ContinueTag /\
    serving h0 P' P' [] batch l' /\ qu_ring (lq l') = qu_ring (lq l) /\
    submissionsRunning (qu_counters (lq l')) = submissionsRunning (qu_counters (lq l)) /\
    rounds_of (lq l') batch = rounds_of (lq l) batch /\ steady l l' /\
    load l' + 1 <= load l - weight rc + weight (b_runner b).
Proof.
  intros Hl [Hs Hr Hb Hn1 Hn2 Hc Hpl [I1 I2] Hplace He _ Haf]. cbn [foldl] in Haf.
  destruct (runner_files _ _ _ _ _ _ _ Hl Hr) as (ds & _ & n & Hds & _ & Hn & Hn0).
  pose proof Hplace as (E1 & E2 & E3 & E4 & E5 & E6). rewrite E1 in Hds.
  pose proof (ready_working _ _ _ Hc Hds) as Hw.
  destruct (round_works "" "" _ _ Hw) as (_ & Hj & Hcase). rewrite <- Haf in Hj, Hcase.
  pose proof (weight_range (b_runner b)). pose proof (total_delete weight _ _ _ Hr) as Hwt.
  pose proof (se_batch _ _ _ _ _ _ Hs) as Hbok.
  destruct Hcase as [Hfin|(Hw' & W1 & W2)].
  - assert (verdict rc = FinishedTag) as -> by (unfold verdict; by rewrite Hj, He, Hfin, !Z.eqb_refl).
    assert (spent_runner h0 [b_this b] batch l (b_this b) rc) as Hsp.
    { split; try done; [by intros x ?%list_elem_of_singleton|unfold unwritten; lia|right].
      by eapply placed_same. }
    assert (exists q1 q2 P', handleFileClose (b_this b) (lq l) = Ok (None, q1) /\
      qu_runners q1 !! b_this b = Some rc /\ delete_runner (b_this b) q1 = Ok (tt, q2) /\
      qu_ring q2 = qu_ring (lq l) /\ qu_runners q2 = delete (b_this b) (qu_runners (lq l)) /\
      qu_counters q2 = add_keepAlive (-1) (qu_counters (lq l)) /\ others_keep l (b_this b) q2 /\
      serving h0 P' P' [] batch (lp_set_queue q2 l)) as (q1 & q2 & P' & H1 & H2 & H3 & R1 & R2 & R3 & Hk & Hs2).
    { destruct (Z.eq_dec n 1) as [->|Hn1'].
      - destruct (retire_last h0 _ _ _ _ _ _ _ _ _ _ Hl Hs Hsp Hn) as (q1 & q2 & H').
        exists q1, q2. by eexists.
      - destruct (retire_more h0 _ _ _ _ _ _ _ _ _ _ n Hl Hs Hsp Hn ltac:(lia)) as (q2 & H').
        exists (lq l), q2, P. destruct H' as (? & ? & ? & ? & ? & ? & ?).
        do 7 (split; [done|]). done. }
    eexists _, P'. split; [exact (finish_result _ _ _ _ _ H1 H2 H3)|]. split; [done|].
    split; [by apply serving_eta|]. split; [done|]. split; [cbn; by rewrite R3|].
    split; [by apply (rounds_keep P batch l (b_this b) q2)|]. split.
    + split_and!; try done; [cbn; by rewrite R3|apply Hk].
    + unfold load in *. change (lq (lp_set_cq _ _)) with q2. rewrite R2. lia.
  - assert (verdict rc = RescheduleTag) as ->.
    { unfold verdict. rewrite Hj, He, Z.eqb_refl. pose proof (wo_left _ _ Hw'). case_z; [lia|done]. }
    eexists _, P. split; [reflexivity|]. split; [done|]. split; [|split_and!; try done].
    + apply (serving_resume P batch l (b_this b) rc); try done; [|by eapply placed_same|by rewrite E1|by rewrite E2].
      destruct Hc as [(st & Hst1 & Hst2 & Hst3) _]. destruct E6 as (F1 & F2 & F3). split.
      * exists st. by rewrite F2, F3.
      * intros ds' Hds'. rewrite E1, Hds in Hds'. injection Hds' as <-.
        by rewrite <- (src_length_eq _ _ _ Hds).
    + change (load (lp_set_continue _ l)) with (load l). unfold load in *. lia.
Qed.

(** ** All completions *)

Lemma answered_same cs q q' :
  answered_ring cs q -> qu_ring q' = qu_ring q ->
  submissionsRunning (qu_counters q') = submissionsRunning (qu_counters q) -> answered_ring cs q'.
Proof. intros [H1 H2 H3] E1 E2. split; by rewrite ?E1, ?E2. Qed.

Lemma handling_reaped P b rc ps batch l c0 cs slot :
  handling P b rc ps batch l -> answered_ring (c0 :: cs) (lq l) ->
  handling P b rc ps batch (lp_set_queue (reaped slot (lq l)) l).
Proof.
  intros [Hs Hr Hb Hn1 Hn2 Hc Hpl Ho Hplace He Hco Haf] Ha. split; try done.
  by eapply serving_reaped.
Qed.

Lemma steady_reaped l slot : steady l (lp_set_queue (reaped slot (lq l)) l).
Proof. by split_and!. Qed.

Lemma runner_addr P X batch l a r rm d cur g :
  loop_ok rm d cur g l -> serving h0 P P X batch l -> qu_runners (lq l) !! a = Some r -> 0 < a < 2 ^ 62.
Proof.
  intros [(_ & _ & _ & [_ Hf _ _]) _ _ _] Hs Hr. destruct (se_addr _ _ _ _ _ _ Hs) as [Hlim Hpos].
  split; [by eapply Hpos|]. destruct (Z_lt_le_dec a (next_addr (lp_cq l))) as [|Hge]; [lia|].
  specialize (Hf a Hge). cbn in Hf. rewrite lookup_fmap, Hr in Hf. done.
Qed.

(** What handling all completions of a runner comes to. *)
Definition round_over fuel k batch l w l' : Prop :=
  (forall n, complete_loop no_forcing (k + n) (S fuel) l = complete_loop no_forcing n (S fuel) l') /\
  loop_ok 0 0 [] NotAdding l' /\ (exists P', serving h0 P' P' [] batch l') /\
  answered_ring (rounds_of (lq l') batch) (lq l') /\ rounds_of (lq l') batch = rounds_of (lq l) batch /\
  steady l l' /\ load l' + 1 <= load l + w.

Lemma handling_done fuel P b rc ps batch l :
  ps <> [] -> loop_ok 0 0 [] NotAdding l -> handling P b rc ps batch l ->
  answered_ring ((tag (b_this b) <$> ps) ++ rounds_of (lq l) batch) (lq l) ->
  exists l', round_over fuel (length ps) batch l (weight (b_runner b) - weight rc) l'.
Proof.
  revert rc l. induction ps as [|[t n] ps IH]; intros rc l Hne Hl Hh Ha; [done|].
  cbn [fmap list_fmap app] in Ha. pose proof (hd_serving _ _ _ _ _ _ Hh) as Hs.
  pose proof (runner_addr _ _ _ _ _ _ _ _ _ _ Hl Hs (hd_runner _ _ _ _ _ _ Hh)) as Haddr.
  pose proof (se_ring _ _ _ _ _ _ Hs) as Hring.
  destruct (cq_contents (r_cq (qu_ring (lq l)))) as [|c rest] eqn:Hcq;
    [pose proof (an_answers _ _ Ha) as E; by rewrite Hcq in E|].
  assert (answer_of c = tag (b_this b) (t, n)) as Hc
    by (pose proof (an_answers _ _ Ha) as E; rewrite Hcq in E; cbn in E; congruence).
  destruct (handling_next _ _ _ _ _ _ _ _ _ _ _ Hl Hh) as (l1 & H1 & Hh1 & Hj & Er & El & Ero & Hst1 & Esub).
  set (rc' := completed no_forcing "" "" t n rc) in *.
  pose proof (completion_ok _ _ _ _ _ _ _ _ Hl H1) as Hl1.
  assert (forall l2, on_result (b_this b) (verdict rc') l1 = Ok (tt, l2) -> qu_ring (lq l2) = qu_ring (lq l1) ->
    exists slot, let l3 := lp_set_queue (reaped slot (lq l2)) l2 in
      loop_ok 0 0 [] NotAdding l3 /\
      forall m, complete_loop no_forcing (S m) (S fuel) l = complete_loop no_forcing m (S fuel) l3) as Hgo.
  { intros l2 H2 Er2.
    destruct (complete_step _ l c rest _ t n l2 fuel Hring Hcq Hc Haddr) as (slot & Hone).
    - unfold on_completion. by rewrite (bind_ok _ _ _ _ _ H1).
    - by rewrite Er2.
    - exists slot. split; [exact (complete_one_ok _ _ _ _ _ _ Hl Hone)|]. intros m.
      by eapply complete_loop_step; [apply (rz_ok _ _ Hring)|exact Ha|]. }
  destruct ps as [|p2 ps].
  - change (zlen []) with 0 in Hj.
    assert (loop_ok 0 1 [b_this b] NotAdding l1) as Hl1'.
    { unfold verdict in Hl1. rewrite Hj, Z.eqb_refl in Hl1.
      by destruct (savedError rc'), (writeOffset rc' =? chunk_end rc'). }
    destruct (round_ends _ _ _ _ _ _ Hl1' Hh1) as (l2 & P2 & H2 & _ & Hs2 & Er2 & Esub2 & Ero2 & Hst2 & Elo).
    destruct (Hgo l2 H2 Er2) as (slot & Hl3 & Hrun). set (l3 := lp_set_queue _ l2) in *.
    assert (answered_ring (tag (b_this b) (t, n) :: rounds_of (lq l2) batch) (lq l2)) as Ha2.
    { rewrite Ero2, Ero. by apply (answered_same _ (lq l)); [|congruence|congruence]. }
    destruct (serving_reaped _ _ _ _ _ _ _ slot Hs2 Ha2) as [Hs3 Ha3].
    exists l3. split; [exact Hrun|]. split; [done|]. split; [by exists P2|].
    split; [exact Ha3|]. split; [change (lq l3) with (reaped slot (lq l2)); by rewrite <- (Ero batch), <- Ero2|]. split.
    + eapply steady_trans; [exact Hst1|]. eapply steady_trans; [exact Hst2|apply steady_reaped].
    + change (load l3) with (load l2). lia.
  - assert (verdict rc' = ContinueTag) as Hv.
    { unfold verdict. rewrite Hj. unfold zlen. cbn [length]. by case_z; [lia|]. }
    destruct (Hgo l1) as (slot & Hl3 & Hrun); [by rewrite Hv|done|]. set (l3 := lp_set_queue _ l1) in *.
    assert (answered_ring (tag (b_this b) (t, n) :: (tag (b_this b) <$> p2 :: ps) ++ rounds_of (lq l) batch)
      (lq l1)) as Ha1 by (by apply (answered_same _ (lq l))).
    pose proof (handling_reaped _ _ _ _ _ _ _ _ slot Hh1 Ha1) as Hh3.
    destruct (serving_reaped _ _ _ _ _ _ _ slot (hd_serving _ _ _ _ _ _ Hh1) Ha1) as [_ Ha3].
    destruct (IH rc' l3 ltac:(done) Hl3 Hh3) as (l4 & Hrun4 & Hl4 & Hs4 & Ha4 & Er4 & Hst4 & Hlo4).
    { change (lq l3) with (reaped slot (lq l1)). by rewrite <- (Ero batch) in Ha3. }
    exists l4. split; [|split; [done|split; [done|split; [done|split; [|split]]]]].
    + intros m. cbn [length]. rewrite <- Hrun4. apply Hrun.
    + rewrite Er4, <- (Ero batch). done.
    + eapply steady_trans; [exact Hst1|]. eapply steady_trans; [apply steady_reaped|exact Hst4].
    + change (load l3) with (load l1) in Hlo4. lia.
Qed.

(** The completions of a whole batch: the loop ends with all of them handled. *)
Lemma complete_loop_served fuel n P batch l :
  (length (rounds_of (lq l) batch) < n)%nat ->
  loop_ok 0 0 [] NotAdding l -> serving h0 P P [] batch l ->
  answered_ring (rounds_of (lq l) batch) (lq l) ->
  exists l' P', complete_loop no_forcing n (S fuel) l = Ok (tt, l') /\
    loop_ok 0 0 [] NotAdding l' /\ serving h0 P' P' [] [] l' /\ queued_ring [] (lq l') /\
    steady l l' /\ load l' <= load l - zlen batch.
Proof.
  revert n P l. induction batch as [|b batch IH]; intros n P l Hn Hl Hs Ha.
  - exists l, P. destruct n as [|n]; [lia|]. destruct Ha as [A1 A2 A3].
    assert (cq_contents (r_cq (qu_ring (lq l))) = []) as Hcq by (by destruct (cq_contents _)).
    split.
    { cbn [complete_loop]. rewrite (bind_ok _ _ l (lq l) l) by done. by rewrite A3. }
    assert (queued_ring [] (lq l)) as Hq by (split; [done|]; split; [done|by rewrite A3, A1]).
    do 3 (split; [done|]). split; [apply steady_refl|]. change (zlen []) with 0. lia.
  - pose proof (handling_starts _ _ _ _ _ _ _ Hl Hs) as Hh. cbv zeta in Hh.
    set (ps := round_results _ _) in Hh.
    assert (rounds_of (lq l) (b :: batch) = (tag (b_this b) <$> ps) ++ rounds_of (lq l) batch) as Er by done.
    rewrite Er in Ha, Hn. rewrite length_app, length_fmap in Hn.
    assert (ps <> []) as Hne by (unfold ps, round_results; by destruct (_ =? 0)).
    destruct (handling_done fuel _ _ _ _ _ _ Hne Hl Hh Ha)
      as (l1 & Hrun & Hl1 & (P1 & Hs1) & Ha1 & Er1 & Hst1 & Hlo). rewrite weight_submitted in Hlo.
    destruct (IH (n - length ps)%nat P1 l1) as (l2 & P2 & Hrun2 & Hl2 & Hs2 & Hq2 & Hst2 & Hlo2); try done; [rewrite Er1; lia|].
    exists l2, P2. split.
    { replace n with (length ps + (n - length ps))%nat by lia. by rewrite Hrun. }
    do 3 (split; [done|]). split; [by eapply steady_trans|].
    unfold zlen in *. cbn [length]. lia.
Qed.
End completing.
