(* ===== verification/Termination.v ===== *)
(** * The submit thread terminates

    In a world that opens every file and serves every request, with nothing more to
    be added, the submit thread returns: an iteration of its loop in which runners
    are alive starts at least one, and every runner needs at most two rounds.  No
    error is reported, and every byte planned was copied. *)

From stdpp Require Import gmap strings.
From S2P Require Import Prelude Abi Prep RingBuf Ring SqSpec CqSpec Kernel Queue QueueSpec Os Util Heap Eta CopyState FileDesc Runner RunnerData RunnerLive RunnerSpec CopyQueue CopyJob SubmitLoop Shape Accounts System SystemSpec Service Rounds ServedFiles Serving Retiring Starting Adding Finishing Completing.
Import Eta.Rolling Eta.ETA.

(** A program in three parts, and what comes after it. *)
Lemma bind_after {S A B} (x : prog S B) (k : B -> prog S unit) (m : prog S unit) (f : prog S A) s s' :
  (let* v := x in do* k v in m) s = Ok (tt, s') -> (let* v := x in do* k v in do* m in f) s = f s'.
Proof.
  unfold bind. destruct (x s) as [[v s1]| |]; [|done..].
  destruct (k v s1) as [[[] s2]| |]; [|done..]. by intros ->.
Qed.

Section termination.
Context {W : Type} {F : Files W} {K : Kernel W} {V : View W} {L : ServiceLaws W}.
Context (h0 : Heap.heap) (Hbase : 0 < Heap.data h0)
  (Hend : Heap.data h0 + Heap.blocks h0 * Heap.blockSize h0 < 2 ^ 63) (Hblocks : 0 < Heap.blocks h0).
Implicit Types (q : queue W) (l : loop W) (P H : gset Z) (X : list Z) (r : CopyRunner).

(** ** Bounds *)

Lemma load_size l : Z.of_nat (base.size (qu_runners (lq l))) <= load l.
Proof.
  unfold load. induction (qu_runners (lq l)) as [|a r m Ha IH] using map_ind; [done|].
  rewrite map_size_insert_None, total_insert by done. pose proof (weight_range r). lia.
Qed.

Lemma zlen_runners l (ls : list Z) :
  NoDup ls -> (forall a, a ∈ ls -> is_Some (qu_runners (lq l) !! a)) -> zlen ls <= load l.
Proof.
  intros Hnd Hin. pose proof (load_size l). enough (zlen ls <= Z.of_nat (base.size (qu_runners (lq l)))) by lia.
  unfold zlen. apply inj_le. rewrite <- (size_list_to_set (C := gset Z) ls) by done.
  rewrite <- (size_dom (D := gset Z) (qu_runners (lq l))). apply subseteq_size.
  intros a Ha. apply elem_of_list_to_set, Hin in Ha. by apply elem_of_dom.
Qed.

Lemma waiting_load rm d g l : loop_ok rm d [] g l -> zlen (waiting l) <= load l.
Proof.
  intros [([_ _ _ _ W5 W6] & _) _ _ _]. apply zlen_runners; [done|].
  intros a (o & Ho & _)%W6. apply owner_runner in Ho as (r & Hr & _). by exists r.
Qed.

Lemma batch_load P H X batch l : serving h0 P H X batch l -> zlen batch <= load l.
Proof.
  intros Hs. replace (zlen batch) with (zlen (b_this <$> batch)) by (unfold zlen; by rewrite length_fmap).
  apply zlen_runners; [apply (se_nodup _ _ _ _ _ _ Hs)|]. intros a Ha.
  apply list_elem_of_fmap in Ha as (b & -> & Hb). apply list_elem_of_lookup_1 in Hb as (i & Hi).
  destruct (Forall_lookup_1 _ _ _ _ (se_batch _ _ _ _ _ _ Hs) Hi) as (Hr & _). by eexists.
Qed.

Lemma rounds_length q batch : zlen (rounds_of q batch) <= 2 * zlen batch.
Proof.
  unfold rounds_of. induction batch as [|b batch IH]; [done|]. cbn [fmap list_fmap concat].
  rewrite zlen_app. unfold round_of at 1. unfold zlen at 1. rewrite length_fmap.
  assert (length (round_results (src_length q (b_runner b)) (b_runner b)) <= 2)%nat as Hr
    by (unfold round_results; destruct (_ =? 0); cbn; lia).
  unfold zlen at 2. cbn [length]. unfold zlen in IH at 2. lia.
Qed.

Lemma batch_ring P H X batch l :
  serving h0 P H X batch l -> queued_ring batch (lq l) -> zlen batch <= ringSize (lp_cq l).
Proof.
  intros Hs (_ & Ha & _). destruct (se_ring _ _ _ _ _ _ Hs) as [[R1 _] _ R3 _ _].
  destruct (sq_abs_lengths _ R1) as [_ La]. rewrite Ha in La.
  pose proof (sq_unflushed_range _ R1). pose proof (sq_pending_range _ R1).
  enough (zlen batch <= zlen (concat (b_entries <$> batch))) by lia. clear.
  induction batch as [|b batch IH]; [done|]. cbn [fmap list_fmap concat]. rewrite zlen_app.
  pose proof (b_entries_nonempty b). destruct (b_entries b) as [|e es]; [done|].
  unfold zlen in *. cbn [length]. lia.
Qed.

Lemma sext_nonzero n : 0 < n < 2 ^ 32 -> s32 n <> 0.
Proof.
  intros Hn. unfold sext. rewrite Z.mod_small by lia. destruct (Z.ltb_spec n (2 ^ (32 - 1))); lia.
Qed.

Lemma nobody_left P H l :
  loop_ok 0 0 [] NotAdding l -> serving h0 P H [] [] l ->
  (keepAliveCount (qu_counters (lq l)) = 0 <-> load l <= 0).
Proof.
  intros [([W1 W2 _ _ _ _] & _) _ _ _] _. 
  change (sh_alive (shape_of (lq l))) with (keepAliveCount (qu_counters (lq l))) in W1.
  change (sh_owners (shape_of (lq l))) with (owner_of <$> qu_runners (lq l)) in *.
  rewrite alive_size in W1, W2. rewrite wrap_small in W1 by (unfold in_u; lia). pose proof (load_size l).
  split; intros E; [|lia].
  assert (qu_runners (lq l) = ∅) as Em by (apply map_size_empty_inv; lia).
  unfold load. by rewrite Em.
Qed.

(** ** One iteration *)

(** Submitting, if runners were added. *)
Lemma submit_part P batch l n :
  loop_ok 0 0 [] NotAdding l -> serving h0 P P [] batch l -> queued_ring batch (lq l) ->
  exists q, (if negb (s32 (zlen batch) =? 0) then let* v := submit_retry (S n) in assert (0 <? v)
      else ret tt) l = Ok (tt, lp_set_queue q l) /\
    loop_ok 0 0 [] NotAdding (lp_set_queue q l) /\ serving h0 P P [] batch (lp_set_queue q l) /\
    answered_ring (rounds_of q batch) q /\ qu_runners q = qu_runners (lq l) /\
    qu_counters q = qu_counters (lq l) /\ sv_length (world q) = sv_length (world (lq l)).
Proof.
  intros Hl Hs Hq. destruct (decide (batch = [])) as [->|Hne].
  - exists (lq l). rewrite lp_set_queue_id. do 3 (split; [done|]). split; [|done].
    destruct Hq as (Q1 & Q2 & Q3). split; [done|by rewrite Q1|by rewrite Q3, Q2].
  - assert (0 < zlen batch) by (unfold zlen; destruct batch; [done|cbn; lia]).
    pose proof (batch_ring _ _ _ _ _ Hs Hq). pose proof (lo_ring _ _ _ _ _ Hl).
    pose proof (sext_nonzero (zlen batch) ltac:(lia)) as Hnz.
    destruct (Z.eqb_spec (s32 (zlen batch)) 0); [done|]. cbn [negb].
    destruct (submit_started h0 P batch l n Hs Hq Hne) as (v & q & Hrun & Hv & Hon & Hs1 & Ha1 & Er & Ec & El).
    exists q. rewrite (bind_ok _ _ _ _ _ Hrun). split; [unfold assert; by destruct (Z.ltb_spec 0 v); [|lia]|].
    split; [|done]. by destruct (loop_ok_keeps _ _ _ _ _ _ _ _ (keeps_on_ring _) Hl Hon).
Qed.

(** What an iteration comes to: whoever waited, somebody got on. *)
Lemma iteration_served rand P l inner fuel :
  2 <= ringSize (lp_cq l) -> (2 * load l < Z.of_nat inner) ->
  loop_ok 0 0 [] NotAdding l -> serving h0 P P [] [] l -> queued_ring [] (lq l) ->
  exists l' P', (let* runnersAdded := add_loop no_forcing rand inner (S fuel) 0 in
     do* (if negb (runnersAdded =? 0) then let* v := submit_retry inner in assert (0 <? v) else ret tt) in
     complete_loop no_forcing inner (S fuel)) l = Ok (tt, l') /\
    loop_ok 0 0 [] NotAdding l' /\ serving h0 P' P' [] [] l' /\ queued_ring [] (lq l') /\ steady l l' /\
    load l' <= load l /\
    (cq_state (lp_cq l) = AdditionComplete -> load l' < load l \/ load l' <= 0).
Proof.
  intros H2 Hin Hl Hs Hq. pose proof (waiting_load _ _ _ _ Hl) as Hwl.
  assert (0 <= load l) as Hpos by (unfold zlen in *; lia).
  destruct (add_loop_served h0 Hbase Hend rand inner (S fuel) P [] l 0) as
    (l1 & P1 & batch & H1 & Hl1 & Hs1 & Hq1 & Hst1 & Hle & Hless & Hlt); try done; [lia|unfold zlen in *; lia|].
  change (zlen []) with 0 in Hle. rewrite (bind_ok _ _ _ _ _ H1). destruct inner as [|n]; [lia|].
  destruct (submit_part P1 batch l1 n Hl1 Hs1 Hq1) as (q & Hrun & Hl2 & Hs2 & Ha2 & Er & Ec & El).
  rewrite (bind_ok _ _ _ _ _ Hrun). set (l2 := lp_set_queue q l1) in *.
  assert (load l2 = load l1) as Elo by (unfold load; change (lq l2) with q; by rewrite Er).
  assert (zlen batch <= load l).
  { pose proof (batch_load _ _ _ _ _ Hs1). lia. }
  destruct (complete_loop_served h0 fuel (S n) P1 batch l2) as (l3 & P3 & H3 & Hl3 & Hs3 & Hq3 & Hst3 & Hle3);
    try done.
  { pose proof (rounds_length (lq l2) batch). unfold zlen in *. lia. }
  exists l3, P3. split; [done|]. do 3 (split; [done|]). split.
  - eapply steady_trans; [exact Hst1|]. eapply steady_trans; [|exact Hst3].
    split_and!; try done; change (lq l2) with q; by rewrite Ec.
  - split; [lia|]. intros Hst. destruct (decide (waiting l = [])) as [Ew|Ew].
    + right. assert (load l <= 0); [|lia]. unfold load.
      assert (qu_runners (lq l) = ∅) as Em; [|by rewrite Em].
      apply map_empty. intros a. destruct (qu_runners (lq l) !! a) as [r|] eqn:Hr; [|done].
      pose proof (all_waiting h0 _ _ _ _ _ _ _ _ Hl Hs Hr) as Ha. rewrite Ew in Ha. by apply elem_of_nil in Ha.
    + left. specialize (Hlt Hst eq_refl Ew). lia.
Qed.

(** ** The loop *)

(** How [submitLoop] ends: the process exits only if nobody waits for the queue. *)
Definition ending l : loop_end :=
  match completionAction (lp_cq l) with
  | ExitProcessNoCleanup => if showingProgress (lp_cq l) then LoopReturned else ProcessExited
  | Return => LoopReturned
  end.

(** All is copied, and nothing is left. *)
Record copied_all l l' : Prop := {
  ca_errors : errorMessages (lp_cq l') = errorMessages (lp_cq l);
  ca_runners : qu_runners (lq l') = ∅;
  ca_bytes : totalBytesCopied (qu_counters (lq l')) = u64 (totalBytesToCopy (qu_counters (lq l)));
}.

(** The last lines of [submitLoop]: exiting, or giving the buffer at hand back. *)
Lemma leave_loop P l :
  loop_ok 0 0 [] NotAdding l -> serving h0 P P [] [] l ->
  exists l', (let* l := get in
     if match completionAction (lp_cq l) with
        | ExitProcessNoCleanup => negb (showingProgress (lp_cq l))
        | Return => false
        end
     then ret ProcessExited
     else
       do* (if negb (nextBuffer l =? 0) then
              let* q := get_queue in
              match Heap.returnBlock (nextBuffer l) (qu_heap q) with
              | Ok (_, h) => on_cq (on_queue (modify (set_heap h)))
              | Fault f => raise f
              | NoFuel => no_fuel
              end
            else ret tt) in
       ret LoopReturned) l = Ok (ending l, l') /\
    lp_cq l' = cq_set_queue (lq l') (lp_cq l) /\
    qu_runners (lq l') = qu_runners (lq l) /\ qu_counters (lq l') = qu_counters (lq l).
Proof.
  intros Hl Hs. rewrite (bind_ok _ _ l l l) by done.
  assert (lp_cq l = cq_set_queue (lq l) (lp_cq l)) as Eid by (by destruct l as [[] ? ? ?]).
  destruct (match completionAction (lp_cq l) with ExitProcessNoCleanup => _ | Return => _ end) eqn:Hx.
  { exists l. split; [|done]. unfold ret, ending. revert Hx.
    by destruct (completionAction (lp_cq l)), (showingProgress (lp_cq l)). }
  assert (ending l = LoopReturned) as ->.
  { unfold ending. revert Hx. by destruct (completionAction (lp_cq l)), (showingProgress (lp_cq l)). }
  destruct (Z.eqb_spec (nextBuffer l) 0) as [E|E]; cbn [negb]; [by exists l|].
  destruct (se_buffer _ _ _ _ _ _ Hs) as [|(i & Hi & Ei)]; [done|].
  destruct (se_geom _ _ _ _ _ _ Hs) as (E1 & E2 & E3 & E4).
  destruct Hl as [(_ & _ & Hb & _) _ _ _].
  assert (Heap.block_at (qu_heap (lq l)) i = Heap.block_at h0 i) as Eb by (unfold Heap.block_at; by rewrite E1, E3).
  assert (Heap.used_at (qu_heap (lq l)) i) as Hu.
  { apply (bl_used _ _ _ Hb); [change (sh_heap (shape_of (lq l))) with (qu_heap (lq l)); lia|left].
    change (sh_heap (shape_of (lq l))) with (qu_heap (lq l)). by rewrite Eb. }
  pose proof (Heap.returnBlock_run _ _ (bl_heap _ _ _ Hb) Hu) as Hrb.
  change (sh_heap (shape_of (lq l))) with (qu_heap (lq l)) in Hrb.
  eexists. unfold bind at 1. unfold bind at 1, get_queue, gets. fold (lq l).
  rewrite Ei, <- Eb, Hrb. split; [done|]. by split_and!.
Qed.

Lemma submitLoop_served rand n P l inner fuel :
  cq_state (lp_cq l) = AdditionComplete -> 2 <= ringSize (lp_cq l) -> 2 * load l < Z.of_nat inner -> load l < Z.of_nat n ->
  loop_ok 0 0 [] NotAdding l -> serving h0 P P [] [] l -> queued_ring [] (lq l) ->
  exists l', submitLoop no_forcing rand n inner (S fuel) l = Ok (ending l, l') /\ copied_all l l'.
Proof.
  revert P l. induction n as [|n IH]; intros P l Hst H2 Hin Hn Hl Hs Hq.
  { pose proof (waiting_load _ _ _ _ Hl). unfold zlen in *. lia. }
  destruct (iteration_served rand P l inner fuel H2 Hin Hl Hs Hq)
    as (l1 & P1 & Hrun & Hl1 & Hs1 & Hq1 & Hst1 & _ & Hlt).
  specialize (Hlt Hst).
  pose proof Hst1 as (T1 & T2 & T0 & T3 & T4 & T5 & _ & _).
  assert (ending l1 = ending l) as Een by (unfold ending; by rewrite T3, T4).
  cbn [submitLoop]. rewrite (bind_after _ _ _ _ _ _ Hrun).
  assert (on_cq isDone l1 = Ok (keepAliveCount (qu_counters (lq l1)) =? 0, l1)) as Hdone.
  { unfold on_cq, isDone, gets. rewrite T0, Hst. fold (lq l1).
    by destruct l1 as [? ? ? ?]. }
  rewrite (bind_ok _ _ _ _ _ Hdone). pose proof (nobody_left _ _ _ Hl1 Hs1) as Hno.
  destruct (Z.eqb_spec (keepAliveCount (qu_counters (lq l1))) 0) as [E|E].
  - destruct (leave_loop _ _ Hl1 Hs1) as (l2 & Hlv & Ecq & Er & Ec). exists l2.
    rewrite <- Een. split; [exact Hlv|].
    assert (qu_runners (lq l1) = ∅) as Em.
    { apply map_size_empty_inv. pose proof (load_size l1). apply Hno in E. lia. }
    split; [by rewrite Ecq|by rewrite Er|]. rewrite Ec.
    destruct (se_bytes _ _ _ _ _ _ Hs1) as [_ ->]. rewrite Em, total_zero, T5. f_equal. lia.
  - assert (load l1 < load l) as Hless by (destruct Hlt as [?|?]; [done|by destruct E; apply Hno]).
    destruct (IH P1 l1) as (l2 & H2' & [C1 C2 C3]); try done; [by rewrite T0|by rewrite T2|lia|lia|].
    exists l2. split; [by rewrite <- Een|]. split; [congruence|done|by rewrite <- T5].
Qed.
End termination.
