(* ===== verification/Planning.v ===== *)
(** * Adding copies in a world that serves them

    What adding a copy to the queue does to the state of the submit thread that
    serves: the descriptors of its files are opened if the reserve of the submit
    thread is left, and its chunks wait behind those that waited before. *)

From stdpp Require Import gmap strings.
From S2P Require Import Prelude Abi Prep RingBuf Ring SqSpec CqSpec Kernel Queue QueueSpec Os Util Heap Eta CopyState FileDesc Runner RunnerData RunnerLive RunnerSpec CopyQueue CopyJob SubmitLoop Shape Accounts System SystemSpec Service Rounds ServedFiles Serving Retiring Starting Adding Finishing Completing Termination.
Import Eta.Rolling Eta.ETA.

(** A run of one element can be appended. *)
Lemma grouped_app {A} (l : list A) x n : grouped l -> x ∉ l -> grouped (l ++ replicate n x).
Proof.
  induction l as [|a l IH]; intros Hg Hx.
  - clear. induction n as [|n IH]; [done|]. split; [|exact IH]. cbn.
    destruct n as [|n]; [by intros ?%elem_of_nil|done].
  - destruct Hg as [Ha Hg]. apply not_elem_of_cons in Hx as [Hne Hx]. split; [|by apply IH].
    intros [Hin|Hin]%elem_of_app; [specialize (Ha Hin); by destruct l|].
    apply elem_of_replicate in Hin as [-> _]. done.
Qed.

(** ** What adding leaves alone *)

Section leaves.
Context {W : Type} {F : Files W}.
Implicit Types (c : cqueue W).

(** No runner at an address not used yet. *)
Definition unused c : Prop := forall p, next_addr c <= p -> qu_runners (cq_queue c) !! p = None.

(** [leaves f m]: the runs of [m] that return keep [f] and use addresses in order. *)
Definition leaves {A B} (f : cqueue W -> B) (m : prog (cqueue W) A) : Prop :=
  forall c a c', unused c -> m c = Ok (a, c') -> unused c' /\ f c' = f c.

Lemma leaves_bind {A B C} (f : cqueue W -> C) (m : prog (cqueue W) A) (k : A -> prog (cqueue W) B) :
  leaves f m -> (forall a, leaves f (k a)) -> leaves f (bind m k).
Proof.
  intros Hm Hk c b c' Hu H. apply bind_inv in H as (a & c1 & H1 & H2).
  destruct (Hm _ _ _ Hu H1) as [Hu1 E1]. destruct (Hk a _ _ _ Hu1 H2) as [Hu2 E2].
  split; [done|congruence].
Qed.

Lemma leaves_ret {A C} (f : cqueue W -> C) (a : A) : leaves f (ret a).
Proof. by intros c b c' Hu [= _ <-]. Qed.

Lemma leaves_assert {C} (f : cqueue W -> C) b : leaves f (assert b).
Proof. intros c u c' Hu. unfold assert. by destruct b; [intros [= _ <-]|]. Qed.

Lemma leaves_gets {A C} (f : cqueue W -> C) (g : cqueue W -> A) : leaves f (gets g).
Proof. by intros c a c' Hu [= _ <-]. Qed.

(** The totals in balance: what is to be copied less what is not written yet. *)
Definition balance c : Z :=
  u64 (totalBytesToCopy (qu_counters (cq_queue c)) - total unwritten (qu_runners (cq_queue c))).

(** What the addition of chunks leaves alone. *)
Definition aside c : Z * Z * OnCompletionAction * bool * bool * Z * Z * gmap Z QueueFileDescriptor * ost W * Z * Z :=
  let q := cq_queue c in
  (balance c, ringSize c, completionAction c, showingProgress c, errored c, submissionsRunning (qu_counters q),
   totalBytesCopied (qu_counters q), qu_qfds q, qu_os q, fileDescriptorsUsed q, fileDescriptorCap q).

Lemma leaves_part sfd dfd off sz al t : leaves aside (addCopyJobPart sfd dfd off sz al t).
Proof.
  intros c u c' Hu H. unfold addCopyJobPart in H. apply bind_inv in H as (st & c1 & Hg & H).
  injection Hg as _ <-. apply bind_inv in H as ([] & c1 & Ha & H). apply assert_inv in Ha as [_ ->].
  injection H as _ <-. pose proof (Hu (next_addr c) ltac:(lia)) as Hn. match goal with |- unused ?x /\ _ => set (c2 := x) end.
  assert (balance c2 = balance c) as Hb.
  { unfold balance. cbn. rewrite total_insert by done. unfold unwritten at 1, chunk_end. cbn.
    rewrite wrap_sub_l. f_equal. lia. }
  split; [|unfold aside; by rewrite Hb].
  intros p Hp. cbn in *. rewrite lookup_insert_ne by lia. apply Hu. lia.
Qed.

Lemma leaves_loop fuel sfd dfd tot cs al t i off : leaves aside (part_loop fuel sfd dfd tot cs al t i off).
Proof.
  revert i off. induction fuel as [|n IH]; intros i off; cbn [part_loop]; destruct (off =? tot);
    try apply leaves_ret; [by intros c a c' _ [=]|]. apply leaves_bind; [apply leaves_part|intros _; apply IH].
Qed.

Lemma leaves_parts fuel st sfd dfd t : leaves aside (add_parts fuel st sfd dfd t).
Proof.
  assert (forall n, leaves aside (on_queue (modify (fun q : queue W => set_chunks (<[t := n]> (qu_chunks q)) q))))
    as Ht by (intros n c u c' Hu; by intros [= _ <-]).
  unfold add_parts. destruct (stx_size st =? 0).
  - apply leaves_bind; [apply Ht|intros _; apply leaves_part].
  - repeat (apply leaves_bind; [first [apply leaves_gets|apply leaves_assert|apply Ht|apply leaves_loop]
      |intros ?]). apply leaves_assert.
Qed.
End leaves.

(** ** Creating descriptors *)

Section planning.
Context {W : Type} {F : Files W} {K : Kernel W} {V : View W} {L : ServiceLaws W}.
Context (h0 : Heap.heap).
Implicit Types (q : queue W) (l : loop W) (c : cqueue W) (P H : gset Z) (X : list Z) (r : CopyRunner).

(** Below the limit for low priority, what is open was opened early. *)
Lemma fds_serve_low P P' q :
  fds_serve P' q -> P ⊆ P' ->
  fileDescriptorsUsed q <= fileDescriptorCap q - RESERVED_HIGH_PRIORITY_FD_COUNT -> fds_serve P q.
Proof.
  intros [H1 H2 H3 H4 H5 H6 H7 H8 H9] HP Hu. split; try done.
  - enough (count (early P) (qu_qfds q) <= open_count q) by lia. rewrite open_count_eq.
    apply count_mono. intros p d _. unfold early. by intros [? _]%andb_prop.
  - intros p d Hp. by apply H7, HP.
Qed.

(** A descriptor that was never opened. *)
Lemma fds_serve_new P q p path oflag mode :
  fds_serve P q -> qu_qfds q !! p = None -> p ∉ P ->
  fds_serve P (set_qfds (<[p := mk_qfd path oflag mode NEVER_OPENED_VAL]> (qu_qfds q)) q).
Proof.
  intros [H1 H2 H3 H4 H5 H6 H7 H8 H9] Hp HP. set (d := mk_qfd path oflag mode NEVER_OPENED_VAL).
  assert (isOpen d = false) as Ho by done. split; cbn; try done.
  - intros p' d' [[<- <-]|[_ Hp']]%lookup_insert_Some; [by left|by apply (H1 p')].
  - intros p1 p2 d1 d2 [[<- <-]|[_ Hp1]]%lookup_insert_Some [[<- <-]|[_ Hp2]]%lookup_insert_Some;
      try done; [|by apply H2].
    intros Ho1 E. unfold isOpen in Ho1. apply Z.ltb_lt in Ho1. rewrite E in Ho1.
    unfold d, NEVER_OPENED_VAL in Ho1. cbn in Ho1. lia.
  - rewrite H3, !open_count_eq. cbn. by rewrite count_insert, Ho, delete_id.
  - rewrite count_insert, delete_id by done. unfold early at 1. rewrite Ho. cbn. lia.
  - intros p' d' Hin [[<- <-]|[_ Hp']]%lookup_insert_Some; [done|by apply (H7 p')].
Qed.

Lemma new_qfd_served P q i p path oflag mode :
  fds_serve P q -> qu_qfds q !! p = None -> p ∉ P ->
  exists d o u, let q' := set_qfds (<[p := d]> (qu_qfds q)) (set_os o (set_fdsUsed u q)) in
    new_qfd i p path oflag mode q = Ok (tt, q') /\ fds_serve P q' /\
    q_path d = path /\ q_fd d <> CLOSED_VAL /\ sv_length (world q') = sv_length (world q).
Proof.
  intros Hs Hp HP. set (d := mk_qfd path oflag mode NEVER_OPENED_VAL).
  pose proof (fds_serve_new P q p path oflag mode Hs Hp HP) as Hs1. fold d in Hs1.
  set (q1 := set_qfds (<[p := d]> (qu_qfds q)) q) in *.
  pose proof (fs_cap _ _ Hs) as Hcap. pose proof (fs_used _ _ Hs). pose proof (open_count_nonneg q).
  unfold new_qfd. fold d. rewrite (bind_ok _ _ q tt q1) by done.
  unfold reserveFileDescriptor. unfold bind at 2 3, gets. unfold bind at 1.
  change (fileDescriptorCap q1) with (fileDescriptorCap q).
  change (fileDescriptorsUsed q1) with (fileDescriptorsUsed q).
  unfold RESERVED_FD_COUNT, RESERVED_HIGH_PRIORITY_FD_COUNT in *.
  rewrite (wrap_small 64 (fileDescriptorCap q - 2)) by (unfold in_u; lia).
  destruct ((fileDescriptorCap q - 2 <=? fileDescriptorsUsed q) || i) eqn:Hb.
  { exists d, (qu_os q), (fileDescriptorsUsed q). assert (set_qfds (<[p := d]> (qu_qfds q))
      (set_os (qu_os q) (set_fdsUsed (fileDescriptorsUsed q) q)) = q1) as -> by (by destruct q). done. }
  apply orb_false_iff in Hb as [Hb _]. apply Z.leb_gt in Hb.
  rewrite (wrap_small 64 (_ + 1)) by (unfold in_u; lia).
  set (q2 := set_fdsUsed (fileDescriptorsUsed q + 1) q1). unfold bind at 1, modify at 1, ret. fold q2.
  assert (qu_qfds q2 !! p = Some d) as Hp2 by apply lookup_insert_eq.
  destruct (doOpen_served p d q2 Hp2) as (fd & o & Hop & Hfd & Hn & Hpa & Hle & Hlim).
  { pose proof (fs_room _ _ Hs). pose proof (fs_limit _ _ Hs). change (world q2) with (world q). lia. }
  rewrite (bind_ok _ _ _ _ _ Hop).
  exists (qfd_set_fd fd d), o, (fileDescriptorsUsed q + 1). split; [|split; [|split; [done|split; [|done]]]].
  - unfold ret. do 2 f_equal. unfold q2, q1. cbn. by rewrite insert_insert_eq.
  - apply (fds_serve_low P ({[p]} ∪ P)); [|set_solver|change (fileDescriptorsUsed q + 1 <= fileDescriptorCap q - 2); lia].
    assert (fds_serve ({[p]} ∪ P) (opened_at p d fd o q1)) as Ho.
    { apply opened_serves; try done. change (fileDescriptorsUsed q < fileDescriptorCap q). lia. }
    assert (set_qfds (<[p := qfd_set_fd fd d]> (qu_qfds q)) (set_os o (set_fdsUsed (fileDescriptorsUsed q + 1) q))
      = opened_at p d fd o q1) as -> by (unfold opened_at, q1; cbn; by rewrite insert_insert_eq).
    exact Ho.
  - cbn. unfold CLOSED_VAL. lia.
Qed.

(** The two descriptors of a copy. *)
Record files_created P src dest c c1 : Prop := {
  fc_fds : fds_serve P (cq_queue c1);
  fc_src : exists ds, qu_qfds (cq_queue c1) !! next_addr c = Some ds /\ q_path ds = src /\ q_fd ds <> CLOSED_VAL;
  fc_dest : exists dd, qu_qfds (cq_queue c1) !! (next_addr c + 1) = Some dd /\ q_path dd = dest /\
    q_fd dd <> CLOSED_VAL;
  fc_old : forall p, p <> next_addr c -> p <> next_addr c + 1 ->
    qu_qfds (cq_queue c1) !! p = qu_qfds (cq_queue c) !! p;
  fc_rest : exists m o u, c1 = cq_set_next (next_addr c + 3)
    (cq_set_queue (set_qfds m (set_os o (set_fdsUsed u (cq_queue c)))) c);
  fc_length : sv_length (world (cq_queue c1)) = sv_length (world (cq_queue c));
}.

Lemma open_files_served {A} P i1 i2 src dest o1 o2 m2 (k : Z -> Z -> Z -> prog (cqueue W) A) c :
  fds_serve P (cq_queue c) -> (forall p, next_addr c <= p -> qu_qfds (cq_queue c) !! p = None) ->
  (forall p, next_addr c <= p -> p ∉ P) ->
  exists c1, files_created P src dest c c1 /\
    (let* sfd := fresh in
     do* on_queue (new_qfd i1 sfd src o1 0) in
     let* dfd := fresh in
     do* on_queue (new_qfd i2 dfd dest o2 m2) in
     let* tracker := fresh in
     k sfd dfd tracker) c = k (next_addr c) (next_addr c + 1) (next_addr c + 2) c1.
Proof.
  intros Hs Hnew HP. set (a := next_addr c) in *. set (c0 := cq_set_next (a + 1) c).
  destruct (new_qfd_served P (cq_queue c0) i1 a src o1 0 Hs (Hnew a ltac:(lia)) (HP a ltac:(lia)))
    as (ds & os & us & H1 & S1 & P1 & C1 & L1). set (q1 := set_qfds _ _) in *.
  set (c2 := cq_set_next (a + 1 + 1) (cq_set_queue q1 c0)).
  assert (qu_qfds q1 !! (a + 1) = None) as Hn2 by (cbn; rewrite lookup_insert_ne by lia; apply Hnew; lia).
  destruct (new_qfd_served P (cq_queue c2) i2 (a + 1) dest o2 m2 S1 Hn2 (HP (a + 1) ltac:(lia)))
    as (dd & od & ud & H2 & S2 & P2 & C2 & L2).
  set (q2 := set_qfds (<[a + 1 := dd]> (qu_qfds (cq_queue c2))) (set_os od (set_fdsUsed ud (cq_queue c2)))) in *.
  exists (cq_set_next (a + 1 + 1 + 1) (cq_set_queue q2 c2)). split.
  - split; fold a.
    + exact S2.
    + exists ds. split; [|done]. cbn. by rewrite lookup_insert_ne, lookup_insert_eq by lia.
    + exists dd. split; [|done]. cbn. by rewrite lookup_insert_eq.
    + intros p Hp1 Hp2. cbn. by rewrite !lookup_insert_ne by done.
    + replace (a + 3) with (a + 1 + 1 + 1) by lia. by eexists _, _, _.
    + cbn in L1, L2 |- *. by rewrite <- L1.
  - rewrite (bind_ok _ _ c a c0) by done. rewrite (bind_ok _ _ _ _ _ (on_queue_ok _ c0 _ _ H1)).
    rewrite (bind_ok _ _ _ (a + 1) c2) by done.
    rewrite (bind_ok _ _ _ _ _ (on_queue_ok _ c2 _ _ H2)).
    rewrite (bind_ok _ _ _ (a + 1 + 1) (cq_set_next (a + 1 + 1 + 1) (cq_set_queue q2 c2))) by done.
    by replace (a + 2) with (a + 1 + 1) by lia.
Qed.

(** ** Adding a file *)

(** Only descriptors that exist count as those of runners started. *)
Lemma serving_trim P l :
  loop_ok 0 0 [] NotAdding l -> serving h0 P P [] [] l ->
  let P0 := P ∩ dom (qu_qfds (lq l)) in serving h0 P0 P0 [] [] l.
Proof.
  intros Hl [S2 S3 S4 S5 S6 S7 S8 S9 S10 S11 S12 S13 S14 S15 S16] P0.
  assert (forall a r, qu_runners (lq l) !! a = Some r ->
    sourceFd r ∈ dom (qu_qfds (lq l)) /\ destFd r ∈ dom (qu_qfds (lq l))) as Hdom.
  { intros a r Hr. destruct (runner_files _ _ _ _ _ _ _ Hl Hr) as (ds & dd & _ & Hs & Hd & _).
    rewrite !elem_of_dom, Hs, Hd. by eauto. }
  split; try done.
  - destruct S5 as [H1 H2 H3 H4 H5 H6 H7 H8 H9]. split; try done.
    + enough (count (early P0) (qu_qfds (lq l)) <= count (early P) (qu_qfds (lq l))) by lia.
      apply count_mono. intros p d Hp. unfold early, P0. rewrite !andb_true_iff, !bool_decide_eq_true.
      intros [? Hn]. split; [done|]. intros HP. apply Hn, elem_of_intersection. split; [done|].
      by apply elem_of_dom.
    + intros p d [Hp _]%elem_of_intersection. by apply H7.
  - intros a r Ha Hr. destruct (S11 a r Ha Hr) as (?&?&?&?). destruct (Hdom a r Hr).
    unfold P0. rewrite !elem_of_intersection. done.
  - intros a r Hr. destruct (S12 a r Hr) as [Hne HP]. destruct (Hdom a r Hr).
    unfold P0. rewrite !elem_of_intersection. tauto.
  - intros x [Hx _]%elem_of_intersection. by apply S13.
Qed.

(** The runners of a file added are ready to be started. *)
Lemma planned_idle q st sfd dfd tracker p ds :
  plannable h0 st -> p ∈ plan h0 st -> qu_qfds q !! sfd = Some ds ->
  sv_length (world q) (q_path ds) = stx_size st ->
  qu_chunks q !! tracker = Some (zlen (plan h0 st)) ->
  let r := chunk_runner sfd dfd tracker p in idle_ok h0 q r /\ buffer r = 0.
Proof.
  intros Hp Hin Hds Hlen Ht. destruct Hp as [Hz|Hj].
  - unfold plan in *. rewrite Hz in *. cbn [Z.eqb] in *. apply list_elem_of_singleton in Hin as ->.
    split; [by left|done].
  - apply list_elem_of_lookup_1 in Hin as (i & Hi).
    assert (zget (plan h0 st) (Z.of_nat i) = Some p) as Hg
      by (unfold zget; destruct (Z.ltb_spec (Z.of_nat i) 0); [lia|]; by rewrite Nat2Z.id).
    destruct (plan_get h0 st _ p Hj Hg) as (Hjn & ->). clear Hi Hg.
    destruct (planned_chunk_ok h0 st sfd dfd tracker (Z.of_nat i) Hj Hjn) as (K1 & K2 & _ & _).
    destruct (chunk_size_ok h0 st Hj) as (Hcs & _ & _). cbn [chunk_runner] in *.
    set (cs := chunk_size _ _ _) in *. set (r := new_runner _ _ _ _ _ _) in *.
    pose proof (ck_size _ _ K1) as Hsz. split; [right; split; [split|by left]|done].
    + exists st. split; [done|]. split; [done|]. split; [apply Hsz|]. cbn. unfold chunk_len. lia.
    + intros d Hd. cbn [sourceFd new_runner r] in Hd. rewrite Hds in Hd. injection Hd as <-. rewrite Hlen.
      pose proof (fresh_inv no_forcing zeros (stx_size st) r zeros zeros K1 K2) as Hi.
      split; [done| |by apply K2|].
      * exists zeros, zeros. refine (ci_core _ _ _ _ _ Hi _). by apply K2.
      * rewrite (fr_wo _ K2). unfold chunk_end. lia.
Qed.

(** The runners of the file added, and those there were. *)
Lemma job_runners src dest st c c' a r :
  job_added src dest st c c' -> unused c -> unused c' -> qu_runners (cq_queue c') !! a = Some r ->
  (a < next_addr c /\ qu_runners (cq_queue c) !! a = Some r) \/
  (a ∈ zseq (next_addr c + 3) (length (plan (qu_heap (cq_queue c)) st)) /\
   exists p, p ∈ plan (qu_heap (cq_queue c)) st /\
     r = chunk_runner (next_addr c) (next_addr c + 1) (next_addr c + 2) p).
Proof.
  intros J Hu Hu' Hr. set (pl := plan _ _) in *.
  destruct (Z_lt_le_dec a (next_addr c + 3)) as [Hlt|Hge].
  { left. rewrite (ja_old_runners _ _ _ _ _ J) in Hr by lia. split; [|done].
    destruct (Z_lt_le_dec a (next_addr c)) as [|Hle]; [done|]. by rewrite (Hu a Hle) in Hr. }
  right. destruct (Z_lt_le_dec a (next_addr c')) as [Hlt|Hle]; [|by rewrite (Hu' a Hle) in Hr].
  rewrite (ja_next _ _ _ _ _ J) in Hlt. fold pl in Hlt. unfold zlen in Hlt.
  split; [apply elem_of_zseq; lia|].
  destruct (zget_in pl (a - (next_addr c + 3))) as (p & Hp); [unfold zlen; lia|].
  exists p. split; [unfold zget in Hp; case_match; [done|by eapply list_elem_of_lookup_2]|].
  pose proof (ja_runner _ _ _ _ _ J _ p Hp) as Hr'. 
  replace (next_addr c + 3 + (a - (next_addr c + 3))) with a in Hr' by lia. congruence.
Qed.

(** What adding a file does to a loop that serves. *)
Record job_served st l l' : Prop := {
  js_runners : qu_runners (lq l) ⊆ qu_runners (lq l');
  js_errors : errorMessages (lp_cq l') = errorMessages (lp_cq l);
  js_errored : errored (lp_cq l') = errored (lp_cq l);
  js_ring : ringSize (lp_cq l') = ringSize (lp_cq l);
  js_state : cq_state (lp_cq l') = cq_state (lp_cq l);
  js_length : sv_length (world (lq l')) = sv_length (world (lq l));
  js_total : totalBytesToCopy (qu_counters (lq l')) =
    u64 (totalBytesToCopy (qu_counters (lq l)) + stx_size st);
  js_alive : keepAliveCount (qu_counters (lq l')) =
    u32 (keepAliveCount (qu_counters (lq l)) + zlen (plan h0 st));
  js_next : next_addr (lp_cq l') = next_addr (lp_cq l) + 3 + zlen (plan h0 st);
  js_action : completionAction (lp_cq l') = completionAction (lp_cq l);
  js_showing : showingProgress (lp_cq l') = showingProgress (lp_cq l);
}.

Lemma plan_geometry h st : geometry h0 h -> plan h st = plan h0 st.
Proof. intros (E1 & E2 & E3 & E4). unfold plan. by rewrite E1, E4. Qed.

Lemma sources_same q q' ls :
  (forall a, a ∈ ls -> qu_runners q' !! a = qu_runners q !! a) -> sources q' ls = sources q ls.
Proof.
  intros H. unfold sources. induction ls as [|a ls IH]; [done|].
  cbn [fmap list_fmap]. rewrite H by left. f_equal. apply IH. intros b Hb. apply H. by right.
Qed.

Lemma sources_all q (ls : list Z) s :
  (forall a, a ∈ ls -> exists r, qu_runners q !! a = Some r /\ sourceFd r = s) ->
  sources q ls = replicate (length ls) (Some s).
Proof.
  intros H. unfold sources. induction ls as [|a ls IH]; [done|]. cbn [fmap list_fmap length replicate].
  destruct (H a ltac:(left)) as (r & Hr & <-). rewrite Hr. cbn. f_equal.
  apply IH. intros b Hb. apply H. by right.
Qed.

Section job.
Context (src dest : string) (st : statx) (l : loop W) (P : gset Z) (c1 c' : cqueue W).
Context (Hl : loop_ok 0 0 [] NotAdding l) (Hs : serving h0 P P [] [] l)
  (HP : P ⊆ dom (qu_qfds (lq l))) (J : job_added src dest st (lp_cq l) c')
  (Fc : files_created P src dest (lp_cq l) c1) (Hu' : unused c') (Ha : aside c' = aside c1)
  (Hp : plannable h0 st) (Hlen : stx_size st = sv_length (world (lq l)) src)
  (Hnext : next_addr c' <= 2 ^ 62).

Let a := next_addr (lp_cq l).
Let l' := lp_set_cq c' l.
Let n := length (plan h0 st).

Lemma job_plan : plan (qu_heap (lq l)) st = plan h0 st.
Proof. apply plan_geometry, (se_geom _ _ _ _ _ _ Hs). Qed.

Lemma job_fresh : fresh_ok a (shape_of (lq l)).
Proof. by destruct Hl as [(_ & _ & _ & ?) _ _ _]. Qed.

Lemma job_unused : unused (lp_cq l).
Proof.
  intros p Hp0. pose proof (fr_owners _ _ job_fresh p Hp0) as H.
  change (sh_owners (shape_of (lq l))) with (owner_of <$> qu_runners (lq l)) in H.
  by rewrite lookup_fmap, fmap_None in H.
Qed.

Lemma job_qfds p : a <= p -> qu_qfds (lq l) !! p = None.
Proof. intros Hle. apply not_elem_of_dom. by apply (fr_keys _ _ job_fresh). Qed.

Lemma job_rest : qu_qfds (lq l') = qu_qfds (cq_queue c1) /\
  qu_os (lq l') = qu_os (cq_queue c1) /\ fileDescriptorsUsed (lq l') = fileDescriptorsUsed (cq_queue c1) /\
  fileDescriptorCap (lq l') = fileDescriptorCap (cq_queue c1) /\ balance c' = balance (lp_cq l) /\
  ringSize c' = ringSize (lp_cq l) /\ completionAction c' = completionAction (lp_cq l) /\
  showingProgress c' = showingProgress (lp_cq l) /\ errored c' = errored (lp_cq l) /\
  submissionsRunning (qu_counters (lq l')) = submissionsRunning (qu_counters (lq l)) /\
  totalBytesCopied (qu_counters (lq l')) = totalBytesCopied (qu_counters (lq l)).
Proof.
  destruct (fc_rest _ _ _ _ _ Fc) as (m & o & u & E). pose proof Ha as E'. unfold aside in E'.
  injection E' as E1 E2 E3 E4 E5 E6 E7 E8 E9 E10 E11.
  split_and!; try done; subst c1; done.
Qed.

(** The runners that were there are where they were, and so are their files. *)
Lemma job_old b r :
  qu_runners (lq l) !! b = Some r ->
  b < a /\ sourceFd r < a /\ destFd r < a /\ qu_runners (lq l') !! b = Some r /\
  qu_qfds (lq l') !! sourceFd r = qu_qfds (lq l) !! sourceFd r /\
  qu_chunks (lq l') !! chunksRemaining r = qu_chunks (lq l) !! chunksRemaining r.
Proof.
  intros Hr. destruct (runner_files _ _ _ _ _ _ _ Hl Hr) as (ds & dd & k & Hds & Hdd & Hk & _).
  assert (b < a) as Hb by (destruct (Z_lt_le_dec b a) as [|Hle]; [done|unfold lq in Hr; by rewrite (job_unused b Hle) in Hr]).
  assert (forall p d, qu_qfds (lq l) !! p = Some d -> p < a) as Hq.
  { intros p d Hpd. destruct (Z_lt_le_dec p a) as [|Hle]; [done|by rewrite (job_qfds p Hle) in Hpd]. }
  pose proof (Hq _ _ Hds). pose proof (Hq _ _ Hdd).
  assert (chunksRemaining r < a).
  { destruct (Z_lt_le_dec (chunksRemaining r) a) as [|Hle]; [done|].
    pose proof (fr_chunks _ _ job_fresh _ Hle) as Hn. cbn in Hn. congruence. }
  split_and!; try done; [by rewrite (ja_old_runners _ _ _ _ _ J) by (fold a; lia)
    |by apply (ja_old_qfds _ _ _ _ _ J)|by apply (ja_old_chunks _ _ _ _ _ J)].
Qed.

Lemma job_new b r :
  qu_runners (lq l') !! b = Some r ->
  qu_runners (lq l) !! b = Some r \/
  b ∈ zseq (a + 3) n /\ sourceFd r = a /\ destFd r = a + 1 /\ buffer r = 0 /\ idle_ok h0 (lq l') r.
Proof.
  intros Hr. destruct (job_runners _ _ _ _ _ _ _ J job_unused Hu' Hr) as [[_ ?]|(Hb & p & Hin & ->)];
    [by left|right]. change (qu_heap (cq_queue (lp_cq l))) with (qu_heap (lq l)) in *.
  rewrite job_plan in Hb, Hin. fold a n in Hb |- *.
  destruct job_rest as (Eq & Eo & _). destruct (fc_src _ _ _ _ _ Fc) as (ds & Hds & Hpa & _).
  fold a in Hds. rewrite <- Eq in Hds.
  destruct (planned_idle (lq l') st a (a + 1) (a + 2) p ds Hp Hin Hds) as [Hi Hb0].
  - unfold world. rewrite Eo. fold (world (cq_queue c1)). by rewrite Hpa, (fc_length _ _ _ _ _ Fc).
  - pose proof (ja_tracker _ _ _ _ _ J) as Ht. change (qu_heap (cq_queue (lp_cq l))) with (qu_heap (lq l)) in Ht.
    by rewrite job_plan in Ht.
  - by destruct p as [[]].
Qed.

Lemma job_sources :
  sources (lq l') (copiesPendingStart c') =
  sources (lq l) (copiesPendingStart (lp_cq l)) ++ replicate n (Some a).
Proof.
  rewrite (ja_pending _ _ _ _ _ J). change (qu_heap (cq_queue (lp_cq l))) with (qu_heap (lq l)).
  rewrite job_plan. fold a n. unfold sources at 1. rewrite fmap_app. f_equal.
  - apply sources_same. intros b Hb.
    destruct (waiting_runner _ _ _ _ _ b Hl) as (r & Hr & _);
      [unfold waiting; cbn; apply elem_of_app; by left|].
    rewrite Hr. by apply job_old.
  - pose proof (sources_all (lq l') (zseq (a + 3) n) a) as Hall. rewrite zseq_length in Hall.
    apply Hall. clear Hall. intros b Hb.
    pose proof Hb as [Hb1 Hb2]%elem_of_zseq.
    destruct (zget_in (plan h0 st) (b - (a + 3))) as (p & Hg); [unfold zlen; fold n; lia|].
    pose proof (ja_runner _ _ _ _ _ J) as Hr. change (qu_heap (cq_queue (lp_cq l))) with (qu_heap (lq l)) in Hr.
    rewrite job_plan in Hr. specialize (Hr _ _ Hg). fold a in Hr.
    replace (a + 3 + (b - (a + 3))) with b in Hr by lia. eexists. split; [exact Hr|]. by destruct p as [[]].
Qed.

(** Nothing that waits is of the new file. *)
Lemma job_unseen : Some a ∉ sources (lq l) (copiesPendingStart (lp_cq l)).
Proof.
  intros (b & E & Hb)%list_elem_of_fmap. destruct (qu_runners (lq l) !! b) as [r|] eqn:Hr; [|done].
  injection E as E. destruct (job_old b r Hr) as (_ & ? & _). lia.
Qed.

Lemma job_serving : serving h0 P P [] [] l'.
Proof.
  destruct job_rest as (Eq & Eo & Eu & Ec & Eb & Er & _ & _ & _ & _ & Eco).
  pose proof job_sources as Esrc. pose proof (fr_pos _ _ job_fresh) as Hpos.
  assert (a ∉ P /\ a + 1 ∉ P) as [Hn1 Hn2].
  { split; intros Hin%HP%elem_of_dom; destruct Hin as [d Hd]; by rewrite job_qfds in Hd by lia. }
  pose proof Hs as [S2 S3 S4 S5 S6 S7 S8 S9 S10 S11 S12 S13 S14 S15 S16]. split; cbn [lp_cq lp_set_cq l'].
  - rewrite Er. change (qu_ring (lq l')) with (qu_ring (cq_queue c')). by rewrite (ja_ring _ _ _ _ _ J).
  - change (qu_heap (lq l')) with (qu_heap (cq_queue c')). by rewrite (ja_heap _ _ _ _ _ J).
  - split; [done|]. intros b r Hr. destruct (job_new b r Hr) as [Ho|(Hb & _)]; [by eapply S4|].
    apply elem_of_zseq in Hb. lia.
  - apply (fds_serve_same P (cq_queue c1)); [apply (fc_fds _ _ _ _ _ Fc)|done..| |]; unfold world; by rewrite Eo.
  - rewrite Eq. intros p d Hpd. destruct (decide (p = a)) as [->|H1];
      [|destruct (decide (p = a + 1)) as [->|H2]].
    + destruct (fc_src _ _ _ _ _ Fc) as (ds & Hd & _ & ?). fold a in Hd. congruence.
    + destruct (fc_dest _ _ _ _ _ Fc) as (ds & Hd & _ & ?). fold a in Hd. congruence.
    + rewrite (fc_old _ _ _ _ _ Fc) in Hpd by done. by apply (S6 p).
  - intros b r Hr _ _. destruct (job_new b r Hr) as [Ho|(_ & _ & _ & _ & Hi)]; [|done].
    destruct (job_old b r Ho) as (_ & _ & _ & _ & Hq & Hc).
    assert (sv_length (world (lq l')) = sv_length (world (lq l))) as Hle
      by (unfold world; rewrite Eo; apply (fc_length _ _ _ _ _ Fc)).
    destruct (S7 b r Ho (not_elem_of_nil _) (not_elem_of_nil _)) as [(?&?&?&?&?)|[[Hf Hw] Hb]].
    + left. unfold empty_ok. by rewrite Hc.
    + right. split; [|done]. split; [done|]. intros ds. rewrite Hq, Hle. apply Hw.
  - constructor.
  - constructor.
  - intros b r Hb Hr. destruct (job_new b r Hr) as [Ho|(_ & _ & _ & ? & _)]; [|done].
    rewrite (ja_pending _ _ _ _ _ J) in Hb. apply elem_of_app in Hb as [Hb|Hb%elem_of_zseq]; [by apply (S10 b)|].
    destruct (job_old b r Ho) as (? & _). fold a in Hb. lia.
  - intros b r Hb Hr. change (copiesPendingContinue l') with (copiesPendingContinue l) in Hb.
    destruct (waiting_runner _ _ _ _ _ b Hl) as (r0 & Hr0 & _); [unfold waiting; cbn; apply elem_of_app; by right|].
    destruct (job_old b r0 Hr0) as (_ & _ & _ & Hr1 & _). assert (r = r0) as -> by congruence. by apply (S11 b).
  - intros b r Hr. destruct (job_new b r Hr) as [Ho|(_ & -> & -> & _)]; [by apply (S12 b)|]. split; [lia|tauto].
  - intros x Hx Hin. rewrite Esrc in *. apply elem_of_app in Hin as [Hin|Hin].
    + specialize (S13 x Hx Hin). by destruct (sources (lq l) _).
    + apply elem_of_replicate in Hin as [[= ->] _]. done.
  - rewrite Esrc. apply grouped_app; [done|apply job_unseen].
  - rewrite Eco. destruct S15 as [? E]. split; [done|]. exact (eq_trans E (eq_sym Eb)).
  - exact S16.
Qed.
End job.

(** Adding a file whose length is known keeps the state one that serves. *)
Lemma serving_job rand fuel i1 i2 src dest st l P :
  loop_ok 0 0 [] NotAdding l -> serving h0 P P [] [] l -> queued_ring [] (lq l) ->
  adding (lp_cq l) = true -> plannable h0 st -> stx_size st = sv_length (world (lq l)) src ->
  (length (plan h0 st) <= fuel)%nat -> Z.of_nat fuel < 2 ^ 31 ->
  keepAliveCount (qu_counters (lq l)) + Z.of_nat fuel + 1 < 2 ^ 32 ->
  next_addr (lp_cq l) + 3 + zlen (plan h0 st) <= 2 ^ 62 ->
  exists c' P', addCopyJob fuel i1 i2 src dest st (lp_cq l) = Ok (tt, c') /\
    let l' := lp_set_cq c' l in
    sys_steps no_forcing rand (l, NotAdding) (l', NotAdding) /\
    loop_ok 0 0 [] NotAdding l' /\ serving h0 P' P' [] [] l' /\ queued_ring [] (lq l') /\
    job_served st l l'.
Proof.
  intros Hl Hs Hq Ha Hp Hlen Hf Hf31 Hk Hn. set (P0 := P ∩ dom (qu_qfds (lq l))).
  pose proof (serving_trim P l Hl Hs) as Hs0. fold P0 in Hs0.
  pose proof (job_plan st l P Hs) as Epl. pose proof (job_fresh l Hl) as Hfr.
  assert (plannable (qu_heap (lq l)) st) as Hp'.
  { destruct Hp as [?|Hj]; [by left|right]. destruct Hl as [(_ & _ & Hb & _) _ _ _].
    eapply geometry_job; [apply (se_geom _ _ _ _ _ _ Hs)|apply (bl_heap _ _ _ Hb)|done]. }
  destruct (addCopyJob_ok fuel i1 i2 src dest st (lp_cq l)) as (c' & Hrun & J); try done.
  { change (qu_heap (cq_queue (lp_cq l))) with (qu_heap (lq l)). by rewrite Epl. }
  destruct (open_files_served P0 i1 i2 src dest src_flags dest_flags (stx_mode st) (add_parts fuel st)
    (lp_cq l) (se_fds _ _ _ _ _ _ Hs0) (job_qfds l Hl)) as (c1 & Fc & Hop).
  { intros p Hle [_ Hin]%elem_of_intersection. by apply (fr_keys _ _ Hfr p Hle). }
  pose proof Hrun as Hadd. unfold addCopyJob in Hadd. fold src_flags dest_flags in Hadd.
  rewrite Hop in Hadd. clear Hop.
  destruct (leaves_parts fuel st (next_addr (lp_cq l)) (next_addr (lp_cq l) + 1)
    (next_addr (lp_cq l) + 2) c1 tt c') as [Hu' Has]; [|done|].
  { destruct (fc_rest _ _ _ _ _ Fc) as (m & o & u & ->). intros p Hle. cbn in *.
    apply (job_unused l Hl). lia. }
  pose proof (ja_next _ _ _ _ _ J) as En. pose proof (ja_total _ _ _ _ _ J) as Et.
  pose proof (ja_alive _ _ _ _ _ J) as Eal.
  change (qu_heap (cq_queue (lp_cq l))) with (qu_heap (lq l)) in *. rewrite Epl in *.
  assert (P0 ⊆ dom (qu_qfds (lq l))) as HP0 by (unfold P0; set_solver).
  destruct (job_rest src dest l P0 c1 c' Fc Has) as (_ & Eo & _ & _ & _ & Er & Eac & Esh & Eer & Esb & _).
  exists c', P0. split; [done|]. intros l'.
  assert (sys_steps no_forcing rand (l, NotAdding) (l', NotAdding)) as Hst.
  { eapply addCopyJob_steps; try done. change (keepAliveCount (qu_counters (lq l))) with
      (sh_alive (shape_of (lq l))). destruct Hl as [([-> _ _ _ _ _] & _) _ _ _]. apply wrap_range. lia. }
  split; [done|]. split; [exact (sys_steps_ok _ _ (l, NotAdding) (l', NotAdding) Hl Hst)|]. split; [|split].
  - eapply job_serving; try done. lia.
  - destruct Hq as (Q1 & Q2 & Q3). unfold queued_ring. change (lq l') with (cq_queue c').
    rewrite (ja_ring _ _ _ _ _ J). split; [done|]. split; [done|]. exact (eq_trans Esb Q3).
  - split; try done; [|apply (ja_errors _ _ _ _ _ J)|apply (ja_state _ _ _ _ _ J)|].
    + apply map_subseteq_spec. intros b r Hr. by apply (job_old src dest st l c' Hl J b r Hr).
    + unfold world, l'. rewrite Eo. exact (fc_length _ _ _ _ _ Fc).
Qed.
End planning.
