(* ===== verification/ServedWorld.v ===== *)
(** * A shelf of files

    A world that meets the laws of Service.v, for the witnesses: it remembers which
    path is behind which descriptor, opens with the least free one, and serves every
    request on an open descriptor before io_uring_enter(2) returns. *)

From stdpp Require Import gmap strings.
From S2P Require Import Prelude Abi Prep RingBuf Ring SqSpec CqSpec Kernel Queue QueueSpec Os Util Service.

Record shelf : Type := mk_shelf {
  sh_paths : gmap Z string;
  sh_length : string -> Z;
}.

Definition EMFILE : Z := 24.
Definition EBADF : Z := 9.

Definition shelf_limit : Z := 1024.

(** The least descriptor from [a] on that is not open. *)
Fixpoint least_free (m : gmap Z string) (n : nat) (a : Z) : Z :=
  match n with
  | O => a
  | S n => match m !! a with Some _ => least_free m n (a + 1) | None => a end
  end.

Lemma least_free_range m n a : a <= least_free m n a <= a + Z.of_nat n.
Proof. revert a. induction n as [|n IH]; intros a; cbn; [lia|]. case_match; [|lia]. specialize (IH (a + 1)). lia. Qed.

Lemma least_free_taken m n a :
  is_Some (m !! least_free m n a) -> forall j, a <= j <= a + Z.of_nat n -> is_Some (m !! j).
Proof.
  revert a. induction n as [|n IH]; intros a; cbn; [intros ? j ?; by replace j with a by lia|].
  destruct (m !! a) as [p|] eqn:Ha; [|by rewrite Ha; intros [? ?]].
  intros H j Hj. destruct (Z.eq_dec j a) as [->|]; [by exists p|]. apply (IH (a + 1)); [done|lia].
Qed.

(** Among more descriptors than are open one is free. *)
Lemma least_free_free m a : m !! least_free m (base.size m) a = None.
Proof.
  destruct (m !! _) as [p|] eqn:H; [|done]. exfalso.
  pose proof (least_free_taken _ _ _ (mk_is_Some _ _ H)) as Hall.
  set (ls := zseq a (S (base.size m))).
  assert (list_to_set ls ⊆ dom m) as Hsub.
  { intros x Hx%elem_of_list_to_set. apply elem_of_zseq in Hx. apply elem_of_dom, Hall. lia. }
  apply subseteq_size in Hsub. rewrite size_list_to_set in Hsub.
  - rewrite size_dom in Hsub. unfold ls in Hsub. rewrite zseq_length in Hsub. lia.
  - unfold ls, zseq. apply NoDup_fmap_2_strong; [intros; lia|apply NoDup_seq].
Qed.

#[export] Instance ShelfFiles : Files shelf := {|
  f_open w path oflag mode :=
    if Z.of_nat (base.size (sh_paths w)) <? shelf_limit then
      let fd := least_free (sh_paths w) (base.size (sh_paths w)) 3 in
      (mk_shelf (<[fd := path]> (sh_paths w)) (sh_length w), fd, 0)
    else (w, -1, EMFILE);
  f_close w fd :=
    match sh_paths w !! fd with
    | Some _ => (mk_shelf (delete fd (sh_paths w)) (sh_length w), 0, 0)
    | None => (w, -1, EBADF)
    end;
|}.

Definition completion_of (a : Z * Z) : io_uring_cqe := mk_cqe (fst a) (snd a) 0.

Definition shelf_enter (w : shelf) (r : io_uring) (fd sub mn fl : Z) (a : enter_arg) (sz : Z)
    : shelf * io_uring * Z * Z :=
  let n := Z.max 0 (Z.min sub (sq_pending (r_sq r))) in
  let es := default [] (kernel_reads (r_sq r) n) in
  let q := foldl (fun q a => cq_kernel_post (completion_of a) q) (r_cq r)
    (answers (sh_paths w) (sh_length w) false es) in
  (w, set_cq q (set_sq (sq_kernel_update n 0 0 (r_sq r)) r), n, 0).

#[export] Instance ShelfKernel : Kernel shelf := {| sys_enter := shelf_enter |}.

#[export] Instance ShelfView : View shelf := {|
  sv_paths := sh_paths; sv_length := sh_length; sv_limit _ := shelf_limit;
|}.

Lemma posts_all ans q :
  cq_ok q -> io_uring_cq_ready q + zlen ans <= cq_kring_entries q ->
  cq_posts q (completion_of <$> ans) (foldl (fun q a => cq_kernel_post (completion_of a) q) q ans).
Proof.
  revert q. induction ans as [|a ans IH]; intros q Hq Hr; [constructor|]. cbn [foldl fmap list_fmap].
  assert (io_uring_cq_ready q < cq_kring_entries q) as Hlt by (unfold zlen in Hr; cbn in Hr; lia).
  destruct (cq_post_ok q (completion_of a) Hq Hlt) as [Hq' Hc]. constructor; [done|]. apply IH; [done|].
  rewrite <- (cq_contents_len _ Hq'), Hc, zlen_app, (cq_contents_len _ Hq).
  change (cq_kring_entries (cq_kernel_post _ q)) with (cq_kring_entries q).
  unfold zlen in *. cbn in *. lia.
Qed.

#[export] Instance ShelfLaws : ServiceLaws shelf.
Proof.
  split.
  - intros w path oflag mode Hlt. cbn in *. apply Z.ltb_lt in Hlt as Hb. rewrite Hb.
    set (n := base.size (sh_paths w)) in *. pose proof (least_free_range (sh_paths w) n 3) as Hr.
    eexists _, _, _. split; [done|]. unfold shelf_limit in *. split; [lia|].
    split; [apply least_free_free|done].
  - intros w fd [p Hp]. cbn in *. rewrite Hp. by eexists _, _.
  - intros w r es sz [Hs Hc] _ Hpub _ _ Hroom. 
    destruct (sq_abs_lengths _ Hs) as [Hlen _]. rewrite Hpub in Hlen.
    pose proof (sq_pending_range _ Hs) as Hp.
    assert (kernel_reads (r_sq r) (zlen es) = Some es) as Hread.
    { rewrite kernel_reads_published by (done || lia). rewrite Hlen. by rewrite <- Hpub. }
    cbn. unfold shelf_enter. rewrite Z.min_l, Z.max_r by lia. rewrite Hread. cbn [default].
    set (ans := answers (sh_paths w) (sh_length w) false es).
    assert (zlen ans = zlen es) as Ela by (unfold zlen, ans; by rewrite answers_length).
    eexists _, _, (completion_of <$> ans), _. split; [done|]. split; [|split; [|done]].
    + split; [lia|]. split; [by eexists _, _|]. split; [|done]. apply posts_all; [done|lia].
    + rewrite <- list_fmap_compose. rewrite <- (list_fmap_id ans) at 2. apply list_fmap_ext. by intros i [].
Qed.
