(* ===== verification/Liveness.v ===== *)
(** * A copy ends

    From an idle queue on a world that serves it: files are added while the submit
    thread takes turns, in any order; then the queue is joined.  The join returns,
    with a success, and every byte was copied. *)

From stdpp Require Import gmap strings.
From S2P Require Import Prelude Abi Prep RingBuf Ring SqSpec CqSpec Kernel Queue QueueSpec Os Util Heap Eta CopyState FileDesc Runner RunnerData RunnerLive RunnerSpec CopyQueue CopyJob SubmitLoop Shape Accounts System SystemSpec Lifecycle Service Rounds ServedFiles Serving Retiring Starting Adding Finishing Completing Termination Planning ServedWorld.
Import Eta.Rolling Eta.ETA.

(** ** Schedules *)

(** What happens next: the main thread adds a file, or the submit thread goes round
    its loop once. *)
Inductive turn : Type :=
  | AddFile (i1 i2 : bool) (src dest : string) (st : statx)
  | LoopTurn.

Definition added_chunks (h : Heap.heap) (t : turn) : Z :=
  match t with AddFile _ _ _ _ st => zlen (plan h st) | LoopTurn => 0 end.
Definition added_bytes (t : turn) : Z :=
  match t with AddFile _ _ _ _ st => stx_size st | LoopTurn => 0 end.
Definition added_files (t : turn) : Z :=
  match t with AddFile _ _ _ _ _ => 1 | LoopTurn => 0 end.

Definition sum_over {A} (f : A -> Z) (l : list A) : Z := foldr (fun a n => f a + n) 0 l.

(** One round of the loop of [submitLoop], and what it does between two of them. *)
Section schedule.
Context {W : Type} {F : Files W} {K : Kernel W} (cfg : config) (rand : Z -> Z).

Definition loop_turn (inner fuel : nat) : prog (loop W) unit :=
  let* runnersAdded := add_loop cfg rand inner fuel 0 in
  do* (if negb (runnersAdded =? 0) then let* v := submit_retry inner in assert (0 <? v) else ret tt) in
  complete_loop cfg inner fuel.

Lemma submitLoop_turn n inner fuel (l l' : loop W) :
  loop_turn inner fuel l = Ok (tt, l') -> cq_state (lp_cq l') <> AdditionComplete ->
  submitLoop cfg rand (S n) inner fuel l = submitLoop cfg rand n inner fuel l'.
Proof.
  intros H Hst. cbn [submitLoop]. rewrite (bind_after _ _ _ _ _ _ H).
  unfold bind, on_cq, isDone, gets.
  assert (is_complete (cq_state (lp_cq l')) = false) as -> by (by destruct (cq_state _)).
  cbn [andb]. by destruct l'.
Qed.

Lemma loop_turn_steps inner fuel (l l' : loop W) g :
  loop_turn inner fuel l = Ok (tt, l') -> sys_steps cfg rand (l, g) (l', g).
Proof.
  intros H. apply bind_inv in H as (k & l1 & H1 & H). apply (add_loop_steps _ _ _ _ _ _ _ _ g) in H1.
  apply bind_inv in H as ([] & l2 & H2 & H). apply (complete_loop_steps _ rand _ _ _ _ _ g) in H.
  eapply sys_steps_trans; [exact H1|]. eapply sys_steps_trans; [|exact H].
  destruct (negb _); [|apply ret_inv in H2 as [_ ->]; apply sys_refl].
  apply bind_inv in H2 as (v & l3 & H3 & H2). apply assert_inv in H2 as [_ ->].
  by eapply submit_retry_steps.
Qed.

Lemma loop_turn_reports inner fuel : along (W := W) errs (loop_turn inner fuel).
Proof.
  intros l u l' H. apply bind_inv in H as (k & l1 & H1 & H). apply bind_inv in H as ([] & l2 & H2 & H).
  eapply errs_trans; [by eapply (reports_add_loop _ _ (R := errs))|]. eapply errs_trans; [|by eapply (reports_complete_loop _ (R := errs))].
  destruct (negb _); [|apply ret_inv in H2 as [_ ->]; apply errs_refl].
  apply bind_inv in H2 as (v & l3 & H3 & H2). apply assert_inv in H2 as [_ ->].
  by eapply (reports_submit_retry (R := errs)).
Qed.

(** No message, no error. *)
Lemma errs_quiet (l l' : loop W) :
  errs l l' -> errorMessages (lp_cq l') = errorMessages (lp_cq l) -> errored (lp_cq l') = errored (lp_cq l).
Proof.
  intros (es & E1 & E2 & _) E. rewrite E in E1. apply (f_equal length) in E1. rewrite length_app in E1.
  destruct es; [|cbn in E1; lia]. by rewrite E2, orb_false_r.
Qed.

Fixpoint interleave (inner fuel : nat) (ts : list turn) : prog (loop W) unit :=
  match ts with
  | [] => ret tt
  | AddFile i1 i2 src dest st :: ts =>
      do* on_cq (addCopyJob fuel i1 i2 src dest st) in interleave inner fuel ts
  | LoopTurn :: ts => do* loop_turn inner fuel in interleave inner fuel ts
  end.
End schedule.

(** ** Counting *)

Section totals.
Context {A : Type} (f : A -> Z) (k : Z) (Hf : forall a, f a <= k).
Implicit Types (m : gmap Z A).

Lemma total_grows m m' :
  m ⊆ m' -> total f m' <= total f m + k * (Z.of_nat (base.size m') - Z.of_nat (base.size m)).
Proof.
  revert m. induction m' as [|a o m' Ha IH] using map_ind; intros m Hm.
  - assert (m = ∅) as -> by (apply map_empty; intros a; by apply (lookup_weaken_None _ ∅ a)). rewrite map_size_empty. lia.
  - destruct (m !! a) as [o'|] eqn:Hma.
    + assert (o' = o) as -> by (pose proof (lookup_weaken _ _ _ _ Hma Hm) as H;
        rewrite lookup_insert_eq in H; congruence).
      assert (delete a m ⊆ m') as Hd.
      { apply (delete_mono _ _ a) in Hm. by rewrite delete_insert_id in Hm. }
      specialize (IH _ Hd). rewrite (total_delete f m a o Hma), total_insert by done.
      rewrite map_size_insert_None by done. pose proof (map_size_delete_Some a m (mk_is_Some _ _ Hma)) as E.
      assert (base.size m <> 0%nat) by (intros E0%map_size_empty_iff; by rewrite E0 in Hma).
      replace (Z.of_nat (S (base.size m')) - Z.of_nat (base.size m)) with
        (Z.of_nat (base.size m') - Z.of_nat (base.size (delete a m))) by lia. lia.
    + assert (m ⊆ m') as Hd.
      { rewrite <- (delete_insert_id m' a o), <- (delete_id m a) by done. by apply delete_mono. }
      specialize (IH _ Hd). rewrite total_insert, map_size_insert_None by done. specialize (Hf o). lia.
Qed.
End totals.

Lemma sum_over_nonneg {A} (f : A -> Z) ts : (forall t, 0 <= f t) -> 0 <= sum_over f ts.
Proof. intros Hf. induction ts as [|t ts IH]; [done|]. cbn. specialize (Hf t). fold (sum_over f ts). lia. Qed.

Lemma added_chunks_nonneg h t : 0 <= added_chunks h t.
Proof. destruct t; cbn; unfold zlen; lia. Qed.
Lemma added_files_nonneg t : 0 <= added_files t.
Proof. by destruct t. Qed.

(** ** The queue while files are added *)

Section liveness.
Context {W : Type} {F : Files W} {K : Kernel W} {V : View W} {L : ServiceLaws W}.
Context (rand : Z -> Z).
Implicit Types (l : loop W).

(** The files a schedule adds are what fstat(2) says, and can be planned. *)
Definition addable (h0 : Heap.heap) (len : string -> Z) (fuel : nat) (t : turn) : Prop :=
  match t with
  | AddFile _ _ src _ st =>
      plannable h0 st /\ stx_size st = len src /\ (length (plan h0 st) <= fuel)%nat
  | LoopTurn => True
  end.

(** [N] chunks and [B] bytes were added, addresses are used up to [A]. *)
Record underway (h0 : Heap.heap) (l0 l : loop W) (N B A : Z) : Prop := {
  uw_ok : loop_ok 0 0 [] NotAdding l;
  uw_serving : exists P, serving h0 P P [] [] l;
  uw_ring : queued_ring [] (lq l);
  uw_state : cq_state (lp_cq l) = Running;
  uw_errors : errorMessages (lp_cq l) = errorMessages (lp_cq l0);
  uw_errored : errored (lp_cq l) = errored (lp_cq l0);
  uw_size : ringSize (lp_cq l) = ringSize (lp_cq l0);
  uw_load : load l <= 2 * N;
  uw_next : next_addr (lp_cq l) = A;
  uw_length : sv_length (world (lq l)) = sv_length (world (lq l0));
  uw_total : totalBytesToCopy (qu_counters (lq l)) = u64 B;
}.

Lemma alive_exact l :
  loop_ok 0 0 [] NotAdding l ->
  keepAliveCount (qu_counters (lq l)) = Z.of_nat (base.size (qu_runners (lq l))).
Proof.
  intros [([W1 W2 _ _ _ _] & _) _ _ _].
  change (sh_alive (shape_of (lq l))) with (keepAliveCount (qu_counters (lq l))) in W1.
  change (sh_owners (shape_of (lq l))) with (owner_of <$> qu_runners (lq l)) in *.
  rewrite alive_size in W1, W2. by rewrite wrap_small in W1 by (unfold in_u; lia).
Qed.

Lemma underway_add h0 l0 l N B A i1 i2 src dest st fuel :
  underway h0 l0 l N B A -> addable h0 (sv_length (world (lq l0))) fuel (AddFile i1 i2 src dest st) ->
  0 <= N -> Z.of_nat fuel < 2 ^ 31 -> 2 * N + Z.of_nat fuel + 1 < 2 ^ 32 ->
  A + 3 + zlen (plan h0 st) <= 2 ^ 62 ->
  exists l', on_cq (addCopyJob fuel i1 i2 src dest st) l = Ok (tt, l') /\
    sys_steps no_forcing rand (l, NotAdding) (l', NotAdding) /\
    underway h0 l0 l' (N + zlen (plan h0 st)) (B + stx_size st) (A + 3 + zlen (plan h0 st)).
Proof.
  intros [U1 [P U2] U3 U4 U5 U5' U6 U7 U8 U9 U10] (Hp & Hlen & Hf) HN Hf31 Hk Hn.
  pose proof (alive_exact l U1) as Hal. pose proof (load_size l) as Hls.
  destruct (serving_job h0 rand fuel i1 i2 src dest st l P) as (c' & P' & Hrun & Hst & H1 & H2 & H3 & J);
    try done; [unfold adding; by rewrite U4|by rewrite U9|lia|lia|].
  destruct J as [J0 J1 J1' J2 J3 J4 J5 J6 J7 J8 J9].
  exists (lp_set_cq c' l). split; [unfold on_cq; by rewrite Hrun|]. split; [done|].
  assert (load (lp_set_cq c' l) <= 2 * (N + zlen (plan h0 st))) as Hload.
  { pose proof (total_grows weight 2 (fun r => proj2 (weight_range r)) _ _ J0) as Hg.
    rewrite <- (alive_exact _ H1), J6, wrap_small, <- Hal in Hg; unfold load in *; [lia|].
    unfold in_u, zlen in *. lia. }
  split; try done; [by exists P'|congruence|congruence|congruence|congruence|congruence|congruence|].
  by rewrite J5, U10, wrap_add_l.
Qed.

Lemma underway_turn h0 l0 l N B A inner fuel :
  0 < Heap.data h0 -> Heap.data h0 + Heap.blocks h0 * Heap.blockSize h0 < 2 ^ 63 ->
  0 < Heap.blocks h0 -> 2 <= ringSize (lp_cq l0) -> underway h0 l0 l N B A -> 4 * N < Z.of_nat inner ->
  exists l', loop_turn no_forcing rand inner (S fuel) l = Ok (tt, l') /\
    sys_steps no_forcing rand (l, NotAdding) (l', NotAdding) /\ underway h0 l0 l' N B A.
Proof.
  intros Hd He Hb H2 [U1 [P U2] U3 U4 U5 U5' U6 U7 U8 U9 U10] Hin.
  destruct (iteration_served h0 Hd He Hb rand P l inner fuel) as
    (l' & P' & Hrun & H3 & H4 & H5 & (T1 & T2 & T3 & T4 & T5 & T6 & T7 & T8) & Hle & _); try done;
    [by rewrite U6|lia|].
  exists l'. split; [done|]. split; [by eapply loop_turn_steps|].
  pose proof (loop_turn_reports no_forcing rand inner (S fuel) _ _ _ Hrun) as He1.
  split; try done; [by exists P'|congruence|congruence| |congruence|lia|congruence|congruence|congruence].
  by rewrite (errs_quiet _ _ He1 T1).
Qed.

Lemma interleave_served h0 l0 inner fuel ts : 
  0 < Heap.data h0 -> Heap.data h0 + Heap.blocks h0 * Heap.blockSize h0 < 2 ^ 63 ->
  0 < Heap.blocks h0 -> 2 <= ringSize (lp_cq l0) -> Z.of_nat (S fuel) < 2 ^ 31 ->
  Forall (addable h0 (sv_length (world (lq l0))) (S fuel)) ts ->
  forall N B A l, underway h0 l0 l N B A -> 0 <= N ->
  let N' := N + sum_over (added_chunks h0) ts in
  let A' := A + 3 * sum_over added_files ts + sum_over (added_chunks h0) ts in
  4 * N' < Z.of_nat inner -> 2 * N' + Z.of_nat (S fuel) + 1 < 2 ^ 32 -> A' <= 2 ^ 62 ->
  exists l', interleave no_forcing rand inner (S fuel) ts l = Ok (tt, l') /\
    sys_steps no_forcing rand (l, NotAdding) (l', NotAdding) /\
    underway h0 l0 l' N' (B + sum_over added_bytes ts) A'.
Proof.
  intros Hd He Hb H2 Hf Hall. induction Hall as [|t ts Ht Hall IH]; intros N B A l Hu HN N' A' Hin Hk HA.
  { exists l. split; [done|]. split; [apply sys_refl|]. unfold N', A'. cbn. by rewrite !Z.add_0_r. }
  pose proof (sum_over_nonneg (added_chunks h0) ts (added_chunks_nonneg h0)) as P1.
  pose proof (sum_over_nonneg added_files ts added_files_nonneg) as P2.
  pose proof (added_chunks_nonneg h0 t) as P3.
  unfold N', A' in *. cbn [sum_over foldr] in *. fold (sum_over (added_chunks h0) ts) in *.
  fold (sum_over added_files ts) in *. fold (sum_over added_bytes ts) in *. clear N' A'.
  destruct t as [i1 i2 src dest st|]; cbn [added_chunks added_files added_bytes interleave] in *.
  - destruct (underway_add _ _ _ _ _ _ _ _ _ _ _ _ Hu Ht HN Hf) as (l1 & H1 & S1 & U1); [lia|lia|].
    destruct (IH _ _ _ _ U1) as (l2 & H3 & S2 & U2); [lia|lia|lia|lia|].
    exists l2. rewrite (bind_ok _ _ _ _ _ H1). split; [done|]. split; [by eapply sys_steps_trans|].
    set (n := zlen (plan h0 st)) in *. set (N1 := sum_over (added_chunks h0) ts) in *.
    replace (N + (n + N1)) with (N + n + N1) by lia. rewrite Z.add_assoc.
    by replace (A + 3 * (1 + sum_over added_files ts) + (n + N1))
      with (A + 3 + n + 3 * sum_over added_files ts + N1) by lia.
  - destruct (underway_turn _ _ _ _ _ _ inner fuel Hd He Hb H2 Hu) as (l1 & H1 & S1 & U1); [lia|].
    destruct (IH _ _ _ _ U1) as (l2 & H3 & S2 & U2); [lia|lia|lia|lia|].
    exists l2. rewrite (bind_ok _ _ _ _ _ H1). split; [done|]. split; [by eapply sys_steps_trans|].
    by rewrite !Z.add_0_l.
Qed.
End liveness.

(** ** From an idle queue to the end of the join *)

(** An idle queue, all of whose descriptors and buffers are left, on a world that
    serves. *)
Record idle_served {W} {V : View W} (l : loop W) : Prop := {
  is_starting : starting l;
  is_state : cq_state (lp_cq l) = Idle /\ errored (lp_cq l) = false;
  is_ring : ring_sized (ringSize (lp_cq l)) (qu_ring (lq l)) /\ 2 <= ringSize (lp_cq l);
  is_quiet : cq_contents (r_cq (qu_ring (lq l))) = [] /\
    acquired (sq_abs (r_sq (qu_ring (lq l)))) = [];
  is_fds : fileDescriptorsUsed (lq l) = RESERVED_FD_COUNT /\ 4 <= fileDescriptorCap (lq l) < 2 ^ 63;
  is_limit : Z.of_nat (base.size (sv_paths (world (lq l)))) <= RESERVED_FD_COUNT /\
    fileDescriptorCap (lq l) <= sv_limit (world (lq l));
  is_heap : let h := qu_heap (lq l) in
    0 < Heap.blocks h /\ Heap.data h + Heap.blocks h * Heap.blockSize h < 2 ^ 63;
  is_totals : totalBytesToCopy (qu_counters (lq l)) = 0 /\ totalBytesCopied (qu_counters (lq l)) = 0;
}.

Section ends.
Context {W : Type} {F : Files W} {K : Kernel W} {V : View W} {L : ServiceLaws W}.
Context (rand : Z -> Z).
Implicit Types (l : loop W).

Definition started_loop (tty : bool) l : loop W :=
  lp_set_cq (cq_set_showing tty (cq_set_state Running (completionAction (lp_cq l)) (lp_cq l))) l.

Lemma start_run tty l : cq_state (lp_cq l) = Idle -> on_cq (start tty) l = Ok (tt, started_loop tty l).
Proof. intros H. unfold on_cq, start, bind, gets, assert. by rewrite H. Qed.

Lemma idle_serving l :
  idle_served l -> next_addr (lp_cq l) <= 2 ^ 62 ->
  serving (qu_heap (lq l)) ∅ ∅ [] [] l.
Proof.
  intros [[R1 R2 R3 R4 R5 [R6 R6'] R7 R8 [R9 R9'] R10 R11 R12] _ [Hr H2] _ [Hu Hc] [Hsz Hlim] _ [T1 T2]] Hn.
  unfold RESERVED_FD_COUNT in *. split; rewrite ?R1, ?R3, ?R9, ?R9'; try done; try (intros; by apply elem_of_nil in H).
  - split; rewrite ?open_count_eq, ?R3; try done; try lia.
    change (count (early ∅) ∅) with 0. unfold RESERVED_FD_COUNT, RESERVED_HIGH_PRIORITY_FD_COUNT. lia.
  - constructor.
  - rewrite T1, T2, total_zero. split; [unfold in_u; lia|done].
  - by left.
Qed.

Lemma idle_underway tty l :
  idle_served l -> next_addr (lp_cq l) <= 2 ^ 62 ->
  underway (qu_heap (lq l)) (started_loop tty l) (started_loop tty l) 0 0 (next_addr (lp_cq l)).
Proof.
  intros Hi Hn. pose proof (idle_serving l Hi Hn) as Hs. pose proof Hi as [Hst _ _ [Q1 Q2] _ _ _ [T1 T2]].
  split; try done.
  - by destruct (starting_ok l Hst).
  - exists ∅. destruct Hs as [S2 S3 S4 S5 S6 S7 S8 S9 S10 S11 S12 S13 S14 S15 S16]. by split.
  - split; [done|]. split; [done|]. change (qu_counters (lq (started_loop tty l))) with (qu_counters (lq l)).
    change (qu_ring (lq (started_loop tty l))) with (qu_ring (lq l)). by rewrite Q2, (st_subs _ Hst).
  - unfold load. change (qu_runners (lq (started_loop tty l))) with (qu_runners (lq l)).
    by rewrite (st_runners _ Hst), total_zero.
Qed.
End ends.


(** A queue with a ring of 4 entries, two buffers of 8192 bytes and four descriptors,
    and two files. *)
Definition shelf_loop : loop shelf :=
  mk_loop (mk_cqueue (mk_queue
    (mk_ost (mk_shelf ∅ (fun path => if String.eqb path "a" then 20000 else 5)) 0)
    (mk_ring (sq_fresh 2 0) (cq_fresh 3 0) 0 9 0)
    (Heap.mk_heap [false; false] 8192 2 8192 4096) 4 2 (mk_counters 0 0 0 0 0) ∅ ∅ ∅)
    4 [] 0 eta0 false [] Idle Return false 1) 0 [] 0.

Lemma shelf_idle : idle_served shelf_loop.
Proof.
  split; try done.
  - assert (Heap.heap_ok (qu_heap (lq shelf_loop))) as Hh by (split; by vm_compute).
    split; try reflexivity; try (by split).
    intros i Hi. pose proof (zget_range _ _ _ Hi) as Hr. unfold Heap.used_at in Hi.
    change (0 <= i < 2) in Hr. assert (i = 0 \/ i = 1) as [-> | ->] by lia; done.
  - split; [|done]. split; try done. split.
    + apply (sq_fresh_ok 2); by vm_compute.
    + apply (cq_fresh_ok 3); by vm_compute.
Qed.

(** A file of three chunks, a round of the submit thread, then a file of five bytes:
    all 20005 bytes are copied. *)
Definition shelf_turns : list turn :=
  [AddFile false false "a" "b" (mk_statx 20000 4096 0); LoopTurn;
   AddFile false false "c" "d" (mk_statx 5 4096 0)].

