(* ===== verification/Starving.v ===== *)
(** * A submit thread that starves

    The other side of Liveness.v: what happens when files cannot be opened.  The loop
    starts a copy whose descriptors are not open only with two descriptors to spare;
    failed opens keep their reservations, and a file half opened keeps one.  With one
    left and nothing outstanding the loop spins for ever. *)

From stdpp Require Import gmap strings.
From S2P Require Import Prelude Abi Prep RingBuf Ring SqSpec CqSpec Kernel Queue Os Util Heap Eta CopyState FileDesc Runner RunnerData RunnerSpec CopyQueue SubmitLoop System Lifecycle Service Serving Termination ServedWorld Liveness.
Import Eta.Rolling Eta.ETA.

Section starving.
Context {W : Type} {F : Files W} {K : Kernel W} (cfg : config) (rand : Z -> Z).
Implicit Types (l : loop W).

(** The first copy waiting needs descriptors, fewer than two are left, and no request
    is outstanding that could return one. *)
Record starved (a : Z) (r : CopyRunner) (ds dd : QueueFileDescriptor) l : Prop := {
  sv_head : exists rest, copiesPendingStart (lp_cq l) = a :: rest;
  sv_continue : copiesPendingContinue l = [];
  sv_idle : submissionsRunning (qu_counters (lq l)) = 0;
  sv_alive : keepAliveCount (qu_counters (lq l)) <> 0;
  sv_runner : qu_runners (lq l) !! a = Some r;
  sv_src : qu_qfds (lq l) !! sourceFd r = Some ds;
  sv_dst : qu_qfds (lq l) !! destFd r = Some dd;
  sv_needs : isOpen ds && isOpen dd = false;
  sv_left : 0 <= fileDescriptorCap (lq l) - fileDescriptorsUsed (lq l) < RESERVED_HIGH_PRIORITY_FD_COUNT;
}.

(** A buffer is put aside, if there is one. *)
Lemma starved_buffer a r ds dd l :
  starved a r ds dd l -> exists l', reserve_buffer l = Ok (tt, l') /\ starved a r ds dd l'.
Proof.
  intros Hs. unfold reserve_buffer. rewrite (bind_ok _ _ l l l) by done.
  destruct (nextBuffer l =? 0); [|by exists l].
  rewrite (bind_ok _ _ l (lq l) l) by done. destruct (Heap.getBlock _) as [b h].
  eexists. split; [done|]. by destruct Hs.
Qed.

Lemma starved_take a r ds dd l : starved a r ds dd l -> take_start l = Ok (None, l).
Proof.
  intros [(rest & H1) _ _ _ H5 H6 H7 H8 H9]. unfold RESERVED_HIGH_PRIORITY_FD_COUNT in H9.
  unfold take_start. rewrite (bind_ok _ _ l l l) by done. rewrite H1.
  rewrite (bind_ok _ _ l (lq l) l) by done. rewrite wrap_small by (unfold in_u; lia).
  pose proof (lift_ok _ l _ _ (needs_run _ _ _ _ _ H5 H6 H7)) as Hn. rewrite lp_set_queue_id in Hn.
  rewrite (bind_ok _ _ _ _ _ Hn), H8. unfold RESERVED_HIGH_PRIORITY_FD_COUNT. by case_z; [|lia].
Qed.

Lemma starved_add a r ds dd fuel l :
  starved a r ds dd l ->
  exists l', add_one cfg rand fuel l = Ok ((true, 0), l') /\ starved a r ds dd l'.
Proof.
  intros Hs. unfold add_one, add_one_seen, must_wait. rewrite (bind_ok _ _ l _ l) by done.
  destruct (_ || _); [by exists l|].
  destruct (starved_buffer _ _ _ _ _ Hs) as (l1 & H1 & Hs1). rewrite (bind_ok _ _ _ _ _ H1).
  assert (take_continue l1 = Ok (None, l1)) as H2
    by (unfold take_continue; rewrite (bind_ok _ _ l1 l1 l1) by done; by rewrite (sv_continue _ _ _ _ _ Hs1)).
  rewrite (bind_ok _ _ _ _ _ H2), (bind_ok _ _ l1 l1 l1) by done.
  exists l1. split; [|done]. rewrite (bind_ok _ _ l1 None l1); [done|].
  destruct (_ && _); [by apply (starved_take a r ds dd)|done].
Qed.

Lemma starved_turn a r ds dd inner fuel l :
  starved a r ds dd l ->
  exists l', loop_turn cfg rand (S inner) fuel l = Ok (tt, l') /\ starved a r ds dd l'.
Proof.
  intros Hs. destruct (starved_add a r ds dd fuel l Hs) as (l1 & H1 & Hs1). exists l1. split; [|done].
  unfold loop_turn. cbn [add_loop]. rewrite (bind_ok _ _ l 0 l1) by (by rewrite (bind_ok _ _ _ _ _ H1)).
  rewrite (bind_ok _ _ l1 tt l1) by done. cbn [complete_loop].
  rewrite (bind_ok _ _ l1 (lq l1) l1) by done. by rewrite (sv_idle _ _ _ _ _ Hs1).
Qed.
End starving.

(** C37: a submit thread that has run out of descriptors never ends.  In a state where
    the first copy waiting needs descriptors, fewer than two are left and nothing is
    outstanding, the loop goes round for ever, whatever the state of the queue and
    however many rounds it is given: no copy is started, and join never returns. *)
Theorem starved_loop_never_ends {W} {F : Files W} {K : Kernel W} cfg rand n inner fuel
    a r ds dd (l : loop W) :
  starved a r ds dd l -> submitLoop cfg rand n (S inner) fuel l = NoFuel.
Proof.
  revert l. induction n as [|n IH]; intros l Hs; [done|].
  destruct (starved_turn cfg rand a r ds dd inner fuel l Hs) as (l1 & H1 & Hs1).
  cbn [submitLoop]. rewrite (bind_after _ _ _ _ _ _ H1).
  assert (on_cq isDone l1 = Ok (false, l1)) as Hd.
  { unfold on_cq, isDone, gets. pose proof (sv_alive _ _ _ _ _ Hs1) as Ha. unfold lq in Ha.
    destruct (Z.eqb_spec (keepAliveCount (qu_counters (cq_queue (lp_cq l1)))) 0); [done|].
    rewrite andb_false_r. by destruct l1. }
  rewrite (bind_ok _ _ _ _ _ Hd). by apply IH.
Qed.

Definition EACCES : Z := 13.

(** The shelf, except that one path cannot be written. *)
Record locked : Type := mk_locked { lk_shelf : shelf }.

#[export] Instance LockedFiles : Files locked := {|
  f_open w path oflag mode :=
    if String.eqb path "b" then (w, -1, EACCES)
    else let '(s, fd, e) := f_open (lk_shelf w) path oflag mode in (mk_locked s, fd, e);
  f_close w fd := let '(s, v, e) := f_close (lk_shelf w) fd in (mk_locked s, v, e);
|}.

#[export] Instance LockedKernel : Kernel locked := {|
  sys_enter w r fd sub mn fl a sz :=
    let '(s, r, v, e) := sys_enter (lk_shelf w) r fd sub mn fl a sz in (mk_locked s, r, v, e);
|}.

(** The least descriptor cap the queue accepts. *)
Definition locked_loop : loop locked :=
  mk_loop (mk_cqueue (mk_queue (mk_ost (mk_locked (mk_shelf ∅ (fun _ => 20000))) 0)
    (mk_ring (sq_fresh 2 0) (cq_fresh 3 0) 0 9 0)
    (Heap.mk_heap [false; false] 8192 2 8192 4096) 4 2 (mk_counters 0 0 0 0 0) ∅ ∅ ∅)
    4 [] 0 eta0 false [] Running Return false 1) 0 [] 0.

(** A file of three chunks is to be copied to the path that cannot be opened: the
    queue after the first round of the loop. *)
Definition locked_turns : list turn :=
  [AddFile false false "a" "b" (mk_statx 20000 4096 0); LoopTurn].

Definition stuck_loop : loop locked :=
  match interleave no_forcing (fun _ => 0) 20 10 locked_turns locked_loop with
  | Ok (_, l) => l
  | _ => locked_loop
  end.

(** The round reports the error; the other two chunks are never started. *)
Lemma starved_loop_never_ends_witness :
  interleave no_forcing (fun _ => 0) 20 10 locked_turns locked_loop = Ok (tt, stuck_loop) /\
  errorMessages (lp_cq stuck_loop) = [CouldntOpen "b" EACCES] /\
  submitLoop no_forcing (fun _ => 0) 1000 20 10 (completing Return stuck_loop) = NoFuel.
Proof.
  assert (exists r ds dd, qu_runners (lq (completing Return stuck_loop)) !! 5 = Some r /\
    qu_qfds (lq (completing Return stuck_loop)) !! sourceFd r = Some ds /\
    qu_qfds (lq (completing Return stuck_loop)) !! destFd r = Some dd /\ isOpen ds && isOpen dd = false)
    as (r & ds & dd & Hr & Hs & Hd & Hn) by (eexists _, _, _; split_and!; vm_compute; reflexivity).
  split; [by vm_compute|]. split; [by vm_compute|].
  apply (starved_loop_never_ends no_forcing (fun _ => 0) 1000 19 10 5 r ds dd).
  split; [exists [6]; by vm_compute|by vm_compute|by vm_compute|by vm_compute
    |exact Hr|exact Hs|exact Hd|exact Hn|by split; vm_compute].
Defined.
