(* ===== verification/Contents.v ===== *)
(** * What requests do to files

    The data side of io_uring: the contents of files, the memory of the process, and
    requests in flight.  A kernel may complete requests in any order, return short
    counts and errors, and post completions late; what it does to files and memory is
    what io_uring_enter(2), read(2) and write(2) say, and a request linked to one that
    failed or was short is cancelled.  The second half is about the
    files to copy: each is cut into pieces by its plan, the pieces cover it and are
    apart, and different files have different destinations. *)

From stdpp Require Import gmap strings.
From S2P Require Import Prelude Abi Prep RingBuf Ring SqSpec CqSpec Kernel Os Util Heap CopyState Runner RunnerData RunnerLive CopyQueue CopyJob Service Serving.

(** ** The view of the kernel *)

Record kview : Type := mk_kview {
  kv_file : string -> bytes;
  kv_size : string -> Z;
  kv_mem : bytes;
  kv_open : gmap Z string;
  kv_flight : list (bool * list io_uring_sqe);  (** chains of requests taken; cut by an error? *)
  kv_late : list (Z * Z);                        (** completions not posted yet *)
}.

Definition kv_set_mem (m : bytes) (v : kview) : kview :=
  mk_kview (kv_file v) (kv_size v) m (kv_open v) (kv_flight v) (kv_late v).
Definition kv_set_file (p : string) (f : bytes) (n : Z) (v : kview) : kview :=
  mk_kview (fun p' => if decide (p' = p) then f else kv_file v p')
    (fun p' => if decide (p' = p) then n else kv_size v p')
    (kv_mem v) (kv_open v) (kv_flight v) (kv_late v).
Definition kv_set_open (o : gmap Z string) (v : kview) : kview :=
  mk_kview (kv_file v) (kv_size v) (kv_mem v) o (kv_flight v) (kv_late v).
Definition kv_set_flight (l : list (bool * list io_uring_sqe)) (v : kview) : kview :=
  mk_kview (kv_file v) (kv_size v) (kv_mem v) (kv_open v) l (kv_late v).
Definition kv_set_late (l : list (Z * Z)) (v : kview) : kview :=
  mk_kview (kv_file v) (kv_size v) (kv_mem v) (kv_open v) (kv_flight v) l.

(** ** Requests *)

(** [m] bytes of [g] written at [off] to a file of [n] bytes: a gap is filled with
    zeros. *)
Definition written (f : bytes) (n off m : Z) (g : bytes) : bytes :=
  fun k => if (off <=? k) && (k <? off + m) then g k
           else if (n <=? k) && (k <? off) then 0 else f k.

(** Nothing written, nothing changed; else the file is now at least as long as that. *)
Definition kv_write (p : string) (off m : Z) (g : bytes) (v : kview) : kview :=
  if m =? 0 then v
  else kv_set_file p (written (kv_file v p) (kv_size v p) off m g) (Z.max (kv_size v p) (off + m)) v.

(** One request executed, with its result.  A failed read or write leaves no trace. *)
Inductive exec (v : kview) (e : io_uring_sqe) : Z -> kview -> Prop :=
  | exec_fails res : res < 0 -> exec v e res v
  | exec_reads fd addr n off p m :
      decode e = Some (Read fd addr n off) -> kv_open v !! fd = Some p ->
      0 <= m <= n -> m = 0 \/ off + m <= kv_size v p ->
      exec v e m (kv_set_mem (splice (kv_mem v) addr m (fun k => kv_file v p (k - addr + off))) v)
  | exec_writes fd addr n off p m :
      decode e = Some (Write fd addr n off) -> kv_open v !! fd = Some p -> 0 <= m <= n ->
      exec v e m (kv_write p off m (fun k => kv_mem v (k - off + addr)) v)
  | exec_other res :
      match decode e with Some (Read _ _ _ _) | Some (Write _ _ _ _) => False | _ => True end ->
      exec v e res v.

(** The rest of a chain. *)
Definition rest_of (cut : bool) (es : list io_uring_sqe) : list (bool * list io_uring_sqe) :=
  match es with [] => [] | _ => [(cut, es)] end.

(** The link is severed by a result that is not what was asked for. *)
Definition severs (e : io_uring_sqe) (res : Z) : bool := linked e && negb (res =? sqe_len e).

(** The first request of a chain is executed, or cancelled if the chain was cut. *)
Inductive kstep : kview -> Z * Z -> kview -> Prop :=
  | kstep_run v l1 l2 e es res v1 :
      kv_flight v = l1 ++ (false, e :: es) :: l2 -> exec v e res v1 ->
      kstep v (sqe_user_data e, res)
        (kv_set_flight (l1 ++ rest_of (severs e res) es ++ l2) v1)
  | kstep_cancel v l1 l2 e es :
      kv_flight v = l1 ++ (true, e :: es) :: l2 ->
      kstep v (sqe_user_data e, - ECANCELED)
        (kv_set_flight (l1 ++ rest_of (linked e) es ++ l2) v).

Inductive ksteps : kview -> list (Z * Z) -> kview -> Prop :=
  | ksteps_nil v : ksteps v [] v
  | ksteps_cons v a v1 l v2 : kstep v a v1 -> ksteps v1 l v2 -> ksteps v (a :: l) v2.

(** ** Chains *)

Fixpoint chain_of (es : list io_uring_sqe) : Prop :=
  match es with
  | [] => False
  | e :: es => match es with [] => linked e = false | _ => linked e = true /\ chain_of es end
  end.

Lemma chain_nonempty es : chain_of es -> es <> [].
Proof. by destruct es. Qed.

Lemma chain_prefix a b x y : a ++ x = b ++ y -> chain_of a -> chain_of b -> a = b.
Proof.
  revert b. induction a as [|e a IH]; intros b E Ha Hb; [done|]. destruct b as [|e' b]; [done|].
  cbn in E. injection E as <- E. f_equal. destruct a as [|e1 a], b as [|e2 b]; try done.
  - destruct Hb as [Hb _]. by rewrite Ha in Hb.
  - destruct Ha as [Ha _]. by rewrite Hb in Ha.
  - apply IH; [done|apply Ha|apply Hb].
Qed.

(** A list parses into chains in one way. *)
Lemma chains_prefix (A B : list (list io_uring_sqe)) rest :
  Forall chain_of A -> Forall chain_of B -> concat A = concat B ++ rest -> exists A', A = B ++ A'.
Proof.
  revert A. induction B as [|b B IH]; intros A HA HB E; [by exists A|].
  apply list.Forall_cons in HB as [Hb HB]. destruct A as [|a A].
  - cbn in E. by destruct b.
  - apply list.Forall_cons in HA as [Ha HA]. cbn in E. rewrite <- app_assoc in E.
    pose proof (chain_prefix _ _ _ _ E Ha Hb) as <-. apply app_inv_head in E.
    destruct (IH A HA HB E) as (A' & ->). by exists A'.
Qed.

(** ** The laws *)

(** What is behind the system calls of a world. *)
Class Contents (W : Type) : Type := kview_of : W -> kview.

(** The kernel takes [n] entries, whole chains, makes some steps, and posts. *)
Definition kernel_serves (n : Z) (cs : list io_uring_cqe) (r r' : io_uring) (v v' : kview) : Prop :=
  kernel_acts n cs r r' /\
  exists chs posts v1 late,
    take (Z.to_nat n) (published (sq_abs (r_sq r))) = concat chs /\ Forall chain_of chs /\
    ksteps (kv_set_flight (kv_flight v ++ (pair false <$> chs)) v) posts v1 /\
    kv_late v ++ posts = (answer_of <$> cs) ++ late /\ v' = kv_set_late late v1.

(** open(2): other files keep their contents, and the file itself if it is not to be
    truncated; if it is, it is empty; a new descriptor was not open. *)
Definition opens_view (path : string) (oflag fd : Z) (v v' : kview) : Prop :=
  kv_mem v' = kv_mem v /\ kv_flight v' = kv_flight v /\ kv_late v' = kv_late v /\
  (forall p, p <> path \/ flag_set oflag O_TRUNC = false ->
     kv_file v' p = kv_file v p /\ kv_size v' p = kv_size v p) /\
  (flag_set oflag O_TRUNC = true -> 0 <= fd -> kv_size v' path = 0) /\
  ((fd < 0 /\ kv_open v' = kv_open v) \/
   (2 < fd < 2 ^ 31 /\ kv_open v !! fd = None /\ kv_open v' = <[fd := path]> (kv_open v))).

Class ContentLaws (W : Type) {F : Files W} {K : Kernel W} {C : Contents W} : Prop := {
  ct_open w path oflag mode w' fd e :
    f_open w path oflag mode = (w', fd, e) -> opens_view path oflag fd (kview_of w) (kview_of w');
  ct_close w fd w' v e :
    f_close w fd = (w', v, e) ->
    kview_of w' = kv_set_open (delete fd (kv_open (kview_of w))) (kview_of w);
  ct_enter w r fd sub mn fl a sz w' r' v e :
    sys_enter w r fd sub mn fl a sz = (w', r', v, e) -> ring_ok r ->
    exists n cs, kernel_serves n cs r r' (kview_of w) (kview_of w');
}.

(** ** The pieces of the files to copy *)

Record job : Type := mk_job {
  job_src : string;
  job_dst : string;
  job_st : statx;
}.

(** The files can be planned, are as long as they were said to be, and no destination
    is also a source or the destination of another file. *)
Record jobs_ok (h0 : Heap.heap) (v0 : kview) (J : list job) : Prop := {
  jb_plan : forall j, j ∈ J -> plannable h0 (job_st j);
  jb_size : forall j, j ∈ J -> stx_size (job_st j) = kv_size v0 (job_src j);
  jb_dst : NoDup (job_dst <$> J);
  jb_src : forall j, j ∈ J -> job_src j ∉ job_dst <$> J;
}.

(** A piece: which file, and which chunk of its plan. *)
Definition piece : Type := nat * Z.

Section pieces.
Context (h0 : Heap.heap) (v0 : kview) (J : list job).

(** What a piece is of: its file, offset, length and alignment. *)
Definition piece_is (p : piece) (jb : job) (o n al : Z) : Prop :=
  J !! fst p = Some jb /\ zget (plan h0 (job_st jb)) (snd p) = Some (o, n, al).

Lemma piece_is_fun p jb o n al jb' o' n' al' :
  piece_is p jb o n al -> piece_is p jb' o' n' al' -> jb' = jb /\ o' = o /\ n' = n /\ al' = al.
Proof. intros [H1 H2] [H3 H4]. assert (jb' = jb) as -> by congruence. split_and!; congruence. Qed.

(** The chunk of a runner made for a piece. *)
Lemma plan_chunk st i r :
  plannable h0 st -> zget (plan h0 st) i = Some (offset r, size r, alignment r) ->
  size r = 0 /\ offset r = 0 /\ stx_size st = 0 \/
  chunk_ok (stx_size st) r /\ fits h0 r /\
    let cs := chunk_size (Heap.blockSize h0) (Heap.alignment h0) (stx_blksize st) in
    0 < cs /\ forall k, 0 <= k < stx_size st -> (offset r <= k < chunk_end r <-> i = k / cs).
Proof.
  intros [Hz|Hj] Hp.
  - left. unfold plan in Hp. rewrite Hz in Hp. cbn [Z.eqb] in Hp.
    pose proof (zget_range _ _ _ Hp) as Hr. change (zlen [(0, 0, 0)]) with 1 in Hr.
    assert (i = 0) as -> by lia. by injection Hp as E1 E2 E3.
  - right. destruct (plan_get h0 st i _ Hj Hp) as (Hi & E). cbn [fst snd] in *.
    injection E as E1 E2 E3.
    set (cs := chunk_size (Heap.blockSize h0) (Heap.alignment h0) (stx_blksize st)) in *.
    pose proof (chunk_size_ok h0 st Hj) as (Hcs & _). fold cs in Hcs.
    destruct (planned_chunk_ok h0 st 0 0 0 i Hj Hi) as (Hck & _ & _ & Hk). fold cs in Hck, Hk.
    set (r0 := new_runner _ _ _ _ _ _) in *.
    assert (same_chunk r0 r) as Hs by (by split_and!).
    split; [by eapply same_chunk_ok|]. split.
    + exists st. split; [done|]. split; [done|]. fold cs. rewrite E2.
      destruct (jo_size _ _ Hj). destruct (chunk_count_spec (stx_size st) cs) as (_ & Hn & _); [lia..|].
      fold cs in Hi. unfold chunk_len. nia.
    + split; [lia|]. intros k Hkr. rewrite (chunk_end_same _ _ Hs), E1. by apply Hk.
Qed.

Lemma plannable_size st : plannable h0 st -> 0 <= stx_size st.
Proof. intros [->|[_ _ _ _ _ ? _]]; lia. Qed.

(** A piece of a plan, as the runner made for it. *)
Definition piece_runner (o n al : Z) : CopyRunner := new_runner 0 0 o n al 0.

Lemma pieces_apart st i i' o n al o' n' al' k :
  plannable h0 st -> zget (plan h0 st) i = Some (o, n, al) ->
  zget (plan h0 st) i' = Some (o', n', al') ->
  o <= k < o + n -> o' <= k < o' + n' -> i = i'.
Proof.
  intros Hp H1 H2 K1 K2.
  destruct (plan_chunk st i (piece_runner o n al) Hp H1) as [(Hz & _)|(C1 & _ & Hcs & A1)];
    [cbn in Hz; lia|].
  destruct (plan_chunk st i' (piece_runner o' n' al') Hp H2) as [(Hz & _)|(C2 & _ & _ & A2)];
    [cbn in Hz; lia|].
  pose proof (ck_src _ _ C1). pose proof (ck_offset _ _ C1) as [? _]. unfold chunk_end in *. cbn in *.
  rewrite (proj1 (A1 k ltac:(lia)) K1). symmetry. by apply A2; lia.
Qed.

Lemma pieces_cover st k :
  plannable h0 st -> 0 <= k < stx_size st ->
  exists i o n al, zget (plan h0 st) i = Some (o, n, al) /\ o <= k < o + n.
Proof.
  intros [Hz|Hj] Hk; [lia|].
  set (cs := chunk_size (Heap.blockSize h0) (Heap.alignment h0) (stx_blksize st)).
  pose proof (chunk_size_ok h0 st Hj) as (Hcs & _). fold cs in Hcs.
  destruct (chunk_count_spec (stx_size st) cs) as (Hc & _ & Hc2); [lia..|].
  pose proof (Z.div_mod k cs ltac:(lia)). pose proof (Z.mod_pos_bound k cs ltac:(lia)).
  pose proof (Z.div_pos k cs ltac:(lia) ltac:(lia)).
  assert (k / cs < chunk_count (stx_size st) cs) as Hlt by nia.
  exists (k / cs), (k / cs * cs), (chunk_len cs (stx_size st) (k / cs)), (stx_blksize st). split.
  - rewrite plan_nonempty by lia. fold cs. rewrite zget_map, zget_zseq by lia. done.
  - unfold chunk_len. nia.
Qed.

Lemma plan_pos st : plannable h0 st -> 0 < zlen (plan h0 st).
Proof.
  intros [Hz|Hj].
  - unfold plan. by rewrite Hz.
  - rewrite length_plan by done. pose proof (chunk_size_ok h0 st Hj) as (Hcs & _).
    pose proof (jo_size _ _ Hj). by apply chunk_count_spec; lia.
Qed.

(** Pieces with one destination are of one file. *)
Lemma same_dest (HJ : jobs_ok h0 v0 J) j j' jb jb' :
  J !! j = Some jb -> J !! j' = Some jb' -> job_dst jb = job_dst jb' -> j = j' /\ jb = jb'.
Proof.
  intros H1 H2 E.
  assert (j = j') as ->; [|split; [done|congruence]].
  apply (NoDup_lookup _ _ _ (job_dst jb) (jb_dst _ _ _ HJ)); rewrite list_lookup_fmap, ?H1, ?H2; [done|].
  cbn. by rewrite E.
Qed.
End pieces.
