(* ===== verification/Promise.v ===== *)
(** * What the requests of a chunk may still come to

    A runner between its rounds, with requests on the way in any state: both still to
    be executed, the write alone, perhaps cancelled, or none, and some results not
    handled yet.  [promise] says that whatever the rest comes to, the invariant of the
    data path holds.  It is kept by executing a request, by handling a result, and by
    any change of memory and files outside the chunk. *)

From stdpp Require Import gmap strings.
From S2P Require Import Prelude Abi Prep RingBuf Ring SqSpec Util CopyState Runner RunnerData RunnerLive RunnerSpec Service Rounds Contents.

(** The requests of a runner the kernel has not executed. *)
Inductive todo : Type :=
  | AllDone
  | WriteLeft (cut : bool)
  | BothLeft.

Definition write_len (r : CopyRunner) : Z := bytes_to_write no_forcing 0 r.

Definition left_over (td : todo) : Z :=
  match td with AllDone => 0 | WriteLeft _ => 1 | BothLeft => 2 end.

Section promise.
Context (src : bytes) (srclen : Z).
Implicit Types (r : CopyRunner) (buf dst : bytes) (pend : list (event_type * Z)).

Definition ends_well r buf dst pend : Prop := core no_forcing src r buf dst pend.

Definition write_promised (cut : bool) r buf dst pend : Prop :=
  if cut then ends_well r buf dst (pend ++ [(EvWrite, - ECANCELED)])
  else forall res dst', exec_write r (write_len r) buf dst res dst' ->
    ends_well r buf dst' (pend ++ [(EvWrite, res)]).

Definition promise (td : todo) r buf dst pend : Prop :=
  match td with
  | AllDone => ends_well r buf dst pend
  | WriteLeft cut => write_promised cut r buf dst pend
  | BothLeft => pend = [] /\ forall res buf' severed,
      exec_read src srclen r (read_len r) buf res buf' severed ->
      write_promised severed r buf' dst [(EvRead, res)]
  end.

(** ** What a promise says now *)

Lemma write_promised_ends cut r buf dst pend :
  write_promised cut r buf dst pend ->
  exists res, res < 0 /\ ends_well r buf dst (pend ++ [(EvWrite, res)]).
Proof.
  unfold write_promised. destruct cut; intros H.
  - exists (- ECANCELED). split; [unfold ECANCELED; lia|done].
  - exists (-1). split; [lia|]. apply H, write_fails. lia.
Qed.

(** Failures always are a way to end. *)
Lemma promise_ends td r buf dst pend :
  promise td r buf dst pend ->
  exists more, zlen more = left_over td /\ ends_well r buf dst (pend ++ more) /\
    (td <> AllDone -> EvWrite ∈ fst <$> more).
Proof.
  destruct td as [|cut|]; cbn [promise left_over].
  - exists []. by rewrite app_nil_r.
  - intros (res & _ & H)%write_promised_ends. exists [(EvWrite, res)]. split_and!; [done..|].
    intros _. by left.
  - intros [-> H]. specialize (H (-1) buf true (read_fails _ _ _ _ _ (-1) ltac:(lia))).
    apply write_promised_ends in H as (res & _ & H). exists [(EvRead, -1); (EvWrite, res)].
    split_and!; [done..|]. intros _. right. by left.
Qed.

Lemma promise_jobs td r buf dst pend :
  promise td r buf dst pend -> jobsRunning r = zlen pend + left_over td.
Proof.
  intros (more & Hm & [Hj _ _ _ _ _ _ _ _] & _)%promise_ends. by rewrite Hj, zlen_app, Hm.
Qed.

Lemma ends_few r buf dst pend : ends_well r buf dst pend -> zlen pend <= 2.
Proof.
  intros [_ _ _ _ _ _ [Hnd _] _ _].
  assert (length (fst <$> pend) <= length [EvRead; EvWrite])%nat as H.
  { apply submseteq_length, NoDup_submseteq; [done|]. intros [] _; set_solver. }
  rewrite length_fmap in H. unfold zlen. simpl in H. lia.
Qed.

Lemma promise_few td r buf dst pend :
  promise td r buf dst pend -> 0 <= jobsRunning r <= 2 /\ zlen pend <= 2.
Proof.
  intros H. pose proof (promise_jobs _ _ _ _ _ H) as Hj.
  destruct (promise_ends _ _ _ _ _ H) as (more & Hm & He & _). apply ends_few in He.
  rewrite zlen_app in He. unfold zlen in *. lia.
Qed.

(** The offsets of a runner with a promise. *)
Lemma promise_range td r buf dst pend :
  promise td r buf dst pend ->
  offset r <= readOffset r <= chunk_end r /\ offset r <= writeOffset r <= chunk_end r /\
  (readOffset r = chunk_end r \/ readOffset r mod alignment r = 0).
Proof. by intros (more & _ & [] & _)%promise_ends. Qed.

(** A runner without requests has nothing to come. *)
Lemma promise_idle td r buf dst pend :
  promise td r buf dst pend -> jobsRunning r = 0 ->
  td = AllDone /\ pend = [] /\ ends_well r buf dst [].
Proof.
  intros H Hj. pose proof (promise_jobs _ _ _ _ _ H) as Hz. rewrite Hj in Hz.
  destruct td; cbn [left_over] in Hz; destruct pend; unfold zlen in Hz; cbn in Hz; try lia. done.
Qed.

(** ** Memory and files *)

(** The same bytes where a chunk is in memory; in the file, right ones stay right. *)
Definition same_buf r buf buf' : Prop := forall i, 0 <= i < size r -> buf' i = buf i.
Definition same_dst r dst dst' : Prop :=
  forall k, offset r <= k < chunk_end r -> dst k = src k -> dst' k = src k.

Lemma copied_agree r f f' base upto :
  upto <= chunk_end r ->
  (forall k, offset r <= k < chunk_end r -> f (k - base) = src k -> f' (k - base) = src k) ->
  copied_to src r f base upto -> copied_to src r f' base upto.
Proof. intros Hu Hf Hc k Hk. apply Hf; [lia|]. by apply Hc. Qed.

Lemma ends_agree r buf buf' dst dst' pend :
  same_buf r buf buf' -> same_dst r dst dst' ->
  ends_well r buf dst pend -> ends_well r buf' dst' pend.
Proof.
  intros Hb Hd [C1 C2 C3 C4 C5 C6 [Hn [Hr Hw]] C8 C9].
  assert (forall k, offset r <= k < chunk_end r -> buf (k - offset r) = src k -> buf' (k - offset r) = src k) as Hb'
    by (intros k Hk; rewrite Hb; [done|unfold chunk_end in *; lia]).
  assert (forall k, offset r <= k < chunk_end r -> dst (k - 0) = src k -> dst' (k - 0) = src k) as Hd'
    by (intros k Hk; rewrite Z.sub_0_r; by apply Hd).
  split; try done; [eapply copied_agree; [lia|done..]|eapply copied_agree; [lia|done..]|].
  split; [done|]. split.
  - intros res Hin n Hz. destruct (Hr res Hin Hz). split; [done|]. by eapply copied_agree.
  - intros res Hin n Hz. destruct (Hw res Hin Hz). split; [done|]. by eapply copied_agree.
Qed.

Lemma write_agree cut r buf buf' dst dst' pend :
  same_buf r buf buf' -> same_dst r dst dst' ->
  offset r <= writeOffset r -> writeOffset r + write_len r <= chunk_end r ->
  write_promised cut r buf dst pend -> write_promised cut r buf' dst' pend.
Proof.
  intros Hb Hd Ho Hl. unfold write_promised. destruct cut; [by apply ends_agree|].
  intros H res dst1 Hex. inversion Hex as [e He|n Hn]; subst.
  - eapply ends_agree; [done..|]. apply H. by apply write_fails.
  - eapply ends_agree; [done| |apply H; by apply write_returns].
    intros k Hk. unfold splice. destruct (_ && _) eqn:E; [|by apply Hd]. bools.
    rewrite Hb; [done|]. unfold chunk_end in *. lia.
Qed.

Lemma promise_agree td r buf buf' dst dst' pend :
  chunk_ok srclen r -> same_buf r buf buf' -> same_dst r dst dst' ->
  promise td r buf dst pend -> promise td r buf' dst' pend.
Proof.
  intros Hck Hb Hd H. pose proof (promise_range _ _ _ _ _ H) as (_ & Hw & _).
  pose proof (bytes_to_write_spec no_forcing srclen r Hck 0 Hw) as Hl.
  change (bytes_to_write no_forcing 0 r) with (write_len r) in Hl.
  destruct td as [|cut|]; cbn [promise] in *.
  - by eapply ends_agree.
  - eapply write_agree; [done|done|lia|lia|done].
  - destruct H as [-> H]. split; [done|]. intros res buf1 sev Hex.
    inversion Hex as [e He|n Hn Hsrc]; subst.
    + eapply (write_agree _ r buf); [done..|lia|lia|]. apply (H res buf true). by apply read_fails.
    + eapply (write_agree _ r (splice buf (readOffset r - offset r) res (fun k => src (k + offset r))));
        [|done|lia|lia|apply H; by apply read_returns].
      intros i Hi. unfold splice. destruct (_ && _); [done|by apply Hb].
Qed.

(** A chunk of which nothing was written does not depend on its destination. *)
Lemma unwritten_dst r buf dst dst' :
  writeOffset r = offset r -> ends_well r buf dst [] -> ends_well r buf dst' [].
Proof.
  intros E [C1 C2 C3 C4 C5 C6 C7 C8 C9]. split; try done.
  - intros k Hk. lia.
  - split; [constructor|]. split; intros res Hin; by apply elem_of_nil in Hin.
Qed.

(** A fresh runner has nothing to keep. *)
Lemma fresh_ends r buf dst : 0 < size r -> 0 < alignment r -> offset r mod alignment r = 0 ->
  fresh_runner r -> ends_well r buf dst [].
Proof.
  intros Hs Ha Ho [H1 H2 H3 H4 [H5 H6]]. unfold ends_well, chunk_end in *.
  split; unfold chunk_end, copied_to; rewrite ?H1, ?H2; try done.
  - lia.
  - by right.
  - lia.
  - intros k Hk. lia.
  - intros k Hk. lia.
  - split; [constructor|]. split; intros res Hin; by apply elem_of_nil in Hin.
Qed.

(** ** Submitting *)

Lemma submit_promise r rnd buf dst :
  chunk_ok srclen r -> ends_well r buf dst [] -> savedError r = None ->
  writeOffset r < chunk_end r ->
  promise (if bytes_to_read no_forcing 0 r =? 0 then WriteLeft false else BothLeft)
    (submitted no_forcing rnd r) buf dst [].
Proof.
  intros Hck Hc He Hw. change (submitted no_forcing rnd r) with (submitted no_forcing 0 r).
  destruct (submitted_fields no_forcing r 0 Hw (co_jobs _ _ _ _ _ _ Hc))
    as ((E1 & E2 & E3) & E4 & E5 & _).
  assert (write_len (submitted no_forcing 0 r) = write_len r) as Ewl
    by (unfold write_len, bytes_to_write; by rewrite E1, E2, E5).
  assert (read_len (submitted no_forcing 0 r) = read_len r) as Erl
    by (unfold read_len, bytes_to_read; by rewrite E1, E2, E3, E4).
  assert (forall buf' dst1 res dst', exec_write (submitted no_forcing 0 r)
    (write_len (submitted no_forcing 0 r)) buf' dst1 res dst' ->
    exec_second no_forcing 0 false r buf' dst1 res dst') as Hwr.
  { intros buf' dst1 res dst' Hex. apply second_write; [done|]. fold (write_len r). rewrite <- Ewl.
    inversion Hex as [e He'|n Hn]; subst; [by apply write_fails|]. rewrite E1, E5. by apply write_returns. }
  destruct (Z.eqb_spec (bytes_to_read no_forcing 0 r) 0) as [En|En]; cbn [promise write_promised].
  - intros res dst' Hex. by apply (submit_write_core no_forcing src srclen r buf dst 0 0), Hwr.
  - split; [done|]. intros res buf' sev Hex.
    assert (exec_read src srclen r (read_len r) buf res buf' sev) as Hrd.
    { rewrite Erl in Hex. inversion Hex as [e He'|n Hn Hs]; subst; [by apply read_fails|].
      rewrite E1, E4 in *. by apply read_returns. }
    unfold write_promised. destruct sev.
    + by apply (submit_both_core no_forcing src srclen r buf dst 0 0 res buf' true).
    + intros wres dst' Hwx.
      apply (submit_both_core no_forcing src srclen r buf dst 0 0 res buf' false); try done.
      by apply Hwr.
Qed.

(** ** Handling a result *)

Lemma completed_write_args spath dpath t res r :
  (t = EvRead \/ res < 0) ->
  let r' := completed no_forcing spath dpath t res r in
  writeOffset r' = writeOffset r /\ offset r' = offset r /\ write_len r' = write_len r.
Proof.
  intros Ht. unfold completed. cbn [savedError r_set_jobs]. destruct (savedError r); [done|].
  destruct t; repeat case_match; try done. destruct Ht as [|Ht]; [done|].
  exfalso. unfold spoofed in *. cbn in *. lia.
Qed.

Lemma ends_complete spath dpath t res r buf dst p1 p2 :
  chunk_ok srclen r -> savedError r = None -> ends_well r buf dst (p1 ++ (t, res) :: p2) ->
  let r' := completed no_forcing spath dpath t res r in
  savedError r' = None -> ends_well r' buf dst (p1 ++ p2).
Proof.
  intros Hck He H r' He'. pose proof (ends_few _ _ _ _ H) as Hf.
  assert (zlen (p1 ++ (t, res) :: p2) < 2 ^ 31) as Hlt by lia. destruct t.
  - by eapply complete_read_core.
  - by eapply complete_write_core.
Qed.

Lemma promise_complete td spath dpath t res r buf dst p1 p2 :
  chunk_ok srclen r -> savedError r = None -> promise td r buf dst (p1 ++ (t, res) :: p2) ->
  let r' := completed no_forcing spath dpath t res r in
  savedError r' = None -> promise td r' buf dst (p1 ++ p2).
Proof.
  intros Hck He H r' He'.
  assert (forall pend, ends_well r buf dst ((p1 ++ (t, res) :: p2) ++ pend) ->
    ends_well r' buf dst ((p1 ++ p2) ++ pend)) as Hgo.
  { intros pend Hc. rewrite <- app_assoc in *. by eapply ends_complete. }
  destruct td as [|[]|]; cbn [promise write_promised] in *.
  - by eapply ends_complete.
  - by apply Hgo.
  - intros wres dst' Hex.
    assert (t = EvRead) as ->.
    { destruct t; [done|exfalso]. apply (write_promised_ends false) in H as (x & _ & [_ _ _ _ _ _ [Hnd _] _ _]).
      rewrite fmap_app, fmap_app in Hnd. apply list.NoDup_app in Hnd as (_ & Hnd & _).
      apply (Hnd EvWrite); [apply elem_of_app; right; by left|by left]. }
    destruct (completed_write_args spath dpath EvRead res r (or_introl eq_refl)) as (E1 & E2 & E3).
    fold r' in E1, E2, E3. rewrite <- app_assoc. eapply ends_complete; [done|done| |done].
    rewrite app_comm_cons, app_assoc. apply H. rewrite <- E3.
    inversion Hex as [e He1|n Hn]; subst; [by apply write_fails|]. rewrite E1, E2. by apply write_returns.
  - destruct H as [H _]. by destruct p1.
Qed.
End promise.
