(* ===== verification/Ledger.v ===== *)
(** * Which request belongs to which piece

    The books of the data a queue copies: every runner copies one piece of a file, and
    the requests queued, executing and completed are exactly those the runners with a
    buffer wait for.  Whatever the kernel does, in whatever order, keeps them: a request
    touches the memory of its own runner and the piece of its own file only. *)

From stdpp Require Import gmap strings.
From S2P Require Import Prelude Abi Prep RingBuf Ring SqSpec CqSpec Kernel Os Util Heap CopyState FileDesc Runner RunnerData RunnerLive RunnerSpec CopyQueue CopyJob Service Rounds Serving Contents Promise.

(** The requests of a runner: entries to be executed, results to be handled. *)
Record task : Type := mk_task {
  t_this : Z;
  t_todo : todo;
  t_es : list io_uring_sqe;
  t_pend : list (event_type * Z);
}.

Definition t_cut (t : task) : bool := match t_todo t with WriteLeft cut => cut | _ => false end.
Definition t_flight (t : task) : list (bool * list io_uring_sqe) := rest_of (t_cut t) (t_es t).
Definition t_answers (t : task) : list (Z * Z) :=
  (fun '(ty, res) => (event_addr (t_this t) ty, res)) <$> t_pend t.

(** The entries still to be executed of a runner with descriptors [sfd] and [dfd]. *)
Definition requests (this sfd dfd : Z) (r : CopyRunner) (td : todo) : list io_uring_sqe :=
  match td with
  | AllDone => []
  | WriteLeft _ => [write_entry no_forcing this dfd 0 false r]
  | BothLeft => [read_entry this sfd (bytes_to_read no_forcing 0 r) r;
                 write_entry no_forcing this dfd 0 false r]
  end.

Section ledger.
Context (h0 : Heap.heap) (v0 : kview) (J : list job).
Implicit Types (R : gmap Z CopyRunner) (Q : gmap Z QueueFileDescriptor) (C : gmap Z piece)
  (v : kview) (r : CopyRunner) (t : task) (T : list task).

(** A runner with its buffer, a block of the heap. *)
Definition seated r : Prop :=
  0 < size r /\ buffer r <> 0 /\ exists i, 0 <= i < Heap.blocks h0 /\
    buffer r = Heap.block_at h0 i /\ buffer r <= bufferAligned r /\
    bufferAligned r + round_up (size r) (alignment r) <= buffer r + Heap.blockSize h0.

(** The file at [p] as compared with what it should hold: past its end, no byte is
    right. *)
Definition seen v (src : bytes) (p : string) : bytes :=
  fun k => if k <? kv_size v p then kv_file v p k else src k + 1.

Lemma seen_right v src p k : seen v src p k = src k <-> k < kv_size v p /\ kv_file v p k = src k.
Proof. unfold seen. case_z; split; [done|by intros [_ ?]|lia|lia]. Qed.

Definition buffer_view r v : bytes := fun i => kv_mem v (bufferAligned r + i).

(** The runner at [a] copies a piece, between the files of its descriptors. *)
Record runs_piece Q C (a : Z) r (ds dd : QueueFileDescriptor) : Prop := {
  rp_src : Q !! sourceFd r = Some ds;
  rp_dst : Q !! destFd r = Some dd;
  rp_flags : q_oflag ds = src_flags /\ q_oflag dd = dest_flags;
  rp_piece : exists p jb, C !! a = Some p /\
    piece_is h0 J p jb (offset r) (size r) (alignment r) /\
    q_path ds = job_src jb /\ q_path dd = job_dst jb;
}.

Record runners_ok R Q C : Prop := {
  rn_addr : forall a r, R !! a = Some r -> 0 < a < 2 ^ 62;
  rn_fresh : forall a r, R !! a = Some r -> buffer r = 0 -> fresh_runner r;
  rn_piece : forall a r, R !! a = Some r -> exists ds dd, runs_piece Q C a r ds dd;
  rn_inj : forall a b p, C !! a = Some p -> C !! b = Some p -> a = b;
  rn_real : forall a p, C !! a = Some p -> exists jb o n al, piece_is h0 J p jb o n al;
  rn_buffers : forall a b ra rb, R !! a = Some ra -> R !! b = Some rb ->
    buffer ra = buffer rb -> buffer ra <> 0 -> a = b;
}.

(** What a task is about. *)
Record task_holds Q v t r (ds dd : QueueFileDescriptor) : Prop := {
  th_src : Q !! sourceFd r = Some ds;
  th_dst : Q !! destFd r = Some dd;
  th_error : savedError r = None;
  th_seat : seated r;
  th_promise : promise (kv_file v0 (q_path ds)) (kv_size v0 (q_path ds)) (t_todo t) r
    (buffer_view r v) (seen v (kv_file v0 (q_path ds)) (q_path dd)) (t_pend t);
  th_es : t_es t = requests (t_this t) (q_fd ds) (q_fd dd) r (t_todo t);
  th_open : t_todo t <> AllDone -> 2 < q_fd ds /\ 2 < q_fd dd;
}.

Definition task_ok R Q v t : Prop :=
  exists r ds dd, R !! t_this t = Some r /\ task_holds Q v t r ds dd.

(** A piece that was copied, to a file that is not too long. *)
Definition fits_size v jb : Prop := 0 <= kv_size v (job_dst jb) <= stx_size (job_st jb).

Definition piece_copied v (p : piece) : Prop :=
  forall jb o n al, piece_is h0 J p jb o n al -> fits_size v jb /\
    forall k, o <= k < o + n -> seen v (kv_file v0 (job_src jb)) (job_dst jb) k = kv_file v0 (job_src jb) k.

Definition no_dest (p : string) : Prop := p ∉ job_dst <$> J.

Record files_kept R C v : Prop := {
  fk_dead : forall a p, C !! a = Some p -> R !! a = None -> piece_copied v p;
  fk_still : forall p, no_dest p -> kv_file v p = kv_file v0 p /\ kv_size v p = kv_size v0 p;
}.

(** The open descriptors are those of the kernel, each with one number; a destination
    that was opened was truncated. *)
Record fds_match Q v : Prop := {
  fm_open : forall p d, Q !! p = Some d ->
    q_fd d = NEVER_OPENED_VAL \/ q_fd d = CLOSED_VAL \/
    (2 < q_fd d < 2 ^ 31 /\ kv_open v !! q_fd d = Some (q_path d));
  fm_inj : forall p p' d d', Q !! p = Some d -> Q !! p' = Some d' ->
    2 < q_fd d -> q_fd d = q_fd d' -> p = p';
  fm_size : forall p d j, Q !! p = Some d -> q_oflag d = dest_flags -> q_fd d <> NEVER_OPENED_VAL ->
    j ∈ J -> job_dst j = q_path d -> fits_size v j;
}.

(** The tasks of a state; the requests of the first ones are still in the ring. *)
Record tasks_ok R Q v (Tq Tk : list task) : Prop := {
  tk_nodup : NoDup (t_this <$> Tq ++ Tk);
  tk_ok : forall t, t ∈ Tq ++ Tk -> task_ok R Q v t;
  tk_queued : forall t, t ∈ Tq -> t_pend t = [] /\ (t_todo t = BothLeft \/ t_todo t = WriteLeft false);
  tk_all : forall a r, R !! a = Some r -> buffer r <> 0 -> a ∈ t_this <$> Tq ++ Tk;
}.

(** ** Pieces and places *)

Section facts.
Context (HJ : jobs_ok h0 v0 J).

Lemma runs_chunk Q C a r ds dd :
  runs_piece Q C a r ds dd -> 0 < size r ->
  chunk_ok (kv_size v0 (q_path ds)) r /\ fits h0 r.
Proof.
  intros [_ _ _ (p & jb & _ & [Hjb Hp] & Es & _)] Hsz.
  assert (jb ∈ J) as Hin by (by eapply list_elem_of_lookup_2).
  rewrite Es, <- (jb_size _ _ _ HJ jb Hin).
  destruct (plan_chunk h0 (job_st jb) (snd p) r (jb_plan _ _ _ HJ jb Hin) Hp) as [(? & _)|(Hc & Hf & _)];
    [lia|done].
Qed.

(** The source of a runner is no destination. *)
Lemma runs_source Q C a r ds dd : runs_piece Q C a r ds dd -> no_dest (q_path ds).
Proof.
  intros [_ _ _ (p & jb & _ & [Hjb _] & -> & _)].
  apply (jb_src _ _ _ HJ). by eapply list_elem_of_lookup_2.
Qed.

Lemma runs_dest Q C a r ds dd : runs_piece Q C a r ds dd -> ~ no_dest (q_path dd).
Proof.
  intros [_ _ _ (p & jb & _ & [Hjb _] & _ & ->)] H. apply H.
  eapply list_elem_of_fmap_2, list_elem_of_lookup_2, Hjb.
Qed.

Lemma seated_region r :
  seated r -> 0 < alignment r ->
  size r <= round_up (size r) (alignment r) /\ exists i, 0 <= i < Heap.blocks h0 /\
    Heap.block_at h0 i <= bufferAligned r /\
    bufferAligned r + round_up (size r) (alignment r) <= Heap.block_at h0 i + Heap.blockSize h0 /\
    buffer r = Heap.block_at h0 i.
Proof.
  intros (_ & _ & i & Hi & E & H1 & H2) Ha. split; [by apply round_up_ge|].
  exists i. rewrite <- E. split_and!; try done; lia.
Qed.

(** Two runners do not share memory. *)
Lemma regions_apart R Q C a b ra rb :
  runners_ok R Q C -> R !! a = Some ra -> R !! b = Some rb -> a <> b ->
  seated ra -> seated rb -> 0 < alignment ra -> 0 < alignment rb ->
  forall i, bufferAligned ra <= i < bufferAligned ra + round_up (size ra) (alignment ra) ->
    ~ (bufferAligned rb <= i < bufferAligned rb + round_up (size rb) (alignment rb)).
Proof.
  intros HR Ha Hb Hne Sa Sb Aa Ab i Hi Hi'.
  destruct (seated_region ra Sa Aa) as (_ & x & Hx & X1 & X2 & Ex).
  destruct (seated_region rb Sb Ab) as (_ & y & Hy & Y1 & Y2 & Ey).
  unfold Heap.block_at in *. assert (x = y) as <- by nia.
  apply Hne. eapply (rn_buffers _ _ _ HR); [done..|congruence|apply Sa].
Qed.

(** Two runners do not write to the same bytes. *)
Lemma chunks_apart R Q C a b ra rb dsa dda dsb ddb k :
  runners_ok R Q C -> a <> b ->
  runs_piece Q C a ra dsa dda -> runs_piece Q C b rb dsb ddb -> q_path dda = q_path ddb ->
  offset ra <= k < chunk_end ra -> ~ (offset rb <= k < chunk_end rb).
Proof.
  intros HR Hne [_ _ _ (p & jb & Hp & [J1 P1] & _ & E1)] [_ _ _ (p' & jb' & Hp' & [J2 P2] & _ & E2)] E K1 K2.
  destruct (same_dest h0 v0 J HJ _ _ _ _ J1 J2) as [Ej <-]; [congruence|].
  assert (jb ∈ J) as Hin by (by eapply list_elem_of_lookup_2).
  pose proof (pieces_apart h0 _ _ _ _ _ _ _ _ _ k (jb_plan _ _ _ HJ jb Hin) P1 P2 K1 K2) as Ei.
  apply Hne, (rn_inj _ _ _ HR a b p); [done|]. rewrite Hp'. destruct p, p'. cbn in *. congruence.
Qed.

(** A piece that is done and one being copied do not overlap either. *)
Lemma dead_apart R Q C a b r ds dd p jb o n al k :
  runners_ok R Q C -> a <> b -> runs_piece Q C a r ds dd ->
  C !! b = Some p -> piece_is h0 J p jb o n al -> job_dst jb = q_path dd ->
  o <= k < o + n -> ~ (offset r <= k < chunk_end r).
Proof.
  intros HR Hne [_ _ _ (p1 & jb1 & Hp1 & [J1 P1] & _ & E1)] Hp [J2 P2] E K1 K2.
  destruct (same_dest h0 v0 J HJ _ _ _ _ J1 J2) as [Ej <-]; [congruence|].
  assert (jb1 ∈ J) as Hin by (by eapply list_elem_of_lookup_2).
  pose proof (pieces_apart h0 _ _ _ _ _ _ _ _ _ k (jb_plan _ _ _ HJ jb1 Hin) P1 P2 K2 K1) as Ei.
  apply Hne, (rn_inj _ _ _ HR a b p1); [done|]. rewrite Hp. destruct p, p1. cbn in *. congruence.
Qed.

(** ** One request executed *)

(** A change of memory and files that concerns one runner only: where others write it
    changes nothing before the end of the file, which is not moved back, nor further than
    the chunk. *)
Record own_change r (dst : string) v v' : Prop := {
  oc_mem : forall i, ~ (bufferAligned r <= i < bufferAligned r + round_up (size r) (alignment r)) ->
    kv_mem v' i = kv_mem v i;
  oc_dst : forall k, ~ (offset r <= k < chunk_end r) -> k < kv_size v dst -> kv_file v' dst k = kv_file v dst k;
  oc_size : kv_size v dst <= kv_size v' dst <= Z.max (kv_size v dst) (chunk_end r);
  oc_files : forall p, p <> dst -> kv_file v' p = kv_file v p /\ kv_size v' p = kv_size v p;
}.

Lemma own_change_refl r dst v : own_change r dst v v.
Proof. split; try done. lia. Qed.

(** Elsewhere, what was right stays right. *)
Lemma own_seen r dst v v' src p k :
  own_change r dst v v' -> p <> dst \/ ~ (offset r <= k < chunk_end r) ->
  seen v src p k = src k -> seen v' src p k = src k.
Proof.
  intros [M1 M2 M3 M4] Hp [H1 H2]%seen_right. apply seen_right.
  destruct (decide (p = dst)) as [->|Hne]; [|by destruct (M4 _ Hne) as [-> ->]].
  destruct Hp as [?|Hk]; [done|]. split; [lia|]. by rewrite M2.
Qed.

(** Other tasks do not notice. *)
Lemma other_task R Q C v v' a r ds dd u :
  runners_ok R Q C -> R !! a = Some r -> runs_piece Q C a r ds dd -> seated r ->
  own_change r (q_path dd) v v' -> t_this u <> a -> task_ok R Q v u -> task_ok R Q v' u.
Proof.
  intros HR Ha Hp Hst Hown Hne (ru & dsu & ddu & Hru & [H1 H2 H3 H4 H5 H6 H7]).
  destruct (rn_piece _ _ _ HR _ _ Hru) as (dsu' & ddu' & Hpu).
  pose proof (rp_src _ _ _ _ _ _ Hpu) as E1. pose proof (rp_dst _ _ _ _ _ _ Hpu) as E2.
  assert (dsu' = dsu) as -> by congruence. assert (ddu' = ddu) as -> by congruence. clear E1 E2.
  destruct (runs_chunk _ _ _ _ _ _ Hpu) as [Hcu _]; [apply H4|].
  destruct (runs_chunk _ _ _ _ _ _ Hp) as [Hc _]; [apply Hst|].
  exists ru, dsu, ddu. split; [done|]. split; try done.
  eapply promise_agree; [done| | |done].
  - intros i Hi. unfold buffer_view. apply (oc_mem _ _ _ _ Hown).
    pose proof (round_up_ge (size ru) _ (ck_align _ _ Hcu)).
    apply (regions_apart R Q C (t_this u) a ru r); try done; [apply (ck_align _ _ Hcu)|apply (ck_align _ _ Hc)|lia].
  - intros k Hk. apply (own_seen _ _ _ _ _ _ _ Hown).
    destruct (decide (q_path ddu = q_path dd)) as [E|E]; [right|by left].
    by eapply (chunks_apart R Q C (t_this u) a).
Qed.

(** A file does not grow beyond the size it should have. *)
Lemma own_size Q C v v' a r ds dd j :
  runs_piece Q C a r ds dd -> 0 < size r -> own_change r (q_path dd) v v' -> fits_size v j -> j ∈ J ->
  fits_size v' j.
Proof.
  intros Hp Hsz Hown Hf Hj. unfold fits_size in *. destruct (decide (job_dst j = q_path dd)) as [E|E].
  - destruct (runs_chunk _ _ _ _ _ _ Hp Hsz) as [Hck _]. pose proof (ck_src _ _ Hck) as Hend.
    destruct Hp as [_ _ _ (p & jb & _ & [Hjb _] & Es & Ed)].
    apply list_elem_of_lookup_1 in Hj as [i Hi].
    destruct (same_dest h0 v0 J HJ _ _ _ _ Hi Hjb) as [_ ->]; [congruence|].
    rewrite Es, <- (jb_size _ _ _ HJ jb) in Hend by (by eapply list_elem_of_lookup_2).
    pose proof (oc_size _ _ _ _ Hown) as Hs. rewrite E in *. lia.
  - by destruct (oc_files _ _ _ _ Hown _ E) as [_ ->].
Qed.

Lemma own_files R Q C v v' a r ds dd :
  runners_ok R Q C -> R !! a = Some r -> runs_piece Q C a r ds dd -> 0 < size r ->
  own_change r (q_path dd) v v' -> files_kept R C v -> files_kept R C v'.
Proof.
  intros HR Ha Hp Hsz Hown [F1 F2]. split.
  - intros b p Hb Hn jb o n al Hpi. destruct (F1 b p Hb Hn jb o n al Hpi) as [Hfit Hdone].
    split.
    { eapply own_size; try done. destruct Hpi as [Hj _]. by eapply list_elem_of_lookup_2. }
    intros k Hk. specialize (Hdone k Hk). apply (own_seen _ _ _ _ _ _ _ Hown); [|done].
    destruct (decide (job_dst jb = q_path dd)) as [E|E]; [right|by left].
    eapply (dead_apart R Q C a b); try done. intros ->. congruence.
  - intros p Hnd. assert (p <> q_path dd) as Hne.
    { intros ->. by eapply runs_dest. }
    destruct (oc_files _ _ _ _ Hown _ Hne) as [-> ->]. by apply F2.
Qed.
End facts.
End ledger.
