(* ===== verification/Executing.v ===== *)
(** * The kernel at work on the requests of a queue

    Executing or cancelling a request keeps the books of Ledger.v, whichever request it
    is; so does taking requests from the ring and posting completions. *)

From stdpp Require Import gmap strings.
From S2P Require Import Prelude Abi Prep RingBuf Ring SqSpec CqSpec Kernel Os Util Heap CopyState FileDesc Runner RunnerData RunnerLive RunnerSpec CopyQueue CopyJob Service Rounds Serving Contents Promise Ledger.

Section executing.
Context (h0 : Heap.heap) (v0 : kview) (J : list job) (HJ : jobs_ok h0 v0 J).
Context (Hbase : 0 < Heap.data h0)
  (Hend : Heap.data h0 + Heap.blocks h0 * Heap.blockSize h0 < 2 ^ 63).
Implicit Types (R : gmap Z CopyRunner) (Q : gmap Z QueueFileDescriptor) (C : gmap Z piece)
  (v : kview) (r : CopyRunner) (t : task) (T : list task).

(** ** What the entries ask for *)

(** The runner as it was before the round, as far as requests go. *)
Definition quiet r : CopyRunner := r_set_jobs 0 (r_set_overrides S32_MAX S32_MAX r).

Lemma ends_quiet src r buf dst pend : ends_well src r buf dst pend -> core no_forcing src (quiet r) buf dst [].
Proof.
  intros [C1 C2 C3 C4 C5 C6 _ _ _]. split; try done.
  split; [constructor|]. split; intros res Hin; by apply elem_of_nil in Hin.
Qed.

Section entries.
Context (src : bytes) (srclen : Z) (r : CopyRunner) (buf dst : bytes) (pend : list (event_type * Z))
  (this sfd dfd : Z).
Context (Hck : chunk_ok srclen r) (He : ends_well src r buf dst pend) (Hseat : seated h0 r)
  (Hfit : fits h0 r) (Hfd : 2 < sfd < 2 ^ 31 /\ 2 < dfd < 2 ^ 31).

Lemma requests_ok :
  request_ok (Read sfd (bufferAligned r + readOffset r - offset r) (read_len r) (readOffset r)) /\
  request_ok (Write dfd (bufferAligned r + writeOffset r - offset r) (write_len r) (writeOffset r)).
Proof.
  assert (chunk_ok srclen (quiet r)) as Hq by (by destruct Hck).
  destruct (seated_region h0 r Hseat (ck_align _ _ Hck)) as (Hru & i & Hi & B1 & B2 & _).
  destruct Hfit as (st & Hj & Ha & _). pose proof (jo_block _ _ Hj).
  pose proof (Heap.ho_size _ (jo_heap _ _ Hj)). unfold Heap.block_at in *.
  apply (core_request_ok no_forcing src srclen (quiet r) buf dst sfd dfd 0 0 Hq (ends_quiet _ _ _ _ _ He));
    unfold in_s; cbn; try lia; nia.
Qed.

Lemma read_asks :
  let e := read_entry this sfd (bytes_to_read no_forcing 0 r) r in
  decode e = Some (Read sfd (bufferAligned r + readOffset r - offset r) (read_len r) (readOffset r)) /\
  linked e = true /\ sqe_user_data e = event_addr this EvRead /\ sqe_len e = read_len r.
Proof.
  destruct requests_ok as [Hr _].
  destruct (read_entry_is this sfd (bytes_to_read no_forcing 0 r) r Hr) as (H1 & H2 & H3).
  cbv zeta. split; [exact H1|]. split; [unfold linked; by rewrite H2|]. split; [exact H3|].
  destruct Hr as (_ & _ & Hlen & _). unfold read_entry, read_len in *. cbn. by apply wrap_small.
Qed.

Lemma write_asks :
  let e := write_entry no_forcing this dfd 0 false r in
  decode e = Some (Write dfd (bufferAligned r + writeOffset r - offset r) (write_len r) (writeOffset r)) /\
  linked e = false /\ sqe_user_data e = event_addr this EvWrite.
Proof.
  destruct requests_ok as [_ Hw].
  destruct (write_entry_is no_forcing this dfd 0 r Hw) as (H1 & H2 & H3).
  cbv zeta. split; [exact H1|]. split; [unfold linked; by rewrite H2|done].
Qed.

(** They stay in the runner's memory and piece. *)
Lemma asks_inside :
  offset r <= readOffset r /\
  readOffset r - offset r + read_len r <= round_up (size r) (alignment r) /\
  offset r <= writeOffset r /\ 0 <= write_len r /\ writeOffset r + write_len r <= chunk_end r /\
  0 <= read_len r.
Proof.
  assert (chunk_ok srclen (quiet r)) as Hq by (by destruct Hck).
  destruct (core_request_bounds no_forcing src srclen (quiet r) buf dst 0 Hq (ends_quiet _ _ _ _ _ He))
    as [B1 _].
  pose proof (bytes_to_write_spec no_forcing srclen r Hck 0 (co_wo _ _ _ _ _ _ He)) as Hl.
  change (bytes_to_write no_forcing 0 r) with (write_len r) in Hl.
  pose proof (co_ro _ _ _ _ _ _ He). pose proof (co_wo _ _ _ _ _ _ He).
  destruct requests_ok as [(_ & _ & Hlen & _) _]. unfold in_u in Hlen.
  split_and!; try lia. exact B1.
Qed.
End entries.

(** ** Executing one *)

#[local] Hint Resolve own_change_refl : core.

(** A write inside a chunk is the chunk's own affair. *)
Lemma write_own r p v off m g :
  offset r <= off -> 0 <= m -> off + m <= chunk_end r -> own_change r p v (kv_write p off m g v).
Proof.
  intros Ho Hm He. unfold kv_write. destruct (Z.eqb_spec m 0); [apply own_change_refl|].
  split; cbn; [done| | |].
  - intros k Hk Hlt. destruct (decide _) as [_|?]; [|done]. unfold written.
    destruct ((off <=? k) && _) eqn:H1; [bools; lia|]. by destruct ((_ <=? k) && (k <? off)) eqn:H2; [bools; lia|].
  - destruct (decide (p = p)); [lia|done].
  - intros p' Hne. by destruct (decide (p' = p)).
Qed.

(** It leaves right bytes right, and what is in memory in its place. *)
Lemma write_seen src p v off m g k :
  0 <= m -> splice (seen v src p) off m g k = src k -> seen (kv_write p off m g v) src p k = src k.
Proof.
  intros Hm. unfold kv_write, splice. destruct (Z.eqb_spec m 0) as [->|Hnz].
  { destruct (_ && _) eqn:H1; [bools; lia|done]. }
  rewrite (seen_right (kv_set_file _ _ _ _)). cbn. destruct (decide (p = p)) as [_|?]; [|done]. unfold written.
  destruct (_ && _) eqn:H1; [bools; intros <-; split; [lia|done]|].
  intros [Hlt Hk]%seen_right. split; [lia|]. by destruct ((_ <=? k) && (k <? off)) eqn:H2; [bools; lia|].
Qed.

(** It touches neither memory nor descriptors nor requests. *)
Lemma write_rest p off m g v :
  let v' := kv_write p off m g v in
  kv_mem v' = kv_mem v /\ kv_open v' = kv_open v /\ kv_flight v' = kv_flight v /\ kv_late v' = kv_late v.
Proof. unfold kv_write. by destruct (m =? 0). Qed.

(** What is left of a task when its first entry is done. *)
Record moved R Q v v1 (r : CopyRunner) (dd : QueueFileDescriptor) t t' (a : Z * Z)
    (fl : list (bool * list io_uring_sqe)) : Prop := {
  mv_this : t_this t' = t_this t;
  mv_own : own_change r (q_path dd) v v1;
  mv_open : kv_open v1 = kv_open v;
  mv_flight : kv_flight v1 = kv_flight v;
  mv_late : kv_late v1 = kv_late v;
  mv_ok : task_ok h0 v0 R Q v1 t';
  mv_left : t_flight t' = fl;
  mv_answers : t_answers t' = t_answers t ++ [a];
}.

Section one.
Context (R : gmap Z CopyRunner) (Q : gmap Z QueueFileDescriptor) (C : gmap Z piece) (v : kview)
  (t : task) (r : CopyRunner) (ds dd : QueueFileDescriptor).
Context (Hr : R !! t_this t = Some r) (Hp : runs_piece h0 J Q C (t_this t) r ds dd)
  (Ht : task_holds h0 v0 Q v t r ds dd) (Hfd : fds_match J Q v)
  (Hstill : kv_size v (q_path ds) = kv_size v0 (q_path ds) /\
            kv_file v (q_path ds) = kv_file v0 (q_path ds)).

Lemma task_chunk : chunk_ok (kv_size v0 (q_path ds)) r /\ fits h0 r.
Proof. apply (runs_chunk _ _ _ HJ _ _ _ _ _ _ Hp), (th_seat _ _ _ _ _ _ _ _ Ht). Qed.

Lemma task_fds :
  t_todo t <> AllDone ->
  (2 < q_fd ds < 2 ^ 31 /\ kv_open v !! q_fd ds = Some (q_path ds)) /\
  (2 < q_fd dd < 2 ^ 31 /\ kv_open v !! q_fd dd = Some (q_path dd)).
Proof.
  intros Hne. destruct (th_open _ _ _ _ _ _ _ _ Ht Hne) as [O1 O2].
  assert (forall p d, Q !! p = Some d -> 2 < q_fd d ->
    2 < q_fd d < 2 ^ 31 /\ kv_open v !! q_fd d = Some (q_path d)) as H.
  { intros p d Hd Ho. destruct (fm_open _ _ _ Hfd p d Hd) as [E|[E|E]]; [|  |done];
      rewrite E in Ho; done. }
  split; [by apply (H (sourceFd r)); [apply Ht|]|by apply (H (destFd r)); [apply Ht|]].
Qed.

(** The task with its promise one step on. *)
Lemma task_next td es pend v1 :
  own_change r (q_path dd) v v1 ->
  promise (kv_file v0 (q_path ds)) (kv_size v0 (q_path ds)) td r (buffer_view r v1)
    (seen v1 (kv_file v0 (q_path ds)) (q_path dd)) pend ->
  es = requests (t_this t) (q_fd ds) (q_fd dd) r td -> t_todo t <> AllDone ->
  task_ok h0 v0 R Q v1 (mk_task (t_this t) td es pend).
Proof.
  intros Ho Hpr -> Hne. destruct Ht as [H1 H2 H3 H4 H5 H6 H7].
  exists r, ds, dd. split; [done|]. split; try done. intros _. by apply H7.
Qed.

Lemma exec_read_ok e es res v1 :
  t_todo t = BothLeft -> t_es t = e :: es -> exec v e res v1 ->
  exists t', moved R Q v v1 r dd t t' (sqe_user_data e, res) (rest_of (severs e res) es).
Proof.
  intros Htd Hes Hex. destruct task_chunk as [Hck Hfit].
  destruct (task_fds ltac:(congruence)) as [(Hs & Ks) (Hd & Kd)].
  pose proof Ht as [H1 H2 H3 H4 H5 H6 H7]. rewrite Htd in H5, H6. rewrite Hes in H6.
  injection H6 as -> ->.
  destruct (promise_ends _ _ _ _ _ _ _ H5) as (more & _ & Hend' & _).
  destruct (read_asks _ _ _ _ _ _ (t_this t) _ _ Hck Hend' H4 Hfit (conj Hs Hd)) as (D1 & D2 & D3 & D4).
  destruct (asks_inside _ _ _ _ _ _ _ _ Hck Hend' H4 Hfit (conj Hs Hd)) as (A1 & A2 & A3 & A4 & A5 & A6).
  destruct H5 as [Hpend H5]. set (rd := read_entry _ _ _ _) in *. set (wr := write_entry _ _ _ _ _ _).
  assert (forall sev, severs rd res = sev ->
    own_change r (q_path dd) v v1 -> kv_open v1 = kv_open v -> kv_flight v1 = kv_flight v ->
    kv_late v1 = kv_late v ->
    write_promised (kv_file v0 (q_path ds)) sev r (buffer_view r v1)
      (seen v1 (kv_file v0 (q_path ds)) (q_path dd)) [(EvRead, res)] ->
    exists t', moved R Q v v1 r dd t t' (sqe_user_data rd, res) (rest_of (severs rd res) [wr])) as Hgo.
  { intros sev Hsev Hown E1 E2 E3 Hpr. exists (mk_task (t_this t) (WriteLeft sev) [wr] [(EvRead, res)]).
    split; try done.
    - by apply task_next; [| | |congruence].
    - by rewrite Hsev.
    - unfold t_answers. rewrite Hpend, D3. done. }
  unfold severs in *. rewrite D2, D4 in *. cbn [andb] in *.
  inversion Hex as [res' Hneg|fd addr n off p m Hdec Hopen Hm Hsz|fd addr n off p m Hdec|res' Hdec]; subst.
  - apply (Hgo true); try done; [by case_z; [lia|]|]. by apply H5, read_fails.
  - rewrite D1 in Hdec. injection Hdec as <- <- <- <-. rewrite Ks in Hopen. injection Hopen as <-.
    destruct Hstill as [Esz Efile]. rewrite Esz in Hsz.
    assert (negb (res =? read_len r) = (res <? read_len r)) as E by (do 2 case_z; done || lia).
    rewrite E in *. apply (Hgo (res <? read_len r)); try done.
    + split; try done; [|cbn; lia]. intros i Hi. cbn. unfold splice. destruct (_ && _) eqn:Hb; [|done]. bools. lia.
    + apply (promise_agree _ _ (WriteLeft (res <? read_len r)) r
        (splice (buffer_view r v) (readOffset r - offset r) res
          (fun k => kv_file v0 (q_path ds) (k + offset r))) _
        (seen v (kv_file v0 (q_path ds)) (q_path dd)) _ _ Hck); [|by intros k _|].
      * intros i Hi. unfold buffer_view. cbn. unfold splice. rewrite Efile.
        assert ((bufferAligned r + readOffset r - offset r <=? bufferAligned r + i) =
          (readOffset r - offset r <=? i)) as -> by (do 2 case_z; done || lia).
        assert ((bufferAligned r + i <? bufferAligned r + readOffset r - offset r + res) =
          (i <? readOffset r - offset r + res)) as -> by (do 2 case_z; done || lia).
        destruct (_ && _); [|done]. f_equal. lia.
      * apply H5. by apply read_returns.
  - by rewrite D1 in Hdec.
  - by rewrite D1 in Hdec.
Qed.

Lemma exec_write_ok e es res v1 :
  t_todo t = WriteLeft false -> t_es t = e :: es -> exec v e res v1 ->
  exists t', moved R Q v v1 r dd t t' (sqe_user_data e, res) (rest_of (severs e res) es).
Proof.
  intros Htd Hes Hex. destruct task_chunk as [Hck Hfit].
  destruct (task_fds ltac:(congruence)) as [(Hs & Ks) (Hd & Kd)].
  pose proof Ht as [H1 H2 H3 H4 H5 H6 H7]. rewrite Htd in H5, H6. rewrite Hes in H6.
  injection H6 as -> ->.
  destruct (promise_ends _ _ _ _ _ _ _ H5) as (more & _ & Hend' & _).
  destruct (write_asks _ _ _ _ _ _ (t_this t) _ _ Hck Hend' H4 Hfit (conj Hs Hd)) as (D1 & D2 & D3).
  destruct (asks_inside _ _ _ _ _ _ _ _ Hck Hend' H4 Hfit (conj Hs Hd)) as (A1 & A2 & A3 & A4 & A5 & A6).
  set (wr := write_entry _ _ _ _ _ _) in *. cbn [promise write_promised] in H5.
  assert (own_change r (q_path dd) v v1 -> kv_open v1 = kv_open v -> kv_flight v1 = kv_flight v ->
    kv_late v1 = kv_late v ->
    ends_well (kv_file v0 (q_path ds)) r (buffer_view r v1) (seen v1 (kv_file v0 (q_path ds)) (q_path dd))
      (t_pend t ++ [(EvWrite, res)]) ->
    exists t', moved R Q v v1 r dd t t' (sqe_user_data wr, res) (rest_of (severs wr res) [])) as Hgo.
  { intros Hown E1 E2 E3 Hpr. exists (mk_task (t_this t) AllDone [] (t_pend t ++ [(EvWrite, res)])).
    split; try done.
    - by apply task_next; [| | |congruence].
    - unfold t_answers. rewrite D3. cbn [t_pend t_this]. by rewrite fmap_app. }
  inversion Hex as [res' Hneg|fd addr n off p m Hdec|fd addr n off p m Hdec Hopen Hm|res' Hdec]; subst.
  - apply Hgo; try done. by apply H5, write_fails.
  - by rewrite D1 in Hdec.
  - rewrite D1 in Hdec. injection Hdec as <- <- <- <-. rewrite Kd in Hopen. injection Hopen as <-.
    destruct (write_rest (q_path dd) (writeOffset r) res
      (fun k => kv_mem v (k - writeOffset r + (bufferAligned r + writeOffset r - offset r))) v) as (W1 & W2 & W3 & W4).
    apply Hgo; try done.
    + apply write_own; lia.
    + eapply ends_agree; [| |apply H5, write_returns, Hm].
      * intros i _. unfold buffer_view. by rewrite W1.
      * intros k Hk Hright. apply write_seen; [lia|]. etrans; [|exact Hright]. unfold splice, buffer_view.
        destruct (_ && _); [|done]. f_equal. lia.
  - by rewrite D1 in Hdec.
Qed.

Lemma cancel_ok e es :
  t_todo t = WriteLeft true -> t_es t = e :: es ->
  exists t', moved R Q v v r dd t t' (sqe_user_data e, - ECANCELED) (rest_of (linked e) es).
Proof.
  intros Htd Hes. destruct task_chunk as [Hck Hfit].
  destruct (task_fds ltac:(congruence)) as [(Hs & Ks) (Hd & Kd)].
  pose proof Ht as [H1 H2 H3 H4 H5 H6 H7]. rewrite Htd in H5, H6. rewrite Hes in H6.
  injection H6 as -> ->.
  destruct (promise_ends _ _ _ _ _ _ _ H5) as (more & _ & Hend' & _).
  destruct (write_asks _ _ _ _ _ _ (t_this t) _ _ Hck Hend' H4 Hfit (conj Hs Hd)) as (D1 & D2 & D3).
  exists (mk_task (t_this t) AllDone [] (t_pend t ++ [(EvWrite, - ECANCELED)])). split; try done.
  - apply task_next; [apply own_change_refl| |done|congruence]. exact H5.
  - unfold t_answers. rewrite D3. cbn [t_pend t_this]. by rewrite fmap_app.
Qed.
End one.

(** ** Any of them *)

Definition in_flight v T : Prop := kv_flight v ≡ₚ T ≫= t_flight.
Definition answered (A : list (Z * Z)) T : Prop := A ≡ₚ T ≫= t_answers.

(** The books of a state of the kernel; [A]: the completions not handled. *)
Record books R Q C v (Tq Tk : list task) (A : list (Z * Z)) : Prop := {
  bk_tasks : tasks_ok h0 v0 R Q v Tq Tk;
  bk_files : files_kept h0 v0 J R C v;
  bk_fds : fds_match J Q v;
  bk_flight : in_flight v Tk;
  bk_answers : answered A Tk;
}.

(** Only files, memory and descriptors count. *)
Definition same_data v v' : Prop :=
  kv_file v' = kv_file v /\ kv_size v' = kv_size v /\ kv_mem v' = kv_mem v /\ kv_open v' = kv_open v.

Lemma task_same R Q v v' t : same_data v v' -> task_ok h0 v0 R Q v t -> task_ok h0 v0 R Q v' t.
Proof.
  intros (E1 & E2 & E3 & _) (r & ds & dd & Hr & [H1 H2 H3 H4 H5 H6 H7]). exists r, ds, dd.
  split; [done|]. split; try done. unfold buffer_view, seen. by rewrite E1, E2, E3.
Qed.

Lemma tasks_same R Q v v' Tq Tk :
  same_data v v' -> tasks_ok h0 v0 R Q v Tq Tk -> tasks_ok h0 v0 R Q v' Tq Tk.
Proof. intros E [B1 B2 B3 B4]. split; try done. intros t Ht. eapply task_same; [exact E|by apply B2]. Qed.

Lemma files_same R C v v' : same_data v v' -> files_kept h0 v0 J R C v -> files_kept h0 v0 J R C v'.
Proof.
  intros (E1 & E2 & _) [F1 F2]. split.
  - intros a p Ha Hn. unfold piece_copied, fits_size, seen. rewrite E1, E2. by apply (F1 a).
  - intros p. rewrite E1, E2. apply F2.
Qed.

Lemma fds_same Q v v' : same_data v v' -> fds_match J Q v -> fds_match J Q v'.
Proof.
  intros (_ & E2 & _ & E4) [D1 D2 D3]. split; [|done|].
  - intros p d. rewrite E4. apply D1.
  - unfold fits_size in *. rewrite E2. exact D3.
Qed.

Lemma books_same R Q C v v' Tq Tk A :
  same_data v v' -> kv_flight v' = kv_flight v -> books R Q C v Tq Tk A -> books R Q C v' Tq Tk A.
Proof.
  intros E Ef [B1 B2 B3 B4 B5]. split; [by eapply tasks_same|by eapply files_same|by eapply fds_same| |done].
  unfold in_flight. by rewrite Ef.
Qed.

Lemma moved_books R Q C v v1 T1 T2 Tq t t' r dd ds A a fl l1 x l2 :
  runners_ok h0 J R Q C -> books R Q C v Tq (T1 ++ t :: T2) A ->
  R !! t_this t = Some r -> runs_piece h0 J Q C (t_this t) r ds dd -> seated h0 r ->
  kv_flight v = l1 ++ x :: l2 -> t_flight t = [x] -> moved R Q v v1 r dd t t' a fl ->
  books R Q C (kv_set_flight (l1 ++ fl ++ l2) v1) Tq (T1 ++ t' :: T2) (A ++ [a]).
Proof.
  intros HR [[N1 N2 N3 N4] B2 [D1 D2 D3] B4 B5] Hr Hp Hst Hfl Hft [M1 M2 M3 M4 M5 M6 M7 M8].
  assert (t_this <$> Tq ++ T1 ++ t' :: T2 = t_this <$> Tq ++ T1 ++ t :: T2) as En
    by (rewrite !fmap_app, !fmap_cons; by rewrite M1).
  split.
  - split; rewrite ?En; try done. intros u Hu.
    assert (u = t' \/ u <> t' /\ u ∈ Tq ++ T1 ++ t :: T2 /\ t_this u <> t_this t) as [->|(Hne & Hin & Hth)].
    { rewrite !elem_of_app, elem_of_cons in Hu.
      destruct (decide (t_this u = t_this t)) as [E|E].
      - left. rewrite app_assoc, fmap_app, fmap_cons in N1. apply list.NoDup_app in N1 as (_ & N1 & N5).
        apply list.NoDup_cons in N5 as [N5 _].
        destruct Hu as [Hu|[Hu|[Hu|Hu]]]; [exfalso|exfalso|done|exfalso].
        + apply (N1 (t_this u)); [apply list_elem_of_fmap_2, elem_of_app; by left|rewrite E; by left].
        + apply (N1 (t_this u)); [apply list_elem_of_fmap_2, elem_of_app; by right|rewrite E; by left].
        + apply N5. rewrite <- E. by apply list_elem_of_fmap_2.
      - right. split; [congruence|]. split; [|done].
        rewrite !elem_of_app, elem_of_cons. destruct Hu as [Hu|[Hu|[->|Hu]]]; [tauto|tauto|congruence|tauto]. }
    + by eapply task_same, M6.
    + eapply (task_same R Q v1); [done|]. eapply other_task; [exact HJ|exact HR|exact Hr|done..|by apply N2].
  - eapply (files_same R C v1); [done|].
    eapply (own_files h0 v0 J HJ R Q C v v1); try done. apply Hst.
  - split; [|done|].
    + intros p d Hd. change (kv_open (kv_set_flight _ v1)) with (kv_open v1). rewrite M3. by apply (D1 p).
    + intros p d j Hd Ho Hop Hj Ed. change (fits_size v1 j).
      eapply (own_size h0 v0 J HJ Q C v v1); [exact Hp|apply Hst|exact M2|by eapply D3|done].
  - unfold in_flight in *. cbn [kv_flight kv_set_flight]. rewrite bind_app, bind_cons, M7.
    rewrite Hfl, bind_app, bind_cons, Hft in B4. 
    assert (l1 ++ l2 ≡ₚ (T1 ≫= t_flight) ++ (T2 ≫= t_flight)) as Hp2.
    { apply (Permutation_cons_inv (a := x)). rewrite Permutation_middle, B4. cbn. by rewrite Permutation_middle. }
    rewrite (Permutation_app_comm fl l2), app_assoc, Hp2, <- app_assoc.
    apply Permutation_app_head. by rewrite Permutation_app_comm.
  - unfold answered in *. rewrite bind_app, bind_cons, M8.
    rewrite B5, bind_app, bind_cons. rewrite <- !app_assoc.
    apply Permutation_app_head, Permutation_app_head. by rewrite Permutation_app_comm.
Qed.

(** The task behind an entry in flight. *)
Lemma flight_task v T l1 x l2 :
  in_flight v T -> kv_flight v = l1 ++ x :: l2 -> x.2 <> [] ->
  exists T1 t T2, T = T1 ++ t :: T2 /\ t_flight t = [x] /\ t_cut t = x.1 /\ t_es t = x.2.
Proof.
  intros Hf E Hne. assert (x ∈ T ≫= t_flight) as Hin.
  { unfold in_flight in Hf. rewrite <- Hf, E. apply elem_of_app. right. by left. }
  apply list_elem_of_bind in Hin as (t & Hx & Ht).
  apply list_elem_of_split in Ht as (T1 & T2 & ->). exists T1, t, T2. split; [done|].
  unfold t_flight, rest_of in *. destruct (t_es t); [by apply elem_of_nil in Hx|].
  apply list_elem_of_singleton in Hx as ->. done.
Qed.

Lemma kstep_ok R Q C v Tq Tk A a v1 :
  runners_ok h0 J R Q C -> books R Q C v Tq Tk A -> kstep v a v1 ->
  exists Tk', books R Q C v1 Tq Tk' (A ++ [a]) /\ kv_late v1 = kv_late v.
Proof.
  intros HR HB Hk.
  assert (forall l1 cut e es l2, kv_flight v = l1 ++ (cut, e :: es) :: l2 ->
    exists T1 t T2 r ds dd, Tk = T1 ++ t :: T2 /\ t_flight t = [(cut, e :: es)] /\ t_cut t = cut /\
      t_es t = e :: es /\ R !! t_this t = Some r /\ runs_piece h0 J Q C (t_this t) r ds dd /\
      task_holds h0 v0 Q v t r ds dd) as Hfind.
  { intros l1 cut e es l2 Hfl.
    destruct (flight_task v Tk _ _ _ (bk_flight _ _ _ _ _ _ _ HB) Hfl) as (T1 & t & T2 & -> & F1 & F2 & F3); [done|].
    destruct (tk_ok _ _ _ _ _ _ _ (bk_tasks _ _ _ _ _ _ _ HB) t) as (r & ds & dd & Hr & Ht);
      [rewrite !elem_of_app; right; right; by left|].
    destruct (rn_piece _ _ _ _ _ HR _ _ Hr) as (ds' & dd' & Hp).
    pose proof (rp_src _ _ _ _ _ _ _ _ Hp) as E1. pose proof (rp_dst _ _ _ _ _ _ _ _ Hp) as E2.
    assert (ds' = ds) as -> by (pose proof (th_src _ _ _ _ _ _ _ _ Ht); congruence).
    assert (dd' = dd) as -> by (pose proof (th_dst _ _ _ _ _ _ _ _ Ht); congruence).
    exists T1, t, T2, r, ds, dd. done. }
  assert (forall t r ds dd, runs_piece h0 J Q C (t_this t) r ds dd ->
    kv_size v (q_path ds) = kv_size v0 (q_path ds) /\ kv_file v (q_path ds) = kv_file v0 (q_path ds)) as Hst.
  { intros t r ds dd Hp. destruct (fk_still _ _ _ _ _ _ (bk_files _ _ _ _ _ _ _ HB) (q_path ds)) as [-> ->];
      [by eapply runs_source|done]. }
  destruct Hk as [v l1 l2 e es res v1 Hfl Hex|v l1 l2 e es Hfl].
  - destruct (Hfind _ _ _ _ _ Hfl) as (T1 & t & T2 & r & ds & dd & -> & F1 & F2 & F3 & Hr & Hp & Ht).
    assert (exists t', moved R Q v v1 r dd t t' (sqe_user_data e, res) (rest_of (severs e res) es)) as [t' Hm].
    { pose proof (th_es _ _ _ _ _ _ _ _ Ht) as He. unfold t_cut in F2. rewrite F3 in He.
      destruct (t_todo t) as [|[]|] eqn:Htd; [done|done| |].
      - eapply exec_write_ok; try done; [apply HB|by eapply Hst].
      - eapply exec_read_ok; try done; [apply HB|by eapply Hst]. }
    exists (T1 ++ t' :: T2). split; [|apply (mv_late _ _ _ _ _ _ _ _ _ _ Hm)].
    eapply moved_books; try done. apply Ht.
  - destruct (Hfind _ _ _ _ _ Hfl) as (T1 & t & T2 & r & ds & dd & -> & F1 & F2 & F3 & Hr & Hp & Ht).
    assert (exists t', moved R Q v v r dd t t' (sqe_user_data e, - ECANCELED) (rest_of (linked e) es)) as [t' Hm].
    { unfold t_cut in F2. destruct (t_todo t) as [|[]|] eqn:Htd; try done.
      eapply cancel_ok; try done. apply HB. }
    exists (T1 ++ t' :: T2). split; [|done]. eapply moved_books; try done. apply Ht.
Qed.

Lemma ksteps_ok R Q C v Tq Tk A l v1 :
  runners_ok h0 J R Q C -> books R Q C v Tq Tk A -> ksteps v l v1 ->
  exists Tk', books R Q C v1 Tq Tk' (A ++ l) /\ kv_late v1 = kv_late v.
Proof.
  intros HR HB Hs. revert A Tk HB. induction Hs as [v|v a v1 l v2 Hk Hs IH]; intros A Tk HB.
  - exists Tk. by rewrite app_nil_r.
  - destruct (kstep_ok _ _ _ _ _ _ _ _ _ HR HB Hk) as (T1 & HB1 & E1).
    destruct (IH _ _ HB1) as (T2 & HB2 & E2). exists T2. rewrite <- app_assoc in HB2.
    split; [done|congruence].
Qed.
End executing.
