(* ===== verification/Entering.v ===== *)
(** * The books across system calls

    What liburing does for the submit thread, submitting and looking at completions,
    keeps the books of the data, whatever the kernel does in the calls. *)

From stdpp Require Import gmap strings.
From S2P Require Import Prelude Abi Prep RingBuf Ring SqSpec CqSpec Kernel Queue QueueSpec Os Util Heap CopyState FileDesc Runner RunnerData RunnerLive RunnerSpec CopyQueue CopyJob Service Rounds Serving Completing Contents Promise Ledger Executing.

Section entering.
Context (h0 : Heap.heap) (v0 : kview) (J : list job) (HJ : jobs_ok h0 v0 J).
Context (Hbase : 0 < Heap.data h0)
  (Hend : Heap.data h0 + Heap.blocks h0 * Heap.blockSize h0 < 2 ^ 63).
Implicit Types (R : gmap Z CopyRunner) (Q : gmap Z QueueFileDescriptor) (C : gmap Z piece)
  (v : kview) (r : CopyRunner) (t : task) (T : list task) (rg : io_uring).

(** The completions to come, when [d] of those in the ring were handled. *)
Definition to_handle (d : nat) rg v : list (Z * Z) :=
  (answer_of <$> drop d (cq_contents (r_cq rg))) ++ kv_late v.

Record ring_kept R Q C (d : nat) rg v : Prop := {
  rk_ok : ring_ok rg;
  rk_handled : (d <= length (cq_contents (r_cq rg)))%nat;
  rk_books : exists Tq Tk,
    published (sq_abs (r_sq rg)) ++ acquired (sq_abs (r_sq rg)) = concat (t_es <$> Tq) /\
    books h0 v0 J R Q C v Tq Tk (to_handle d rg v);
}.

(** ** Chains *)

Lemma queued_chain R Q v Tq Tk t :
  tasks_ok h0 v0 R Q v Tq Tk -> t ∈ Tq ->
  chain_of (t_es t) /\ t_flight t = [(false, t_es t)] /\ t_answers t = [].
Proof.
  intros [_ N2 N3 _] Ht. destruct (N3 t Ht) as [Hp Htd].
  destruct (N2 t) as (r & ds & dd & _ & [_ _ _ _ _ He _]); [apply elem_of_app; by left|].
  assert (chain_of (t_es t) /\ t_cut t = false) as [Hc Hcut].
  { rewrite He. unfold t_cut. by destruct Htd as [-> | ->]. }
  split; [done|]. unfold t_flight, t_answers. rewrite Hcut, Hp. split; [|done].
  unfold rest_of. destruct (t_es t); [done|done].
Qed.

Lemma queued_flights R Q v Tq Tk Tq1 Tq2 :
  tasks_ok h0 v0 R Q v Tq Tk -> Tq = Tq1 ++ Tq2 ->
  Tq1 ≫= t_flight = pair false <$> (t_es <$> Tq1) /\ Tq1 ≫= t_answers = [].
Proof.
  intros HT ->. assert (forall t, t ∈ Tq1 -> t_flight t = [(false, t_es t)] /\ t_answers t = []) as H.
  { intros t Ht. destruct (queued_chain R Q v _ Tk t HT) as (_ & ? & ?); [apply elem_of_app; by left|done]. }
  clear HT. induction Tq1 as [|t T IH]; [done|]. rewrite !bind_cons, !fmap_cons.
  destruct (H t) as [-> ->]; [by left|]. destruct IH as [-> ->]; [|done].
  intros u Hu. apply H. by right.
Qed.

(** The kernel takes some requests from the ring. *)
Lemma books_taken R Q C v Tq1 Tq2 Tk A chs :
  books h0 v0 J R Q C v (Tq1 ++ Tq2) Tk A -> t_es <$> Tq1 = chs ->
  books h0 v0 J R Q C (kv_set_flight (kv_flight v ++ (pair false <$> chs)) v) Tq2 (Tk ++ Tq1) A.
Proof.
  intros [B1 B2 B3 B4 B5] <-.
  destruct (queued_flights _ _ _ _ _ Tq1 Tq2 B1 eq_refl) as [Ef Ea].
  assert ((Tq1 ++ Tq2) ++ Tk ≡ₚ Tq2 ++ Tk ++ Tq1) as Hp.
  { rewrite <- app_assoc. rewrite (Permutation_app_comm Tq1). by rewrite <- app_assoc. }
  split.
  - destruct B1 as [N1 N2 N3 N4]. eapply (tasks_same h0 v0 R Q v); [done|]. split.
    + by rewrite <- Hp.
    + intros t Ht. apply N2. by rewrite Hp.
    + intros t Ht. apply N3, elem_of_app. by right.
    + intros a r Ha Hb. rewrite <- Hp. by apply (N4 a r).
  - by eapply (files_same _ _ _ R C v).
  - by eapply (fds_same J Q v).
  - unfold in_flight in *. cbn [kv_flight kv_set_flight]. by rewrite bind_app, Ef, B4.
  - unfold answered in *. by rewrite bind_app, Ea, app_nil_r.
Qed.

Lemma serves_kept R Q C d n cs rg rg' v v' :
  runners_ok h0 J R Q C -> ring_kept R Q C d rg v -> kernel_serves n cs rg rg' v v' ->
  ring_kept R Q C d rg' v'.
Proof.
  intros HR [Hok Hd (Tq & Tk & Eq & HB)] (Hact & chs & posts & v1 & late & Htk & Hch & Hks & Epost & ->).
  destruct (kernel_acts_ok _ _ _ _ Hact Hok) as (Hok' & Hpub & Hacq & Hcont).
  assert (exists Tq2, t_es <$> Tq = chs ++ (t_es <$> Tq2) /\ exists Tq1, Tq = Tq1 ++ Tq2 /\ t_es <$> Tq1 = chs)
    as (Tq2 & _ & Tq1 & -> & Echs).
  { destruct (chains_prefix (t_es <$> Tq) chs
      (drop (Z.to_nat n) (published (sq_abs (r_sq rg))) ++ acquired (sq_abs (r_sq rg)))) as (A' & EA).
    - apply Forall_fmap, list.Forall_forall. intros t Ht. by destruct (queued_chain R Q v Tq Tk t (bk_tasks _ _ _ _ _ _ _ _ _ _ HB) Ht).
    - done.
    - by rewrite <- Eq, <- Htk, app_assoc, take_drop.
    - apply fmap_app_inv in EA as (Tq1 & Tq2 & -> & -> & ->). exists Tq2. split; [by rewrite fmap_app|].
      by exists Tq1. }
  assert (concat (t_es <$> Tq2) = published (sq_abs (r_sq rg')) ++ acquired (sq_abs (r_sq rg'))) as Eq2.
  { rewrite Hpub, Hacq. rewrite fmap_app, concat_app, Echs, <- Htk in Eq.
    rewrite <- (take_drop (Z.to_nat n) (published (sq_abs (r_sq rg)))) in Eq at 1.
    rewrite <- app_assoc in Eq. by apply app_inv_head in Eq. }
  pose proof (books_taken _ _ _ _ _ _ _ _ _ HB Echs) as HB1.
  destruct (ksteps_ok h0 v0 J HJ Hbase Hend _ _ _ _ _ _ _ _ _ HR HB1 Hks) as (Tk' & HB2 & El).
  cbn [kv_late kv_set_flight] in El. split; [done|rewrite Hcont, length_app; lia|].
  exists Tq2, Tk'. split; [done|].
  assert (to_handle d rg' (kv_set_late late v1) = to_handle d rg v ++ posts) as ->.
  { unfold to_handle. rewrite Hcont, drop_app_le, fmap_app by done. cbn [kv_late kv_set_late].
    rewrite <- !app_assoc. f_equal. by rewrite <- Epost. }
  by eapply books_same, HB2.
Qed.

(** Requests open and close nothing. *)
Lemma exec_open v e res v' : exec v e res v' -> kv_open v' = kv_open v.
Proof. destruct 1; try done. apply write_rest. Qed.

Lemma ksteps_open v l v' : ksteps v l v' -> kv_open v' = kv_open v.
Proof.
  induction 1 as [v|v a v1 l v2 Hs _ ->]; [done|]. destruct Hs as [v l1 l2 e es res v1 _ He|]; [|done].
  by apply exec_open in He.
Qed.

Lemma serves_open n cs rg rg' v v' : kernel_serves n cs rg rg' v v' -> kv_open v' = kv_open v.
Proof. intros (_ & chs & posts & v1 & late & _ & _ & Hk & _ & ->). by apply ksteps_open in Hk. Qed.

(** ** Completions *)

(** A completion not handled yet is that of a task. *)
Lemma answer_task R Q C v Tq Tk A ud res :
  runners_ok h0 J R Q C -> books h0 v0 J R Q C v Tq Tk A -> (ud, res) ∈ A ->
  exists T1 t T2 p1 ty p2, Tk = T1 ++ t :: T2 /\ t_pend t = p1 ++ (ty, res) :: p2 /\
    ud = event_addr (t_this t) ty /\ event_of ud = (t_this t, ty) /\ ud <> LIBURING_UDATA_TIMEOUT.
Proof.
  intros HR HB Hin. pose proof (bk_answers _ _ _ _ _ _ _ _ _ _ HB) as HA. unfold answered in HA.
  rewrite HA in Hin. apply list_elem_of_bind in Hin as (t & Hx & Ht).
  pose proof Ht as Hin. apply list_elem_of_split in Ht as (T1 & T2 & ->).
  unfold t_answers in Hx. apply list_elem_of_fmap in Hx as ([ty res'] & [= -> ->] & Hx).
  apply list_elem_of_split in Hx as (p1 & p2 & Ep).
  destruct (tk_ok _ _ _ _ _ _ _ (bk_tasks _ _ _ _ _ _ _ _ _ _ HB) t) as (r & ds & dd & Hr & _);
    [apply elem_of_app; by right|].
  destruct (event_of_addr (t_this t) ty (rn_addr _ _ _ _ _ HR _ _ Hr)) as [E1 E2].
  by exists T1, t, T2, p1, ty, p2.
Qed.

Lemma kept_no_timeout R Q C rg v :
  runners_ok h0 J R Q C -> ring_kept R Q C 0 rg v ->
  Forall (fun c => ~ is_timeout c) (cq_contents (r_cq rg)).
Proof.
  intros HR [_ _ (Tq & Tk & _ & HB)]. apply list.Forall_forall. intros c Hc E.
  destruct (answer_task _ _ _ _ _ _ _ (cqe_user_data c) (cqe_res c) HR HB) as (T1 & t & T2 & p1 & ty & p2 & _ & _ & _ & _ & Hne).
  - unfold to_handle. rewrite drop_0. apply elem_of_app. left.
    by apply (list_elem_of_fmap_2 answer_of _ c).
  - by apply Hne.
Qed.

(** ** liburing *)

Section calls.
Context {W : Type} {F : Files W} {K : Kernel W} {KL : KernelLaws W} {CV : Contents W} {CL : ContentLaws W}.
Context (R : gmap Z CopyRunner) (Q : gmap Z QueueFileDescriptor) (C : gmap Z piece)
  (fds : gmap Z string) (HR : runners_ok h0 J R Q C).
Implicit Types (s : ust W).

(** The books are in order, and these descriptors are open. *)
Definition kept s : Prop :=
  ring_kept R Q C 0 (u_ring s) (kview_of (u_world s)) /\ kv_open (kview_of (u_world s)) = fds.

Definition keeps_books {A} (m : prog (ust W) A) : Prop :=
  forall s a s', kept s -> m s = Ok (a, s') -> kept s'.

Lemma kb_bind {A B} (m : prog (ust W) A) (k : A -> prog (ust W) B) :
  keeps_books m -> (forall a, keeps_books (k a)) -> keeps_books (bind m k).
Proof.
  intros Hm Hk s b s' Hs H. apply bind_inv in H as (a & s1 & H1 & H2). by eapply Hk, H2; eapply Hm.
Qed.

Lemma kb_ret {A} (a : A) : keeps_books (ret a).
Proof. by intros s b s' Hs [= _ <-]. Qed.

Lemma kb_gets {A} (f : ust W -> A) : keeps_books (gets f).
Proof. by intros s b s' Hs [= _ <-]. Qed.

Lemma kb_nofuel {A} : keeps_books (A := A) no_fuel.
Proof. by intros s b s' Hs [=]. Qed.

Lemma kb_enter fd sub mn fl a sz : keeps_books (__sys_io_uring_enter2 fd sub mn fl a sz).
Proof.
  intros s v s' [Hs Ho] H. unfold __sys_io_uring_enter2 in H.
  destruct (sys_enter _ _ _ _ _ _ _ _) as [[[w r'] v'] e] eqn:He. injection H as <- <-.
  destruct (ct_enter _ _ _ _ _ _ _ _ _ _ _ _ He (rk_ok _ _ _ _ _ _ Hs)) as (n & cs & Hk).
  unfold kept. cbn [u_ring u_world]. split; [by eapply serves_kept|]. by rewrite (serves_open _ _ _ _ _ _ Hk).
Qed.

Lemma kb_flush : keeps_books flush_sq.
Proof.
  intros s v s' [[Hok Hd (Tq & Tk & Eq & HB)] Hf] H.
  destruct (flush_sq_run s Hok) as (q & H1 & H2 & H3 & _). rewrite H1 in H. injection H as <- <-.
  split; [|exact Hf]. split; [by split; [|apply Hok]|done|]. exists Tq, Tk. split; [|done].
  cbn [u_ring with_sq]. change (r_sq (set_sq q (u_ring s))) with q. rewrite H3. cbn [published acquired].
  by rewrite app_nil_r.
Qed.

Lemma kb_peek : keeps_books peek_cqe.
Proof.
  intros s v s' [Hs Hf] H. pose proof (kept_no_timeout R Q C _ _ HR Hs) as Hn. destruct Hs as [Hok Hd HB].
  destruct (peek_cqe_ok s Hok) as (err & p & av & q & H1 & H2 & H3).
  rewrite H1 in H. injection H as <- <-.
  assert (cq_contents q = cq_contents (r_cq (u_ring s))) as E.
  { unfold contents in H3. destruct (cq_contents (r_cq (u_ring s))) as [|c rest] eqn:Ec.
    - cbn in H3. by destruct H3 as (_ & _ & -> & _).
    - apply list.Forall_cons in Hn as [Hn _]. unfold is_timeout in Hn. cbn [peek_spec] in H3.
      destruct (Z.eqb_spec (cqe_user_data c) LIBURING_UDATA_TIMEOUT); [done|].
      by destruct H3 as (_ & _ & -> & _). }
  unfold kept. cbn [u_ring with_cq u_world]. split; [|exact Hf]. split; [by split; [apply Hok|]|apply Nat.le_0_l|].
  destruct HB as (Tq & Tk & Eq & HB). exists Tq, Tk. split; [done|].
  unfold to_handle in *. by change (r_cq (set_cq q (u_ring s))) with q; rewrite E.
Qed.

Lemma kb_get_cqe_enter x d c av fl : keeps_books (get_cqe_enter x d c av fl).
Proof.
  unfold get_cqe_enter. apply kb_bind; [apply kb_gets|]. intros rg. apply kb_bind.
  { destruct (_ || _ || _); [apply kb_enter|apply kb_ret]. }
  intros v. apply kb_bind; [apply kb_gets|]. intros e. apply kb_bind; [apply kb_gets|]. intros rg'.
  destruct (is_some c); [apply kb_ret|]. match goal with |- context [if ?b then _ else _] => destruct b end;
    apply kb_ret.
Qed.

Lemma kb_loop fuel w x d : keeps_books (get_cqe_loop fuel w x d).
Proof.
  revert x d. induction fuel as [|n IH]; intros x d; cbn [get_cqe_loop]; [apply kb_nofuel|].
  apply kb_bind; [|intros []; [apply kb_ret|apply IH]].
  unfold get_cqe_iter. apply kb_bind; [apply kb_peek|]. intros [[err c] av].
  destruct (negb _); [apply kb_ret|]. destruct (_ && _); [|apply kb_get_cqe_enter].
  apply kb_bind; [apply kb_gets|]. intros rg. destruct (negb _); [apply kb_ret|apply kb_get_cqe_enter].
Qed.

Lemma kb_submit : keeps_books io_uring_submit.
Proof.
  unfold io_uring_submit, __io_uring_submit_and_wait. apply kb_bind; [apply kb_flush|]. intros n.
  unfold __io_uring_submit. apply kb_bind; [apply kb_gets|]. intros rg.
  destruct (sq_ring_needs_enter rg 0) as [b fl]. destruct (_ || _); [|apply kb_ret].
  apply kb_bind; [apply kb_enter|]. intros v. destruct (v <? 0); [|apply kb_ret].
  apply kb_bind; [apply kb_gets|]. intros e. apply kb_ret.
Qed.

(** Looking at the completions hands out the oldest one. *)
Lemma peek_kept fuel s err p s' :
  kept s -> io_uring_peek_cqe fuel s = Ok ((err, p), s') ->
  kept s' /\ (err = 0 -> exists slot c rest, p = Some slot /\
    cq_contents (r_cq (u_ring s')) = c :: rest /\ zget (cq_cqes (r_cq (u_ring s'))) slot = Some c).
Proof.
  intros Hs H. split; [by eapply kb_loop|]. intros ->.
  pose proof (get_cqe_loop_sound fuel 0 0 (mk_get_data 0 0 0 NSIG_8 ArgNull) s) as Hl.
  unfold io_uring_peek_cqe, io_uring_wait_cqe_nr, __io_uring_get_cqe, _io_uring_get_cqe in H.
  change (s32 (gd_wait_nr (mk_get_data 0 0 0 NSIG_8 ArgNull))) with 0 in H. rewrite H in Hl.
  destruct Hl as (_ & Hh & Hp & _); [done|done|apply Hs|].
  destruct p as [slot|]; [|by destruct (Hp eq_refl)].
  destruct Hh as (_ & c & rest & Hc & _ & Hz). by exists slot, c, rest.
Qed.
End calls.
End entering.
