(* ===== verification/Keeping.v ===== *)
(** * The data of a queue, and its descriptors

    [queue_kept]: the state of a queue in which no byte went astray.  Opening a file
    keeps it, for the destination that is truncated has not been written yet, and so
    does closing one that no request is on. *)

From stdpp Require Import gmap strings.
From S2P Require Import Prelude Abi Prep RingBuf Ring SqSpec CqSpec Kernel Queue QueueSpec Os Util Heap CopyState FileDesc Runner RunnerData RunnerLive RunnerSpec CopyQueue CopyJob SubmitLoop Shape Service Rounds ServedFiles Serving Contents Promise Ledger Executing Entering.

(** ** What opening and closing do to the contents *)

Record open_effect (path : string) (oflag : Z) (v v' : kview) : Prop := {
  oe_mem : kv_mem v' = kv_mem v;
  oe_flight : kv_flight v' = kv_flight v;
  oe_late : kv_late v' = kv_late v;
  oe_files : forall p, p <> path \/ flag_set oflag O_TRUNC = false ->
    kv_file v' p = kv_file v p /\ kv_size v' p = kv_size v p;
}.

Lemma open_effect_refl path oflag v : open_effect path oflag v v.
Proof. by split. Qed.

Lemma open_effect_trans path oflag oflag' v1 v2 v3 :
  flag_set oflag' O_TRUNC = flag_set oflag O_TRUNC ->
  open_effect path oflag v1 v2 -> open_effect path oflag' v2 v3 -> open_effect path oflag v1 v3.
Proof.
  intros E [A1 A2 A3 A4] [B1 B2 B3 B4]. split; try congruence.
  intros p Hp. destruct (A4 p Hp) as [<- <-]. apply B4. by rewrite E.
Qed.

Lemma trunc_direct oflag : flag_set (Z.lxor oflag O_DIRECT) O_TRUNC = flag_set oflag O_TRUNC.
Proof.
  unfold flag_set. do 2 f_equal. apply Z.bits_inj'. intros i Hi.
  rewrite !Z.land_spec, Z.lxor_spec. destruct (Z.testbit O_TRUNC i) eqn:E; [|by rewrite !andb_false_r].
  assert (i = 9) as ->.
  { unfold O_TRUNC in E. change 512 with (2 ^ 9) in E. rewrite Z.pow2_bits_eqb in E by lia.
    apply Z.eqb_eq in E. lia. }
  change (Z.testbit O_DIRECT 9) with false. by rewrite xorb_false_r.
Qed.

Section effects.
Context {W : Type} {F : Files W} {K : Kernel W} {CV : Contents W} {CL : ContentLaws W}.

Lemma open_loop_contents n path oflag mode fd (s : ost W) fd' s' :
  open_loop n path oflag mode fd s = Ok (fd', s') -> fd < 0 ->
  let v := kview_of (o_world s) in let v' := kview_of (o_world s') in
  open_effect path oflag v v' /\
  ((fd' < 0 /\ kv_open v' = kv_open v) \/
   (2 < fd' < 2 ^ 31 /\ kv_open v !! fd' = None /\ kv_open v' = <[fd' := path]> (kv_open v))).
Proof.
  revert oflag fd s. induction n as [|n IH]; intros oflag fd s H Hfd; cbn [open_loop] in H.
  { injection H as <- <-. split; [apply open_effect_refl|by left]. }
  destruct (f_open (o_world s) path oflag mode) as [[w v] e] eqn:Hf.
  rewrite (bind_ok _ _ _ _ _ (sys_open_run _ _ _ _ _ _ _ Hf)) in H. unfold bind, errno, gets in H. cbn [o_errno] in H.
  pose proof (ct_open _ _ _ _ _ _ _ Hf) as (O1 & O2 & O3 & O4 & _ & O5).
  assert (open_effect path oflag (kview_of (o_world s)) (kview_of w)) as Ho by (by split).
  set (e1 := if v =? -1 then e else o_errno s) in H.
  assert (forall fl, flag_set fl O_TRUNC = flag_set oflag O_TRUNC -> v < 0 ->
    open_loop n path fl mode v (mk_ost w e1) = Ok (fd', s') ->
    let v := kview_of (o_world s) in let v' := kview_of (o_world s') in
    open_effect path oflag v v' /\
    ((fd' < 0 /\ kv_open v' = kv_open v) \/
     (2 < fd' < 2 ^ 31 /\ kv_open v !! fd' = None /\ kv_open v' = <[fd' := path]> (kv_open v)))) as Hgo.
  { intros fl Efl Hneg Hl. destruct (IH _ _ _ Hl Hneg) as [Ho2 Hf2]. cbn [o_world] in *.
    split; [by eapply open_effect_trans|].
    destruct O5 as [[_ E]|[? _]]; [|lia]. by rewrite E in Hf2. }
  destruct ((v <? 0) && flag_set oflag O_DIRECT && (e1 =? EINVAL)) eqn:E1.
  { bools. apply (Hgo (Z.lxor oflag O_DIRECT)); [apply trunc_direct|lia|done]. }
  destruct ((v <? 0) && ((e1 =? EINTR) || (e1 =? EAGAIN))) eqn:E2.
  { apply andb_prop in E2 as [E2 _]. apply Z.ltb_lt in E2. by apply (Hgo oflag). }
  injection H as <- <-. cbn [o_world]. split; [done|]. destruct O5 as [[? ?]|(? & ? & ?)]; [by left|by right].
Qed.

Lemma myOpen_view path oflag mode (s : ost W) x s' :
  myOpen path oflag mode s = Ok (x, s') ->
  let v := kview_of (o_world s) in let v' := kview_of (o_world s') in
  open_effect path oflag v v' /\
  match x with
  | inl _ => kv_open v' = kv_open v
  | inr fd => 2 < fd < 2 ^ 31 /\ kv_open v !! fd = None /\ kv_open v' = <[fd := path]> (kv_open v)
  end.
Proof.
  rewrite myOpen_eq. destruct (open_loop _ _ _ _ _ _) as [[fd s1]| |] eqn:Hl; [|done..].
  destruct (open_loop_contents _ _ _ _ _ _ _ _ Hl) as [Ho Hf]; [done|]. cbv zeta in *.
  destruct (Z.ltb_spec fd 0); intros [= <- <-]; (split; [done|]); destruct Hf as [[? ?]|(? & ? & ?)]; done || lia.
Qed.

(** A file opened to be truncated is empty. *)
Lemma open_loop_truncates n path oflag mode fd (s : ost W) fd' s' :
  open_loop n path oflag mode fd s = Ok (fd', s') -> fd < 0 -> 0 <= fd' ->
  flag_set oflag O_TRUNC = true -> kv_size (kview_of (o_world s')) path = 0.
Proof.
  revert oflag fd s. induction n as [|n IH]; intros oflag fd s H Hfd Hfd' Ht; cbn [open_loop] in H.
  { injection H as <- <-. lia. }
  destruct (f_open (o_world s) path oflag mode) as [[w v] e] eqn:Hf.
  rewrite (bind_ok _ _ _ _ _ (sys_open_run _ _ _ _ _ _ _ Hf)) in H. unfold bind, errno, gets in H. cbn [o_errno] in H.
  pose proof (ct_open _ _ _ _ _ _ _ Hf) as (_ & _ & _ & _ & O5 & _).
  set (e1 := if v =? -1 then e else o_errno s) in H.
  destruct ((v <? 0) && flag_set oflag O_DIRECT && (e1 =? EINVAL)) eqn:E1.
  { bools. eapply IH; [exact H|lia|done|]. by rewrite trunc_direct. }
  destruct ((v <? 0) && ((e1 =? EINTR) || (e1 =? EAGAIN))) eqn:E2.
  { apply andb_prop in E2 as [E2 _]. apply Z.ltb_lt in E2. eapply IH; [exact H|lia|done|done]. }
  injection H as <- <-. by apply O5.
Qed.

Lemma myOpen_truncates path oflag mode (s : ost W) fd s' :
  myOpen path oflag mode s = Ok (inr fd, s') -> flag_set oflag O_TRUNC = true ->
  kv_size (kview_of (o_world s')) path = 0.
Proof.
  rewrite myOpen_eq. destruct (open_loop _ _ _ _ _ _) as [[fd1 s1]| |] eqn:Hl; [|done..].
  destruct (Z.ltb_spec fd1 0); [done|]. intros [= <- <-]. by eapply open_loop_truncates.
Qed.

Lemma myClose_view fd (s : ost W) x s' :
  myClose fd s = Ok (x, s') ->
  kview_of (o_world s') = kv_set_open (delete fd (kv_open (kview_of (o_world s)))) (kview_of (o_world s)).
Proof.
  unfold myClose, sys_close, syscall, bind. destruct (f_close _ _) as [[w v] e] eqn:Hc.
  apply ct_close in Hc. by destruct (v <? 0); intros [= _ <-].
Qed.
End effects.

(** ** The state *)

Lemma flags_differ : src_flags <> dest_flags.
Proof. by vm_compute. Qed.

Lemma src_keeps : flag_set src_flags O_TRUNC = false.
Proof. done. Qed.

Section keeping.
Context {W : Type} {F : Files W} {K : Kernel W} {CV : Contents W} {CL : ContentLaws W}.
Context (h0 : Heap.heap) (v0 : kview) (J : list job) (HJ : jobs_ok h0 v0 J).
Implicit Types (q : queue W) (r : CopyRunner) (C : gmap Z piece) (t : task).

Definition qview q : kview := kview_of (world q).

(** Nothing of the piece was written, and nothing is under way. *)
Definition untouched r : Prop := writeOffset r = offset r /\ jobsRunning r = 0.

Record queue_kept C (d : nat) q : Prop := {
  qk_runners : runners_ok h0 J (qu_runners q) (qu_qfds q) C;
  qk_ring : ring_kept h0 v0 J (qu_runners q) (qu_qfds q) C d (qu_ring q) (qview q);
  qk_roles : forall p f, qu_qfds q !! p = Some f ->
    q_oflag f = src_flags /\ no_dest J (q_path f) \/ q_oflag f = dest_flags /\ ~ no_dest J (q_path f);
  qk_dests : forall p p' f f', qu_qfds q !! p = Some f -> qu_qfds q !! p' = Some f' ->
    q_oflag f = dest_flags -> q_oflag f' = dest_flags -> q_path f = q_path f' -> p = p';
  qk_unopened : forall p f, qu_qfds q !! p = Some f -> q_oflag f = dest_flags ->
    q_fd f = NEVER_OPENED_VAL -> forall a x jb o n al, C !! a = Some x ->
    piece_is h0 J x jb o n al -> job_dst jb = q_path f ->
    exists r, qu_runners q !! a = Some r /\ untouched r;
}.

(** The invariant reads only some of the queue. *)
Lemma queue_kept_same C d q q' :
  qu_runners q' = qu_runners q -> qu_qfds q' = qu_qfds q -> qu_ring q' = qu_ring q ->
  qview q' = qview q -> queue_kept C d q -> queue_kept C d q'.
Proof. intros E1 E2 E3 E4 [K1 K2 K3 K4 K5]. split; rewrite ?E1, ?E2, ?E3, ?E4; done. Qed.

(** The parts of a state a proof starts from. *)
Lemma kept_books C d q :
  queue_kept C d q -> exists Tq Tk,
    published (sq_abs (r_sq (qu_ring q))) ++ acquired (sq_abs (r_sq (qu_ring q))) = concat (t_es <$> Tq) /\
    books h0 v0 J (qu_runners q) (qu_qfds q) C (qview q) Tq Tk (to_handle d (qu_ring q) (qview q)).
Proof. intros [_ [_ _ H] _ _ _]. exact H. Qed.

(** A state with other descriptors or contents: the rings are the same, and so are
    the tasks. *)
Lemma ring_rebooks C d q R' Q' v' :
  queue_kept C d q -> kv_late v' = kv_late (qview q) -> kv_flight v' = kv_flight (qview q) ->
  (forall Tq Tk, tasks_ok h0 v0 (qu_runners q) (qu_qfds q) (qview q) Tq Tk -> tasks_ok h0 v0 R' Q' v' Tq Tk) ->
  files_kept h0 v0 J R' C v' -> fds_match J Q' v' ->
  ring_kept h0 v0 J R' Q' C d (qu_ring q) v'.
Proof.
  intros [_ [Hok Hd (Tq & Tk & Eq & [B1 B2 B3 B4 B5])] _ _ _] El Ef Ht Hf Hfd.
  split; [done|done|]. exists Tq, Tk. split; [done|]. split; [by apply Ht|done|done| |].
  - unfold in_flight. by rewrite Ef.
  - unfold to_handle in *. by rewrite El.
Qed.

Lemma kept_files C d q : queue_kept C d q -> files_kept h0 v0 J (qu_runners q) C (qview q).
Proof. intros (Tq & Tk & _ & [])%kept_books. done. Qed.

Lemma kept_fds C d q : queue_kept C d q -> fds_match J (qu_qfds q) (qview q).
Proof. intros (Tq & Tk & _ & [])%kept_books. done. Qed.

(** The same files behind the same pointers. *)
Definition file_of (f : QueueFileDescriptor) : string * Z := (q_path f, q_oflag f).
Definition same_files (Q Q' : gmap Z QueueFileDescriptor) : Prop :=
  forall p, file_of <$> Q' !! p = file_of <$> Q !! p.

Lemma same_files_get Q Q' p f :
  same_files Q Q' -> Q !! p = Some f ->
  exists f', Q' !! p = Some f' /\ q_path f' = q_path f /\ q_oflag f' = q_oflag f.
Proof.
  intros HQ Hf. specialize (HQ p). rewrite Hf in HQ. destruct (Q' !! p) as [f'|]; [|done].
  exists f'. by injection HQ.
Qed.

Lemma same_files_sym Q Q' : same_files Q Q' -> same_files Q' Q.
Proof. intros H p. by rewrite H. Qed.

Lemma same_files_set Q p f f' :
  Q !! p = Some f -> q_path f' = q_path f -> q_oflag f' = q_oflag f -> same_files Q (<[p := f']> Q).
Proof.
  intros Hf E1 E2 p'. destruct (decide (p = p')) as [<-|Hne].
  - rewrite lookup_insert_eq, Hf. cbn. unfold file_of. by rewrite E1, E2.
  - by rewrite lookup_insert_ne.
Qed.

(** Tasks do not mind a change of descriptors not in use. *)
Lemma task_new_fds R Q Q' v t :
  same_files Q Q' ->
  (forall r p, R !! t_this t = Some r -> t_todo t <> AllDone -> p = sourceFd r \/ p = destFd r ->
     Q' !! p = Q !! p) ->
  task_ok h0 v0 R Q v t -> task_ok h0 v0 R Q' v t.
Proof.
  intros HQ Hsame (r & ds & dd & Hr & [H1 H2 H3 H4 H5 H6 H7]).
  destruct (same_files_get _ _ _ _ HQ H1) as (ds' & H1' & E1 & _).
  destruct (same_files_get _ _ _ _ HQ H2) as (dd' & H2' & E2 & _).
  exists r, ds', dd'. split; [done|].
  assert (t_todo t = AllDone \/ ds' = ds /\ dd' = dd) as Hd.
  { destruct (t_todo t) eqn:E; [by left|right..];
      rewrite (Hsame r (sourceFd r)) in H1' by (done || by left);
      rewrite (Hsame r (destFd r)) in H2' by (done || by right); split; congruence. }
  split; try done.
  - by rewrite E1, E2.
  - rewrite H6. by destruct Hd as [-> |[-> ->]].
  - intros Hne. destruct Hd as [?|[-> ->]]; [done|by apply H7].
Qed.

(** Nor a change of files that are not theirs, or that they have not written to. *)
Lemma task_new_view R Q v v' t :
  kv_mem v' = kv_mem v ->
  (forall r dd, R !! t_this t = Some r -> Q !! destFd r = Some dd ->
     kv_file v' (q_path dd) = kv_file v (q_path dd) /\ kv_size v' (q_path dd) = kv_size v (q_path dd) \/
     untouched r) ->
  task_ok h0 v0 R Q v t -> task_ok h0 v0 R Q v' t.
Proof.
  intros Em Hf (r & ds & dd & Hr & [H1 H2 H3 H4 H5 H6 H7]). exists r, ds, dd. split; [done|].
  split; try done. unfold buffer_view, seen in *. rewrite Em.
  destruct (Hf r dd Hr H2) as [[-> ->] |[Hw Hj]]; [done|].
  destruct (promise_idle _ _ _ _ _ _ _ H5 Hj) as (-> & -> & He). by eapply unwritten_dst.
Qed.

Lemma runners_new_fds R Q Q' C : same_files Q Q' -> runners_ok h0 J R Q C -> runners_ok h0 J R Q' C.
Proof.
  intros HQ [R1 R2 R3 R4 R5 R6]. split; try done. intros a r Ha.
  destruct (R3 a r Ha) as (ds & dd & [P1 P2 [P3 P4] (p & jb & P5 & P6 & P7 & P8)]).
  destruct (same_files_get _ _ _ _ HQ P1) as (ds' & H1' & E1 & E2).
  destruct (same_files_get _ _ _ _ HQ P2) as (dd' & H2' & E3 & E4).
  exists ds', dd'. split; try congruence; [split; congruence|]. exists p, jb. split_and!; try done; congruence.
Qed.

(** The task of a runner with a buffer. *)
Lemma task_runs R Q C v t r :
  runners_ok h0 J R Q C -> task_ok h0 v0 R Q v t -> R !! t_this t = Some r ->
  exists ds dd, runs_piece h0 J Q C (t_this t) r ds dd /\ task_holds h0 v0 Q v t r ds dd.
Proof.
  intros HR (r' & ds & dd & Hr' & Ht) Hr. assert (r' = r) as -> by congruence.
  destruct (rn_piece _ _ _ _ _ HR _ _ Hr) as (ds' & dd' & Hp). exists ds, dd. split; [|done].
  pose proof (rp_src _ _ _ _ _ _ _ _ Hp). pose proof (rp_dst _ _ _ _ _ _ _ _ Hp).
  pose proof (th_src _ _ _ _ _ _ _ _ Ht). pose proof (th_dst _ _ _ _ _ _ _ _ Ht).
  assert (ds' = ds) as -> by congruence. assert (dd' = dd) as -> by congruence. done.
Qed.

(** ** Opening *)

Lemma opened_kept C d q p f md o x :
  queue_kept C d q -> qu_qfds q !! p = Some f -> q_fd f = NEVER_OPENED_VAL ->
  myOpen (q_path f) (q_oflag f) md (qu_os q) = Ok (x, o) ->
  let f' := match x with inl _ => f | inr fd => qfd_set_fd fd f end in
  queue_kept C d (set_qfds (<[p := f']> (qu_qfds q)) (set_os o q)).
Proof.
  intros HK Hf Hnev Ho f'. destruct (myOpen_view _ _ _ _ _ _ Ho) as [[O1 O2 O3 O4] Hx]. cbv zeta in *.
  change (kview_of (o_world (qu_os q))) with (qview q) in *.
  pose proof HK as [K1 K2 K3 K4 K5]. pose proof (kept_files _ _ _ HK) as [F1 F2].
  pose proof (kept_fds _ _ _ HK) as [D1 D2 D3].
  set (q' := set_qfds _ _). change (kview_of (o_world o)) with (qview q') in *.
  assert (q_path f' = q_path f /\ q_oflag f' = q_oflag f) as [Ep Eo] by (by destruct x).
  pose proof (same_files_set (qu_qfds q) p f f' Hf Ep Eo) as HQ.
  assert (forall pa, kv_file (qview q') pa = kv_file (qview q) pa /\ kv_size (qview q') pa = kv_size (qview q) pa \/
    pa = q_path f /\ q_oflag f = dest_flags /\ ~ no_dest J (q_path f)) as Hpath.
  { intros pa. destruct (decide (pa = q_path f)) as [->|Hne]; [|left; apply O4; by left].
    destruct (K3 p f Hf) as [[Hfl _]|[? ?]]; [|by right]. left. apply O4. right. by rewrite Hfl. }
  assert (forall p0 f0, <[p := f']> (qu_qfds q) !! p0 = Some f0 ->
    exists f1, qu_qfds q !! p0 = Some f1 /\ q_path f0 = q_path f1 /\ q_oflag f0 = q_oflag f1 /\
      (p0 = p /\ f0 = f' \/ p0 <> p /\ f0 = f1)) as Hback.
  { intros p0 f0 H0. apply lookup_insert_Some in H0 as [[<- <-]|[Hne H0]];
      [exists f; split_and!; try done; by left|exists f0; split_and!; try done; by right]. }
  split.
  - by eapply runners_new_fds.
  - apply (ring_rebooks C d q _ _ _ HK O3 O2).
    + intros Tq Tk [N1 N2 N3 N4]. split; try done. intros t Ht. specialize (N2 t Ht).
      assert (task_ok h0 v0 (qu_runners q) (qu_qfds q) (qview q') t) as N2'.
      { eapply task_new_view; [exact O1| |exact N2]. intros r dd Hr Hdd.
        destruct (Hpath (q_path dd)) as [?|(E & Hfl & _)]; [by left|right].
        destruct (task_runs _ _ _ _ _ _ K1 N2 Hr) as (ds' & dd' & [_ P2 _ (x0 & jb & P5 & P6 & _ & P8)] & _).
        assert (dd' = dd) as -> by congruence.
        destruct (K5 p f Hf Hfl Hnev _ _ _ _ _ _ P5 P6) as (r' & Hr' & Hu); [congruence|].
        by assert (r' = r) as <- by congruence. }
      eapply task_new_fds; [exact HQ| |exact N2'].
      intros r p' Hr Htd Hp'. change (qu_qfds q') with (<[p := f']> (qu_qfds q)).
      rewrite lookup_insert_ne; [done|]. intros ->.
      destruct (task_runs _ _ _ _ _ _ K1 N2 Hr) as (ds & dd & _ & Ht').
      destruct (th_open _ _ _ _ _ _ _ _ Ht' Htd). pose proof (th_src _ _ _ _ _ _ _ _ Ht').
      pose proof (th_dst _ _ _ _ _ _ _ _ Ht'). unfold NEVER_OPENED_VAL in Hnev.
      destruct Hp' as [-> | ->]; [assert (ds = f) as -> by congruence|assert (dd = f) as -> by congruence]; lia.
    + split.
      * intros a x0 Ha Hn jb o' n al Hp. specialize (F1 a x0 Ha Hn jb o' n al Hp).
        unfold fits_size, seen in *. destruct (Hpath (job_dst jb)) as [[-> ->]|(E & Hfl & _)]; [done|exfalso].
        destruct (K5 p f Hf Hfl Hnev _ _ _ _ _ _ Ha Hp E) as (r & Hr & _).
        change (qu_runners q !! a = None) in Hn. congruence.
      * intros pa Hnd. destruct (Hpath pa) as [[-> ->]|(-> & _ & ?)]; [by apply F2|done].
    + split.
      * intros p0 f0 H0. destruct (Hback p0 f0 H0) as (f1 & H1 & _ & _ & [[-> ->]|[Hne ->]]).
        -- destruct x as [e|fd]; [by left|right; right]. destruct Hx as (R1 & _ & ->).
           split; [done|]. apply lookup_insert_eq.
        -- destruct (D1 p0 f1 H1) as [?|[?|[? Hop]]]; [by left|right; by left|right; right].
           split; [done|]. destruct x as [e|fd]; [by rewrite Hx|]. destruct Hx as (_ & R2 & ->).
           rewrite lookup_insert_ne; [done|]. intros ->. congruence.
      * assert (forall p0 f0, qu_qfds q !! p0 = Some f0 -> 2 < q_fd f0 -> q_fd f0 <> q_fd f') as Hnew.
        { intros p0 f0 H0 Hlt E. destruct (D1 p0 f0 H0) as [E1|[E1|[_ Hop]]]; [rewrite E1 in Hlt; done..|].
          destruct x as [e|fd]; unfold f' in E; cbn in E.
          - rewrite Hnev in E. unfold NEVER_OPENED_VAL in E. lia.
          - destruct Hx as (_ & R2 & _). congruence. }
        intros p0 p1 f0 f1 H0 H1 Hlt E.
        destruct (Hback p0 f0 H0) as (g0 & G0 & _ & _ & [[-> ->]|[Hne0 ->]]),
          (Hback p1 f1 H1) as (g1 & G1 & _ & _ & [[-> ->]|[Hne1 ->]]); [done| | |by eapply D2].
        -- exfalso. apply (Hnew p1 g1 G1); congruence.
        -- exfalso. by apply (Hnew p0 g0 G0).
      * intros p0 f0 j H0. destruct (Hback p0 f0 H0) as (f1 & H1 & E1 & E2 & Hcase). intros Hfl Hop Hj Ed.
        destruct Hcase as [[-> ->]|[Hne ->]].
        -- destruct x as [e|fd]; [done|]. pose proof (myOpen_truncates _ _ _ _ _ _ Ho) as Ht.
           change (kview_of (o_world o)) with (qview q') in Ht. rewrite Eo in Hfl. rewrite Hfl in Ht. unfold fits_size. rewrite Ed, Ep.
           rewrite (Ht eq_refl). pose proof (plannable_size _ _ (jb_plan _ _ _ HJ j Hj)). lia.
        -- destruct (Hpath (job_dst j)) as [[_ E]|(E & Hfl' & _)].
           ++ unfold fits_size. rewrite E. by apply (D3 p0 f1).
           ++ exfalso. apply Hne. eapply K4; [exact H1|exact Hf|done..|]. congruence.
  - intros p0 f0 H0. destruct (Hback p0 f0 H0) as (f1 & H1 & -> & -> & _). by apply (K3 p0).
  - intros p0 p1 f0 f1 H0 H1. destruct (Hback p0 f0 H0) as (g0 & G0 & -> & -> & _),
      (Hback p1 f1 H1) as (g1 & G1 & -> & -> & _). by apply K4.
  - intros p0 f0 H0. destruct (Hback p0 f0 H0) as (f1 & H1 & -> & -> & [[-> ->]|[Hne ->]]);
      [|by apply (K5 p0)]. intros Hfl Hn.
    assert (f1 = f) as -> by congruence. destruct x as [e|fd]; [exact (K5 p f Hf Hfl Hnev)|].
    unfold f' in Hn. cbn in Hn. destruct Hx as (? & _). unfold NEVER_OPENED_VAL in Hn. lia.
Qed.
End keeping.
