(* ===== verification/KeptFiles.v ===== *)
(** * Opening and closing the files of a queue

    The operations on queue descriptors, and the destructor of a runner, as far as the
    data is concerned. *)

From stdpp Require Import gmap strings.
From S2P Require Import Prelude Abi Prep RingBuf Ring SqSpec CqSpec Kernel Queue QueueSpec Os Util Heap CopyState FileDesc Runner RunnerData RunnerLive RunnerSpec CopyQueue CopyJob SubmitLoop Shape Accounts System Service Rounds ServedFiles Serving Contents Promise Ledger Executing Entering Keeping.

Section files.
Context {W : Type} {F : Files W} {K : Kernel W} {CV : Contents W} {CL : ContentLaws W}.
Context (h0 : Heap.heap) (v0 : kview) (J : list job) (HJ : jobs_ok h0 v0 J).
Implicit Types (q : queue W) (r : CopyRunner) (C : gmap Z piece) (t : task).

(** ** Opening *)

Lemma doOpen_kept C d q p f res q' :
  queue_kept h0 v0 J C d q -> qu_qfds q !! p = Some f -> q_fd f = NEVER_OPENED_VAL ->
  doOpen p q = Ok (res, q') ->
  queue_kept h0 v0 J C d q' /\ same_but_files q q' /\
  exists f', qu_qfds q' = <[p := f']> (qu_qfds q) /\ q_path f' = q_path f /\ q_oflag f' = q_oflag f /\
    (res = None -> 2 < q_fd f').
Proof.
  intros HK Hf Hnev H. unfold doOpen in H. rewrite (bind_ok _ _ _ _ _ (get_qfd_ok _ _ _ Hf)) in H.
  apply bind_inv in H as (x & q1 & Hx & H). unfold with_os in Hx.
  destruct (myOpen _ _ _ _) as [[y o]| |] eqn:Hm; [|done..]. injection Hx as <- <-.
  pose proof (opened_kept h0 v0 J HJ C d q p f _ o y HK Hf Hnev Hm) as HK'. cbv zeta in HK'.
  destruct (myOpen_view _ _ _ _ _ _ Hm) as [_ Hy]. cbv zeta in Hy.
  destruct y as [e|fd]; injection H as <- <-.
  - assert (set_qfds (<[p := f]> (qu_qfds q)) (set_os o q) = set_os o q) as E.
    { rewrite insert_id by done. by destruct q. }
    rewrite E in HK'. split; [done|]. split; [done|]. exists f. cbn. by rewrite insert_id.
  - split; [exact HK'|]. split; [done|]. exists (qfd_set_fd fd f). split_and!; try done. cbn. intros _. lia.
Qed.

Lemma ensure_kept C d fuel q p q' :
  queue_kept h0 v0 J C d q -> ensureOpened fuel p q = Ok (None, q') ->
  queue_kept h0 v0 J C d q' /\ same_but_files q q' /\
  exists f f', qu_qfds q !! p = Some f /\ qu_qfds q' = <[p := f']> (qu_qfds q) /\
    q_path f' = q_path f /\ q_oflag f' = q_oflag f /\ 2 < q_fd f' /\ (2 < q_fd f -> f' = f).
Proof.
  intros HK H. unfold ensureOpened in H. apply bind_inv in H as (f & q1 & Hd & H).
  apply deref_inv in Hd as [Hf ->]. apply bind_inv in H as ([] & q1 & Ha & H).
  apply assert_inv in Ha as [Ha ->]. destruct (Z.eqb_spec (q_fd f) NEVER_OPENED_VAL) as [Hn|Hn].
  - apply bind_inv in H as (u & q1 & Hr & H). apply reserve_loop_inv in Hr as (n & ->).
    assert (queue_kept h0 v0 J C d (set_fdsUsed n q)) as HK1 by (by eapply queue_kept_same, HK).
    destruct (doOpen_kept C d (set_fdsUsed n q) p f None q' HK1 Hf Hn H) as (HK' & Hs & f' & E & E1 & E2 & E3).
    split; [done|]. split; [exact Hs|]. exists f, f'. split_and!; try done; [by apply E3|].
    rewrite Hn. unfold NEVER_OPENED_VAL. lia.
  - injection H as <-. split; [done|]. split; [done|]. exists f, f. rewrite insert_id by done.
    split_and!; try done. destruct (fm_open _ _ _ (kept_fds _ _ _ _ _ _ HK) p f Hf) as [E|[E|[E _]]]; [done| |lia].
    rewrite E in Ha. done.
Qed.

(** ** Closing *)

Lemma closed_kept C d q p f o n x :
  queue_kept h0 v0 J C d q -> qu_qfds q !! p = Some f -> 2 < q_fd f ->
  myClose (q_fd f) (qu_os q) = Ok (x, o) ->
  (forall a r, qu_runners q !! a = Some r -> sourceFd r = p \/ destFd r = p -> jobsRunning r = 0) ->
  queue_kept h0 v0 J C d (set_fdsUsed n (set_qfds (<[p := qfd_set_fd CLOSED_VAL f]> (qu_qfds q)) (set_os o q))).
Proof.
  intros HK Hf Hfd Hc Hidle. pose proof (myClose_view _ _ _ _ Hc) as Ev.
  change (kview_of (o_world (qu_os q))) with (qview q) in Ev.
  pose proof HK as [K1 K2 K3 K4 K5]. pose proof (kept_files _ _ _ _ _ _ HK) as Hfiles.
  pose proof (kept_fds _ _ _ _ _ _ HK) as [D1 D2 D3].
  set (f' := qfd_set_fd CLOSED_VAL f). set (q' := set_fdsUsed _ _).
  change (kview_of (o_world o)) with (qview q') in Ev.
  pose proof (same_files_set (qu_qfds q) p f f' Hf eq_refl eq_refl) as HQ.
  assert (same_data (kv_set_open (kv_open (qview q')) (qview q)) (qview q')) as Hsame by (by rewrite Ev).
  assert (forall p0 f0, qu_qfds q' !! p0 = Some f0 ->
    p = p0 /\ f' = f0 \/ p <> p0 /\ qu_qfds q !! p0 = Some f0) as Hback
    by (intros p0 f0; apply lookup_insert_Some).
  split.
  - by eapply runners_new_fds.
  - apply (ring_rebooks h0 v0 J C d q _ _ _ HK); [by rewrite Ev..| | |].
    + intros Tq Tk [N1 N2 N3 N4]. split; try done. intros t Ht. specialize (N2 t Ht).
      assert (task_ok h0 v0 (qu_runners q) (qu_qfds q) (qview q') t) as N2'
        by (eapply (task_new_view _ _ _ _ (qview q)); [by rewrite Ev| |exact N2]; intros r dd _ _; left; by rewrite Ev).
      eapply task_new_fds; [exact HQ| |exact N2']. intros r p' Hr Htd Hp'.
      change (qu_qfds q') with (<[p := f']> (qu_qfds q)). rewrite lookup_insert_ne; [done|]. intros ->.
      destruct (task_runs _ _ _ _ _ _ _ _ _ K1 N2 Hr) as (ds & dd & _ & Ht').
      pose proof (promise_jobs _ _ _ _ _ _ _ (th_promise _ _ _ _ _ _ _ _ Ht')) as Hj.
      rewrite (Hidle _ _ Hr) in Hj by (destruct Hp' as [-> | ->]; tauto).
      destruct (t_todo t); cbn in Hj; unfold zlen in Hj; [done|lia..].
    + destruct Hfiles as [F1 F2]. rewrite Ev. by split.
    + split.
      * intros p0 f0 H0. apply Hback in H0 as [[<- <-]|[Hne H0]]; [right; by left|].
        destruct (D1 p0 f0 H0) as [?|[?|[? Hop]]]; [by left|right; by left|right; right].
        split; [done|]. rewrite Ev. cbn. rewrite lookup_delete_ne; [done|]. intros E.
        apply Hne. by eapply D2.
      * intros p0 p1 f0 f1 H0 H1 Hlt E.
        apply Hback in H0 as [[<- <-]|[Hne0 H0]], H1 as [[<- <-]|[Hne1 H1]]; try done.
        -- rewrite E in Hlt. done.
        -- by eapply D2.
      * intros p0 f0 j H0 Hfl Hop Hj Ed. unfold fits_size. rewrite Ev. cbn [kv_size kv_set_open].
        apply Hback in H0 as [[<- <-]|[_ H0]]; [|by apply (D3 p0 f0)].
        apply (D3 p f); try done. intros E. rewrite E in Hfd. done.
  - intros p0 f0 H0. apply Hback in H0 as [[<- <-]|[Hne H0]]; [exact (K3 p f Hf)|by apply (K3 p0)].
  - intros p0 p1 f0 f1 H0 H1 E0 E1 E.
    apply Hback in H0 as [[<- <-]|[Hne0 H0]], H1 as [[<- <-]|[Hne1 H1]]; [done|..].
    + by eapply (K4 p p1 f f1).
    + by eapply (K4 p0 p f0 f).
    + by eapply (K4 p0 p1 f0 f1).
  - intros p0 f0 H0 Hfl Hn. apply Hback in H0 as [[<- <-]|[Hne H0]]; [done|].
    by apply (K5 p0 f0).
Qed.

Lemma close_kept C d q p f result res q' :
  queue_kept h0 v0 J C d q -> qu_qfds q !! p = Some f -> close_one p result q = Ok (res, q') ->
  (forall a r, qu_runners q !! a = Some r -> sourceFd r = p \/ destFd r = p -> jobsRunning r = 0) ->
  queue_kept h0 v0 J C d q' /\ same_but_files q q' /\
  exists f', qu_qfds q' = <[p := f']> (qu_qfds q) /\
    (q_fd f' = NEVER_OPENED_VAL -> q_fd f = NEVER_OPENED_VAL).
Proof.
  intros HK Hf H Hidle. unfold close_one in H. rewrite (bind_ok _ _ _ _ _ (get_qfd_ok _ _ _ Hf)) in H.
  destruct (isOpen f) eqn:Ho.
  - apply bind_inv in H as (fd & q1 & Hg & H). unfold getFd in Hg.
    rewrite (bind_ok _ _ _ _ _ (get_qfd_ok _ _ _ Hf)) in Hg. apply bind_inv in Hg as ([] & q2 & Ha & Hg).
    apply assert_inv in Ha as [Ha ->]. injection Hg as <- <-. apply Z.ltb_lt in Ha.
    apply bind_inv in H as (tmp & q1 & Hc & H). unfold with_os in Hc.
    destruct (myClose _ _) as [[x o]| |] eqn:Hm; [|done..]. injection Hc as <- <-.
    apply bind_inv in H as ([] & q1 & Hn & H). unfold notifyClosed in Hn.
    rewrite (bind_ok _ _ _ _ _ (get_qfd_ok p (set_os o q) f Hf)) in Hn. injection Hn as <-.
    injection H as _ <-.
    split; [exact (closed_kept C d q p f o _ x HK Hf Ha Hm Hidle)|]. split; [done|].
    exists (qfd_set_fd CLOSED_VAL f). done.
  - injection H as _ <-. split; [done|]. split; [done|]. exists f. by rewrite insert_id.
Qed.

(** The last runner of a file closes both ends, any other nothing. *)
Lemma file_close_kept C d q this r n ds dd res q' :
  queue_kept h0 v0 J C d q -> qu_runners q !! this = Some r -> qu_chunks q !! chunksRemaining r = Some n ->
  qu_qfds q !! sourceFd r = Some ds -> qu_qfds q !! destFd r = Some dd -> sourceFd r <> destFd r ->
  (n = 1 -> forall a ra p, qu_runners q !! a = Some ra -> p = sourceFd r \/ p = destFd r ->
     sourceFd ra = p \/ destFd ra = p -> jobsRunning ra = 0) ->
  handleFileClose this q = Ok (res, q') ->
  queue_kept h0 v0 J C d q' /\ same_but_files q q' /\
  (exists dd', qu_qfds q' !! destFd r = Some dd' /\
     (q_fd dd' = NEVER_OPENED_VAL -> q_fd dd = NEVER_OPENED_VAL)) /\
  (forall p, n <> 1 \/ p <> sourceFd r /\ p <> destFd r -> qu_qfds q' !! p = qu_qfds q !! p).
Proof.
  intros HK Hr Hn Hs Hd Hne Hidle H. unfold handleFileClose in H.
  rewrite (bind_ok _ _ _ _ _ (get_runner_ok _ _ _ Hr)) in H.
  rewrite (bind_ok _ _ _ _ _ (deref_ok qu_chunks _ _ _ Hn : get_chunks _ _ = _)) in H.
  destruct (Z.eqb_spec n 1) as [->|Hn1].
  - apply bind_inv in H as (res1 & q1 & H1 & H2).
    destruct (close_kept C d q _ ds _ _ _ HK Hs H1) as (HK1 & S1 & ds' & E1 & _).
    { intros a ra Ha Hp. apply (Hidle eq_refl a ra (sourceFd r)); tauto. }
    pose proof S1 as (A1 & A2 & A3 & A4 & A5).
    assert (qu_qfds q1 !! destFd r = Some dd) as Hd1 by (by rewrite E1, lookup_insert_ne).
    destruct (close_kept C d q1 _ dd _ _ _ HK1 Hd1 H2) as (HK2 & (B1 & B2 & B3 & B4 & B5) & dd' & E2 & Hnev).
    { intros a ra Ha Hp. rewrite A5 in Ha. apply (Hidle eq_refl a ra (destFd r)); tauto. }
    split; [done|]. split; [split_and!; congruence|]. split.
    + exists dd'. rewrite E2, lookup_insert_eq. done.
    + intros p [?|[N1 N2]]; [done|]. by rewrite E2, E1, !lookup_insert_ne by congruence.
  - injection H as _ <-. split; [done|]. split; [done|]. split; [|done]. by exists dd.
Qed.

(** ** Creating *)

(** A new descriptor, not opened yet. *)
Lemma inserted_kept C d q p f :
  queue_kept h0 v0 J C d q -> qu_qfds q !! p = None -> q_fd f = NEVER_OPENED_VAL ->
  (q_oflag f = src_flags /\ no_dest J (q_path f) \/
   q_oflag f = dest_flags /\ ~ no_dest J (q_path f) /\
     (forall p' f', qu_qfds q !! p' = Some f' -> q_oflag f' = dest_flags -> q_path f' <> q_path f) /\
     (forall a x jb o n al, C !! a = Some x -> piece_is h0 J x jb o n al -> job_dst jb <> q_path f)) ->
  queue_kept h0 v0 J C d (set_qfds (<[p := f]> (qu_qfds q)) q).
Proof.
  intros HK Hp Hnev Hrole. pose proof HK as [K1 K2 K3 K4 K5].
  pose proof (kept_files _ _ _ _ _ _ HK) as Hfiles. pose proof (kept_fds _ _ _ _ _ _ HK) as [D1 D2 D3].
  assert (qu_qfds q ⊆ <[p := f]> (qu_qfds q)) as Hsub by (by apply insert_subseteq).
  set (q' := set_qfds _ _). change (qview q) with (qview q') in *.
  assert (forall p0 f0, qu_qfds q' !! p0 = Some f0 ->
    p = p0 /\ f = f0 \/ p <> p0 /\ qu_qfds q !! p0 = Some f0) as Hback
    by (intros p0 f0; apply lookup_insert_Some).
  split.
  - destruct K1 as [R1 R2 R3 R4 R5 R6]. split; try done. intros a r Ha.
    destruct (R3 a r Ha) as (ds & dd & [P1 P2 P3 P4]). exists ds, dd.
    split; [by eapply lookup_weaken..|done|done].
  - apply (ring_rebooks h0 v0 J C d q _ _ _ HK); try done.
    + intros Tq Tk [N1 N2 N3 N4]. split; try done. intros t Ht.
      destruct (N2 t Ht) as (r & ds & dd & Hr & [H1 H2 H3 H4 H5 H6 H7]). exists r, ds, dd. split; [done|].
      split; try done; by eapply lookup_weaken.
    + split.
      * intros p0 f0 H0. apply Hback in H0 as [[<- <-]|[Hne H0]]; [by left|by apply (D1 p0)].
      * intros p0 p1 f0 f1 H0 H1 Hlt E.
        apply Hback in H0 as [[<- <-]|[Hne0 H0]], H1 as [[<- <-]|[Hne1 H1]]; [done|..].
        -- rewrite Hnev in Hlt. done.
        -- rewrite E, Hnev in Hlt. done.
        -- by eapply D2.
      * intros p0 f0 j H0 Hfl Hop. apply Hback in H0 as [[<- <-]|[_ H0]]; [done|by apply (D3 p0 f0)].
  - intros p0 f0 H0. apply Hback in H0 as [[<- <-]|[Hne H0]]; [tauto|by apply (K3 p0)].
  - intros p0 p1 f0 f1 H0 H1 E0 E1 E.
    apply Hback in H0 as [[<- <-]|[Hne0 H0]], H1 as [[<- <-]|[Hne1 H1]]; [done|..|by eapply (K4 p0 p1 f0 f1)].
    + destruct Hrole as [[Hfl _]|(_ & _ & Hno & _)]; [by destruct flags_differ; congruence|].
      by destruct (Hno p1 f1 H1 E1).
    + destruct Hrole as [[Hfl _]|(_ & _ & Hno & _)]; [by destruct flags_differ; congruence|].
      by destruct (Hno p0 f0 H0 E0).
  - intros p0 f0 H0 Hfl Hn. apply Hback in H0 as [[<- <-]|[Hne H0]]; [|by apply (K5 p0)].
    intros a x jb o n al Ha Hx E. destruct Hrole as [[? _]|(_ & _ & _ & Hno)]; [by destruct flags_differ; congruence|].
    by destruct (Hno a x jb o n al Ha Hx).
Qed.

Lemma new_qfd_kept C d q i p path oflag md q' :
  queue_kept h0 v0 J C d q -> qu_qfds q !! p = None ->
  (oflag = src_flags /\ no_dest J path \/
   oflag = dest_flags /\ ~ no_dest J path /\
     (forall p' f', qu_qfds q !! p' = Some f' -> q_oflag f' = dest_flags -> q_path f' <> path) /\
     (forall a x jb o n al, C !! a = Some x -> piece_is h0 J x jb o n al -> job_dst jb <> path)) ->
  new_qfd i p path oflag md q = Ok (tt, q') ->
  queue_kept h0 v0 J C d q' /\ same_but_files q q' /\
  exists f', qu_qfds q' = <[p := f']> (qu_qfds q) /\ q_path f' = path /\ q_oflag f' = oflag.
Proof.
  intros HK Hp Hrole H. unfold new_qfd in H. set (f := mk_qfd path oflag md NEVER_OPENED_VAL) in H.
  apply bind_inv in H as ([] & q1 & H1 & H). injection H1 as <-.
  pose proof (inserted_kept C d q p f HK Hp eq_refl Hrole) as HK1. set (q1 := set_qfds _ _) in *.
  apply bind_inv in H as (b & q2 & Hb & H).
  assert (exists n, q2 = set_fdsUsed n q1) as (n & ->).
  { unfold reserveFileDescriptor, bind, gets, modify, ret in Hb. destruct (_ || _); injection Hb as _ <-;
      [|by eexists]. exists (fileDescriptorsUsed q1). by destruct q1. }
  assert (queue_kept h0 v0 J C d (set_fdsUsed n q1)) as HK2 by (by eapply queue_kept_same, HK1).
  destruct b; [|injection H as <-; split; [done|]; split; [done|]; by exists f].
  apply bind_inv in H as (res & q3 & Ho & H). injection H as <-.
  destruct (doOpen_kept C d (set_fdsUsed n q1) p f res q3 HK2) as (HK3 & Hs & f' & E & E1 & E2 & _); try done.
  { cbn. apply lookup_insert_eq. }
  split; [done|]. split; [exact Hs|]. exists f'. split; [|done]. rewrite E. cbn. by rewrite insert_insert_eq.
Qed.

(** ** Deleting a runner *)

Lemma delete_runner_inv this q u q' :
  delete_runner this q = Ok (u, q') ->
  exists r n, qu_runners q !! this = Some r /\ jobsRunning r = 0 /\
    qu_chunks q !! chunksRemaining r = Some n /\
    qu_runners q' = delete this (qu_runners q) /\
    qu_qfds q' = (if n =? 1 then delete (destFd r) (delete (sourceFd r) (qu_qfds q)) else qu_qfds q) /\
    qu_ring q' = qu_ring q /\ qu_os q' = qu_os q.
Proof.
  intros H. unfold delete_runner in H. apply bind_inv in H as (r & q1 & Hd & H).
  apply deref_inv in Hd as [Hr ->].
  apply bind_inv in H as ([] & q1 & Ha & H). apply assert_inv in Ha as [Hj ->].
  apply Z.eqb_eq in Hj. apply bind_inv in H as ([] & q1 & Hh & H).
  assert (exists h, q1 = set_heap h q) as (h & ->).
  { destruct (buffer r =? 0); cbn [negb] in Hh.
    - injection Hh as <-. exists (qu_heap q). by destruct q.
    - apply bind_inv in Hh as (h & q2 & Hg & Hh). injection Hg as <- <-.
      destruct (Heap.returnBlock _ _) as [[[] h]| |]; [|done..]. injection Hh as <-. by exists h. }
  apply bind_inv in H as ([] & q1 & Hc & H). injection Hc as <-.
  apply bind_inv in H as (n & q1 & Hn & H). apply deref_inv in Hn as [Hn ->].
  apply bind_inv in H as ([] & q1 & Ha & H). apply assert_inv in Ha as [_ ->].
  apply bind_inv in H as ([] & q1 & Hc & H). injection Hc as <-.
  exists r, n. split; [done|]. split; [done|]. split; [exact Hn|].
  apply bind_inv in H as ([] & q1 & Hl & H). injection H as _ <-.
  assert ((n - 1 =? 0) = (n =? 1)) as E by (do 2 case_z; done || lia). rewrite E in Hl.
  destruct (n =? 1).
  - apply bind_inv in Hl as ([] & q2 & H2 & Hl). apply delete_qfd_inv in H2 as ->.
    apply bind_inv in Hl as ([] & q2 & H2 & Hl). apply delete_qfd_inv in H2 as ->.
    injection Hl as <-. done.
  - injection Hl as <-. done.
Qed.

(** Without the task of a runner that has nothing under way. *)
Lemma books_drop R Q C v Tq Tk A a r :
  runners_ok h0 J R Q C -> books h0 v0 J R Q C v Tq Tk A -> R !! a = Some r -> jobsRunning r = 0 ->
  exists Tk', NoDup (t_this <$> Tq ++ Tk') /\ (forall t, t ∈ Tq ++ Tk' -> t ∈ Tq ++ Tk /\ t_this t <> a) /\
    in_flight v Tk' /\ answered A Tk' /\
    (forall b, b ∈ t_this <$> Tq ++ Tk -> b <> a -> b ∈ t_this <$> Tq ++ Tk').
Proof.
  intros HR [[N1 N2 N3 N4] _ _ B4 B5] Hr Hj.
  destruct (decide (a ∈ t_this <$> Tq ++ Tk)) as [Hin|Hnin].
  - apply list_elem_of_fmap in Hin as (t & Et & Ht). subst a.
    destruct (task_runs h0 v0 J _ _ _ _ _ _ HR (N2 t Ht) Hr) as (ds & dd & _ & Hth).
    destruct (promise_idle _ _ _ _ _ _ _ (th_promise _ _ _ _ _ _ _ _ Hth) Hj) as (Etd & Ep & _).
    assert (t ∈ Tk) as Hk.
    { apply elem_of_app in Ht as [Ht|Ht]; [|done]. destruct (N3 t Ht) as [_ [?|?]]; congruence. }
    assert (t_flight t = [] /\ t_answers t = []) as [Ef Ea].
    { unfold t_flight, t_answers. rewrite (th_es _ _ _ _ _ _ _ _ Hth), Etd, Ep. done. }
    apply list_elem_of_split in Hk as (T1 & T2 & ->). exists (T1 ++ T2).
    assert (Tq ++ T1 ++ t :: T2 ≡ₚ t :: Tq ++ T1 ++ T2) as Hp
      by (rewrite !app_assoc; symmetry; apply Permutation_middle).
    rewrite Hp, fmap_cons in N1. apply list.NoDup_cons in N1 as [Nt N1].
    split; [done|]. split; [|split; [|split]].
    + intros u Hu. split; [rewrite Hp; by right|]. intros E. apply Nt. rewrite <- E. by apply list_elem_of_fmap_2.
    + unfold in_flight in *. by rewrite B4, !bind_app, bind_cons, Ef.
    + unfold answered in *. by rewrite B5, !bind_app, bind_cons, Ea.
    + intros b Hb Hne. rewrite Hp, fmap_cons, elem_of_cons in Hb. by destruct Hb.
  - exists Tk. split; [done|]. split; [|done]. intros t Ht. split; [done|]. intros <-. apply Hnin.
    by apply list_elem_of_fmap_2.
Qed.

Lemma delete_kept C d q this r n u q' :
  queue_kept h0 v0 J C d q -> delete_runner this q = Ok (u, q') ->
  qu_runners q !! this = Some r -> qu_chunks q !! chunksRemaining r = Some n ->
  (forall x, C !! this = Some x -> piece_copied h0 v0 J (qview q) x) ->
  (forall dd, qu_qfds q !! destFd r = Some dd -> q_fd dd <> NEVER_OPENED_VAL) ->
  (n = 1 -> forall b rb p, b <> this -> qu_runners q !! b = Some rb ->
     p = sourceFd rb \/ p = destFd rb -> p <> sourceFd r /\ p <> destFd r) ->
  queue_kept h0 v0 J C d q'.
Proof.
  intros HK H Hr Hn Hcop Hdst Hothers. pose proof HK as [K1 K2 K3 K4 K5].
  destruct (delete_runner_inv _ _ _ _ H) as (r1 & n1 & Hr1 & Hj & Hn1 & ER & EQ & Erg & Eos).
  assert (r1 = r) as -> by congruence. assert (n1 = n) as -> by congruence.
  pose proof (kept_files _ _ _ _ _ _ HK) as [F1 F2]. pose proof (kept_fds _ _ _ _ _ _ HK) as [D1 D2 D3].
  assert (qview q' = qview q) as Ev by (unfold qview, world; by rewrite Eos).
  assert (forall p f, qu_qfds q' !! p = Some f -> qu_qfds q !! p = Some f) as Hsub.
  { intros p f Hp. rewrite EQ in Hp. destruct (n =? 1); [|done].
    apply lookup_delete_Some in Hp as [_ Hp]. by apply lookup_delete_Some in Hp as [_ Hp]. }
  assert (forall b rb p f, qu_runners q' !! b = Some rb -> p = sourceFd rb \/ p = destFd rb ->
    qu_qfds q !! p = Some f -> qu_qfds q' !! p = Some f) as Hkeep.
  { intros b rb p f Hb Hp Hf. rewrite ER in Hb. apply lookup_delete_Some in Hb as [Hne Hb].
    rewrite EQ. destruct (Z.eqb_spec n 1) as [E|E]; [|done].
    destruct (Hothers E b rb p ltac:(congruence) Hb Hp). by rewrite !lookup_delete_ne by congruence. }
  assert (runners_ok h0 J (qu_runners q') (qu_qfds q') C) as K1'.
  { destruct K1 as [R1 R2 R3 R4 R5 R6].
    assert (forall a ra, qu_runners q' !! a = Some ra -> qu_runners q !! a = Some ra) as HRsub.
    { intros a ra Ha. rewrite ER in Ha. by apply lookup_delete_Some in Ha as [_ Ha]. }
    split; try done.
    - intros a ra Ha. by eapply R1, HRsub.
    - intros a ra Ha. eapply R2; by apply HRsub.
    - intros a ra Ha. destruct (R3 a ra (HRsub _ _ Ha)) as (ds & dd & [P1 P2 P3 P4]). exists ds, dd.
      split; try done; [apply (Hkeep a ra)|apply (Hkeep a ra)]; tauto.
    - intros a b ra rb Ha Hb. apply R6; by apply HRsub. }
  split; [done| | | |].
  - rewrite Erg, Ev. destruct K2 as [Hok Hd (Tq & Tk & Eq & HB)]. split; [done|done|].
    destruct (books_drop _ _ _ _ _ _ _ _ _ K1 HB Hr Hj) as (Tk' & M1 & M2 & M3 & M4 & M5).
    destruct HB as [[N1 N2 N3 N4] B2 B3 B4 B5]. exists Tq, Tk'. split; [done|]. split; try done.
    + split; try done.
      * intros t Ht. destruct (M2 t Ht) as [Ht' Hne]. destruct (N2 t Ht') as (rt & ds & dd & Hrt & [H1 H2 H3 H4 H5 H6 H7]).
        assert (qu_runners q' !! t_this t = Some rt) as Hrt' by (by rewrite ER, lookup_delete_ne).
        exists rt, ds, dd. split; [done|]. split; try done; [apply (Hkeep _ _ _ _ Hrt')|apply (Hkeep _ _ _ _ Hrt')]; tauto.
      * intros a ra Ha Hb. rewrite ER in Ha. apply lookup_delete_Some in Ha as [Hne Ha].
        apply M5; [by apply (N4 a ra)|congruence].
    + split; [|done]. intros a x Ha Hnone. destruct (decide (a = this)) as [->|Hne]; [by apply Hcop|].
      apply (F1 a x Ha). rewrite ER, lookup_delete_ne in Hnone; done.
    + split.
      * intros p f Hp. by apply (D1 p), Hsub.
      * intros p p' f f' Hp Hp'. apply D2; by apply Hsub.
      * intros p f j Hp. by apply (D3 p), Hsub.
  - intros p f Hp. by apply (K3 p), Hsub.
  - intros p p' f f' Hp Hp'. apply K4; by apply Hsub.
  - intros p f Hp Hfl Hnev a x jb o m al Ha Hx E.
    destruct (K5 p f (Hsub _ _ Hp) Hfl Hnev a x jb o m al Ha Hx E) as (ra & Hra & Hu).
    destruct (decide (a = this)) as [->|Hne]; [exfalso|exists ra; by rewrite ER, lookup_delete_ne].
    destruct (rn_piece _ _ _ _ _ K1 _ _ Hr) as (ds & dd & [P1 P2 [_ P3] (x' & jb' & P5 & P6 & _ & P8)]).
    assert (x' = x) as -> by congruence. destruct (piece_is_fun _ _ _ _ _ _ _ _ _ _ _ Hx P6) as (-> & _).
    assert (p = destFd r) as -> by (eapply (K4 p (destFd r) f dd); [by apply Hsub|done..|congruence]).
    apply (Hdst f); [by apply Hsub|done].
Qed.
End files.

(** ** Adding a file, as far as its data goes

    A runner made for a piece that no runner had keeps [queue_kept], with the piece in
    the books. *)

Section creating.
Context {W : Type} {F : Files W} {K : Kernel W} {CV : Contents W} {CL : ContentLaws W}.
Context (h0 : Heap.heap) (v0 : kview) (J : list job).
Implicit Types (q : queue W) (r : CopyRunner) (C : gmap Z piece).

Lemma create_kept C d q q' a r x jb ds dd :
  queue_kept h0 v0 J C d q -> qu_runners q !! a = None -> C !! a = None ->
  (forall b, C !! b <> Some x) -> 0 < a < 2 ^ 62 -> buffer r = 0 -> fresh_runner r ->
  piece_is h0 J x jb (offset r) (size r) (alignment r) ->
  qu_qfds q !! sourceFd r = Some ds -> file_of ds = (job_src jb, src_flags) ->
  qu_qfds q !! destFd r = Some dd -> file_of dd = (job_dst jb, dest_flags) ->
  qu_runners q' = <[a := r]> (qu_runners q) -> qu_qfds q' = qu_qfds q -> qu_ring q' = qu_ring q ->
  qview q' = qview q ->
  queue_kept h0 v0 J (<[a := x]> C) d q'.
Proof.
  intros HK Hra Hca Hx Ha Hb Hf Hp Hds [= Es Fs] Hdd [= Ed Fd] ER EQ Erg Ev.
  destruct HK as [[R1 R2 R3 R4 R5 R6] [Hok Hd (Tq & Tk & Eq & [[N1 N2 N3 N4] [F1 F2] B3 B4 B5])] K3 K4 K5].
  assert (forall b rb p, qu_runners q !! b = Some rb -> C !! b = Some p -> <[a := x]> C !! b = Some p) as HC
    by (intros b rb p Hrb Hp'; rewrite lookup_insert_ne; [done|congruence]).
  split; rewrite ?ER, ?EQ, ?Erg, ?Ev; try done.
  - split.
    + intros b rb Hrb. apply lookup_insert_Some in Hrb as [[<- <-]|[_ Hrb]]; [done|by apply (R1 b rb)].
    + intros b rb Hrb. apply lookup_insert_Some in Hrb as [[<- <-]|[_ Hrb]]; [done|by apply (R2 b)].
    + intros b rb Hrb. apply lookup_insert_Some in Hrb as [[<- <-]|[_ Hrb]].
      * exists ds, dd. split; try done. exists x, jb. by rewrite lookup_insert_eq.
      * destruct (R3 b rb Hrb) as (ds' & dd' & [P1 P2 P3 (p & jb' & P5 & P6)]). exists ds', dd'.
        split; try done. exists p, jb'. split; [by eapply HC|done].
    + intros b c p Hpb Hpc. apply lookup_insert_Some in Hpb as [[<- <-]|[_ Hpb]],
        Hpc as [[<- E]|[_ Hpc]]; subst; try done; [by destruct (Hx c)|by destruct (Hx b)|by apply (R4 b c p)].
    + intros b p Hpb. apply lookup_insert_Some in Hpb as [[<- <-]|[_ Hpb]]; [by eexists _, _, _, _|by apply (R5 b)].
    + intros b c rb rc Hrb Hrc E Hz.
      apply lookup_insert_Some in Hrb as [[<- <-]|[_ Hrb]], Hrc as [[<- <-]|[_ Hrc]]; try congruence.
      by apply (R6 b c rb rc).
  - split; [done|done|]. exists Tq, Tk. split; [done|]. split; try done.
    + split; try done.
      * intros t Ht. destruct (N2 t Ht) as (rt & ds' & dd' & Hrt & Hth). exists rt, ds', dd'.
        split; [|done]. rewrite lookup_insert_ne; [done|congruence].
      * intros b rb Hrb Hz. apply lookup_insert_Some in Hrb as [[<- <-]|[_ Hrb]]; [done|by apply (N4 b rb)].
    + split; [|done]. intros b p Hpb Hnb. apply lookup_insert_None in Hnb as [Hnb Hne].
      rewrite lookup_insert_ne in Hpb by done. by apply (F1 b).
  - intros p f Hpf Hfl Hn b y jb' o n al Hy Hpi E.
    apply lookup_insert_Some in Hy as [[<- <-]|[Hne Hy]].
    + exists r. rewrite lookup_insert_eq. split; [done|]. by destruct Hf.
    + destruct (K5 p f Hpf Hfl Hn b y jb' o n al Hy Hpi E) as (rb & Hrb & Hu). exists rb.
      by rewrite lookup_insert_ne.
Qed.

(** What adding a part comes to. *)
Lemma part_inv src dst off sz al t (c : cqueue W) u c' :
  addCopyJobPart src dst off sz al t c = Ok (u, c') ->
  let a := next_addr c in
  qu_runners (cq_queue c') = <[a := new_runner src dst off sz al t]> (qu_runners (cq_queue c)) /\
  qu_qfds (cq_queue c') = qu_qfds (cq_queue c) /\ qu_ring (cq_queue c') = qu_ring (cq_queue c) /\
  qu_os (cq_queue c') = qu_os (cq_queue c) /\ qu_heap (cq_queue c') = qu_heap (cq_queue c) /\
  next_addr c' = a + 1 /\ errorMessages c' = errorMessages c.
Proof.
  intros H. unfold addCopyJobPart in H. apply bind_inv in H as (st & c1 & Hg & H).
  injection Hg as _ <-. apply bind_inv in H as ([] & c1 & Ha & H). apply assert_inv in Ha as [_ ->].
  apply bind_inv in H as ([] & c1 & Hc & H). injection Hc as <-.
  apply bind_inv in H as ([] & c2 & Hc & H). injection Hc as <-.
  apply bind_inv in H as (a & c3 & Hc & H). apply fresh_run in Hc as [-> ->].
  apply bind_inv in H as ([] & c4 & Hc & H). injection Hc as <-. apply modify_inv in H as ->. done.
Qed.
End creating.
