(* ===== verification/KeptRounds.v ===== *)
(** * The rounds of a runner and the data of its queue

    Giving a runner its buffer, queueing the requests of a round and handling a
    completion keep [queue_kept]; of a completion that leaves an error nothing is said
    here, for the error is reported in the end. *)

From stdpp Require Import gmap strings.
From S2P Require Import Prelude Abi Prep RingBuf Ring SqSpec CqSpec Kernel Queue QueueSpec Os Util Heap CopyState FileDesc Runner RunnerData RunnerLive RunnerSpec CopyQueue CopyJob SubmitLoop Shape Service Rounds ServedFiles Serving Contents Promise Ledger Executing Entering Keeping KeptFiles.

(** ** Lists of tasks *)

(** All the tasks but that of the runner at [a]. *)
Record without (a : Z) (T T0 : list task) : Prop := {
  wt_nodup : NoDup (a :: (t_this <$> T0));
  wt_sub : forall t, t ∈ T0 -> t ∈ T;
  wt_all : forall b, b ∈ t_this <$> T -> b = a \/ b ∈ t_this <$> T0;
}.

Lemma without_new a T : NoDup (t_this <$> T) -> a ∉ t_this <$> T -> without a T T.
Proof. intros Hn Ha. split; [by apply list.NoDup_cons|done|]. intros b Hb. by right. Qed.

Lemma without_one t T T0 : NoDup (t_this <$> T) -> T ≡ₚ t :: T0 -> without (t_this t) T T0.
Proof.
  intros Hn Hp. split.
  - by rewrite Hp in Hn.
  - intros u Hu. rewrite Hp. by right.
  - intros b Hb. rewrite Hp, fmap_cons, elem_of_cons in Hb. done.
Qed.

Section rounds.
Context {W : Type} {F : Files W} {K : Kernel W} {CV : Contents W} {CL : ContentLaws W}.
Context (h0 : Heap.heap) (v0 : kview) (J : list job) (HJ : jobs_ok h0 v0 J).
Context (Hbase : 0 < Heap.data h0)
  (Hend : Heap.data h0 + Heap.blocks h0 * Heap.blockSize h0 < 2 ^ 63).
Implicit Types (q : queue W) (r : CopyRunner) (C : gmap Z piece) (t : task).

(** ** A runner replaced *)

(** By one on the same piece. *)
Definition same_work r r' : Prop :=
  sourceFd r' = sourceFd r /\ destFd r' = destFd r /\ same_chunk r r'.

Lemma place_work r r' : same_place r r' -> same_work r r'.
Proof. intros (? & ? & _ & _ & _ & ?). by split_and!. Qed.

Section replace.
Context (R : gmap Z CopyRunner) (Q : gmap Z QueueFileDescriptor) (C : gmap Z piece) (a : Z) (r r' : CopyRunner).
Context (Hr : R !! a = Some r) (Hw : same_work r r').

Lemma runs_same p ds dd : runs_piece h0 J Q C p r ds dd -> runs_piece h0 J Q C p r' ds dd.
Proof.
  destruct Hw as (E1 & E2 & E3 & E4 & E5). intros [P1 P2 P3 P4].
  split; rewrite ?E1, ?E2, ?E3, ?E4, ?E5; done.
Qed.

Lemma runners_set :
  runners_ok h0 J R Q C -> (buffer r' = 0 -> fresh_runner r') ->
  (buffer r' = buffer r \/ forall b rb, R !! b = Some rb -> buffer rb <> buffer r') ->
  runners_ok h0 J (<[a := r']> R) Q C.
Proof.
  intros [R1 R2 R3 R4 R5 R6] Hf Hb. split; try done.
  - intros b rb Hrb. apply lookup_insert_Some in Hrb as [[<- <-]|[Hne Hrb]]; [by eapply R1|by apply (R1 b rb)].
  - intros b rb Hrb. apply lookup_insert_Some in Hrb as [[<- <-]|[Hne Hrb]]; [done|by apply (R2 b)].
  - intros b rb Hrb. apply lookup_insert_Some in Hrb as [[<- <-]|[Hne Hrb]]; [|by apply (R3 b)].
    destruct (R3 _ _ Hr) as (ds & dd & Hp). exists ds, dd. by apply runs_same.
  - intros b c rb rc Hrb Hrc E Hz.
    apply lookup_insert_Some in Hrb as [[<- <-]|[Hn1 Hrb]], Hrc as [[<- <-]|[Hn2 Hrc]];
      [done| | |by apply (R6 b c rb rc)].
    + destruct Hb as [Eb|Hb]; [apply (R6 a c r rc); congruence|by destruct (Hb _ _ Hrc)].
    + destruct Hb as [Eb|Hb]; [apply (R6 b a rb r); congruence|by destruct (Hb _ _ Hrb)].
Qed.

Lemma files_set v : files_kept h0 v0 J R C v -> files_kept h0 v0 J (<[a := r']> R) C v.
Proof.
  intros [F1 F2]. split; [|done]. intros b p Hb Hn. apply (F1 b p Hb).
  by apply lookup_insert_None in Hn as [? _].
Qed.

Lemma task_set v t : t_this t <> a -> task_ok h0 v0 R Q v t -> task_ok h0 v0 (<[a := r']> R) Q v t.
Proof.
  intros Hne (rt & ds & dd & Ht & H). exists rt, ds, dd. by rewrite lookup_insert_ne.
Qed.

Lemma tasks_set v Tq Tk Tq' Tk' T0 t' :
  tasks_ok h0 v0 R Q v Tq Tk -> without a (Tq ++ Tk) T0 -> Tq' ++ Tk' ≡ₚ t' :: T0 -> t_this t' = a ->
  task_ok h0 v0 (<[a := r']> R) Q v t' ->
  (forall t, t ∈ Tq' -> t_pend t = [] /\ (t_todo t = BothLeft \/ t_todo t = WriteLeft false)) ->
  tasks_ok h0 v0 (<[a := r']> R) Q v Tq' Tk'.
Proof.
  intros [N1 N2 N3 N4] [W1 W2 W3] Hp Ea Ht Hq. split.
  - by rewrite Hp, fmap_cons, Ea.
  - intros t Hin. rewrite Hp, elem_of_cons in Hin. destruct Hin as [->|Hin]; [done|].
    apply task_set; [|by apply N2, W2]. intros E. apply list.NoDup_cons in W1 as [W1 _]. apply W1.
    rewrite <- E. by apply list_elem_of_fmap_2.
  - done.
  - intros b rb Hb Hnz. rewrite Hp, fmap_cons, elem_of_cons, Ea.
    apply lookup_insert_Some in Hb as [[<- <-]|[Hne Hb]]; [by left|]. by apply W3, (N4 b rb).
Qed.
End replace.

(** The invariant of a queue whose runner was replaced, from that of its ring. *)
Lemma replaced_kept C d d' q q' a r r' :
  queue_kept h0 v0 J C d q -> qu_runners q !! a = Some r -> same_work r r' ->
  qu_runners q' = <[a := r']> (qu_runners q) -> qu_qfds q' = qu_qfds q ->
  (buffer r' = 0 -> fresh_runner r') ->
  (buffer r' = buffer r \/ forall b rb, qu_runners q !! b = Some rb -> buffer rb <> buffer r') ->
  (untouched r -> untouched r' \/ forall dd, qu_qfds q !! destFd r = Some dd -> q_fd dd <> NEVER_OPENED_VAL) ->
  ring_kept h0 v0 J (<[a := r']> (qu_runners q)) (qu_qfds q) C d' (qu_ring q') (qview q') ->
  queue_kept h0 v0 J C d' q'.
Proof.
  intros [K1 K2 K3 K4 K5] Hr Hw ER EQ Hf Hb Hu Hring. split; rewrite ?ER, ?EQ; try done.
  - by eapply runners_set.
  - intros p f Hp Hfl Hnev b x jb o n al Hx Hpi E.
    destruct (K5 p f Hp Hfl Hnev b x jb o n al Hx Hpi E) as (rb & Hrb & Hub).
    destruct (decide (a = b)) as [<-|Hne]; [|exists rb; by rewrite lookup_insert_ne].
    assert (rb = r) as -> by congruence. exists r'. rewrite lookup_insert_eq. split; [done|].
    destruct (Hu Hub) as [?|Ho]; [done|exfalso].
    destruct (rn_piece _ _ _ _ _ K1 _ _ Hr) as (ds & dd & [P1 P2 [_ P3] (x' & jb' & P5 & P6 & _ & P8)]).
    assert (x' = x) as -> by congruence. destruct (piece_is_fun _ _ _ _ _ _ _ _ _ _ _ Hpi P6) as (-> & _).
    assert (p = destFd r) as -> by (eapply (K4 p (destFd r) f dd); [done..|congruence]).
    by apply (Ho f).
Qed.

(** ** A buffer *)

Lemma block_pos i : Heap.heap_ok h0 -> 0 <= i < Heap.blocks h0 -> Heap.block_at h0 i <> 0.
Proof. intros Hh Hi. pose proof (Heap.ho_size _ Hh). unfold Heap.block_at. nia. Qed.

Lemma give_kept C d q a r nb i u q' :
  queue_kept h0 v0 J C d q -> Heap.heap_ok (qu_heap q) -> geometry h0 (qu_heap q) ->
  qu_runners q !! a = Some r -> 0 <= i < Heap.blocks h0 -> nb = Heap.block_at h0 i ->
  (forall b rb, qu_runners q !! b = Some rb -> buffer rb <> nb) ->
  giveBuffer a nb q = Ok (u, q') ->
  queue_kept h0 v0 J C d q' /\
  exists al, q' = set_runners (<[a := r_set_buffer nb al r]> (qu_runners q)) q /\ 0 < size r /\ buffer r = 0.
Proof.
  intros HK Hh Hg Hr Hi Enb Hfree H.
  assert (0 < size r /\ buffer r = 0) as [Hsz Hb].
  { unfold giveBuffer in H. rewrite (bind_ok _ _ _ _ _ (get_runner_ok _ _ _ Hr)) in H.
    apply bind_inv in H as ([] & q1 & H1 & H). apply assert_inv in H1 as [H1 ->].
    apply bind_inv in H as ([] & q1 & H2 & H). apply assert_inv in H2 as [H2 ->]. split; lia. }
  pose proof HK as [K1 _ _ _ _].
  destruct (rn_piece _ _ _ _ _ K1 _ _ Hr) as (ds & dd & Hp).
  destruct (runs_chunk h0 v0 J HJ _ _ _ _ _ _ Hp Hsz) as [Hck (st & Hj & Hal & Hfit)].
  pose proof (geometry_job _ _ _ Hg Hh Hj) as Hj'. pose proof Hg as (E1 & E2 & E3 & E4).
  assert (Heap.block_at h0 i = Heap.block_at (qu_heap q) i) as Eb
    by (unfold Heap.block_at; by rewrite E1, E3).
  destruct (giveBuffer_ok q a r st i Hj') as (al & G1 & G2 & G3 & G4);
    try rewrite ?E1, ?E2, ?E3, ?E4; try done.
  rewrite <- Eb, <- Enb in *. rewrite H in G1. injection G1 as _ ->.
  set (r' := r_set_buffer nb al r). assert (same_work r r') as Hw by (by split_and!).
  pose proof (rn_fresh _ _ _ _ _ K1 _ _ Hr Hb) as Hfr.
  assert (nb <> 0) as Hnz by (rewrite Enb; apply block_pos; [apply Hj|done]).
  split; [|by exists al].
  eapply (replaced_kept C d d q _ a r r' HK); try done; [by right|by left|].
  destruct HK as [_ [Hok Hd (Tq & Tk & Eq & HB)] _ _ _]. split; [done|done|].
  destruct HB as [B1 B2 B3 B4 B5]. set (t' := mk_task a AllDone [] []).
  exists Tq, (Tk ++ [t']). split; [done|]. pose proof B1 as [N1 N2 N3 N4]. split.
  - eapply (tasks_set) with (T0 := Tq ++ Tk) (t' := t'); [exact B1| | |done| |done].
    + apply without_new; [done|]. intros Hin. apply list_elem_of_fmap in Hin as (t & -> & Ht).
      destruct (task_runs _ _ _ _ _ _ _ _ _ K1 (N2 t Ht) Hr) as (? & ? & _ & Hth).
      by destruct (th_seat _ _ _ _ _ _ _ _ Hth) as (_ & ? & _).
    + by rewrite app_assoc, <- Permutation_cons_append.
    + destruct Hp as [P1 P2 P3 P4]. exists r', ds, dd. split; [apply lookup_insert_eq|].
      split; try done.
      * apply Hfr.
      * split; [done|]. split; [done|]. exists i. split_and!; [lia|lia|exact Enb|exact G3|rewrite <- E1; exact G4].
      * cbn [t_todo t_pend promise]. apply fresh_ends; try done; [apply Hck|apply Hck|by destruct Hfr].
  - by apply files_set.
  - done.
  - unfold in_flight. by rewrite bind_app, app_nil_r.
  - unfold answered. by rewrite bind_app, app_nil_r.
Qed.

(** ** A round queued *)

Lemma sqe_loop_room fuel q slot q' :
  sq_ok (r_sq (qu_ring q)) -> sqe_loop fuel q = Ok (slot, q') -> (0 < fuel)%nat /\ 0 < room q.
Proof.
  revert q. induction fuel as [|n IH]; intros q Hq H; [done|]. split; [lia|]. cbn [sqe_loop] in H.
  apply bind_inv in H as (ring & q1 & Hg & H). injection Hg as <- <-.
  rewrite (get_sqe_eq _ Hq) in H. pose proof (room_eq q Hq) as Er.
  destruct (Z.ltb_spec (sq_pending (r_sq (qu_ring q)) + sq_unflushed (r_sq (qu_ring q)))
    (sq_kring_entries (r_sq (qu_ring q)))); [lia|].
  apply bind_inv in H as ([] & q1 & Hm & H). injection Hm as <-. by apply IH in H as [_ ?].
Qed.

Lemma getSqe_room fuel this q slot q' :
  sq_ok (r_sq (qu_ring q)) -> getSqe fuel this q = Ok (slot, q') -> (0 < fuel)%nat /\ 0 < room q.
Proof.
  intros Hq H. unfold getSqe in H. apply bind_inv in H as (r & q1 & Hr & H).
  apply deref_inv in Hr as [_ ->]. apply bind_inv in H as ([] & q1 & H1 & H). injection H1 as <-.
  apply bind_inv in H as ([] & q1 & H1 & H). injection H1 as <-. by apply sqe_loop_room in H.
Qed.

(** The requests of a runner on open files, whenever queueing them returns. *)
Definition queue_round (fuel : nat) (this n rnd : Z) (forced more : bool) : prog (queue W) (option Error) :=
  do* (if negb (n =? 0) then submit_read fuel this n forced else ret tt) in
  do* (if more then submit_write no_forcing fuel this rnd forced else ret tt) in
  ret None.

Lemma queue_round_inv fuel this q r ds dd rnd1 rnd2 res q' :
  sq_ok (r_sq (qu_ring q)) -> qu_runners q !! this = Some r -> jobsRunning r = 0 ->
  qu_qfds q !! sourceFd r = Some ds -> qu_qfds q !! destFd r = Some dd -> 2 < q_fd ds -> 2 < q_fd dd ->
  writeOffset r < chunk_end r ->
  queue_round fuel this (bytes_to_read no_forcing rnd1 r) rnd2 false (writeOffset r <? offset r + size r) q
    = Ok (res, q') ->
  res = None /\ queued this (submitted no_forcing rnd1 r)
    (round_entries no_forcing this (q_fd ds) (q_fd dd) rnd1 rnd2 r) q q'.
Proof.
  intros Hq Hr Hj Hs Hd Fs Fd Hw H. unfold queue_round in H. fold (chunk_end r) in H.
  assert ((writeOffset r <? chunk_end r) = true) as Hlt by (apply Z.ltb_lt; done). rewrite Hlt in H.
  unfold round_entries, submitted. change (forced_partial no_forcing rnd1 r) with false.
  set (n := bytes_to_read no_forcing rnd1 r) in *. destruct (Z.eqb_spec n 0) as [En|En]; cbn [negb app] in *.
  - rewrite (bind_ok _ _ q tt q) in H by done. rewrite Hlt.
    apply bind_inv in H as ([] & q1 & H1 & H). injection H as <- <-. split; [done|].
    pose proof H1 as H2. unfold submit_write in H2. apply bind_inv in H2 as (slot & q2 & H2 & _).
    destruct (getSqe_room _ _ _ _ _ Hq H2) as [Hf Hroom].
    destruct (submit_write_ok no_forcing fuel Hf this q r dd rnd2 false Hr Hd Fd Hq Hroom) as (q3 & H3 & Hqd).
    rewrite H3 in H1. by injection H1 as ->.
  - apply bind_inv in H as ([] & q1 & H1 & H).
    pose proof H1 as H2. unfold submit_read in H2. apply bind_inv in H2 as (slot & q2 & H2 & _).
    destruct (getSqe_room _ _ _ _ _ Hq H2) as [Hf Hroom].
    destruct (submit_read_ok fuel Hf this q r ds n false Hr Hs Fs Hq Hroom) as (q3 & H3 & Hqd).
    rewrite H3 in H1. injection H1 as ->. cbv zeta in Hqd. set (r1 := r_set_jobs _ r) in *.
    apply bind_inv in H as ([] & q4 & H4 & H). injection H as <- <-. split; [done|].
    pose proof (qd_ok _ _ _ _ _ Hqd) as Hq1.
    pose proof H4 as H5. unfold submit_write in H5. apply bind_inv in H5 as (slot' & q5 & H5 & _).
    destruct (getSqe_room _ _ _ _ _ Hq1 H5) as [_ Hroom1].
    assert (qu_qfds q1 !! destFd r1 = Some dd) as Hd1 by (by rewrite (queued_qfds _ _ _ _ _ Hqd)).
    destruct (submit_write_ok no_forcing fuel Hf this q1 r1 dd rnd2 false
      (queued_runner _ _ _ _ _ Hqd) Hd1 Fd Hq1 Hroom1) as (q6 & H6 & Hqd6).
    rewrite H6 in H4. injection H4 as ->. change (writeOffset r1) with (writeOffset r).
    change (chunk_end r1) with (chunk_end r). rewrite Hlt.
    exact (queued_trans _ _ _ _ _ _ _ _ Hqd Hqd6).
Qed.

(** Opening both files. *)
Lemma open_both_kept C d fuel r q q' :
  queue_kept h0 v0 J C d q -> open_both fuel r q = Ok (None, q') ->
  queue_kept h0 v0 J C d q' /\ same_but_files q q' /\
  exists ds dd, qu_qfds q' !! sourceFd r = Some ds /\ qu_qfds q' !! destFd r = Some dd /\
    2 < q_fd ds /\ 2 < q_fd dd.
Proof.
  intros HK H. unfold open_both in H. apply bind_inv in H as (res & q1 & H1 & H).
  destruct res as [e|]; [done|].
  destruct (ensure_kept h0 v0 J HJ C d _ _ _ _ HK H1) as (HK1 & (A1&A2&A3&A4&A5) & f & f' & Hf & E1 & _ & _ & Hop & _).
  destruct (ensure_kept h0 v0 J HJ C d _ _ _ _ HK1 H) as (HK2 & (B1&B2&B3&B4&B5) & g & g' & Hg & E2 & _ & _ & Hop2 & _).
  split; [done|]. split; [split_and!; congruence|].
  destruct (decide (sourceFd r = destFd r)) as [E|Hne].
  - exists g', g'. rewrite E2, E, lookup_insert_eq. done.
  - exists f', g'. rewrite E2, lookup_insert_eq, lookup_insert_ne by done. rewrite E1, lookup_insert_eq. done.
Qed.

(** The entries of a round are those its runner waits for. *)
Lemma round_requests this sfd dfd rnd1 rnd2 r :
  writeOffset r < chunk_end r -> jobsRunning r = 0 ->
  round_entries no_forcing this sfd dfd rnd1 rnd2 r =
  requests this sfd dfd (submitted no_forcing rnd1 r)
    (if bytes_to_read no_forcing 0 r =? 0 then WriteLeft false else BothLeft).
Proof.
  intros Hw Hj. destruct (submitted_fields no_forcing r rnd1 Hw Hj) as ((E1 & E2 & E3) & E4 & E5 & _).
  destruct (submitted_place no_forcing rnd1 r) as (_ & _ & _ & _ & E6 & _).
  set (r' := submitted no_forcing rnd1 r) in *.
  unfold round_entries. change (forced_partial no_forcing rnd1 r) with false.
  change (bytes_to_read no_forcing rnd1 r) with (bytes_to_read no_forcing 0 r).
  assert (write_entry no_forcing this dfd rnd2 false r = write_entry no_forcing this dfd 0 false r') as ->.
  { unfold write_entry, bytes_to_write. cbn [FORCE_PARTIAL_WRITES no_forcing]. by rewrite E1, E2, E5, E6. }
  assert (bytes_to_read no_forcing 0 r' = bytes_to_read no_forcing 0 r) as En
    by (unfold bytes_to_read; by rewrite E1, E2, E4).
  destruct (bytes_to_read no_forcing 0 r =? 0); [done|]. cbn [app requests]. rewrite En.
  unfold read_entry. by rewrite E1, E3, E4, E6.
Qed.

(** The task of a runner that has its buffer and no requests. *)
Lemma idle_task R Q C v Tq Tk a r :
  runners_ok h0 J R Q C -> tasks_ok h0 v0 R Q v Tq Tk -> R !! a = Some r -> buffer r <> 0 ->
  jobsRunning r = 0 ->
  exists T1 T2 ds dd, Tk = T1 ++ mk_task a AllDone [] [] :: T2 /\
    runs_piece h0 J Q C a r ds dd /\ task_holds h0 v0 Q v (mk_task a AllDone [] []) r ds dd.
Proof.
  intros HR [N1 N2 N3 N4] Hr Hb Hj. pose proof (N4 a r Hr Hb) as Hin.
  apply list_elem_of_fmap in Hin as (t & -> & Ht).
  destruct (task_runs _ _ _ _ _ _ _ _ _ HR (N2 t Ht) Hr) as (ds & dd & Hp & Hth).
  destruct (promise_idle _ _ _ _ _ _ _ (th_promise _ _ _ _ _ _ _ _ Hth) Hj) as (Etd & Ep & _).
  pose proof (th_es _ _ _ _ _ _ _ _ Hth) as Ees. rewrite Etd in Ees. cbn in Ees.
  assert (t = mk_task (t_this t) AllDone [] []) as Et by (destruct t; cbn in *; congruence).
  assert (t ∈ Tk) as Hk.
  { apply elem_of_app in Ht as [Ht|Ht]; [|done]. destruct (N3 t Ht) as [_ [?|?]]; congruence. }
  apply list_elem_of_split in Hk as (T1 & T2 & ->). exists T1, T2, ds, dd. rewrite <- Et. done.
Qed.

Lemma submit_kept C d fuel q this rnd1 rnd2 q' :
  queue_kept h0 v0 J C d q -> addToBatch no_forcing fuel this rnd1 rnd2 q = Ok (None, q') ->
  queue_kept h0 v0 J C d q'.
Proof.
  intros HK H. unfold addToBatch in H. apply bind_inv in H as (r & q1 & Hd & H).
  apply deref_inv in Hd as [Hr ->]. apply bind_inv in H as ([] & q1 & Ha & H).
  apply assert_inv in Ha as [Hnb ->]. apply bind_inv in H as ([] & q1 & Ha & H).
  apply assert_inv in Ha as [He ->]. apply bind_inv in H as ([] & q1 & Ha & H).
  apply assert_inv in Ha as [Hw ->]. apply Z.ltb_lt in Hw. fold (chunk_end r) in Hw.
  assert (savedError r = None) as He' by (by destruct (savedError r)). clear He.
  unfold submitReadWriteCommands in H.
  rewrite (bind_ok _ _ _ _ _ (get_runner_ok _ _ _ Hr)) in H.
  apply bind_inv in H as (res & q1 & Ho & H). destruct res as [e|].
  { apply bind_inv in H as (? & ? & _ & H). by apply bind_inv in H as (? & ? & _ & [= ]). }
  destruct (open_both_kept C d _ _ _ _ HK Ho) as (HK1 & (A1&A2&A3&A4&A5) & ds & dd & Hs & Hd & Fs & Fd).
  rewrite <- A5 in Hr. clear HK Ho A1 A2 A3 A4 A5.
  apply bind_inv in H as ([] & q2 & Ha & H). apply assert_inv in Ha as [Hj ->]. apply Z.eqb_eq in Hj.
  apply bind_inv in H as ([] & q2 & Ha & H). apply assert_inv in Ha as [_ ->].
  pose proof HK1 as [K1 [Hok Hdl (Tq & Tk & Eq & [B1 B2 B3 B4 B5])] _ _ _].
  assert (buffer r <> 0) as Hbuf.
  { intros Eb. destruct (rn_fresh _ _ _ _ _ K1 _ _ Hr Eb) as [_ Ewo _ _ _].
    unfold needsBuffer in Hnb. rewrite Eb in Hnb. unfold chunk_end in Hw.
    destruct (Z.ltb_spec 0 (size r)); [done|lia]. }
  destruct (queue_round_inv fuel this q1 r ds dd rnd1 rnd2 None q' (proj1 Hok) Hr Hj Hs Hd Fs Fd Hw H)
    as (_ & [D1 D2 D3 D4 D5 D6]).
  set (r' := submitted no_forcing rnd1 r) in *.
  destruct (submitted_place no_forcing rnd1 r) as (E1 & E2 & E3 & E4 & E5 & E6). fold r' in E1, E2, E3, E4, E5, E6.
  assert (same_work r r') as Hsw by (by split_and!).
  destruct (idle_task _ _ _ _ _ _ _ _ K1 B1 Hr Hbuf Hj) as (T1 & T2 & ds' & dd' & -> & Hp & Hth).
  pose proof (rp_src _ _ _ _ _ _ _ _ Hp). pose proof (rp_dst _ _ _ _ _ _ _ _ Hp).
  assert (ds' = ds) as -> by congruence. assert (dd' = dd) as -> by congruence.
  destruct (submitted_fields no_forcing r rnd1 Hw Hj) as (_ & _ & Ewo & Eerr & _).
  fold r' in Ewo, Eerr.
  eapply (replaced_kept C d d q1 q' this r r' HK1); try done; try (by rewrite D1); try (by left).
  { rewrite E4. by intros. }
  { intros _. right. intros dd1 Hdd1. assert (dd1 = dd) as -> by congruence. unfold NEVER_OPENED_VAL. lia. }
  assert (qview q' = qview q1) as Ev by (by rewrite D1).
  rewrite Ev. set (td := if bytes_to_read no_forcing 0 r =? 0 then WriteLeft false else BothLeft).
  set (t' := mk_task this td (round_entries no_forcing this (q_fd ds) (q_fd dd) rnd1 rnd2 r) []).
  split; [rewrite D3; by split; [|apply Hok]|by rewrite D3|].
  exists (Tq ++ [t']), (T1 ++ T2). split.
  { rewrite D6. cbn [published acquired]. rewrite app_assoc, Eq, fmap_app, concat_app. cbn. by rewrite app_nil_r. }
  destruct Hth as [_ _ _ Hst Hpr _ _].
  destruct (runs_chunk h0 v0 J HJ _ _ _ _ _ _ Hp) as [Hck _]; [apply Hst|].
  split.
  - eapply tasks_set with (T0 := Tq ++ T1 ++ T2) (t' := t'); [exact B1| | |done| |].
    + apply (without_one (mk_task this AllDone [] [])); [apply B1|].
      rewrite !app_assoc. symmetry. apply Permutation_middle.
    + rewrite <- app_assoc. cbn. symmetry. apply Permutation_middle.
    + exists r', ds, dd. split; [apply lookup_insert_eq|]. split.
      * by rewrite E1.
      * by rewrite E2.
      * by rewrite Eerr.
      * destruct Hst as (S1 & S2 & S3). destruct E6 as (G1 & G2 & G3).
        unfold seated. rewrite E4, E5, G2, G3. done.
      * cbn [t_todo t_pend t'].
        assert (buffer_view r' (qview q1) = buffer_view r (qview q1)) as -> by (unfold buffer_view; by rewrite E5).
        by apply submit_promise.
      * by apply round_requests.
      * done.
    + intros t Ht. apply elem_of_app in Ht as [Ht|Ht%list_elem_of_singleton]; [by apply B1|subst t].
      split; [done|]. cbn. unfold td. destruct (_ =? 0); [by right|by left].
  - by apply files_set.
  - done.
  - unfold in_flight in *. rewrite B4, !bind_app, bind_cons. done.
  - unfold answered in *. rewrite D3. unfold to_handle in *. rewrite B5, !bind_app, bind_cons. done.
Qed.
End rounds.
