(* ===== verification/KeptResults.v ===== *)
(** * Completions and the data of a queue

    A completion taken from the ring belongs to the task of its runner.  When it
    leaves no error the runner goes on and nothing is lost; a runner that is finished
    has copied its piece, and can go. *)

From stdpp Require Import gmap strings.
From S2P Require Import Prelude Abi Prep RingBuf Ring SqSpec CqSpec Kernel Queue QueueSpec Os Util Heap CopyState FileDesc Runner RunnerData RunnerLive RunnerSpec CopyQueue CopyJob SubmitLoop Shape Accounts System Service Rounds ServedFiles Serving Retiring Finishing Contents Promise Ledger Executing Entering Keeping KeptFiles KeptRounds.

Section results.
Context {W : Type} {F : Files W} {K : Kernel W} {CV : Contents W} {CL : ContentLaws W}.
Context (h0 : Heap.heap) (v0 : kview) (J : list job) (HJ : jobs_ok h0 v0 J).
Implicit Types (q : queue W) (r : CopyRunner) (C : gmap Z piece) (t : task).

(** The completion of a request leaves those still to be executed alone. *)
Lemma requests_complete src srclen this sfd dfd spath dpath td ty res r buf dst p1 p2 :
  promise src srclen td r buf dst (p1 ++ (ty, res) :: p2) ->
  requests this sfd dfd (completed no_forcing spath dpath ty res r) td = requests this sfd dfd r td.
Proof.
  intros Hp. destruct td as [|cut|]; [done| |by destruct Hp as [Hp _]; destruct p1].
  assert (ty = EvRead) as ->.
  { destruct ty; [done|exfalso]. destruct (promise_ends _ _ _ _ _ _ _ Hp) as (more & _ & [_ _ _ _ _ _ [Hnd _] _ _] & Hw).
    rewrite fmap_app, fmap_app in Hnd. apply list.NoDup_app in Hnd as (_ & Hnd & _).
    apply (Hnd EvWrite); [apply elem_of_app; right; by left|]. by apply Hw. }
  destruct (completed_write_args spath dpath EvRead res r (or_introl eq_refl)) as (E1 & E2 & E3).
  destruct (completed_place no_forcing spath dpath EvRead res r) as (_ & _ & _ & _ & E5 & _).
  cbn [requests]. unfold write_entry. unfold write_len in E3. by rewrite E1, E2, E3, E5.
Qed.

(** The runner behind a completion, and its task. *)
Lemma head_task C q c rest :
  queue_kept h0 v0 J C 0 q -> cq_contents (r_cq (qu_ring q)) = c :: rest ->
  exists Tq T1 t T2 p1 ty p2 r ds dd,
    books h0 v0 J (qu_runners q) (qu_qfds q) C (qview q) Tq (T1 ++ t :: T2) (to_handle 0 (qu_ring q) (qview q)) /\
    published (sq_abs (r_sq (qu_ring q))) ++ acquired (sq_abs (r_sq (qu_ring q))) = concat (t_es <$> Tq) /\
    t_pend t = p1 ++ (ty, cqe_res c) :: p2 /\ cqe_user_data c = event_addr (t_this t) ty /\
    event_of (cqe_user_data c) = (t_this t, ty) /\ qu_runners q !! t_this t = Some r /\
    runs_piece h0 J (qu_qfds q) C (t_this t) r ds dd /\
    task_holds h0 v0 (qu_qfds q) (qview q) t r ds dd.
Proof.
  intros [K1 [Hok Hd (Tq & Tk & Eq & HB)] _ _ _] Hc.
  destruct (answer_task h0 v0 J _ _ _ _ _ _ _ (cqe_user_data c) (cqe_res c) K1 HB)
    as (T1 & t & T2 & p1 & ty & p2 & -> & Ep & Eud & Eev & _).
  { unfold to_handle. rewrite Hc. apply elem_of_app. left. by left. }
  pose proof (bk_tasks _ _ _ _ _ _ _ _ _ _ HB) as [N1 N2 N3 N4].
  assert (task_ok h0 v0 (qu_runners q) (qu_qfds q) (qview q) t) as Ht
    by (apply N2; rewrite !elem_of_app; right; right; by left).
  pose proof Ht as (r & ds0 & dd0 & Hr & _).
  destruct (task_runs h0 v0 J _ _ _ _ t r K1 Ht Hr) as (ds & dd & Hp & Hth).
  by exists Tq, T1, t, T2, p1, ty, p2, r, ds, dd.
Qed.

(** What handling a completion comes to. *)
Lemma completion_comes C q c rest this ty v q' :
  queue_kept h0 v0 J C 0 q -> cq_contents (r_cq (qu_ring q)) = c :: rest ->
  event_of (cqe_user_data c) = (this, ty) ->
  (forall r, qu_runners q !! this = Some r -> exists n, qu_chunks q !! chunksRemaining r = Some n) ->
  onCompletionEvent no_forcing this ty (cqe_res c) q = Ok (v, q') ->
  exists r r', qu_runners q !! this = Some r /\ qu_runners q' !! this = Some r' /\ v = verdict r' /\
    buffer r' <> 0 /\
    (savedError r' = None -> queue_kept h0 v0 J C 1 q' /\ same_work r r' /\ chunksRemaining r' = chunksRemaining r /\
      exists cs, q' = progressed this r' cs q).
Proof.
  intros HK Hc Hev Hn H.
  destruct (head_task C q c rest HK Hc) as (Tq & T1 & t & T2 & p1 & ty' & p2 & r & ds & dd & HB & Eq & Ep & Eud & Eev & Hr & Hp & Hth).
  rewrite Hev in Eev. injection Eev as -> <-. set (this := t_this t) in *.
  pose proof Hth as [H1 H2 H3 H4 H5 H6 H7].
  destruct (runs_chunk h0 v0 J HJ _ _ _ _ _ _ Hp) as [Hck _]; [apply H4|].
  rewrite Ep in H5. destruct (Hn r Hr) as (n & Hchunks).
  set (r' := completed no_forcing (q_path ds) (q_path dd) ty (cqe_res c) r).
  assert (0 < jobsRunning r <= 2) as Hj.
  { pose proof (promise_jobs _ _ _ _ _ _ _ H5) as E. destruct (promise_few _ _ _ _ _ _ _ H5) as [? _].
    unfold zlen in E. rewrite length_app in E. cbn in E. destruct (t_todo t); cbn in E; lia. }
  destruct (completed_place no_forcing (q_path ds) (q_path dd) ty (cqe_res c) r) as (P1 & P2 & P3 & P4 & P5 & P6).
  fold r' in P1, P2, P3, P4, P5, P6.
  destruct (savedError r') as [e|] eqn:Ee.
  - destruct (onCompletion_ok no_forcing this q r ty (cqe_res c) ds dd n Hr) as (q1 & Hc1 & Hhd & _); [|lia| |].
    + pose proof HK as [_ _ _ _ _]. pose proof (kept_fds _ _ _ _ _ _ HK) as [D1 _ _].
      split; try done. unfold isOpen. split; intros Ho; [destruct (D1 _ _ H1) as [E|[E|E]]|destruct (D1 _ _ H2) as [E|[E|E]]];
        try (by rewrite E in Ho); lia.
    + fold r'. pose proof (completed_error_wo no_forcing _ _ _ _ _ e Ee) as Ewo. fold r' in Ewo.
      rewrite Ewo, (chunk_end_same _ _ P6).
      by apply (promise_range _ _ _ _ _ _ _ H5).
    + fold r' in Hc1, Hhd. rewrite H in Hc1. injection Hc1 as -> ->.
      exists r, r'. split; [done|]. split; [rewrite (ha_runners _ _ _ _ _ Hhd); apply lookup_insert_eq|].
      split; [done|]. split; [rewrite P4; apply H4|]. by rewrite Ee.
  - pose proof (promise_complete _ _ _ (q_path ds) (q_path dd) _ _ _ _ _ _ _ Hck H3 H5 Ee) as H5'. fold r' in H5'.
    rewrite (completion_quiet no_forcing this q r ty (cqe_res c) ds (q_path ds) (q_path dd) Hr H1 H3 Ee) in H;
      [|lia|by apply (promise_range _ _ _ _ _ _ _ H5')].
    fold r' in H. injection H as <- <-. set (cs := counted _ _ _ _ _). set (q' := progressed this r' cs q).
    exists r, r'. split; [done|]. split; [apply lookup_insert_eq|]. split; [done|].
    split; [rewrite P4; apply H4|]. intros _. split; [|split; [by split_and!|split; [done|by exists cs]]].
    assert (same_work r r') as Hsw by (by split_and!).
    eapply (replaced_kept h0 v0 J C 0 1 q q' this r r' HK Hr Hsw); try done; [|by left| |].
    { rewrite P4. by destruct H4 as (_ & ? & _). }
    { intros [_ E]. lia. }
    assert (qview q' = qview q) as Ev by done. rewrite Ev.
    change (qu_ring q') with (qu_ring q). destruct HB as [B1 B2 B3 B4 B5].
    set (t' := mk_task this (t_todo t) (t_es t) (p1 ++ p2)).
    split; [apply HK|rewrite Hc; cbn; lia|]. exists Tq, (T1 ++ t' :: T2). split; [done|].
    split; [|by apply files_set|done| |].
    + eapply tasks_set with (T0 := Tq ++ T1 ++ T2) (t' := t'); [exact B1| | |done| |apply B1].
      * subst this. apply (without_one t); [apply B1|]. rewrite !app_assoc. symmetry. apply Permutation_middle.
      * rewrite !app_assoc. symmetry. apply Permutation_middle.
      * exists r', ds, dd. split; [apply lookup_insert_eq|]. split; rewrite ?P1, ?P2; try done.
        -- destruct H4 as (S1 & S2 & S3). destruct P6 as (G1 & G2 & G3). unfold seated.
           rewrite P4, P5, G2, G3. done.
        -- cbn [t_todo t_pend t']. assert (buffer_view r' (qview q) = buffer_view r (qview q)) as ->
             by (unfold buffer_view; by rewrite P5). exact H5'.
        -- cbn [t_todo t_es t' t_this]. rewrite H6. symmetry. by eapply requests_complete.
    + unfold in_flight in *. rewrite B4, !bind_app, !bind_cons. done.
    + unfold answered in *. rewrite bind_app, bind_cons in *.
      unfold to_handle in *. rewrite Hc in *. cbn [drop] in *. rewrite fmap_cons in B5.
      assert (answer_of c = (event_addr (t_this t) ty, cqe_res c)) as Ea by (unfold answer_of; by rewrite Eud).
      rewrite Ea in B5. unfold t_answers at 2 in B5. rewrite Ep, fmap_app, fmap_cons in B5.
      change (t_answers t') with ((fun '(ty0, res0) => (event_addr this ty0, res0)) <$> p1 ++ p2).
      rewrite fmap_app. subst this.
      apply (Permutation_cons_inv (a := (event_addr (t_this t) ty, cqe_res c))).
      rewrite app_comm_cons, B5. rewrite <- !app_assoc, <- app_comm_cons.
      rewrite (app_assoc _ _ (_ :: _)), <- Permutation_middle, <- app_assoc. done.
Qed.

(** ** A completion given back *)

Lemma seen_kept C q c rest slot :
  queue_kept h0 v0 J C 1 q -> cq_contents (r_cq (qu_ring q)) = c :: rest ->
  queue_kept h0 v0 J C 0
    (set_qring (set_cq (io_uring_cqe_seen (Some slot) (r_cq (qu_ring q))) (qu_ring q)) q).
Proof.
  intros [K1 [Hok Hd (Tq & Tk & Eq & HB)] K3 K4 K5] Hc. set (q' := set_qring _ _).
  destruct (cq_advance_ok (r_cq (qu_ring q)) 1 (proj2 Hok)) as (Hc' & _ & _ & _ & _ & _ & Hdr).
  { rewrite <- (cq_contents_len _ (proj2 Hok)), Hc. unfold zlen. cbn. lia. }
  split; try done. split; [by split; [apply Hok|]|lia|]. exists Tq, Tk. split; [done|].
  assert (to_handle 0 (qu_ring q') (qview q') = to_handle 1 (qu_ring q) (qview q)) as ->; [|done].
  unfold to_handle.
  change (r_cq (qu_ring q')) with (io_uring_cq_advance 1 (r_cq (qu_ring q))). by rewrite Hdr.
Qed.

(** ** A runner that goes *)

(** No other runner is on the files of the last one. *)
Lemma last_alone rm d cur g (l : loop W) a b r rb p :
  loop_ok rm d cur g l -> qu_runners (lq l) !! a = Some r ->
  qu_chunks (lq l) !! chunksRemaining r = Some 1 -> b <> a -> qu_runners (lq l) !! b = Some rb ->
  p = sourceFd rb \/ p = destFd rb -> p <> sourceFd r /\ p <> destFd r.
Proof.
  intros Hl Hr Hn Hne Hrb Hp.
  assert (chunksRemaining rb <> chunksRemaining r) as Ht.
  { intros E. destruct Hl as [(_ & [files Hf] & _) _ _ _].
    destruct (fl_chunks _ _ _ Hf _ _ Hn) as [_ E1].
    assert (0 <= to_come (chunksRemaining r) g).
    { destruct g as [|fds|src dst t k]; cbn; [lia|lia|]. destruct (fl_cut _ _ _ Hf _ _ _ _ eq_refl).
      case_z; lia. }
    unfold sharing in E1.
    rewrite (total_delete _ _ _ _ (shape_owner _ _ _ Hr)) in E1. cbn [ow_tracker owner_of] in E1.
    rewrite Z.eqb_refl in E1.
    assert (0 < sharing (chunksRemaining r) (delete a (sh_owners (shape_of (lq l))))) as Hpos.
    { apply (sharing_pos _ _ b (owner_of rb)); [|done].
      rewrite lookup_delete_ne by done. by apply shape_owner. }
    unfold sharing in Hpos. lia. }
  pose proof (same_file _ _ _ _ _ _ _ _ _ Hl Hr Hrb) as Hsf.
  split; intros E; apply Ht, Hsf; destruct Hp as [-> | ->]; tauto.
Qed.

(** A runner that is done, with its files opened, has copied its piece. *)
Definition all_done r : Prop := buffer r <> 0 /\ writeOffset r = chunk_end r.

Lemma done_copied C d q this r x :
  queue_kept h0 v0 J C d q -> qu_runners q !! this = Some r -> jobsRunning r = 0 ->
  size r = 0 \/ all_done r ->
  (forall dd, qu_qfds q !! destFd r = Some dd -> q_fd dd <> NEVER_OPENED_VAL) ->
  C !! this = Some x -> piece_copied h0 v0 J (qview q) x.
Proof.
  intros HK Hr Hj Hd Hop Hx jb o n al Hpi. pose proof HK as [K1 [_ _ (Tq & Tk & _ & HB)] _ _ _].
  destruct (rn_piece _ _ _ _ _ K1 _ _ Hr) as (ds & dd & [P1 P2 [_ P3] (x' & jb' & P5 & P6 & P7 & P8)]).
  assert (x' = x) as -> by congruence. destruct (piece_is_fun _ _ _ _ _ _ _ _ _ _ _ Hpi P6) as (-> & <- & <- & <-).
  split.
  { eapply (fm_size _ _ _ (bk_fds _ _ _ _ _ _ _ _ _ _ HB)); [exact P2|done|by apply Hop| |done].
    destruct P6 as [Hjb _]. by eapply list_elem_of_lookup_2. }
  intros k Hk.
  destruct Hd as [Hz|[Hb Hw]]; [lia|].
  destruct (idle_task h0 v0 J _ _ _ _ _ _ _ _ K1 (bk_tasks _ _ _ _ _ _ _ _ _ _ HB) Hr Hb Hj)
    as (T1 & T2 & ds' & dd' & _ & _ & [H1 H2 _ _ H5 _ _]).
  assert (ds' = ds) as -> by congruence. assert (dd' = dd) as -> by congruence.
  pose proof (co_dst _ _ _ _ _ _ H5 k) as Hdst.
  rewrite <- P7, <- P8. rewrite Z.sub_0_r in Hdst. apply Hdst.
  rewrite Hw. unfold chunk_end. lia.
Qed.

Lemma done_opened C d q this r dd :
  queue_kept h0 v0 J C d q -> qu_runners q !! this = Some r -> 0 < size r -> all_done r ->
  qu_qfds q !! destFd r = Some dd -> q_fd dd <> NEVER_OPENED_VAL.
Proof.
  intros [K1 _ _ _ K5] Hr Hsz [_ Hw] Hdd Hnev.
  destruct (rn_piece _ _ _ _ _ K1 _ _ Hr) as (ds & dd' & [P1 P2 [_ P3] (x & jb & P5 & P6 & P7 & P8)]).
  assert (dd' = dd) as -> by congruence.
  destruct (K5 _ _ Hdd P3 Hnev _ _ _ _ _ _ P5 P6 (eq_sym P8)) as (r' & Hr' & [Eu _]).
  assert (r' = r) as -> by congruence. unfold chunk_end in Hw. lia.
Qed.

(** Closing the files of a runner that is done, and deleting it. *)
Lemma retire_kept rm dd0 cur g C d (l : loop W) this r res q1 u q2 :
  loop_ok rm dd0 cur g l -> queue_kept h0 v0 J C d (lq l) -> qu_runners (lq l) !! this = Some r ->
  jobsRunning r = 0 -> size r = 0 \/ all_done r ->
  (forall dd, qu_qfds (lq l) !! destFd r = Some dd -> q_fd dd <> NEVER_OPENED_VAL) ->
  handleFileClose this (lq l) = Ok (res, q1) -> delete_runner this q1 = Ok (u, q2) ->
  queue_kept h0 v0 J C d q2 /\ qu_ring q2 = qu_ring (lq l).
Proof.
  intros Hl HK Hr Hj Hdone Hopen Hc Hdel. pose proof HK as [K1 _ _ _ _].
  destruct (rn_piece _ _ _ _ _ K1 _ _ Hr) as (ds & dd & [P1 P2 [Ps Pd] _]).
  assert (sourceFd r <> destFd r) as Hne.
  { intros E. assert (ds = dd) as -> by congruence. apply flags_differ. congruence. }
  destruct (delete_runner_inv _ _ _ _ Hdel) as (r1 & n & Hr1 & _ & Hn & _ & _ & Erg & _).
  assert (exists n0, qu_chunks (lq l) !! chunksRemaining r = Some n0) as (n0 & Hn0).
  { unfold handleFileClose in Hc. rewrite (bind_ok _ _ _ _ _ (get_runner_ok _ _ _ Hr)) in Hc.
    apply bind_inv in Hc as (n0 & q3 & Hd & _). apply deref_inv in Hd as [Hd _]. by exists n0. }
  destruct (file_close_kept h0 v0 J C d (lq l) this r n0 ds dd res q1 HK Hr Hn0 P1 P2 Hne)
    as (HK1 & (A1&A2&A3&A4&A5) & (dd' & Hdd' & Hnev) & Hsame); [|done|].
  { intros -> a ra p Ha Hp Hrp. destruct (decide (a = this)) as [->|Hna]; [congruence|].
    destruct (last_alone _ _ _ _ _ _ _ _ _ p Hl Hr Hn0 Hna Ha) as [N1 N2]; [naive_solver|].
    by destruct Hp. }
  rewrite A5 in Hr1. assert (r1 = r) as -> by congruence. rewrite A4 in Hn.
  assert (n = n0) as -> by congruence. rewrite A1 in Erg. split; [|done].
  assert (qu_runners q1 !! this = Some r) as Hr1' by (by rewrite A5).
  eapply (delete_kept h0 v0 J C d q1 this r n0); try done; [by rewrite A4| | |].
  - intros x Hx. eapply (done_copied C d q1 this r); try done.
    intros d1 Hd1. assert (d1 = dd') as -> by congruence. intros E. by apply (Hopen dd P2), Hnev.
  - intros d1 Hd1. assert (d1 = dd') as -> by congruence. intros E. by apply (Hopen dd P2), Hnev.
  - intros -> b rb p Hb Hrb Hp. rewrite A5 in Hrb. by eapply (last_alone rm dd0 cur g l).
Qed.
End results.
