(* ===== verification/Moves.v ===== *)
(** * What the submit thread may do to a queue

    Each operation on the queue is about one runner.  [Moves] lists what the operations
    are made of: a relation between the state before and the state after that has these
    is kept by every operation, whatever way it takes. *)

From stdpp Require Import gmap strings.
From S2P Require Import Prelude Abi Prep RingBuf Ring SqSpec Kernel Queue Os Util Heap CopyState FileDesc Runner RunnerData RunnerLive RunnerSpec CopyQueue CopyJob SubmitLoop Shape Accounts System Serving Contents Keeping.

Class Moves {W} {F : Files W} (this : Z) (R : queue W -> queue W -> Prop) : Prop := {
  mv_refl q : R q q;
  mv_trans q1 q2 q3 : R q1 q2 -> R q2 q3 -> R q1 q3;
  mv_same q q' : qu_qfds q' = qu_qfds q -> qu_heap q' = qu_heap q -> qu_runners q' = qu_runners q ->
    qu_os q' = qu_os q -> R q q';
  mv_runner q r : R q (set_runners (<[this := r]> (qu_runners q)) q);
  mv_drop q : R q (set_runners (delete this (qu_runners q)) q);
  mv_return q b h : Heap.returnBlock b (qu_heap q) = Ok (tt, h) -> R q (set_heap h q);
  mv_delete q p d : qu_qfds q !! p = Some d -> q_fd d <= 2 -> R q (set_qfds (delete p (qu_qfds q)) q);
  mv_open q p d x q' : qu_qfds q !! p = Some d -> q_fd d <= 2 -> doOpen p q = Ok (x, q') -> R q q';
  mv_close q p x y q' : close_one p x q = Ok (y, q') -> R q q';
}.

(** ** Opening and closing *)

Section open_close.
Context {W : Type} {F : Files W}.
Implicit Types (q : queue W).

Lemma doOpen_inv p q x q' :
  doOpen p q = Ok (x, q') ->
  exists d r o, qu_qfds q !! p = Some d /\ myOpen (q_path d) (q_oflag d) (q_mode d) (qu_os q) = Ok (r, o) /\
    q' = match r with
         | inl _ => set_os o q
         | inr fd => set_qfds (<[p := qfd_set_fd fd d]> (qu_qfds q)) (set_os o q)
         end.
Proof.
  intros H. unfold doOpen in H. apply bind_inv in H as (d & q1 & Hd & H). apply deref_inv in Hd as [Hd ->].
  apply bind_inv in H as (r & q1 & Hx & H). unfold with_os in Hx.
  destruct (myOpen _ _ _ _) as [[y o]| |] eqn:Hm; [|done..]. injection Hx as <- <-.
  exists d, y, o. split; [done|]. split; [done|]. by destruct y; injection H as _ <-.
Qed.

Lemma close_one_inv p x q y q' :
  close_one p x q = Ok (y, q') ->
  exists d, qu_qfds q !! p = Some d /\
    (q' = q \/
     2 < q_fd d /\ exists r o n, myClose (q_fd d) (qu_os q) = Ok (r, o) /\
       q' = set_fdsUsed n (set_qfds (<[p := qfd_set_fd CLOSED_VAL d]> (qu_qfds q)) (set_os o q))).
Proof.
  intros H. unfold close_one in H. apply bind_inv in H as (d & q1 & Hd & H).
  apply deref_inv in Hd as [Hd ->]. exists d. split; [done|].
  destruct (isOpen d); [right|left; by injection H as _ <-].
  apply bind_inv in H as (fd & q1 & Hg & H). unfold getFd in Hg.
  rewrite (bind_ok _ _ _ _ _ (get_qfd_ok _ _ _ Hd)) in Hg.
  apply bind_inv in Hg as ([] & q2 & Ha & Hg). apply assert_inv in Ha as [Ha ->]. injection Hg as <- <-.
  apply Z.ltb_lt in Ha. split; [done|]. apply bind_inv in H as (z & q1 & Hx & H). unfold with_os in Hx.
  destruct (myClose _ _) as [[r o]| |] eqn:Hm; [|done..]. injection Hx as <- <-.
  apply bind_inv in H as ([] & q1 & Hn & H). injection H as _ <-. unfold notifyClosed in Hn.
  rewrite (bind_ok _ _ _ _ _ (get_qfd_ok p (set_os o q) d Hd)) in Hn. injection Hn as <-.
  by eexists r, o, _.
Qed.
End open_close.

Section moves.
Context {W : Type} {F : Files W} (this : Z) (R : queue W -> queue W -> Prop) {MR : Moves this R}.
Implicit Types (q : queue W).

Definition moves {A} (m : prog (queue W) A) : Prop := forall q a q', m q = Ok (a, q') -> R q q'.

(** ** Combinators *)

Lemma moves_ret {A} (a : A) : moves (ret a).
Proof. intros q b q' [= _ <-]. apply mv_refl. Qed.

Lemma moves_raise {A} f : moves (A := A) (raise f).
Proof. by intros q b q' [=]. Qed.

Lemma moves_nofuel {A} : moves (A := A) no_fuel.
Proof. by intros q b q' [=]. Qed.

Lemma moves_gets {A} (f : queue W -> A) : moves (gets f).
Proof. intros q b q' [= _ <-]. apply mv_refl. Qed.

Lemma moves_assert b : moves (assert b).
Proof. intros q u q' H. apply assert_inv in H as [_ ->]. apply mv_refl. Qed.

Lemma moves_bind {A B} (m : prog (queue W) A) (k : A -> prog (queue W) B) :
  moves m -> (forall a, moves (k a)) -> moves (bind m k).
Proof.
  intros Hm Hk q b q' H. apply bind_inv in H as (a & q1 & H1 & H2).
  eapply mv_trans; [by eapply Hm|by eapply Hk].
Qed.

Lemma moves_deref {A} (f : queue W -> gmap Z A) p : moves (deref f p).
Proof. intros q a q' H. apply deref_inv in H as [_ ->]. apply mv_refl. Qed.

Lemma moves_modify (f : queue W -> queue W) :
  (forall q, qu_qfds (f q) = qu_qfds q /\ qu_heap (f q) = qu_heap q /\ qu_runners (f q) = qu_runners q /\
     qu_os (f q) = qu_os q) ->
  moves (modify f).
Proof. intros Hf q u q' [= _ <-]. destruct (Hf q) as (?&?&?&?). by apply mv_same. Qed.

Lemma moves_put_runner r : moves (put_runner this r).
Proof. intros q u q' [= _ <-]. apply mv_runner. Qed.

Lemma moves_close_one p x : moves (close_one p x).
Proof. intros q y q'. apply mv_close. Qed.

Lemma moves_delete_qfd p : moves (delete_qfd p).
Proof.
  intros q u q' H. destruct (delete_qfd_closed _ _ _ _ H) as (d & Hd & Hle).
  apply delete_qfd_inv in H as ->. by eapply mv_delete.
Qed.
End moves.

Create HintDb moves.
#[export] Hint Resolve moves_ret moves_raise moves_nofuel moves_gets moves_assert moves_deref
  moves_put_runner moves_close_one moves_delete_qfd : moves.

Ltac moves :=
  repeat first
    [ progress intros
    | solve [eauto with moves typeclass_instances]
    | (eapply moves_bind; [typeclasses eauto| |])
    | match goal with |- moves _ (if ?b then _ else _) => destruct b end
    | match goal with |- moves _ (match ?x with _ => _ end) => destruct x end
    | (eapply moves_modify; [typeclasses eauto|done]) ].

(** ** The operations *)

Section operations.
Context {W : Type} {F : Files W} {K : Kernel W} (cfg : config) (this : Z) (R : queue W -> queue W -> Prop)
  {MR : Moves this R}.
Implicit Types (q : queue W).

Lemma moves_counters f : moves R (on_counters f).
Proof. unfold on_counters. moves. Qed.
#[local] Hint Resolve moves_counters : moves.

Lemma moves_reserve i p : moves R (reserveFileDescriptor i p).
Proof. unfold reserveFileDescriptor. moves. Qed.
#[local] Hint Resolve moves_reserve : moves.

Lemma moves_reserve_loop fuel : moves R (reserve_loop fuel).
Proof. induction fuel as [|n IH]; cbn [reserve_loop]; moves. Qed.
#[local] Hint Resolve moves_reserve_loop : moves.

Lemma moves_ensureOpened fuel p : moves R (ensureOpened fuel p).
Proof.
  intros q x q' H. unfold ensureOpened in H. apply bind_inv in H as (d & q1 & Hd & H).
  apply deref_inv in Hd as [Hd ->]. apply bind_inv in H as (u & q1 & Ha & H). apply assert_inv in Ha as [_ ->].
  destruct (Z.eqb_spec (q_fd d) NEVER_OPENED_VAL) as [E|E]; [|apply ret_inv in H as [_ ->]; apply mv_refl].
  apply bind_inv in H as (v & q1 & Hr & H). pose proof (moves_reserve_loop _ _ _ _ Hr) as HR.
  apply reserve_loop_inv in Hr as (n & ->). eapply mv_trans; [exact HR|].
  eapply (mv_open _ p d); [exact Hd| |exact H]. rewrite E. unfold NEVER_OPENED_VAL. lia.
Qed.

Lemma moves_getFd p : moves R (getFd p).
Proof. unfold getFd, get_qfd. moves. Qed.
#[local] Hint Resolve moves_ensureOpened moves_getFd : moves.

Lemma moves_fileClose a : moves R (handleFileClose a).
Proof. unfold handleFileClose, get_runner, get_chunks. moves. Qed.
#[local] Hint Resolve moves_fileClose : moves.

Lemma moves_delete_runner : moves R (delete_runner this).
Proof.
  unfold delete_runner, get_runner. eapply moves_bind; [done|by eauto with moves|]. intros r.
  eapply moves_bind; [done|by eauto with moves|]. intros _. eapply moves_bind; [done| |].
  { intros q u q' H. destruct (negb _); [|injection H as _ <-; apply mv_refl].
    apply bind_inv in H as (h & q1 & Hg & H). injection Hg as <- <-.
    destruct (Heap.returnBlock _ _) as [[[] h]| |] eqn:Hr; [|done..]. injection H as _ <-.
    by eapply mv_return. }
  intros _. unfold get_chunks. moves. intros q u q' [= _ <-]. apply mv_drop.
Qed.

Lemma moves_needs a : moves R (needsFileDescriptors a).
Proof. unfold needsFileDescriptors, get_runner, get_qfd. moves. Qed.

Lemma moves_giveBuffer b : moves R (giveBuffer this b).
Proof. unfold giveBuffer, get_runner. moves. Qed.

Lemma moves_sqe_loop fuel : moves R (sqe_loop fuel).
Proof.
  induction fuel as [|n IH]; cbn [sqe_loop]; [moves|]. eapply moves_bind; [done|moves|]. intros ring.
  destruct (io_uring_get_sqe (r_sq ring)) as [slot sq]. moves.
Qed.
#[local] Hint Resolve moves_sqe_loop : moves.

Lemma moves_getSqe fuel : moves R (getSqe fuel this).
Proof. unfold getSqe, get_runner. moves. Qed.

Lemma moves_fill slot f : moves R (fill_sqe slot f).
Proof. unfold fill_sqe. moves. Qed.
#[local] Hint Resolve moves_getSqe moves_fill : moves.

Lemma moves_submit_read fuel n forced : moves R (submit_read fuel this n forced).
Proof. unfold submit_read, get_runner. moves. Qed.

Lemma moves_submit_write fuel rnd forced : moves R (submit_write cfg fuel this rnd forced).
Proof. unfold submit_write, get_runner. moves. Qed.

Lemma moves_cleanup a : moves R (cleanupOnError a).
Proof. unfold cleanupOnError. moves. Qed.

Lemma moves_open_both fuel r : moves R (open_both fuel r).
Proof. unfold open_both. moves. Qed.
#[local] Hint Resolve moves_submit_read moves_submit_write moves_cleanup moves_open_both : moves.

Lemma moves_addToBatch fuel rnd1 rnd2 : moves R (addToBatch cfg fuel this rnd1 rnd2).
Proof. unfold addToBatch, submitReadWriteCommands, get_runner. moves. Qed.

Lemma moves_saveError e : moves R (saveError this e).
Proof. unfold saveError, get_runner. moves. Qed.
#[local] Hint Resolve moves_saveError : moves.

Lemma moves_on_read n : moves R (on_read this n).
Proof. unfold on_read, get_runner, get_qfd. moves. Qed.

Lemma moves_on_write n : moves R (on_write this n).
Proof. unfold on_write, get_runner, get_qfd. moves. Qed.
#[local] Hint Resolve moves_on_read moves_on_write : moves.

Lemma moves_completion t n : moves R (onCompletionEvent cfg this t n).
Proof. unfold onCompletionEvent, get_runner. moves. Qed.
End operations.

#[export] Hint Resolve moves_counters moves_ensureOpened moves_fileClose moves_delete_runner moves_needs
  moves_giveBuffer moves_addToBatch moves_completion : moves.

Section loops.
Context {W : Type} {F : Files W} {K : Kernel W} (cfg : config) (rand : Z -> Z) (this : Z)
  (R : queue W -> queue W -> Prop) {MR : Moves this R}.
Implicit Types (l : loop W).

(** ** The submit thread *)

Record drift l l' : Prop := {
  df_queue : R (lq l) (lq l');
  df_buffer : nextBuffer l' = nextBuffer l \/ nextBuffer l' = 0;
}.

Definition drifts {A} (m : prog (loop W) A) : Prop :=
  forall l a l', m l = Ok (a, l') -> drift l l'.

Lemma drift_refl l : drift l l.
Proof. split; [apply mv_refl|by left]. Qed.

Lemma drift_trans l1 l2 l3 : drift l1 l2 -> drift l2 l3 -> drift l1 l3.
Proof.
  intros [A1 A2] [B1 B2]. split; [by eapply mv_trans|].
  destruct B2 as [-> | ->]; [done|by right].
Qed.

Lemma drift_same l l' : lq l' = lq l -> nextBuffer l' = nextBuffer l -> drift l l'.
Proof. intros E1 E2. split; [rewrite E1; apply mv_refl|by left]. Qed.

Lemma drifts_ret {A} (a : A) : drifts (ret a).
Proof. intros l b l' H. apply ret_inv in H as [_ ->]. apply drift_refl. Qed.

Lemma drifts_bind {A B} (m : prog (loop W) A) (k : A -> prog (loop W) B) :
  drifts m -> (forall a, drifts (k a)) -> drifts (bind m k).
Proof.
  intros Hm Hk l b l' H. apply bind_inv in H as (a & l1 & H1 & H2).
  eapply drift_trans; [by eapply Hm|by eapply Hk].
Qed.

Lemma drifts_queue {A} (m : prog (queue W) A) : moves R m -> drifts (on_cq (on_queue m)).
Proof.
  intros Hm l a l' H. apply lift_inv in H as (q & H & ->). split; [by eapply Hm|by left].
Qed.

Lemma drifts_cq (f : cqueue W -> cqueue W) :
  (forall c, cq_queue (f c) = cq_queue c) -> drifts (on_cq (modify f)).
Proof.
  intros Hf l u l' H. apply on_cq_inv in H as (c & H & ->). apply modify_inv in H as ->.
  apply drift_same; [|done]. unfold lq. cbn. apply Hf.
Qed.

Lemma drifts_report r : drifts (report r).
Proof. destruct r; [by apply drifts_cq|apply drifts_ret]. Qed.

Lemma drifts_on_result v : drifts (on_result this v).
Proof.
  destruct v as [e| | |]; cbn [on_result].
  - apply drifts_bind; [by apply drifts_cq|]. intros _. apply drifts_queue. eauto with moves.
  - intros l u l' H. apply modify_inv in H as ->. by apply drift_same.
  - apply drifts_bind; [apply drifts_queue; by eauto with moves|]. intros res.
    apply drifts_bind; [apply drifts_report|]. intros _.
    apply drifts_bind; [apply drifts_queue; eauto with moves|]. intros r.
    apply drifts_bind; [by apply drifts_cq|]. intros _. apply drifts_queue. eauto with moves.
  - apply drifts_ret.
Qed.

Lemma drifts_add_empty fuel : drifts (add_empty fuel this).
Proof.
  unfold add_empty. apply drifts_bind; [apply drifts_queue; eauto with moves|]. intros r.
  apply drifts_bind; [apply drifts_queue; by eauto with moves|]. intros res.
  apply drifts_bind; [destruct res; [apply drifts_ret|apply drifts_queue; by eauto with moves]|].
  intros res'. apply drifts_bind; [apply drifts_report|]. intros _. apply drifts_queue. eauto with moves.
Qed.

(** What is done with the runner in hand. *)
Lemma drifts_hand fuel :
  drifts (let* r := on_cq (on_queue (get_runner this)) in
    if size r =? 0 then do* add_empty fuel this in ret (false, 0)
    else
      let* rnd1 := next_rand rand in
      let* rnd2 := next_rand rand in
      let* result := on_cq (on_queue (addToBatch cfg fuel this rnd1 rnd2)) in
      match result with
      | Some e =>
          do* on_cq (on_queue (delete_runner this)) in
          do* on_cq (onError e) in
          ret (true, 0)
      | None => ret (false, 1)
      end).
Proof.
  assert (drifts (next_rand rand)) as Hrand by (intros l a l' [= _ <-]; by apply drift_same).
  apply drifts_bind; [apply drifts_queue; eauto with moves|]. intros r. destruct (size r =? 0).
  { apply drifts_bind; [apply drifts_add_empty|]. intros _. apply drifts_ret. }
  do 2 (apply drifts_bind; [done|]; intros ?).
  apply drifts_bind; [apply drifts_queue; eauto with moves|]. intros [e|]; [|apply drifts_ret].
  apply drifts_bind; [apply drifts_queue; eauto with moves|]. intros _.
  apply drifts_bind; [by apply drifts_cq|]. intros _. apply drifts_ret.
Qed.

Lemma drifts_completion t n : drifts (on_completion cfg this t n).
Proof.
  unfold on_completion. apply drifts_bind; [apply drifts_queue; eauto with moves|]. apply drifts_on_result.
Qed.
End loops.

(** ** What the submit thread leaves alone

    Each operation on the queue is about one runner.  It deletes descriptors or gives
    them numbers, never other paths; it does not touch another runner, nor the layout
    of the heap. *)

Section calm.
Context {W : Type} {F : Files W} {K : Kernel W} (this : Z).
Implicit Types (q : queue W).

(** No descriptor but those there were, with the paths they had. *)
Definition no_new_files (Q Q' : gmap Z QueueFileDescriptor) : Prop :=
  forall p f', Q' !! p = Some f' -> exists f, Q !! p = Some f /\ file_of f' = file_of f.

Record calm q q' : Prop := {
  ca_files : no_new_files (qu_qfds q) (qu_qfds q');
  ca_heap : geometry (qu_heap q) (qu_heap q');
  ca_runners : forall b, b <> this -> qu_runners q' !! b = qu_runners q !! b;
}.

Lemma no_new_refl Q : no_new_files Q Q.
Proof. intros p f H. by exists f. Qed.

Lemma no_new_trans Q1 Q2 Q3 : no_new_files Q1 Q2 -> no_new_files Q2 Q3 -> no_new_files Q1 Q3.
Proof.
  intros H1 H2 p f3 H. destruct (H2 p f3 H) as (f2 & Hf2 & E2). destruct (H1 p f2 Hf2) as (f1 & Hf1 & E1).
  exists f1. split; [done|congruence].
Qed.

Lemma geometry_refl h : geometry h h.
Proof. by split_and!. Qed.

Lemma geometry_trans h1 h2 h3 : geometry h1 h2 -> geometry h2 h3 -> geometry h1 h3.
Proof. intros (?&?&?&?) (?&?&?&?). split_and!; congruence. Qed.

Lemma calm_refl q : calm q q.
Proof. split; [apply no_new_refl|apply geometry_refl|done]. Qed.

Lemma calm_trans q1 q2 q3 : calm q1 q2 -> calm q2 q3 -> calm q1 q3.
Proof.
  intros [A1 A2 A3] [B1 B2 B3]. split; [by eapply no_new_trans|by eapply geometry_trans|].
  intros b Hb. by rewrite B3, A3.
Qed.

Lemma calm_same q q' :
  qu_qfds q' = qu_qfds q -> qu_heap q' = qu_heap q -> qu_runners q' = qu_runners q -> calm q q'.
Proof. intros E1 E2 E3. split; rewrite ?E1, ?E2, ?E3; [apply no_new_refl|apply geometry_refl|done]. Qed.

(** Storing into a descriptor that is there. *)
Lemma calm_put_qfd q p f f' :
  qu_qfds q !! p = Some f -> file_of f' = file_of f -> calm q (set_qfds (<[p := f']> (qu_qfds q)) q).
Proof.
  intros Hf E. split; [|apply geometry_refl|done]. intros p0 f0 H0.
  cbn in H0. apply lookup_insert_Some in H0 as [[<- <-]|[_ H0]]; [by exists f|by exists f0].
Qed.

Lemma calm_on_ring {A} (m : prog (ust W) A) q a q' : on_ring m q = Ok (a, q') -> calm q q'.
Proof.
  intros H. unfold on_ring in H. destruct (m _) as [[b u]| |]; [|done..].
  injection H as _ <-. by apply calm_same.
Qed.

Lemma calm_doOpen p q x q' : doOpen p q = Ok (x, q') -> calm q q'.
Proof.
  intros (d & r & o & Hd & _ & ->)%doOpen_inv. destruct r; [by apply calm_same|].
  apply (calm_trans _ (set_os o q)); [by apply calm_same|by apply (calm_put_qfd (set_os o q) p d)].
Qed.

Lemma calm_close_one p x q y q' : close_one p x q = Ok (y, q') -> calm q q'.
Proof.
  intros (d & Hd & [->|(_ & r & o & n & _ & ->)])%close_one_inv; [apply calm_refl|].
  apply (calm_trans _ (set_os o q)); [by apply calm_same|].
  apply (calm_trans _ (set_qfds (<[p := qfd_set_fd CLOSED_VAL d]> (qu_qfds q)) (set_os o q)));
    [by apply (calm_put_qfd (set_os o q) p d)|by apply calm_same].
Qed.

Lemma returnBlock_geometry b h h' : Heap.returnBlock b h = Ok (tt, h') -> geometry h h'.
Proof.
  intros H. unfold Heap.returnBlock in H. apply bind_inv in H as (h1 & h2 & Hg & H). injection Hg as <- <-.
  apply bind_inv in H as ([] & h1 & Ha & H). apply assert_inv in Ha as [_ ->].
  apply bind_inv in H as ([] & h1 & Ha & H). apply assert_inv in Ha as [_ ->].
  apply bind_inv in H as ([] & h1 & Ha & H). apply assert_inv in Ha as [_ ->].
  destruct (zset _ _ _) as [l|]; [|done]. injection H as <-. by split_and!.
Qed.

#[export] Instance calm_moves : Moves this calm.
Proof.
  split.
  - apply calm_refl.
  - apply calm_trans.
  - intros q q' E1 E2 E3 _. by apply calm_same.
  - intros q r. split; [apply no_new_refl|apply geometry_refl|]. intros b Hb. cbn. by rewrite lookup_insert_ne.
  - intros q. split; [apply no_new_refl|apply geometry_refl|]. intros b Hb. cbn. by rewrite lookup_delete_ne.
  - intros q b h Hr. split; [apply no_new_refl|by eapply returnBlock_geometry|done].
  - intros q p f _ _. split; [|apply geometry_refl|done]. intros p0 f0 H0. cbn in H0.
    apply lookup_delete_Some in H0 as [_ H0]. by exists f0.
  - intros q p f x q' _ _. apply calm_doOpen.
  - intros q p x y q'. apply calm_close_one.
Qed.
End calm.

(** ** Calls into liburing

    What io_uring_enter(2) leaves as it is, every call into the library does. *)
Section apart.
Context {W : Type} {K : Kernel W} {X : Type} (obs : W -> X).
Context (Henter : forall w r fd sub mn fl a sz w' r' v e,
  sys_enter w r fd sub mn fl a sz = (w', r', v, e) -> obs w' = obs w).

Definition apart_from {A} (m : prog (ust W) A) : Prop :=
  forall s a s', m s = Ok (a, s') -> obs (u_world s') = obs (u_world s).

Lemma apart_ret {A} (a : A) : apart_from (ret a).
Proof. by intros s b s' [= _ <-]. Qed.

Lemma apart_raise {A} f : apart_from (A := A) (raise f).
Proof. by intros s b s' [=]. Qed.

Lemma apart_nofuel {A} : apart_from (A := A) no_fuel.
Proof. by intros s b s' [=]. Qed.

Lemma apart_gets {A} (f : ust W -> A) : apart_from (gets f).
Proof. by intros s b s' [= _ <-]. Qed.

Lemma apart_set_ring r : apart_from (set_ring r).
Proof. by intros s b s' [= _ <-]. Qed.

Lemma apart_bind {A B} (m : prog (ust W) A) (k : A -> prog (ust W) B) :
  apart_from m -> (forall a, apart_from (k a)) -> apart_from (bind m k).
Proof.
  intros Hm Hk s b s' H. apply bind_inv in H as (a & s1 & H1 & H2).
  rewrite <- (Hm _ _ _ H1). by eapply Hk.
Qed.

Lemma apart_enter fd sub mn fl a sz : apart_from (__sys_io_uring_enter2 fd sub mn fl a sz).
Proof.
  intros s v s' H. unfold __sys_io_uring_enter2 in H.
  destruct (sys_enter _ _ _ _ _ _ _ _) as [[[w r'] v'] e] eqn:He. injection H as _ <-. by eapply Henter.
Qed.

Create HintDb apart.
#[local] Hint Resolve apart_ret apart_raise apart_nofuel apart_gets apart_set_ring apart_enter : apart.

Ltac apart :=
  unfold ring, get_errno, __sys_io_uring_enter;
  repeat first
    [ progress intros
    | solve [auto with apart]
    | apply apart_bind
    | match goal with |- apart_from (if ?b then _ else _) => destruct b end
    | match goal with |- apart_from (match ?x with _ => _ end) => destruct x end ].

Lemma apart_get_cqe_loop n w r d : apart_from (get_cqe_loop n w r d).
Proof.
  revert r d. induction n as [|n IH]; intros r d; cbn [get_cqe_loop]; [apart|].
  apply apart_bind; [|by apart]. unfold get_cqe_iter, peek_cqe, get_cqe_enter. apart.
Qed.

Lemma apart_peek fuel : apart_from (io_uring_peek_cqe fuel).
Proof. apply apart_get_cqe_loop. Qed.

Lemma apart_submit : apart_from io_uring_submit.
Proof. unfold io_uring_submit, __io_uring_submit_and_wait, __io_uring_submit, flush_sq. apart. Qed.

Lemma apart_ring {A} (m : prog (ust W) A) (q : queue W) a q' :
  apart_from m -> on_ring m q = Ok (a, q') ->
  obs (o_world (qu_os q')) = obs (o_world (qu_os q)) /\ qu_qfds q' = qu_qfds q.
Proof.
  intros Hm H. unfold on_ring in H. set (s := mk_ust _ _ _) in H.
  destruct (m s) as [[b s']| |] eqn:E; [|done..]. injection H as _ <-. split; [exact (Hm _ _ _ E)|done].
Qed.
End apart.
