(* ===== verification/Drift.v ===== *)
(** * Trouble does not go away

    A runner with a saved error and requests outstanding, or a message of an error,
    tells that some copy failed.  Whatever either thread does next, one of the two
    still tells so: only the completion that reports a saved error removes its
    runner. *)

From stdpp Require Import gmap strings.
From S2P Require Import Prelude Abi Prep RingBuf Ring SqSpec Kernel Queue Os Util Heap CopyState FileDesc Runner RunnerData RunnerLive RunnerSpec CopyQueue CopyJob SubmitLoop Shape Accounts System SystemSpec Lifecycle Serving Contents Keeping Moves.

Section drift.
Context {W : Type} {F : Files W} {K : Kernel W} (cfg : config) (rand : Z -> Z).
Implicit Types (q : queue W) (l : loop W) (g : stage).

(** ** Taking a runner *)

(** A block at hand, or none. *)
Definition buffer_ok (h0 : Heap.heap) l : Prop :=
  nextBuffer l = 0 \/ exists i, 0 <= i < Heap.blocks h0 /\ nextBuffer l = Heap.block_at h0 i.

Lemma reserve_inv l u l' :
  Heap.heap_ok (qu_heap (lq l)) -> reserve_buffer l = Ok (u, l') ->
  exists h, lq l' = set_heap h (lq l) /\ geometry (qu_heap (lq l)) h /\ waiting l' = waiting l /\
    errorMessages (lp_cq l') = errorMessages (lp_cq l) /\
    (nextBuffer l' = nextBuffer l \/ exists i, 0 <= i < Heap.blocks (qu_heap (lq l)) /\
       nextBuffer l' = Heap.block_at (qu_heap (lq l)) i).
Proof.
  intros Hh H. unfold reserve_buffer in H. apply bind_inv in H as (l0 & l1 & Hg & H). injection Hg as <- <-.
  assert (set_heap (qu_heap (lq l)) (lq l) = lq l) as Eid by (by destruct (lq l)).
  destruct (Z.eqb_spec (nextBuffer l) 0) as [E|E].
  2:{ apply ret_inv in H as [_ ->]. exists (qu_heap (lq l)). split_and!; try done. by left. }
  apply bind_inv in H as (q & l1 & Hg & H). injection Hg as <- <-. fold (lq l) in H.
  pose proof (Heap.getBlock_spec _ Hh) as Hs. destruct (Heap.getBlock (qu_heap (lq l))) as [b h] eqn:Hgb.
  apply bind_inv in H as ([] & l1 & H1 & H). injection H1 as <-. injection H as _ <-.
  exists h. split; [done|]. destruct b as [b|].
  - destruct Hs as (k & -> & Hk & -> & _). split; [by split_and!|]. split; [done|]. split; [done|]. right.
    exists k. split; [|done]. pose proof (zget_range _ _ _ Hk) as Hr. by rewrite (Heap.ho_len _ Hh) in Hr.
  - destruct Hs as [-> _]. split; [apply geometry_refl|]. split; [done|]. split; [done|]. left. cbn. by rewrite E.
Qed.

Lemma take_continue_inv l r l' :
  take_continue l = Ok (r, l') ->
  lq l' = lq l /\ nextBuffer l' = nextBuffer l /\ errorMessages (lp_cq l') = errorMessages (lp_cq l) /\
  match r with Some a => a ∈ waiting l | None => l' = l end.
Proof.
  intros H. unfold take_continue in H. apply bind_inv in H as (l0 & l1 & Hg & H). injection Hg as <- <-.
  destruct (copiesPendingContinue l) as [|a rest] eqn:Hc; [by apply ret_inv in H as [-> ->]|].
  apply bind_inv in H as (d & l1 & Hd & H). apply lift_runner in Hd as ->.
  apply bind_inv in H as ([] & l1 & Ha & H). apply assert_inv in Ha as [_ ->].
  apply bind_inv in H as ([] & l1 & Hm & H). apply modify_inv in Hm as ->. apply ret_inv in H as [-> ->].
  split_and!; try done. unfold waiting. rewrite Hc, elem_of_app. right. by left.
Qed.

(** The first copy waiting, with the buffer at hand if it needs one. *)
Lemma take_start_inv l r l' :
  take_start l = Ok (r, l') ->
  errorMessages (lp_cq l') = errorMessages (lp_cq l) /\
  match r with
  | None => l' = l
  | Some a => a ∈ waiting l /\
      exists d, qu_runners (lq l) !! a = Some d /\
      if needsBuffer d then giveBuffer a (nextBuffer l) (lq l) = Ok (tt, lq l') /\ nextBuffer l' = 0
      else lq l' = lq l /\ nextBuffer l' = nextBuffer l
  end.
Proof.
  intros H. unfold take_start in H. apply bind_inv in H as (l0 & l1 & Hg & H). injection Hg as <- <-.
  destruct (copiesPendingStart (lp_cq l)) as [|a rest] eqn:Hc; [done|].
  apply bind_inv in H as (q & l1 & Hg & H). injection Hg as <- <-.
  apply bind_inv in H as (needs & l1 & Hn & H).
  assert (l1 = l) as ->.
  { apply lift_inv in Hn as (q1 & Hn & ->). unfold needsFileDescriptors in Hn.
    apply bind_inv in Hn as (r0 & q2 & Hd & Hn). apply deref_inv in Hd as [_ ->].
    apply bind_inv in Hn as (s & q2 & Hd & Hn). apply deref_inv in Hd as [_ ->].
    destruct (negb (isOpen s)); [injection Hn as _ <-; apply lp_set_queue_id|].
    apply bind_inv in Hn as (d & q2 & Hd & Hn). apply deref_inv in Hd as [_ ->].
    injection Hn as _ <-. apply lp_set_queue_id. }
  destruct (negb _ || negb needs); [|by apply ret_inv in H as [-> ->]].
  apply bind_inv in H as (d & l2 & Hd & H). pose proof Hd as Hd'. apply lift_runner in Hd' as ->.
  apply lift_inv in Hd as (q1 & Hd & _). apply deref_inv in Hd as [Hd _].
  apply bind_inv in H as ([] & l2 & Hb & H).
  apply bind_inv in H as ([] & l3 & Hm & H). apply ret_inv in H as [-> ->].
  apply on_cq_inv in Hm as (c & Hm & ->). apply modify_inv in Hm as ->.
  assert (a ∈ waiting l) as Ha by (unfold waiting; rewrite Hc; by left).
  destruct (needsBuffer d) eqn:Hnb.
  - apply bind_inv in Hb as ([] & l3 & Hgb & Hb). apply lift_inv in Hgb as (q3 & Hgb & ->).
    apply modify_inv in Hb as ->. split; [done|]. split; [done|]. exists d. rewrite Hnb. done.
  - apply ret_inv in Hb as [_ ->]. split; [done|]. split; [done|]. exists d. rewrite Hnb. done.
Qed.

(** ** Trouble *)

Definition failing q : Prop :=
  exists b r, qu_runners q !! b = Some r /\ savedError r <> None /\ jobsRunning r <> 0.

(** More messages than [n], or a failing runner. *)
Definition trouble (n : Z) l : Prop := n < zlen (errorMessages (lp_cq l)) \/ failing (lq l).

Lemma errs_more l l' : errs l l' -> zlen (errorMessages (lp_cq l)) <= zlen (errorMessages (lp_cq l')).
Proof. intros (es & -> & _). unfold zlen. rewrite length_app. lia. Qed.

Lemma failing_calm this q q' :
  calm this q q' -> (forall r, qu_runners q !! this = Some r -> jobsRunning r = 0) ->
  failing q -> failing q'.
Proof.
  intros [_ _ Hc] Hj (b & r & Hr & He & Hne). exists b, r. split; [|done].
  rewrite Hc; [done|]. intros ->. by apply Hne, Hj.
Qed.

Lemma failing_same q q' : qu_runners q' = qu_runners q -> failing q -> failing q'.
Proof. intros E (b & r & Hr & H). exists b, r. by rewrite E. Qed.

(** A step that only concerns a runner without requests. *)
Definition idle_drift (l l' : loop W) : Prop :=
  no_new_files (qu_qfds (lq l)) (qu_qfds (lq l')) /\ geometry (qu_heap (lq l)) (qu_heap (lq l')) /\
  (nextBuffer l' = nextBuffer l \/ nextBuffer l' = 0 \/
     exists i, 0 <= i < Heap.blocks (qu_heap (lq l)) /\ nextBuffer l' = Heap.block_at (qu_heap (lq l)) i) /\
  (failing (lq l) -> failing (lq l')).

(** What adding a runner comes to: a block of the heap may be taken, and then one idle
    runner is dealt with. *)
Lemma add_one_parts g fuel l v l' :
  loop_ok 0 0 [] g l -> add_one cfg rand fuel l = Ok (v, l') ->
  l' = l \/ exists this h l1,
    (forall r, qu_runners (lq l) !! this = Some r -> jobsRunning r = 0) /\
    lq l1 = set_heap h (lq l) /\ geometry (qu_heap (lq l)) h /\
    (nextBuffer l1 = nextBuffer l \/ exists i, 0 <= i < Heap.blocks (qu_heap (lq l)) /\
       nextBuffer l1 = Heap.block_at (qu_heap (lq l)) i) /\
    forall R, Moves this R -> drift R l1 l'.
Proof.
  intros Hl H. unfold add_one, add_one_seen in H. apply bind_inv in H as (w & l1 & Hw & H).
  injection Hw as <- <-. destruct (_ || _ || _); [apply ret_inv in H as [_ ->]; by left|right].
  apply bind_inv in H as ([] & l1 & H1 & H).
  destruct Hl as [(Hw & _ & Hb & Hf) _ _ _]. pose proof (bl_heap _ _ _ Hb) as Hh.
  apply (reserve_inv _ _ _ Hh) in H1 as (h & E1 & G1 & W1 & _ & B1).
  assert (forall a r, a ∈ waiting l -> qu_runners (lq l) !! a = Some r -> jobsRunning r = 0) as Hidle.
  { intros a r Ha Hr. apply (wk_idle _ _ _ Hw) in Ha as (o & Ho & Hj).
    rewrite (shape_owner _ _ _ Hr) in Ho. by injection Ho as <-. }
  apply bind_inv in H as (c & l2 & H2 & H). apply bind_inv in H as (l2' & l2'' & Hg & H).
  injection Hg as <- <-. apply bind_inv in H as (toAdd & l3 & H3 & H).
  apply take_continue_inv in H2 as (Q2 & N2 & _ & Hc).
  assert (match toAdd with Some a => a ∈ waiting l | None => True end /\
    forall a R, Moves a R -> match toAdd with Some b => a = b | None => True end -> drift R l1 l3)
    as [Hin Htake].
  { assert (forall a R, Moves a R -> drift R l1 l2) as D2 by (intros a R MR; by apply (drift_same a R)).
    destruct c as [a|].
    - apply ret_inv in H3 as [-> ->]. rewrite W1 in Hc. split; [done|]. intros b R MR _. by apply (D2 b).
    - subst l2. destruct (_ && _); [|apply ret_inv in H3 as [-> ->]; split; [done|]; intros b R MR _; by apply (D2 b)].
      apply take_start_inv in H3 as [_ H3].
      destruct toAdd as [a|]; [|subst l3; split; [done|]; intros b R MR _; by apply (D2 b)].
      destruct H3 as (Ha & d & _ & Hd). rewrite W1 in Ha. split; [done|]. intros b R MR ->.
      destruct (needsBuffer d); [|destruct Hd; by apply (drift_same a R)].
      destruct Hd as [Hd Hnb]. split; [by eapply (moves_giveBuffer a R)|by right]. }
  destruct toAdd as [this|].
  - exists this, h, l1. split; [intros r; by apply Hidle|]. do 3 (split; [done|]). intros R MR.
    eapply (drift_trans this R); [by apply (Htake this)|by eapply (drifts_hand cfg rand this R)].
  - apply ret_inv in H as [_ ->]. exists (next_addr (lp_cq l)), h, l1. split.
    { intros r Hr. pose proof (fr_owners _ _ Hf _ (Z.le_refl _)) as Hno. by rewrite (shape_owner _ _ _ Hr) in Hno. }
    do 3 (split; [done|]). intros R MR. by apply (Htake (next_addr (lp_cq l))).
Qed.

Lemma add_one_drift g fuel l v l' :
  loop_ok 0 0 [] g l -> add_one cfg rand fuel l = Ok (v, l') -> idle_drift l l'.
Proof.
  intros Hl H. destruct (add_one_parts _ _ _ _ _ Hl H) as [->|(this & h & l1 & Hj & E1 & G1 & B1 & Hd)].
  { split_and!; [apply no_new_refl|apply geometry_refl|by left|done]. }
  destruct (Hd (calm this) _) as [[D1 D2 D3] D4]. rewrite E1 in *. split; [exact D1|].
  split; [by eapply geometry_trans|]. split.
  - destruct D4 as [-> | ->]; [|by right; left]. destruct B1 as [?|?]; [by left|by right; right].
  - apply (failing_calm this); [|done]. split; [exact D1|by eapply geometry_trans|exact D3].
Qed.

(** ** Completions *)

Lemma completion_failing this t n q v q' r :
  onCompletionEvent cfg this t n q = Ok (v, q') -> qu_runners q !! this = Some r -> savedError r <> None ->
  (exists e, v = RError e) \/ v = ContinueTag /\ failing q'.
Proof.
  intros H Hr He. unfold onCompletionEvent in H. rewrite (bind_ok _ _ _ _ _ (get_runner_ok _ _ _ Hr)) in H.
  set (j := s32 (jobsRunning r - 1)) in *. set (r1 := r_set_jobs j r) in *.
  apply bind_inv in H as ([] & q1 & H1 & H). injection H1 as <-.
  apply bind_inv in H as ([] & q1 & Ha & H). apply assert_inv in Ha as [_ ->].
  destruct (savedError r) as [e|] eqn:Ee; [|done].
  set (q1 := set_runners (<[this := r1]> (qu_runners q)) q) in *.
  rewrite (bind_ok _ _ q1 tt q1) in H by done.
  assert (qu_runners q1 !! this = Some r1) as Hr1 by apply lookup_insert_eq.
  rewrite (bind_ok _ _ _ _ _ (get_runner_ok _ _ _ Hr1)) in H.
  apply bind_inv in H as ([] & q2 & Ha & H). apply assert_inv in Ha as [_ ->].
  change (jobsRunning r1) with j in H. change (savedError r1) with (savedError r) in H. rewrite Ee in H.
  destruct (Z.eqb_spec j 0) as [Ej|Ej]; injection H as <- <-; [left; by eexists|right].
  split; [done|]. exists this, r1. split; [done|]. split; [|done].
  change (savedError r1) with (savedError r). by rewrite Ee.
Qed.

(** The error of a verdict is reported. *)
Lemma error_grows this e l u l' :
  on_result this (RError e) l = Ok (u, l') -> zlen (errorMessages (lp_cq l)) < zlen (errorMessages (lp_cq l')).
Proof.
  intros H. cbn [on_result] in H. apply bind_inv in H as ([] & l1 & H1 & H). injection H1 as <-.
  apply lift_inv in H as (q & _ & ->). cbn. unfold zlen. rewrite length_app. cbn. lia.
Qed.

Lemma completion_trouble this t n l u l' :
  on_completion cfg this t n l = Ok (u, l') -> failing (lq l) -> trouble (zlen (errorMessages (lp_cq l))) l'.
Proof.
  intros H (b & r & Hr & He & Hj). pose proof H as H'. unfold on_completion in H'.
  apply bind_inv in H' as (v & l1 & H1 & H2). apply lift_inv in H1 as (q & H1 & ->).
  destruct (decide (b = this)) as [->|Hne].
  - destruct (completion_failing _ _ _ _ _ _ _ H1 Hr He) as [[e ->]|[-> Hf]].
    + left. by apply error_grows in H2.
    + right. by apply ret_inv in H2 as [_ ->].
  - right. destruct (drifts_completion cfg this (calm this) _ _ _ _ _ H) as [[_ _ Hc] _]. exists b, r. by rewrite Hc.
Qed.

(** What handling a completion comes to, ring included. *)
Lemma complete_one_parts fuel l b l' :
  complete_one cfg fuel l = Ok (b, l') ->
  exists err cqe q1, on_ring (io_uring_peek_cqe fuel) (lq l) = Ok ((err, cqe), q1) /\
  if err =? 0 then
    exists slot e this t l2, cqe = Some slot /\ zget (cq_cqes (r_cq (qu_ring q1))) slot = Some e /\
      event_of (cqe_user_data e) = (this, t) /\
      on_completion cfg this t (cqe_res e) (lp_set_queue q1 l) = Ok (tt, l2) /\
      let q2 := set_qring (set_cq (io_uring_cqe_seen (Some slot) (r_cq (qu_ring (lq l2)))) (qu_ring (lq l2))) (lq l2) in
      l' = lp_set_queue (set_counters (add_submissions (-1) (qu_counters q2)) q2) l2
  else l' = lp_set_queue q1 l.
Proof.
  intros H. unfold complete_one in H. apply bind_inv in H as ([err cqe] & l1 & H1 & H).
  apply lift_inv in H1 as (q1 & H1 & ->). exists err, cqe, q1. split; [done|].
  apply bind_inv in H as ([] & l2 & Ha & H). apply assert_inv in Ha as [_ ->].
  destruct (err =? 0); cbn [negb] in H; [|by apply ret_inv in H as [_ ->]].
  apply bind_inv in H as (q & l2 & Hg & H). injection Hg as <- <-.
  destruct cqe as [slot|]; [|done]. change (cq_queue (lp_cq (lp_set_queue q1 l))) with q1 in H.
  destruct (zget (cq_cqes (r_cq (qu_ring q1))) slot) as [e|] eqn:He; [|done].
  destruct (event_of _) as [this t] eqn:Hev. apply bind_inv in H as ([] & l2 & H2 & H).
  apply bind_inv in H as ([] & l4 & H4 & H). apply lift_inv in H4 as (q & H4 & ->).
  apply modify_inv in H4 as ->. apply bind_inv in H as ([] & l5 & H5 & H).
  apply lift_inv in H5 as (q & H5 & ->). apply modify_inv in H5 as ->.
  apply ret_inv in H as [_ ->]. by exists slot, e, this, t, l2.
Qed.

Lemma complete_one_drift fuel l b l' :
  complete_one cfg fuel l = Ok (b, l') ->
  no_new_files (qu_qfds (lq l)) (qu_qfds (lq l')) /\ geometry (qu_heap (lq l)) (qu_heap (lq l')) /\
  (nextBuffer l' = nextBuffer l \/ nextBuffer l' = 0) /\
  (failing (lq l) -> trouble (zlen (errorMessages (lp_cq l))) l').
Proof.
  intros H. apply complete_one_parts in H as (err & cqe & q1 & H1 & H).
  assert (forall this, calm this (lq l) q1) as Hc1 by (intros this; by eapply calm_on_ring).
  destruct (err =? 0).
  2:{ subst l'. destruct (Hc1 0) as [C1 C2 _]. split; [exact C1|]. split; [exact C2|]. split; [by left|].
      intros Hf. right. revert Hf. apply failing_same. unfold on_ring in H1.
      destruct (io_uring_peek_cqe _ _) as [[x u]| |]; [|done..]. by injection H1 as _ <-. }
  destruct H as (slot & e & this & t & l2 & -> & _ & _ & H2 & ->). cbv zeta.
  destruct (drifts_completion cfg this (calm this) _ _ _ _ _ H2) as [Hc2 Hb].
  destruct (calm_trans this _ _ _ (Hc1 this) Hc2) as [C1 C2 _].
  split; [exact C1|]. split; [exact C2|]. split; [exact Hb|]. intros Hf.
  assert (failing q1) as Hf1.
  { revert Hf. apply failing_same. unfold on_ring in H1.
    destruct (io_uring_peek_cqe _ _) as [[x u]| |]; [|done..]. by injection H1 as _ <-. }
  destruct (completion_trouble _ _ _ _ _ _ H2 Hf1) as [Hm|Hm]; [left; exact Hm|right].
  revert Hm. by apply failing_same.
Qed.

(** ** The heap stays where it is *)

Lemma shape_geometry q q' : sh_heap (shape_of q') = sh_heap (shape_of q) -> geometry (qu_heap q) (qu_heap q').
Proof. cbn. intros ->. apply geometry_refl. Qed.

Lemma sys_step_geometry l g l' g' :
  loop_ok 0 0 [] g l -> sys_step cfg rand (l, g) (l', g') -> geometry (qu_heap (lq l)) (qu_heap (lq l')).
Proof.
  intros Hl Hs. inversion Hs as [? ? ? i path oflag mode Hg H|? ? src dst n Hn H
    |? ? src dst t k off sz al Hlim H|? ? st act|? ? b|? ? ? A m a H|? ? ? e H
    |? ? ? fuel v H|? ? ? v H|? ? ? fuel b H]; subst.
  - apply on_cq_inv in H as (c & H & ->). apply bind_inv in H as (a & c1 & Hf & H).
    apply fresh_run in Hf as [-> ->]. apply on_queue_inv in H as (q & H & ->).
    apply new_qfd_shape in H. apply shape_geometry. cbn [lq lp_cq lp_set_cq cq_queue cq_set_queue].
    change (sh_heap (shape_of q) = sh_heap (shape_of (lq l))). by rewrite H.
  - apply on_cq_inv in H as (c & H & ->). apply bind_inv in H as (t & c1 & Hf & H).
    apply fresh_run in Hf as [-> ->]. injection H as <-. apply geometry_refl.
  - apply on_cq_inv in H as (c & H & ->). apply addCopyJobPart_inv in H as (E & _).
    apply shape_geometry. change (sh_heap (shape_of (cq_queue c)) = sh_heap (shape_of (lq l))). by rewrite E.
  - apply geometry_refl.
  - apply geometry_refl.
  - apply lift_inv in H as (q & H & ->). apply keeps_with_os in H. apply shape_geometry.
    change (sh_heap (shape_of q) = sh_heap (shape_of (lq l))). by rewrite H.
  - injection H as <-. apply geometry_refl.
  - apply (add_one_drift _ _ _ _ _ Hl H).
  - apply lift_inv in H as (q & H & ->). apply (calm_on_ring 0) in H. apply H.
  - apply (complete_one_drift _ _ _ _ H).
Qed.

Lemma sys_steps_geometry s s' :
  loop_ok 0 0 [] s.2 s.1 -> sys_steps cfg rand s s' -> geometry (qu_heap (lq s.1)) (qu_heap (lq s'.1)).
Proof.
  intros Hl Hs. induction Hs as [|[l g] [l1 g1] s2 H Hs IH]; [apply geometry_refl|].
  eapply geometry_trans; [by eapply sys_step_geometry|]. by eapply IH, sys_step_ok.
Qed.

(** [join]: the submit thread and the assertions. *)
Lemma join_geometry n inner fuel act l success l' :
  loop_ok 0 0 [] NotAdding l -> join cfg rand n inner fuel act l = Ok (Joined success, l') ->
  geometry (qu_heap (lq l)) (qu_heap (lq l')).
Proof.
  intros Hl H. unfold join in H. apply bind_inv in H as (u & l0 & H0 & H).
  assert (exists c, l0 = lp_set_cq (cq_set_state AdditionComplete act c) l /\ c = lp_cq l) as (c & -> & ->).
  { apply on_cq_inv in H0 as (c & H0 & ->). unfold join_begin in H0.
    apply bind_inv in H0 as (st & c1 & Hg & H0). injection Hg as <- <-.
    apply bind_inv in H0 as (v & c1 & Ha & H0). apply assert_inv in Ha as [_ ->].
    apply modify_inv in H0 as ->. by exists (lp_cq l). }
  apply bind_inv in H as (e & l1 & Hs & H).
  destruct e; apply on_cq_inv in H as (c & H & ->); [by injection H|].
  apply (submitLoop_steps _ _ _ _ _ _ _ NotAdding) in Hs as (l2 & Hs & _ & _ & Hend).
  assert (geometry (qu_heap (lq l)) (qu_heap (lq l2))) as G2.
  { apply (sys_steps_geometry (_, NotAdding) (l2, NotAdding)) in Hs; [exact Hs|]. by destruct Hl. }
  assert (geometry (qu_heap (lq l2)) (qu_heap (lq l1))) as G1.
  { destruct Hend as [[_ ->]|(_ & h & Hr & ->)]; [apply geometry_refl|by eapply returnBlock_geometry]. }
  assert (qu_heap (cq_queue c) = qu_heap (lq l1)) as E.
  { unfold join_end in H. apply bind_inv in H as (q & c2 & Hg & H). injection Hg as <- <-.
    apply bind_inv in H as (u2 & c2 & Ha & H). apply assert_inv in Ha as [_ ->].
    apply bind_inv in H as (u3 & c2 & Ha & H). apply assert_inv in Ha as [_ ->].
    unfold bind at 1, get in H. destruct (_ && _); by injection H as _ <-. }
  change (geometry (qu_heap (lq l)) (qu_heap (cq_queue c))). rewrite E. by eapply geometry_trans.
Qed.
End drift.
