(* ===== verification/Tracked.v ===== *)
(** * The submit thread keeps the data of the queue

    Starting a runner and handling a completion keep [queue_kept], unless there is
    trouble: an error was reported, or a runner waits to report one. *)

From stdpp Require Import gmap strings.
From S2P Require Import Prelude Abi Prep RingBuf Ring SqSpec CqSpec Kernel Queue QueueSpec Os Util Heap CopyState FileDesc Runner RunnerData RunnerLive RunnerSpec CopyQueue CopyJob SubmitLoop Shape Accounts System SystemSpec Lifecycle Service Rounds ServedFiles Serving Retiring Finishing Contents Promise Ledger Executing Entering Keeping KeptFiles KeptRounds KeptResults Moves Drift.

Section tracked.
Context {W : Type} {F : Files W} {K : Kernel W} {KL : KernelLaws W} {CV : Contents W} {CL : ContentLaws W}.
Context (rand : Z -> Z).
Context (h0 : Heap.heap) (v0 : kview) (J : list job) (HJ : jobs_ok h0 v0 J).
Context (Hbase : 0 < Heap.data h0)
  (Hend : Heap.data h0 + Heap.blocks h0 * Heap.blockSize h0 < 2 ^ 63).
Implicit Types (q : queue W) (l : loop W) (g : stage) (r : CopyRunner) (C : gmap Z piece).

(** Kept, unless errors were reported since [l]. *)
Definition kept_or_told C l l' : Prop :=
  queue_kept h0 v0 J C 0 (lq l') \/ zlen (errorMessages (lp_cq l)) < zlen (errorMessages (lp_cq l')).

Lemma told_on_error e l u l' :
  on_cq (onError e) l = Ok (u, l') -> zlen (errorMessages (lp_cq l)) < zlen (errorMessages (lp_cq l')).
Proof. intros H. injection H as _ <-. cbn. unfold zlen. rewrite length_app. cbn. lia. Qed.

Lemma hand_idle rm d g l this r :
  loop_ok rm d [this] g l -> qu_runners (lq l) !! this = Some r -> jobsRunning r = 0.
Proof.
  intros [([_ _ _ _ _ W6] & _) _ _ _] Hr. destruct (proj1 (W6 this)) as (o & Ho & Hj); [by left|].
  rewrite (shape_owner _ _ _ Hr) in Ho. by injection Ho as <-.
Qed.

Lemma add_empty_kept fuel rm g C l this r u l' :
  loop_ok rm 0 [this] g l -> queue_kept h0 v0 J C 0 (lq l) -> qu_runners (lq l) !! this = Some r ->
  size r = 0 -> add_empty fuel this l = Ok (u, l') -> kept_or_told C l l'.
Proof.
  intros Hl HK Hr Hz H. unfold add_empty in H.
  pose proof (hand_idle _ _ _ _ _ _ Hl Hr) as Hj.
  apply bind_inv in H as (r1 & l1 & Hd & H). pose proof Hd as Hd'. apply lift_runner in Hd' as ->.
  apply lift_inv in Hd as (q & Hd & _). apply deref_inv in Hd as [Hd _].
  assert (r1 = r) as -> by congruence. clear Hd.
  apply bind_inv in H as (res & l1 & H1 & H). destruct res as [e|].
  { apply lift_inv in H1 as (q1 & _ & ->). apply bind_inv in H as (res & l2 & H2 & H).
    apply ret_inv in H2 as [-> ->]. apply bind_inv in H as ([] & l2 & H2 & H).
    right. apply told_on_error in H2. apply lift_inv in H as (q9 & _ & ->). exact H2. }
  destruct (loop_ok_keeps _ _ _ _ _ _ _ _ (keeps_ensureOpened _ _) Hl H1) as [Hl1 _].
  apply lift_inv in H1 as (q1 & H1 & ->).
  destruct (ensure_kept h0 v0 J HJ C 0 _ _ _ _ HK H1) as (HK1 & (A1&A2&A3&A4&A5) & f & f' & Hf & E1 & _ & _ & Hop & _).
  apply bind_inv in H as (res & l2 & H2 & H). apply lift_inv in H2 as (q2 & H2 & ->).
  apply bind_inv in H as ([] & l3 & H3 & H). apply lift_inv in H as (q4 & H4 & ->).
  destruct res as [e|]; [right; apply told_on_error in H3; exact H3|].
  apply ret_inv in H3 as [_ ->]. left.
  change (lq (lp_set_queue q4 _)) with q4.
  apply (retire_kept h0 v0 J rm 0 [this] g C 0 (lp_set_queue q1 l) this r None q2 u q4 Hl1 HK1);
    [by rewrite <- A5 in Hr|done|by left| |done|done].
  intros dd Hdd. change (qu_qfds q1 !! destFd r = Some dd) in Hdd. rewrite E1, lookup_insert_eq in Hdd.
  injection Hdd as <-. unfold NEVER_OPENED_VAL. lia.
Qed.

Lemma hand_kept fuel g C l this v l' :
  loop_ok 2 0 [this] g l -> queue_kept h0 v0 J C 0 (lq l) ->
  (let* r := on_cq (on_queue (get_runner this)) in
    if size r =? 0 then do* add_empty fuel this in ret (false, 0)
    else
      let* rnd1 := next_rand rand in
      let* rnd2 := next_rand rand in
      let* result := on_cq (on_queue (addToBatch no_forcing fuel this rnd1 rnd2)) in
      match result with
      | Some e =>
          do* on_cq (on_queue (delete_runner this)) in
          do* on_cq (onError e) in
          ret (true, 0)
      | None => ret (false, 1)
      end) l = Ok (v, l') -> kept_or_told C l l'.
Proof.
  intros Hl HK H. apply bind_inv in H as (r & l1 & Hd & H). pose proof Hd as Hd'. apply lift_runner in Hd' as ->.
  apply lift_inv in Hd as (q & Hd & _). apply deref_inv in Hd as [Hr _].
  destruct (Z.eqb_spec (size r) 0) as [Hz|Hz].
  { apply bind_inv in H as ([] & l1 & H1 & H). apply ret_inv in H as [_ ->].
    by eapply add_empty_kept. }
  apply bind_inv in H as (n1 & l5 & H5 & H). injection H5 as <- <-.
  apply bind_inv in H as (n2 & l6 & H6 & H). injection H6 as <- <-.
  apply bind_inv in H as (res & l7 & H7 & H). apply lift_inv in H7 as (q7 & H7 & ->). destruct res as [e|].
  - apply bind_inv in H as ([] & l8 & H8 & H). apply lift_inv in H8 as (q8 & _ & ->).
    apply bind_inv in H as ([] & l9 & H9 & H). apply ret_inv in H as [_ ->].
    right. apply told_on_error in H9. exact H9.
  - apply ret_inv in H as [_ ->]. left. by eapply (submit_kept h0 v0 J HJ C 0 fuel (lq l)).
Qed.

Lemma add_one_kept fuel g C l v l' :
  loop_ok 0 0 [] g l -> queue_kept h0 v0 J C 0 (lq l) -> geometry h0 (qu_heap (lq l)) -> buffer_ok h0 l ->
  add_one no_forcing rand fuel l = Ok (v, l') -> kept_or_told C l l'.
Proof.
  intros Hl0 HK Hg Hbuf H. unfold add_one, add_one_seen in H. apply bind_inv in H as (w & l1 & Hw & H).
  apply (must_wait_ok _ _ _ _ Hl0) in Hw as [-> Hl]. destruct w; [apply ret_inv in H as [_ ->]; by left|].
  specialize (Hl eq_refl). change MAX_JOBS_PER_RUNNER with 2 in Hl.
  apply bind_inv in H as ([] & l1 & H1 & H). pose proof (reserve_buffer_ok _ _ _ _ _ Hl H1) as Hl1.
  pose proof Hl as [(_ & _ & Hb & _) _ _ _].
  destruct (reserve_inv _ _ _ (bl_heap _ _ _ Hb) H1) as (h & E1 & G1 & _ & M1 & B1).
  change (sh_heap (shape_of (lq l))) with (qu_heap (lq l)) in *.
  assert (queue_kept h0 v0 J C 0 (lq l1)) as HK1 by (rewrite E1; by eapply queue_kept_same, HK).
  assert (geometry h0 (qu_heap (lq l1))) as Hg1 by (rewrite E1; by eapply geometry_trans).
  assert (buffer_ok h0 l1) as Hbuf1.
  { destruct Hg as (E2 & E3 & E4 & _). destruct B1 as [E|(i & Hi & E)].
    - destruct Hbuf as [E0|(i & Hi & E0)]; [left; congruence|right; exists i; split; [done|congruence]].
    - right. exists i. rewrite <- E3. split; [done|]. rewrite E. unfold Heap.block_at. by rewrite E2, E4. }
  apply bind_inv in H as (c & l2 & H2 & H). pose proof (take_continue_ok _ _ _ _ _ Hl1 H2) as Hl2.
  destruct (take_continue_inv _ _ _ H2) as (Q2 & N2 & M2 & Hc).
  apply bind_inv in H as (l2' & l2'' & Hgt & H). injection Hgt as <- <-.
  apply bind_inv in H as (toAdd & l3 & H3 & H).
  assert (loop_ok 2 0 (match toAdd with Some a => [a] | None => [] end) g l3 /\
    errorMessages (lp_cq l3) = errorMessages (lp_cq l) /\ queue_kept h0 v0 J C 0 (lq l3)) as (Hl3 & M3 & HK3).
  { destruct c as [a|].
    - apply ret_inv in H3 as [-> ->]. split; [done|]. split; [congruence|]. by rewrite Q2.
    - subst l2. destruct (negb (nextBuffer l1 =? 0) && _) eqn:Hnb.
      2:{ apply ret_inv in H3 as [-> ->]. split; [done|]. split; [congruence|done]. }
      split; [exact (take_start_ok _ _ _ _ _ Hl2 H3)|]. destruct (take_start_inv _ _ _ H3) as [M3 Ht].
      split; [congruence|]. destruct toAdd as [a|]; [|by subst l3].
      destruct Ht as (_ & r & Hr & Ht). destruct (needsBuffer r); [|by destruct Ht as [-> _]].
      destruct Ht as [Hgive _]. apply andb_prop in Hnb as [Hnb _].
      destruct Hbuf1 as [E|(i & Hi & E)]; [by rewrite E in Hnb|].
      pose proof Hl1 as [(_ & _ & Hb1 & _) _ _ _].
      apply (give_kept h0 v0 J HJ Hbase Hend C 0 (lq l1) a r (nextBuffer l1) i tt (lq l3)); try done;
        [apply (bl_heap _ _ _ Hb1)|].
      intros b rb Hrb Eb. apply (bl_next _ _ _ Hb1 b (owner_of rb)) in Eb; [by rewrite Eb in Hnb|].
      by apply shape_owner. }
  destruct toAdd as [this|]; [|apply ret_inv in H as [_ ->]; by left].
  destruct (hand_kept fuel g C l3 this v l' Hl3 HK3 H) as [?|Hm]; [by left|right; by rewrite <- M3].
Qed.

(** ** Completions *)

(** A call into liburing that keeps the books keeps the queue, and the descriptors. *)
Lemma ring_call_kept {A} (m : prog (ust W) A) C q a q1 :
  queue_kept h0 v0 J C 0 q ->
  (forall s a s', kept h0 v0 J (qu_runners q) (qu_qfds q) C (kv_open (qview q)) s -> m s = Ok (a, s') ->
     kept h0 v0 J (qu_runners q) (qu_qfds q) C (kv_open (qview q)) s') ->
  on_ring m q = Ok (a, q1) ->
  queue_kept h0 v0 J C 0 q1 /\ kv_open (qview q1) = kv_open (qview q).
Proof.
  intros [K1 K2 K3 K4 K5] Hm H. unfold on_ring in H. set (s := mk_ust _ _ _) in H.
  destruct (m s) as [[b s']| |] eqn:E; [|done..]. injection H as <- <-.
  destruct (Hm s b s') as [H1 H2]; [by split|done|]. by split.
Qed.

Lemma peek_queue_kept C q fuel err p q1 :
  queue_kept h0 v0 J C 0 q -> on_ring (io_uring_peek_cqe fuel) q = Ok ((err, p), q1) ->
  queue_kept h0 v0 J C 0 q1 /\ kv_open (qview q1) = kv_open (qview q) /\
  (err = 0 -> exists slot c rest, p = Some slot /\ cq_contents (r_cq (qu_ring q1)) = c :: rest /\
     zget (cq_cqes (r_cq (qu_ring q1))) slot = Some c).
Proof.
  intros HK H. pose proof HK as [K1 K2 _ _ _].
  pose proof (peek_kept h0 v0 J HJ Hbase Hend _ _ _ (kv_open (qview q)) K1) as Hp.
  destruct (ring_call_kept (io_uring_peek_cqe fuel) C q (err, p) q1 HK) as [HK1 Ho]; [|exact H|].
  { intros s [e' p'] s' Hs E. by destruct (Hp fuel s e' p' s' Hs E). }
  split; [done|]. split; [done|]. unfold on_ring in H. set (s := mk_ust _ _ _) in H.
  destruct (io_uring_peek_cqe fuel s) as [[[e' p'] s']| |] eqn:E; [|done..].
  injection H as <- <- <-. by apply (Hp fuel s e' p' s').
Qed.

Lemma enter_kept C q v q1 :
  queue_kept h0 v0 J C 0 q -> on_ring io_uring_submit q = Ok (v, q1) ->
  queue_kept h0 v0 J C 0 q1 /\ kv_open (qview q1) = kv_open (qview q).
Proof.
  intros HK H. pose proof HK as [K1 _ _ _ _]. eapply ring_call_kept; [exact HK| |exact H].
  exact (kb_submit h0 v0 J HJ Hbase Hend _ _ _ _ K1).
Qed.

Lemma seat_sized C d q this r :
  queue_kept h0 v0 J C d q -> qu_runners q !! this = Some r -> buffer r <> 0 -> 0 < size r.
Proof.
  intros [K1 [_ _ (Tq & Tk & _ & [[_ B2 _ B4] _ _ _ _])] _ _ _] Hr Hb.
  pose proof (B4 this r Hr Hb) as Hin. apply list_elem_of_fmap in Hin as (t & -> & Ht).
  destruct (task_runs _ _ _ _ _ _ _ _ _ K1 (B2 t Ht) Hr) as (? & ? & _ & Hth).
  apply (th_seat _ _ _ _ _ _ _ _ Hth).
Qed.

(** The verdict on a runner that goes on, or goes. *)
Lemma result_kept rm cur g C l this r v u l' :
  loop_ok rm 1 (match v with ContinueTag => [] | _ => cur end) g l -> queue_kept h0 v0 J C 1 (lq l) ->
  qu_runners (lq l) !! this = Some r -> savedError r = None -> buffer r <> 0 -> v = verdict r ->
  on_result this v l = Ok (u, l') ->
  queue_kept h0 v0 J C 1 (lq l') /\ qu_ring (lq l') = qu_ring (lq l).
Proof.
  intros Hl HK Hr He Hb -> H. unfold verdict in *. rewrite He in *.
  destruct (Z.eqb_spec (jobsRunning r) 0) as [Hj|]; [|by apply ret_inv in H as [_ ->]].
  destruct (Z.eqb_spec (writeOffset r) (chunk_end r)) as [Hw|]; [|by apply modify_inv in H as ->].
  cbn [on_result] in H. apply bind_inv in H as (res & l1 & H1 & H). apply lift_inv in H1 as (q1 & H1 & ->).
  apply bind_inv in H as ([] & l2 & H2 & H).
  assert (lq l2 = q1) as E2.
  { destruct res; [by injection H2 as <-|by apply ret_inv in H2 as [_ ->]]. }
  apply bind_inv in H as (r1 & l3 & H3 & H). apply lift_runner in H3 as ->.
  apply bind_inv in H as ([] & l4 & H4 & H). apply on_cq_inv in H4 as (c & H4 & ->).
  apply modify_inv in H4 as ->. apply lift_inv in H as (q2 & H & ->).
  change (lq (lp_set_cq _ l2)) with (lq l2) in H. rewrite E2 in H.
  pose proof (seat_sized _ _ _ _ _ HK Hr Hb) as Hsz.
  apply (retire_kept h0 v0 J rm 1 cur g C 1 l this r res q1 u q2 Hl HK Hr Hj); try done; [by right|].
  intros dd Hdd. by eapply (done_opened h0 v0 J C 1 (lq l) this r).
Qed.

Lemma completion_kept g C c rest this t l u l' :
  loop_ok 0 0 [] g l -> queue_kept h0 v0 J C 0 (lq l) -> cq_contents (r_cq (qu_ring (lq l))) = c :: rest ->
  event_of (cqe_user_data c) = (this, t) -> on_completion no_forcing this t (cqe_res c) l = Ok (u, l') ->
  queue_kept h0 v0 J C 1 (lq l') /\ qu_ring (lq l') = qu_ring (lq l) \/
  trouble (zlen (errorMessages (lp_cq l))) l'.
Proof.
  intros Hl HK Hc Hev H. unfold on_completion in H. apply bind_inv in H as (v & l1 & H1 & H).
  pose proof (completion_ok no_forcing g l this t _ v l1 Hl H1) as Hl1.
  apply lift_inv in H1 as (q1 & H1 & ->).
  destruct (completion_comes h0 v0 J HJ C (lq l) c rest this t v q1 HK Hc Hev)
    as (r & r' & Hr & Hr' & -> & Hb & Hgood); [|done|].
  { intros r Hr. destruct (runner_files _ _ _ _ _ _ _ Hl Hr) as (_ & _ & n & _ & _ & Hn & _). by exists n. }
  destruct (savedError r') as [e|] eqn:He.
  - right. unfold verdict in *. rewrite He in *. destruct (Z.eqb_spec (jobsRunning r') 0) as [Hj|Hj].
    + left. by apply error_grows in H.
    + right. apply ret_inv in H as [_ ->]. exists this, r'. by rewrite He.
  - left. destruct (Hgood eq_refl) as (HK1 & _ & _ & cs & Eq1).
    destruct (result_kept 0 [this] g C (lp_set_queue q1 l) this r' (verdict r') u l' Hl1 HK1 Hr' He Hb eq_refl H)
      as [HK2 Erg]. split; [done|]. rewrite Erg. change (qu_ring q1 = qu_ring (lq l)). by rewrite Eq1.
Qed.

Lemma complete_one_kept fuel g C l b l' :
  loop_ok 0 0 [] g l -> queue_kept h0 v0 J C 0 (lq l) -> complete_one no_forcing fuel l = Ok (b, l') ->
  queue_kept h0 v0 J C 0 (lq l') \/ trouble (zlen (errorMessages (lp_cq l))) l'.
Proof.
  intros Hl HK H. apply complete_one_parts in H as (err & cqe & q1 & H1 & H).
  assert (loop_ok 0 0 [] g (lp_set_queue q1 l)) as Hl1
    by (apply (lift_ok _ l) in H1; by destruct (loop_ok_keeps _ _ _ _ _ _ _ _ (keeps_on_ring _) Hl H1)).
  destruct (peek_queue_kept C _ _ _ _ _ HK H1) as (HK1 & _ & Hslot).
  destruct (Z.eqb_spec err 0) as [E|_]; [|subst l'; by left].
  destruct H as (slot & e & this & t & l2 & -> & He & Hev & H2 & ->). cbv zeta.
  destruct (Hslot E) as (slot' & c & rest & [= <-] & Hc & He'). assert (e = c) as -> by congruence.
  destruct (completion_kept g C c rest this t (lp_set_queue q1 l) tt l2 Hl1 HK1 Hc Hev H2) as [[HK2 Erg]|Hm].
  - left. change (qu_ring (lq l2) = qu_ring q1) in Erg. rewrite <- Erg in Hc.
    pose proof (seen_kept h0 v0 J C (lq l2) c rest slot HK2 Hc) as HK3. by eapply queue_kept_same, HK3.
  - right. destruct Hm as [Hm|Hm]; [left; exact Hm|right]. revert Hm. by apply failing_same.
Qed.
End tracked.

(** ** Descriptors the queue does not own

    While it walks a tree the main thread has a directory open.  Its descriptor is
    never that of a queue descriptor: the queue closes only its own, and what it opens
    was not open. *)

(** A call that leaves contents and requests alone; descriptors are another matter. *)
Record quiet_view (v v' : kview) : Prop := {
  qv_mem : kv_mem v' = kv_mem v;
  qv_flight : kv_flight v' = kv_flight v;
  qv_late : kv_late v' = kv_late v;
  qv_files : forall p, kv_file v' p = kv_file v p /\ kv_size v' p = kv_size v p;
}.

(** [d] is open, and not for the queue. *)
Record held {W} {CV : Contents W} (d : Z) (q : queue W) : Prop := {
  hd_pos : 2 < d;
  hd_open : is_Some (kv_open (qview q) !! d);
  hd_other : forall p f, qu_qfds q !! p = Some f -> q_fd f <> d;
}.

Section held.
Context {W : Type} {F : Files W} {K : Kernel W} {CV : Contents W} {CL : ContentLaws W} (d : Z).
Implicit Types (q : queue W) (l : loop W).

Definition keeps_held q q' : Prop := held d q -> held d q'.

Lemma held_same q q' :
  qu_qfds q' = qu_qfds q -> kv_open (qview q') = kv_open (qview q) -> held d q -> held d q'.
Proof. intros E1 E2 [H1 H2 H3]. split; [done|by rewrite E2|by rewrite E1]. Qed.

(** Opening: the new number was not open. *)
Lemma held_open p q x q' : doOpen p q = Ok (x, q') -> held d q -> held d q'.
Proof.
  intros (f & r & o & Hf & Ho & ->)%doOpen_inv [H1 H2 H3].
  destruct (myOpen_view _ _ _ _ _ _ Ho) as [_ Hx]. cbv zeta in Hx.
  change (kview_of (o_world (qu_os q))) with (qview q) in Hx. destruct r as [e|fd].
  - split; [done| |done]. unfold qview, world. cbn. by rewrite Hx.
  - destruct Hx as (_ & Hno & E). split; [done| |].
    + unfold qview, world. cbn. rewrite E. destruct (decide (fd = d)) as [->|Hne].
      * rewrite lookup_insert_eq. done.
      * by rewrite lookup_insert_ne.
    + intros p0 f0 H0. cbn in H0. apply lookup_insert_Some in H0 as [[<- <-]|[_ H0]]; [|by apply (H3 p0)].
      cbn. intros ->. destruct H2 as [y H2]. congruence.
Qed.

(** Closing: another number. *)
Lemma held_close p x q y q' : close_one p x q = Ok (y, q') -> held d q -> held d q'.
Proof.
  intros (f & Hf & [->|(_ & r & o & n & Hc & ->)])%close_one_inv; [done|]. intros [H1 H2 H3].
  apply myClose_view in Hc. change (kview_of (o_world (qu_os q))) with (qview q) in Hc. split; [done| |].
  - unfold qview, world. cbn. rewrite Hc. cbn. rewrite lookup_delete_ne; [done|]. by apply (H3 p).
  - intros p0 f0 H0. cbn in H0. apply lookup_insert_Some in H0 as [[<- <-]|[_ H0]]; [|by apply (H3 p0)].
    cbn. unfold CLOSED_VAL. lia.
Qed.

#[export] Instance held_moves this : Moves this keeps_held.
Proof.
  split.
  - by intros q Hh.
  - intros q1 q2 q3 H1 H2 Hh. by apply H2, H1.
  - intros q q' E1 _ _ E4 Hh. eapply held_same, Hh; [done|]. unfold qview, world. by rewrite E4.
  - intros q r Hh. by eapply held_same, Hh.
  - intros q Hh. by eapply held_same, Hh.
  - intros q b h _ Hh. by eapply held_same, Hh.
  - intros q p f _ _ [H1 H2 H3]. split; [done|done|]. intros p0 f0 H0. cbn in H0.
    apply lookup_delete_Some in H0 as [_ H0]. by apply (H3 p0).
  - intros q p f x q' _ _ H Hh. by eapply held_open.
  - intros q p x y q' H Hh. by eapply held_close.
Qed.

(** ** The submit thread *)

Lemma add_one_held cfg rand g fuel l v l' :
  loop_ok 0 0 [] g l -> add_one cfg rand fuel l = Ok (v, l') -> held d (lq l) -> held d (lq l').
Proof.
  intros Hl H Hh. destruct (add_one_parts _ _ _ _ _ _ _ Hl H) as [->|(this & h & l1 & _ & E1 & _ & _ & Hd)]; [done|].
  destruct (Hd keeps_held _) as [Hk _]. apply Hk. rewrite E1. by eapply held_same, Hh.
Qed.

Context {KL : KernelLaws W} (rand : Z -> Z) (h0 : Heap.heap) (v0 : kview) (J : list job) (HJ : jobs_ok h0 v0 J).
Context (Hbase : 0 < Heap.data h0)
  (Hend : Heap.data h0 + Heap.blocks h0 * Heap.blockSize h0 < 2 ^ 63).

Lemma enter_held C q v q1 :
  queue_kept h0 v0 J C 0 q -> on_ring io_uring_submit q = Ok (v, q1) -> held d q -> held d q1.
Proof.
  intros HK H. destruct (enter_kept h0 v0 J HJ Hbase Hend C q v q1 HK H) as [_ Eo].
  apply held_same; [|done]. unfold on_ring in H. destruct (io_uring_submit _) as [[b s']| |]; [|done..].
  by injection H as _ <-.
Qed.

Lemma complete_one_held fuel C l b l' :
  queue_kept h0 v0 J C 0 (lq l) -> complete_one no_forcing fuel l = Ok (b, l') ->
  held d (lq l) -> held d (lq l').
Proof.
  intros HK H Hh. apply complete_one_parts in H as (err & cqe & q1 & H1 & H).
  destruct (peek_queue_kept h0 v0 J HJ Hbase Hend C _ _ _ _ _ HK H1) as (_ & Eo & _).
  assert (held d q1) as Hh1.
  { eapply held_same, Hh; [|done]. unfold on_ring in H1.
    destruct (io_uring_peek_cqe _ _) as [[x u]| |]; [|done..]. by injection H1 as _ <-. }
  destruct (err =? 0); [|by subst l'].
  destruct H as (slot & e & this & t & l2 & -> & _ & _ & H2 & ->). cbv zeta.
  destruct (drifts_completion no_forcing this keeps_held _ _ _ _ _ H2) as [Hk _].
  eapply held_same, (Hk Hh1); done.
Qed.
End held.

(** ** Calls of the main thread *)

Section calls.
Context {W : Type} {F : Files W} {K : Kernel W} {CV : Contents W} {CL : ContentLaws W}.
Context (h0 : Heap.heap) (v0 : kview) (J : list job).
Implicit Types (q : queue W) (o : ost W) (C : gmap Z piece).

Lemma quiet_kept C n q o :
  queue_kept h0 v0 J C n q -> quiet_view (qview q) (kview_of (o_world o)) ->
  (forall p f, qu_qfds q !! p = Some f -> 2 < q_fd f ->
     kv_open (kview_of (o_world o)) !! q_fd f = kv_open (qview q) !! q_fd f) ->
  queue_kept h0 v0 J C n (set_os o q).
Proof.
  intros HK [V1 V2 V3 V4] Ho. pose proof HK as [K1 K2 K3 K4 K5].
  pose proof (kept_files _ _ _ _ _ _ HK) as [F1 F2]. pose proof (kept_fds _ _ _ _ _ _ HK) as [D1 D2 D3].
  split; try done. apply (ring_rebooks h0 v0 J C n q _ _ _ HK V3 V2).
  - intros Tq Tk [N1 N2 N3 N4]. split; try done. intros t Ht.
    eapply task_new_view; [exact V1| |by apply N2]. intros r dd _ _. left. by apply V4.
  - split.
    + intros a p Ha Hn jb o0 k al Hp. change (qview (set_os o q)) with (kview_of (o_world o)).
      unfold fits_size, seen. destruct (V4 (job_dst jb)) as [-> ->]. by apply (F1 a p Ha Hn jb o0 k al).
    + intros p Hp. change (qview (set_os o q)) with (kview_of (o_world o)).
      destruct (V4 p) as [-> ->]. by apply F2.
  - split; [|done|]; cycle 1.
    { intros p f j Hf Hfl Hne Hj E. unfold fits_size. change (qview (set_os o q)) with (kview_of (o_world o)).
      destruct (V4 (job_dst j)) as [_ ->]. by apply (D3 p f j). }
    intros p f Hf. destruct (D1 p f Hf) as [?|[?|[Hr Hop]]]; [by left|right; by left|right; right].
    split; [done|]. change (qview (set_os o q)) with (kview_of (o_world o)). by rewrite (Ho p f Hf) by lia.
Qed.

Lemma held_call q o d :
  (forall fd, 2 < fd -> kv_open (kview_of (o_world o)) !! fd = kv_open (qview q) !! fd) ->
  held d q -> held d (set_os o q).
Proof.
  intros Ho [H1 H2 H3]. split; [done| |done]. change (qview (set_os o q)) with (kview_of (o_world o)).
  by rewrite Ho.
Qed.

Lemma held_opened C n q o d fd path :
  queue_kept h0 v0 J C n q -> 2 < fd -> kv_open (qview q) !! fd = None ->
  kv_open (kview_of (o_world o)) = <[fd := path]> (kv_open (qview q)) ->
  d = fd \/ held d q -> held d (set_os o q).
Proof.
  intros HK Hfd Hno Ho Hd. pose proof (kept_fds _ _ _ _ _ _ HK) as [D1 _ _].
  assert (2 < d /\ forall p f, qu_qfds q !! p = Some f -> q_fd f <> d) as [H1 H2].
  { destruct Hd as [->|[H1 H2 H3]]; [|done]. split; [done|]. intros p f Hf E.
    destruct (D1 p f Hf) as [E1|[E1|[_ Hop]]]; [rewrite E1 in E; rewrite <- E in Hfd; done..|congruence]. }
  split; [done| |exact H2]. change (qview (set_os o q)) with (kview_of (o_world o)). rewrite Ho.
  destruct (decide (fd = d)) as [->|Hne]; [by rewrite lookup_insert_eq|].
  rewrite lookup_insert_ne by done. destruct Hd as [->|Hh]; [done|apply Hh].
Qed.

Lemma held_closed q o d fd :
  kv_open (kview_of (o_world o)) = delete fd (kv_open (qview q)) -> d <> fd -> held d q ->
  held d (set_os o q).
Proof.
  intros Ho Hne [H1 H2 H3]. split; [done| |exact H3]. change (qview (set_os o q)) with (kview_of (o_world o)).
  by rewrite Ho, lookup_delete_ne.
Qed.
End calls.
