(* ===== verification/DataSystem.v ===== *)
(** * The two threads and the data they copy

    The system of System.v with the files of the main thread fixed: it adds one after
    the other, each with its pieces, while the submit thread works and the kernel
    executes requests whenever it likes.  [data_ok] relates the pieces added so far to
    the runners that copy them. *)

From stdpp Require Import gmap strings.
From S2P Require Import Prelude Abi Prep RingBuf Ring SqSpec CqSpec Kernel Queue QueueSpec Os Util Heap CopyState FileDesc Runner RunnerData RunnerLive RunnerSpec CopyQueue CopyJob SubmitLoop Shape Accounts System SystemSpec Lifecycle Service Rounds ServedFiles Serving Retiring Contents Promise Ledger Executing Entering Keeping KeptFiles KeptRounds KeptResults Moves Drift Tracked.

(** What the main thread is in the middle of: between files, with the first [n] added,
    or with the descriptors of file [n], or cutting it, [i] pieces done. *)
Inductive progress : Type :=
  | Between (n : nat)
  | Sourced (n : nat) (a : Z)
  | Opened (n : nat) (a b : Z)
  | Parting (n : nat) (a b t i : Z).

Definition file_no (m : progress) : nat :=
  match m with Between n | Sourced n _ | Opened n _ _ | Parting n _ _ _ _ => n end.

Section system.
Context {W : Type} {F : Files W} {K : Kernel W} {CV : Contents W}.
Context (rand : Z -> Z) (h0 : Heap.heap) (J : list job).
Implicit Types (l : loop W) (m : progress).

(** The number of pieces of file [n]. *)
Definition parts_of (n : nat) : Z :=
  match J !! n with Some jb => zlen (plan h0 (job_st jb)) | None => 0 end.

Definition stage_of m : stage :=
  match m with
  | Between _ => NotAdding
  | Sourced _ a => Opening [a]
  | Opened _ a b => Opening [a; b]
  | Parting n a b t i => Cutting a b t (parts_of n - i)
  end.

(** The same system, on the files of [J]; the list is the descriptors of directories
    the main thread has open. *)
Inductive data_step : loop W * (progress * list Z) -> loop W * (progress * list Z) -> Prop :=
  | data_source l l' n D jb i :
      J !! n = Some jb ->
      on_cq (let* a := fresh in on_queue (new_qfd i a (job_src jb) src_flags 0)) l = Ok (tt, l') ->
      data_step (l, (Between n, D)) (l', (Sourced n (next_addr (lp_cq l)), D))
  | data_dest l l' n D jb i a :
      J !! n = Some jb ->
      on_cq (let* b := fresh in
             on_queue (new_qfd i b (job_dst jb) dest_flags (stx_mode (job_st jb)))) l = Ok (tt, l') ->
      data_step (l, (Sourced n a, D)) (l', (Opened n a (next_addr (lp_cq l)), D))
  | data_track l l' n D jb a b :
      J !! n = Some jb ->
      on_cq (let* t := fresh in
             on_queue (modify (fun q => set_chunks (<[t := parts_of n]> (qu_chunks q)) q))) l = Ok (tt, l') ->
      data_step (l, (Opened n a b, D)) (l', (Parting n a b (next_addr (lp_cq l)) 0, D))
  | data_part l l' n D jb a b t i o sz al :
      J !! n = Some jb -> zget (plan h0 (job_st jb)) i = Some (o, sz, al) ->
      keepAliveCount (qu_counters (lq l)) + 1 < 2 ^ 32 -> next_addr (lp_cq l) < 2 ^ 62 ->
      on_cq (addCopyJobPart a b o sz al t) l = Ok (tt, l') ->
      data_step (l, (Parting n a b t i, D))
        (l', (if i + 1 =? parts_of n then Between (S n) else Parting n a b t (i + 1), D))
  | data_state l x st act : data_step (l, x) (lp_set_cq (cq_set_state st act (lp_cq l)) l, x)
  | data_show l x b : data_step (l, x) (lp_set_cq (cq_set_showing b (lp_cq l)) l, x)
  | data_call l l' x A (c : prog (ost W) A) a :
      on_cq (on_queue (with_os c)) l = Ok (a, l') -> quiet_view (qview (lq l)) (qview (lq l')) ->
      (forall fd, 2 < fd -> kv_open (qview (lq l')) !! fd = kv_open (qview (lq l)) !! fd) ->
      data_step (l, x) (l', x)
  | data_open l l' m D A (c : prog (ost W) A) a fd path :
      on_cq (on_queue (with_os c)) l = Ok (a, l') -> quiet_view (qview (lq l)) (qview (lq l')) ->
      2 < fd -> kv_open (qview (lq l)) !! fd = None ->
      kv_open (qview (lq l')) = <[fd := path]> (kv_open (qview (lq l))) ->
      data_step (l, (m, D)) (l', (m, fd :: D))
  | data_close l l' m D A (c : prog (ost W) A) a fd :
      on_cq (on_queue (with_os c)) l = Ok (a, l') -> quiet_view (qview (lq l)) (qview (lq l')) ->
      kv_open (qview (lq l')) = delete fd (kv_open (qview (lq l))) ->
      data_step (l, (m, fd :: D)) (l', (m, D))
  | data_error l l' x e : on_cq (onError e) l = Ok (tt, l') -> data_step (l, x) (l', x)
  | data_start l l' x fuel v : add_one no_forcing rand fuel l = Ok (v, l') -> data_step (l, x) (l', x)
  | data_enter l l' x v :
      on_cq (on_queue (on_ring io_uring_submit)) l = Ok (v, l') -> data_step (l, x) (l', x)
  | data_complete l l' x fuel b :
      complete_one no_forcing fuel l = Ok (b, l') -> data_step (l, x) (l', x)
  | data_kernel l x n cs rg o :
      kernel_serves n cs (qu_ring (lq l)) rg (qview (lq l)) (kview_of (o_world o)) ->
      data_step (l, x) (lp_set_queue (set_qring rg (set_os o (lq l))) l, x).

Inductive data_steps : loop W * (progress * list Z) -> loop W * (progress * list Z) -> Prop :=
  | data_refl s : data_steps s s
  | data_next s s1 s2 : data_step s s1 -> data_steps s1 s2 -> data_steps s s2.

Lemma data_steps_trans s1 s2 s3 : data_steps s1 s2 -> data_steps s2 s3 -> data_steps s1 s3.
Proof. induction 1; eauto using data_steps. Qed.

(** ** The books of the system stay in order *)

Lemma stage_track n a b : stage_of (Parting n a b 0 0) = Cutting a b 0 (parts_of n).
Proof. cbn. by rewrite Z.sub_0_r. Qed.

Lemma data_loop_ok l x l' x' :
  (forall j, j ∈ J -> plannable h0 (job_st j)) ->
  loop_ok 0 0 [] (stage_of x.1) l -> data_step (l, x) (l', x') -> loop_ok 0 0 [] (stage_of x'.1) l'.
Proof.
  intros Hplan Hl Hs.
  assert (forall g', sys_step no_forcing rand (l, stage_of x.1) (l', g') -> loop_ok 0 0 [] g' l') as Hsys
    by (intros g' H; by eapply sys_step_ok).
  assert (forall A (c : prog (ost W) A) a, on_cq (on_queue (with_os c)) l = Ok (a, l') ->
    loop_ok 0 0 [] (stage_of x.1) l') as Hcall
    by (intros A c a H; by apply Hsys, (main_call _ _ l l' _ A c a)).
  inversion Hs as [? ? n D jb i Hj H|? ? n D jb i a Hj H|? ? n D jb a b Hj H|? ? n D jb a b t i o sz al Hj Hp Hk Hn H
    |? ? st act|? ? b|? ? ? A c a H|? ? ? D A c a fd path H|? ? ? D A c a fd H|? ? ? e H|? ? ? fuel v H|? ? ? v H
    |? ? ? fuel b H|? ? n cs rg o H]; subst; cbn [fst stage_of] in *; eauto.
  - apply Hsys. apply (main_open _ _ l l' NotAdding i (job_src jb) src_flags 0); [by left|done].
  - apply Hsys. apply (main_open _ _ l l' (Opening [a]) i (job_dst jb) dest_flags (stx_mode (job_st jb))); [right; by exists a|done].
  - rewrite Z.sub_0_r. apply Hsys, main_track; [|done].
    unfold parts_of. rewrite Hj. by eapply plan_pos, Hplan, list_elem_of_lookup_2.
  - assert (parts_of n - i = 1 <-> i + 1 = parts_of n) as E by lia.
    pose proof (Hsys _ (main_part _ _ l l' a b t (parts_of n - i) o sz al Hk H)) as Hl'.
    destruct (Z.eqb_spec (parts_of n - i) 1), (Z.eqb_spec (i + 1) (parts_of n)); try lia; [done|].
    cbn [stage_of]. by replace (parts_of n - (i + 1)) with (parts_of n - i - 1) by lia.
  - apply Hsys, main_state.
  - apply Hsys, main_show.
  - by apply Hsys, (main_error _ _ l l' _ e).
  - by apply Hsys, (submit_start _ _ l l' _ fuel v).
  - by apply Hsys, (submit_enter _ _ l l' _ v).
  - by apply Hsys, (submit_complete _ _ l l' _ fuel b).
  - by destruct Hl.
Qed.

(** ** What was added so far *)

(** A piece that has, or had, a runner. *)
Definition behind m (p : piece) : Prop :=
  (fst p < file_no m)%nat \/
  match m with Parting n _ _ _ i => fst p = n /\ snd p < i | _ => False end.

(** A file whose destination has a descriptor, or had one. *)
Definition started_file m (j : nat) : Prop :=
  (j < file_no m)%nat \/ match m with Opened n _ _ | Parting n _ _ _ _ => j = n | _ => False end.

(** The descriptor at [p] is of the file at [path]. *)
Definition holds_file (Q : gmap Z QueueFileDescriptor) (p : Z) (path : string) (oflag : Z) : Prop :=
  exists d, Q !! p = Some d /\ file_of d = (path, oflag).

(** The descriptors the main thread holds are those of its file. *)
Definition holds m (Q : gmap Z QueueFileDescriptor) : Prop :=
  match m with
  | Between _ => True
  | Sourced n a => exists jb, J !! n = Some jb /\ holds_file Q a (job_src jb) src_flags
  | Opened n a b => exists jb, J !! n = Some jb /\ holds_file Q a (job_src jb) src_flags /\
      holds_file Q b (job_dst jb) dest_flags
  | Parting n a b _ i => exists jb, J !! n = Some jb /\ holds_file Q a (job_src jb) src_flags /\
      holds_file Q b (job_dst jb) dest_flags /\ 0 <= i < parts_of n
  end.

Record data_ok (v0 : kview) (C : gmap Z piece) m l : Prop := {
  do_queue : queue_kept h0 v0 J C 0 (lq l);
  do_heap : geometry h0 (qu_heap (lq l));
  do_buffer : buffer_ok h0 l;
  do_holds : holds m (qu_qfds (lq l));
  do_behind : forall a p, C !! a = Some p -> behind m p;
  do_all : forall p jb o n al, piece_is h0 J p jb o n al -> behind m p -> exists a, C !! a = Some p;
  do_addr : forall a p, C !! a = Some p -> a < next_addr (lp_cq l);
  do_dests : forall p f, qu_qfds (lq l) !! p = Some f -> q_oflag f = dest_flags ->
    exists j jb, J !! j = Some jb /\ job_dst jb = q_path f /\ started_file m j;
}.

Implicit Types (C : gmap Z piece).

(** A step that only takes descriptors away. *)
Lemma stage_keys rm d cur g l :
  loop_ok rm d cur g l ->
  (forall p, p ∈ opening g -> is_Some (qu_qfds (lq l) !! p)) /\
  (forall a b t k, g = Cutting a b t k -> is_Some (qu_qfds (lq l) !! a) /\ is_Some (qu_qfds (lq l) !! b)).
Proof.
  intros [(_ & [files [_ _ _ F4 _ _ F7]] & _) _ _ _].
  assert (forall p, p ∈ dom (qu_qfds (lq l)) -> is_Some (qu_qfds (lq l) !! p)) as Hd
    by (intros p Hp; by apply elem_of_dom).
  split.
  - intros p Hp. apply Hd, F7. by left.
  - intros a b t k E. destruct (F4 _ _ _ _ E) as [_ Ef].
    split; apply Hd, F7; right; exists t, a, b; split; auto.
Qed.

Lemma holds_less Q Q' p path oflag :
  no_new_files Q Q' -> is_Some (Q' !! p) -> holds_file Q p path oflag -> holds_file Q' p path oflag.
Proof.
  intros HQ [f' Hf'] (f & Hf & E). destruct (HQ p f' Hf') as (f0 & Hf0 & E0).
  exists f'. split; [done|]. congruence.
Qed.

Lemma data_same v0 C m l l' :
  data_ok v0 C m l -> loop_ok 0 0 [] (stage_of m) l' -> queue_kept h0 v0 J C 0 (lq l') ->
  geometry h0 (qu_heap (lq l')) -> buffer_ok h0 l' -> no_new_files (qu_qfds (lq l)) (qu_qfds (lq l')) ->
  next_addr (lp_cq l) <= next_addr (lp_cq l') -> data_ok v0 C m l'.
Proof.
  intros [D1 D2 D3 D4 D5 D6 D7 D8] Hl HK Hg Hb HQ Hn.
  destruct (stage_keys _ _ _ _ _ Hl) as [Ho Hc].
  assert (forall p path fl, is_Some (qu_qfds (lq l') !! p) -> holds_file (qu_qfds (lq l)) p path fl ->
    holds_file (qu_qfds (lq l')) p path fl) as Hh by (intros p path fl; by apply holds_less).
  split; try done.
  - destruct m as [n|n a|n a b|n a b t i]; cbn [stage_of holds] in *; [done|..].
    + destruct D4 as (jb & Hj & Ha). exists jb. split; [done|]. apply Hh, Ha. apply Ho. by left.
    + destruct D4 as (jb & Hj & Ha & Hb'). exists jb. split; [done|].
      split; apply Hh; try done; apply Ho; [by left|right; by left].
    + destruct D4 as (jb & Hj & Ha & Hb' & Hi). exists jb. split; [done|].
      destruct (Hc _ _ _ _ eq_refl) as [? ?]. split; [by apply Hh|]. split; [by apply Hh|done].
  - intros a p Hp. specialize (D7 a p Hp). lia.
  - intros p f' Hf' Hfl. destruct (HQ p f' Hf') as (f & Hf & [= E1 E2]).
    rewrite E1. apply (D8 p f Hf). congruence.
Qed.
End system.
