(* ===== verification/Advancing.v ===== *)
(** * Every step keeps the data, or tells

    A step of either thread, or of the kernel, keeps [data_ok], with one more piece in
    the books when one was added, unless there is trouble; and trouble stays. *)

From stdpp Require Import gmap strings.
From S2P Require Import Prelude Abi Prep RingBuf Ring SqSpec CqSpec Kernel Queue QueueSpec Os Util Heap CopyState FileDesc Runner RunnerData RunnerLive RunnerSpec CopyQueue CopyJob SubmitLoop Shape Accounts System SystemSpec Lifecycle Service Rounds ServedFiles Serving Retiring Contents Promise Ledger Executing Entering Keeping KeptFiles KeptRounds KeptResults Moves Drift Tracked DataSystem.

Section effects.
Context {W : Type} {F : Files W} {K : Kernel W} {CV : Contents W}.
Context (rand : Z -> Z) (h0 : Heap.heap) (J : list job).
Implicit Types (l : loop W) (m : progress).

Lemma fresh_queue_inv {A} (k : Z -> prog (queue W) A) l x l' :
  on_cq (let* a := fresh in on_queue (k a)) l = Ok (x, l') ->
  exists q', k (next_addr (lp_cq l)) (lq l) = Ok (x, q') /\
    l' = lp_set_cq (cq_set_queue q' (cq_set_next (next_addr (lp_cq l) + 1) (lp_cq l))) l.
Proof.
  intros H. apply on_cq_inv in H as (c & H & ->). rewrite fresh_bind in H.
  apply on_queue_inv in H as (q & H & ->). by exists q.
Qed.

Lemma new_qfd_runners i p path oflag md (q : queue W) q' :
  new_qfd i p path oflag md q = Ok (tt, q') -> qu_runners q' = qu_runners q.
Proof.
  intros H. destruct (new_qfd_frame i p path oflag md q) as (q1 & fd & H1 & (_ & _ & _ & _ & E & _) & _).
  congruence.
Qed.

Lemma part_loop_inv a b o sz al t l l' :
  on_cq (addCopyJobPart a b o sz al t) l = Ok (tt, l') ->
  let p := next_addr (lp_cq l) in
  qu_runners (lq l') = <[p := new_runner a b o sz al t]> (qu_runners (lq l)) /\
  qu_qfds (lq l') = qu_qfds (lq l) /\ qu_ring (lq l') = qu_ring (lq l) /\
  qu_os (lq l') = qu_os (lq l) /\ qu_heap (lq l') = qu_heap (lq l) /\
  next_addr (lp_cq l') = p + 1 /\ errorMessages (lp_cq l') = errorMessages (lp_cq l) /\
  nextBuffer l' = nextBuffer l.
Proof.
  intros H. apply on_cq_inv in H as (c & H & ->). apply part_inv in H as (?&?&?&?&?&?&?).
  by split_and!.
Qed.

(** ** Trouble *)

Lemma step_messages l x l' x' :
  data_step rand h0 J (l, x) (l', x') ->
  zlen (errorMessages (lp_cq l)) <= zlen (errorMessages (lp_cq l')).
Proof.
  intros Hs.
  assert (forall A (f : prog (loop W) A) a, reports f -> f l = Ok (a, l') ->
    zlen (errorMessages (lp_cq l)) <= zlen (errorMessages (lp_cq l'))) as Hr
    by (intros A f a Hf E; by eapply errs_more, Hf).
  inversion Hs as [? ? n D jb i Hj H|? ? n D jb i a Hj H|? ? n D jb a b Hj H|? ? n D jb a b t i o sz al Hj Hp Hk Hn H
    |? ? st act|? ? b|? ? ? A c a H Hv Ho|? ? ? D A c a fd path H Hv Hfd Hno Ho|? ? ? D A c a fd H Hv Ho|? ? ? e H
    |? ? ? fuel v H|? ? ? v H|? ? ? fuel b H|? ? n cs rg o H]; subst.
  - by apply fresh_queue_inv in H as (q & _ & ->).
  - by apply fresh_queue_inv in H as (q & _ & ->).
  - by apply fresh_queue_inv in H as (q & _ & ->).
  - apply part_loop_inv in H as (_ & _ & _ & _ & _ & _ & -> & _). lia.
  - done.
  - done.
  - eapply (Hr _ _ _ (reports_queue _)), H.
  - eapply (Hr _ _ _ (reports_queue _)), H.
  - eapply (Hr _ _ _ (reports_queue _)), H.
  - eapply (Hr _ _ _ (reports_onError _)), H.
  - eapply (Hr _ _ _ (reports_add_one _ _ _)), H.
  - eapply (Hr _ _ _ (reports_queue _)), H.
  - eapply (Hr _ _ _ (reports_complete_one _ _)), H.
  - done.
Qed.

Lemma on_ring_runners {A} (c : prog (ust W) A) (q : queue W) a q' :
  on_ring c q = Ok (a, q') -> qu_runners q' = qu_runners q.
Proof. unfold on_ring. destruct (c _) as [[x u]| |]; [|done..]. by intros [= _ <-]. Qed.

Lemma failing_step l x l' x' :
  loop_ok 0 0 [] (stage_of h0 J x.1) l -> data_step rand h0 J (l, x) (l', x') ->
  failing (lq l) -> trouble (zlen (errorMessages (lp_cq l))) l'.
Proof.
  intros Hl Hs Hf.
  assert (qu_runners (lq l') = qu_runners (lq l) -> trouble (zlen (errorMessages (lp_cq l))) l') as Hsame
    by (intros E; right; by apply (failing_same (lq l))).
  assert (forall A (c : prog (ost W) A) a, on_cq (on_queue (with_os c)) l = Ok (a, l') ->
    trouble (zlen (errorMessages (lp_cq l))) l') as Hcall
    by (intros A c a H; apply Hsame; apply lift_inv in H as (q & H & ->); by apply with_os_inv in H as [o ->]).
  inversion Hs as [? ? n D jb i Hj H|? ? n D jb i a Hj H|? ? n D jb a b Hj H|? ? n D jb a b t i o sz al Hj Hp Hk Hn H
    |? ? st act|? ? b|? ? ? A c a H Hv Ho|? ? ? D A c a fd path H Hv Hfd Hno Ho|? ? ? D A c a fd H Hv Ho|? ? ? e H
    |? ? ? fuel v H|? ? ? v H|? ? ? fuel b H|? ? n cs rg o H]; subst; cbn [fst stage_of] in *.
  - apply Hsame. apply fresh_queue_inv in H as (q & H & ->). by apply new_qfd_runners in H.
  - apply Hsame. apply fresh_queue_inv in H as (q & H & ->). by apply new_qfd_runners in H.
  - apply Hsame. apply fresh_queue_inv in H as (q & H & ->). by apply modify_inv in H as ->.
  - right. apply part_loop_inv in H as (E & _). destruct Hf as (x & r & Hr & He). exists x, r.
    split; [|done]. rewrite E, lookup_insert_ne; [done|]. intros <-.
    destruct Hl as [(_ & _ & _ & Hfr) _ _ _].
    pose proof (fr_owners _ _ Hfr _ (Z.le_refl _)) as Hno. by rewrite (shape_owner _ _ _ Hr) in Hno.
  - by apply Hsame.
  - by apply Hsame.
  - by eapply Hcall.
  - by eapply Hcall.
  - by eapply Hcall.
  - apply Hsame. by injection H as <-.
  - right. by apply (add_one_drift _ _ _ _ _ _ _ Hl H).
  - apply Hsame. apply lift_inv in H as (q & H & ->). by apply on_ring_runners in H.
  - by apply (complete_one_drift _ _ _ _ _ H).
  - by apply Hsame.
Qed.

Lemma trouble_step n l x l' x' :
  loop_ok 0 0 [] (stage_of h0 J x.1) l -> n <= zlen (errorMessages (lp_cq l)) ->
  data_step rand h0 J (l, x) (l', x') -> trouble n l -> trouble n l'.
Proof.
  intros Hl Hn Hs [Hm|Hf].
  - left. pose proof (step_messages _ _ _ _ Hs). lia.
  - destruct (failing_step _ _ _ _ Hl Hs Hf) as [Hm|Hf']; [left; lia|by right].
Qed.
End effects.

(** ** The data *)

Section kept.
Context {W : Type} {F : Files W} {K : Kernel W} {KL : KernelLaws W} {CV : Contents W} {CL : ContentLaws W}.
Context (rand : Z -> Z).
Context (h0 : Heap.heap) (v0 : kview) (J : list job) (HJ : jobs_ok h0 v0 J).
Context (Hbase : 0 < Heap.data h0)
  (Hend : Heap.data h0 + Heap.blocks h0 * Heap.blockSize h0 < 2 ^ 63).
Implicit Types (l : loop W) (m : progress) (C : gmap Z piece).

Lemma piece_index p jb o n al :
  piece_is h0 J p jb o n al -> 0 <= snd p < parts_of h0 J (fst p).
Proof. intros [Hj Hp]. unfold parts_of. rewrite Hj. by apply zget_range in Hp. Qed.

Definition after_part (n : nat) (a b t i : Z) : progress :=
  if i + 1 =? parts_of h0 J n then Between (S n) else Parting n a b t (i + 1).

(** The pieces behind a part added: one more. *)
Lemma behind_part n a b t i p jb o k al :
  0 <= i < parts_of h0 J n -> piece_is h0 J p jb o k al ->
  behind (after_part n a b t i) p <-> p = (n, i) \/ behind (Parting n a b t i) p.
Proof.
  intros Hi Hp%piece_index. unfold after_part, behind. destruct p as [pn pi]. cbn [fst snd] in *.
  destruct (decide (pn = n)) as [->|Hne]; destruct (Z.eqb_spec (i + 1) (parts_of h0 J n)); cbn; split.
  - intros _. destruct (decide (pi = i)) as [->|]; [by left|]. right. right. lia.
  - intros _. left. lia.
  - intros [?|[_ ?]]; [lia|]. destruct (decide (pi = i)) as [->|]; [by left|]. right. right. lia.
  - intros [[= ->]|[?|[_ ?]]]; [right; lia|lia|right; lia].
  - intros [?|[]]. right. left. lia.
  - intros [[= -> ->]|[?|[? _]]]; [done|left; lia|done].
  - intros [?|[? _]]; [|done]. right. by left.
  - intros [[= -> ->]|[?|[? _]]]; [done|by left|done].
Qed.

(** Opening a file: the descriptor joins the others. *)
Lemma open_step C l m m' path oflag mode i q' :
  loop_ok 0 0 [] (stage_of h0 J m) l -> data_ok h0 J v0 C m l ->
  new_qfd i (next_addr (lp_cq l)) path oflag mode (lq l) = Ok (tt, q') ->
  (oflag = src_flags /\ no_dest J path \/
   oflag = dest_flags /\ exists jb, J !! file_no m = Some jb /\ job_dst jb = path) ->
  ~ started_file m (file_no m) -> file_no m' = file_no m ->
  (forall p, behind m' p <-> (fst p < file_no m)%nat) -> (forall p, behind m p <-> (fst p < file_no m)%nat) ->
  (forall j, started_file m j -> started_file m' j) ->
  (oflag = dest_flags -> started_file m' (file_no m)) ->
  (forall Q, (forall p path' fl, holds_file (qu_qfds (lq l)) p path' fl -> holds_file Q p path' fl) ->
     holds_file Q (next_addr (lp_cq l)) path oflag -> holds h0 J m (qu_qfds (lq l)) -> holds h0 J m' Q) ->
  data_ok h0 J v0 C m' (lp_set_cq (cq_set_queue q' (cq_set_next (next_addr (lp_cq l) + 1) (lp_cq l))) l).
Proof.
  intros Hl [D1 D2 D3 D4 D5 D6 D7 D8] H Hrole Hns Hno Hb' Hb Hst Hnew Hh.
  destruct Hl as [(_ & _ & _ & Hfr) _ _ _].
  assert (qu_qfds (lq l) !! next_addr (lp_cq l) = None) as Hp.
  { pose proof (fr_keys _ _ Hfr _ (Z.le_refl _)) as Hk. cbn in Hk. by apply not_elem_of_dom in Hk. }
  assert (oflag = src_flags /\ no_dest J path \/ oflag = dest_flags /\ ~ no_dest J path /\
     (forall p' f', qu_qfds (lq l) !! p' = Some f' -> q_oflag f' = dest_flags -> q_path f' <> path) /\
     (forall a x jb o n al, C !! a = Some x -> piece_is h0 J x jb o n al -> job_dst jb <> path)) as Hrole'.
  { destruct Hrole as [?|(-> & jb & Hj & <-)]; [by left|right]. split; [done|]. split; [|split].
    - intros Hn. apply Hn, list_elem_of_fmap_2. by eapply list_elem_of_lookup_2.
    - intros p' f' Hf' Hfl E. destruct (D8 p' f' Hf' Hfl) as (j & jb' & Hj' & E' & Hs).
      destruct (same_dest h0 v0 J HJ j (file_no m) jb' jb) as [-> _]; [done..|congruence|done].
    - intros a x jb' o n al Ha [Hx _] E. specialize (D5 a x Ha). apply Hb in D5.
      destruct (same_dest h0 v0 J HJ _ (file_no m) jb' jb Hx Hj E) as [E' _]. lia. }
  destruct (new_qfd_kept h0 v0 J HJ C 0 _ _ _ _ _ _ _ D1 Hp Hrole' H)
    as (HK & (S1 & S2 & S3 & S4 & S5) & f & EQ & Ef & Efl).
  assert (forall p path' fl, holds_file (qu_qfds (lq l)) p path' fl -> holds_file (qu_qfds q') p path' fl) as Hold.
  { intros p path' fl (d & Hd & E). exists d. rewrite EQ, lookup_insert_ne; [done|congruence]. }
  split; cbn -[qu_qfds holds].
  - exact HK.
  - change (geometry h0 (qu_heap q')). by rewrite S2.
  - exact D3.
  - apply (Hh (qu_qfds q') Hold); [|done]. exists f. rewrite EQ, lookup_insert_eq. split; [done|].
    unfold file_of. congruence.
  - intros a p Ha. apply Hb', Hb. by eapply D5.
  - intros p jb o n al Hpi Hbp. eapply D6; [exact Hpi|]. by apply Hb, Hb'.
  - intros a p Ha. specialize (D7 a p Ha). cbn. lia.
  - intros p f' Hf' Hfl. change (qu_qfds q' !! p = Some f') in Hf'. rewrite EQ in Hf'.
    apply lookup_insert_Some in Hf' as [[<- <-]|[_ Hf']].
    + destruct Hrole as [[? _]|(-> & jb & Hj & E)]; [by destruct flags_differ; congruence|].
      exists (file_no m), jb. split; [done|]. split; [congruence|by apply Hnew].
    + destruct (D8 p f' Hf' Hfl) as (j & jb & Hj & E & Hs). exists j, jb. split_and!; auto.
Qed.

Lemma source_step C l n jb i q' :
  loop_ok 0 0 [] NotAdding l -> data_ok h0 J v0 C (Between n) l -> J !! n = Some jb ->
  new_qfd i (next_addr (lp_cq l)) (job_src jb) src_flags 0 (lq l) = Ok (tt, q') ->
  data_ok h0 J v0 C (Sourced n (next_addr (lp_cq l)))
    (lp_set_cq (cq_set_queue q' (cq_set_next (next_addr (lp_cq l) + 1) (lp_cq l))) l).
Proof.
  intros Hl HD Hj H. eapply (open_step C l (Between n)); [exact Hl|done|exact H|..].
  - left. split; [done|]. apply (jb_src _ _ _ HJ). by eapply list_elem_of_lookup_2.
  - unfold started_file. cbn. intros [?|[]]. lia.
  - done.
  - intros p. unfold behind. cbn. tauto.
  - intros p. unfold behind. cbn. tauto.
  - intros j. unfold started_file. cbn. tauto.
  - intros E. by destruct flags_differ.
  - intros Q HQ Hn _. by exists jb.
Qed.

Lemma dest_step C l n jb a i q' :
  loop_ok 0 0 [] (Opening [a]) l -> data_ok h0 J v0 C (Sourced n a) l -> J !! n = Some jb ->
  new_qfd i (next_addr (lp_cq l)) (job_dst jb) dest_flags (stx_mode (job_st jb)) (lq l) = Ok (tt, q') ->
  data_ok h0 J v0 C (Opened n a (next_addr (lp_cq l)))
    (lp_set_cq (cq_set_queue q' (cq_set_next (next_addr (lp_cq l) + 1) (lp_cq l))) l).
Proof.
  intros Hl HD Hj H. eapply (open_step C l (Sourced n a)); [exact Hl|done|exact H|..].
  - right. split; [done|]. by exists jb.
  - unfold started_file. cbn. intros [?|[]]. lia.
  - done.
  - intros p. unfold behind. cbn. tauto.
  - intros p. unfold behind. cbn. tauto.
  - intros j. unfold started_file. cbn. tauto.
  - intros _. by right.
  - intros Q HQ Hn (jb' & Hj' & Hs). exists jb'. split; [done|]. split; [by apply HQ|]. congruence.
Qed.

Lemma track_step C l n a b :
  data_ok h0 J v0 C (Opened n a b) l ->
  data_ok h0 J v0 C (Parting n a b (next_addr (lp_cq l)) 0)
    (lp_set_cq (cq_set_queue (set_chunks (<[next_addr (lp_cq l) := parts_of h0 J n]> (qu_chunks (lq l))) (lq l))
       (cq_set_next (next_addr (lp_cq l) + 1) (lp_cq l))) l).
Proof.
  intros [D1 D2 D3 D4 D5 D6 D7 D8]. split; try done.
  - by eapply queue_kept_same, D1.
  - destruct D4 as (jb & Hj & Ha & Hb). exists jb. split_and!; try done.
    assert (0 < parts_of h0 J n); [|lia]. unfold parts_of. rewrite Hj.
    apply plan_pos, (jb_plan _ _ _ HJ). by eapply list_elem_of_lookup_2.
  - intros x p Hp. destruct (D5 x p Hp) as [?|[]]. by left.
  - intros p jb o k al Hpi [?|[_ Hs]]; [eapply D6; [exact Hpi|by left]|].
    apply piece_index in Hpi. lia.
  - intros x p Hp. specialize (D7 x p Hp). cbn. lia.
Qed.

Lemma part_step C l l' n jb a b t i o sz al :
  loop_ok 0 0 [] (stage_of h0 J (Parting n a b t i)) l -> data_ok h0 J v0 C (Parting n a b t i) l ->
  J !! n = Some jb -> zget (plan h0 (job_st jb)) i = Some (o, sz, al) -> next_addr (lp_cq l) < 2 ^ 62 ->
  on_cq (addCopyJobPart a b o sz al t) l = Ok (tt, l') ->
  data_ok h0 J v0 (<[next_addr (lp_cq l) := (n, i)]> C)
    (after_part n a b t i) l'.
Proof.
  intros Hl [D1 D2 D3 D4 D5 D6 D7 D8] Hj Hp Hn H.
  destruct Hl as [(_ & _ & _ & Hfr) _ _ _].
  apply part_loop_inv in H as (ER & EQ & Erg & Eos & Eh & En & _ & Eb).
  set (x := next_addr (lp_cq l)) in *.
  destruct D4 as (jb' & Hj' & (ds & Hds & Es) & (dd & Hdd & Ed) & Hi). assert (jb' = jb) as -> by congruence.
  assert (qu_runners (lq l) !! x = None) as Hrx.
  { destruct (qu_runners (lq l) !! x) eqn:E; [|done]. pose proof (fr_owners _ _ Hfr x (Z.le_refl _)) as Hno.
    by rewrite (shape_owner _ _ _ E) in Hno. }
  assert (C !! x = None) as Hcx.
  { destruct (C !! x) eqn:E; [|done]. specialize (D7 _ _ E). fold x in D7. lia. }
  assert (piece_is h0 J (n, i) jb o sz al) as Hpi by done.
  assert (forall c, C !! c <> Some (n, i)) as Hnew.
  { intros c Hc. destruct (D5 _ _ Hc) as [Hlt|[_ Hlt]]; cbn in Hlt; lia. }
  assert (queue_kept h0 v0 J (<[x := (n, i)]> C) 0 (lq l')) as HK.
  { eapply (create_kept h0 v0 J C 0 (lq l) (lq l') x (new_runner a b o sz al t) (n, i) jb ds dd); try done.
    - split; [apply (fr_pos _ _ Hfr)|done].
    - unfold qview, world. by rewrite Eos. }
  split; try done.
  - rewrite Eh. done.
  - unfold buffer_ok. by rewrite Eb.
  - unfold after_part. destruct (Z.eqb_spec (i + 1) (parts_of h0 J n)); [done|].
    exists jb. rewrite EQ. split; [done|]. split; [by exists ds|]. split; [by exists dd|lia].
  - intros c p Hc. apply lookup_insert_Some in Hc as [[<- <-]|[_ Hc]].
    + by apply (behind_part n a b t i (n, i) jb o sz al); [|done|left].
    + destruct (rn_real _ _ _ _ _ (qk_runners _ _ _ _ _ _ D1) _ _ Hc) as (jb1 & o1 & n1 & al1 & Hp1).
      apply (behind_part n a b t i p jb1 o1 n1 al1 Hi Hp1). right. by eapply D5.
  - intros p jb1 o1 n1 al1 Hp1 Hb. apply (behind_part n a b t i p jb1 o1 n1 al1 Hi Hp1) in Hb as [->|Hb].
    + exists x. apply lookup_insert_eq.
    + destruct (D6 p jb1 o1 n1 al1 Hp1 Hb) as (c & Hc). exists c.
      rewrite lookup_insert_ne; [done|congruence].
  - intros c p Hc. rewrite En. apply lookup_insert_Some in Hc as [[<- _]|[_ Hc]]; [lia|].
    specialize (D7 c p Hc). fold x in D7. lia.
  - intros p f Hf Hfl. rewrite EQ in Hf. destruct (D8 p f Hf Hfl) as (j & jb1 & Hj1 & E1 & Hs).
    exists j, jb1. split; [done|]. split; [done|]. unfold after_part, started_file in *.
    destruct (i + 1 =? _); cbn in *; [left|]; lia.
Qed.
(** ** All steps *)

Lemma messages_grow_addr {A} (f : prog (loop W) A) l a l' :
  reports f -> f l = Ok (a, l') -> next_addr (lp_cq l) <= next_addr (lp_cq l').
Proof. intros Hf H. by destruct (Hf _ _ _ H) as (_ & _ & _ & ?). Qed.

(** A buffer at hand before is one after, or none, or another block. *)
Lemma buffer_after l l' :
  geometry h0 (qu_heap (lq l)) -> buffer_ok h0 l ->
  (nextBuffer l' = nextBuffer l \/ nextBuffer l' = 0 \/
     exists i, 0 <= i < Heap.blocks (qu_heap (lq l)) /\ nextBuffer l' = Heap.block_at (qu_heap (lq l)) i) ->
  buffer_ok h0 l'.
Proof.
  intros (G1 & G2 & G3 & _) Hb [E|[E|(i & Hi & E)]]; unfold buffer_ok in *; [by rewrite E|by left|].
  right. exists i. rewrite <- G2. split; [done|]. rewrite E. unfold Heap.block_at. by rewrite G1, G3.
Qed.

Lemma with_os_run {A} (c : prog (ost W) A) l a l' :
  on_cq (on_queue (with_os c)) l = Ok (a, l') ->
  exists o, l' = lp_set_queue (set_os o (lq l)) l.
Proof. intros H. apply lift_inv in H as (q & H & ->). apply with_os_inv in H as [o ->]. by exists o. Qed.

(** A call of the operating system that is none of the queue's business. *)
Lemma call_step C l m o :
  loop_ok 0 0 [] (stage_of h0 J m) (lp_set_queue (set_os o (lq l)) l) -> data_ok h0 J v0 C m l ->
  quiet_view (qview (lq l)) (kview_of (o_world o)) ->
  (forall p f, qu_qfds (lq l) !! p = Some f -> 2 < q_fd f ->
     kv_open (kview_of (o_world o)) !! q_fd f = kv_open (qview (lq l)) !! q_fd f) ->
  data_ok h0 J v0 C m (lp_set_queue (set_os o (lq l)) l).
Proof.
  intros Hl HD Hv Ho. pose proof HD as [D1 D2 D3 _ _ _ _ _].
  eapply data_same; try done; [by apply quiet_kept|apply no_new_refl].
Qed.

(** The directories the main thread has open. *)
Definition held_ok (D : list Z) l : Prop := NoDup D /\ Forall (fun d => held d (lq l)) D.

Lemma data_ok_step C l x l' x' :
  loop_ok 0 0 [] (stage_of h0 J x.1) l -> data_ok h0 J v0 C x.1 l -> held_ok x.2 l ->
  data_step rand h0 J (l, x) (l', x') ->
  (exists C', data_ok h0 J v0 C' x'.1 l') \/ trouble (zlen (errorMessages (lp_cq l))) l'.
Proof.
  intros Hl HD HH Hs. pose proof HD as [D1 D2 D3 D4 _ _ _ _].
  pose proof (data_loop_ok rand h0 J l x l' x' (jb_plan _ _ _ HJ) Hl Hs) as Hl'.
  assert (queue_kept h0 v0 J C 0 (lq l') -> x'.1 = x.1 -> geometry (qu_heap (lq l)) (qu_heap (lq l')) ->
    buffer_ok h0 l' -> no_new_files (qu_qfds (lq l)) (qu_qfds (lq l')) ->
    next_addr (lp_cq l) <= next_addr (lp_cq l') -> exists C', data_ok h0 J v0 C' x'.1 l') as Hsame.
  { intros HK E Hg Hb HQ Hn. rewrite E in *. exists C. eapply data_same; try done. by eapply geometry_trans. }
  inversion Hs as [? ? n D jb i Hj H|? ? n D jb i a Hj H|? ? n D jb a b Hj H|? ? n D jb a b t i o sz al Hj Hp Hk Hn H
    |? ? st act|? ? b|? ? ? A c a H Hv Ho|? ? ? D A c a fd path H Hv Hfd Hno Ho|? ? ? D A c a fd H Hv Ho|? ? ? e H
    |? ? ? fuel v H|? ? ? v H|? ? ? fuel b H|? ? n cs rg o H]; subst; cbn [fst snd stage_of] in *.
  - left. exists C. apply fresh_queue_inv in H as (q & H & ->). by eapply source_step.
  - left. exists C. apply fresh_queue_inv in H as (q & H & ->). by eapply dest_step.
  - left. exists C. apply fresh_queue_inv in H as (q & H & ->). apply modify_inv in H as ->. by apply track_step.
  - left. eexists. by eapply part_step.
  - left. by apply Hsame; [..|apply geometry_refl| |apply no_new_refl|].
  - left. by apply Hsame; [..|apply geometry_refl| |apply no_new_refl|].
  - left. exists C. apply with_os_run in H as [o ->]. apply call_step; try done.
    intros p f _ Hf. by apply Ho.
  - left. exists C. apply with_os_run in H as [o ->]. apply call_step; try done.
    intros p f Hf Hlt. change (qview (lq (lp_set_queue (set_os o (lq l)) l))) with (kview_of (o_world o)) in Ho.
    rewrite Ho. destruct (fm_open _ _ _ (kept_fds _ _ _ _ _ _ D1) p f Hf) as [E|[E|[_ Hop]]]; [rewrite E in Hlt; done..|].
    rewrite lookup_insert_ne; [done|congruence].
  - left. exists C. apply with_os_run in H as [o ->]. apply call_step; try done.
    intros p f Hf Hlt. change (qview (lq (lp_set_queue (set_os o (lq l)) l))) with (kview_of (o_world o)) in Ho.
    rewrite Ho, lookup_delete_ne; [done|]. destruct HH as [_ HH]. apply list.Forall_cons in HH as [Hd _].
    intros E. by apply (hd_other _ _ Hd p f Hf).
  - left. injection H as <-. by apply Hsame; [..|apply geometry_refl| |apply no_new_refl|].
  - pose proof (add_one_drift _ _ _ _ _ _ _ Hl H) as (Q1 & G1 & B1 & _).
    destruct (add_one_kept rand h0 v0 J HJ Hbase Hend fuel _ C l v l' Hl D1 D2 D3 H) as [HK|Hm].
    + left. apply Hsame; try done; [by eapply buffer_after|].
      eapply messages_grow_addr; [apply (reports_add_one no_forcing rand (R := errs))|exact H].
    + right. by left.
  - left. pose proof H as Hr. apply lift_inv in H as (q & H & ->).
    pose proof (calm_on_ring (-1) io_uring_submit _ _ _ H) as [Q1 G1 _].
    apply Hsame; try done. by eapply (enter_kept h0 v0 J HJ Hbase Hend).
  - pose proof (complete_one_drift _ _ _ _ _ H) as (Q1 & G1 & B1 & _).
    destruct (complete_one_kept h0 v0 J HJ Hbase Hend fuel _ C l b l' Hl D1 H) as [HK|Hm]; [left|by right].
    apply Hsame; try done; [eapply buffer_after; [exact D2|exact D3|tauto]|].
    eapply messages_grow_addr; [apply (reports_complete_one no_forcing (R := errs))|exact H].
  - left. apply Hsame; try done; [|apply no_new_refl].
    destruct D1 as [K1 K2 K3 K4 K5]. split; try done. by eapply serves_kept.
Qed.

Lemma new_qfd_held d i p path oflag md (q : queue W) q' :
  new_qfd i p path oflag md q = Ok (tt, q') -> held d q -> held d q'.
Proof.
  intros H [H1 H2 H3]. unfold new_qfd in H. apply bind_inv in H as ([] & q1 & Hm & H). injection Hm as <-.
  set (q1 := set_qfds _ q) in H.
  assert (held d q1) as Hh.
  { split; [done|done|]. intros p0 f0 H0. cbn in H0.
    apply lookup_insert_Some in H0 as [[<- <-]|[_ H0]]; [|by apply (H3 p0)]. cbn. unfold NEVER_OPENED_VAL. lia. }
  apply bind_inv in H as (b & q2 & Hr & H).
  apply (moves_reserve 0 (keeps_held d)) in Hr. specialize (Hr Hh).
  destruct b; [|by injection H as <-]. apply bind_inv in H as (y & q3 & Ho & H). injection H as <-.
  by eapply held_open.
Qed.

Lemma held_ok_step C l x l' x' :
  loop_ok 0 0 [] (stage_of h0 J x.1) l -> data_ok h0 J v0 C x.1 l -> held_ok x.2 l ->
  data_step rand h0 J (l, x) (l', x') -> held_ok x'.2 l'.
Proof.
  intros Hl HD [Hnd HH] Hs. pose proof (do_queue _ _ _ _ _ _ HD) as D1.
  assert ((forall d, held d (lq l) -> held d (lq l')) -> x'.2 = x.2 -> held_ok x'.2 l') as Hsame.
  { intros Hd ->. split; [done|]. exact (list.Forall_impl _ _ _ HH Hd). }
  inversion Hs as [? ? n D jb i Hj H|? ? n D jb i a Hj H|? ? n D jb a b Hj H|? ? n D jb a b t i o sz al Hj Hp Hk Hn H
    |? ? st act|? ? b|? ? ? A c a H Hv Ho|? ? ? D A c a fd path H Hv Hfd Hno Ho|? ? ? D A c a fd H Hv Ho|? ? ? e H
    |? ? ? fuel v H|? ? ? v H|? ? ? fuel b H|? ? n cs rg o H]; subst; cbn [fst snd stage_of] in *.
  - apply Hsame; [|done]. intros d. apply fresh_queue_inv in H as (q & H & ->). by eapply new_qfd_held.
  - apply Hsame; [|done]. intros d. apply fresh_queue_inv in H as (q & H & ->). by eapply new_qfd_held.
  - apply Hsame; [|done]. intros d. apply fresh_queue_inv in H as (q & H & ->). apply modify_inv in H as ->.
    by apply held_same.
  - apply Hsame; [|done]. intros d. apply part_loop_inv in H as (_ & EQ & _ & Eo & _).
    apply held_same; [done|]. unfold qview, world. by rewrite Eo.
  - by apply Hsame.
  - by apply Hsame.
  - apply Hsame; [|done]. intros d. apply with_os_run in H as [o ->]. by apply held_call.
  - apply with_os_run in H as [o ->].
    assert (forall d, d = fd \/ held d (lq l) -> held d (set_os o (lq l))) as Hgo
      by (intros d; by eapply (held_opened h0 v0 J C 0 (lq l) o d fd path D1)).
    split.
    + constructor; [|done]. intros Hin. rewrite list.Forall_forall in HH.
      destruct (hd_open _ _ (HH _ Hin)) as [? ?]. congruence.
    + constructor; [by apply Hgo; left|]. apply (list.Forall_impl _ _ _ HH). intros d Hd. apply Hgo. by right.
  - apply with_os_run in H as [o ->]. apply list.NoDup_cons in Hnd as [Hni Hnd].
    apply list.Forall_cons in HH as [_ HH]. split; [done|]. apply list.Forall_forall. intros d Hd.
    eapply (held_closed (lq l) o d fd); [exact Ho| |]; [by intros ->|]. by rewrite list.Forall_forall in HH; apply HH.
  - apply Hsame; [|done]. intros d. by injection H as <-.
  - apply Hsame; [|done]. intros d. by eapply add_one_held.
  - apply Hsame; [|done]. intros d. apply lift_inv in H as (q & H & ->). by eapply (enter_held d h0 v0 J HJ).
  - apply Hsame; [|done]. intros d. by eapply (complete_one_held d h0 v0 J HJ).
  - apply Hsame; [|done]. intros d. apply held_same; [done|].
    exact (serves_open _ _ _ _ _ _ H).
Qed.

Lemma data_steps_loop_ok s s' :
  data_steps rand h0 J s s' -> loop_ok 0 0 [] (stage_of h0 J s.2.1) s.1 ->
  loop_ok 0 0 [] (stage_of h0 J s'.2.1) s'.1.
Proof.
  induction 1 as [s|[l x] [l1 x1] s2 H Hs IH]; [done|]. intros Hl.
  apply IH. exact (data_loop_ok rand h0 J l x l1 x1 (jb_plan _ _ _ HJ) Hl H).
Qed.

(** The data is as it should be, or somebody told, or will. *)
Lemma data_ok_steps n s s' :
  data_steps rand h0 J s s' -> loop_ok 0 0 [] (stage_of h0 J s.2.1) s.1 ->
  n <= zlen (errorMessages (lp_cq s.1)) ->
  (exists C, data_ok h0 J v0 C s.2.1 s.1 /\ held_ok s.2.2 s.1) \/ trouble n s.1 ->
  (exists C, data_ok h0 J v0 C s'.2.1 s'.1 /\ held_ok s'.2.2 s'.1) \/ trouble n s'.1.
Proof.
  induction 1 as [s|[l x] [l1 x1] s2 H Hs IH]; [done|]. cbn [fst snd] in *. intros Hl Hn HD.
  pose proof (step_messages _ _ _ _ _ _ _ H) as Hm. apply IH; [|lia|].
  - exact (data_loop_ok rand h0 J l x l1 x1 (jb_plan _ _ _ HJ) Hl H).
  - destruct HD as [[C [HD HH]]|HD]; [|right; by eapply trouble_step].
    pose proof (held_ok_step C l x l1 x1 Hl HD HH H) as HH1.
    destruct (data_ok_step C l x l1 x1 Hl HD HH H) as [[C' ?]|[Ht|Ht]];
      [left; by exists C'|right; left; lia|by right; right].
Qed.
End kept.
