(* ===== verification/DataRuns.v ===== *)
(** * The code's own functions, as steps of the data system

    [addCopyJob] of the next file, and the loop of the submit thread, are sequences of
    the steps of DataSystem.v. *)

From stdpp Require Import gmap strings.
From S2P Require Import Prelude Abi Prep RingBuf Ring SqSpec Kernel Queue Os Util Heap CopyState FileDesc Runner RunnerData RunnerLive RunnerSpec CopyQueue CopyJob SubmitLoop Shape Accounts System SystemSpec Lifecycle Serving Contents Keeping KeptFiles Moves Drift DataSystem Advancing.

Section runs.
Context {W : Type} {F : Files W} {K : Kernel W} {CV : Contents W}.
Context (rand : Z -> Z) (h0 : Heap.heap) (J : list job).
Implicit Types (l : loop W) (x : progress * list Z).

#[local] Hint Constructors data_step data_steps : core.
#[local] Hint Resolve data_steps_trans : core.

Lemma submitLoop_data n inner fuel l l' x :
  submitLoop no_forcing rand n inner fuel l = Ok (LoopReturned, l') ->
  exists l1, data_steps rand h0 J (l, x) (l1, x) /\
    keepAliveCount (qu_counters (lq l1)) = 0 /\ errorMessages (lp_cq l') = errorMessages (lp_cq l1) /\
    qview (lq l') = qview (lq l1).
Proof.
  intros H. apply (submitLoop_runs no_forcing rand (fun l l' => data_steps rand h0 J (l, x) (l', x)))
    in H as (l1 & Hs & _ & Hk & Hend); eauto.
  exists l1. split; [done|]. split; [done|]. by destruct Hend as [[_ ->]|(_ & h & _ & ->)].
Qed.

(** ** Adding a file *)

(** Room for [k] more runners. *)
Record room_for (k : Z) l : Prop := {
  rf_alive : 0 <= keepAliveCount (qu_counters (lq l));
  rf_more : keepAliveCount (qu_counters (lq l)) + k < 2 ^ 32;
  rf_next : next_addr (lp_cq l) + k <= 2 ^ 62;
}.

Lemma part_room a b o sz al t l l' k :
  0 <= k -> room_for (k + 1) l -> on_cq (addCopyJobPart a b o sz al t) l = Ok (tt, l') -> room_for k l'.
Proof.
  intros Hk [R1 R2 R3] H. apply on_cq_inv in H as (c & H & ->).
  apply addCopyJobPart_inv in H as (E & En & _). apply (f_equal sh_alive) in E.
  cbn [sh_alive with_runner] in E.
  change (sh_alive (shape_of (cq_queue c))) with (keepAliveCount (qu_counters (cq_queue c))) in E.
  change (sh_alive (shape_of (cq_queue (lp_cq l)))) with (keepAliveCount (qu_counters (lq l))) in E.
  rewrite wrap_small in E by (unfold in_u; lia).
  split; unfold lq in *; cbn [lp_cq lp_set_cq] in *; lia.
Qed.

Section file.
Context (n : nat) (jb : job) (Hjb : J !! n = Some jb) (D : list Z).
Let st := job_st jb.
Let cs := chunk_size (Heap.blockSize h0) (Heap.alignment h0) (stx_blksize st).

Lemma part_data a b t i o sz al l c' :
  zget (plan h0 st) i = Some (o, sz, al) -> room_for 1 l ->
  addCopyJobPart a b o sz al t (lp_cq l) = Ok (tt, c') ->
  data_steps rand h0 J (l, (Parting n a b t i, D)) (lp_set_cq c' l, (after_part h0 J n a b t i, D)).
Proof.
  intros Hp [R1 R2 R3] H. eapply data_next; [|apply data_refl].
  eapply data_part; [exact Hjb|exact Hp|lia|lia|]. unfold on_cq. by rewrite H.
Qed.

Lemma part_loop_data fuel a b t i l i' c' :
  job_ok h0 st -> 0 <= i < chunk_count (stx_size st) cs -> room_for (Z.of_nat fuel) l ->
  part_loop fuel a b (stx_size st) cs (stx_blksize st) t i (i * cs) (lp_cq l) = Ok (i', c') ->
  data_steps rand h0 J (l, (Parting n a b t i, D)) (lp_set_cq c' l, (Between (S n), D)).
Proof.
  intros Hj. pose proof (chunk_size_ok h0 st Hj) as ([Hcs _] & _). fold cs in Hcs.
  pose proof (jo_size _ _ Hj) as Hsz. pose proof (jo_count _ _ Hj) as Hcc. fold cs in Hcc.
  destruct (chunk_count_spec (stx_size st) cs Hcs) as (_ & Hn & Hn2); [lia|].
  assert (parts_of h0 J n = chunk_count (stx_size st) cs) as Epn
    by (unfold parts_of; rewrite Hjb; by apply length_plan).
  revert i l. induction fuel as [|fuel IH]; intros i l Hi Hr H; cbn [part_loop] in H;
    (destruct (Z.eqb_spec (i * cs) (stx_size st)); [exfalso; nia|]); [done|].
  assert (i * cs < stx_size st) as Hlt by nia.
  rewrite (wrap_small 64 (stx_size st - i * cs)) in H by (unfold in_u; nia).
  fold (chunk_len cs (stx_size st) i) in H. apply bind_inv in H as ([] & c1 & H1 & H).
  set (l1 := lp_set_cq c1 l).
  assert (zget (plan h0 st) i = Some (i * cs, chunk_len cs (stx_size st) i, stx_blksize st)) as Hp.
  { rewrite plan_nonempty by lia. fold cs. by rewrite zget_map, zget_zseq by lia. }
  eapply data_steps_trans; [eapply part_data; [exact Hp| |exact H1]|].
  { destruct Hr. split; lia. }
  assert (room_for (Z.of_nat fuel) l1) as Hr1.
  { eapply part_room; [lia| |unfold on_cq; by rewrite H1].
    by replace (Z.of_nat fuel + 1) with (Z.of_nat (S fuel)) by lia. }
  rewrite (sext_small 32 (i + 1)) in H by (unfold in_s; lia).
  assert (i * cs + chunk_len cs (stx_size st) i = Z.min (stx_size st) ((i + 1) * cs)) as Eo
    by (unfold chunk_len; lia).
  rewrite Eo, (wrap_small 64 (Z.min _ _)) in H by (unfold in_u; nia).
  unfold after_part. rewrite Epn. destruct (Z.eqb_spec (i + 1) (chunk_count (stx_size st) cs)) as [E|E].
  - rewrite E, Z.min_l in H by lia.
    assert (c' = c1) as ->; [|apply data_refl].
    destruct fuel; cbn [part_loop] in H; rewrite Z.eqb_refl in H; by apply ret_inv in H as [_ ->].
  - assert (0 <= i + 1 < chunk_count (stx_size st) cs) as Hi1 by lia.
    rewrite Z.min_r in H by nia. exact (IH (i + 1) l1 Hi1 Hr1 H).
Qed.
(** Cutting the file. *)
Lemma add_parts_data fuel a b l c' :
  plannable h0 st -> geometry h0 (qu_heap (lq l)) -> room_for (Z.of_nat fuel + 2) l ->
  add_parts fuel st a b (next_addr (lp_cq l)) (cq_set_next (next_addr (lp_cq l) + 1) (lp_cq l)) = Ok (tt, c') ->
  data_steps rand h0 J (l, (Opened n a b, D)) (lp_set_cq c' l, (Between (S n), D)).
Proof.
  intros Hp (G1 & G2 & G3 & G4) [R1 R2 R3] H. set (t := next_addr (lp_cq l)) in *.
  set (tracked := fun k => lp_set_cq (cq_set_queue (set_chunks (<[t := k]> (qu_chunks (lq l))) (lq l))
    (cq_set_next (t + 1) (lp_cq l))) l).
  assert (data_steps rand h0 J (l, (Opened n a b, D)) (tracked (parts_of h0 J n), (Parting n a b t 0, D))) as Hs.
  { eapply data_next; [|apply data_refl]. eapply data_track; [exact Hjb|done]. }
  assert (room_for (Z.of_nat fuel + 1) (tracked (parts_of h0 J n))) as Hr
    by (split; unfold lq in *; cbn in *; unfold lq, t in *; lia).
  unfold add_parts in H. eapply data_steps_trans; [exact Hs|].
  destruct (Z.eqb_spec (stx_size st) 0) as [E0|E0].
  - assert (plan h0 st = [(0, 0, 0)]) as Epl by (unfold plan; by rewrite E0).
    assert (parts_of h0 J n = 1) as Epn by (unfold parts_of; rewrite Hjb; fold st; by rewrite Epl).
    apply bind_inv in H as ([] & c1 & H1 & H). injection H1 as <-. rewrite Epn in *.
    assert (after_part h0 J n a b t 0 = Between (S n)) as <- by (unfold after_part; by rewrite Epn).
    apply (part_data a b t 0 0 0 0 (tracked 1) c'); [by rewrite Epl| |exact H].
    destruct Hr. split; lia.
  - destruct Hp as [?|Hj]; [done|]. apply bind_inv in H as (h & c6 & Hg & H). injection Hg as <- <-.
    unfold lq in G1, G4. cbn [cq_queue cq_set_next] in H. rewrite G1, G4 in H. fold cs in H.
    apply bind_inv in H as ([] & c6 & Ha & H). apply assert_inv in Ha as [_ ->].
    pose proof (chunk_size_ok h0 st Hj) as ([Hcs _] & _). fold cs in Hcs.
    pose proof (jo_size _ _ Hj) as Hsz. pose proof (jo_count _ _ Hj) as Hcc. fold cs in Hcc.
    rewrite (chunk_count_code (stx_size st) cs) in H by lia.
    assert (parts_of h0 J n = chunk_count (stx_size st) cs) as Epn
      by (unfold parts_of; rewrite Hjb; by apply length_plan).
    rewrite <- Epn in H.
    apply bind_inv in H as ([] & c6 & H6 & H). injection H6 as <-.
    apply bind_inv in H as (i' & c7 & H7 & Hi). apply assert_inv in Hi as [_ ->].
    assert (0 < chunk_count (stx_size st) cs) as Hpos by (apply chunk_count_spec; lia).
    apply (part_loop_data fuel a b t 0 (tracked (parts_of h0 J n)) i' _ Hj); [lia| |exact H7].
    destruct Hr. split; lia.
Qed.

Lemma addCopyJob_data fuel i1 i2 l c' :
  plannable h0 st -> geometry h0 (qu_heap (lq l)) -> room_for (Z.of_nat fuel + 4) l ->
  addCopyJob fuel i1 i2 (job_src jb) (job_dst jb) st (lp_cq l) = Ok (tt, c') ->
  data_steps rand h0 J (l, (Between n, D)) (lp_set_cq c' l, (Between (S n), D)).
Proof.
  intros Hp Hg [R1 R2 R3] H. unfold addCopyJob in H. fold src_flags dest_flags in H.
  apply bind_inv in H as (s & c1 & H1 & H). apply fresh_run in H1 as [-> ->].
  apply bind_inv in H as ([] & c2 & H2 & H). apply bind_inv in H as (d & c3 & H3 & H).
  apply fresh_run in H3 as [-> ->]. apply bind_inv in H as ([] & c4 & H4 & H).
  apply bind_inv in H as (t & c5 & H5 & H). apply fresh_run in H5 as [-> ->].
  set (s := next_addr (lp_cq l)) in *. set (l2 := lp_set_cq c2 l). set (l4 := lp_set_cq c4 l).
  set (d := next_addr c2) in *.
  assert (data_step rand h0 J (l, (Between n, D)) (l2, (Sourced n s, D))) as S1.
  { apply (data_source rand h0 J l l2 n D jb i1 Hjb). unfold on_cq. rewrite fresh_bind. fold s. by rewrite H2. }
  assert (data_step rand h0 J (l2, (Sourced n s, D)) (l4, (Opened n s d, D))) as S2.
  { apply (data_dest rand h0 J l2 l4 n D jb i2 s Hjb). unfold on_cq. rewrite fresh_bind.
    change (lp_cq l2) with c2. fold d st. by rewrite H4. }
  eapply data_next; [exact S1|]. eapply data_next; [exact S2|].
  change (lp_set_cq c' l) with (lp_set_cq c' l4).
  destruct (on_queue_inv _ _ _ _ H2) as (q2 & N2 & E2). destruct (on_queue_inv _ _ _ _ H4) as (q4 & N4 & E4).
  pose proof (new_qfd_shape _ _ _ _ _ _ _ _ N2) as Sh2. pose proof (new_qfd_shape _ _ _ _ _ _ _ _ N4) as Sh4.
  assert (next_addr c4 = next_addr (lp_cq l) + 2) as En by (rewrite E4; unfold d; rewrite E2; cbn; unfold s; lia).
  apply (add_parts_data fuel s d l4 c' Hp); [| |exact H].
  - apply (f_equal sh_heap) in Sh2, Sh4. subst c4 c2. unfold lq. cbn in *. by rewrite Sh4, Sh2.
  - apply (f_equal sh_alive) in Sh2, Sh4. subst c4 c2. split; unfold lq in *; cbn in *; rewrite ?Sh4, ?Sh2; lia.
Qed.
End file.
End runs.
