(* ===== verification/DataWorld.v ===== *)
(** * A drive

    A world that meets the laws of Contents.v, for the witnesses: files are functions
    from positions to bytes, and io_uring_enter(2) takes the whole chains among the
    entries submitted, executes them in order, and posts what the ring has room for. *)

From stdpp Require Import gmap strings.
From S2P Require Import Prelude Abi Prep RingBuf Ring SqSpec CqSpec Kernel Queue QueueSpec Os Util CopyState Runner RunnerData CopyQueue Service ServedWorld Contents.

(** ** Requests executed *)

(** One request: its result, and the drive after it. *)
Definition run_one (v : kview) (e : io_uring_sqe) : Z * kview :=
  match decode e with
  | Some (Read fd addr n off) =>
      match kv_open v !! fd with
      | Some p =>
          if n <? 0 then (-1, v)
          else
            let m := Z.min n (Z.max 0 (kv_size v p - off)) in
            (m, kv_set_mem (splice (kv_mem v) addr m (fun k => kv_file v p (k - addr + off))) v)
      | None => (- EBADF, v)
      end
  | Some (Write fd addr n off) =>
      match kv_open v !! fd with
      | Some p =>
          if n <? 0 then (-1, v)
          else (n, kv_write p off n (fun k => kv_mem v (k - off + addr)) v)
      | None => (- EBADF, v)
      end
  | _ => (0, v)
  end.

(** At most [n] requests, the oldest first. *)
Fixpoint run_some (n : nat) (v : kview) : list (Z * Z) * kview :=
  match n with
  | O => ([], v)
  | S n =>
      match kv_flight v with
      | (cut, e :: es) :: l =>
          let '(res, v1) := if cut then (- ECANCELED, v) else run_one v e in
          let cut' := if cut then linked e else severs e res in
          let '(ans, v2) := run_some n (kv_set_flight (rest_of cut' es ++ l) v1) in
          ((sqe_user_data e, res) :: ans, v2)
      | _ => ([], v)
      end
  end.

Lemma run_one_exec v e : exec v e (run_one v e).1 (run_one v e).2.
Proof.
  unfold run_one. destruct (decode e) as [r|] eqn:Hd; [|by apply exec_other; rewrite Hd].
  destruct r; try (by apply exec_other; rewrite Hd);
    (destruct (kv_open v !! _) as [p|] eqn:Hp; [|apply exec_fails; cbn; unfold EBADF; lia]);
    match goal with |- context [?n <? 0] => destruct (Z.ltb_spec n 0) end;
    try (apply exec_fails; cbn; lia).
  - eapply exec_reads; [exact Hd|exact Hp|cbn; lia|cbn; lia].
  - by eapply exec_writes.
Qed.

Lemma run_some_steps n v : ksteps v (run_some n v).1 (run_some n v).2.
Proof.
  revert v. induction n as [|n IH]; intros v; [constructor|]. cbn [run_some].
  destruct (kv_flight v) as [|[cut [|e es]] l] eqn:Hf; [constructor..|].
  assert (kstep v (sqe_user_data e, (if cut then (- ECANCELED, v) else run_one v e).1)
    (kv_set_flight (rest_of (if cut then linked e else severs e (run_one v e).1) es ++ l)
      (if cut then (- ECANCELED, v) else run_one v e).2)) as Hs.
  { destruct cut; [by apply (kstep_cancel v [])|]. apply (kstep_run v []); [done|apply run_one_exec]. }
  destruct cut; cbn [fst snd] in Hs.
  - set (v1 := kv_set_flight _ _) in *. specialize (IH v1). destruct (run_some n v1). by econstructor.
  - destruct (run_one v e) as [res v1]. cbn [fst snd] in Hs.
    set (v2 := kv_set_flight _ _) in *. specialize (IH v2). destruct (run_some n v2). by econstructor.
Qed.

(** ** Whole chains *)

(** The chains of a list of entries, after [acc]; an unfinished one stays behind. *)
Fixpoint whole (acc es : list io_uring_sqe) : list (list io_uring_sqe) :=
  match es with
  | [] => []
  | e :: es => if linked e then whole (acc ++ [e]) es else (acc ++ [e]) :: whole [] es
  end.

Lemma chain_end acc e : Forall (fun e => linked e = true) acc -> linked e = false -> chain_of (acc ++ [e]).
Proof.
  intros Ha He. induction Ha as [|x acc Hx Ha IH]; [done|]. cbn. by destruct acc.
Qed.

Lemma whole_ok acc es :
  Forall (fun e => linked e = true) acc ->
  Forall chain_of (whole acc es) /\ exists rest, acc ++ es = concat (whole acc es) ++ rest.
Proof.
  revert acc. induction es as [|e es IH]; intros acc Ha; cbn [whole].
  - split; [constructor|]. by exists acc; rewrite app_nil_r.
  - destruct (linked e) eqn:He.
    + destruct (IH (acc ++ [e])) as (H1 & rest & H2); [by apply Forall_app; split; [|constructor]|].
      split; [done|]. exists rest. by rewrite <- H2, <- app_assoc.
    + destruct (IH []) as (H1 & rest & H2); [constructor|]. split; [constructor; [by apply chain_end|done]|].
      exists rest. cbn in *. rewrite <- !app_assoc, <- H2. done.
Qed.

(** ** Posting *)

Fixpoint post_some (ans : list (Z * Z)) (q : io_uring_cq) : io_uring_cq * list (Z * Z) :=
  match ans with
  | [] => (q, [])
  | a :: rest =>
      if io_uring_cq_ready q <? cq_kring_entries q then post_some rest (cq_kernel_post (completion_of a) q)
      else (q, ans)
  end.

Lemma post_some_ok ans q q' late :
  post_some ans q = (q', late) -> exists cs, cq_posts q cs q' /\ ans = (answer_of <$> cs) ++ late.
Proof.
  revert q. induction ans as [|a ans IH]; intros q; cbn [post_some].
  - intros [= <- <-]. exists []. split; [constructor|done].
  - destruct (Z.ltb_spec (io_uring_cq_ready q) (cq_kring_entries q)) as [Hr|Hr].
    + intros H. destruct (IH _ H) as (cs & Hp & ->). exists (completion_of a :: cs).
      split; [by constructor|]. by destruct a.
    + intros [= <- <-]. exists []. split; [constructor|done].
Qed.

(** ** The world *)

#[export] Instance DriveContents : Contents kview := fun v => v.

#[export] Instance DriveFiles : Files kview := {|
  f_open v path oflag mode :=
    if Z.of_nat (base.size (kv_open v)) <? shelf_limit then
      let fd := least_free (kv_open v) (base.size (kv_open v)) 3 in
      let v1 := if flag_set oflag O_TRUNC then kv_set_file path (fun _ => 0) 0 v else v in
      (kv_set_open (<[fd := path]> (kv_open v)) v1, fd, 0)
    else (v, -1, EMFILE);
  f_close v fd :=
    (kv_set_open (delete fd (kv_open v)) v,
     if kv_open v !! fd then 0 else -1, if kv_open v !! fd then 0 else EBADF);
|}.

Definition drive_enter (v : kview) (r : io_uring) (fd sub mn fl : Z) (a : enter_arg) (sz : Z)
    : kview * io_uring * Z * Z :=
  let es := take (Z.to_nat sub) (default [] (kernel_reads (r_sq r) (sq_pending (r_sq r)))) in
  let chs := whole [] es in
  let n := zlen (concat chs) in
  let '(ans, v1) := run_some (length (concat chs)) (kv_set_flight (kv_flight v ++ (pair false <$> chs)) v) in
  let '(q, late) := post_some (kv_late v ++ ans) (r_cq r) in
  (kv_set_late late v1, set_cq q (set_sq (sq_kernel_update n 0 0 (r_sq r)) r), n, 0).

#[export] Instance DriveKernel : Kernel kview := {| sys_enter := drive_enter |}.

Lemma drive_serves v r fd sub mn fl a sz v' r' n e :
  drive_enter v r fd sub mn fl a sz = (v', r', n, e) -> sq_ok (r_sq r) ->
  e = 0 /\ 0 <= n /\ (0 <= sub -> n <= sub) /\ exists cs, kernel_serves n cs r r' v v'.
Proof.
  intros H Hok. unfold drive_enter in H. pose proof (sq_pending_range _ Hok) as Hp.
  rewrite kernel_reads_published in H by (done || lia).
  change (default [] (Some _)) with (published (sq_abs (r_sq r))) in H.
  destruct (sq_abs_lengths _ Hok) as [Hlen _]. set (pub := published (sq_abs (r_sq r))) in *.
  set (es := take _ _) in H. destruct (whole_ok [] es) as (Hch & rest & Hes); [constructor|].
  cbn [app] in Hes. set (chs := whole [] es) in *.
  pose proof (run_some_steps (length (concat chs)) (kv_set_flight (kv_flight v ++ (pair false <$> chs)) v)) as Hs.
  destruct (run_some _ _) as [ans v1]. cbn [fst snd] in Hs.
  destruct (post_some _ _) as [q late] eqn:Hpost. injection H as <- <- <- <-.
  destruct (post_some_ok _ _ _ _ Hpost) as (cs & Hcs & Eans).
  assert (concat chs = take (length (concat chs)) es) as Et by (by rewrite Hes, take_app_length).
  assert (length es <= length pub)%nat as H1
    by (unfold es; rewrite length_take; lia).
  assert (length (concat chs) <= length es)%nat as H2 by (rewrite Hes, length_app; lia).
  assert (length es <= Z.to_nat sub)%nat as H3 by (unfold es; rewrite length_take; lia).
  unfold zlen in *. split; [done|]. split; [lia|]. split; [lia|]. exists cs. split.
  - split; [lia|]. split; [by exists 0, 0|]. by split.
  - exists chs, ans, v1, late. split_and!; try done.
    rewrite Nat2Z.id. fold pub. clearbody chs. rewrite Et at 2. unfold es. rewrite take_take. f_equal. lia.
Qed.

#[export] Instance DriveKernelLaws : KernelLaws kview.
Proof.
  split. intros w r fd sub mn fl a sz w' r' v e H Hsub Hsq _.
  destruct (drive_serves _ _ _ _ _ _ _ _ _ _ _ _ H Hsq) as (-> & Hv & Hle & cs & Hact & _).
  unfold in_u in Hsub. exists v, cs. split; [done|]. split; [lia|]. intros _ _. split; [done|]. apply Hle. lia.
Qed.

#[export] Instance DriveLaws : ContentLaws kview.
Proof.
  split.
  - intros v path oflag mode v' fd e H. cbn in H.
    pose proof (least_free_range (kv_open v) (base.size (kv_open v)) 3) as Hr.
    pose proof (least_free_free (kv_open v) 3) as Hfree.
    destruct (Z.ltb_spec (Z.of_nat (base.size (kv_open v))) shelf_limit) as [Hlt|Hlt]; injection H as <- <- <-.
    + unfold shelf_limit in Hlt. destruct (flag_set oflag O_TRUNC) eqn:Ht; split_and!; try done.
      * intros p [Hne|?]; [|congruence]. cbn. by destruct (decide (p = path)).
      * intros _ _. cbn. by destruct (decide (path = path)).
      * right. split; [lia|]. by split.
      * congruence.
      * right. split; [lia|]. by split.
    + split_and!; try done. left. by split.
  - intros v fd v' x e H. cbn in H. by injection H as <- <- <-.
  - intros v r fd sub mn fl a sz v' r' n e H [Hsq _].
    destruct (drive_serves _ _ _ _ _ _ _ _ _ _ _ _ H Hsq) as (_ & _ & _ & cs & Hk). by exists n, cs.
Qed.
