(* ===== verification/Faithful.v ===== *)
(** * Copies are faithful

    A queue that copies files, started with nothing in it, and what its destinations
    hold when the last runner is gone. *)

From stdpp Require Import gmap strings.
From S2P Require Import Prelude Abi Prep RingBuf Ring SqSpec CqSpec Kernel Queue QueueSpec Os Util Heap CopyState FileDesc Runner RunnerData RunnerLive RunnerSpec CopyQueue CopyJob SubmitLoop Shape Accounts System SystemSpec Lifecycle Service Rounds ServedFiles Serving Retiring Contents Promise Ledger Executing Entering Keeping KeptFiles KeptRounds KeptResults Moves Drift Tracked DataSystem Advancing DataRuns DataWorld.
Import Eta.Rolling Eta.ETA.

Section faithful.
Context {W : Type} {F : Files W} {K : Kernel W} {KL : KernelLaws W} {CV : Contents W} {CL : ContentLaws W}.
Context (rand : Z -> Z).
Implicit Types (l : loop W) (m : progress).

(** Nothing is queued, taken or completed in the ring. *)
Record quiet_ring (q : queue W) : Prop := {
  qr_ok : ring_ok (qu_ring q);
  qr_published : published (sq_abs (r_sq (qu_ring q))) = [];
  qr_acquired : acquired (sq_abs (r_sq (qu_ring q))) = [];
  qr_contents : cq_contents (r_cq (qu_ring q)) = [];
  qr_flight : kv_flight (qview q) = [];
  qr_late : kv_late (qview q) = [];
}.

Lemma idle_kept q J :
  quiet_ring q -> qu_runners q = ∅ -> qu_qfds q = ∅ ->
  queue_kept (qu_heap q) (qview q) J ∅ 0 q.
Proof.
  intros [R1 R2 R3 R4 R5 R6] ER EQ. split; rewrite ?ER, ?EQ.
  - split; intros; set_solver.
  - split; [done|lia|]. exists [], []. rewrite R2, R3. split; [done|]. split.
    + split; cbn; [constructor|set_solver..].
    + split; [set_solver|done].
    + split; intros; set_solver.
    + unfold in_flight. by rewrite R5.
    + unfold answered, to_handle. by rewrite R4, R6.
  - set_solver.
  - set_solver.
  - set_solver.
Qed.

Lemma starting_data l J :
  starting l -> quiet_ring (lq l) -> data_ok (qu_heap (lq l)) J (qview (lq l)) ∅ (Between 0) l.
Proof.
  intros [R1 R2 R3 R4 R5 [R6 R6'] R7 R8 [R9 R9'] R10 R11 R12] Hq. split.
  - by apply idle_kept.
  - apply geometry_refl.
  - by left.
  - done.
  - set_solver.
  - intros p jb o n al _ [?|[]]; cbn in *; lia.
  - set_solver.
  - rewrite R3. set_solver.
Qed.

(** The last runner is gone when none is to be kept alive. *)
Lemma none_alive rm d cur g l :
  loop_ok rm d cur g l -> keepAliveCount (qu_counters (lq l)) = 0 -> qu_runners (lq l) = ∅.
Proof.
  intros [([W1 W2 _ _ _ _] & _) _ _ _] H0. change (sh_alive (shape_of (lq l))) with (keepAliveCount (qu_counters (lq l))) in W1.
  rewrite H0 in W1. assert (alive (sh_owners (shape_of (lq l))) = 0) as E.
  { assert (0 <= alive (sh_owners (shape_of (lq l)))) by (apply total_nonneg; intros; lia).
    rewrite wrap_small in W1; [done|]. unfold in_u. lia. }
  apply alive_zero in E. apply map_empty. intros a. destruct (qu_runners (lq l) !! a) eqn:Ha; [|done].
  apply shape_owner in Ha. by rewrite E in Ha.
Qed.

Section ended.
Context (J : list job) (l0 l : loop W).
Let h0 := qu_heap (lq l0).
Let v0 := qview (lq l0).
Context (Hst : starting l0) (Hq : quiet_ring (lq l0))
  (Hend : Heap.data h0 + Heap.blocks h0 * Heap.blockSize h0 < 2 ^ 63) (HJ : jobs_ok h0 v0 J).

(** When all files were added, the last runner is gone and there were no errors, every
    piece is done. *)
Lemma ended_data :
  data_steps rand h0 J (l0, (Between 0, [])) (l, (Between (length J), [])) ->
  keepAliveCount (qu_counters (lq l)) = 0 -> errorMessages (lp_cq l) = errorMessages (lp_cq l0) ->
  qu_runners (lq l) = ∅ /\ exists C, data_ok h0 J v0 C (Between (length J)) l.
Proof.
  intros Hs Hk He. pose proof (st_heap _ Hst) as [_ Hbase]. pose proof (starting_ok _ Hst) as Hl0.
  assert (loop_ok 0 0 [] NotAdding l) as Hl
    by exact (data_steps_loop_ok rand h0 v0 J HJ _ _ Hs Hl0).
  pose proof (none_alive _ _ _ _ _ Hl Hk) as Hnone. split; [done|].
  destruct (data_ok_steps rand h0 v0 J HJ Hbase Hend (zlen (errorMessages (lp_cq l0))) _ _ Hs Hl0) as [[C [HD _]]|[Hm|Hm]].
  - cbn. lia.
  - left. exists ∅. split; [by apply starting_data|by split; constructor].
  - by exists C.
  - cbn in Hm. rewrite He in Hm. lia.
  - destruct Hm as (b & r & Hr & _). cbn in Hr. by rewrite Hnone in Hr.
Qed.

Lemma all_copied C :
  data_ok h0 J v0 C (Between (length J)) l -> qu_runners (lq l) = ∅ ->
  (forall j, j ∈ J -> kv_size (qview (lq l)) (job_dst j) = stx_size (job_st j) /\
     forall k, 0 <= k < stx_size (job_st j) ->
     kv_file (qview (lq l)) (job_dst j) k = kv_file v0 (job_src j) k) /\
  (forall p, p ∉ job_dst <$> J -> kv_file (qview (lq l)) p = kv_file v0 p /\
     kv_size (qview (lq l)) p = kv_size v0 p).
Proof.
  intros HD Hnone. pose proof (kept_files _ _ _ _ _ _ (do_queue _ _ _ _ _ _ HD)) as [F1 F2].
  split; [|exact F2]. intros j Hj. pose proof (jb_plan _ _ _ HJ j Hj) as Hplan.
  apply list_elem_of_lookup_1 in Hj as [n Hn].
  assert (forall i o sz al, zget (plan h0 (job_st j)) i = Some (o, sz, al) ->
    fits_size (qview (lq l)) j /\ forall k, o <= k < o + sz ->
      k < kv_size (qview (lq l)) (job_dst j) /\
      kv_file (qview (lq l)) (job_dst j) k = kv_file v0 (job_src j) k) as Hpieces.
  { intros i o sz al Hp. assert (piece_is h0 J (n, i) j o sz al) as Hpi by done.
    destruct (do_all _ _ _ _ _ _ HD (n, i) j o sz al Hpi) as (a & Ha).
    { left. by eapply lookup_lt_Some. }
    assert (qu_runners (lq l) !! a = None) as Hgone by (by rewrite Hnone).
    destruct (F1 a (n, i) Ha Hgone j o sz al Hpi) as [Hfit Hdone].
    split; [done|]. intros k Hk. by apply seen_right, Hdone. }
  assert (forall k, 0 <= k < stx_size (job_st j) ->
    k < kv_size (qview (lq l)) (job_dst j) /\
    kv_file (qview (lq l)) (job_dst j) k = kv_file v0 (job_src j) k) as Hbytes.
  { intros k Hk. destruct (pieces_cover h0 (job_st j) k Hplan Hk) as (i & o & sz & al & Hp & Hin).
    by apply (Hpieces i o sz al Hp). }
  split; [|intros k Hk; by apply Hbytes].
  destruct (zget_in (plan h0 (job_st j)) 0) as [[[o sz] al] Hp]; [split; [lia|by apply plan_pos]|].
  destruct (Hpieces _ _ _ _ Hp) as [Hfit _]. unfold fits_size in Hfit.
  destruct (Z.eq_dec (stx_size (job_st j)) 0); [lia|].
  destruct (Hbytes (stx_size (job_st j) - 1)) as [Hlast _]; lia.
Qed.
End ended.

(** C1: no silent corruption.  A queue starts with nothing in it and adds the files of
    [J], each cut into chunks, while the submit thread starts and continues chunks and
    handles completions, and the kernel executes requests: in any order, at any time,
    with short counts and with errors.  If in the end no runner is alive and no error
    was reported, then every destination is as long as its file and holds, at every
    position, the byte its source held at the start; every other file is as it was. *)
Theorem copies_are_faithful J (l0 l : loop W) :
  let h0 := qu_heap (lq l0) in let v0 := qview (lq l0) in let v := qview (lq l) in
  starting l0 -> quiet_ring (lq l0) ->
  Heap.data h0 + Heap.blocks h0 * Heap.blockSize h0 < 2 ^ 63 -> jobs_ok h0 v0 J ->
  data_steps rand h0 J (l0, (Between 0, [])) (l, (Between (length J), [])) ->
  keepAliveCount (qu_counters (lq l)) = 0 -> errorMessages (lp_cq l) = errorMessages (lp_cq l0) ->
  (forall j, j ∈ J -> kv_size v (job_dst j) = stx_size (job_st j) /\
     forall k, 0 <= k < stx_size (job_st j) ->
     kv_file v (job_dst j) k = kv_file v0 (job_src j) k) /\
  (forall p, p ∉ job_dst <$> J -> kv_file v p = kv_file v0 p /\ kv_size v p = kv_size v0 p).
Proof.
  intros h0 v0 v Hst Hq Hend HJ Hs Hk He.
  destruct (ended_data J l0 l Hst Hq Hend HJ Hs Hk He) as (Hnone & C & HD). by eapply all_copied.
Qed.
End faithful.

(** ** Two files on a drive

    The byte at [k] of the first is [k] modulo 251; its 10000 bytes take two chunks.
    The second is empty. *)
Definition drive0 : kview :=
  mk_kview (fun p k => if String.eqb p "a" then k mod 251 else 7)
    (fun p => if String.eqb p "a" then 10000 else if String.eqb p "e" then 0 else 3) (fun _ => 0) ∅ [] [].

Definition drive_loop : loop kview :=
  mk_loop (mk_cqueue (mk_queue (mk_ost drive0 0)
    (mk_ring (sq_fresh 2 0) (cq_fresh 3 0) 0 9 0)
    (Heap.mk_heap [false; false] 8192 2 8192 4096) 16 2 (mk_counters 0 0 0 0 0) ∅ ∅ ∅)
    4 [] 0 eta0 false [] Idle Return false 1) 0 [] 0.

Definition drive_jobs : list job :=
  [mk_job "a" "b" (mk_statx 10000 4096 420); mk_job "e" "f" (mk_statx 0 4096 420)].

Definition drive_add (jb : job) (l : loop kview) : loop kview :=
  match addCopyJob 4 false false (job_src jb) (job_dst jb) (job_st jb) (lp_cq l) with
  | Ok (_, c) => lp_set_cq c l
  | _ => l
  end.

Definition drive_added : loop kview := foldl (fun l jb => drive_add jb l) drive_loop drive_jobs.
Definition drive_done : loop kview := lp_set_cq (cq_set_state AdditionComplete Return (lp_cq drive_added)) drive_added.

Lemma drive_starting : starting drive_loop /\ quiet_ring (lq drive_loop).
Proof.
  assert (Heap.heap_ok (qu_heap (lq drive_loop))) as Hh by (split; by vm_compute). split.
  - split; try reflexivity; try (by split).
    intros i Hi. pose proof (zget_range _ _ _ Hi) as Hr. unfold Heap.used_at in Hi.
    change (0 <= i < 2) in Hr. assert (i = 0 \/ i = 1) as [-> | ->] by lia; done.
  - split; try (by vm_compute). split; [by apply sq_fresh_ok|by apply cq_fresh_ok].
Qed.

Lemma drive_jobs_ok : jobs_ok (qu_heap (lq drive_loop)) (qview (lq drive_loop)) drive_jobs.
Proof.
  split.
  - intros j [->|[->|[]%elem_of_nil]%elem_of_cons]%elem_of_cons; [right|by left].
    split; try (by exists 12); try (by left); try done; split; by vm_compute.
  - by intros j [->|[->|[]%elem_of_nil]%elem_of_cons]%elem_of_cons.
  - by apply (bool_decide_unpack _).
  - intros j [->|[->|[]%elem_of_nil]%elem_of_cons]%elem_of_cons; by apply (bool_decide_unpack _).
Qed.

Definition is_ok {S A} (r : res (A * S)) : bool := match r with Ok _ => true | _ => false end.

Lemma drive_add_steps rand n jb l :
  drive_jobs !! n = Some jb -> geometry (qu_heap (lq drive_loop)) (qu_heap (lq l)) -> room_for 8 l ->
  is_ok (addCopyJob 4 false false (job_src jb) (job_dst jb) (job_st jb) (lp_cq l)) = true ->
  data_steps rand (qu_heap (lq drive_loop)) drive_jobs (l, (Between n, [])) (drive_add jb l, (Between (S n), [])).
Proof.
  intros Hj Hg Hr Hok. unfold drive_add. destruct (addCopyJob _ _ _ _ _ _ _) as [[[] c]| |] eqn:H; [|done..].
  apply (addCopyJob_data rand _ _ n jb Hj [] 4 false false l c); [|done|done|done].
  apply (jb_plan _ _ _ drive_jobs_ok). by eapply list_elem_of_lookup_2.
Qed.

Lemma drive_added_steps rand :
  data_steps rand (qu_heap (lq drive_loop)) drive_jobs (drive_loop, (Between 0, [])) (drive_done, (Between 2, [])).
Proof.
  eapply data_steps_trans; [apply (drive_add_steps rand 0); [done| |split|]; by vm_compute|].
  eapply data_steps_trans; [apply (drive_add_steps rand 1); [done| |split|]; by vm_compute|].
  eapply data_next; [|apply data_refl]. apply (data_state _ _ _ drive_added _ AdditionComplete Return).
Qed.

(** The run returns, without errors. *)
Definition clean {W} (r : res (loop_end * loop W)) : bool :=
  match r with
  | Ok (LoopReturned, l) => bool_decide (zlen (errorMessages (lp_cq l)) = 0)
  | _ => false
  end.

Lemma clean_inv {W} (r : res (loop_end * loop W)) : clean r = true -> exists l, r = Ok (LoopReturned, l) /\ errorMessages (lp_cq l) = [].
Proof.
  destruct r as [[[] l]| |]; [done| |done..]. intros H%bool_decide_eq_true. exists l. split; [done|].
  by destruct (errorMessages (lp_cq l)).
Qed.

Lemma drive_run : clean (submitLoop no_forcing (fun _ => 0) 20 20 20 drive_done) = true.
Proof. by vm_compute. Qed.

Lemma copies_are_faithful_witness :
  exists l l', submitLoop no_forcing (fun _ => 0) 20 20 20 drive_done = Ok (LoopReturned, l') /\
    qview (lq l') = qview (lq l) /\
    data_steps (fun _ => 0) (qu_heap (lq drive_loop)) drive_jobs (drive_loop, (Between 0, [])) (l, (Between 2, [])) /\
    kv_size (qview (lq l)) "b" = 10000 /\ kv_size (qview (lq l)) "f" = 0 /\
    (forall k, 0 <= k < 10000 -> kv_file (qview (lq l)) "b" k = k mod 251) /\
    (forall k, kv_file (qview (lq l)) "a" k = k mod 251).
Proof.
  destruct (clean_inv _ drive_run) as (l' & H & He).
  destruct (submitLoop_data (fun _ => 0) (qu_heap (lq drive_loop)) drive_jobs 20 20 20 drive_done l' (Between 2, []) H)
    as (l & Hs & Hk & Hm & Hv).
  pose proof (data_steps_trans _ _ _ _ _ _ (drive_added_steps (fun _ => 0)) Hs) as Hall.
  destruct drive_starting as [Hst Hq].
  destruct (copies_are_faithful (fun _ => 0) drive_jobs drive_loop l Hst Hq) as [Hcopied Hkept];
    [by vm_compute|exact drive_jobs_ok|exact Hall|exact Hk|rewrite <- Hm; exact He|].
  destruct (Hcopied (mk_job "a" "b" (mk_statx 10000 4096 420))) as [Hsize Hbytes]; [by left|].
  destruct (Hcopied (mk_job "e" "f" (mk_statx 0 4096 420))) as [Hempty _]; [by right; left|].
  exists l, l'. split; [exact H|]. split; [exact Hv|]. split; [exact Hall|].
  split; [exact Hsize|]. split; [exact Hempty|]. split.
  - intros k Hkr. exact (Hbytes k Hkr).
  - intros k. destruct (Hkept "a") as [-> _]; [by apply (bool_decide_unpack _)|done].
Defined.
