(* ===== verification/FileTree.v ===== *)
(** * Directories (src/src/Util.cpp, src/src/Util.hpp, src/src/CopyQueue.cpp,
    src/src/ScopedFileDescriptor.cpp)

    Making a path of directories, statx(2), getdents64(2) and readlinkat(2) with their
    retries, and the traversal of [addRecursiveCopy].  The system calls are operations
    of the class [Tree]; the copy queue is behind the class [Sink], which says what
    the traversal asks of it.  A path contains no NUL. *)

From stdpp Require Import strings.
From S2P Require Import Prelude Abi Os Util CopyQueue.

Definition S_IRWXU : Z := 448.
Definition S_IFMT : Z := 61440.
Definition S_ISFIFO (m : Z) : bool := Z.land m S_IFMT =? 4096.
Definition S_ISCHR (m : Z) : bool := Z.land m S_IFMT =? 8192.
Definition S_ISDIR (m : Z) : bool := Z.land m S_IFMT =? 16384.
Definition S_ISREG (m : Z) : bool := Z.land m S_IFMT =? 32768.
Definition S_ISLNK (m : Z) : bool := Z.land m S_IFMT =? 40960.
Definition S_ISSOCK (m : Z) : bool := Z.land m S_IFMT =? 49152.

Definition DT_UNKNOWN : Z := 0.
Definition DT_FIFO : Z := 1.
Definition DT_CHR : Z := 2.
Definition DT_DIR : Z := 4.
Definition DT_REG : Z := 8.
Definition DT_LNK : Z := 10.
Definition DT_SOCK : Z := 12.

Definition O_DIRECTORY : Z := 65536.

Definition slash : Ascii.ascii := Ascii.ascii_of_nat 47.

(** The calls on paths.  Each returns the new world, what it stores in the caller's
    buffer, its result, and the value of [errno] if that is [-1]. *)
Class Tree (W : Type) : Type := {
  t_files :: Files W;
  t_mkdir : W -> string -> Z -> W * Z * Z;
  t_stat : W -> string -> W * Z * Z * Z;               (** st_mode *)
  t_statx : W -> string -> W * statx * Z * Z;
  t_getdents : W -> Z -> Z -> W * list Z * Z * Z;      (** bytes *)
  t_readlink : W -> string -> Z -> W * string * Z * Z;
  t_symlink : W -> string -> string -> W * Z * Z;
}.

(** A call that stores a value of type [B]. *)
Definition syscall_out {W B} (f : W -> W * B * Z * Z) : prog (ost W) (B * Z) :=
  fun s =>
    let '(w, b, v, e) := f (o_world s) in
    Ok ((b, v), mk_ost w (if v =? -1 then e else o_errno s)).

(** ** Util.cpp *)

Section util.
Context {W : Type} {T : Tree W}.

(** [mkdirOne] *)
Definition mkdirOne (onePath : string) : prog (ost W) unit :=
  do* set_errno 0 in
  do* syscall (fun w => t_mkdir w onePath S_IRWXU) in
  let* e := errno in
  do* assert ((e =? 0) || (e =? EEXIST)) in
  if e =? EEXIST then
    let* (mode, v) := syscall_out (fun w => t_stat w onePath) in
    do* assert (v =? 0) in
    assert (S_ISDIR mode)
  else ret tt.

(** [for (size_t i = 1; i < path.size(); i++)]: [n] iterations left.  The character at
    [i] is overwritten with NUL for the call, and put back. *)
Fixpoint mkdir_loop (n i : nat) (path : string) : prog (ost W) unit :=
  match n with
  | O => ret tt
  | S n =>
      do* (if decide (String.get i path = Some slash)
           then mkdirOne (String.substring 0 i path) else ret tt) in
      mkdir_loop n (S i) path
  end.

Definition recursiveMkdir (path : string) : prog (ost W) unit :=
  do* mkdir_loop (String.length path - 1) 1 path in
  mkdirOne path.

(** [buf] is zeroed by the callers. *)
Definition no_stat : statx := mk_statx 0 0 0.

Definition myStatx (path : string) : prog (ost W) (Error + statx) :=
  let* (err, buf) :=
    retrySyscall (fun _ => let* r := syscall_out (fun w => t_statx w path) in ret (fst r))
      no_stat in
  if negb (err =? 0) then ret (inl (FailedToStat path err)) else ret (inr buf).

(** The bytes stored, with the result. *)
Definition myGetDents (dfd : Z) (path : string) (bufferSize : Z) : prog (ost W) (Error + list Z * Z) :=
  let* (err, r) :=
    retrySyscall (fun _ => syscall_out (fun w => t_getdents w dfd bufferSize)) ([], 0) in
  if negb (err =? 0) then ret (inl (CouldntOpenDirectory path err)) else ret (inr r).

(** The string the closure fills: its size, and its contents once they are final. *)
Fixpoint readlink_loop (fuel : nat) (path : string) (r : Z * string) : prog (ost W) (Z * string) :=
  match fuel with
  | O => no_fuel
  | S n =>
      let* (content, bytes) := syscall_out (fun w => t_readlink w path (fst r)) in
      if bytes =? -1 then ret r
      else if u64 bytes <? fst r then ret (bytes, content)
      else readlink_loop n path (u64 (fst r + 1024), content)
  end.

Definition myReadlink (fuel : nat) (linkPath : string) : prog (ost W) (Error + string) :=
  let* (err, r) := retrySyscall (readlink_loop fuel linkPath) (1024, ""%string) in
  if negb (err =? 0) then ret (inl (CouldntReadLink linkPath err)) else ret (inr (snd r)).
End util.

(** ** Directory entries *)

Record linux_dirent64 : Type := mk_dirent { d_reclen : Z; d_type : Z; d_name : string }.

Definition char_of (b : Z) : Ascii.ascii := Ascii.ascii_of_N (Z.to_N b).

(** A NUL-terminated string. *)
Fixpoint cstring (l : list Z) : option string :=
  match l with
  | [] => None
  | b :: l => if b =? 0 then Some ""%string
              else s ← cstring l; Some (String (char_of b) s)
  end.

(** The entry at offset [off]: d_ino and d_off take 16 bytes. *)
Definition read_dirent (buf : list Z) (off : Z) : option linux_dirent64 :=
  lo ← zget buf (off + 16);
  hi ← zget buf (off + 17);
  type ← zget buf (off + 18);
  name ← cstring (drop (Z.to_nat (off + 19)) buf);
  Some (mk_dirent (lo + 256 * hi) type name).

(** ** The traversal *)

(** What the traversal asks of the copy queue: to run a call of the operating system,
    to report an error, to add a file. *)
Class Sink (S W : Type) : Type := {
  s_os : forall {A}, prog (ost W) A -> prog S A;
  s_onError : Error -> prog S unit;
  s_addCopyJob : string -> string -> statx -> prog S unit;
}.

Section traverse.
Context {S W : Type} {T : Tree W} {Q : Sink S W}.

Definition strcmp_ne (a b : string) : bool := negb (bool_decide (a = b)).

(** [path.data() + n] *)
Definition string_from (n : nat) (s : string) : string :=
  String.substring n (String.length s - n) s.

(** The type of an entry whose file system does not say. *)
Definition type_of_mode (mode type : Z) : Z :=
  if S_ISFIFO mode then DT_FIFO
  else if S_ISCHR mode then DT_CHR
  else if S_ISDIR mode then DT_DIR
  else if S_ISREG mode then DT_REG
  else if S_ISLNK mode then DT_LNK
  else if S_ISSOCK mode then DT_SOCK
  else type.

(** Copying a symbolic link. *)
Definition copy_symlink (fuel : nat) (fullPath destPath : string) : prog S unit :=
  let* result := s_os (myReadlink fuel fullPath) in
  match result with
  | inl e => s_onError e
  | inr linkDest =>
      let* (error, _) :=
        s_os (retrySyscall (fun _ => syscall (fun w => t_symlink w linkDest destPath)) 0) in
      if negb (error =? 0) then s_onError (ErrorCopyingSymlink fullPath) else ret tt
  end.

(** The rest of an iteration, once the type is known; [sb] is the result of [statx] if
    it was called.  The stack's top is the head of the list. *)
Definition handle_typed (fuel : nat) (fullPath destPath name : string) (type : Z)
    (sb : option statx) (stack : list string) : prog S (list string) :=
  if type =? DT_DIR then
    if strcmp_ne name "." && strcmp_ne name ".." then
      do* s_os (recursiveMkdir destPath) in
      ret ((fullPath +:+ "/") :: stack)
    else ret stack
  else if type =? DT_REG then
    match sb with
    | Some st => do* s_addCopyJob fullPath destPath st in ret stack
    | None =>
        let* result := s_os (myStatx fullPath) in
        match result with
        | inl e => do* s_onError e in ret stack
        | inr st => do* s_addCopyJob fullPath destPath st in ret stack
        end
    end
  else if type =? DT_LNK then
    do* copy_symlink fuel fullPath destPath in ret stack
  else
    do* s_onError (UnhandledFileType fullPath type) in ret stack.

(** One entry of the directory [current]. *)
Definition handle_entry (fuel : nat) (from dest current : string) (currentEntry : linux_dirent64)
    (stack : list string) : prog S (list string) :=
  let fullPath := current +:+ d_name currentEntry in
  let destPath := dest +:+ string_from (String.length from) fullPath in
  if d_type currentEntry =? DT_UNKNOWN then
    let* result := s_os (myStatx fullPath) in
    match result with
    | inl e => do* s_onError e in ret stack
    | inr sb =>
        handle_typed fuel fullPath destPath (d_name currentEntry)
          (type_of_mode (stx_mode sb) (d_type currentEntry)) (Some sb) stack
    end
  else handle_typed fuel fullPath destPath (d_name currentEntry) (d_type currentEntry) None stack.

(** [while (nextPtr < dirBuffer.data() + written)]; [n] entries at most.  Reading
    past the bytes the call stored is a fault. *)
Fixpoint entries_loop (n fuel : nat) (from dest current : string) (buf : list Z)
    (written off : Z) (stack : list string) : prog S (list string) :=
  if written <=? off then ret stack
  else
    match n with
    | O => no_fuel
    | Datatypes.S n =>
        match read_dirent buf off with
        | None => raise OutOfBounds
        | Some e =>
            let* stack := handle_entry fuel from dest current e stack in
            entries_loop n fuel from dest current buf written (off + d_reclen e) stack
        end
    end.

Definition DIR_BUFFER : Z := 1024 * 1024 * 32.

(** [do { ... } while (written != 0)]; a [continue] goes to the condition. *)
Fixpoint read_dir (n fuel : nat) (fd : Z) (from dest current : string) (written : Z)
    (stack : list string) : prog S (list string) :=
  match n with
  | O => no_fuel
  | Datatypes.S n =>
      let* result := s_os (myGetDents fd current DIR_BUFFER) in
      let* (written, stack) :=
        match result with
        | inl e => do* s_onError e in ret (written, stack)
        | inr (buf, written) =>
            let* stack := entries_loop fuel fuel from dest current buf written 0 stack in
            ret (written, stack)
        end in
      if negb (written =? 0) then read_dir n fuel fd from dest current written stack
      else ret stack
  end.

(** [ScopedFileDescriptor]: a descriptor, [-1] if none is open. *)
Definition scoped_open (path : string) (oflag mode : Z) : prog S (Error + Z) :=
  s_os (myOpen path oflag mode).

Definition scoped_getFd (fd : Z) : prog S Z := do* assert (0 <? fd) in ret fd.

(** The destructor of [ScopedFileDescriptor]: [fd] is [-1] if [open] failed. *)
Definition close_scoped (fd : Z) : prog S unit :=
  let* r := s_os (sys_close fd) in assert (r =? 0).

(** One directory: [open], and the entries if it could be opened.  The descriptor does not
    change while they are read, so [getFd] is called once. *)
Definition walk_one (n fuel : nat) (from dest current : string) (stack : list string)
    : prog S (list string) :=
  let* result := scoped_open current (Z.lor (Z.lor O_RDONLY O_DIRECTORY) O_CLOEXEC) 0 in
  match result with
  | inl e =>
      do* s_onError e in
      do* close_scoped (-1) in
      ret stack
  | inr fd =>
      let* fd := scoped_getFd fd in
      let* stack := read_dir n fuel fd from dest current 0 stack in
      do* close_scoped fd in
      ret stack
  end.

(** [while (!directoryStack.empty())] *)
Fixpoint walk (n fuel : nat) (from dest : string) (stack : list string) : prog S unit :=
  match stack with
  | [] => ret tt
  | current :: stack =>
      match n with
      | O => no_fuel
      | Datatypes.S n =>
          let* stack := walk_one fuel fuel from dest current stack in
          walk n fuel from dest stack
      end
  end.

(** The character before the terminator. *)
Definition ends_in_slash (s : string) : bool :=
  bool_decide (String.get (String.length s - 1) s = Some slash).

Definition with_slash (s : string) : string := if ends_in_slash s then s else s +:+ "/".

Definition addRecursiveCopy (fuel : nat) (from dest : string) : prog S unit :=
  do* assert (negb (bool_decide (from = ""%string)) && negb (bool_decide (dest = ""%string))) in
  let from := with_slash from in
  let dest := with_slash dest in
  do* s_os (recursiveMkdir dest) in
  walk fuel fuel from dest [from].
End traverse.
