(* ===== verification/TraverseSpec.v ===== *)
(** * The traversal copies the tree

    Against the interfaces of FileTree.v: on a file system that shows a finite tree,
    and a copy queue that keeps what it is given, [addRecursiveCopy] ends after
    visiting every directory once, and what it asks for is the list of actions a
    depth-first recursion over the tree gives. *)

From stdpp Require Import gmap strings.
From S2P Require Import Prelude Abi Os Util CopyQueue FileTree.

(** ** Strings and bytes *)

Lemma append_nil_r s : s +:+ "" = s.
Proof. induction s as [|a s IH]; [done|]. exact (f_equal (String a) IH). Qed.

Lemma append_assoc (a b c : string) : (a +:+ b) +:+ c = a +:+ (b +:+ c).
Proof. induction a as [|x a IH]; [done|]. exact (f_equal (String x) IH). Qed.

Lemma substring_0_all s : String.substring 0 (String.length s) s = s.
Proof. induction s as [|x s IH]; [done|]. exact (f_equal (String x) IH). Qed.

Lemma string_from_append a b : string_from (String.length a) (a +:+ b) = b.
Proof.
  unfold string_from. replace (String.length (a +:+ b) - String.length a)%nat with (String.length b).
  - induction a as [|x a IH]; [apply substring_0_all|exact IH].
  - induction a as [|x a IH]; [by rewrite Nat.sub_0_r|exact IH].
Qed.

(** The bytes of a name. *)
Fixpoint bytes_of (s : string) : list Z :=
  match s with
  | EmptyString => []
  | String a s => Z.of_N (Ascii.N_of_ascii a) :: bytes_of s
  end.

Definition no_nul (s : string) : Prop := Forall (fun b => b <> 0) (bytes_of s).

Lemma cstring_bytes s pad : no_nul s -> cstring (bytes_of s ++ 0 :: pad) = Some s.
Proof.
  unfold no_nul. induction s as [|a s IH]; [done|]. cbn [bytes_of app cstring].
  intros [Ha Hs]%list.Forall_cons. rewrite (proj2 (Z.eqb_neq _ _) Ha), IH by done. cbn.
  unfold char_of. by rewrite N2Z.id, Ascii.ascii_N_embedding.
Qed.

(** ** The tree *)

Inductive node : Type :=
  | NFile (st : statx)
  | NLink (target : string)
  | NDir (entries : list (string * node))
  | NOther (type : Z).

Definition node_type (n : node) : Z :=
  match n with NFile _ => DT_REG | NLink _ => DT_LNK | NDir _ => DT_DIR | NOther t => t end.

Definition is_dot (name : string) : bool := negb (strcmp_ne name "." && strcmp_ne name "..").

(** How getdents64(2) lays out an entry: 16 bytes, the length of the record in two,
    the type, the name with its NUL, and padding. *)
Definition encodes (e : string * node) (b : list Z) : Prop :=
  exists hdr pad, length hdr = 16%nat /\ zlen b < 65536 /\ no_nul (fst e) /\
    b = hdr ++ zlen b mod 256 :: zlen b / 256 :: node_type (snd e) :: bytes_of (fst e) ++ 0 :: pad.

Lemma zget_app_r {A} (l1 l2 : list A) i :
  0 <= i -> zget (l1 ++ l2) (zlen l1 + i) = zget l2 i.
Proof.
  intros Hi. unfold zget, zlen. do 2 (case_z; [lia|]). rewrite lookup_app_r by lia. f_equal. lia.
Qed.

(** Reading a record back. *)
Lemma read_dirent_encoded pre e b post :
  encodes e b ->
  read_dirent (pre ++ b ++ post) (zlen pre) = Some (mk_dirent (zlen b) (node_type (snd e)) (fst e)).
Proof.
  intros (hdr & pad & Hh & Hlt & Hnul & Hb). unfold read_dirent.
  assert (forall i, 0 <= i -> zget (pre ++ b ++ post) (zlen pre + (16 + i)) =
    zget (zlen b mod 256 :: zlen b / 256 :: node_type (snd e) :: bytes_of (fst e) ++ 0 :: pad ++ post) i)
    as Hg.
  { intros i Hi. rewrite zget_app_r by lia. rewrite Hb at 1. rewrite <- app_assoc.
    replace 16 with (zlen hdr) by (unfold zlen; lia). rewrite zget_app_r by done.
    cbn [app]. by rewrite <- app_assoc. }
  replace (zlen pre + 16) with (zlen pre + (16 + 0)) by lia.
  rewrite (Hg 0 ltac:(done)). replace (zlen pre + 17) with (zlen pre + (16 + 1)) by lia.
  replace (zlen pre + 18) with (zlen pre + (16 + 2)) by lia.
  rewrite (Hg 1 ltac:(done)), (Hg 2 ltac:(done)).
  assert (drop (Z.to_nat (zlen pre + 19)) (pre ++ b ++ post) =
    bytes_of (fst e) ++ 0 :: pad ++ post) as Hd.
  { unfold zlen. replace (Z.to_nat (Z.of_nat (length pre) + 19)) with (length pre + (16 + 3))%nat by lia.
    rewrite <- drop_drop, drop_app_length, Hb, <- app_assoc, <- Hh, <- drop_drop, drop_app_length.
    cbn. by rewrite <- app_assoc. }
  rewrite Hd, cstring_bytes by done.
  pose proof (Z.div_mod (zlen b) 256 ltac:(done)). set (n := zlen b) in *.
  change (Some (mk_dirent (n mod 256 + 256 * (n / 256)) (node_type (snd e)) (fst e)) =
    Some (mk_dirent n (node_type (snd e)) (fst e))). do 2 f_equal. lia.
Qed.

(** ** The actions of a recursive copy *)

Inductive action : Type :=
  | Copy (src dst : string) (st : statx)
  | MakeDir (path : string)
  | MakeLink (target path : string)
  | Report (e : Error).

Section actions.
Context (from dest : string).

(** What an entry of the directory [rel] asks for. *)
Definition entry_action (rel : string) (e : string * node) : list action :=
  let full := from +:+ (rel +:+ fst e) in
  let to := dest +:+ (rel +:+ fst e) in
  match snd e with
  | NFile st => [Copy full to st]
  | NLink target => [MakeLink target to]
  | NDir _ => if is_dot (fst e) then [] else [MakeDir to]
  | NOther t => [Report (UnhandledFileType full t)]
  end.

(** A directory: its entries in order, then its directories, the last one first. *)
Fixpoint visit (rel : string) (n : node) {struct n} : list action :=
  match n with
  | NDir es =>
      flat_map (entry_action rel) es ++
      (fix dirs es :=
         match es with
         | [] => []
         | (name, n) :: es =>
             dirs es ++ (if is_dot name then [] else visit (rel +:+ (name +:+ "/")) n)
         end) es
  | _ => []
  end.

(** The directories an entry pushes on the stack. *)
Definition pushed (rel : string) (e : string * node) : list (string * list (string * node)) :=
  match snd e with
  | NDir es => if is_dot (fst e) then [] else [(rel +:+ (fst e +:+ "/"), es)]
  | _ => []
  end.

Definition visit_all (ds : list (string * list (string * node))) : list action :=
  flat_map (fun d => visit (fst d) (NDir (snd d))) ds.

Lemma visit_eq rel es :
  visit rel (NDir es) = flat_map (entry_action rel) es ++ visit_all (rev (flat_map (pushed rel) es)).
Proof.
  cbn [visit]. f_equal. unfold visit_all. induction es as [|[name n] es IH]; [done|].
  rewrite IH. cbn [flat_map]. rewrite rev_app_distr, flat_map_app. f_equal.
  unfold pushed. cbn [fst snd]. destruct n; cbn [visit rev flat_map app];
    try (by destruct (is_dot name)). destruct (is_dot name); [done|]. cbn [rev app flat_map fst snd].
  by rewrite app_nil_r.
Qed.
End actions.

(** A bound on the loops: entries and directories. *)
Fixpoint weight (n : node) : nat :=
  match n with
  | NDir es =>
      S ((fix sum es := match es with [] => O | (_, n) :: es => (S (weight n) + sum es)%nat end) es)
  | _ => O
  end.

Definition weights (es : list (string * node)) : nat :=
  sum_list_with (fun e => S (weight (snd e))) es.

Lemma weight_dir es : weight (NDir es) = S (weights es).
Proof.
  cbn [weight]. f_equal. unfold weights. induction es as [|[name n] es IH]; [done|].
  cbn [sum_list_with snd]. by rewrite IH.
Qed.

Definition weight_all (ds : list (string * list (string * node))) : nat :=
  sum_list_with (fun d => weight (NDir (snd d))) ds.

Lemma weight_all_app l1 l2 : weight_all (l1 ++ l2) = (weight_all l1 + weight_all l2)%nat.
Proof. apply sum_list_with_app. Qed.

Lemma weight_all_rev l : weight_all (rev l) = weight_all l.
Proof.
  induction l as [|d l IH]; [done|]. cbn [rev]. rewrite weight_all_app, IH. cbn.
  unfold weight_all. cbn. lia.
Qed.

Lemma weight_pushed rel es : (weight_all (flat_map (pushed rel) es) <= weights es)%nat.
Proof.
  induction es as [|[name n] es IH]; [done|]. cbn [flat_map]. rewrite weight_all_app.
  unfold weights. cbn [sum_list_with snd]. fold (weights es). unfold pushed at 1. cbn [fst snd].
  assert (weight_all [] = O) as E0 by done.
  destruct n; rewrite ?E0; try lia. destruct (is_dot name); [lia|].
  assert (forall d, weight_all [d] = weight (NDir (snd d))) as E1 by (intros d; apply Nat.add_0_r).
  rewrite E1. cbn [snd]. lia.
Qed.

(** ** The file system and the copy queue the traversal relies on *)

(** What the traversal sees and changes: the entries still to be read of each open
    directory, the paths known to name directories, the links made. *)
Record view : Type := mk_view {
  v_open : gmap Z (list (string * node));
  v_dirs : gset string;
  v_links : list (string * string);
}.

Definition v_set_open (m : gmap Z (list (string * node))) (v : view) : view :=
  mk_view m (v_dirs v) (v_links v).
Definition v_add_dirs (l : list string) (v : view) : view :=
  mk_view (v_open v) (list_to_set l ∪ v_dirs v) (v_links v).
Definition v_add_link (target path : string) (v : view) : view :=
  mk_view (v_open v) (v_dirs v) (v_links v ++ [(target, path)]).

Definition dir_flags : Z := Z.lor (Z.lor O_RDONLY O_DIRECTORY) O_CLOEXEC.

(** A file system that shows the tree [src] and fails nothing: the manual pages, for
    calls that succeed.  mkdir(2) of a directory that exists reports EEXIST.  There is a
    descriptor for a directory when no other is open: the traversal reads one at a time. *)
Class TreeLaws (W : Type) {T : Tree W} (src : string -> option node) (view_of : W -> view) : Prop := {
  law_open w p es : src p = Some (NDir es) -> v_open (view_of w) = ∅ ->
    exists w' fd e, f_open w p dir_flags 0 = (w', fd, e) /\ 0 < fd /\
      view_of w' = v_set_open (<[fd := es]> (v_open (view_of w))) (view_of w);
  law_getdents w fd es : v_open (view_of w) !! fd = Some es ->
    exists w' es1 es2 bs v e, t_getdents w fd DIR_BUFFER = (w', concat bs, v, e) /\
      es = es1 ++ es2 /\ (es1 = [] -> es2 = []) /\ Forall2 encodes es1 bs /\ v = zlen (concat bs) /\
      view_of w' = v_set_open (<[fd := es2]> (v_open (view_of w))) (view_of w);
  law_close w fd es : v_open (view_of w) !! fd = Some es ->
    exists w' e, f_close w fd = (w', 0, e) /\
      view_of w' = v_set_open (delete fd (v_open (view_of w))) (view_of w);
  law_statx w p st : src p = Some (NFile st) ->
    exists w' e, t_statx w p = (w', st, 0, e) /\ view_of w' = view_of w;
  law_readlink w p target sz : src p = Some (NLink target) -> 0 < sz ->
    exists w' content e, t_readlink w p sz = (w', content, Z.min (Z.of_nat (String.length target)) sz, e) /\
      (Z.of_nat (String.length target) < sz -> content = target) /\ view_of w' = view_of w;
  law_symlink w target p :
    exists w' e, t_symlink w target p = (w', 0, e) /\ view_of w' = v_add_link target p (view_of w);
  law_mkdir w p :
    exists w' v e, t_mkdir w p S_IRWXU = (w', v, e) /\ (v = 0 \/ v = -1 /\ e = EEXIST) /\
      view_of w' = v_add_dirs [p] (view_of w);
  law_stat w p : p ∈ v_dirs (view_of w) ->
    exists w' mode e, t_stat w p = (w', mode, 0, e) /\ S_ISDIR mode = true /\ view_of w' = view_of w;
}.

(** A copy queue that runs the calls, keeps the errors, and accepts every file that
    [fits]; [k_inv] is whatever it needs of its own state. *)
Class SinkLaws (S W : Type) {Q : Sink S W} (view_of : W -> view) (fits : statx -> Prop)
    (k_inv : S -> Prop) (k_os : S -> ost W) (k_jobs : S -> list (string * string * statx))
    (k_errors : S -> list Error) : Prop := {
  sink_os {A} (m : prog (ost W) A) s a o : k_inv s -> m (k_os s) = Ok (a, o) ->
    exists s', s_os m s = Ok (a, s') /\ k_inv s' /\ k_os s' = o /\ k_jobs s' = k_jobs s /\
      k_errors s' = k_errors s;
  sink_error e s : k_inv s ->
    exists s', s_onError e s = Ok (tt, s') /\ k_inv s' /\ view_of (o_world (k_os s')) = view_of (o_world (k_os s)) /\
      k_jobs s' = k_jobs s /\ k_errors s' = k_errors s ++ [e];
  sink_job a b st s : k_inv s -> fits st ->
    exists s', s_addCopyJob a b st s = Ok (tt, s') /\ k_inv s' /\
      view_of (o_world (k_os s')) = view_of (o_world (k_os s)) /\
      k_jobs s' = k_jobs s ++ [(a, b, st)] /\ k_errors s' = k_errors s;
}.

(** The calls the traversal makes between opening and closing a directory. *)
Inductive walk_call {W} {T : Tree W} : forall A, prog (ost W) A -> Prop :=
  | call_mkdir path : walk_call _ (recursiveMkdir path)
  | call_statx path : walk_call _ (myStatx path)
  | call_getdents fd path n : walk_call _ (myGetDents fd path n)
  | call_readlink fuel path : walk_call _ (myReadlink fuel path)
  | call_symlink target path :
      walk_call _ (retrySyscall (fun _ => syscall (fun w => t_symlink w target path)) 0).

(** All its calls, on a view: it opens directories, one at a time, and closes these. *)
Inductive tree_call {W} {T : Tree W} (src : string -> option node) (v : view) :
    forall A, prog (ost W) A -> Prop :=
  | call_walk A m : walk_call A m -> tree_call src v A m
  | call_open p es : src p = Some (NDir es) -> v_open v = ∅ -> tree_call src v _ (myOpen p dir_flags 0)
  | call_close fd : is_Some (v_open v !! fd) -> tree_call src v _ (sys_close fd).

(** The same of a copy queue with which others are busy too: a call may find another
    state of the world than the last one left, in which the view is the same.  Adding
    files needs [room] for them. *)
Class BusySinkLaws (S W : Type) {T : Tree W} {Q : Sink S W} (src : string -> option node)
    (view_of : W -> view) (fits : statx -> Prop) (room : list (string * string * statx) -> Prop)
    (k_inv : S -> Prop) (k_os : S -> ost W) (k_jobs : S -> list (string * string * statx))
    (k_errors : S -> list Error) : Prop := {
  busy_room l1 l2 : room (l1 ++ l2) -> room l1;
  busy_os {A} (m : prog (ost W) A) s (P : A -> ost W -> Prop) :
    k_inv s -> tree_call src (view_of (o_world (k_os s))) A m ->
    (forall o, view_of (o_world o) = view_of (o_world (k_os s)) -> exists a o', m o = Ok (a, o') /\ P a o') ->
    exists a s', s_os m s = Ok (a, s') /\ k_inv s' /\ P a (k_os s') /\ k_jobs s' = k_jobs s /\
      k_errors s' = k_errors s;
  busy_error e s : k_inv s ->
    exists s', s_onError e s = Ok (tt, s') /\ k_inv s' /\ view_of (o_world (k_os s')) = view_of (o_world (k_os s)) /\
      k_jobs s' = k_jobs s /\ k_errors s' = k_errors s ++ [e];
  busy_job a b st s : k_inv s -> fits st -> room (k_jobs s ++ [(a, b, st)]) ->
    exists s', s_addCopyJob a b st s = Ok (tt, s') /\ k_inv s' /\
      view_of (o_world (k_os s')) = view_of (o_world (k_os s)) /\
      k_jobs s' = k_jobs s ++ [(a, b, st)] /\ k_errors s' = k_errors s;
}.

(** A queue that is not shared has room for everything. *)
#[export] Instance busy_sink_laws {S W} {T : Tree W} {Q : Sink S W} src view_of fits k_inv k_os k_jobs k_errors
    {K : SinkLaws S W view_of fits k_inv k_os k_jobs k_errors} :
  BusySinkLaws S W src view_of fits (fun _ => True) k_inv k_os k_jobs k_errors.
Proof.
  split; [done| |apply sink_error|by intros; apply sink_job].
  intros A m s P Hi _ Hm. destruct (Hm (k_os s) eq_refl) as (a & o & H & HP).
  destruct (sink_os m s a o Hi H) as (s' & H1 & H2 & <- & H4 & H5). by exists a, s'.
Qed.

(** The directories [recursiveMkdir] makes, in order. *)
Fixpoint prefixes_from (n i : nat) (path : string) : list string :=
  match n with
  | O => []
  | S n =>
      (if decide (String.get i path = Some slash) then [String.substring 0 i path] else []) ++
      prefixes_from n (S i) path
  end.

Definition prefixes (path : string) : list string :=
  prefixes_from (String.length path - 1) 1 path ++ [path].

(** What a state shows: the view, the files to copy, the errors. *)
Record shown : Type := mk_shown {
  sw_view : view;
  sw_jobs : list (string * string * statx);
  sw_errors : list Error;
}.

Definition on_view (f : view -> view) (x : shown) : shown := mk_shown (f (sw_view x)) (sw_jobs x) (sw_errors x).

Definition perform (x : shown) (a : action) : shown :=
  match a with
  | Copy src dst st => mk_shown (sw_view x) (sw_jobs x ++ [(src, dst, st)]) (sw_errors x)
  | MakeDir path => on_view (v_add_dirs (prefixes path)) x
  | MakeLink target path => on_view (v_add_link target path) x
  | Report e => mk_shown (sw_view x) (sw_jobs x) (sw_errors x ++ [e])
  end.

(** ** The calls succeed *)

Section calls.
Context {W : Type} {T : Tree W} (src : string -> option node) (view_of : W -> view).
Context {L : TreeLaws W src view_of}.
Implicit Types (o : ost W).

Definition vw (o : ost W) : view := view_of (o_world o).

Lemma v_add_dirs_app l1 l2 v : v_add_dirs (l1 ++ l2) v = v_add_dirs l2 (v_add_dirs l1 v).
Proof. unfold v_add_dirs. cbn. f_equal. rewrite list_to_set_app_L. set_solver. Qed.

Lemma mkdirOne_ok p o :
  exists o', mkdirOne p o = Ok (tt, o') /\ vw o' = v_add_dirs [p] (vw o).
Proof.
  destruct (law_mkdir (o_world o) p) as (w' & v & e & H & Hv & Hw).
  unfold mkdirOne, set_errno, syscall, errno, gets, modify. unfold bind at 1. unfold bind at 1.
  cbn [o_world]. rewrite H. unfold bind at 1. cbn [o_errno]. destruct Hv as [->|[-> ->]].
  - change (0 =? -1) with false. cbv iota. unfold bind, assert, ret. cbn. by eexists.
  - change (-1 =? -1) with true. cbv iota. unfold bind at 1, assert at 1. cbn.
    unfold bind at 1, syscall_out. cbn [o_world].
    destruct (law_stat w' p) as (w2 & mode & e & H2 & Hd & Hw2); [rewrite Hw; cbn; set_solver|].
    rewrite H2. unfold bind, assert. cbn. rewrite Hd. eexists. split; [done|].
    unfold vw. cbn. by rewrite Hw2, Hw.
Qed.

Lemma mkdir_loop_ok n i p o :
  exists o', mkdir_loop n i p o = Ok (tt, o') /\ vw o' = v_add_dirs (prefixes_from n i p) (vw o).
Proof.
  revert i o. induction n as [|n IH]; intros i o; cbn [mkdir_loop prefixes_from].
  - exists o. split; [done|]. unfold v_add_dirs. cbn. rewrite (left_id_L ∅ (∪)). by destruct (vw o).
  - destruct (decide (String.get i p = Some slash)) as [Hs|Hs].
    + destruct (mkdirOne_ok (String.substring 0 i p) o) as (o1 & H1 & V1).
      rewrite (bind_ok _ _ _ _ _ H1). destruct (IH (S i) o1) as (o2 & H2 & V2).
      exists o2. split; [done|]. by rewrite V2, V1, <- v_add_dirs_app.
    + apply (IH (S i) o).
Qed.

(** Every directory on the path exists afterwards. *)
Lemma recursiveMkdir_ok p o :
  exists o', recursiveMkdir p o = Ok (tt, o') /\ vw o' = v_add_dirs (prefixes p) (vw o).
Proof.
  unfold recursiveMkdir, prefixes. destruct (mkdir_loop_ok (String.length p - 1) 1 p o) as (o1 & H1 & V1).
  rewrite (bind_ok _ _ _ _ _ H1). destruct (mkdirOne_ok p o1) as (o2 & H2 & V2).
  exists o2. split; [done|]. by rewrite V2, V1, <- v_add_dirs_app.
Qed.

(** One round suffices for a call that succeeds. *)
Lemma retry_ok {A} (func : A -> prog (ost W) A) a b o w :
  func a (mk_ost (o_world o) 0) = Ok (b, mk_ost w 0) ->
  retrySyscall func a o = Ok ((0, b), mk_ost w 0).
Proof.
  intros H. rewrite retrySyscall_eq. cbn [retry_loop]. by rewrite (bind_ok _ _ _ _ _ H).
Qed.

Lemma myStatx_ok p st o :
  src p = Some (NFile st) -> exists o', myStatx p o = Ok (inr st, o') /\ vw o' = vw o.
Proof.
  intros Hs. destruct (law_statx (o_world o) p st Hs) as (w' & e & H & Hw).
  assert (retrySyscall (fun _ => let* r := syscall_out (fun w => t_statx w p) in ret (fst r)) no_stat o
    = Ok ((0, st), mk_ost w' 0)) as Hr.
  { apply retry_ok. unfold bind, syscall_out. cbn. by rewrite H. }
  unfold myStatx. rewrite (bind_ok _ _ _ _ _ Hr). by eexists.
Qed.

Lemma readlink_loop_ok fuel p target sz c o :
  src p = Some (NLink target) -> 0 < sz -> sz + 1024 * Z.of_nat fuel < 2 ^ 62 ->
  Z.of_nat (String.length target) < sz + 1024 * (Z.of_nat fuel - 1) ->
  o_errno o = 0 -> (0 < fuel)%nat ->
  exists w' n, readlink_loop fuel p (sz, c) o = Ok ((n, target), mk_ost w' 0) /\ view_of w' = vw o.
Proof.
  intros Hs. revert sz c o. induction fuel as [|fuel IH]; intros sz c [w e0] Hsz Hlim Hlen He Hf; [lia|].
  cbn in He. subst e0. cbn [readlink_loop fst].
  destruct (law_readlink w p target sz Hs Hsz) as (w' & content & e & H & Hc & Hw).
  unfold bind at 1, syscall_out. cbn [o_world]. rewrite H. set (b := Z.min _ sz).
  assert (0 <= b) by lia. destruct (Z.eqb_spec b (-1)); [lia|].
  rewrite (wrap_small 64 b) by (unfold in_u; lia). cbn [o_errno].
  destruct (Z.ltb_spec b sz).
  - exists w', b. rewrite Hc by lia. split; [done|]. by rewrite Hw.
  - rewrite (wrap_small 64 (sz + 1024)) by (unfold in_u; lia).
    destruct (IH (sz + 1024) content (mk_ost w' 0)) as (w2 & n2 & H2 & V2); try (cbn; lia).
    exists w2, n2. split; [exact H2|]. rewrite V2. unfold vw. cbn. by rewrite Hw.
Qed.

(** A link of any length is read in full, the buffer growing as long as needed. *)
Lemma myReadlink_ok fuel p target o :
  src p = Some (NLink target) -> Z.of_nat (String.length target) < 1024 * Z.of_nat fuel < 2 ^ 61 ->
  exists o', myReadlink fuel p o = Ok (inr target, o') /\ vw o' = vw o.
Proof.
  intros Hs Hlen. destruct (readlink_loop_ok fuel p target 1024 "" (mk_ost (o_world o) 0))
    as (w' & n & H & Hw); [done|lia|lia|lia|done|lia|].
  unfold myReadlink. rewrite (bind_ok _ _ _ _ _ (retry_ok _ _ _ _ _ H)). by eexists.
Qed.

Lemma symlink_ok target p o :
  exists o', retrySyscall (fun _ => syscall (fun w => t_symlink w target p)) 0 o = Ok ((0, 0), o') /\
    vw o' = v_add_link target p (vw o).
Proof.
  destruct (law_symlink (o_world o) target p) as (w' & e & H & Hw).
  exists (mk_ost w' 0). split; [|exact Hw]. apply retry_ok. unfold syscall. cbn. by rewrite H.
Qed.

Lemma myGetDents_ok fd p es o :
  v_open (vw o) !! fd = Some es ->
  exists o' es1 es2 bs, myGetDents fd p DIR_BUFFER o = Ok (inr (concat bs, zlen (concat bs)), o') /\
    es = es1 ++ es2 /\ (es1 = [] -> es2 = []) /\ Forall2 encodes es1 bs /\
    vw o' = v_set_open (<[fd := es2]> (v_open (vw o))) (vw o).
Proof.
  intros Ho. destruct (law_getdents (o_world o) fd es Ho) as (w' & es1 & es2 & bs & v & e & H & E & Hn & Hb & -> & Hw).
  exists (mk_ost w' 0), es1, es2, bs. split; [|done]. unfold myGetDents.
  assert (retrySyscall (fun _ => syscall_out (fun w => t_getdents w fd DIR_BUFFER)) ([], 0) o =
    Ok ((0, (concat bs, zlen (concat bs))), mk_ost w' 0)) as Hr.
  { apply retry_ok. unfold syscall_out. cbn [o_world]. rewrite H.
    destruct (Z.eqb_spec (zlen (concat bs)) (-1)) as [E1|]; [unfold zlen in E1; lia|done]. }
  by rewrite (bind_ok _ _ _ _ _ Hr).
Qed.

Lemma open_dir_ok p es o :
  src p = Some (NDir es) -> v_open (vw o) = ∅ ->
  exists o' fd, myOpen p dir_flags 0 o = Ok (inr fd, o') /\ 0 < fd /\
    vw o' = v_set_open (<[fd := es]> (v_open (vw o))) (vw o).
Proof.
  intros Hs Hno. destruct (law_open (o_world o) p es Hs Hno) as (w' & fd & e & H & Hfd & Hw).
  exists (mk_ost w' (o_errno o)), fd. split; [|done]. rewrite myOpen_eq.
  rewrite (open_loop_success 4 p dir_flags 0 (-1) o w' fd e H) by lia. by case_z; [lia|].
Qed.
End calls.

(** ** The traversal *)

Section traversal.
Context {S W : Type} {T : Tree W} {Q : Sink S W}.
Context (src : string -> option node) (view_of : W -> view) {L : TreeLaws W src view_of}.
Context (fits : statx -> Prop) (k_inv : S -> Prop) (k_os : S -> ost W)
  (k_jobs : S -> list (string * string * statx)) (k_errors : S -> list Error).
Context (room : list (string * string * statx) -> Prop).
Context {K : BusySinkLaws S W src view_of fits room k_inv k_os k_jobs k_errors}.
Context (fuel : nat) (from dest : string).
Implicit Types (s : S) (es : list (string * node)).

Definition sh (s : S) : shown := mk_shown (vw view_of (k_os s)) (k_jobs s) (k_errors s).

(** What is asked of an entry of the directory at [p]. *)
Definition entry_ok (sub : string -> node -> Prop) (p : string) (e : string * node) : Prop :=
  match snd e with
  | NFile st => src (p +:+ fst e) = Some (snd e) /\ fits st
  | NLink target => src (p +:+ fst e) = Some (snd e) /\
      Z.of_nat (String.length target) < 1024 * Z.of_nat fuel
  | NDir _ => is_dot (fst e) = true \/ sub (p +:+ (fst e +:+ "/")) (snd e)
  | NOther t => t <> DT_UNKNOWN /\ t <> DT_DIR /\ t <> DT_REG /\ t <> DT_LNK
  end.

(** The file system shows the directory [n] at the path [p]. *)
Fixpoint shows (p : string) (n : node) {struct n} : Prop :=
  match n with
  | NDir es =>
      src p = Some (NDir es) /\
      (fix all es := match es with [] => True | (name, n) :: es => entry_ok shows p (name, n) /\ all es end) es
  | _ => False
  end.

Lemma shows_dir p es : shows p (NDir es) -> src p = Some (NDir es) /\ Forall (entry_ok shows p) es.
Proof.
  cbn [shows]. intros [H1 H2]. split; [done|]. clear H1.
  induction es as [|[name n] es IH]; [constructor|]. destruct H2 as [He H2]. constructor; auto.
Qed.

Lemma perform_open m acts x :
  foldl perform (on_view (v_set_open m) x) acts = on_view (v_set_open m) (foldl perform x acts).
Proof. revert x. induction acts as [|a acts IH]; intros x; [done|]. cbn. rewrite <- IH. by destruct a. Qed.

Lemma perform_keeps_open acts x : v_open (sw_view (foldl perform x acts)) = v_open (sw_view x).
Proof. revert x. induction acts as [|a acts IH]; intros x; [done|]. cbn. rewrite IH. by destruct a. Qed.

(** Files are only added. *)
Lemma perform_jobs x acts : exists js, sw_jobs (foldl perform x acts) = sw_jobs x ++ js.
Proof.
  revert x. induction acts as [|a acts IH]; intros x; [exists []; by rewrite app_nil_r|]. cbn.
  destruct (IH (perform x a)) as [js ->].
  destruct a; cbn; try by exists js. rewrite <- app_assoc. by eexists.
Qed.

Lemma room_before x acts1 acts2 :
  room (sw_jobs (foldl perform x (acts1 ++ acts2))) -> room (sw_jobs (foldl perform x acts1)).
Proof. rewrite foldl_app. destruct (perform_jobs (foldl perform x acts1) acts2) as [js ->]. apply busy_room. Qed.

(** A call of the operating system through the queue. *)
Lemma os_step {A} (m : prog (ost W) A) s a (f : view -> view) :
  k_inv s -> walk_call A m ->
  (forall o, exists o', m o = Ok (a, o') /\ vw view_of o' = f (vw view_of o)) ->
  exists s', s_os m s = Ok (a, s') /\ k_inv s' /\ sh s' = on_view f (sh s).
Proof.
  intros Hi Hw Hm.
  destruct (busy_os m s (fun b o' => b = a /\ vw view_of o' = f (vw view_of (k_os s))) Hi)
    as (b & s' & H' & Hi' & [-> Hv] & Hj & He).
  - by apply call_walk.
  - intros o Ho. destruct (Hm o) as (o' & H & Hv). exists a, o'. split; [done|]. split; [done|].
    rewrite Hv. unfold vw. by rewrite Ho.
  - exists s'. split; [done|]. split; [done|]. unfold sh, on_view. by rewrite Hv, Hj, He.
Qed.

Lemma report_step e s : k_inv s ->
  exists s', s_onError e s = Ok (tt, s') /\ k_inv s' /\ sh s' = perform (sh s) (Report e).
Proof.
  intros Hi. destruct (busy_error e s Hi) as (s' & H & Hi' & Hv & Hj & He).
  exists s'. split; [done|]. split; [done|]. unfold sh, vw. cbn. by rewrite Hv, Hj, He.
Qed.

Lemma copy_step a b st s : k_inv s -> fits st -> room (sw_jobs (perform (sh s) (Copy a b st))) ->
  exists s', s_addCopyJob a b st s = Ok (tt, s') /\ k_inv s' /\ sh s' = perform (sh s) (Copy a b st).
Proof.
  intros Hi Hf Hr. destruct (busy_job a b st s Hi Hf Hr) as (s' & H & Hi' & Hv & Hj & He).
  exists s'. split; [done|]. split; [done|]. unfold sh, vw. cbn. by rewrite Hv, Hj, He.
Qed.

Lemma on_view_id x : on_view (fun v => v) x = x.
Proof. by destruct x. Qed.

(** What an entry does, and the directories it leaves on the stack. *)
Definition paths (ds : list (string * list (string * node))) : list string :=
  map (fun d => from +:+ fst d) ds.

Lemma handle_entry_ok rel e k stack s :
  1024 * Z.of_nat fuel < 2 ^ 61 -> entry_ok shows (from +:+ rel) e -> k_inv s ->
  room (sw_jobs (foldl perform (sh s) (entry_action from dest rel e))) ->
  exists s', handle_entry fuel from dest (from +:+ rel) (mk_dirent k (node_type (snd e)) (fst e)) stack s
      = Ok (paths (pushed rel e) ++ stack, s') /\ k_inv s' /\
    sh s' = foldl perform (sh s) (entry_action from dest rel e).
Proof.
  intros Hfuel He Hi Hroom. destruct e as [name n]. unfold handle_entry. cbn [fst snd d_name d_type].
  rewrite append_assoc, string_from_append. set (full := from +:+ (rel +:+ name)).
  set (to := dest +:+ (rel +:+ name)). unfold entry_ok in He. cbn [fst snd] in He.
  unfold entry_action, pushed in *. cbn [fst snd] in *. destruct n as [st|target|es|t]; cbn [node_type].
  - destruct He as [Hs Hf]. rewrite append_assoc in Hs. fold full in Hs.
    change (DT_REG =? DT_UNKNOWN) with false. cbv iota.
    change (handle_typed fuel full to name DT_REG None stack s) with
      ((let* result := s_os (myStatx full) in
        match result with
        | inl e => do* s_onError e in ret stack
        | inr st => do* s_addCopyJob full to st in ret stack
        end) s).
    destruct (os_step (myStatx full) s (inr st) (fun v => v) Hi) as (s1 & H1 & Hi1 & Sh1);
      [constructor|intros o; by apply (myStatx_ok src view_of full st)|]. rewrite on_view_id in Sh1.
    rewrite (bind_ok _ _ _ _ _ H1).
    destruct (copy_step full to st s1 Hi1 Hf) as (s2 & H2 & Hi2 & Sh2); [by rewrite Sh1|].
    rewrite (bind_ok _ _ _ _ _ H2). exists s2. split; [done|]. split; [done|].
    by rewrite Sh2, Sh1.
  - destruct He as [Hs Hlen]. rewrite append_assoc in Hs. fold full in Hs.
    change (DT_LNK =? DT_UNKNOWN) with false. cbv iota.
    change (handle_typed fuel full to name DT_LNK None stack s) with
      ((do* copy_symlink fuel full to in ret stack) s).
    unfold copy_symlink.
    destruct (os_step (myReadlink fuel full) s (inr target) (fun v => v) Hi) as (s1 & H1 & Hi1 & Sh1);
      [constructor|intros o; apply (myReadlink_ok src view_of fuel full target); [done|lia]|].
    destruct (os_step (retrySyscall (fun _ => syscall (fun w => t_symlink w target to)) 0) s1 (0, 0)
      (v_add_link target to) Hi1) as (s2 & H2 & Hi2 & Sh2);
      [constructor|intros o; by apply (symlink_ok src view_of)|].
    exists s2. split.
    + unfold bind at 1. rewrite (bind_ok _ _ _ _ _ H1), (bind_ok _ _ _ _ _ H2). done.
    + split; [done|]. by rewrite Sh2, Sh1, on_view_id.
  - change (DT_DIR =? DT_UNKNOWN) with false. cbv iota.
    change (handle_typed fuel full to name DT_DIR None stack s) with
      ((if strcmp_ne name "." && strcmp_ne name ".." then
          do* s_os (recursiveMkdir to) in ret ((full +:+ "/") :: stack) else ret stack) s).
    unfold is_dot. destruct (strcmp_ne name "." && strcmp_ne name ".."); cbn [negb]; [|by exists s].
    destruct (os_step (recursiveMkdir to) s tt (v_add_dirs (prefixes to)) Hi) as (s1 & H1 & Hi1 & Sh1);
      [constructor|intros o; by apply (recursiveMkdir_ok src view_of)|].
    rewrite (bind_ok _ _ _ _ _ H1). exists s1. split; [|done].
    unfold full, paths. cbn. by rewrite !append_assoc.
  - destruct He as (H0 & H1 & H2 & H3). destruct (Z.eqb_spec t DT_UNKNOWN) as [|_]; [done|].
    unfold handle_typed. do 3 (case_z; [done|]).
    destruct (report_step (UnhandledFileType full t) s Hi) as (s1 & Hr & Hi1 & Sh1).
    rewrite (bind_ok _ _ _ _ _ Hr). by exists s1.
Qed.

Lemma encodes_length e b : encodes e b -> 0 < zlen b.
Proof.
  intros (hdr & pad & Hh & _ & _ & Hb). rewrite Hb. unfold zlen. rewrite length_app. lia.
Qed.

Lemma entries_loop_ok rel n pre es bs stack s :
  1024 * Z.of_nat fuel < 2 ^ 61 -> Forall2 encodes es bs -> Forall (entry_ok shows (from +:+ rel)) es ->
  (length es <= n)%nat -> k_inv s ->
  room (sw_jobs (foldl perform (sh s) (flat_map (entry_action from dest rel) es))) ->
  exists s', entries_loop n fuel from dest (from +:+ rel) (pre ++ concat bs)
      (zlen (pre ++ concat bs)) (zlen pre) stack s
      = Ok (paths (rev (flat_map (pushed rel) es)) ++ stack, s') /\ k_inv s' /\
    sh s' = foldl perform (sh s) (flat_map (entry_action from dest rel) es).
Proof.
  intros Hfuel Hb. revert n pre stack s. induction Hb as [|e b es bs Heb Hb IH];
    intros n pre stack s Hok Hn Hi Hroom.
  - rewrite app_nil_r. exists s. split; [|done]. destruct n; cbn [entries_loop];
      by rewrite Z.leb_refl.
  - apply list.Forall_cons in Hok as [He Hok]. destruct n as [|n]; [cbn in Hn; lia|].
    cbn [entries_loop concat]. pose proof (encodes_length _ _ Heb) as Hl.
    destruct (Z.leb_spec (zlen (pre ++ b ++ concat bs)) (zlen pre)) as [Hle|_].
    { unfold zlen in *. rewrite !length_app in Hle. lia. }
    rewrite (read_dirent_encoded pre e b (concat bs) Heb). cbn [d_reclen].
    cbn [flat_map] in Hroom.
    destruct (handle_entry_ok rel e (zlen b) stack s Hfuel He Hi) as (s1 & H1 & Hi1 & Sh1);
      [by eapply room_before|].
    rewrite (bind_ok _ _ _ _ _ H1).
    destruct (IH n (pre ++ b) (paths (pushed rel e) ++ stack) s1) as (s2 & H2 & Hi2 & Sh2);
      [done|cbn in Hn; lia|done|by rewrite Sh1, <- foldl_app|].
    exists s2. split; [|split; [done|]].
    + replace (zlen pre + zlen b) with (zlen (pre ++ b)) by (unfold zlen; rewrite length_app; lia).
      rewrite <- app_assoc in H2. rewrite H2. cbn [flat_map]. f_equal. f_equal.
      rewrite rev_app_distr. unfold paths. rewrite map_app, app_assoc.
      assert (rev (pushed rel e) = pushed rel e) as -> by (unfold pushed; repeat case_match; done).
      done.
    + cbn [flat_map]. by rewrite foldl_app, Sh2, Sh1.
Qed.

Definition set_open (fd : Z) es (x : shown) : shown :=
  on_view (v_set_open (<[fd := es]> (v_open (sw_view x)))) x.

Lemma perform_set_open fd es x acts :
  foldl perform (set_open fd es x) acts = set_open fd es (foldl perform x acts).
Proof. unfold set_open. by rewrite perform_open, perform_keeps_open. Qed.

Lemma set_open_twice fd es1 es2 x : set_open fd es2 (set_open fd es1 x) = set_open fd es2 x.
Proof. unfold set_open, on_view, v_set_open. cbn. by rewrite insert_insert_eq. Qed.

(** Reading a directory to its end, however the kernel cuts its entries. *)
Lemma read_dir_ok rel n fd es written stack s :
  1024 * Z.of_nat fuel < 2 ^ 61 -> Forall (entry_ok shows (from +:+ rel)) es ->
  (length es <= fuel)%nat -> (length es < n)%nat -> k_inv s -> v_open (sw_view (sh s)) !! fd = Some es ->
  room (sw_jobs (foldl perform (sh s) (flat_map (entry_action from dest rel) es))) ->
  exists s', read_dir n fuel fd from dest (from +:+ rel) written stack s
      = Ok (paths (rev (flat_map (pushed rel) es)) ++ stack, s') /\ k_inv s' /\
    sh s' = set_open fd [] (foldl perform (sh s) (flat_map (entry_action from dest rel) es)).
Proof.
  intros Hfuel. revert es written stack s. induction n as [|n IH];
    intros es written stack s Hok Hlen Hn Hi Ho Hroom; [lia|]. cbn [read_dir].
  destruct (busy_os (myGetDents fd (from +:+ rel) DIR_BUFFER) s (fun a o' => exists es1 es2 bs,
      a = inr (concat bs, zlen (concat bs)) /\ es = es1 ++ es2 /\ (es1 = [] -> es2 = []) /\ Forall2 encodes es1 bs /\
      vw view_of o' = v_set_open (<[fd := es2]> (v_open (sw_view (sh s)))) (sw_view (sh s))) Hi)
    as (a & s1 & H1 & Hi1 & (es1 & es2 & bs & -> & -> & Hne & Hb & Hv) & Hj1 & He1).
  { apply call_walk. constructor. }
  { intros o Eo. change (vw view_of o = sw_view (sh s)) in Eo. rewrite <- Eo in *.
    destruct (myGetDents_ok src view_of fd (from +:+ rel) es o Ho) as (o' & es1 & es2 & bs & Hg & ?).
    by eexists _, o'; split; [exact Hg|]; exists es1, es2, bs. }
  assert (sh s1 = set_open fd es2 (sh s)) as Sh1
    by (unfold set_open, on_view; unfold sh at 1; by rewrite Hv, Hj1, He1).
  rewrite (bind_ok _ _ _ _ _ H1). apply list.Forall_app in Hok as [Hok1 Hok2].
  rewrite length_app in Hlen, Hn.
  rewrite flat_map_app in Hroom.
  destruct (entries_loop_ok rel fuel [] es1 bs stack s1 Hfuel Hb Hok1 ltac:(lia) Hi1)
    as (s2 & H2 & Hi2 & Sh2); [rewrite Sh1, perform_set_open; by eapply (room_before (sh s))|]. cbn [app] in H2. change (zlen []) with 0 in H2.
  unfold bind at 1. rewrite (bind_ok _ _ _ _ _ H2). cbn [ret].
  rewrite Sh1, perform_set_open in Sh2.
  destruct es1 as [|e1 es1].
  - rewrite (Hne eq_refl) in *. inversion Hb; subst. exists s2. split; [done|]. split; [done|].
    exact Sh2.
  - assert (0 < zlen (concat bs)) as Hpos.
    { inversion Hb as [|? b ? bs' Hb1 Hb2]; subst. apply encodes_length in Hb1. cbn [concat].
      unfold zlen in *. rewrite length_app. lia. }
    destruct (Z.eqb_spec (zlen (concat bs)) 0); [lia|]. cbn [negb].
    destruct (IH es2 (zlen (concat bs)) (paths (rev (flat_map (pushed rel) (e1 :: es1))) ++ stack) s2)
      as (s3 & H3 & Hi3 & Sh3); [done|lia|cbn in Hn; lia|done| | |].
    { rewrite Sh2. unfold set_open. cbn. apply lookup_insert_eq. }
    { by rewrite Sh2, perform_set_open, <- foldl_app. }
    exists s3. split; [|split; [done|]].
    + rewrite H3. do 2 f_equal. rewrite flat_map_app, rev_app_distr. unfold paths.
      by rewrite map_app, app_assoc.
    + by rewrite Sh3, Sh2, perform_set_open, set_open_twice, flat_map_app, foldl_app.
Qed.

(** One directory. *)
Lemma walk_one_ok rel n es stack s :
  1024 * Z.of_nat fuel < 2 ^ 61 -> shows (from +:+ rel) (NDir es) ->
  (length es <= fuel)%nat -> (length es < n)%nat -> k_inv s -> v_open (sw_view (sh s)) = ∅ ->
  room (sw_jobs (foldl perform (sh s) (flat_map (entry_action from dest rel) es))) ->
  exists s', walk_one n fuel from dest (from +:+ rel) stack s
      = Ok (paths (rev (flat_map (pushed rel) es)) ++ stack, s') /\ k_inv s' /\
    sh s' = foldl perform (sh s) (flat_map (entry_action from dest rel) es).
Proof.
  intros Hfuel Hs Hlen Hn Hi Hno Hroom. apply shows_dir in Hs as [Hsrc Hok]. unfold walk_one, scoped_open.
  fold dir_flags.
  destruct (busy_os (myOpen (from +:+ rel) dir_flags 0) s (fun a o' => exists fd, a = inr fd /\ 0 < fd /\
      vw view_of o' = v_set_open (<[fd := es]> (v_open (sw_view (sh s)))) (sw_view (sh s))) Hi)
    as (a & s1 & H1 & Hi1 & (fd & -> & Hfd & Hv) & Hj1 & He1).
  { by apply (call_open _ _ _ es). }
  { intros o Eo. change (vw view_of o = sw_view (sh s)) in Eo. rewrite <- Eo in *.
    destruct (open_dir_ok src view_of (from +:+ rel) es o Hsrc Hno) as (o' & fd & Hop & ? & ?).
    by eexists _, o'; split; [exact Hop|]; exists fd. }
  assert (sh s1 = set_open fd es (sh s)) as Sh1
    by (unfold set_open, on_view; unfold sh at 1; by rewrite Hv, Hj1, He1).
  rewrite (bind_ok _ _ _ _ _ H1). rewrite (bind_ok _ _ s1 fd s1) by (unfold scoped_getFd, bind, assert; by case_z; [|lia]).
  destruct (read_dir_ok rel n fd es 0 stack s1 Hfuel Hok Hlen Hn Hi1) as (s2 & H2 & Hi2 & Sh2).
  { rewrite Sh1. unfold set_open. cbn. apply lookup_insert_eq. }
  { by rewrite Sh1, perform_set_open. }
  rewrite (bind_ok _ _ _ _ _ H2). rewrite Sh1, perform_set_open, set_open_twice in Sh2.
  set (x := foldl perform (sh s) _) in *.
  assert (v_open (sw_view x) = v_open (sw_view (sh s))) as Hx by apply perform_keeps_open.
  assert (v_open (sw_view (sh s2)) !! fd = Some []) as Hopen by (rewrite Sh2; apply lookup_insert_eq).
  destruct (busy_os (sys_close fd) s2 (fun a o' => a = 0 /\
      vw view_of o' = v_set_open (delete fd (v_open (sw_view (sh s2)))) (sw_view (sh s2))) Hi2)
    as (a & s3 & H3 & Hi3 & [-> Hv3] & Hj3 & He3).
  { apply call_close. by exists []. }
  { intros o Eo. change (vw view_of o = sw_view (sh s2)) in Eo. rewrite <- Eo in *.
    destruct (law_close (o_world o) fd [] Hopen) as (w' & e & Hc & Hvc).
    exists 0, (mk_ost w' (o_errno o)). split; [|by split]. unfold sys_close, syscall. by rewrite Hc. }
  assert (close_scoped fd s2 = Ok (tt, s3)) as Hcs
    by (unfold close_scoped; by rewrite (bind_ok _ _ _ _ _ H3)).
  rewrite (bind_ok _ _ _ _ _ Hcs). exists s3. split; [done|]. split; [done|].
  transitivity (on_view (v_set_open (delete fd (v_open (sw_view (sh s2))))) (sh s2)).
  { unfold on_view. unfold sh at 1. by rewrite Hv3, Hj3, He3. }
  rewrite Sh2. unfold set_open, on_view, v_set_open. cbn.
  rewrite delete_insert_id by (rewrite Hx, Hno; apply lookup_empty). rewrite Hx.
  destruct x as [[xo xd xl] xj xe] eqn:Ex. cbn in *. by rewrite Hx.
Qed.

Lemma walk_ok n ds s :
  1024 * Z.of_nat fuel < 2 ^ 61 -> Forall (fun d => shows (from +:+ fst d) (NDir (snd d))) ds ->
  (weight_all ds <= n)%nat -> (weight_all ds <= fuel)%nat -> k_inv s ->
  v_open (sw_view (sh s)) = ∅ -> room (sw_jobs (foldl perform (sh s) (visit_all from dest ds))) ->
  exists s', walk n fuel from dest (paths ds) s = Ok (tt, s') /\ k_inv s' /\
    sh s' = foldl perform (sh s) (visit_all from dest ds).
Proof.
  intros Hfuel. revert ds s. induction n as [|n IH]; intros ds s Hok Hn Hw Hi Hno Hroom.
  - destruct ds as [|d ds]; [by exists s|]. unfold weight_all in Hn. cbn [sum_list_with] in Hn.
    rewrite weight_dir in Hn. lia.
  - destruct ds as [|[rel es] ds]; [by exists s|]. apply list.Forall_cons in Hok as [Hd Hok].
    cbn [fst snd] in Hd. unfold weight_all in Hn, Hw. cbn [sum_list_with snd] in Hn, Hw.
    rewrite weight_dir in Hn, Hw. fold (weight_all ds) in Hn, Hw.
    assert (length es <= weights es)%nat as Hles.
    { unfold weights. clear. induction es as [|e es IH]; cbn [length sum_list_with]; lia. }
    change (paths ((rel, es) :: ds)) with ((from +:+ rel) :: paths ds). cbn [walk].
    assert (visit_all from dest ((rel, es) :: ds) = flat_map (entry_action from dest rel) es ++
      visit_all from dest (rev (flat_map (pushed rel) es) ++ ds)) as Eacts.
    { unfold visit_all. cbn [flat_map fst snd]. by rewrite visit_eq, flat_map_app, app_assoc. }
    rewrite Eacts in *.
    destruct (walk_one_ok rel fuel es (paths ds) s Hfuel Hd ltac:(lia) ltac:(lia) Hi Hno)
      as (s1 & H1 & Hi1 & Sh1); [by eapply room_before|]. rewrite (bind_ok _ _ _ _ _ H1).
    assert (paths (rev (flat_map (pushed rel) es)) ++ paths ds =
      paths (rev (flat_map (pushed rel) es) ++ ds)) as Ep by (unfold paths; by rewrite map_app).
    rewrite Ep. pose proof (weight_pushed rel es) as Hwp. rewrite <- weight_all_rev in Hwp.
    destruct (IH (rev (flat_map (pushed rel) es) ++ ds) s1) as (s2 & H2 & Hi2 & Sh2);
      [|rewrite weight_all_app; lia..|done|by rewrite Sh1, perform_keeps_open|by rewrite Sh1, <- foldl_app|].
    { apply list.Forall_app. split; [|done]. apply List.Forall_forall. intros d Hin.
      apply in_rev, in_flat_map in Hin as ([name m] & Hin & Hp).
      apply shows_dir in Hd as [_ Hd]. pose proof (proj1 (List.Forall_forall _ _) Hd _ Hin) as He.
      unfold pushed in Hp. cbn [fst snd] in Hp. unfold entry_ok in He. cbn [fst snd] in He.
      destruct m as [| |es'|]; try done. destruct (is_dot name); [done|]. destruct Hp as [<-|[]].
      destruct He as [He|He]; [done|]. cbn [fst snd]. by rewrite append_assoc in He. }
    exists s2. split; [done|]. split; [done|]. by rewrite Sh2, Sh1, <- foldl_app.
Qed.
End traversal.

(** ** Properties of every run of the traversal (src/src/CopyQueue.cpp)

    The traversal of FileTree.v is made of calls of the operating system, errors
    reported and files added.  A property of programs that these have, and that is kept
    by sequencing, is one of the whole traversal: on every tree, with every error, and
    whether it ends or not. *)

Class Walkable {S W} {T : Tree W} {Q : Sink S W} (P : forall A, prog S A -> Prop) : Prop := {
  wk_ret {A} (a : A) : P A (ret a);
  wk_raise {A} f : P A (raise f);
  wk_nofuel {A} : P A no_fuel;
  wk_assert b : P unit (assert b);
  wk_bind {A B} (m : prog S A) (k : A -> prog S B) : P A m -> (forall a, P B (k a)) -> P B (bind m k);
  wk_call {A} (m : prog (ost W) A) : walk_call A m -> P A (s_os m);
  wk_error e : P unit (s_onError e);
  wk_job a b st : P unit (s_addCopyJob a b st);
  wk_dir n fuel from dest current stack :
    (forall fd, P (list string) (read_dir n fuel fd from dest current 0 stack)) ->
    P (list string) (walk_one n fuel from dest current stack);
}.

Section walking.
Context {S W : Type} {T : Tree W} {Q : Sink S W} (P : forall A, prog S A -> Prop) {WP : Walkable P}.
Arguments P {A}.

Ltac walking :=
  repeat first
    [ progress intros
    | done
    | apply wk_ret | apply wk_raise | apply wk_nofuel | apply wk_assert | apply wk_error | apply wk_job
    | (apply wk_call; constructor)
    | apply wk_bind
    | match goal with |- P (if ?b then _ else _) => destruct b end
    | match goal with |- P (match ?x with _ => _ end) => destruct x end ].

Lemma walk_handle_typed fuel full to name type sb stack :
  P (handle_typed fuel full to name type sb stack).
Proof. unfold handle_typed, copy_symlink. walking. Qed.

Lemma walk_entries_loop n fuel from dest cur buf written off stack :
  P (entries_loop n fuel from dest cur buf written off stack).
Proof.
  revert off stack. induction n as [|n IH]; intros off stack; cbn [entries_loop]; unfold handle_entry;
    walking; apply walk_handle_typed.
Qed.

Lemma walk_read_dir n fuel fd from dest cur written stack :
  P (read_dir n fuel fd from dest cur written stack).
Proof.
  revert written stack. induction n as [|n IH]; intros written stack; cbn [read_dir]; walking.
  apply walk_entries_loop.
Qed.

Lemma walk_walk n fuel from dest stack : P (walk n fuel from dest stack).
Proof.
  revert stack. induction n as [|n IH]; intros stack; destruct stack; cbn [walk];
    [walking..|]. apply wk_bind; [|done]. apply wk_dir. intros fd. apply walk_read_dir.
Qed.

Lemma walk_addRecursiveCopy fuel from dest : P (addRecursiveCopy fuel from dest).
Proof. unfold addRecursiveCopy. walking; apply walk_walk. Qed.
End walking.

(** A property of every call, and not only of these. *)
Section any_call.
Context {S W : Type} {T : Tree W} {Q : Sink S W} (P : forall A, prog S A -> Prop).
Arguments P {A}.
Context (Pret : forall A (a : A), P (ret a)) (Praise : forall A f, P (A := A) (raise f))
  (Pfuel : forall A, P (A := A) no_fuel) (Passert : forall b, P (assert b))
  (Pbind : forall A B (m : prog S A) (k : A -> prog S B), P m -> (forall a, P (k a)) -> P (bind m k))
  (Pos : forall A (m : prog (ost W) A), P (s_os m)) (Perror : forall e, P (s_onError e))
  (Pjob : forall a b st, P (s_addCopyJob a b st)).

Lemma walkable_any : Walkable (@P).
Proof.
  split; try done. intros n fuel from dest current stack Hr.
  unfold walk_one, scoped_open, scoped_getFd, close_scoped.
  repeat first
    [ progress intros
    | solve [auto]
    | apply Pbind
    | match goal with |- P (match ?x with _ => _ end) => destruct x end ].
Qed.
End any_call.

(** The calls on paths open and close nothing, and directories and links are not regular
    files; so there is much these calls leave as it is. *)
Class TreeContents (W : Type) {T : Tree W} {X : Type} (obs : W -> X) : Prop := {
  tc_mkdir w p m w' v e : t_mkdir w p m = (w', v, e) -> obs w' = obs w;
  tc_stat w p w' b v e : t_stat w p = (w', b, v, e) -> obs w' = obs w;
  tc_statx w p w' b v e : t_statx w p = (w', b, v, e) -> obs w' = obs w;
  tc_getdents w fd n w' b v e : t_getdents w fd n = (w', b, v, e) -> obs w' = obs w;
  tc_readlink w p n w' b v e : t_readlink w p n = (w', b, v, e) -> obs w' = obs w;
  tc_symlink w target p w' v e : t_symlink w target p = (w', v, e) -> obs w' = obs w;
}.

(** ** Calls that leave something alone *)

Section still.
Context {W : Type} {T : Tree W} {X : Type} (obs : W -> X) {TC : TreeContents W obs}.

Definition still {A} (m : prog (ost W) A) : Prop :=
  forall o a o', m o = Ok (a, o') -> obs (o_world o') = obs (o_world o).

Lemma still_ret {A} (a : A) : still (ret a).
Proof. by intros o b o' [= _ <-]. Qed.

Lemma still_nofuel {A} : still (A := A) no_fuel.
Proof. by intros o b o' [=]. Qed.

Lemma still_gets {A} (f : ost W -> A) : still (gets f).
Proof. by intros o b o' [= _ <-]. Qed.

Lemma still_assert b : still (assert b).
Proof. intros o u o'. unfold assert. destruct b; [|done]. by intros [= _ <-]. Qed.

Lemma still_errno e : still (set_errno e).
Proof. by intros o u o' [= _ <-]. Qed.

Lemma still_bind {A B} (m : prog (ost W) A) (k : A -> prog (ost W) B) :
  still m -> (forall a, still (k a)) -> still (bind m k).
Proof.
  intros Hm Hk o b o' H. apply bind_inv in H as (a & o1 & H1 & H2).
  rewrite (Hk _ _ _ _ H2). by eapply Hm.
Qed.

Lemma still_syscall (f : W -> W * Z * Z) :
  (forall w w' v e, f w = (w', v, e) -> obs w' = obs w) -> still (syscall f).
Proof.
  intros Hf o a o' H. unfold syscall in H. destruct (f _) as [[w v] e] eqn:E. injection H as _ <-.
  by eapply Hf.
Qed.

Lemma still_syscall_out {B} (f : W -> W * B * Z * Z) :
  (forall w w' b v e, f w = (w', b, v, e) -> obs w' = obs w) -> still (syscall_out f).
Proof.
  intros Hf o a o' H. unfold syscall_out in H. destruct (f _) as [[[w b] v] e] eqn:E.
  injection H as _ <-. by eapply Hf.
Qed.

Create HintDb still.
#[local] Hint Resolve still_ret still_nofuel still_gets still_assert still_errno : still.
#[local] Hint Extern 1 (still (syscall _)) =>
  (apply still_syscall; intros ????; first [apply tc_mkdir|apply tc_symlink]) : still.
#[local] Hint Extern 1 (still (syscall_out _)) =>
  (apply still_syscall_out; intros ?????;
   first [apply tc_stat|apply tc_statx|apply tc_getdents|apply tc_readlink]) : still.

Ltac still :=
  repeat first
    [ progress intros
    | solve [auto with still]
    | apply still_bind
    | match goal with |- still (if ?b then _ else _) => destruct b end
    | match goal with |- still (match ?x with _ => _ end) => destruct x end ].

Lemma still_retry_loop {A} n (func : A -> prog (ost W) A) r :
  (forall a, still (func a)) -> still (retry_loop n func r).
Proof.
  intros Hf. revert r. induction n as [|n IH]; intros r; cbn [retry_loop]; unfold errno; still.
Qed.

Lemma still_retry {A} (func : A -> prog (ost W) A) a :
  (forall a, still (func a)) -> still (retrySyscall func a).
Proof.
  intros Hf o b o' H. rewrite retrySyscall_eq in H.
  destruct (retry_loop _ _ _ _) as [[x o1]| |] eqn:E; [|done..]. injection H as _ <-.
  exact (still_retry_loop 5 func a Hf _ _ _ E).
Qed.

Lemma still_mkdir_loop n i p : still (mkdir_loop n i p).
Proof. revert i. induction n as [|n IH]; intros i; cbn [mkdir_loop]; unfold mkdirOne, errno; still. Qed.

Lemma still_readlink_loop n p r : still (readlink_loop n p r).
Proof. revert r. induction n as [|n IH]; intros r; cbn [readlink_loop]; still. Qed.

Lemma still_walk_call A (m : prog (ost W) A) : walk_call A m -> still m.
Proof.
  intros H. destruct H.
  - unfold recursiveMkdir. apply still_bind; [apply still_mkdir_loop|]. unfold mkdirOne, errno. still.
  - unfold myStatx. apply still_bind; [|still]. apply still_retry. still.
  - unfold myGetDents. apply still_bind; [|still]. apply still_retry. still.
  - unfold myReadlink. apply still_bind; [|still]. apply still_retry. intros. apply still_readlink_loop.
  - apply still_retry. still.
Qed.
End still.
