(* ===== verification/TreeQueue.v ===== *)
(** * The traversal on the copy queue (src/src/CopyQueue.cpp)

    The copy queue of CopyQueue.v is what FileTree.v asks for: [queue_sink].  Its laws
    need to know which files were added, and a queue does not remember them; so they
    are proved of a queue with a history, and the history is erased from the result. *)

From stdpp Require Import gmap strings.
From S2P Require Import Prelude Abi Prep RingBuf Ring Kernel Queue Os Util Heap Eta CopyState FileDesc Runner RunnerData RunnerLive RunnerSpec CopyQueue CopyJob FileTree TraverseSpec.

(** ** Erasing a part of the state *)

Definition map_res {A S1 S2} (h : S1 -> S2) (r : res (A * S1)) : res (A * S2) :=
  match r with
  | Ok (a, s) => Ok (a, h s)
  | Fault f => Fault f
  | NoFuel => NoFuel
  end.

(** The second program does what the first does, seen through [h]. *)
Definition commutes {A S1 S2} (h : S1 -> S2) (m1 : prog S1 A) (m2 : prog S2 A) : Prop :=
  forall s, m2 (h s) = map_res h (m1 s).

Section generic.
Context {S1 S2 : Type} (h : S1 -> S2).

Lemma commutes_ret {A} (a : A) : commutes h (ret a) (ret a).
Proof. done. Qed.

Lemma commutes_raise {A} f : commutes (A := A) h (raise f) (raise f).
Proof. done. Qed.

Lemma commutes_nofuel {A} : commutes (A := A) h no_fuel no_fuel.
Proof. done. Qed.

Lemma commutes_assert b : commutes h (assert b) (assert b).
Proof. intros s. by destruct b. Qed.

Lemma commutes_bind {A B} (m1 : prog S1 A) (m2 : prog S2 A) (k1 : A -> prog S1 B) (k2 : A -> prog S2 B) :
  commutes h m1 m2 -> (forall a, commutes h (k1 a) (k2 a)) -> commutes h (bind m1 k1) (bind m2 k2).
Proof.
  intros Hm Hk s. unfold bind. rewrite Hm. destruct (m1 s) as [[a s']| |]; [|done..]. apply Hk.
Qed.
End generic.

Create HintDb commute.
#[export] Hint Resolve commutes_ret commutes_raise commutes_nofuel commutes_assert : commute.

Ltac commute :=
  repeat first
    [ solve [auto with commute]
    | apply commutes_bind; [|intros ?]
    | match goal with |- commutes _ (match ?x with _ => _ end) _ => destruct x end ].

Section morphism.
Context {S1 S2 W : Type} {T : Tree W} {Q1 : Sink S1 W} {Q2 : Sink S2 W} (h : S1 -> S2).
Context (Hos : forall A (m : prog (ost W) A), commutes h (s_os m) (s_os m)).
Context (Herr : forall e, commutes h (s_onError e) (s_onError e)).
Context (Hjob : forall a b st, commutes h (s_addCopyJob a b st) (s_addCopyJob a b st)).
#[local] Hint Resolve Hos Herr Hjob : commute.

Lemma commutes_handle_typed fuel full to name type sb stack :
  commutes h (handle_typed fuel full to name type sb stack) (handle_typed fuel full to name type sb stack).
Proof. unfold handle_typed, copy_symlink. commute. Qed.
#[local] Hint Resolve commutes_handle_typed : commute.

Lemma commutes_entries_loop n fuel from dest cur buf written off stack :
  commutes h (entries_loop n fuel from dest cur buf written off stack)
    (entries_loop n fuel from dest cur buf written off stack).
Proof.
  revert off stack. induction n as [|n IH]; intros off stack; cbn [entries_loop].
  - commute.
  - unfold handle_entry. commute.
Qed.
#[local] Hint Resolve commutes_entries_loop : commute.

Lemma commutes_read_dir n fuel fd from dest cur written stack :
  commutes h (read_dir n fuel fd from dest cur written stack)
    (read_dir n fuel fd from dest cur written stack).
Proof.
  revert written stack. induction n as [|n IH]; intros written stack; cbn [read_dir]; commute.
Qed.
#[local] Hint Resolve commutes_read_dir : commute.

Lemma commutes_walk n fuel from dest stack :
  commutes h (walk n fuel from dest stack) (walk n fuel from dest stack).
Proof.
  revert stack. induction n as [|n IH]; intros stack; destruct stack; cbn [walk];
    unfold walk_one, scoped_open, scoped_getFd, close_scoped; commute.
Qed.
#[local] Hint Resolve commutes_walk : commute.

Lemma commutes_addRecursiveCopy fuel from dest :
  commutes h (addRecursiveCopy fuel from dest) (addRecursiveCopy fuel from dest).
Proof. unfold addRecursiveCopy. commute. Qed.
End morphism.

(** ** The queue and its history *)

Definition job : Type := string * string * statx.

(** A program on the state, with a note in the history. *)
Definition on_fst {S A G} (m : prog S A) (upd : G -> G) : prog (S * G) A :=
  fun s => map_res (fun c => (c, upd (snd s))) (m (fst s)).

Lemma erase_ghost {S A G} (m : prog S A) (upd : G -> G) : commutes fst (on_fst m upd) m.
Proof. intros [c g]. unfold on_fst. cbn. by destruct (m c) as [[a c']| |]. Qed.

Section queue.
Context {W : Type} {T : Tree W} (fuel : nat) (i1 i2 : bool).
Implicit Types (c : cqueue W).

Definition queue_sink : Sink (cqueue W) W := {|
  s_os A m := on_queue (with_os m);
  s_onError := onError;
  s_addCopyJob a b st := addCopyJob fuel i1 i2 a b st;
|}.

Definition ghost_sink : Sink (cqueue W * list job) W := {|
  s_os A m := on_fst (on_queue (with_os m)) id;
  s_onError e := on_fst (onError e) id;
  s_addCopyJob a b st := on_fst (addCopyJob fuel i1 i2 a b st) (fun g => g ++ [(a, b, st)]);
|}.

Lemma erase_addRecursiveCopy n from dest :
  commutes fst (addRecursiveCopy (Q := ghost_sink) n from dest)
    (addRecursiveCopy (Q := queue_sink) n from dest).
Proof. apply commutes_addRecursiveCopy; intros; apply erase_ghost. Qed.

(** ** What the queue holds after a list of jobs *)

Context (h : Heap.heap).

Record job_at (k : Z) (src dest : string) (st : statx) c : Prop := {
  at_src : exists d, qu_qfds (cq_queue c) !! k = Some d /\ q_path d = src;
  at_dest : exists d, qu_qfds (cq_queue c) !! (k + 1) = Some d /\ q_path d = dest;
  at_tracker : qu_chunks (cq_queue c) !! (k + 2) = Some (zlen (plan h st));
  at_runner : forall j p, zget (plan h st) j = Some p ->
    qu_runners (cq_queue c) !! (k + 3 + j) = Some (chunk_runner k (k + 1) (k + 2) p);
}.

(** The jobs take the addresses from [k] on, in order. *)
Fixpoint planned (k : Z) (js : list job) c : Prop :=
  match js with
  | [] => next_addr c = k
  | (a, b, st) :: js => job_at k a b st c /\ planned (k + 3 + zlen (plan h st)) js c
  end.

(** Their runners. *)
Fixpoint runners_of (k : Z) (js : list job) : list Z :=
  match js with
  | [] => []
  | (_, _, st) :: js => zseq (k + 3) (length (plan h st)) ++ runners_of (k + 3 + zlen (plan h st)) js
  end.

Lemma planned_end k js c : planned k js c -> k <= next_addr c.
Proof.
  revert k. induction js as [|[[a b] st] js IH]; intros k; cbn [planned]; [lia|].
  intros [_ H%IH]. unfold zlen in *. lia.
Qed.

Lemma job_at_kept k a b st a' b' st' c c' :
  job_at k a b st c -> k + 3 + zlen (plan h st) <= next_addr c -> job_added a' b' st' c c' ->
  job_at k a b st c'.
Proof.
  intros [H1 H2 H3 H4] Hk J. unfold zlen in *. split.
  - by rewrite (ja_old_qfds _ _ _ _ _ J) by lia.
  - by rewrite (ja_old_qfds _ _ _ _ _ J) by lia.
  - by rewrite (ja_old_chunks _ _ _ _ _ J) by lia.
  - intros j p Hp. pose proof (zget_range _ _ _ Hp). unfold zlen in *.
    rewrite (ja_old_runners _ _ _ _ _ J) by lia. by apply H4.
Qed.

Lemma planned_snoc k js a b st c c' :
  qu_heap (cq_queue c) = h -> planned k js c -> job_added a b st c c' ->
  planned k (js ++ [(a, b, st)]) c' /\
  zseq (next_addr c + 3) (length (plan h st)) = runners_of (next_addr c) [(a, b, st)] /\
  runners_of k (js ++ [(a, b, st)]) = runners_of k js ++ runners_of (next_addr c) [(a, b, st)].
Proof.
  intros Hh Hp J. pose proof Hp as Hp'. revert k Hp Hp'.
  induction js as [|[[a1 b1] st1] js IH]; intros k Hp Hk; cbn [app planned runners_of] in *.
  - subst k. destruct J. rewrite Hh in *. split; [by repeat split|].
    split; [by rewrite app_nil_r|done].
  - destruct Hp as [H1 H2]. destruct (IH _ H2 H2) as (P1 & P2 & P3). split; [split; [|done]|].
    + eapply job_at_kept; [exact H1| |exact J]. by apply (planned_end _ js).
    + split; [done|]. by rewrite P3, app_assoc.
Qed.

(** It depends on the objects only. *)
Lemma planned_same k js c c' :
  qu_qfds (cq_queue c') = qu_qfds (cq_queue c) -> qu_chunks (cq_queue c') = qu_chunks (cq_queue c) ->
  qu_runners (cq_queue c') = qu_runners (cq_queue c) -> next_addr c' = next_addr c ->
  planned k js c -> planned k js c'.
Proof.
  intros E1 E2 E3 E4. revert k. induction js as [|[[a b] st] js IH]; intros k; cbn [planned]; [congruence|].
  intros [[H1 H2 H3 H4] Hp]. split; [|by apply IH]. split; by rewrite ?E1, ?E2, ?E3.
Qed.

(** ** The laws *)

Context (view_of : W -> view) (c0 : cqueue W).

(** Opening a file that is not a directory does not show in the view. *)
Definition plain_opens : Prop :=
  forall w p oflag mode w' v e, flag_set oflag O_DIRECTORY = false ->
    f_open w p oflag mode = (w', v, e) -> view_of w' = view_of w.

Record ghost_inv (s : cqueue W * list job) : Prop := {
  gi_adding : adding (fst s) = true;
  gi_heap : qu_heap (cq_queue (fst s)) = h;
  gi_planned : planned (next_addr c0) (snd s) (fst s);
  gi_pending : copiesPendingStart (fst s) =
    copiesPendingStart c0 ++ runners_of (next_addr c0) (snd s);
}.

Definition fits (st : statx) : Prop := plannable h st /\ (length (plan h st) <= fuel)%nat.

Lemma no_directory_flag oflag :
  flag_set oflag O_DIRECTORY = false -> flag_set (Z.lxor oflag O_DIRECT) O_DIRECTORY = false.
Proof.
  unfold flag_set. intros H%negb_false_iff%Z.eqb_eq. apply negb_false_iff, Z.eqb_eq.
  apply Z.bits_inj'. intros i Hi. rewrite Z.land_spec, Z.lxor_spec, Z.bits_0.
  pose proof (f_equal (fun x => Z.testbit x i) H) as Hb. cbv beta in Hb.
  rewrite Z.land_spec, Z.bits_0 in Hb. unfold O_DIRECTORY, O_DIRECT in *.
  change 65536 with (2 ^ 16) in *. change 16384 with (2 ^ 14).
  rewrite !Z.pow2_bits_eqb in * by lia. destruct (Z.eqb_spec 16 i); [|by rewrite andb_false_r].
  subst i. cbn [Z.eqb] in *. rewrite !andb_true_r in *. by rewrite Hb.
Qed.

Lemma open_loop_view tries p oflag mode fd o r o' :
  plain_opens -> flag_set oflag O_DIRECTORY = false ->
  open_loop tries p oflag mode fd o = Ok (r, o') -> view_of (o_world o') = view_of (o_world o).
Proof.
  intros Hpl. revert oflag fd o. induction tries as [|n IH]; intros oflag fd o Hd; cbn [open_loop].
  - by intros [= _ <-].
  - intros Hl. apply bind_inv in Hl as (v & o1 & Hv & Hl).
    unfold sys_open, syscall in Hv. destruct (f_open _ _ _ _) as [[w v'] e] eqn:Ho.
    injection Hv as -> <-. apply Hpl in Ho; [|done].
    apply bind_inv in Hl as (e' & o2 & He & Hl). injection He as _ <-.
    rewrite <- Ho. destruct (_ && _ && _).
    { apply IH in Hl; [done|by apply no_directory_flag]. }
    destruct (_ && _); [by apply IH in Hl|by injection Hl as _ <-].
Qed.

Lemma opens_view p oflag mode o o' :
  plain_opens -> flag_set oflag O_DIRECTORY = false -> opens p oflag mode o o' ->
  view_of (o_world o') = view_of (o_world o).
Proof.
  intros Hpl Hd [->|(r & H)]; [done|]. rewrite myOpen_eq in H.
  destruct (open_loop _ _ _ _ _ _) as [[fd o1]| |] eqn:Hl; [|done..].
  apply open_loop_view in Hl; [|done..]. by destruct (fd <? 0); injection H as _ <-.
Qed.

Definition ghost_os (s : cqueue W * list job) : ost W := qu_os (cq_queue (fst s)).

#[export] Instance ghost_laws (Hpl : plain_opens) :
  SinkLaws (Q := ghost_sink) (cqueue W * list job) W view_of fits ghost_inv ghost_os snd
    (fun s => errorMessages (fst s)).
Proof.
  split.
  - intros A m [c g] a o [I1 I2 I3 I4] H. exists (cq_set_queue (set_os o (cq_queue c)) c, g).
    split.
    2:{ split; [|done]. split; try done. by apply (planned_same _ _ c). }
    cbn. unfold on_fst, on_queue, with_os, ghost_os in *. cbn [fst snd] in *. by rewrite H.
  - intros e [c g] [I1 I2 I3 I4]. exists (cq_add_error e c, g).
    split; [done|]. split; [|done]. split; try done. by apply (planned_same _ _ c).
  - intros a b st [c g] [I1 I2 I3 I4] [Hp Hf]. cbn [fst snd] in *.
    rewrite <- I2 in Hp, Hf. destruct (addCopyJob_ok fuel i1 i2 a b st c I1 Hp Hf) as (c' & H & J).
    exists (c', g ++ [(a, b, st)]). cbn. unfold on_fst. cbn [fst snd]. rewrite H. split; [done|].
    destruct (planned_snoc _ _ _ _ _ _ _ I2 I3 J) as (P1 & P2 & P3).
    split; [|split_and!; [|done|by destruct J]].
    + split; cbn [fst snd].
      * unfold adding. by rewrite (ja_state _ _ _ _ _ J).
      * by rewrite (ja_heap _ _ _ _ _ J).
      * done.
      * by rewrite (ja_pending _ _ _ _ _ J), I2, P2, P3, I4, app_assoc.
    + destruct (ja_os _ _ _ _ _ J) as (o & O1 & O2).
      apply (opens_view _ _ _ _ _ Hpl) in O1, O2; [|done..]. unfold ghost_os. cbn. by rewrite O2.
Qed.
End queue.
