(* ===== verification/TreePaths.v ===== *)
(** * The paths of a tree

    In a tree whose names are as a file system has them, different files have different
    paths; so no two files of a recursive copy have the same destination, and where
    source and destination do not lie in each other, none is read after it was written. *)

From stdpp Require Import gmap strings.
From S2P Require Import Prelude Abi Util Heap CopyState CopyQueue CopyJob Contents FileTree TraverseSpec TreeQueue.

Definition to_job (x : string * string * statx) : Contents.job := mk_job x.1.1 x.1.2 x.2.

(** The files among the actions of a traversal. *)
Definition copies (acts : list action) : list Contents.job :=
  flat_map (fun a => match a with Copy src dst st => [mk_job src dst st] | _ => [] end) acts.

Lemma performed_jobs x acts :
  to_job <$> sw_jobs (foldl perform x acts) = (to_job <$> sw_jobs x) ++ copies acts.
Proof.
  revert x. induction acts as [|a acts IH]; intros x; cbn [foldl copies flat_map]; [by rewrite app_nil_r|].
  rewrite IH. unfold copies. destruct a; cbn; [|done..]. by rewrite fmap_app, <- app_assoc.
Qed.

Lemma copies_app l1 l2 : copies (l1 ++ l2) = copies l1 ++ copies l2.
Proof. apply flat_map_app. Qed.

(** ** Names *)

Fixpoint no_slash (s : string) : Prop :=
  match s with EmptyString => True | String a s => a <> slash /\ no_slash s end.

Lemma append_inj_l (p a b : string) : p +:+ a = p +:+ b -> a = b.
Proof. induction p as [|x p IH]; [done|]. intros [= H]. by apply IH. Qed.

(** The first component of a path. *)
Lemma component_inj (a b r1 r2 : string) :
  no_slash a -> no_slash b -> a +:+ ("/" +:+ r1) = b +:+ ("/" +:+ r2) -> a = b /\ r1 = r2.
Proof.
  revert b. induction a as [|x a IH]; intros b Ha Hb; destruct b as [|y b].
  - intros H. change (String slash r1 = String slash r2) in H. by injection H as ->.
  - intros H. change (String slash r1 = String y (b +:+ ("/" +:+ r2))) in H. injection H as <- _. by destruct Hb.
  - intros H. change (String x (a +:+ ("/" +:+ r1)) = String slash r2) in H. injection H as -> _. by destruct Ha.
  - intros H. change (String x (a +:+ ("/" +:+ r1)) = String y (b +:+ ("/" +:+ r2))) in H.
    injection H as <- H. destruct Ha as [_ Ha], Hb as [_ Hb]. by destruct (IH b Ha Hb H) as [-> ->].
Qed.

Lemma component_slash (a r : string) : ~ no_slash (a +:+ ("/" +:+ r)).
Proof. induction a as [|x a IH]; cbn; [by intros [? _]|by intros [_ ?]]. Qed.

(** ** The files of a tree *)

Definition node_all (P : string -> node -> Prop) (es : list (string * node)) : Prop :=
  Forall (fun e => P (fst e) (snd e)) es.

(** Names have no slash, and differ within a directory. *)
Fixpoint proper (n : node) {struct n} : Prop :=
  match n with
  | NDir es =>
      NoDup (es.*1) /\
      (fix all es := match es with [] => True | (name, n) :: es => (no_slash name /\ proper n) /\ all es end) es
  | _ => True
  end.

Lemma proper_dir es : proper (NDir es) -> NoDup (es.*1) /\ forall name n, (name, n) ∈ es -> no_slash name /\ proper n.
Proof.
  cbn [proper]. intros [H1 H2]. split; [done|]. clear H1.
  induction es as [|[name n] es IH]; intros nm m Hin; [by apply elem_of_nil in Hin|].
  destruct H2 as [He H2]. apply elem_of_cons in Hin as [[= -> ->]|Hin]; [done|by apply IH].
Qed.

Definition files_here (es : list (string * node)) : list (string * statx) :=
  flat_map (fun e => match snd e with NFile st => [(fst e, st)] | _ => [] end) es.

(** The files with their paths, in the order of [visit]. *)
Fixpoint files_below (n : node) {struct n} : list (string * statx) :=
  match n with
  | NDir es =>
      files_here es ++
      (fix dirs es :=
         match es with
         | [] => []
         | (name, n) :: es =>
             dirs es ++
             (if is_dot name then [] else (fun x => (name +:+ ("/" +:+ x.1), x.2)) <$> files_below n)
         end) es
  | _ => []
  end.

Fixpoint files_deep (es : list (string * node)) : list (string * statx) :=
  match es with
  | [] => []
  | (name, n) :: es =>
      files_deep es ++
      (if is_dot name then [] else (fun x => (name +:+ ("/" +:+ x.1), x.2)) <$> files_below n)
  end.

Lemma files_below_dir es : files_below (NDir es) = files_here es ++ files_deep es.
Proof. reflexivity. Qed.

(** Induction over a tree, on the nodes of a directory. *)
Lemma node_below es name n : (name, n) ∈ es -> (weight n < weight (NDir es))%nat.
Proof.
  rewrite weight_dir. unfold weights. induction es as [|e es IH]; intros Hin; [by apply elem_of_nil in Hin|].
  cbn [sum_list_with]. apply elem_of_cons in Hin as [<-|Hin]; [cbn; lia|]. apply IH in Hin. lia.
Qed.

Lemma node_rect (P : node -> Prop) :
  (forall n, (forall es name m, n = NDir es -> (name, m) ∈ es -> P m) -> P n) -> forall n, P n.
Proof.
  intros HP n. remember (weight n) as w eqn:Ew. revert n Ew.
  induction (lt_wf w) as [w _ IH]. intros n ->. apply HP. intros es name m -> Hin.
  eapply IH; [by eapply node_below|done].
Qed.

(** ** Their paths differ *)

Lemma here_path es r st : (r, st) ∈ files_here es -> (r, NFile st) ∈ es.
Proof.
  intros H%list_elem_of_In%in_flat_map. destruct H as ([name n] & Hin & H).
  destruct n; try done. destruct H as [[= -> ->]|[]]. by apply list_elem_of_In.
Qed.

Lemma deep_path es r st :
  (r, st) ∈ files_deep es ->
  exists name n r', (name, n) ∈ es /\ is_dot name = false /\ r = name +:+ ("/" +:+ r') /\
    (r', st) ∈ files_below n.
Proof.
  induction es as [|[name n] es IH]; cbn [files_deep]; [by intros ?%elem_of_nil|].
  intros [H|H]%elem_of_app.
  - destruct (IH H) as (name' & n' & r' & Hin & ? & ? & ?). exists name', n', r'. split_and!; try done. by right.
  - destruct (is_dot name) eqn:Hd; [by apply elem_of_nil in H|].
    apply list_elem_of_fmap in H as ([r' st'] & [= -> ->] & H). exists name, n, r'. split_and!; try done. by left.
Qed.

Lemma here_distinct es : NoDup (es.*1) -> NoDup ((files_here es).*1).
Proof.
  induction es as [|[name n] es IH]; cbn; [constructor|]. intros [Hn Hes]%list.NoDup_cons.
  destruct n; cbn; [|by apply IH..]. apply list.NoDup_cons. split; [|by apply IH].
  intros ([r st'] & -> & H%here_path)%list_elem_of_fmap. apply Hn, list_elem_of_fmap. by eexists (_, _).
Qed.

Lemma deep_distinct es :
  NoDup (es.*1) -> (forall name n, (name, n) ∈ es -> no_slash name /\ NoDup ((files_below n).*1)) ->
  NoDup ((files_deep es).*1).
Proof.
  induction es as [|[name n] es IH]; cbn [files_deep fmap list_fmap fst]; [constructor|].
  intros [Hn Hes]%list.NoDup_cons Hall. destruct (Hall name n) as [Hs Hd]; [by left|].
  rewrite fmap_app. apply list.NoDup_app. split; [|split].
  - apply IH; [done|]. intros nm m Hin. apply Hall. by right.
  - intros r ([r1 st1] & -> & H1)%list_elem_of_fmap. cbn.
    destruct (is_dot name); [by intros ?%elem_of_nil|].
    intros ([r2 st2] & E & H2)%list_elem_of_fmap. cbn in E. subst r1.
    apply list_elem_of_fmap in H2 as ([r3 st3] & [= -> ->] & H3).
    apply deep_path in H1 as (nm & m & r' & Hin & _ & E & _).
    destruct (Hall nm m) as [Hs' _]; [by right|].
    destruct (component_inj _ _ _ _ Hs Hs' E) as [<- _].
    apply Hn, list_elem_of_fmap. by eexists (_, _).
  - destruct (is_dot name); [constructor|]. rewrite <- list_fmap_compose.
    rewrite (list_fmap_ext _ ((fun r => name +:+ ("/" +:+ r)) ∘ fst)) by done.
    rewrite list_fmap_compose. apply NoDup_fmap_2; [|done].
    intros r1 r2 E. apply append_inj_l in E. by injection E.
Qed.

Lemma paths_distinct n : proper n -> NoDup ((files_below n).*1).
Proof.
  induction n as [n IH] using node_rect. destruct n as [st|t|es|t]; try by constructor.
  intros [Hnd Hall]%proper_dir. rewrite files_below_dir, fmap_app. apply list.NoDup_app. split; [|split].
  - by apply here_distinct.
  - intros r ([r1 st1] & -> & H1%here_path)%list_elem_of_fmap ([r2 st2] & E & H2)%list_elem_of_fmap.
    cbn in E. subst r1. apply deep_path in H2 as (nm & m & r' & _ & _ & -> & _).
    destruct (Hall _ _ H1) as [Hs _]. by apply component_slash in Hs.
  - apply deep_distinct; [done|]. intros name m Hin. destruct (Hall _ _ Hin) as [Hs Hp].
    split; [done|]. by eapply IH.
Qed.

(** ** The files a traversal finds *)

Lemma visit_here from dest rel es :
  copies (flat_map (entry_action from dest rel) es) =
  (fun x => mk_job (from +:+ (rel +:+ x.1)) (dest +:+ (rel +:+ x.1)) x.2) <$> files_here es.
Proof.
  induction es as [|[name n] es IH]; [done|]. cbn [flat_map files_here]. rewrite copies_app, fmap_app, IH.
  f_equal. unfold entry_action. cbn [fst snd]. destruct n; try done. by destruct (is_dot name).
Qed.

Lemma copies_visit from dest rel n :
  copies (visit from dest rel n) =
  (fun x => mk_job (from +:+ (rel +:+ x.1)) (dest +:+ (rel +:+ x.1)) x.2) <$> files_below n.
Proof.
  revert rel. induction n as [n IH] using node_rect. intros rel. destruct n as [st|t|es|t]; [done..| |done].
  rewrite files_below_dir, fmap_app. cbn [visit]. rewrite copies_app, visit_here. f_equal.
  assert (forall name m, (name, m) ∈ es -> forall rel, copies (visit from dest rel m) =
    (fun x => mk_job (from +:+ (rel +:+ x.1)) (dest +:+ (rel +:+ x.1)) x.2) <$> files_below m) as Hsub
    by (intros name m Hin; by eapply IH).
  clear IH. induction es as [|[name m] es IH]; [done|]. cbn [files_deep]. rewrite copies_app, fmap_app. f_equal.
  - apply IH. intros nm k Hin. apply (Hsub nm). by right.
  - destruct (is_dot name); [done|]. rewrite (Hsub name) by by left. rewrite <- list_fmap_compose.
    apply list_fmap_ext. intros _ [r st] _. cbn. by rewrite !append_assoc.
Qed.

Section shown.
Context {W : Type} {T : Tree W} (src : string -> option node) (fits : statx -> Prop) (fuel : nat).

(** What the file system shows for the files of a tree. *)
Lemma shows_files p n r st :
  shows src fits fuel p n -> (r, st) ∈ files_below n -> src (p +:+ r) = Some (NFile st) /\ fits st.
Proof.
  revert p r. induction n as [n IH] using node_rect. intros p r Hs Hin. destruct n as [|?|es|?];
    [by apply elem_of_nil in Hin..| |by apply elem_of_nil in Hin].
  apply shows_dir in Hs as [_ Hok]. rewrite files_below_dir in Hin.
  rewrite list.Forall_forall in Hok. apply elem_of_app in Hin as [Hin|Hin].
  - apply here_path in Hin. exact (Hok _ Hin).
  - apply deep_path in Hin as (name & m & r' & Hin & Hd & -> & Hr). pose proof (Hok _ Hin) as He.
    unfold entry_ok in He. cbn [fst snd] in He. destruct m as [|?|es'|?]; try by apply elem_of_nil in Hr.
    destruct He as [He|He]; [congruence|].
    destruct (IH es name _ eq_refl Hin _ _ He Hr) as [H1 H2]. split; [|done]. by rewrite !append_assoc in H1.
Qed.
End shown.

(** Neither path is the beginning of the other. *)
Definition apart (a b : string) : Prop := String.prefix a b = false /\ String.prefix b a = false.

Lemma apart_paths a b x y : apart a b -> a +:+ x <> b +:+ y.
Proof.
  unfold apart. revert b. induction a as [|c a IH]; intros b [H1 H2] E; [by destruct b|]. destruct b as [|d b]; [done|].
  change (String c (a +:+ x) = String d (b +:+ y)) in E. injection E as <- E. cbn in H1, H2.
  destruct (Ascii.ascii_dec c c); [|done]. by apply (IH b).
Qed.

(** The files of a tree are fit to be copied. *)
Lemma tree_jobs_ok {W} {T : Tree W} src fits fuel h0 v0 from dest es :
  shows src fits fuel from (NDir es) -> (forall st, fits st -> plannable h0 st) ->
  (forall p st, src p = Some (NFile st) -> stx_size st = kv_size v0 p) ->
  proper (NDir es) -> apart from dest ->
  jobs_ok h0 v0 (copies (visit from dest "" (NDir es))).
Proof.
  intros Hs Hf Hsz Hp Ha. rewrite copies_visit.
  assert (forall j, j ∈ (fun x => mk_job (from +:+ ("" +:+ x.1)) (dest +:+ ("" +:+ x.1)) x.2) <$> files_below (NDir es) ->
    exists r, job_src j = from +:+ r /\ job_dst j = dest +:+ r /\ src (from +:+ r) = Some (NFile (job_st j)) /\
      fits (job_st j)) as Hj.
  { intros j ([r st] & -> & Hin)%list_elem_of_fmap. exists r. split; [done|]. split; [done|].
    by eapply shows_files. }
  split.
  - intros j (r & _ & _ & _ & ?)%Hj. by apply Hf.
  - intros j (r & -> & _ & Hr & _)%Hj. by apply Hsz.
  - rewrite <- list_fmap_compose. rewrite (list_fmap_ext _ (String.append dest ∘ fst)) by done.
    rewrite list_fmap_compose. apply NoDup_fmap_2; [|by apply paths_distinct].
    intros r1 r2 E. by eapply append_inj_l.
  - intros j (r & -> & _)%Hj (j' & E & (r' & _ & Ed & _)%Hj)%list_elem_of_fmap.
    rewrite Ed in E. by apply (apart_paths _ _ _ _ Ha) in E.
Qed.
