(* ===== verification/TreeWorld.v ===== *)
(** * A file system, for the witnesses

    The system calls of FileTree.v on a tree that does not change: a world holds the
    open directories with the number of entries already read, and the directories and
    links made.  A read of a directory returns at most [per] entries. *)

From stdpp Require Import gmap strings.
From S2P Require Import Prelude Abi Os SimOs Util CopyQueue FileTree TraverseSpec.

Definition EBADF : Z := 9.

Record tree_world : Type := mk_tw {
  tw_open : gmap Z (string * nat);
  tw_dirs : gset string;
  tw_links : list (string * string);
}.

(** The descriptor of every file that is not a directory. *)
Definition plain_fd : Z := 2 ^ 20.

Section world.
Context (tree : string -> option node) (per : nat).

Definition entries (p : string) : list (string * node) :=
  match tree p with Some (NDir es) => es | _ => [] end.

Definition tw_view (w : tree_world) : view :=
  mk_view ((fun pk => drop (snd pk) (entries (fst pk))) <$> tw_open w) (tw_dirs w) (tw_links w).

Definition tw_set_open m (w : tree_world) : tree_world := mk_tw m (tw_dirs w) (tw_links w).

(** A record of 20 bytes and the name. *)
Definition encode (e : string * node) : list Z :=
  let n := 20 + zlen (bytes_of (fst e)) in
  replicate 16 0 ++ n mod 256 :: n / 256 :: node_type (snd e) :: bytes_of (fst e) ++ [0].

Definition is_directory (p : string) : bool :=
  match tree p with Some (NDir _) => true | _ => false end.

Definition TreeFiles : Files tree_world := {|
  f_open w p oflag mode :=
    if flag_set oflag O_DIRECTORY then
      if is_directory p then
        let fd := above (elements (dom (tw_open w))) in
        (tw_set_open (<[fd := (p, O)]> (tw_open w)) w, fd, 0)
      else (w, -1, ENOENT)
    else (w, plain_fd, 0);
  f_close w fd :=
    match tw_open w !! fd with
    | Some _ => (tw_set_open (delete fd (tw_open w)) w, 0, 0)
    | None => if fd =? plain_fd then (w, 0, 0) else (w, -1, EBADF)
    end;
|}.

Definition TreeCalls : Tree tree_world := {|
  t_files := TreeFiles;
  t_mkdir w p mode :=
    if bool_decide (p ∈ tw_dirs w) then (w, -1, EEXIST)
    else (mk_tw (tw_open w) ({[p]} ∪ tw_dirs w) (tw_links w), 0, 0);
  t_stat w p := if bool_decide (p ∈ tw_dirs w) then (w, 16384 + S_IRWXU, 0, 0) else (w, 0, -1, ENOENT);
  t_statx w p :=
    match tree p with Some (NFile st) => (w, st, 0, 0) | _ => (w, no_stat, -1, ENOENT) end;
  t_getdents w fd n :=
    match tw_open w !! fd with
    | Some (p, k) =>
        let bs := map encode (take per (drop k (entries p))) in
        (tw_set_open (<[fd := (p, (k + per)%nat)]> (tw_open w)) w, concat bs, zlen (concat bs), 0)
    | None => (w, [], -1, EBADF)
    end;
  t_readlink w p n :=
    match tree p with
    | Some (NLink target) =>
        (w, String.substring 0 (Z.to_nat n) target, Z.min (Z.of_nat (String.length target)) n, 0)
    | _ => (w, ""%string, -1, EINVAL)
    end;
  t_symlink w target p := (mk_tw (tw_open w) (tw_dirs w) (tw_links w ++ [(target, p)]), 0, 0);
|}.

(** Names as the system allows them. *)
Definition names_ok : Prop :=
  forall p es, tree p = Some (NDir es) ->
    Forall (fun e => no_nul (fst e) /\ zlen (bytes_of (fst e)) < 65000) es.

Lemma encode_encodes e :
  no_nul (fst e) -> zlen (bytes_of (fst e)) < 65000 -> encodes e (encode e).
Proof.
  intros Hn Hl. exists (replicate 16 0), [].
  assert (zlen (encode e) = 20 + zlen (bytes_of (fst e))) as E.
  { unfold encode, zlen. rewrite length_app, length_replicate. cbn [length]. rewrite length_app.
    cbn [length]. lia. }
  rewrite E. split_and!; [done|lia|done|done].
Qed.

Lemma substring_short n s : (String.length s <= n)%nat -> String.substring 0 n s = s.
Proof.
  revert n. induction s as [|a s IH]; intros [|n]; cbn; try done; try lia.
  intros H. f_equal. apply IH. lia.
Qed.

(** What a read of a directory returns. *)
Lemma reads_entries p k :
  names_ok -> per <> O ->
  let es := drop k (entries p) in
  es = take per es ++ drop (k + per) (entries p) /\
  (take per es = [] -> drop (k + per) (entries p) = []) /\
  Forall2 encodes (take per es) (map encode (take per es)).
Proof.
  intros Hnames Hper es. rewrite <- drop_drop. fold es. split; [by rewrite take_drop|]. split.
  - intros Ht. apply (f_equal length) in Ht. rewrite length_take in Ht. cbn in Ht.
    apply nil_length_inv. rewrite length_drop. lia.
  - apply Forall2_fmap_r, list.Forall_Forall2_diag. apply Forall_take, Forall_drop.
    unfold entries. destruct (tree p) as [[| |es'|]|] eqn:Ep; try by constructor.
    eapply list.Forall_impl; [by apply (Hnames p)|]. intros e [H1 H2]. by apply encode_encodes.
Qed.

#[export] Instance tree_laws : names_ok -> per <> O -> TreeLaws (T := TreeCalls) tree_world tree tw_view.
Proof.
  intros Hnames Hper. split.
  - intros w p es Hp _. cbn. unfold is_directory. rewrite Hp.
    eexists _, _, _. split; [done|]. split; [apply above_pos|].
    unfold tw_view, v_set_open. cbn. rewrite fmap_insert. cbn. unfold entries. by rewrite Hp.
  - intros w fd es Ho. cbn in Ho. rewrite lookup_fmap in Ho. cbn.
    destruct (tw_open w !! fd) as [[p k]|] eqn:E; [|done]. cbn in Ho. injection Ho as <-.
    destruct (reads_entries p k Hnames Hper) as (E1 & E2 & E3). set (es := drop k (entries p)) in *.
    exists (tw_set_open (<[fd := (p, (k + per)%nat)]> (tw_open w)) w), (take per es), (drop (k + per) (entries p)),
      (map encode (take per es)), (zlen (concat (map encode (take per es)))), 0.
    split; [done|]. split; [exact E1|]. split; [exact E2|]. split; [exact E3|]. split; [done|].
    unfold tw_view, v_set_open. cbn. by rewrite fmap_insert.
  - intros w fd es Ho. cbn in Ho. rewrite lookup_fmap in Ho. cbn.
    destruct (tw_open w !! fd); [|done]. eexists _, _. split; [done|].
    unfold tw_view, v_set_open. cbn. by rewrite fmap_delete.
  - intros w p st Hp. cbn. rewrite Hp. by eexists _, _.
  - intros w p target sz Hp Hsz. cbn. rewrite Hp. eexists _, _, _. split; [done|]. split; [|done].
    intros Hlt. apply substring_short. lia.
  - intros w target p. cbn. by eexists _, _.
  - intros w p. cbn. case_bool_decide as Hd.
    + eexists _, _, _. split; [done|]. split; [by right|]. unfold tw_view, v_add_dirs. cbn.
      f_equal. set_solver.
    + eexists _, _, _. split; [done|]. split; [by left|]. unfold tw_view, v_add_dirs. cbn.
      f_equal. set_solver.
  - intros w p Hd. cbn in *. rewrite bool_decide_eq_true_2 by done. by eexists _, _, _.
Qed.
End world.
