(* ===== verification/TreeSteps.v ===== *)
(** * The traversal as steps of the data system

    [addRecursiveCopy] makes the steps of DataSystem.v: it opens and closes directories,
    makes directories and links, which are no files of the queue, and adds the files it
    finds, in order.  The submit thread and the kernel are at work meanwhile:
    [busy_sink] is a queue on which they make steps between any two calls of the main
    thread, and [noted_laws] says that it is a queue the traversal can rely on. *)

From stdpp Require Import gmap strings.
From S2P Require Import Prelude Abi Prep RingBuf Ring SqSpec CqSpec Kernel Queue QueueSpec Os Util Heap CopyState FileDesc Runner RunnerData RunnerLive RunnerSpec CopyQueue CopyJob SubmitLoop Shape Accounts System SystemSpec Lifecycle Service Rounds ServedFiles Serving Contents Ledger Keeping KeptFiles Planning Liveness Moves Drift Tracked DataSystem Advancing DataRuns FileTree TraverseSpec TreeQueue TreePaths Entering.

(** ** Files and directories

    Directories are open under numbers of their own: what is done with files does not show
    to the traversal, and no call into liburing opens or closes anything. *)
Class SharedWorld (W : Type) {T : Tree W} {K : Kernel W} {C : Contents W} (view_of : W -> view) : Prop := {
  sw_open_file : plain_opens view_of;
  sw_close_file w fd w' v e : v_open (view_of w) !! fd = None -> f_close w fd = (w', v, e) -> view_of w' = view_of w;
  sw_enter w r fd sub mn fl a sz w' r' v e : sys_enter w r fd sub mn fl a sz = (w', r', v, e) ->
    view_of w' = view_of w /\ kv_open (kview_of w') = kv_open (kview_of w);
}.

Section discreet.
Context {W : Type} {T : Tree W} {K : Kernel W} {CV : Contents W} {CL : ContentLaws W}.
Context (view_of : W -> view) {SV : SharedWorld W view_of}.
Implicit Types (q : queue W) (l : loop W).

Definition vq q : view := view_of (o_world (qu_os q)).

(** The descriptors of a queue that are open are the kernel's, each has a number of its
    own, and none has that of an open directory. *)
Record files_open q : Prop := {
  fo_open : forall p f, qu_qfds q !! p = Some f -> 2 < q_fd f -> kv_open (qview q) !! q_fd f = Some (q_path f);
  fo_inj : forall p p' f f', qu_qfds q !! p = Some f -> qu_qfds q !! p' = Some f' ->
    2 < q_fd f -> q_fd f = q_fd f' -> p = p';
  fo_plain : forall p f, qu_qfds q !! p = Some f -> flag_set (q_oflag f) O_DIRECTORY = false;
  fo_apart : forall p f, qu_qfds q !! p = Some f -> 2 < q_fd f -> v_open (vq q) !! q_fd f = None;
  fo_dirs : forall fd, is_Some (v_open (vq q) !! fd) -> is_Some (kv_open (qview q) !! fd);
}.

(** What is done shows to no one who reads directories. *)
Definition discreet q q' : Prop := files_open q -> files_open q' /\ vq q' = vq q.

Lemma discreet_refl q : discreet q q.
Proof. done. Qed.

Lemma discreet_trans q1 q2 q3 : discreet q1 q2 -> discreet q2 q3 -> discreet q1 q3.
Proof. intros H1 H2 H. destruct (H1 H) as [H' E1]. destruct (H2 H') as [? E2]. split; [done|congruence]. Qed.

(** The files open are the same, or fewer are known. *)
Lemma discreet_known q q' :
  (forall p f, qu_qfds q' !! p = Some f -> qu_qfds q !! p = Some f) ->
  kv_open (qview q') = kv_open (qview q) -> vq q' = vq q -> discreet q q'.
Proof.
  intros Hf Eo Ev [H1 H2 H3 H4 H5]. split; [|done]. split; rewrite ?Ev, ?Eo; try done.
  - intros p f H. by apply (H1 p f), Hf.
  - intros p p' f f' H H'. eapply (H2 p p' f f'); by apply Hf.
  - intros p f H. by apply (H3 p f), Hf.
  - intros p f H. by apply (H4 p f), Hf.
Qed.

Lemma discreet_same q q' : qu_qfds q' = qu_qfds q -> qu_os q' = qu_os q -> discreet q q'.
Proof.
  intros E1 E2. apply discreet_known; [by rewrite E1|unfold qview, world; by rewrite E2|unfold vq; by rewrite E2].
Qed.

(** A descriptor that is not open yet. *)
Lemma discreet_new p f q :
  flag_set (q_oflag f) O_DIRECTORY = false -> q_fd f <= 2 -> discreet q (set_qfds (<[p := f]> (qu_qfds q)) q).
Proof.
  intros Hfl Hle [H1 H2 H3 H4 H5]. split; [|done]. split; cbn [qu_qfds set_qfds]; try done.
  - intros p0 f0 [[<- <-]|[_ H0]]%lookup_insert_Some; [lia|by apply (H1 p0)].
  - intros p0 p1 f0 f1 [[<- <-]|[_ H0]]%lookup_insert_Some [[<- <-]|[_ H6]]%lookup_insert_Some Hlt E; try lia.
    by apply (H2 p0 p1 f0 f1).
  - intros p0 f0 [[<- <-]|[_ H0]]%lookup_insert_Some; [done|by apply (H3 p0)].
  - intros p0 f0 [[<- <-]|[_ H0]]%lookup_insert_Some; [lia|by apply (H4 p0)].
Qed.

(** A file is opened: its number is new. *)
Lemma discreet_open p q x q' : doOpen p q = Ok (x, q') -> discreet q q'.
Proof.
  intros (f & r & o & Hf & Ho & ->)%doOpen_inv HF. pose proof HF as [H1 H2 H3 H4 H5].
  pose proof (H3 p f Hf) as Hfl.
  assert (view_of (o_world o) = vq q) as Hv
    by (eapply (opens_view view_of); [apply sw_open_file|exact Hfl|right; by eexists]).
  destruct (myOpen_view _ _ _ _ _ _ Ho) as [_ Hx]. cbv zeta in Hx.
  change (kview_of (o_world (qu_os q))) with (qview q) in Hx. destruct r as [e|fd].
  - by apply (discreet_known q (set_os o q)).
  - destruct Hx as (Hfd & Hno & Eo). split; [|exact Hv].
    assert (forall p0 f0, qu_qfds q !! p0 = Some f0 -> 2 < q_fd f0 -> q_fd f0 <> fd) as Hne.
    { intros p0 f0 H0 Hlt E. specialize (H1 p0 f0 H0 Hlt). congruence. }
    set (q' := set_qfds _ _). assert (kv_open (qview q') = <[fd := q_path f]> (kv_open (qview q))) as E by exact Eo.
    assert (vq q' = vq q) as Ev by exact Hv.
    split; rewrite ?E, ?Ev; cbn [qu_qfds q' set_qfds].
    + intros p0 f0 [[<- <-]|[_ H0]]%lookup_insert_Some Hlt; cbn; [by rewrite lookup_insert_eq|].
      rewrite lookup_insert_ne; [by apply (H1 p0)|]. intros E0. by apply (Hne p0 f0 H0).
    + intros p0 p1 f0 f1 [[<- <-]|[_ H0]]%lookup_insert_Some [[<- <-]|[_ H6]]%lookup_insert_Some Hlt E0; cbn in *;
        [done|exfalso; by apply (Hne p1 f1 H6); [rewrite <- E0|]|exfalso; by apply (Hne p0 f0 H0)|by apply (H2 p0 p1 f0 f1)].
    + intros p0 f0 [[<- <-]|[_ H0]]%lookup_insert_Some; [done|by apply (H3 p0)].
    + intros p0 f0 [[<- <-]|[_ H0]]%lookup_insert_Some Hlt; [|by apply (H4 p0)]. cbn.
      apply eq_None_not_Some. intros [? Hs]%H5. congruence.
    + intros d [pa Hd]%H5. destruct (decide (d = fd)) as [->|Hn]; [by rewrite lookup_insert_eq|].
      rewrite lookup_insert_ne by done. by exists pa.
Qed.

(** A file is closed: no other has its number. *)
Lemma discreet_close p x q y q' : close_one p x q = Ok (y, q') -> discreet q q'.
Proof.
  intros (f & Hf & [->|(Hlt & r & o & n & Hc & ->)])%close_one_inv HF; [done|]. pose proof HF as [H1 H2 H3 H4 H5].
  pose proof (H4 p f Hf Hlt) as Hap. pose proof (H3 p f Hf) as Hfl.
  pose proof (myClose_view _ _ _ _ Hc) as Ho. change (kview_of (o_world (qu_os q))) with (qview q) in Ho.
  set (q' := set_fdsUsed _ _). assert (kv_open (qview q') = delete (q_fd f) (kv_open (qview q))) as E
    by (change (qview q') with (kview_of (o_world o)); by rewrite Ho).
  assert (vq q' = vq q) as Ev.
  { change (vq q') with (view_of (o_world o)). unfold myClose, sys_close, syscall, bind in Hc.
    destruct (f_close _ _) as [[w v] e] eqn:Hcl. apply (sw_close_file (o_world (qu_os q)) _ _ _ _ Hap) in Hcl.
    by destruct (v <? 0); injection Hc as _ <-. }
  split; [|done]. split; rewrite ?E, ?Ev; cbn [qu_qfds q' set_qfds set_fdsUsed].
  - intros p0 f0 [[<- <-]|[Hne H0]]%lookup_insert_Some Hlt0; [cbn in Hlt0; unfold CLOSED_VAL in Hlt0; lia|].
    rewrite lookup_delete_ne; [by apply (H1 p0)|]. intros E0. by apply Hne, (H2 p p0 f f0).
  - intros p0 p1 f0 f1 [[<- <-]|[_ H0]]%lookup_insert_Some [[<- <-]|[_ H6]]%lookup_insert_Some Hlt0 E0;
      cbn in *; unfold CLOSED_VAL in *; try lia. by apply (H2 p0 p1 f0 f1).
  - intros p0 f0 [[<- <-]|[_ H0]]%lookup_insert_Some; [done|by apply (H3 p0)].
  - intros p0 f0 [[<- <-]|[_ H0]]%lookup_insert_Some Hlt0; [cbn in Hlt0; unfold CLOSED_VAL in Hlt0; lia|by apply (H4 p0)].
  - intros d Hd. rewrite lookup_delete_ne; [by apply H5|]. intros <-. rewrite Hap in Hd. by destruct Hd.
Qed.

#[export] Instance discreet_moves this : Moves this discreet.
Proof.
  split.
  - apply discreet_refl.
  - apply discreet_trans.
  - intros q q' E1 _ _ E4. by apply discreet_same.
  - intros q r. by apply discreet_same.
  - intros q. by apply discreet_same.
  - intros q b h _. by apply discreet_same.
  - intros q p f _ _. apply discreet_known; [|done|done]. intros p0 f0 H. cbn in H. by apply lookup_delete_Some in H as [_ ?].
  - intros q p f x q' _ _. apply discreet_open.
  - intros q p x y q'. apply discreet_close.
Qed.

(** ** The ring *)

Definition seen (w : W) := (view_of w, kv_open (kview_of w)).

Lemma seen_enter w r fd sub mn fl a sz w' r' v e :
  sys_enter w r fd sub mn fl a sz = (w', r', v, e) -> seen w' = seen w.
Proof. intros H. unfold seen. by destruct (sw_enter _ _ _ _ _ _ _ _ _ _ _ _ H) as [-> ->]. Qed.

Lemma discreet_ring {A} (m : prog (ust W) A) q a q' :
  apart_from seen m -> on_ring m q = Ok (a, q') -> discreet q q'.
Proof.
  intros Hm H. unfold on_ring in H. set (s := mk_ust _ _ _) in H.
  destruct (m s) as [[b s']| |] eqn:E; [|done..]. injection H as _ <-. injection (Hm _ _ _ E) as Ev Eo.
  by apply discreet_known.
Qed.

(** ** What the others do *)

(** A step of the submit thread, or of the kernel by itself. *)
Inductive other_step (rand : Z -> Z) l l' : Prop :=
  | other_start fuel v : add_one no_forcing rand fuel l = Ok (v, l') -> other_step rand l l'
  | other_enter v : on_cq (on_queue (on_ring io_uring_submit)) l = Ok (v, l') -> other_step rand l l'
  | other_complete fuel b : complete_one no_forcing fuel l = Ok (b, l') -> other_step rand l l'
  | other_kernel n cs rg o :
      kernel_serves n cs (qu_ring (lq l)) rg (qview (lq l)) (kview_of (o_world o)) ->
      view_of (o_world o) = vq (lq l) ->
      l' = lp_set_queue (set_qring rg (set_os o (lq l))) l -> other_step rand l l'.

(** The state of the queue and the addresses. *)
Definition steady l l' : Prop :=
  cq_state (lp_cq l') = cq_state (lp_cq l) /\ next_addr (lp_cq l') = next_addr (lp_cq l).

#[export] Instance steady_rel : LoopRel steady.
Proof. split; unfold steady; [done|intros l1 l2 l3 [-> ->] [-> ->]; done|done|done]. Qed.

Record others_did l l' : Prop := {
  od_loop : loop_ok 0 0 [] NotAdding l';
  od_steady : steady l l';
  od_heap : geometry (qu_heap (lq l)) (qu_heap (lq l'));
  od_discreet : discreet (lq l) (lq l');
}.

Lemma other_step_did rand l l' :
  loop_ok 0 0 [] NotAdding l -> other_step rand l l' -> others_did l l'.
Proof.
  intros Hl Hs. destruct Hs as [fuel v H|v H|fuel b H|n cs rg o H Hv ->].
  - split.
    + apply (sys_step_ok no_forcing rand l NotAdding); [done|by eapply submit_start].
    + exact (reports_add_one no_forcing rand fuel l v l' H).
    + eapply (sys_step_geometry no_forcing rand l NotAdding); [done|by eapply submit_start].
    + destruct (add_one_parts _ _ _ _ _ _ _ Hl H) as [->|(this & h & l1 & _ & E1 & _ & _ & Hd)]; [apply discreet_refl|].
      destruct (Hd discreet _) as [Hk _]. eapply discreet_trans, Hk. rewrite E1. by apply discreet_same.
  - split.
    + apply (sys_step_ok no_forcing rand l NotAdding); [done|by eapply submit_enter].
    + exact (reports_queue _ l v l' H).
    + eapply (sys_step_geometry no_forcing rand l NotAdding); [done|by eapply submit_enter].
    + apply lift_inv in H as (q & H & ->). by eapply discreet_ring, H; apply (apart_submit _ seen_enter).
  - split.
    + apply (sys_step_ok no_forcing rand l NotAdding); [done|by eapply submit_complete].
    + exact (reports_complete_one no_forcing fuel l b l' H).
    + eapply (sys_step_geometry no_forcing rand l NotAdding); [done|by eapply submit_complete].
    + apply complete_one_parts in H as (err & cqe & q1 & H1 & H).
      apply (discreet_ring _ _ _ _ (apart_peek _ seen_enter fuel)) in H1. destruct (err =? 0); [|by subst l'].
      destruct H as (slot & e & this & t & l2 & -> & _ & _ & H2 & ->). cbv zeta.
      destruct (drifts_completion no_forcing this discreet _ _ _ _ _ H2) as [Hk _].
      eapply discreet_trans; [exact H1|]. eapply discreet_trans; [exact Hk|]. by apply discreet_same.
  - split; [by destruct Hl|done|apply geometry_refl|]. apply discreet_known; [done| |exact Hv].
    exact (serves_open _ _ _ _ _ _ H).
Qed.

Lemma others_did_all rand l l' :
  loop_ok 0 0 [] NotAdding l -> rtc (other_step rand) l l' -> others_did l l'.
Proof.
  intros Hl Hs. induction Hs as [l|l l1 l2 H Hs IH].
  - split; [done|apply lr_refl|apply geometry_refl|apply discreet_refl].
  - destruct (other_step_did _ _ _ Hl H) as [A1 A2 A3 A4]. destruct (IH A1) as [B1 B2 B3 B4].
    split; [done|by eapply lr_trans|by eapply geometry_trans|by eapply discreet_trans].
Qed.

(** They are steps of the system of DataSystem.v, whatever the main thread does. *)
Lemma others_data rand h0 J l l' x :
  rtc (other_step rand) l l' -> data_steps rand h0 J (l, x) (l', x).
Proof.
  intros Hs. induction Hs as [l|l l1 l2 H Hs IH]; [apply data_refl|]. eapply data_next, IH.
  destruct H as [fuel v H|v H|fuel b H|n cs rg o H Hv ->].
  - by eapply data_start.
  - by eapply data_enter.
  - by eapply data_complete.
  - by eapply data_kernel.
Qed.
End discreet.

(** ** The queue, while others work on it *)

Section busy_queue.
Context {W : Type} {T : Tree W} (other : nat -> loop W -> loop W) (jobFuel : nat) (i1 i2 : bool).

(** The next call of the main thread, after what the others do meanwhile. *)
Definition after_others {A} (m : prog (loop W) A) : prog (loop W * nat) A :=
  fun s => map_res (fun l => (l, S (snd s))) (m (other (snd s) (fst s))).

Definition busy_sink : Sink (loop W * nat) W := {|
  s_os A m := after_others (on_cq (on_queue (with_os m)));
  s_onError e := after_others (on_cq (onError e));
  s_addCopyJob a b st := after_others (on_cq (addCopyJob jobFuel i1 i2 a b st));
|}.

(** The files added, and the errors the traversal reports; the others may report more. *)
Definition noted : Type := list (string * string * statx) * list Error.

Definition noted_sink : Sink (loop W * nat * noted) W := {|
  s_os A m := on_fst (s_os (Sink := busy_sink) m) id;
  s_onError e := on_fst (s_onError (Sink := busy_sink) e) (fun g => (g.1, g.2 ++ [e]));
  s_addCopyJob a b st :=
    on_fst (s_addCopyJob (Sink := busy_sink) a b st) (fun g => (g.1 ++ [(a, b, st)], g.2));
|}.

Lemma erase_notes n from dest :
  commutes fst (addRecursiveCopy (Q := noted_sink) n from dest) (addRecursiveCopy (Q := busy_sink) n from dest).
Proof. apply commutes_addRecursiveCopy; intros; apply erase_ghost. Qed.
End busy_queue.

Section adding.
Context {W : Type} {T : Tree W} {K : Kernel W} {CV : Contents W} {CL : ContentLaws W}.
Context (view_of : W -> view) {SV : SharedWorld W view_of}.

(** Adding files opens no directory. *)
Definition discreetly {A} (m : prog (cqueue W) A) : Prop :=
  forall c a c', m c = Ok (a, c') -> discreet view_of (cq_queue c) (cq_queue c').

Lemma discreetly_ret {A} (a : A) : discreetly (ret a).
Proof. intros c b c' [= _ <-]. apply discreet_refl. Qed.

Lemma discreetly_nofuel {A} : discreetly (A := A) no_fuel.
Proof. by intros c b c' [=]. Qed.

Lemma discreetly_gets {A} (f : cqueue W -> A) : discreetly (gets f).
Proof. intros c b c' [= _ <-]. apply discreet_refl. Qed.

Lemma discreetly_assert b : discreetly (assert b).
Proof. intros c u c' H. apply assert_inv in H as [_ ->]. apply discreet_refl. Qed.

Lemma discreetly_bind {A B} (m : prog (cqueue W) A) (k : A -> prog (cqueue W) B) :
  discreetly m -> (forall a, discreetly (k a)) -> discreetly (bind m k).
Proof.
  intros Hm Hk c b c' H. apply bind_inv in H as (a & c1 & H1 & H2).
  eapply discreet_trans; [by eapply Hm|by eapply Hk].
Qed.

Lemma discreetly_fresh : discreetly fresh.
Proof. intros c a c' H. apply fresh_run in H as [-> ->]. apply discreet_refl. Qed.

Lemma discreetly_qfd i p path oflag mode :
  flag_set oflag O_DIRECTORY = false -> discreetly (on_queue (new_qfd i p path oflag mode)).
Proof.
  intros Hfl c [] c' H. apply on_queue_inv in H as (q & H & ->). cbn [cq_queue cq_set_queue].
  apply bind_inv in H as ([] & q1 & H1 & H). injection H1 as <-. apply bind_inv in H as (b & q2 & H2 & H).
  apply (moves_reserve 0 (discreet view_of)) in H2.
  eapply discreet_trans; [by apply (discreet_new view_of p (mk_qfd path oflag mode NEVER_OPENED_VAL))|].
  eapply discreet_trans; [exact H2|]. destruct b.
  - apply bind_inv in H as (x & q3 & H3 & H). apply (discreet_open view_of) in H3.
    by apply ret_inv in H as [_ ->].
  - injection H as <-. apply discreet_refl.
Qed.

Lemma discreetly_tracker t n :
  discreetly (on_queue (modify (fun q => set_chunks (<[t := n]> (qu_chunks q)) q))).
Proof. intros c [] c' H. apply on_queue_inv in H as (q & H & ->). apply modify_inv in H as ->. by apply discreet_same. Qed.

Lemma discreetly_part sfd dfd o s al t : discreetly (addCopyJobPart sfd dfd o s al t).
Proof.
  intros c [] c' H. apply part_inv in H. cbv zeta in H.
  destruct H as (_ & E1 & _ & E2 & _). by apply discreet_same.
Qed.

Create HintDb discreetly.
#[local] Hint Resolve discreetly_ret discreetly_nofuel discreetly_gets discreetly_assert discreetly_fresh
  discreetly_tracker discreetly_part : discreetly.

Ltac discreetly :=
  repeat first
    [ progress intros
    | solve [auto with discreetly]
    | apply discreetly_bind
    | (apply discreetly_qfd; reflexivity)
    | match goal with |- discreetly (if ?b then _ else _) => destruct b end ].

Lemma discreetly_part_loop fuel sfd dfd total cs al t i o :
  discreetly (part_loop fuel sfd dfd total cs al t i o).
Proof. revert i o. induction fuel as [|n IH]; intros i o; cbn [part_loop]; discreetly. Qed.
#[local] Hint Resolve discreetly_part_loop : discreetly.

Lemma discreetly_addCopyJob fuel i1 i2 a b st : discreetly (addCopyJob fuel i1 i2 a b st).
Proof. unfold addCopyJob, add_parts. discreetly. Qed.

(** The runners alive have different addresses, all of them handed out. *)
Lemma alive_covered (l : loop W) : loop_ok 0 0 [] NotAdding l -> covered (lp_cq l).
Proof.
  intros Hl. pose proof (alive_exact l Hl) as E. destruct Hl as [(_ & _ & _ & [F1 F2 _ _ F5]) _ _ _].
  unfold covered. change (cq_queue (lp_cq l)) with (lq l). rewrite E. split; [lia|].
  assert (dom (qu_runners (lq l)) ⊆ list_to_set (seqZ 1 (next_addr (lp_cq l) - 1))) as Hd.
  { intros a [r Ha]%elem_of_dom. apply elem_of_list_to_set, elem_of_seqZ. pose proof (shape_owner _ _ _ Ha) as Ho.
    destruct (Z_le_gt_dec a 0); [by rewrite F5 in Ho|].
    destruct (Z_le_gt_dec (next_addr (lp_cq l)) a); [by rewrite F2 in Ho|]. lia. }
  apply subseteq_size in Hd. rewrite size_dom, size_list_to_set, length_seqZ in Hd by apply NoDup_seqZ. lia.
Qed.
End adding.

(** ** What the queue keeps meanwhile *)

(** The addresses that files take. *)
Fixpoint addresses (h0 : Heap.heap) (js : list Contents.job) : Z :=
  match js with
  | [] => 0
  | j :: js => 3 + zlen (plan h0 (job_st j)) + addresses h0 js
  end.

Lemma addresses_app h0 l1 l2 : addresses h0 (l1 ++ l2) = addresses h0 l1 + addresses h0 l2.
Proof. induction l1 as [|j l1 IH]; [done|]. cbn [app addresses]. rewrite IH. lia. Qed.

Lemma addresses_pos h0 js : 0 <= addresses h0 js.
Proof. induction js as [|j js IH]; cbn; unfold zlen; lia. Qed.

(** The directories of [D] are open. *)
Definition opened (D : list Z) (v : view) : Prop := dom (v_open v) = list_to_set D /\ (length D <= 1)%nat.

Lemma opened_none v : v_open v = ∅ -> forall D, opened D v -> D = [].
Proof. intros E [|d D] [H _]; [done|]. rewrite E, dom_empty_L in H. cbn in H. set_solver. Qed.

Lemma opened_one v d D : is_Some (v_open v !! d) -> opened D v -> D = [d].
Proof.
  intros Hd [H Hl]. apply elem_of_dom in Hd. rewrite H, elem_of_list_to_set in Hd.
  destruct D as [|x [|y D]]; cbn in Hl; [set_solver| |lia]. by apply list_elem_of_singleton in Hd as ->.
Qed.

Section busy_laws.
Context {W : Type} {T : Tree W} {K : Kernel W} {CV : Contents W} {CL : ContentLaws W} {TC : TreeContents W kview_of}.
Context (src : string -> option node) (view_of : W -> view) {L : TreeLaws W src view_of} {SV : SharedWorld W view_of}
  {TD : TreeContents W (fun w => dom (v_open (view_of w)))}.
Context (rand : Z -> Z) (jobFuel : nat) (i1 i2 : bool).
Context (other : nat -> loop W -> loop W) (Hother : forall k l, rtc (other_step view_of rand) l (other k l)).
Context (h0 : Heap.heap) (v0 : kview) (J : list Contents.job) (HJ : jobs_ok h0 v0 J).
Context (l0 : loop W) (Hl0 : loop_ok 0 0 [] NotAdding l0).
Context (Hroom : next_addr (lp_cq l0) + addresses h0 J + Z.of_nat jobFuel + 4 < 2 ^ 32).
Implicit Types (l : loop W) (js : list Contents.job).

(** The files [js] were added, by steps of the system from [l0]. *)
Record busy_with js l : Prop := {
  bw_adding : adding (lp_cq l) = true;
  bw_heap : geometry h0 (qu_heap (lq l));
  bw_next : next_addr (lp_cq l) = next_addr (lp_cq l0) + addresses h0 js;
  bw_files : files_open view_of (lq l);
  bw_steps : exists D, opened D (vq view_of (lq l)) /\
    data_steps rand h0 J (l0, (Between 0, [])) (l, (Between (length js), D));
}.

Lemma busy_loop js l : busy_with js l -> loop_ok 0 0 [] NotAdding l.
Proof. intros [_ _ _ _ (D & _ & Hs)]. exact (data_steps_loop_ok rand h0 v0 J HJ _ _ Hs Hl0). Qed.

Lemma busy_others js l k :
  busy_with js l -> busy_with js (other k l) /\ vq view_of (lq (other k l)) = vq view_of (lq l).
Proof.
  intros B. pose proof (busy_loop _ _ B) as Hl. destruct B as [B1 B2 B3 B4 (D & B5 & B6)].
  destruct (others_did_all view_of rand _ _ Hl (Hother k l)) as [O1 [O2 O3] O4 O5].
  destruct (O5 B4) as [O6 Ev]. split; [|done]. split; [by unfold adding in *; rewrite O2| |congruence|done|].
  - by eapply geometry_trans.
  - exists D. rewrite Ev. split; [done|]. eapply data_steps_trans; [exact B6|]. by eapply others_data.
Qed.

(** The calls of the traversal leave the numbers of the files alone. *)
Lemma files_call (q : queue W) o :
  files_open view_of q ->
  (forall fd, v_open (vq view_of q) !! fd = None -> is_Some (kv_open (qview q) !! fd) ->
     kv_open (kview_of (o_world o)) !! fd = kv_open (qview q) !! fd /\ v_open (view_of (o_world o)) !! fd = None) ->
  (forall fd, is_Some (v_open (view_of (o_world o)) !! fd) -> is_Some (kv_open (kview_of (o_world o)) !! fd)) ->
  files_open view_of (set_os o q).
Proof.
  intros [H1 H2 H3 H4 H5] Hk Hd. split; try done.
  - intros p f Hf Hlt. pose proof (H1 p f Hf Hlt) as E.
    destruct (Hk (q_fd f) (H4 p f Hf Hlt)) as [E' _]; [by rewrite E|]. etrans; [exact E'|exact E].
  - intros p f Hf Hlt. apply Hk; [by apply (H4 p)|]. by rewrite (H1 p f Hf Hlt).
Qed.

Lemma call_run {A} (m : prog (ost W) A) l a l' :
  on_cq (on_queue (with_os m)) l = Ok (a, l') ->
  exists o, m (qu_os (lq l)) = Ok (a, o) /\ l' = lp_set_queue (set_os o (lq l)) l.
Proof.
  intros H. apply lift_inv in H as (q & H & ->). unfold with_os in H.
  destruct (m _) as [[x o]| |] eqn:E; [|done..]. injection H as <- <-. by exists o.
Qed.

(** Closing a directory. *)
Lemma closed_view fd o a o' :
  sys_close fd o = Ok (a, o') ->
  kview_of (o_world o') = kv_set_open (delete fd (kv_open (kview_of (o_world o)))) (kview_of (o_world o)) /\
  (is_Some (v_open (view_of (o_world o)) !! fd) ->
   v_open (view_of (o_world o')) = delete fd (v_open (view_of (o_world o)))).
Proof.
  unfold sys_close, syscall. destruct (f_close _ _) as [[w v] e] eqn:Hc. intros [= _ <-].
  split; [by apply ct_close in Hc|]. intros [es He]. destruct (law_close _ _ _ He) as (w' & e' & Hc' & Hv).
  rewrite Hc in Hc'. injection Hc' as -> _ _. cbn [o_world]. by rewrite Hv.
Qed.

Lemma opened_view path oflag v v' :
  flag_set oflag O_TRUNC = false -> open_effect path oflag v v' -> quiet_view v v'.
Proof. intros Ht [H1 H2 H3 H4]. split; try done. intros p. apply H4. by right. Qed.

(** The calls of the traversal, one by one. *)
Lemma busy_call js l A (m : prog (ost W) A) a l' :
  busy_with js l -> tree_call src (vq view_of (lq l)) A m -> on_cq (on_queue (with_os m)) l = Ok (a, l') ->
  busy_with js l'.
Proof.
  intros [B1 B2 B3 B4 (D & B5 & B6)] Hm H. pose proof (call_run _ _ _ _ H) as (o & Ho & E). subst l'.
  set (l' := lp_set_queue _ l) in *. pose proof B5 as [B5d B5l].
  assert (forall D', opened D' (view_of (o_world o)) ->
    files_open view_of (set_os o (lq l)) ->
    data_step rand h0 J (l, (Between (length js), D)) (l', (Between (length js), D')) -> busy_with js l') as Hdone.
  { intros D' HD' Hf Hs. split; try done. exists D'. split; [done|]. eapply data_steps_trans; [exact B6|].
    eapply data_next; [exact Hs|apply data_refl]. }
  destruct Hm as [A m Hw|p es Hp Hno|fd Hfd].
  - pose proof (still_walk_call kview_of A m Hw _ _ _ Ho) as Ek.
    pose proof (still_walk_call (fun w => dom (v_open (view_of w))) A m Hw _ _ _ Ho) as Ed. cbv beta in Ed.
    change (kview_of (o_world (qu_os (lq l)))) with (qview (lq l)) in Ek.
    change (view_of (o_world (qu_os (lq l)))) with (vq view_of (lq l)) in Ed.
    apply (Hdone D).
    + split; [by rewrite Ed|done].
    + apply files_call; [done|..]; intros d.
      * intros Hd _. rewrite Ek. split; [done|]. apply not_elem_of_dom. rewrite Ed. by apply not_elem_of_dom.
      * rewrite Ek, <- elem_of_dom, Ed, elem_of_dom. by apply fo_dirs.
    + eapply data_call; [exact H| |]; change (qview (lq l')) with (kview_of (o_world o)); by rewrite Ek.
  - assert (D = []) as -> by (by eapply opened_none).
    destruct (open_dir_ok src view_of p es (qu_os (lq l)) Hp Hno) as (o2 & fd & Ho2 & _ & Ev).
    rewrite Ho in Ho2. injection Ho2 as -> <-. change (vw view_of (qu_os (lq l))) with (vq view_of (lq l)) in Ev.
    rewrite Hno in Ev. destruct (myOpen_view _ _ _ _ _ _ Ho) as [Hq (Hfd & Hnk & Ek)].
    change (kview_of (o_world (qu_os (lq l)))) with (qview (lq l)) in Hq, Hnk, Ek.
    assert (v_open (view_of (o_world o)) = {[fd := es]}) as Eo by exact (f_equal v_open Ev).
    apply (Hdone [fd]).
    + split; [rewrite Eo, dom_singleton_L; cbn; set_solver|done].
    + apply files_call; [done|..]; intros d.
      * intros _ [x Hx]. assert (fd <> d) by congruence. by rewrite Ek, Eo, lookup_insert_ne, lookup_singleton_ne.
      * rewrite Eo, Ek. intros [x [<- _]%lookup_singleton_Some]. by rewrite lookup_insert_eq.
    + by eapply data_open; [exact H|eapply (opened_view p dir_flags), Hq|lia|exact Hnk|exact Ek].
  - assert (D = [fd]) as -> by (by eapply opened_one).
    destruct (closed_view _ _ _ _ Ho) as [Ek Eo]. specialize (Eo Hfd).
    change (kview_of (o_world (qu_os (lq l)))) with (qview (lq l)) in Ek.
    change (view_of (o_world (qu_os (lq l)))) with (vq view_of (lq l)) in Eo.
    apply (Hdone []).
    + split; [rewrite Eo, dom_delete_L, B5d; cbn; set_solver|cbn; lia].
    + apply files_call; [done|..]; intros d; rewrite Eo, Ek; cbn [kv_open kv_set_open].
      * intros Hd _. assert (fd <> d) by (intros <-; rewrite Hd in Hfd; by destruct Hfd).
        by rewrite !lookup_delete_ne.
      * intros [x [Hne Hx]%lookup_delete_Some]. rewrite lookup_delete_ne by done. eapply fo_dirs; [exact B4|by exists x].
    + by eapply data_close; [exact H|change (qview (lq l')) with (kview_of (o_world o)); rewrite Ek|
        exact (f_equal kv_open Ek)].
Qed.

Lemma busy_report js l e :
  busy_with js l -> exists l', on_cq (onError e) l = Ok (tt, l') /\ busy_with js l' /\ lq l' = lq l.
Proof.
  intros [B1 B2 B3 B4 (D & B5 & B6)]. exists (lp_set_cq (cq_add_error e (lp_cq l)) l). split; [done|]. split; [|done].
  split; try done. exists D. split; [done|]. eapply data_steps_trans; [exact B6|].
  eapply data_next; [|apply data_refl]. by apply (data_error _ _ _ _ _ _ e).
Qed.

(** The next file. *)
Lemma busy_file js j l :
  busy_with js l -> js ++ [j] `prefix_of` J -> (length (plan h0 (job_st j)) <= jobFuel)%nat ->
  exists l', on_cq (addCopyJob jobFuel i1 i2 (job_src j) (job_dst j) (job_st j)) l = Ok (tt, l') /\
    busy_with (js ++ [j]) l' /\ vq view_of (lq l') = vq view_of (lq l).
Proof.
  intros B Hp Hf. pose proof (busy_loop _ _ B) as Hl. destruct B as [B1 B2 B3 B4 (D & B5 & B6)].
  assert (J !! length js = Some j) as Hj.
  { destruct Hp as [rest ->]. by rewrite <- app_assoc, lookup_app_r, Nat.sub_diag. }
  assert (plannable h0 (job_st j)) as Hpl by (eapply (jb_plan _ _ _ HJ), list_elem_of_lookup_2, Hj).
  pose proof (plan_geometry h0 (qu_heap (lq l)) (job_st j) B2) as Epl.
  assert (addresses h0 (js ++ [j]) <= addresses h0 J) as Ha.
  { destruct Hp as [rest ->]. rewrite (addresses_app h0 (js ++ [j])). pose proof (addresses_pos h0 rest). lia. }
  destruct (addCopyJob_ok jobFuel i1 i2 (job_src j) (job_dst j) (job_st j) (lp_cq l) B1) as (c' & H & A).
  { destruct Hpl as [?|Hpl]; [by left|right]. eapply geometry_job; [exact B2| |exact Hpl].
    by destruct Hl as [(_ & _ & [] & _) _ _ _]. }
  { change (cq_queue (lp_cq l)) with (lq l). by rewrite Epl. }
  exists (lp_set_cq c' l). split; [unfold on_cq; by rewrite H|].
  destruct (discreetly_addCopyJob view_of _ _ _ _ _ _ _ _ _ H B4) as [Hfo Ev]. split; [|exact Ev].
  assert (next_addr c' = next_addr (lp_cq l0) + addresses h0 (js ++ [j])) as En.
  { rewrite (ja_next _ _ _ _ _ A), B3, addresses_app. change (cq_queue (lp_cq l)) with (lq l). rewrite Epl.
    cbn [addresses]. lia. }
  split; [unfold adding in *; cbn; by rewrite (ja_state _ _ _ _ _ A)| |exact En|exact Hfo|].
  - unfold lq. cbn [lp_cq lp_set_cq]. by rewrite (ja_heap _ _ _ _ _ A).
  - exists D. change (lq (lp_set_cq c' l)) with (cq_queue c'). rewrite Ev. split; [done|].
    eapply data_steps_trans; [exact B6|]. rewrite length_app, Nat.add_1_r. pose proof (alive_covered l Hl) as [R1 R2].
    eapply (addCopyJob_data rand h0 J (length js) j Hj D jobFuel i1 i2 l c'); [done|done| |exact H].
    rewrite addresses_app in Ha. cbn [addresses] in Ha. unfold zlen in Ha. unfold lq in *. split; unfold lq; lia.
Qed.

(** ** The laws of the traversal *)

Definition noted_inv (s : loop W * nat * noted) : Prop := busy_with (to_job <$> s.2.1) s.1.1.
Definition noted_os (s : loop W * nat * noted) : ost W := qu_os (lq s.1.1).

Lemma after_ok {A} (m : prog (loop W) A) (upd : noted -> noted) l k g a l' :
  m (other k l) = Ok (a, l') -> on_fst (after_others other m) upd (l, k, g) = Ok (a, (l', S k, upd g)).
Proof. intros H. unfold on_fst, after_others. cbn [fst snd]. by rewrite H. Qed.

#[export] Instance noted_laws :
  BusySinkLaws (Q := noted_sink other jobFuel i1 i2) (loop W * nat * noted) W src view_of (fits jobFuel h0)
    (fun fs => (to_job <$> fs) `prefix_of` J) noted_inv noted_os (fun s => s.2.1) (fun s => s.2.2).
Proof.
  split.
  - intros fs1 fs2 Hp. etrans; [|exact Hp]. rewrite fmap_app. by eexists.
  - intros A m [[l k] [fs es]] P B Hm Hok. destruct (busy_others _ _ k B) as [B1 Ev].
    destruct (Hok (qu_os (lq (other k l))) Ev) as (a & o & Ho & HP).
    assert (on_cq (on_queue (with_os m)) (other k l) = Ok (a, lp_set_queue (set_os o (lq (other k l))) (other k l))) as H.
    { unfold on_cq, on_queue, with_os. change (cq_queue (lp_cq (other k l))) with (lq (other k l)). by rewrite Ho. }
    eexists a, (_, S k, (fs, es)). split; [by apply after_ok|].
    split; [|done]. eapply busy_call; [exact B1| |exact H].
    change (vq view_of (lq (other k l))) with (vq view_of (lq (other k l))). rewrite Ev. exact Hm.
  - intros e [[l k] [fs es]] B. destruct (busy_others _ _ k B) as [B1 Ev].
    destruct (busy_report _ _ e B1) as (l' & H & B2 & Eq).
    exists (l', S k, (fs, es ++ [e])). split; [by apply after_ok|].
    split; [done|]. split; [|done]. unfold noted_os. cbn [fst snd]. rewrite Eq. exact Ev.
  - intros a b st [[l k] [fs es]] B [_ Hf] Hp. destruct (busy_others _ _ k B) as [B1 Ev]. cbn [fst snd] in *.
    rewrite fmap_app in Hp. destruct (busy_file _ (mk_job a b st) _ B1 Hp Hf) as (l' & H & B2 & Ev2).
    exists (l', S k, (fs ++ [(a, b, st)], es)). split; [by apply after_ok|].
    split; [unfold noted_inv; cbn [fst snd]; by rewrite fmap_app|]. split; [|done].
    unfold noted_os. cbn [fst snd]. change (vq view_of (lq l') = vq view_of (lq l)). congruence.
Qed.
End busy_laws.
