(* ===== verification/CopyTree.v ===== *)
(** * Copying a tree (src/src/CopyQueue.cpp)

    What [addRecursiveCopy] leaves in the copy queue, and what it does when a directory
    cannot be read. *)

From stdpp Require Import gmap strings.
From S2P Require Import Prelude Abi Prep RingBuf Ring Kernel Queue Os SimOs Util Heap Eta CopyState FileDesc Runner RunnerData RunnerLive RunnerSpec CopyQueue CopyJob FileTree TraverseSpec TreeQueue TreeWorld.
Import Eta.Rolling Eta.ETA.

(** The traversal against its interfaces. *)
Lemma recursive_copy_ok {S W} {T : Tree W} {Q : Sink S W} src view_of
    {L : TreeLaws W src view_of} fits room k_inv k_os k_jobs k_errors
    {K : BusySinkLaws S W src view_of fits room k_inv k_os k_jobs k_errors} fuel (from dest : string) es s :
  from <> ""%string -> dest <> ""%string -> 1024 * Z.of_nat fuel < 2 ^ 61 ->
  (weight (NDir es) <= fuel)%nat -> shows src fits fuel (with_slash from) (NDir es) -> k_inv s ->
  v_open (view_of (o_world (k_os s))) = ∅ ->
  let acts := MakeDir (with_slash dest) ::
    visit (with_slash from) (with_slash dest) "" (NDir es) in
  room (sw_jobs (foldl perform (sh view_of k_os k_jobs k_errors s) acts)) ->
  exists s', addRecursiveCopy fuel from dest s = Ok (tt, s') /\ k_inv s' /\
    sh view_of k_os k_jobs k_errors s' = foldl perform (sh view_of k_os k_jobs k_errors s) acts.
Proof.
  intros Hf Hd Hfuel Hw Hs Hi Hno acts Hroom. unfold addRecursiveCopy.
  rewrite (bind_ok _ _ s tt s) by (unfold assert; by rewrite !bool_decide_eq_false_2).
  destruct (os_step src view_of fits k_inv k_os k_jobs k_errors room (recursiveMkdir (with_slash dest)) s tt
    (v_add_dirs (prefixes (with_slash dest))) Hi) as (s1 & H1 & Hi1 & Sh1);
    [constructor|intros o; by apply (recursiveMkdir_ok src view_of)|].
  rewrite (bind_ok _ _ _ _ _ H1).
  destruct (walk_ok src view_of fits k_inv k_os k_jobs k_errors room fuel (with_slash from) (with_slash dest)
    fuel [(""%string, es)] s1 Hfuel) as (s2 & H2 & Hi2 & Sh2).
  - constructor; [|constructor]. cbn [fst snd]. by rewrite append_nil_r.
  - unfold weight_all. cbn [sum_list_with snd]. lia.
  - unfold weight_all. cbn [sum_list_with snd]. lia.
  - done.
  - by rewrite Sh1.
  - rewrite Sh1. unfold visit_all. cbn [flat_map fst snd]. by rewrite app_nil_r.
  - exists s2. unfold paths in H2. cbn [map fst] in H2. rewrite append_nil_r in H2.
    split; [done|]. split; [done|]. rewrite Sh2, Sh1. unfold acts, visit_all. cbn [flat_map fst snd].
    by rewrite app_nil_r.
Qed.

(** ** A tree *)

Definition empty_file : statx := mk_statx 0 4096 420.

Definition demo_sub : list (string * node) := [("."%string, NDir []); ("g"%string, NFile small_file)].

Definition demo_entries : list (string * node) :=
  [("."%string, NDir []); ("f"%string, NFile small_file); ("e"%string, NFile empty_file);
   ("l"%string, NLink "f"); ("d"%string, NDir demo_sub); ("p"%string, NOther DT_FIFO)].

Definition demo_paths : list (string * node) :=
  [("s/"%string, NDir demo_entries); ("s/f"%string, NFile small_file);
   ("s/e"%string, NFile empty_file); ("s/l"%string, NLink "f"); ("s/d/"%string, NDir demo_sub);
   ("s/d/g"%string, NFile small_file)].

Definition demo_tree (p : string) : option node :=
  snd <$> list_find (fun e => fst e = p) demo_paths ≫= (fun ie => Some (snd ie)).

(** A read of a directory returns two entries. *)
#[local] Instance demo_calls : Tree tree_world := TreeCalls demo_tree 2.

Lemma demo_find p n : demo_tree p = Some n -> (p, n) ∈ demo_paths.
Proof.
  unfold demo_tree. destruct (list_find _ _) as [[i [p' n']]|] eqn:E; [|done].
  apply list_find_Some in E as (Hl & Hp & _). cbn in *. intros [= ->]. subst p'.
  by eapply list_elem_of_lookup_2.
Qed.

Definition name_ok (name : string) : bool :=
  forallb (fun b => negb (b =? 0)) (bytes_of name) && (zlen (bytes_of name) <? 65000).

Lemma name_ok_spec name : name_ok name = true -> no_nul name /\ zlen (bytes_of name) < 65000.
Proof.
  intros [H1 H2]%andb_true_iff. split; [|lia]. apply List.Forall_forall. intros b Hb.
  pose proof (proj1 (forallb_forall _ _) H1 _ Hb) as Hn. cbv beta in Hn.
  by apply negb_true_iff, Z.eqb_neq in Hn.
Qed.

Lemma demo_names : names_ok demo_tree.
Proof.
  intros p es H%demo_find. apply List.Forall_forall. intros [name n] Hin. apply name_ok_spec.
  assert (forallb (fun e => match snd e with
    | NDir es => forallb (fun e => name_ok (fst e)) es | _ => true end) demo_paths = true) as Hall
    by by vm_compute.
  apply list_elem_of_In in H. pose proof (proj1 (forallb_forall _ _) Hall _ H) as Hes.
  exact (proj1 (forallb_forall _ _) Hes _ Hin).
Qed.

#[local] Instance demo_laws : TreeLaws tree_world demo_tree (tw_view demo_tree) :=
  tree_laws demo_tree 2 demo_names ltac:(done).

Lemma demo_plain_opens : plain_opens (tw_view demo_tree).
Proof.
  intros w p oflag mode w' v e Hd H. cbn in H. rewrite Hd in H. by injection H as <- _ _.
Qed.

Definition demo_queue : cqueue tree_world :=
  mk_cqueue (set_heap small_heap (empty_queue (mk_tw ∅ ∅ []) 900 2)) 8 [] 0 eta0 false [] Running
    Return false 1.

Lemma demo_fits st : st = small_file \/ st = empty_file -> fits 2 small_heap st.
Proof.
  intros [->| ->]; (split; [|by vm_compute; lia]); [right; exact small_job_ok|by left].
Qed.

(** C11: a recursive copy plans every file of the tree, and nothing else.  On a file
    system that shows a finite tree of directories below the source, with no directory
    open and fuel for the size of the tree, addRecursiveCopy ends.  It has done what a depth-first recursion over the
    tree says: made a directory for every directory, a link with the same target for
    every symbolic link, reported an error for every entry of another type and for
    nothing else, and closed every directory it opened.  The queue holds for every
    regular file, in that order, two descriptors with its path and its destination, a
    tracker with the number of its chunks, and a runner for every chunk; these runners
    and no others have been appended to the pending copies. *)
Theorem recursive_copy_plans_files {W} {T : Tree W} src view_of {L : TreeLaws W src view_of}
    jobFuel i1 i2 fuel (from dest : string) es (c : cqueue W) :
  let h := qu_heap (cq_queue c) in
  plain_opens view_of -> adding c = true -> v_open (view_of (o_world (qu_os (cq_queue c)))) = ∅ ->
  from <> ""%string -> dest <> ""%string -> 1024 * Z.of_nat fuel < 2 ^ 61 ->
  (weight (NDir es) <= fuel)%nat ->
  shows src (fits jobFuel h) fuel (with_slash from) (NDir es) ->
  let acts := MakeDir (with_slash dest) ::
    visit (with_slash from) (with_slash dest) "" (NDir es) in
  let x := foldl perform
    (mk_shown (view_of (o_world (qu_os (cq_queue c)))) [] (errorMessages c)) acts in
  exists c', addRecursiveCopy (Q := queue_sink jobFuel i1 i2) fuel from dest c = Ok (tt, c') /\
    view_of (o_world (qu_os (cq_queue c'))) = sw_view x /\
    errorMessages c' = sw_errors x /\
    planned h (next_addr c) (sw_jobs x) c' /\
    copiesPendingStart c' = copiesPendingStart c ++ runners_of h (next_addr c) (sw_jobs x).
Proof.
  intros h Hpl Ha Hno Hf Hd Hfuel Hw Hs acts x.
  destruct (recursive_copy_ok (Q := ghost_sink jobFuel i1 i2) src view_of
    (K := busy_sink_laws (K := ghost_laws jobFuel i1 i2 h view_of c Hpl) src _ _ _ _ _ _)
    _ _ _ _ _ _ fuel from dest es (c, []) Hf Hd Hfuel Hw Hs) as ([c' g] & H & [I1 I2 I3 I4] & Sh).
  { split; try done. cbn. by rewrite app_nil_r. }
  { exact Hno. }
  { done. }
  exists c'. pose proof (erase_addRecursiveCopy jobFuel i1 i2 fuel from dest (c, [])) as He.
  rewrite H in He. split; [exact He|]. fold acts in Sh. cbn [fst snd] in I3, I4.
  assert (sh view_of ghost_os snd (fun s => errorMessages (fst s)) (c', g) = x) as Sx by exact Sh.
  rewrite <- Sx. by split_and!.
Qed.

(** Two files with bytes and one without, a link, a directory and a fifo: the second
    file with bytes is in the subdirectory. *)
Lemma recursive_copy_plans_files_witness :
  exists c', addRecursiveCopy (Q := queue_sink 2 false false) 20 "s" "t" demo_queue = Ok (tt, c') /\
    errorMessages c' = [UnhandledFileType "s/p" DT_FIFO] /\
    planned small_heap 1 [("s/f"%string, "t/f"%string, small_file);
      ("s/e"%string, "t/e"%string, empty_file); ("s/d/g"%string, "t/d/g"%string, small_file)] c' /\
    copiesPendingStart c' = [4; 5; 9; 13; 14].
Proof.
  destruct (recursive_copy_plans_files demo_tree (tw_view demo_tree) 2 false false 20 "s" "t"
    demo_entries demo_queue demo_plain_opens eq_refl eq_refl ltac:(done) ltac:(done) ltac:(by vm_compute)
    ltac:(vm_compute; lia)) as (c' & H1 & _ & H2 & H3 & H4).
  - cbn. split_and!; try done; repeat first [by left|by apply demo_fits; auto|right|split].
  - exists c'. split_and!; [exact H1|exact H2|exact H3|exact H4].
Defined.

(** ** Errors *)

Section errors.
Context {S W : Type} {T : Tree W} {Q : Sink S W} (view_of : W -> view).
Context (fits : statx -> Prop) (k_inv : S -> Prop) (k_os : S -> ost W)
  (k_jobs : S -> list (string * string * statx)) (k_errors : S -> list Error).
Context {K : SinkLaws S W view_of fits k_inv k_os k_jobs k_errors}.

(** getdents64(2) fails for good. *)
Definition getdents_fails (e : Z) : Prop :=
  forall w fd n, exists w' buf, t_getdents w fd n = (w', buf, -1, e).

Lemma myGetDents_error e fd p o :
  getdents_fails e -> e <> EINTR -> e <> EAGAIN -> e <> 0 ->
  exists o', myGetDents fd p DIR_BUFFER o = Ok (inl (CouldntOpenDirectory p e), o').
Proof.
  intros Hg H1 H2 H0. unfold myGetDents. destruct (Hg (o_world o) fd DIR_BUFFER) as (w' & buf & H).
  set (func := fun _ : list Z * Z => syscall_out (fun w => t_getdents w fd DIR_BUFFER)).
  assert (retrySyscall func ([], 0) o = Ok ((e, (buf, -1)), mk_ost w' e)) as Hr.
  { rewrite retrySyscall_eq. cbn [retry_loop].
    assert (func ([], 0) (mk_ost (o_world o) 0) = Ok ((buf, -1), mk_ost w' e)) as Hc
      by (unfold func, syscall_out; cbn [o_world]; by rewrite H).
    rewrite (bind_ok _ _ _ _ _ Hc). unfold bind, errno, gets. cbn.
    by destruct (Z.eqb_spec e EINTR), (Z.eqb_spec e EAGAIN). }
  rewrite (bind_ok _ _ _ _ _ Hr). destruct (Z.eqb_spec e 0); [done|]. by eexists.
Qed.
End errors.

(** C39: a directory whose reading fails half way is read for ever.  The [continue] after
    a failed getdents64 goes to the condition of the loop, which tests the size of the
    last read that succeeded: if that was not 0 and the error persists, the loop does
    not end, whatever the fuel, and reports the same error each time round. *)
Theorem getdents_error_livelock {S W} {T : Tree W} {Q : Sink S W} view_of fits k_inv k_os k_jobs
    k_errors {K : SinkLaws S W view_of fits k_inv k_os k_jobs k_errors}
    n fuel fd from dest current written stack e s :
  getdents_fails e -> e <> EINTR -> e <> EAGAIN -> e <> 0 -> written <> 0 -> k_inv s ->
  read_dir n fuel fd from dest current written stack s = NoFuel /\
  exists s', (do* s_os (myGetDents fd current DIR_BUFFER) in
              s_onError (CouldntOpenDirectory current e)) s = Ok (tt, s') /\
    k_errors s' = k_errors s ++ [CouldntOpenDirectory current e] /\
    read_dir (Datatypes.S n) fuel fd from dest current written stack s =
      read_dir n fuel fd from dest current written stack s'.
Proof.
  intros Hg H1 H2 H0 Hw.
  assert (forall s, k_inv s -> exists s', k_inv s' /\
    (do* s_os (myGetDents fd current DIR_BUFFER) in
     s_onError (CouldntOpenDirectory current e)) s = Ok (tt, s') /\
    k_errors s' = k_errors s ++ [CouldntOpenDirectory current e] /\
    forall n, read_dir (Datatypes.S n) fuel fd from dest current written stack s =
      read_dir n fuel fd from dest current written stack s') as Hround.
  { intros s0 Hi. destruct (myGetDents_error e fd current (k_os s0) Hg H1 H2 H0) as (o & Hm).
    destruct (sink_os _ s0 _ _ Hi Hm) as (s1 & Hs1 & Hi1 & _ & _ & He1).
    destruct (sink_error (CouldntOpenDirectory current e) s1 Hi1) as (s2 & Hs2 & Hi2 & _ & _ & He2).
    exists s2. split; [done|]. split; [by rewrite (bind_ok _ _ _ _ _ Hs1)|].
    split; [by rewrite He2, He1|]. intros k. cbn [read_dir]. rewrite (bind_ok _ _ _ _ _ Hs1).
    unfold bind at 1. rewrite (bind_ok _ _ _ _ _ Hs2). cbn [ret].
    by destruct (Z.eqb_spec written 0). }
  intros Hi. split.
  - revert s Hi. induction n as [|n IH]; intros s Hi; [done|].
    destruct (Hround s Hi) as (s' & Hi' & _ & _ & ->). by apply IH.
  - destruct (Hround s Hi) as (s' & Hi' & Hr & He & Hn). exists s'. split; [exact Hr|].
    split; [exact He|apply Hn].
Qed.

(** A tree whose directories open but cannot be read: EIO. *)
#[local] Instance broken_calls : Tree tree_world := {|
  t_files := TreeFiles demo_tree;
  t_mkdir := @t_mkdir _ demo_calls; t_stat := @t_stat _ demo_calls;
  t_statx := @t_statx _ demo_calls; t_getdents w fd n := (w, [], -1, 5);
  t_readlink := @t_readlink _ demo_calls; t_symlink := @t_symlink _ demo_calls;
|}.

Definition broken_laws := ghost_laws (T := broken_calls) 2 false false small_heap (tw_view demo_tree)
  demo_queue demo_plain_opens.

Lemma demo_ghost_inv : ghost_inv small_heap demo_queue (demo_queue, []).
Proof. by split. Qed.

Lemma getdents_error_livelock_witness :
  read_dir (T := broken_calls) (Q := ghost_sink (T := broken_calls) 2 false false) 1000 20 3
    "s/" "t/" "s/" 48 [] (demo_queue, []) = NoFuel.
Proof.
  apply (getdents_error_livelock (T := broken_calls) (Q := ghost_sink (T := broken_calls) 2 false false)
    (tw_view demo_tree) _ _ _ _ _ (K := broken_laws) 1000 20 3 "s/" "t/" "s/" 48 [] 5
    (demo_queue, [])); try done. intros w fd n. by exists w, [].
Defined.

(** A directory that cannot be opened aborts the copy, where assertions are compiled
    in: the descriptor of the scope was never opened, its destructor closes -1 and
    asserts that this succeeds. *)
Theorem unopenable_directory_aborts {S W} {T : Tree W} {Q : Sink S W} view_of fits k_inv k_os k_jobs
    k_errors {K : SinkLaws S W view_of fits k_inv k_os k_jobs k_errors}
    n fuel from dest current stack s e o w' :
  k_inv s -> (forall w : W, v_open (view_of w) !! (-1) = None -> exists w' e, f_close w (-1) = (w', -1, e)) ->
  v_open (view_of w') !! (-1) = None ->
  myOpen current dir_flags 0 (k_os s) = Ok (inl e, mk_ost w' o) ->
  walk_one n fuel from dest current stack s = Fault AssertFailed.
Proof.
  intros Hi Hc Hno Ho. destruct (sink_os _ s _ _ Hi Ho) as (s1 & H1 & Hi1 & Ho1 & _ & _).
  unfold walk_one. fold dir_flags. rewrite (bind_ok _ _ _ _ _ H1).
  destruct (sink_error e s1 Hi1) as (s2 & H2 & Hi2 & Hv2 & _ & _).
  rewrite (bind_ok _ _ _ _ _ H2). rewrite Ho1 in Hv2. cbn in Hv2.
  destruct (Hc (o_world (k_os s2))) as (w2 & e2 & Hcl); [by rewrite Hv2|].
  assert (sys_close (-1) (k_os s2) = Ok (-1, mk_ost w2 e2)) as Hsc
    by (unfold sys_close, syscall; by rewrite Hcl).
  destruct (sink_os _ s2 _ _ Hi2 Hsc) as (s3 & H3 & _).
  assert (close_scoped (-1) s2 = Fault AssertFailed) as Hf
    by (unfold close_scoped; by rewrite (bind_ok _ _ _ _ _ H3)).
  unfold bind at 1. by rewrite Hf.
Qed.

Lemma unopenable_directory_aborts_witness :
  walk_one (T := demo_calls) (Q := ghost_sink (T := demo_calls) 2 false false) 20 20
    "s/" "t/" "s/gone/" [] (demo_queue, []) = Fault AssertFailed.
Proof.
  apply (unopenable_directory_aborts (T := demo_calls) (Q := ghost_sink (T := demo_calls) 2 false false)
    (tw_view demo_tree) _ _ _ _ _
    (K := ghost_laws (T := demo_calls) 2 false false small_heap (tw_view demo_tree) demo_queue demo_plain_opens)
    20 20 "s/" "t/" "s/gone/" [] (demo_queue, []) (CouldntOpen "s/gone/" ENOENT) ENOENT (mk_tw ∅ ∅ [])).
  - exact demo_ghost_inv.
  - intros w H. cbn in *. rewrite lookup_fmap in H. destruct (tw_open w !! (-1)); [done|].
    by eexists _, _.
  - done.
  - by vm_compute.
Defined.
