(* ===== verification/TreeFaithful.v ===== *)
(** * A tree is copied faithfully

    The traversal of CopyTree.v finds the files; the system of DataSystem.v copies them;
    and together every file of the tree arrives, byte for byte. *)

From stdpp Require Import gmap strings.
From S2P Require Import Prelude Abi Prep RingBuf Ring SqSpec CqSpec Kernel Queue QueueSpec Os SimOs Util Heap Eta CopyState FileDesc Runner RunnerData RunnerLive RunnerSpec CopyQueue CopyJob SubmitLoop Shape Accounts System SystemSpec Lifecycle Service Rounds ServedFiles Serving ServedWorld Contents Entering Keeping KeptFiles KeptRounds KeptResults Moves Drift Tracked DataSystem Advancing DataRuns DataWorld Faithful FileTree TraverseSpec TreeQueue TreePaths TreeWorld TreeSteps CopyTree.
Import Eta.Rolling Eta.ETA.

Section tree.
Context {W : Type} {T : Tree W} {K : Kernel W} {KL : KernelLaws W} {CV : Contents W} {CL : ContentLaws W}
  {TC : TreeContents W kview_of}.
Context (src : string -> option node) (view_of : W -> view) {L : TreeLaws W src view_of} {SV : SharedWorld W view_of}
  {TD : TreeContents W (fun w => dom (v_open (view_of w)))}.
Context (rand : Z -> Z) (jobFuel : nat) (i1 i2 : bool) (fuel : nat).
Context (other : nat -> loop W -> loop W) (Hother : forall k l, rtc (other_step view_of rand) l (other k l)).
Implicit Types (l : loop W).

(** A queue with nothing in it. *)
Lemma busy_start h0 J l :
  adding (lp_cq l) = true -> starting l -> h0 = qu_heap (lq l) -> v_open (vq view_of (lq l)) = ∅ ->
  busy_with view_of rand h0 J l [] l.
Proof.
  intros Ha Hst -> Hno. split; [done|apply geometry_refl|cbn; lia| |].
  - pose proof (st_qfds _ Hst) as E. split; try (intros p; rewrite E; by intros).
    intros fd. rewrite Hno. by intros [? ?].
  - exists []. split; [|apply data_refl]. split; [by rewrite Hno, dom_empty_L|cbn; lia].
Qed.

(** C2: a tree arrives as it is.  A queue with nothing in it is to copy a tree: the file
    system shows it below the source, and fails no call on paths.  While the main thread
    walks the tree, the submit thread and the kernel work as they like: between any two
    of its calls they may make any steps.  The traversal ends all the same, and has
    handed over the regular files of the tree, in the order of a depth-first recursion.
    From then on the others go on as they like, with short counts and with errors.  When
    no runner is alive any more, and if neither the traversal nor any copy reported an
    error, then the destination of every regular file of the tree has the length of the
    file and the bytes it held at the start, and no other file changed. *)
Theorem tree_arrives (from dest : string) es (l0 : loop W) :
  let h0 := qu_heap (lq l0) in let v0 := qview (lq l0) in
  let acts := visit (with_slash from) (with_slash dest) "" (NDir es) in
  let J := copies acts in
  v_open (vq view_of (lq l0)) = ∅ ->
  from <> ""%string -> dest <> ""%string -> 1024 * Z.of_nat fuel < 2 ^ 61 ->
  (weight (NDir es) <= fuel)%nat -> shows src (fits jobFuel h0) fuel (with_slash from) (NDir es) ->
  proper (NDir es) -> apart (with_slash from) (with_slash dest) ->
  (forall p st, src p = Some (NFile st) -> stx_size st = kv_size v0 p) ->
  adding (lp_cq l0) = true -> starting l0 -> quiet_ring (lq l0) ->
  Heap.data h0 + Heap.blocks h0 * Heap.blockSize h0 < 2 ^ 63 ->
  next_addr (lp_cq l0) + addresses h0 J + Z.of_nat jobFuel + 4 < 2 ^ 32 ->
  exists l1 n, addRecursiveCopy (Q := busy_sink other jobFuel i1 i2) fuel from dest (l0, O) = Ok (tt, (l1, n)) /\
    (forall l, data_steps rand h0 J (l1, (Between (length J), [])) (l, (Between (length J), [])) ->
     keepAliveCount (qu_counters (lq l)) = 0 -> errorMessages (lp_cq l) = errorMessages (lp_cq l0) ->
     (forall a b st, Copy a b st ∈ acts -> kv_size (qview (lq l)) b = stx_size st /\
        forall k, 0 <= k < stx_size st -> kv_file (qview (lq l)) b k = kv_file v0 a k) /\
     (forall p, p ∉ job_dst <$> J -> kv_file (qview (lq l)) p = kv_file v0 p /\
        kv_size (qview (lq l)) p = kv_size v0 p)).
Proof.
  intros h0 v0 acts J Hno Hf Hd Hfuel Hw Hsh Hp Hap Hsz Ha Hst Hq Hend Hroom.
  assert (jobs_ok h0 v0 J) as HJ by (eapply tree_jobs_ok; try done; by intros st [? _]).
  destruct (recursive_copy_ok (Q := noted_sink other jobFuel i1 i2) src view_of
    (K := noted_laws src view_of rand jobFuel i1 i2 other Hother h0 v0 J HJ l0 (starting_ok _ Hst) Hroom)
    _ _ _ _ _ _ fuel from dest es (l0, O, ([], [])) Hf Hd Hfuel Hw Hsh)
    as ([[l1 n] [fs rs]] & H & B & Sh); [by apply busy_start|exact Hno| |].
  { rewrite performed_jobs. cbn [sh sw_jobs snd fmap list_fmap app]. done. }
  exists l1, n. pose proof (erase_notes other jobFuel i1 i2 fuel from dest (l0, O, ([], []))) as He.
  rewrite H in He. split; [exact He|]. intros l Hs Hk Hm.
  assert (to_job <$> fs = J) as Hfs.
  { apply (f_equal sw_jobs) in Sh. cbn [sh sw_jobs fst snd] in Sh. rewrite Sh. apply performed_jobs. }
  assert (v_open (vq view_of (lq l1)) = ∅) as Hno1.
  { apply (f_equal (fun x => v_open (sw_view x))) in Sh. rewrite perform_keeps_open in Sh. by etrans; [exact Sh|]. }
  destruct B as [_ _ _ _ (D & HD & Hsteps)]. cbn [fst snd] in HD, Hsteps. rewrite Hfs in Hsteps.
  rewrite (opened_none _ Hno1 D HD) in Hsteps.
  pose proof (data_steps_trans _ _ _ _ _ _ Hsteps Hs) as Hall.
  destruct (ended_data rand J l0 l Hst Hq Hend HJ Hall Hk Hm)
    as (Hnone & C & HC).
  destruct (all_copied J l0 l HJ C HC Hnone) as [H1 H2]. split; [|exact H2].
  intros a b st Hin. apply (H1 (mk_job a b st)).
  apply list_elem_of_In, in_flat_map. exists (Copy a b st). split; [by apply list_elem_of_In|by left].
Qed.
End tree.

(** ** A drive with directories

    The drive of DataWorld.v and the tree of TreeWorld.v in one world, for the
    witnesses: one directory can be open at a time, under a number of its own. *)

Record tree_drive : Type := mk_td {
  td_drive : kview;
  td_read : nat;                            (** entries read of the open directory *)
  td_dirs : gset string;
  td_links : list (string * string);
}.

(** The descriptor of the directory. *)
Definition dir_fd : Z := 2 ^ 20.

Definition td_set_drive (v : kview) (w : tree_drive) : tree_drive := mk_td v (td_read w) (td_dirs w) (td_links w).
Definition td_opened (w : tree_drive) : option string := kv_open (td_drive w) !! dir_fd.

Section world.
Context (tree : string -> option node) (per : nat).

#[export] Instance TreeDriveContents : Contents tree_drive := td_drive.

Definition TreeDriveFiles : Files tree_drive := {|
  f_open w p oflag mode :=
    if flag_set oflag O_DIRECTORY then
      if is_directory tree p && negb (bool_decide (is_Some (td_opened w))) && negb (flag_set oflag O_TRUNC) then
        (mk_td (kv_set_open (<[dir_fd := p]> (kv_open (td_drive w))) (td_drive w)) 0 (td_dirs w) (td_links w),
         dir_fd, 0)
      else (w, -1, ENOENT)
    else
      let '(v, fd, e) := f_open (Files := DriveFiles) (td_drive w) p oflag mode in
      (td_set_drive v w, fd, e);
  f_close w fd :=
    let '(v, x, e) := f_close (Files := DriveFiles) (td_drive w) fd in (td_set_drive v w, x, e);
|}.

#[export] Instance TreeDriveKernel : Kernel tree_drive := {|
  sys_enter w r fd sub mn fl a sz :=
    let '(v, r, x, e) := sys_enter (td_drive w) r fd sub mn fl a sz in (td_set_drive v w, r, x, e);
|}.

Definition TreeDriveCalls : Tree tree_drive := {|
  t_files := TreeDriveFiles;
  t_mkdir w p mode :=
    if bool_decide (p ∈ td_dirs w) then (w, -1, EEXIST)
    else (mk_td (td_drive w) (td_read w) ({[p]} ∪ td_dirs w) (td_links w), 0, 0);
  t_stat w p := if bool_decide (p ∈ td_dirs w) then (w, 16384 + S_IRWXU, 0, 0) else (w, 0, -1, ENOENT);
  t_statx w p :=
    match tree p with Some (NFile st) => (w, st, 0, 0) | _ => (w, no_stat, -1, ENOENT) end;
  t_getdents w fd n :=
    match td_opened w with
    | Some p =>
        if fd =? dir_fd then
          let bs := map encode (take per (drop (td_read w) (entries tree p))) in
          (mk_td (td_drive w) (td_read w + per) (td_dirs w) (td_links w), concat bs, zlen (concat bs), 0)
        else (w, [], -1, EBADF)
    | None => (w, [], -1, EBADF)
    end;
  t_readlink w p n :=
    match tree p with
    | Some (NLink target) =>
        (w, String.substring 0 (Z.to_nat n) target, Z.min (Z.of_nat (String.length target)) n, 0)
    | _ => (w, ""%string, -1, EINVAL)
    end;
  t_symlink w target p :=
    (mk_td (td_drive w) (td_read w) (td_dirs w) (td_links w ++ [(target, p)]), 0, 0);
|}.

Definition td_view (w : tree_drive) : view :=
  mk_view (match td_opened w with
           | Some p => {[dir_fd := drop (td_read w) (entries tree p)]}
           | None => ∅
           end) (td_dirs w) (td_links w).

(** ** The laws *)

#[export] Instance tree_drive_contents : TreeContents (T := TreeDriveCalls) tree_drive kview_of.
Proof.
  split; intros w; cbn; intros; repeat case_match; simplify_eq; done.
Qed.

#[export] Instance tree_drive_open :
  TreeContents (T := TreeDriveCalls) tree_drive (fun w => dom (v_open (td_view w))).
Proof.
  assert (forall w w', td_drive w' = td_drive w -> dom (v_open (td_view w')) = dom (v_open (td_view w))) as Hd.
  { intros w w' E. unfold td_view, td_opened. cbn. rewrite E. destruct (_ !! _); [|done]. by rewrite !dom_singleton_L. }
  pose proof tree_drive_contents as [H1 H2 H3 H4 H5 H6]. split; intros; apply Hd; eauto.
Qed.

#[export] Instance tree_drive_laws :
  names_ok tree -> per <> O -> TreeLaws (T := TreeDriveCalls) tree_drive tree td_view.
Proof.
  intros Hnames Hper. split.
  - intros w p es Hp Hno. cbn in *. unfold is_directory. rewrite Hp.
    destruct (td_opened w) as [q|] eqn:E; [by apply (f_equal (lookup dir_fd)) in Hno; rewrite lookup_singleton_eq in Hno|].
    cbn. eexists _, dir_fd, _. split; [done|]. split; [done|].
    unfold td_view, td_opened, v_set_open in *. cbn. rewrite lookup_insert_eq. unfold entries. by rewrite Hp.
  - intros w fd es Ho. cbn in Ho. cbn. destruct (td_opened w) as [p|] eqn:E; [|done].
    apply lookup_singleton_Some in Ho as [<- <-]. rewrite Z.eqb_refl.
    destruct (reads_entries tree per p (td_read w) Hnames Hper) as (E1 & E2 & E3).
    eexists _, _, _, _, _, _. split; [done|]. split; [exact E1|]. split; [exact E2|]. split; [exact E3|].
    split; [done|]. unfold td_view, td_opened, v_set_open in *. cbn. rewrite E. by rewrite insert_singleton_eq.
  - intros w fd es Ho. cbn in Ho. cbn. destruct (td_opened w) as [p|] eqn:E; [|done].
    apply lookup_singleton_Some in Ho as [<- <-]. unfold td_opened in E. rewrite E.
    eexists _, _. split; [done|]. unfold td_view, td_opened, v_set_open. cbn.
    by rewrite lookup_delete_eq, delete_singleton_eq.
  - intros w p st Hp. cbn. rewrite Hp. by eexists _, _.
  - intros w p target sz Hp Hsz. cbn. rewrite Hp. eexists _, _, _. split; [done|]. split; [|done].
    intros Hlt. apply substring_short. lia.
  - intros w target p. cbn. by eexists _, _.
  - intros w p. cbn. case_bool_decide as Hd; eexists _, _, _; (split; [done|]); (split; [first [by left|by right]|]);
      unfold td_view, v_add_dirs; cbn; f_equal; set_solver.
  - intros w p Hd. cbn in *. rewrite bool_decide_eq_true_2 by done. eexists _, _, _. by split_and!.
Qed.

Lemma enter_open (v : kview) r fd sub mn fl a sz v' r' n e :
  drive_enter v r fd sub mn fl a sz = (v', r', n, e) -> kv_open v' = kv_open v.
Proof.
  unfold drive_enter. set (chs := whole _ _). set (x := kv_set_flight _ v).
  pose proof (run_some_steps (length (concat chs)) x) as Hs. destruct (run_some _ _) as [ans v1].
  cbn [fst snd] in Hs. destruct (post_some _ _) as [q late]. intros [= <- _ _ _]. by apply ksteps_open in Hs.
Qed.

Lemma tree_drive_plain : plain_opens (T := TreeDriveCalls) td_view.
Proof.
  intros w p oflag mode w' v e Hd H. cbn in H. rewrite Hd in H.
  destruct (Z.ltb_spec (Z.of_nat (base.size (kv_open (td_drive w)))) shelf_limit) as [Hlt|_];
    [|by injection H as <- _ _].
  pose proof (least_free_range (kv_open (td_drive w)) (base.size (kv_open (td_drive w))) 3) as Hr.
  injection H as <- _ _. unfold td_view, td_opened. cbn.
  assert (forall v, kv_open (if flag_set oflag O_TRUNC then kv_set_file p (fun _ => 0) 0 v else v) = kv_open v)
    as Hk by (intros x; by destruct (flag_set oflag O_TRUNC)).
  rewrite lookup_insert_ne; [done|]. unfold shelf_limit, dir_fd in *. lia.
Qed.

#[export] Instance tree_drive_shared : SharedWorld (T := TreeDriveCalls) tree_drive td_view.
Proof.
  split.
  - exact tree_drive_plain.
  - intros w fd w' v e Hno H. cbn in H. injection H as <- _ _. unfold td_view, td_opened in *. cbn in *.
    destruct (decide (fd = dir_fd)) as [->|Hne]; [|by rewrite lookup_delete_ne].
    destruct (kv_open (td_drive w) !! dir_fd) eqn:E; [by rewrite lookup_singleton_eq in Hno|].
    by rewrite lookup_delete_eq.
  - intros w r fd sub mn fl a sz w' r' v e H. cbn in H.
    destruct (drive_enter _ _ _ _ _ _ _ _) as [[[x y] z] t] eqn:E. injection H as <- _ _ _.
    apply enter_open in E. unfold td_view, td_opened. cbn. by rewrite E.
Qed.

#[export] Instance tree_drive_kernel_laws : KernelLaws tree_drive.
Proof.
  split. intros w r fd sub mn fl a sz w' r' v e H. cbn in H.
  destruct (drive_enter _ _ _ _ _ _ _ _) as [[[x y] z] t] eqn:E. injection H as <- <- <- <-.
  exact (enter_acts (W := kview) _ _ _ _ _ _ _ _ _ _ _ _ E).
Qed.

#[export] Instance tree_drive_content_laws : ContentLaws (F := TreeDriveFiles) tree_drive.
Proof.
  split.
  - intros w path oflag mode w' fd e H. cbn in H. destruct (flag_set oflag O_DIRECTORY) eqn:Hd.
    + destruct (is_directory tree path && _ && _) eqn:Hb; injection H as <- <- <-.
      * apply andb_prop in Hb as [[_ Hb%negb_true_iff%bool_decide_eq_false]%andb_prop Ht%negb_true_iff].
        split_and!; try done; [by rewrite Ht|]. right. split; [by unfold dir_fd; lia|]. split; [|done].
        by apply eq_None_not_Some.
      * split_and!; try done. left. by split.
    + destruct (f_open (Files := DriveFiles) (td_drive w) path oflag mode) as [[v x] y] eqn:E.
      pose proof E as E'. cbn in E'. rewrite E' in H. injection H as <- <- <-. exact (ct_open (W := kview) _ _ _ _ _ _ _ E).
  - intros w fd w' v e H. cbn in H. by injection H as <- _ _.
  - intros w r fd sub mn fl a sz w' r' v e H. cbn in H.
    destruct (drive_enter _ _ _ _ _ _ _ _) as [[[x y] z] t] eqn:E. injection H as <- <- <- <-.
    intros Hr. exact (ct_enter (W := kview) _ _ _ _ _ _ _ _ _ _ _ _ E Hr).
Qed.
End world.

(** ** A tree on a drive

    Below "s" a file of 10000 bytes, an empty one, a link, and a directory with another
    file. *)
Definition wood_sub : list (string * node) := [("."%string, NDir []); ("g"%string, NFile small_file)].

Definition wood_entries : list (string * node) :=
  [("."%string, NDir []); ("f"%string, NFile small_file); ("e"%string, NFile empty_file);
   ("l"%string, NLink "f"); ("d"%string, NDir wood_sub)].

Definition wood_tree (p : string) : option node :=
  if String.eqb p "s/" then Some (NDir wood_entries)
  else if String.eqb p "s/f" then Some (NFile small_file)
  else if String.eqb p "s/e" then Some (NFile empty_file)
  else if String.eqb p "s/l" then Some (NLink "f")
  else if String.eqb p "s/d/" then Some (NDir wood_sub)
  else if String.eqb p "s/d/g" then Some (NFile small_file)
  else None.

(** The byte at [k] is [k] modulo 251 in one file, and modulo 13 in the other. *)
Definition wood_bytes (p : string) (k : Z) : Z :=
  if String.eqb p "s/f" then k mod 251 else if String.eqb p "s/d/g" then k mod 13 else 0.

Definition wood0 : tree_drive :=
  mk_td (mk_kview wood_bytes
    (fun p => if String.eqb p "s/f" then 10000 else if String.eqb p "s/d/g" then 10000 else 0)
    (fun _ => 0) ∅ [] []) 0 ∅ [].

Definition wood_loop : loop tree_drive :=
  mk_loop (mk_cqueue (mk_queue (mk_ost wood0 0)
    (mk_ring (sq_fresh 2 0) (cq_fresh 3 0) 0 9 0) small_heap 16 2 (mk_counters 0 0 0 0 0) ∅ ∅ ∅)
    4 [] 0 eta0 false [] Running Return false 1) 0 [] 0.

#[local] Instance wood_calls : Tree tree_drive := TreeDriveCalls wood_tree 2.

Lemma wood_names : names_ok wood_tree.
Proof.
  intros p es H. unfold wood_tree in H. repeat (case_match; [simplify_eq|]); simplify_eq;
    (apply List.Forall_forall; intros [name n] Hin; apply name_ok_spec;
     repeat destruct Hin as [[= <- _]|Hin]; [by vm_compute..|done]).
Qed.

#[local] Instance wood_laws : TreeLaws tree_drive wood_tree (td_view wood_tree) :=
  tree_drive_laws wood_tree 2 wood_names ltac:(done).

Definition wood_acts : list action := visit "s/" "t/" "" (NDir wood_entries).

Lemma wood_proper : proper (NDir wood_entries).
Proof. cbn. split_and!; try done; by apply (bool_decide_unpack _). Qed.

(** The sizes of the drive are those of the tree. *)
Lemma wood_sizes p st : wood_tree p = Some (NFile st) -> stx_size st = kv_size (qview (lq wood_loop)) p.
Proof.
  unfold wood_tree. repeat (case_match; [intros [= <-]; by match goal with H : String.eqb p _ = true |- _ =>
    apply String.eqb_eq in H as -> end || done|]). done.
Qed.

(** Between any two calls of the main thread, the submit thread starts a runner, enters
    the kernel, and handles a completion, where it can. *)
Definition attempt {A} (m : prog (loop tree_drive) A) (l : loop tree_drive) : loop tree_drive :=
  match m l with Ok (_, l) => l | _ => l end.

Definition round (k : nat) (l : loop tree_drive) : loop tree_drive :=
  attempt (complete_one no_forcing 40)
    (attempt (on_cq (on_queue (on_ring io_uring_submit))) (attempt (add_one no_forcing (fun _ => 0) 40) l)).

Lemma attempt_step {A} (m : prog (loop tree_drive) A) l0 l :
  (forall a l', m l = Ok (a, l') -> other_step (td_view wood_tree) (fun _ => 0) l l') ->
  rtc (other_step (td_view wood_tree) (fun _ => 0)) l0 l ->
  rtc (other_step (td_view wood_tree) (fun _ => 0)) l0 (attempt m l).
Proof.
  intros Hm Hr. unfold attempt. destruct (m l) as [[a l']| |] eqn:E; [|done..]. eapply rtc_r; [exact Hr|by eapply Hm].
Qed.

Lemma round_steps k l : rtc (other_step (td_view wood_tree) (fun _ => 0)) l (round k l).
Proof.
  unfold round. repeat apply attempt_step; [..|done].
  - intros b l' H. by eapply other_complete.
  - intros v l' H. by eapply other_enter.
  - intros v l' H. by eapply other_start.
Qed.

Definition wood_walk : res (unit * (loop tree_drive * nat)) :=
  addRecursiveCopy (Q := busy_sink round 2 false false) 20 "s" "t" (wood_loop, O).

(** The traversal, and then the submit thread. *)
Definition wood_done : res (loop_end * loop tree_drive) :=
  match wood_walk with
  | Ok (_, (l, _)) => submitLoop no_forcing (fun _ => 0) 40 40 40 (completing Return l)
  | Fault f => Fault f
  | NoFuel => NoFuel
  end.

Lemma wood_run : clean wood_done = true.
Proof. by vm_compute. Qed.

(** Half of the first file has arrived when the traversal ends. *)
Definition half_way (r : res (unit * (loop tree_drive * nat))) : bool :=
  match r with Ok (_, (l, _)) => kv_size (qview (lq l)) "t/f" =? 8192 | _ => false end.

Lemma wood_half : half_way wood_walk = true.
Proof. by vm_compute. Qed.

Lemma tree_arrives_witness :
  exists l1 n l l', addRecursiveCopy (Q := busy_sink round 2 false false) 20 "s" "t" (wood_loop, O)
      = Ok (tt, (l1, n)) /\ kv_size (qview (lq l1)) "t/f" = 8192 /\
    submitLoop no_forcing (fun _ => 0) 40 40 40 (completing Return l1) = Ok (LoopReturned, l') /\
    qview (lq l') = qview (lq l) /\
    kv_size (qview (lq l)) "t/f" = 10000 /\ kv_size (qview (lq l)) "t/e" = 0 /\
    (forall k, 0 <= k < 10000 -> kv_file (qview (lq l)) "t/f" k = k mod 251) /\
    (forall k, 0 <= k < 10000 -> kv_file (qview (lq l)) "t/d/g" k = k mod 13) /\
    (forall k, kv_file (qview (lq l)) "s/f" k = k mod 251).
Proof.
  destruct (tree_arrives wood_tree (td_view wood_tree) (fun _ => 0) 2 false false 20 round round_steps
    "s" "t" wood_entries wood_loop) as (l1 & n & H1 & Hcopied).
  - reflexivity.
  - done.
  - done.
  - by vm_compute.
  - by vm_compute; lia.
  - cbn. split_and!; try done; repeat first [by left|by apply demo_fits; auto|right|split].
  - exact wood_proper.
  - by split.
  - exact wood_sizes.
  - reflexivity.
  - split; try reflexivity; try (by split); try (by vm_compute).
    intros i Hi. pose proof (zget_range _ _ _ Hi) as Hr. unfold Heap.used_at in Hi.
    change (0 <= i < 2) in Hr. assert (i = 0 \/ i = 1) as [-> | ->] by lia; done.
  - split; try (by vm_compute). split; [by apply sq_fresh_ok|by apply cq_fresh_ok].
  - by vm_compute.
  - by vm_compute.
  - fold wood_walk in H1. pose proof wood_run as Hrun. unfold wood_done in Hrun. rewrite H1 in Hrun.
    destruct (clean_inv _ Hrun) as (l' & H & He).
    destruct (submitLoop_data (fun _ => 0) small_heap (copies wood_acts) 40 40 40 _ l' (Between 3, []) H)
      as (l & Hs & Hk & Hm & Hv).
    destruct (Hcopied l) as [Hc Hkept].
    + eapply data_next; [apply data_state|exact Hs].
    + exact Hk.
    + rewrite <- Hm. exact He.
    + exists l1, n, l, l'. split; [exact H1|]. split.
      { pose proof wood_half as Hh. rewrite H1 in Hh. by apply Z.eqb_eq in Hh. }
      split; [exact H|]. split; [exact Hv|]. split_and!.
      * apply (Hc "s/f" "t/f" small_file)%string. by apply (list_elem_of_lookup_2 _ 0).
      * apply (Hc "s/e" "t/e" empty_file)%string. by apply (list_elem_of_lookup_2 _ 1).
      * intros k Hkr. apply (Hc "s/f" "t/f" small_file)%string; [|exact Hkr].
        by apply (list_elem_of_lookup_2 _ 0).
      * intros k Hkr. apply (Hc "s/d/g" "t/d/g" small_file)%string; [|exact Hkr].
        by apply (list_elem_of_lookup_2 _ 4).
      * intros k. destruct (Hkept "s/f"%string) as [-> _]; [by apply (bool_decide_unpack _)|done].
Defined.
