(* ===== verification/Progress.v ===== *)
(** * The progress display (src/src/CopyQueue.cpp, showProgressLoop)

    The thread that draws a status line and a progress bar four times a second.  What
    it draws is a function of a reading of the clock, the terminal and the counters;
    what it writes to standard error is the result.  Doubles, floats and the quadruple
    precision quotient are the standard library's executable IEEE formats. *)

From stdpp Require Import strings pretty.
From Stdlib Require Import SpecFloat.
From S2P Require Import Prelude Util Eta CopyState CopyQueue.

Definition slen (s : string) : Z := Z.of_nat (String.length s).

Definition space : Ascii.ascii := Ascii.ascii_of_nat 32.
Definition zero_char : Ascii.ascii := Ascii.ascii_of_nat 48.

(** ** Padding *)

(** A loop that appends [n] characters. *)
Fixpoint pad_loop (n : nat) (pad : string) (padChar : Ascii.ascii) : string :=
  match n with
  | O => pad
  | S n => pad_loop n (pad +:+ String padChar "") padChar
  end.

(** The iterations of [for (int32_t i = pad.size(); i < targetLength - str.length(); i++)]. *)
Definition pad_count (left str : string) (targetLength : Z) : nat :=
  Z.to_nat (s32 (targetLength - s32 (slen str)) - s32 (slen left)).

Definition leftPad (left str : string) (targetLength : Z) (padChar : Ascii.ascii) : string :=
  pad_loop (pad_count left str targetLength) left padChar +:+ str.

Definition rightPad (left str : string) (targetLength : Z) : string :=
  str +:+ pad_loop (pad_count left str targetLength) left space.

(** [for (uint32_t i = str.length(); i < (lineWidth / 2) - (centre.length() / 2); i++)]:
    the bound is a [size_t]. *)
Definition centre_bound (centre : string) (lineWidth : Z) : Z :=
  u64 (u64 (Z.quot lineWidth 2) - slen centre / 2).

Fixpoint centre_loop (fuel : nat) (i bound : Z) (str : string) : res string :=
  if i <? bound then
    match fuel with
    | O => NoFuel
    | S n => centre_loop n (u32 (i + 1)) bound (str +:+ " ")
    end
  else Ok str.

Definition centreAlign (fuel : nat) (left centre : string) (lineWidth : Z) : res string :=
  match centre_loop fuel (u32 (slen left)) (centre_bound centre lineWidth) left with
  | Ok str => Ok (str +:+ centre)
  | Fault f => Fault f
  | NoFuel => NoFuel
  end.

(** ** Numbers *)

(** The nearest integer to [n / d], the even one of two. *)
Definition nearest_even (n d : Z) : Z :=
  let q := n / d in let r := n mod d in
  if 2 * r <? d then q else if d <? 2 * r then q + 1 else if Z.even q then q else q + 1.

(** [N] over [10 ^ decimalPoints]. *)
Definition decimal (N decimalPoints : Z) : string :=
  pretty (N / 10 ^ decimalPoints) +:+ "." +:+
    leftPad "" (pretty (N mod 10 ^ decimalPoints)) decimalPoints zero_char.

(** [std::fixed << std::setprecision(decimalPoints) << num], the points positive. *)
Definition numDecimalPoints (num : spec_float) (decimalPoints : Z) : string :=
  match num with
  | S754_zero s => (if s then "-" else "") +:+ decimal 0 decimalPoints
  | S754_infinity s => (if s then "-" else "") +:+ "inf"
  | S754_nan => "nan"
  | S754_finite s m e =>
      let n := Z.pos m * 10 ^ decimalPoints in
      (if s then "-" else "") +:+
        decimal (if 0 <=? e then n * 2 ^ e else nearest_even n (2 ^ (- e))) decimalPoints
  end.

(** [__float128], and its conversion to [double]. *)
Definition qof_Z (z : Z) : spec_float := binary_normalize 113 16384 z 0 false.
Definition qdiv := SFdiv 113 16384.
Definition double_of_quad (x : spec_float) : spec_float :=
  match x with
  | S754_finite s m e => binary_normalize 53 1024 (cond_Zopp s (Z.pos m)) e s
  | _ => x
  end.

(** [float]. *)
Definition fof_Z (z : Z) : spec_float := binary_normalize 24 128 z 0 false.
Definition fmul := SFmul 24 128.
Definition fdiv := SFdiv 24 128.

Definition kibibyte : Z := 1024.
Definition mebibyte : Z := kibibyte * 1024.
Definition gibibyte : Z := mebibyte * 1024.
Definition tebibyte : Z := gibibyte * 1024.

(** The number shown and its unit. *)
Definition size_and_unit (bytes : Z) : spec_float * string :=
  if tebibyte <=? bytes then (double_of_quad (qdiv (qof_Z bytes) (qof_Z tebibyte)), "TiB"%string)
  else if gibibyte <=? bytes then (ETA.ddiv (ETA.of_Z bytes) (ETA.of_Z gibibyte), "GiB"%string)
  else if mebibyte <=? bytes then (ETA.ddiv (ETA.of_Z bytes) (ETA.of_Z mebibyte), "MiB"%string)
  else if kibibyte <=? bytes then (ETA.ddiv (ETA.of_Z bytes) (ETA.of_Z kibibyte), "KiB"%string)
  else (ETA.of_Z bytes, "B"%string).

Definition humanFriendlyFileSize (bytes : Z) : string :=
  let '(final, unit) := size_and_unit bytes in numDecimalPoints final 2 +:+ " " +:+ unit.

(** A conversion to an unsigned or signed integer type of [w] bits, undefined outside
    its range. *)
Definition to_unsigned (w : Z) (x : spec_float) : res Z :=
  match ETA.to_int Z.quot x with
  | Some n => if (0 <=? n) && (n <? 2 ^ w) then Ok n else Fault Undefined
  | None => Fault Undefined
  end.

Definition to_signed (w : Z) (x : spec_float) : res Z :=
  match ETA.to_int Z.quot x with
  | Some n => if (- 2 ^ (w - 1) <=? n) && (n <? 2 ^ (w - 1)) then Ok n else Fault Undefined
  | None => Fault Undefined
  end.

(** [uint32_t x = floor(d)]. *)
Definition floor_u32 (x : spec_float) : res Z :=
  match ETA.floor x with
  | Some n => if (0 <=? n) && (n <? 2 ^ 32) then Ok n else Fault Undefined
  | None => Fault Undefined
  end.

Definition rbind {A B} (r : res A) (k : A -> res B) : res B :=
  match r with Ok a => k a | Fault f => Fault f | NoFuel => NoFuel end.

Notation "'let!' x := r 'in' k" := (rbind r (fun x => k))
  (at level 200, x name, r at level 100, k at level 200).

Definition humanFriendlyTime (seconds : spec_float) : res string :=
  let minute := ETA.of_Z 60 in let hour := ETA.of_Z 3600 in
  let! hours := floor_u32 (ETA.ddiv seconds hour) in
  let seconds := ETA.dsub seconds (ETA.dmul (ETA.of_Z hours) hour) in
  let! minutes := floor_u32 (ETA.ddiv seconds minute) in
  let seconds := ETA.dsub seconds (ETA.dmul (ETA.of_Z minutes) minute) in
  if 0 <? hours then Ok (pretty hours +:+ "h" +:+ pretty minutes +:+ "m")
  else
    let! s := floor_u32 seconds in
    let secs := leftPad "" (pretty s) 2 zero_char +:+ "s" in
    if 0 <? minutes then Ok (pretty minutes +:+ "m" +:+ secs) else Ok secs.

(** ** Drawing *)

Record SpeedMeasurementStartPoint : Type := mk_point { pt_start : Z; pt_size : Z }.

(** What the thread keeps: when it started, in nanoseconds, the measurements, and the
    estimator as it left it. *)
Record display : Type := mk_display {
  started : Z;
  startQueue : list SpeedMeasurementStartPoint;
  firstShow : bool;
  dp_eta : ETA.eta;
}.

(** What it reads at one drawing: the width of the terminal on standard output (0 if
    that is not a terminal), three readings of the clock, the counters, whether all
    copies were added, the messages of the errors since, and what the other threads have
    done to the estimator. *)
Record sample : Type := mk_sample {
  termWidth : Z;
  clock1 : Z;
  clock2 : Z;
  clock3 : Z;
  toCopy : Z;
  copied : Z;
  haveTotal : bool;
  messages : list string;
  between : ETA.eta -> ETA.eta;
}.

(** [duration_cast<milliseconds>], then [/= 1000.0]. *)
Definition seconds_between (a b : Z) : spec_float :=
  ETA.ddiv (ETA.of_Z (Z.quot (b - a) 1000000)) (ETA.of_Z 1000).

Definition newline : string := String (Ascii.ascii_of_nat 10) "".

Definition showLine (width : Z) (line : string) : string := rightPad "" line width +:+ newline.

(** "\r\033[2A" *)
Definition cursor_up : string :=
  String (Ascii.ascii_of_nat 13) (String (Ascii.ascii_of_nat 27) "[2A").

Definition pop_front {A} (l : list A) : list A := tail l.

(** The bytes per second since the front of the queue, and the queue afterwards. *)
Definition measure (d : display) (s : sample) : res (spec_float * list SpeedMeasurementStartPoint) :=
  if 0 <? copied s then
    match startQueue d with
    | [] => Fault OutOfBounds
    | currentStart :: _ =>
        let secs := seconds_between (pt_start currentStart) (clock2 s) in
        let bytesPerSecond := ETA.ddiv (ETA.of_Z (u64 (copied s - pt_size currentStart))) secs in
        let q := startQueue d ++ [mk_point (clock3 s) (copied s)] in
        Ok (bytesPerSecond, if SFltb (ETA.of_Z 45) secs then pop_front q else q)
    end
  else Ok (ETA.of_Z 0, startQueue d).

Definition lift_option {A} (o : option A) : res A :=
  match o with Some a => Ok a | None => Fault AssertFailed end.

(** The estimated time of arrival, and the estimator afterwards. *)
Definition eta_text (s : sample) (bytesPerSecond : spec_float) (e : ETA.eta) : res (string * ETA.eta) :=
  if haveTotal s then
    let! e := lift_option (ETA.updateSpeedEstimate bytesPerSecond e) in
    let! etaBytesPerSec := lift_option (ETA.getEta e) in
    if negb (SFeqb etaBytesPerSec (ETA.of_Z (-1))) then
      let! t := humanFriendlyTime
        (ETA.ddiv (ETA.of_Z (u64 (toCopy s - copied s))) etaBytesPerSec) in
      Ok ("~" +:+ t, e)
    else Ok ("???"%string, e)
  else Ok ("???"%string, e).

Definition centre_text (s : sample) : string :=
  leftPad "" (humanFriendlyFileSize (copied s)) 10 space +:+ " / " +:+
    (if haveTotal s then humanFriendlyFileSize (toCopy s) else "???").

Definition status_line (fuel : nat) (d : display) (s : sample) : res (string * display) :=
  let! elapsed := humanFriendlyTime (seconds_between (started d) (clock1 s)) in
  let statusLine := " Elapsed: " +:+ elapsed in
  let! m := measure d s in
  let '(bytesPerSecond, q) := m in
  let! statusLine := centreAlign fuel statusLine (centre_text s) (termWidth s) in
  let! speed := to_unsigned 64 bytesPerSecond in
  let! te := eta_text s bytesPerSecond (between s (dp_eta d)) in
  let '(text, e) := te in
  let right := leftPad "" (humanFriendlyFileSize speed) 10 space +:+ "/s   ETA: " +:+ text +:+ " " in
  Ok (leftPad statusLine right (termWidth s) space, mk_display (started d) q (firstShow d) e).

Definition full_block : string :=
  String (Ascii.ascii_of_nat 226) (String (Ascii.ascii_of_nat 150) (String (Ascii.ascii_of_nat 136) "")).
Definition shade_block : string :=
  String (Ascii.ascii_of_nat 226) (String (Ascii.ascii_of_nat 150) (String (Ascii.ascii_of_nat 146) "")).

(** [for (int32_t i = 0; i < width; i++)]: [n] iterations left. *)
Fixpoint bar_loop (n : nat) (i doneChars : Z) (line : string) : string :=
  match n with
  | O => line
  | S n => bar_loop n (i + 1) doneChars (line +:+ (if i <? doneChars then full_block else shade_block))
  end.

Definition progress_bar (s : sample) : res string :=
  let ratio := if 0 <? toCopy s then fdiv (fof_Z (copied s)) (fof_Z (toCopy s)) else S754_zero false in
  let! percentDone := to_signed 32 (fmul ratio (fof_Z 100)) in
  let width := s32 (termWidth s - 6) in
  let line := leftPad "" (pretty percentDone) 3 space +:+ "% " in
  let! doneChars := to_signed 32 (fmul ratio (fof_Z width)) in
  Ok (bar_loop (Z.to_nat width) 0 doneChars line).

Definition second_line (fuel : nat) (s : sample) : res string :=
  if haveTotal s then progress_bar s
  else centreAlign fuel "" ("Calculating, found: " +:+ humanFriendlyFileSize (toCopy s)) (termWidth s).

(** [showProgress]: what it writes, and the state afterwards. *)
Definition showProgress (fuel : nat) (d : display) (s : sample) : res (list string * display) :=
  let prefix := if firstShow d then [] else [cursor_up] in
  let! v := status_line fuel d s in
  let '(statusLine, d) := v in
  let! line2 := second_line fuel s in
  Ok (prefix ++ map (showLine (termWidth s)) (messages s ++ [statusLine; line2]),
      mk_display (started d) (startQueue d) false (dp_eta d)).

(** ** Waiting *)

Definition updateIntervalSeconds : spec_float := fdiv (fof_Z 1) (fof_Z 4).

Definition ffloor (x : spec_float) : spec_float :=
  match ETA.floor x with Some n => fof_Z n | None => x end.

(** [timeoutTime], from the reading of the clock. *)
Definition deadline (tv_sec tv_nsec : Z) : res (Z * Z) :=
  let! s := to_signed 64 (ffloor updateIntervalSeconds) in
  let! ns := to_signed 64 (fmul (SFsub 24 128 updateIntervalSeconds (ffloor updateIntervalSeconds))
                             (fof_Z 1000000000)) in
  let tv_sec := tv_sec + s in
  let tv_nsec := tv_nsec + ns in
  if 1000000000 <? tv_nsec then Ok (tv_sec + 1, tv_nsec - 1000000000) else Ok (tv_sec, tv_nsec).

Definition ETIMEDOUT : Z := 110.

(** One round of the loop: [isDone()], the drawing, the clock, and what
    pthread_mutex_timedlock(3) returns for a deadline. *)
Record round : Type := mk_round {
  rd_done : bool;
  rd_sample : sample;
  rd_clock : Z * Z;
  rd_lock : Z * Z -> Z;
}.

(** [while (!this->isDone())] and the last drawing: everything written. *)
Fixpoint showProgressLoop (fuel : nat) (rs : list round) (last : sample) (d : display)
    (out : list string) : res (list string * display) :=
  let finish d out := let! v := showProgress fuel d last in Ok (out ++ fst v, snd v) in
  match rs with
  | [] => NoFuel
  | r :: rs =>
      if rd_done r then finish d out
      else
        let! v := showProgress fuel d (rd_sample r) in
        let '(lines, d) := v in
        let! t := deadline (fst (rd_clock r)) (snd (rd_clock r)) in
        let err := rd_lock r t in
        if (err =? 0) || (err =? ETIMEDOUT) then
          if err =? 0 then finish d (out ++ lines) else showProgressLoop fuel rs last d (out ++ lines)
        else Fault AssertFailed
  end.

(** The thread: [now1] and [now2] are its first readings of the clock. *)
Definition showProgressThread (fuel : nat) (now1 now2 : Z) (e : ETA.eta) (rs : list round) (last : sample)
    : res (list string * display) :=
  showProgressLoop fuel rs last (mk_display now1 [mk_point now2 0] true e) [newline].
