(* ===== verification/ProgressSpec.v ===== *)
(** * What the progress display draws

    The loops of Progress.v: when the one that centres a text ends and what it makes,
    whether the time to wait for is one pthread_mutex_timedlock(3) accepts, and the
    drawings that go wrong. *)

From stdpp Require Import strings pretty.
From Stdlib Require Import SpecFloat.
From S2P Require Import Prelude Abi Util Eta CopyState CopyQueue Progress.

(** ** Lengths *)

Lemma slen_app a b : slen (a +:+ b) = slen a + slen b.
Proof.
  unfold slen. induction a as [|x a IH]; [done|].
  change (String.length (String x a +:+ b)) with (S (String.length (a +:+ b))). cbn [String.length]. lia.
Qed.

Lemma slen_nonneg s : 0 <= slen s.
Proof. unfold slen. lia. Qed.

Lemma append_empty (s : string) : s +:+ "" = s.
Proof. induction s as [|x s IH]; [done|]. exact (f_equal (String x) IH). Qed.

Lemma append_three (a b c : string) : (a +:+ b) +:+ c = a +:+ (b +:+ c).
Proof. induction a as [|x a IH]; [done|]. exact (f_equal (String x) IH). Qed.

(** [n] copies of a character. *)
Fixpoint repeat_char (n : nat) (c : Ascii.ascii) : string :=
  match n with O => "" | S n => String c (repeat_char n c) end.

Lemma slen_repeat n c : slen (repeat_char n c) = Z.of_nat n.
Proof. unfold slen. induction n as [|n IH]; [done|]. cbn [repeat_char String.length]. lia. Qed.

Lemma pad_loop_eq n pad c : pad_loop n pad c = pad +:+ repeat_char n c.
Proof.
  revert pad. induction n as [|n IH]; intros pad; cbn [pad_loop repeat_char]; [by rewrite append_empty|].
  by rewrite IH, append_three.
Qed.

(** Texts of lengths an [int32_t] holds. *)
Lemma pad_count_eq left str n :
  slen left < 2 ^ 30 -> slen str < 2 ^ 30 -> 0 <= n < 2 ^ 30 ->
  pad_count left str n = Z.to_nat (n - slen str - slen left).
Proof.
  intros Hl Hs Hn. pose proof (slen_nonneg left). pose proof (slen_nonneg str). unfold pad_count.
  rewrite (sext_small 32 (slen str)) by (unfold in_s; lia).
  rewrite !sext_small by (unfold in_s; lia). done.
Qed.

Lemma leftPad_eq left str n c :
  slen left < 2 ^ 30 -> slen str < 2 ^ 30 -> 0 <= n < 2 ^ 30 ->
  leftPad left str n c = left +:+ repeat_char (Z.to_nat (n - slen str - slen left)) c +:+ str.
Proof.
  intros Hl Hs Hn. unfold leftPad. by rewrite pad_loop_eq, pad_count_eq, append_three.
Qed.

Lemma slen_leftPad left str n c : slen str <= slen (leftPad left str n c).
Proof. unfold leftPad. rewrite slen_app. pose proof (slen_nonneg (pad_loop (pad_count left str n) left c)). lia. Qed.

(** ** Centring *)

Lemma centre_loop_eq n i bound fuel str :
  0 <= i -> i + Z.of_nat n = bound -> bound < 2 ^ 32 -> (n <= fuel)%nat ->
  centre_loop fuel i bound str = Ok (str +:+ repeat_char n space).
Proof.
  revert i fuel str. induction n as [|n IH]; intros i fuel str Hi Hb Hlt Hf.
  - rewrite append_empty. destruct fuel; cbn [centre_loop]; destruct (Z.ltb_spec i bound); try lia; done.
  - destruct fuel as [|fuel]; [lia|]. cbn [centre_loop].
    destruct (Z.ltb_spec i bound) as [_|]; [|lia].
    rewrite (wrap_small 32 (i + 1)) by (unfold in_u; lia). rewrite IH by lia.
    by rewrite append_three.
Qed.

Lemma centre_loop_past fuel i bound str :
  bound <= i -> centre_loop fuel i bound str = Ok str.
Proof. intros H. destruct fuel; cbn [centre_loop]; by destruct (Z.ltb_spec i bound); [lia|]. Qed.

Lemma centre_loop_diverges fuel i bound str :
  2 ^ 32 <= bound -> 0 <= i < 2 ^ 32 -> centre_loop fuel i bound str = NoFuel.
Proof.
  intros Hb. revert i str. induction fuel as [|fuel IH]; intros i str Hi; cbn [centre_loop];
    destruct (Z.ltb_spec i bound); try lia; [done|].
  apply IH. unfold wrap. by apply Z.mod_pos_bound.
Qed.

Lemma centre_bound_wide centre w :
  0 <= w < 2 ^ 31 -> slen centre / 2 <= w / 2 -> centre_bound centre w = w / 2 - slen centre / 2.
Proof.
  intros Hw Hc. pose proof (slen_nonneg centre).
  assert (0 <= slen centre / 2) by (apply Z.div_pos; lia).
  assert (0 <= w / 2 <= w) by (split; [apply Z.div_pos; lia|apply Z.div_le_upper_bound; lia]).
  unfold centre_bound. rewrite Z.quot_div_nonneg by lia.
  rewrite (wrap_small 64 (w / 2)) by (unfold in_u; lia). apply wrap_small. unfold in_u. lia.
Qed.

Lemma centre_bound_narrow centre w :
  0 <= w < 2 ^ 31 -> w / 2 < slen centre / 2 -> slen centre < 2 ^ 32 -> 2 ^ 32 <= centre_bound centre w.
Proof.
  intros Hw Hc Hl. pose proof (slen_nonneg centre).
  assert (0 <= w / 2 <= w) by (split; [apply Z.div_pos; lia|apply Z.div_le_upper_bound; lia]).
  assert (slen centre / 2 <= slen centre) by (apply Z.div_le_upper_bound; lia).
  unfold centre_bound. rewrite Z.quot_div_nonneg by lia.
  rewrite (wrap_small 64 (w / 2)) by (unfold in_u; lia). unfold wrap.
  rewrite <- (Z_mod_plus_full _ 1 (2 ^ 64)), Z.mod_small; lia.
Qed.

(** C35: centring a text ends exactly if half the text fits in half the line.  Then the
    text starts at the column that centres it, or right after what was there if that
    is longer, with only spaces between.  Otherwise the bound of the loop, a
    difference of unsigned numbers, wraps around and the loop never ends. *)
Theorem centreAlign_correct fuel left centre w :
  0 <= w < 2 ^ 31 -> slen left < 2 ^ 32 -> slen centre < 2 ^ 32 -> (Z.to_nat w <= fuel)%nat ->
  let column := w / 2 - slen centre / 2 in
  (slen centre / 2 <= w / 2 ->
     centreAlign fuel left centre w =
       Ok (left +:+ repeat_char (Z.to_nat (column - slen left)) space +:+ centre)) /\
  (w / 2 < slen centre / 2 -> forall fuel, centreAlign fuel left centre w = NoFuel).
Proof.
  intros Hw Hl Hc Hf column. pose proof (slen_nonneg left) as Hl0.
  pose proof (slen_nonneg centre) as Hc0.
  assert (0 <= w / 2 <= w) by (split; [apply Z.div_pos; lia|apply Z.div_le_upper_bound; lia]).
  assert (0 <= slen centre / 2) by (apply Z.div_pos; lia).
  assert (u32 (slen left) = slen left) as El by (apply wrap_small; unfold in_u; lia).
  split.
  - intros Hfit. unfold centreAlign. rewrite El, centre_bound_wide by done. fold column.
    destruct (Z_le_gt_dec column (slen left)).
    + rewrite centre_loop_past by done. by replace (Z.to_nat (column - slen left)) with O by lia.
    + rewrite (centre_loop_eq (Z.to_nat (column - slen left))) by lia. by rewrite append_three.
  - intros Hn fuel'. unfold centreAlign. rewrite El, centre_loop_diverges; [done| |lia].
    by apply centre_bound_narrow.
Qed.

Lemma centreAlign_correct_witness :
  centreAlign 10 "ab" "xyz" 10 = Ok "ab  xyz"%string /\ forall fuel, centreAlign fuel "" "centred" 4 = NoFuel.
Proof.
  split.
  - destruct (centreAlign_correct 10 "ab" "xyz" 10) as [H _]; [done..|]. by apply H.
  - destruct (centreAlign_correct 10 "" "centred" 4) as [_ H]; [done..|vm_compute; lia|]. by apply H.
Defined.

(** ** Waiting *)

Lemma deadline_eq s ns :
  deadline s ns =
    if 1000000000 <? ns + 250000000 then Ok (s + 0 + 1, ns + 250000000 - 1000000000)
    else Ok (s + 0, ns + 250000000).
Proof.
  unfold deadline. set (a := to_signed 64 (ffloor updateIntervalSeconds)). vm_compute in a. subst a.
  set (b := to_signed 64 (fmul _ _)). vm_compute in b. by subst b.
Qed.

(** A time that pthread_mutex_timedlock(3) accepts. *)
Definition valid_time (t : Z * Z) : bool := (0 <=? snd t) && (snd t <? 1000000000).

(** The display waits a quarter of a second, but for one reading of the clock.
    The deadline is 250 ms after the reading; it is a valid time unless the nanoseconds
    are exactly 750000000, since the carry is taken above and not at 1000000000; then
    pthread_mutex_timedlock, while join has not released the mutex, reports EINVAL
    and the assertion ends the process. *)
Theorem progress_wait_correct fuel r rs last d out lines d' s ns :
  rd_done r = false -> showProgress fuel d (rd_sample r) = Ok (lines, d') ->
  rd_clock r = (s, ns) -> 0 <= ns < 1000000000 ->
  (forall t, valid_time t = false -> rd_lock r t = EINVAL) ->
  (forall t, valid_time t = true -> rd_lock r t = 0 \/ rd_lock r t = ETIMEDOUT) ->
  (ns = 750000000 -> showProgressLoop fuel (r :: rs) last d out = Fault AssertFailed) /\
  (ns <> 750000000 -> exists t, deadline s ns = Ok t /\
     fst t * 1000000000 + snd t = s * 1000000000 + ns + 250000000 /\
     showProgressLoop fuel (r :: rs) last d out =
       (if rd_lock r t =? 0 then
          let! v := showProgress fuel d' last in Ok ((out ++ lines) ++ fst v, snd v)
        else showProgressLoop fuel rs last d' (out ++ lines))).
Proof.
  intros Hd Hs Hc Hns Hl Hv. cbn [showProgressLoop]. rewrite Hd, Hs. cbn [rbind]. rewrite Hc. cbn [fst snd].
  rewrite deadline_eq. split.
  - intros ->. case_z; [lia|]. cbn [rbind]. by rewrite Hl.
  - intros Hne. case_z; eexists; (split; [done|]); (split; [cbn; lia|]); cbn [rbind].
    + destruct (Hv (s + 0 + 1, ns + 250000000 - 1000000000)) as [-> | ->]; try done.
      unfold valid_time. cbn [snd]. apply andb_true_iff. split; lia.
    + destruct (Hv (s + 0, ns + 250000000)) as [-> | ->]; try done.
      unfold valid_time. cbn [snd]. apply andb_true_iff. split; lia.
Qed.

(** A first drawing on a line of 100 columns, two and a half seconds in. *)
Definition demo_display : display := mk_display 0 [mk_point 0 0] true ETA.eta0.
Definition demo_sample (width : Z) (total : bool) : sample :=
  mk_sample width 2500000000 2500000000 2500000000 300000000 100000000 total [] (fun e => e).
Definition demo_round (ns : Z) : round :=
  mk_round false (demo_sample 100 false) (7, ns) (fun t => if valid_time t then ETIMEDOUT else EINVAL).

Definition demo_drawn : list string * display :=
  Eval vm_compute in
    match showProgress 100 demo_display (demo_sample 100 false) with
    | Ok v => v
    | _ => ([], demo_display)
    end.

Lemma demo_draws :
  showProgress 100 demo_display (rd_sample (demo_round 750000000)) = Ok (fst demo_drawn, snd demo_drawn).
Proof. by vm_compute. Qed.

Lemma progress_wait_correct_witness :
  showProgressLoop 100 [demo_round 750000000] (demo_sample 100 false) demo_display [] = Fault AssertFailed.
Proof.
  apply (progress_wait_correct 100 (demo_round 750000000) [] (demo_sample 100 false) demo_display []
    (fst demo_drawn) (snd demo_drawn) 7 750000000 eq_refl demo_draws eq_refl).
  - done.
  - intros t Ht. cbn. by rewrite Ht.
  - intros t Ht. right. cbn. by rewrite Ht.
  - done.
Defined.

(** ** Drawings that go wrong *)

Lemma slen_decimal N d : 1 <= slen (decimal N d).
Proof.
  unfold decimal. rewrite !slen_app. pose proof (slen_nonneg (pretty (N / 10 ^ d))).
  pose proof (slen_nonneg (leftPad "" (pretty (N mod 10 ^ d)) d zero_char)).
  change (slen ".") with 1. lia.
Qed.

Lemma slen_num x : 1 <= slen (numDecimalPoints x 2).
Proof.
  assert (forall (b : bool) t, 1 <= slen t -> 1 <= slen ((if b then "-" else "") +:+ t)) as H
    by (intros b t Ht; rewrite slen_app; pose proof (slen_nonneg (if b then "-" else "")%string); lia).
  destruct x; cbn [numDecimalPoints]; try apply H; try apply slen_decimal; by vm_compute.
Qed.

Lemma slen_size n : 3 <= slen (humanFriendlyFileSize n).
Proof.
  unfold humanFriendlyFileSize. destruct (size_and_unit n) as [x unit] eqn:E.
  rewrite !slen_app. pose proof (slen_num x). change (slen " ") with 1.
  assert (1 <= slen unit); [|lia].
  unfold size_and_unit in E. by repeat case_match; injection E as _ <-; vm_compute.
Qed.

Lemma slen_centre_text s : slen (centre_text s) < 2 ^ 30 -> 16 <= slen (centre_text s).
Proof.
  unfold centre_text. rewrite !slen_app. change (slen " / ") with 3.
  set (x := humanFriendlyFileSize (copied s)). set (y := if haveTotal s then _ else _).
  assert (3 <= slen y) as Hy.
  { unfold y. destruct (haveTotal s); [apply slen_size|by vm_compute]. }
  intros Hlt. pose proof (slen_leftPad "" x 10 space) as Hp.
  assert (slen x < 2 ^ 30) as Hx by lia.
  rewrite leftPad_eq in * by done. rewrite !slen_app, slen_repeat in *. change (slen "") with 0 in *.
  pose proof (slen_nonneg x). lia.
Qed.

(** On a terminal of fewer than 16 columns, or when standard output is not a terminal
    and the width is therefore 0, the first drawing never ends. *)
Theorem narrow_terminal_hangs fuel d s elapsed m :
  0 <= termWidth s < 16 -> slen (centre_text s) < 2 ^ 30 ->
  humanFriendlyTime (seconds_between (started d) (clock1 s)) = Ok elapsed ->
  slen elapsed < 2 ^ 30 -> measure d s = Ok m ->
  showProgress fuel d s = NoFuel.
Proof.
  intros Hw Hc He Hel Hm. unfold showProgress, status_line. rewrite He. cbn [rbind]. rewrite Hm.
  cbn [rbind]. destruct m as [bps q]. pose proof (slen_centre_text s Hc) as Hc16.
  assert (centreAlign fuel (" Elapsed: " +:+ elapsed) (centre_text s) (termWidth s) = NoFuel) as ->; [|done].
  unfold centreAlign. rewrite centre_loop_diverges; [done| |].
  - apply centre_bound_narrow; [lia| |lia]. Z.div_mod_to_equations. lia.
  - unfold wrap. by apply Z.mod_pos_bound.
Qed.

Lemma narrow_terminal_hangs_witness :
  showProgress 1000 demo_display (demo_sample 0 false) = NoFuel.
Proof.
  destruct (measure demo_display (demo_sample 0 false)) as [m| |] eqn:E; [|by vm_compute in E..].
  apply (narrow_terminal_hangs 1000 demo_display (demo_sample 0 false) "02s" m);
    [done|by vm_compute|by vm_compute|by vm_compute|exact E].
Defined.

Lemma no_time_left x : humanFriendlyTime (ETA.ddiv x (ETA.of_Z 0)) = Fault Undefined.
Proof. by destruct x. Qed.

Lemma last_eta_text s bps e :
  haveTotal s = true -> ETA.bigCopiesRemaining e = 0 -> ETA.smallCopiesRemaining e = 0 ->
  forall v, eta_text s bps e <> Ok v.
Proof.
  intros Ht Hb Hs v. unfold eta_text. rewrite Ht.
  destruct (ETA.updateSpeedEstimate bps e) as [e'|] eqn:E; [|done]. cbn [lift_option rbind].
  assert (ETA.bigCopiesRemaining e' = 0 /\ ETA.smallCopiesRemaining e' = 0) as [Hb' Hs'].
  { unfold ETA.updateSpeedEstimate in E. destruct (_ <=? _); [|by injection E as <-].
    destruct (Rolling.getBitsOnCount _ _) as [idx|]; [|done]. cbn in E.
    destruct (negb _); [done|]. destruct (zget _ idx) as [b|]; [|done]. cbn in E.
    destruct (zset _ _ _) as [l|]; [|done]. by injection E as <-. }
  unfold ETA.getEta. rewrite Hb', Hs'. cbn [Z.eqb andb lift_option rbind].
  change (SFeqb (ETA.of_Z 0) (ETA.of_Z (-1))) with false. cbn [negb].
  by rewrite no_time_left.
Qed.

(** When every copy has been completed the estimator returns a speed of zero, the time
    left is a division by it, and its conversion to an integer is undefined: this is
    the state of the last drawing of every run that finishes. *)
Theorem last_drawing_undefined fuel d s :
  haveTotal s = true -> ETA.bigCopiesRemaining (between s (dp_eta d)) = 0 ->
  ETA.smallCopiesRemaining (between s (dp_eta d)) = 0 -> forall v, showProgress fuel d s <> Ok v.
Proof.
  intros Ht Hb Hs v. unfold showProgress, status_line.
  destruct (humanFriendlyTime _) as [el| |]; [|done..]. cbn [rbind].
  destruct (measure d s) as [[bps q]| |]; [|done..]. cbn [rbind].
  destruct (centreAlign _ _ _ _) as [l| |]; [|done..]. cbn [rbind].
  destruct (to_unsigned 64 bps) as [sp| |]; [|done..]. cbn [rbind].
  pose proof (last_eta_text s bps (between s (dp_eta d)) Ht Hb Hs) as Hn.
  destruct (eta_text s bps (between s (dp_eta d))) as [te| |]; [by destruct (Hn te)|done..].
Qed.

(** A copy of 100 MB, finished: the conversion is reached. *)
Lemma last_drawing_undefined_witness :
  (forall v, showProgress 100 demo_display (mk_sample 100 2500000000 2500000000 2500000000
     100000000 100000000 true [] (fun e => e)) <> Ok v) /\
  showProgress 100 demo_display (mk_sample 100 2500000000 2500000000 2500000000
    100000000 100000000 true [] (fun e => e)) = Fault Undefined.
Proof. split; [apply last_drawing_undefined; reflexivity|by vm_compute]. Defined.
