(* ===== verification/Main.v ===== *)
(** * The program (src/src/wcpMain.cpp, src/src/main.cpp)

    [wcpMain]: the check of the kernel's version, the sizes of the queue, the choice of
    the destination, and the copy.  The host is the class [Host]: what uname(2),
    sysconf(3) and getcwd(3) report, and access(2) and aligned_alloc(3).  Paths are
    strings; the operations of std::filesystem::path are written out for POSIX.  The
    submit thread runs when [join] waits for it. *)

From stdpp Require Import gmap strings.
From S2P Require Import Prelude Abi Prep RingBuf Ring Kernel Queue Os Setup Util Heap Eta CopyState FileDesc Runner CopyQueue Lifecycle FileTree TraverseSpec TreeQueue.

Class Host (W : Type) : Type := {
  h_tree :: Tree W;
  h_os :: Os W;
  h_kernel :: Kernel W;
  h_sysname : string;
  h_release : string;
  h_phys_pages : Z;
  h_page_size : Z;
  h_cwd : string;
  h_tty : bool;      (** standard error is a terminal and TERM is set *)
  h_aligned_alloc : W -> forall (align len : Z), W * Z;
  h_access : W -> string -> W * Z * Z;
}.

(** What the manual pages say of what the process owns: aligned_alloc(3) returns null, or
    a block of its own that is aligned; open(2) fails, or returns a number that was not
    in use; close(2) frees the number, whatever it returns; the other calls allocate
    nothing. *)
Class HostLaws (W : Type) {H : Host W} : Prop := {
  hl_os :: OsLaws W;
  hl_alloc w align len w' p : h_aligned_alloc w align len = (w', p) ->
    (p = 0 /\ owns w' = owns w) \/
    (0 < p /\ p mod align = 0 /\ (p ∉ os_heap w) /\ owns w' = add_block p (owns w));
  hl_open w path oflag mode w' v e : f_open w path oflag mode = (w', v, e) ->
    (v < 0 /\ owns w' = owns w) \/ (0 <= v /\ (v ∉ os_fds w) /\ owns w' = add_fd v (owns w));
  hl_close w fd w' v e : f_close w fd = (w', v, e) ->
    owns w' = if 0 <=? fd then del_fd fd (owns w) else owns w;
  hl_enter w r fd sub mn fl a sz w' r' v e :
    sys_enter w r fd sub mn fl a sz = (w', r', v, e) -> owns w' = owns w;
  hl_access w path w' v e : h_access w path = (w', v, e) -> owns w' = owns w;
  hl_tree :: TreeContents W owns;
}.

(** ** The version of the kernel *)

Record OsVersion : Type := mk_version { osName : string; majorVersion : Z; minorVersion : Z }.

Definition isdigit (c : Ascii.ascii) : bool :=
  let n := Ascii.nat_of_ascii c in (Nat.leb 48 n) && (Nat.leb n 57).

Definition dot : Ascii.ascii := Ascii.ascii_of_nat 46.

(** The value of a string of digits. *)
Fixpoint digits_value (acc : Z) (s : string) : Z :=
  match s with
  | EmptyString => acc
  | String c s => digits_value (10 * acc + (Z.of_nat (Ascii.nat_of_ascii c) - 48)) s
  end.

(** [std::stoi] of a string of digits; [None]: it throws, and nothing catches. *)
Definition stoi (s : string) : option Z :=
  if bool_decide (s = ""%string) then None
  else let n := digits_value 0 s in if n <? 2 ^ 31 then Some n else None.

(** The loop over the rest of the release, [acc] the digits since the last dot. *)
Fixpoint version_loop (release acc : string) (version : OsVersion) : option OsVersion :=
  match release with
  | EmptyString => Some version
  | String c rest =>
      if isdigit c then version_loop rest (acc +:+ String c "") version
      else if bool_decide (c = dot) then
        if majorVersion version =? -1 then
          n ← stoi acc; version_loop rest "" (mk_version (osName version) n (minorVersion version))
        else
          n ← stoi acc; Some (mk_version (osName version) (majorVersion version) n)
      else Some version
  end.

Definition getOsVersion (sysname release : string) : option OsVersion :=
  version_loop release "" (mk_version sysname (-1) (-1)).

Definition version_too_old (v : OsVersion) : bool :=
  (majorVersion v <? 5) || ((majorVersion v =? 5) && (minorVersion v <? 6)).

(** ** Paths *)

Fixpoint filename_from (s name : string) : string :=
  match s with
  | EmptyString => name
  | String c s => if bool_decide (c = slash) then filename_from s "" else filename_from s (name +:+ String c "")
  end.

(** What follows the last slash. *)
Definition filename (p : string) : string := filename_from p "".

Definition has_filename (p : string) : bool := negb (bool_decide (filename p = ""%string)).

Definition is_absolute (p : string) : bool := bool_decide (String.get 0 p = Some slash).

(** [p /= q] *)
Definition path_append (p q : string) : string :=
  if is_absolute q then q else if has_filename p then p +:+ "/" +:+ q else p +:+ q.

Definition absolute (cwd p : string) : string := if is_absolute p then p else path_append cwd p.

(** [n] characters at most, dropping the slashes they end with. *)
Fixpoint strip_slashes (n : nat) (p : string) : string :=
  match n with
  | O => p
  | S m =>
      if bool_decide (String.get m p = Some slash) then strip_slashes m (String.substring 0 m p) else p
  end.

Definition has_relative_path (p : string) : bool :=
  negb (bool_decide (strip_slashes (String.length p) p = ""%string)).

Definition parent_path (p : string) : string :=
  if has_relative_path p then
    let d := String.substring 0 (String.length p - String.length (filename p)) p in
    let t := strip_slashes (String.length d) d in
    if bool_decide (t = ""%string) && is_absolute d then "/" else t
  else p.

(** The directory that must exist. *)
Definition dest_real_parent (cwd dest : string) : string :=
  let p := absolute cwd dest in
  parent_path (if has_filename p then p else parent_path p).

(** ** The copy *)

Definition oneGig : Z := 1024 * 1024 * 1024.
Definition main_blockSize : Z := 128 * 1024 * 1024.
Definition main_cap : Z := 900.

(** How it ends: the status main returns, or the one the process exited with; the
    errors reported; and whether the queue was joined, so that its destructor finds no
    thread using it. *)
Record ending : Type := mk_ending { status : Z; reported : list Error; joined : bool }.

Section main.
Context {W : Type} {H : Host W} (cfg : config) (rand : Z -> Z).
Context (n inner fuel jobFuel : nat) (i1 i2 : bool).

Definition getPhysicalRamSize : prog (ost W) Z :=
  do* assert (negb (h_phys_pages =? -1) && negb (h_page_size =? -1)) in
  ret (u64 (u64 h_phys_pages * u64 h_page_size)).

(** A call of the operating system on the world of the queue. *)
Definition on_world {A} (m : prog (ost W) A) : prog (loop W) A := on_cq (on_queue (with_os m)).

(** The copy queue of the main thread. *)
#[export] Instance loop_sink : Sink (loop W) W := {|
  s_os A m := on_world m;
  s_onError e := on_cq (onError e);
  s_addCopyJob a b st := on_cq (addCopyJob jobFuel i1 i2 a b st);
|}.

Definition NO_CLEANUP_action (no_cleanup : bool) : OnCompletionAction :=
  if no_cleanup then ExitProcessNoCleanup else Return.

(** [copyQueue.join(completionAction)] and [return int(!success)]. *)
Definition finish (no_cleanup : bool) : prog (loop W) ending :=
  let* out := join cfg rand n inner fuel (NO_CLEANUP_action no_cleanup) in
  let* l := get in
  let errors := errorMessages (lp_cq l) in
  match out with
  | Exited st => ret (mk_ending st errors false)
  | Joined success => ret (mk_ending (Z.b2z (negb success)) errors true)
  end.

(** [return 1] with the queue started. *)
Definition early_return : prog (loop W) ending :=
  let* l := get in ret (mk_ending 1 (errorMessages (lp_cq l)) false).

(** From [copyQueue.start()] on. *)
Definition copy_all (no_cleanup : bool) (src dest : string) : prog (loop W) ending :=
  do* on_cq (start h_tty) in
  let* srcStat := on_world (myStatx src) in
  match srcStat with
  | inl _ => early_return
  | inr srcStat =>
      let* v := on_world (retrySyscall
                  (fun _ => let* r := syscall_out (fun w => t_statx w dest) in ret (fst r)) no_stat) in
      let '(destStatResult, destStat) := v in
      if negb (destStatResult =? 0) && negb (destStatResult =? ENOENT) then early_return
      else
        let* a := on_world (syscall (fun w => h_access w (dest_real_parent h_cwd dest))) in
        do* assert (a =? 0) in
        if S_ISDIR (stx_mode srcStat) then
          let dest := path_append dest (filename src) in
          do* on_world (recursiveMkdir dest) in
          do* (if destStatResult =? 0 then assert (S_ISDIR (stx_mode destStat)) else ret tt) in
          do* addRecursiveCopy fuel src dest in
          finish no_cleanup
        else if S_ISREG (stx_mode srcStat) then
          let dest :=
            if (destStatResult =? 0) && S_ISDIR (stx_mode destStat)
            then path_append dest (filename src) else dest in
          do* on_cq (addFileCopy jobFuel i1 i2 src dest (inr srcStat)) in
          finish no_cleanup
        else raise AssertFailed
  end.

(** The scope of [copyQueue].  At its end the destructor runs; not if the process has
    exited, and what it does beside threads that still run is not modelled. *)
Definition with_copy_queue (rp : ring_ptrs) (c : cqueue W) (m : prog (loop W) ending)
    : prog (ost W) ending :=
  fun _ =>
    match m (mk_loop c 0 [] 0) with
    | Ok (e, l) =>
        (do* (if joined e then CopyQueue_delete rp (lp_cq l) else ret tt) in ret e)
          (qu_os (cq_queue (lp_cq l)))
    | Fault f => Fault f
    | NoFuel => NoFuel
    end.

(** [Heap(blocks, blockSize)], its memory from aligned_alloc(3). *)
Definition new_heap (nblocks bsize : Z) : prog (ost W) Heap.heap :=
  fun s =>
    let '(w, base) := h_aligned_alloc (o_world s) 4096 (u64 (nblocks * bsize)) in
    match Heap.make nblocks bsize 4096 base tt with
    | Ok (h, _) => Ok (h, mk_ost w (o_errno s))
    | Fault f => Fault f
    | NoFuel => NoFuel
    end.

Definition ram_quota (ram : Z) : Z := Z.max (ram / 10) oneGig.

Definition wcpMain (no_cleanup : bool) (argv : list string) : prog (ost W) ending :=
  match getOsVersion h_sysname h_release with
  | None => raise Undefined
  | Some v =>
      if negb (bool_decide (osName v = "Linux"%string)) then ret (mk_ending 1 [] false)
      else if version_too_old v then ret (mk_ending 1 [] false)
      else
        match argv with
        | [_; src; dest] =>
            do* assert (negb (bool_decide (src = ""%string)) && negb (bool_decide (dest = ""%string))) in
            let* ram := getPhysicalRamSize in
            let ringSize := ram_quota ram / main_blockSize in
            let* h := new_heap (ram_quota ram / main_blockSize) main_blockSize in
            let '(mine, rest) := Heap.move h in
            let* (rp, c) := CopyQueue_new ringSize main_cap mine in
            do* Heap_delete rest in
            with_copy_queue rp c (copy_all no_cleanup src dest)
        | _ => ret (mk_ending 1 [] false)
        end
  end.
End main.
