(* ===== verification/Host.v ===== *)
(** * A host, for the witnesses

    The tree of CopyTree.v below "s", a file "f", every file of 10000 bytes and served
    by the disk of Demo.v, and the system of SimOs.v, which makes a ring of 8 entries.
    The whole program runs on it. *)

From stdpp Require Import gmap strings.
From S2P Require Import Prelude Abi Prep RingBuf Ring Kernel Queue Os SimOs Util Heap CopyState Runner RunnerData RunnerLive RunnerSpec CopyQueue CopyJob SubmitLoop Shape Accounts System Demo SystemSpec Lifecycle FileTree TraverseSpec TreeWorld CopyTree Main.

Record host_world : Type := mk_hw { hw_tree : tree_world; hw_disk : disk; hw_sim : sim }.

Definition hw_set_tree (t : tree_world) (w : host_world) : host_world := mk_hw t (hw_disk w) (hw_sim w).
Definition hw_set_disk (d : disk) (w : host_world) : host_world := mk_hw (hw_tree w) d (hw_sim w).
Definition hw_set_sim (s : sim) (w : host_world) : host_world := mk_hw (hw_tree w) (hw_disk w) s.

Definition on_tree {B} (f : tree_world -> tree_world * B * Z * Z) (w : host_world) : host_world * B * Z * Z :=
  let '(t, b, v, e) := f (hw_tree w) in (hw_set_tree t w, b, v, e).
Definition on_tree0 (f : tree_world -> tree_world * Z * Z) (w : host_world) : host_world * Z * Z :=
  let '(t, v, e) := f (hw_tree w) in (hw_set_tree t w, v, e).
Definition on_sim (f : sim -> sim * Z * Z) (w : host_world) : host_world * Z * Z :=
  let '(s, v, e) := f (hw_sim w) in (hw_set_sim s w, v, e).

(** What the process owns changes. *)
Definition on_owned (f : owned -> owned) (w : host_world) : host_world :=
  let s := hw_sim w in
  hw_set_sim (mk_sim (f (sim_owned s)) (sim_nofork s) (sim_word s) (sim_params s) (sim_plan s)) w.

(** Directories are those of the tree, every other path can be opened; the number is one
    that is not in use. *)
Definition HostFiles : Files host_world := {|
  f_open w p oflag mode :=
    let fd := above (elements (ow_fds (sim_owned (hw_sim w)))) in
    let t := hw_tree w in
    if negb (flag_set oflag O_DIRECTORY) then (on_owned (add_fd fd) w, fd, 0)
    else if is_directory demo_tree p
    then (on_owned (add_fd fd) (hw_set_tree (tw_set_open (<[fd := (p, O)]> (tw_open t)) t) w), fd, 0)
    else (w, -1, ENOENT);
  f_close w fd :=
    let t := hw_tree w in
    if fd <? 0 then (w, -1, EBADF)
    else (on_owned (del_fd fd) (hw_set_tree (tw_set_open (delete fd (tw_open t)) t) w), 0, 0);
|}.

Definition dir_stat : statx := mk_statx 4096 4096 (16384 + 493).

Definition HostTree : Tree host_world := {|
  t_files := HostFiles;
  t_mkdir w p mode := on_tree0 (fun t => t_mkdir (Tree := demo_calls) t p mode) w;
  t_stat w p := on_tree (fun t => t_stat (Tree := demo_calls) t p) w;
  t_statx w p :=
    if bool_decide (p = "s"%string) then (w, dir_stat, 0, 0)
    else if bool_decide (p = "f"%string) then (w, mk_statx 10000 4096 (32768 + 420), 0, 0)
    else on_tree (fun t => t_statx (Tree := demo_calls) t p) w;
  t_getdents w fd k := on_tree (fun t => t_getdents (Tree := demo_calls) t fd k) w;
  t_readlink w p k := on_tree (fun t => t_readlink (Tree := demo_calls) t p k) w;
  t_symlink w a b := on_tree0 (fun t => t_symlink (Tree := demo_calls) t a b) w;
|}.

Definition HostOs : Os host_world := {|
  os_setup w k p := let '(s, p, v, e) := os_setup (Os := SimOs) (hw_sim w) k p in (hw_set_sim s w, p, v, e);
  os_mmap w a l p f fd off := on_sim (fun s => os_mmap (Os := SimOs) s a l p f fd off) w;
  os_munmap w a l := on_sim (fun s => os_munmap (Os := SimOs) s a l) w;
  os_madvise w a l v := on_sim (fun s => os_madvise (Os := SimOs) s a l v) w;
  os_close w fd := on_sim (fun s => os_close (Os := SimOs) s fd) w;
  os_register w fd op a k := on_sim (fun s => os_register (Os := SimOs) s fd op a k) w;
  os_malloc w k := let '(s, a) := os_malloc (Os := SimOs) (hw_sim w) k in (hw_set_sim s w, a);
  os_free w a := hw_set_sim (os_free (Os := SimOs) (hw_sim w) a) w;
  os_read32 w a := os_read32 (Os := SimOs) (hw_sim w) a;
  os_maps w := os_maps (Os := SimOs) (hw_sim w);
  os_fds w := os_fds (Os := SimOs) (hw_sim w);
  os_heap w := os_heap (Os := SimOs) (hw_sim w);
  os_nofork w := os_nofork (Os := SimOs) (hw_sim w);
|}.

Definition HostKernel : Kernel host_world := {|
  sys_enter w r fd sub mn fl a sz :=
    let '(d, r, v, e) := disk_enter (hw_disk w) r fd sub mn fl a sz in (hw_set_disk d w, r, v, e);
|}.

Definition demo_host : Host host_world := {|
  h_tree := HostTree; h_os := HostOs; h_kernel := HostKernel;
  h_sysname := "Linux"; h_release := "6.1.0-13-amd64";
  h_phys_pages := 2 ^ 20; h_page_size := 4096; h_cwd := "/home"; h_tty := false;
  h_aligned_alloc w align len :=
    if bool_decide (2 ^ 30 ∈ ow_heap (sim_owned (hw_sim w))) || negb (2 ^ 30 mod align =? 0) then (w, 0)
    else (on_owned (add_block (2 ^ 30)) w, 2 ^ 30);
  h_access w p := (w, if bool_decide (p = "/home"%string) then 0 else -1, ENOENT);
|}.

(** The standard descriptors are open. *)
Definition standard : owned := mk_owned ∅ {[0; 1; 2]} ∅.

Definition demo_world : ost host_world :=
  mk_ost (on_owned (fun _ => standard) (mk_hw (mk_tw ∅ ∅ []) (mk_disk 10000 3 0) ring8)) 0.

Definition demo_run (src dest : string) : res (ending * ost host_world) :=
  wcpMain (H := demo_host) plain (fun _ => 0) 20 20 20 2 false false false ["wcp"%string; src; dest] demo_world.

(** ** The laws *)

Lemma host_owns (w : host_world) : owns (O := HostOs) w = owns (O := SimOs) (hw_sim w).
Proof. done. Qed.

#[export] Instance host_os_laws : OsLaws (O := HostOs) host_world.
Proof.
  destruct SimOs_laws as [L1 L2 L3 L4 L5 L6 L7 L8].
  split; intros w; cbn [os_setup os_mmap os_munmap os_madvise os_close os_register os_malloc os_free HostOs];
    unfold on_sim; rewrite ?host_owns.
  - intros n p w' p' v e. destruct (os_setup _ _ _) as [[[s p1] v1] e1] eqn:E. intros [= <- <- <- <-].
    exact (L1 _ _ _ _ _ _ _ E).
  - intros a len pr fl fd off w' v e. destruct (os_mmap _ _ _ _ _ _ _) as [[s v1] e1] eqn:E.
    intros [= <- <- <-]. exact (L2 _ _ _ _ _ _ _ _ _ _ E).
  - intros a len w' v e. destruct (os_munmap _ _ _) as [[s v1] e1] eqn:E. intros [= <- <- <-].
    exact (L3 _ _ _ _ _ _ E).
  - intros a len adv w' v e. destruct (os_madvise _ _ _ _) as [[s v1] e1] eqn:E. intros [= <- <- <-].
    exact (L4 _ _ _ _ _ _ _ E).
  - intros fd w' v e. destruct (os_close _ _) as [[s v1] e1] eqn:E. intros [= <- <- <-].
    exact (L5 _ _ _ _ _ E).
  - intros fd op a nr w' v e. destruct (os_register _ _ _ _ _) as [[s v1] e1] eqn:E. intros [= <- <- <-].
    exact (L6 _ _ _ _ _ _ _ _ E).
  - intros len w' a. destruct (os_malloc _ _) as [s a1] eqn:E. intros [= <- <-]. exact (L7 _ _ _ _ E).
  - intros a Ha. exact (L8 _ _ Ha).
Qed.

Lemma host_on_owned f (w : host_world) : owns (O := HostOs) (on_owned f w) = f (owns (O := HostOs) w).
Proof. rewrite !host_owns, !sim_owns. done. Qed.

Lemma host_tree_calls : TreeContents (T := HostTree) host_world (owns (O := HostOs)).
Proof.
  assert (forall B f w w' (b : B) v e, on_tree f w = (w', b, v, e) -> owns (O := HostOs) w' = owns (O := HostOs) w) as H1.
  { intros B f w w' b v e. unfold on_tree. destruct (f _) as [[[t b1] v1] e1]. by intros [= <- _ _ _]. }
  assert (forall f w w' v e, on_tree0 f w = (w', v, e) -> owns (O := HostOs) w' = owns (O := HostOs) w) as H0.
  { intros f w w' v e. unfold on_tree0. destruct (f _) as [[t v1] e1]. by intros [= <- _ _]. }
  split; intros w; cbn [t_mkdir t_stat t_statx t_getdents t_readlink t_symlink HostTree].
  - intros p m w' v e. apply H0.
  - intros p w' b v e. apply H1.
  - intros p w' b v e. destruct (bool_decide _); [by intros [= <- _ _ _]|].
    destruct (bool_decide _); [by intros [= <- _ _ _]|]. apply H1.
  - intros fd n w' b v e. apply H1.
  - intros p n w' b v e. apply H1.
  - intros t p w' v e. apply H0.
Qed.

#[export] Instance demo_host_laws : HostLaws (H := demo_host) host_world.
Proof.
  split; [exact host_os_laws|..|exact host_tree_calls]; intros w.
  - intros align len w' p. cbn [h_aligned_alloc demo_host].
    destruct (bool_decide _ || _) eqn:E; intros [= <- <-]; [by left|right].
    apply orb_false_iff in E as [E1%bool_decide_eq_false E2%negb_false_iff%Z.eqb_eq].
    split_and!; done.
  - intros p oflag mode w' v e. cbn [f_open t_files h_tree demo_host HostTree HostFiles].
    set (fds := ow_fds _). pose proof (above_fresh fds) as Hf. pose proof (above_nonneg (elements fds)).
    destruct (negb _); [intros [= <- <- _]; right; rewrite host_on_owned; by split_and!|].
    destruct (is_directory _ _); intros [= <- <- _]; [right|by left].
    rewrite host_on_owned. by split_and!.
  - intros fd w' v e. cbn [f_close t_files h_tree demo_host HostTree HostFiles].
    destruct (Z.ltb_spec fd 0), (Z.leb_spec 0 fd); try lia; intros [= <- _ _]; [done|].
    by rewrite host_on_owned.
  - intros r fd sub mn fl a sz w' r' v e. cbn [sys_enter h_kernel demo_host HostKernel].
    destruct (disk_enter _ _ _ _ _ _ _ _) as [[[d r1] v1] e1]. by intros [= <- _ _ _].
  - intros p w' v e [= <- _ _]. done.
Qed.
