(* ===== verification/MainSpec.v ===== *)
(** * What the program promises

    The version it reads, the queue it builds, and the exit status. *)

From stdpp Require Import gmap strings.
From S2P Require Import Prelude Abi Prep RingBuf Ring Kernel Queue Os SimOs Setup Util Heap Eta CopyState FileDesc Runner RunnerData RunnerLive RunnerSpec CopyQueue CopyJob SubmitLoop Shape Accounts System Demo SystemSpec Lifecycle FileTree TraverseSpec TreeQueue TreeWorld CopyTree Main Host.

(** ** The version *)

(** A number, as digits. *)
Fixpoint all_digits (s : string) : bool :=
  match s with EmptyString => true | String c s => isdigit c && all_digits s end.

Lemma app_string_cons c (a b : string) : String c a +:+ b = String c (a +:+ b).
Proof. done. Qed.

Lemma version_digits a rest acc v :
  all_digits a = true -> version_loop (a +:+ rest) acc v = version_loop rest (acc +:+ a) v.
Proof.
  revert acc. induction a as [|c a IH]; intros acc Ha; [by rewrite append_nil_r|].
  cbn [all_digits] in Ha. apply andb_true_iff in Ha as [Hc Ha].
  rewrite app_string_cons. cbn [version_loop]. rewrite Hc, IH by done. by rewrite append_assoc.
Qed.

Lemma stoi_value a : a <> ""%string -> digits_value 0 a < 2 ^ 31 -> stoi a = Some (digits_value 0 a).
Proof. intros Ha Hv. unfold stoi. rewrite bool_decide_eq_false_2 by done. by case_z; [|lia]. Qed.

(** Where the scan stops without a second dot. *)
Definition stops (rest : string) : Prop :=
  match rest with EmptyString => True | String c _ => isdigit c = false /\ c <> dot end.

(** The version of the kernel is read from a release with two dots, and the minor
    version only from such a release.  From "a.b.rest" the versions are the numbers a
    and b; from "a.b" or "a.b-rest" the minor version stays -1, and since -1 is below 6
    a kernel 5.b of any b is then refused. *)
Theorem getOsVersion_reads sysname a b rest :
  all_digits a = true -> all_digits b = true -> a <> ""%string -> b <> ""%string ->
  digits_value 0 a < 2 ^ 31 -> digits_value 0 b < 2 ^ 31 ->
  getOsVersion sysname (a +:+ "." +:+ b +:+ "." +:+ rest) =
    Some (mk_version sysname (digits_value 0 a) (digits_value 0 b)) /\
  (stops rest ->
     getOsVersion sysname (a +:+ "." +:+ b +:+ rest) = Some (mk_version sysname (digits_value 0 a) (-1)) /\
     (digits_value 0 a = 5 -> version_too_old (mk_version sysname (digits_value 0 a) (-1)) = true)).
Proof.
  intros Ha Hb Na Nb Va Vb.
  assert (forall t, getOsVersion sysname (a +:+ "." +:+ b +:+ t) =
    version_loop t b (mk_version sysname (digits_value 0 a) (-1))) as E.
  { intros t. unfold getOsVersion. rewrite version_digits by done. change ("" +:+ a) with a.
    rewrite app_string_cons. change (("" : string) +:+ b +:+ t) with (b +:+ t).
    cbn [version_loop]. change (isdigit _) with false. cbv iota.
    rewrite bool_decide_eq_true_2 by done. cbn [majorVersion minorVersion osName].
    change (-1 =? -1) with true. cbv iota. rewrite stoi_value by done. cbn [mbind option_bind].
    by rewrite version_digits. }
  assert (-1 < digits_value 0 a) as Hpos.
  { clear -Ha. assert (forall s acc, all_digits s = true -> 0 <= acc -> 0 <= digits_value acc s) as H.
    { induction s as [|c s IH]; intros acc Hs Hacc; [done|]. cbn in *.
      apply andb_true_iff in Hs as [Hc Hs]. apply IH; [done|].
      unfold isdigit in Hc. apply andb_true_iff in Hc as [Hc _]. apply Nat.leb_le in Hc. lia. }
    specialize (H a 0 Ha ltac:(done)). lia. }
  split.
  - rewrite E. rewrite app_string_cons. cbn [version_loop]. change (isdigit _) with false. cbv iota.
    rewrite bool_decide_eq_true_2 by done. cbn [majorVersion minorVersion osName].
    case_z; [lia|]. by rewrite stoi_value.
  - intros Hs. rewrite E. split.
    + destruct rest as [|c rest]; [done|]. destruct Hs as [Hd Hc]. cbn [version_loop].
      rewrite Hd. by rewrite bool_decide_eq_false_2.
    + intros ->. done.
Qed.

Lemma getOsVersion_reads_witness :
  getOsVersion "Linux" "5.15.0-generic" = Some (mk_version "Linux" 5 15) /\
  getOsVersion "Linux" "5.15-rc1" = Some (mk_version "Linux" 5 (-1)) /\
  version_too_old (mk_version "Linux" 5 (-1)) = true.
Proof.
  destruct (getOsVersion_reads "Linux" "5" "15" "0-generic") as [H1 _]; [done..|].
  destruct (getOsVersion_reads "Linux" "5" "15" "-rc1") as [_ H2]; [done..|].
  destruct H2 as [H2 H3]; [by split|]. split_and!; [exact H1|exact H2|by apply H3].
Defined.

(** ** The configuration *)

Lemma main_chunk_size k :
  0 <= k <= 26 -> 2 ^ 26 <= chunk_size main_blockSize 4096 (2 ^ k).
Proof.
  intros Hk. unfold chunk_size, main_blockSize. pose proof (pow2_pos k (proj1 Hk)) as Hp.
  assert (2 ^ k <= 2 ^ 26) as Hle by (apply Z.pow_le_mono_r; lia).
  case_z; [|lia].
  rewrite (wrap_small 64 (128 * 1024 * 1024 - (2 ^ k - 1))) by (unfold in_u; lia).
  assert ((128 * 1024 * 1024 - (2 ^ k - 1)) / 2 ^ k * 2 ^ k = 2 ^ 27 - 2 ^ k) as ->.
  - assert ((128 * 1024 * 1024 - (2 ^ k - 1)) / 2 ^ k = 2 ^ (27 - k) - 1) as ->.
    { symmetry. apply (Z.div_unique _ _ _ 1); [left; lia|].
      assert (2 ^ k * 2 ^ (27 - k) = 2 ^ 27) as E by (rewrite <- Z.pow_add_r by lia; f_equal; lia).
      change (128 * 1024 * 1024) with (2 ^ 27). lia. }
    rewrite Z.mul_sub_distr_r, <- Z.pow_add_r, Z.mul_1_l by lia. do 2 f_equal. lia.
  - rewrite wrap_small by (unfold in_u; lia). change (2 ^ 27) with (2 ^ 26 + 2 ^ 26). lia.
Qed.

(** The heap of the program, at the address aligned_alloc(3) returned. *)
Definition main_heap (ram base : Z) : Heap.heap :=
  let n := ram_quota ram / main_blockSize in
  Heap.mk_heap (replicate (Z.to_nat n) false) base n main_blockSize 4096.

Lemma free_count_replicate n : zlen (filter (fun b => b = false) (replicate n false)) = Z.of_nat n.
Proof.
  unfold zlen. induction n as [|n IH]; [done|]. cbn [replicate]. rewrite filter_cons_True by done.
  cbn [length]. lia.
Qed.

Lemma main_blocks ram :
  in_u 64 ram -> let n := ram_quota ram / main_blockSize in
  8 <= n /\ n * main_blockSize <= ram_quota ram < 2 ^ 64.
Proof.
  intros Hr n. unfold in_u in Hr. assert (ram / 10 <= ram) by (apply Z.div_le_upper_bound; lia).
  assert (2 ^ 30 <= ram_quota ram < 2 ^ 64) as Hq by (unfold ram_quota, oneGig; lia).
  split; [|split; [|lia]].
  - unfold n, main_blockSize. apply Z.div_le_lower_bound; lia.
  - unfold n. rewrite Z.mul_comm. apply Z.mul_div_le. done.
Qed.

(** The heap of the program. *)
Lemma main_heap_ok ram base :
  in_u 64 ram -> base mod 4096 = 0 ->
  Heap.heap_ok (main_heap ram base) /\ (forall i, ~ Heap.used_at (main_heap ram base) i).
Proof.
  intros Hr Ha. destruct (main_blocks ram Hr) as (Hn & _). split.
  - split; cbn; try done. unfold zlen. rewrite length_replicate. lia.
  - intros i Hi. unfold Heap.used_at, zget in Hi. cbn in Hi. destruct (i <? 0); [done|].
    by apply lookup_replicate in Hi as [? _].
Qed.

Lemma new_main_heap {W} {Hh : Host W} ram o :
  in_u 64 ram -> let n := ram_quota ram / main_blockSize in
  exists w base, h_aligned_alloc (o_world o) 4096 (n * main_blockSize) = (w, base) /\
    new_heap n main_blockSize o = Ok (main_heap ram base, mk_ost w (o_errno o)).
Proof.
  intros Hr n. destruct (main_blocks ram Hr) as (Hn & Hle & Hq). fold n in Hn, Hle.
  assert (0 <= n * main_blockSize < 2 ^ 64) as Hin
    by (clear -Hn Hle Hq; clearbody n; unfold main_blockSize in *; lia).
  destruct (h_aligned_alloc _ _ _) as [w base] eqn:Hal. exists w, base. split; [done|].
  unfold new_heap. rewrite wrap_small by exact Hin.
  rewrite Hal. unfold Heap.make. rewrite (bind_ok _ _ tt tt tt) by done.
  rewrite (bind_ok _ _ tt tt tt); [done|]. unfold assert, Heap.getFreeBlocksCount. cbn [Heap.usedList].
  rewrite free_count_replicate. by case_z; [|lia].
Qed.

(** C26: the queue the program builds can plan every file it will meet.  Whatever the
    size of the memory, the heap has at least eight blocks, is the size asked of
    aligned_alloc without overflow and passes the assertions of its constructor, so
    that the ring asked for has at least eight entries and more than one runner fits;
    and a file of up to 2^56 bytes on a file system with blocks of up to 64 MiB, a
    power of two, is one whose chunks fit the blocks. *)
Theorem main_config_ok {W} {Hh : Host W} ram base w o e :
  in_u 64 ram -> 0 < base -> base mod 4096 = 0 ->
  let n := ram_quota ram / main_blockSize in
  h_aligned_alloc w 4096 (n * main_blockSize) = (o, base) ->
  new_heap n main_blockSize (mk_ost w e) = Ok (main_heap ram base, mk_ost o e) /\
  8 <= n /\ 2 * MAX_JOBS_PER_RUNNER <= n /\ n * main_blockSize <= Z.max (ram / 10) (2 ^ 30) /\
  Heap.heap_ok (main_heap ram base) /\ (forall i, ~ Heap.used_at (main_heap ram base) i) /\
  forall st k, stx_blksize st = 2 ^ k -> 0 <= k <= 26 -> 0 <= stx_size st < 2 ^ 56 ->
    plannable (main_heap ram base) st.
Proof.
  intros Hr Hb Ha n Hal. destruct (main_blocks ram Hr) as (Hn & Hle & Hq). fold n in Hn, Hle.
  destruct (main_heap_ok ram base Hr Ha) as [Hok Hfree]. split.
  { destruct (new_main_heap ram (mk_ost w e) Hr) as (w' & b & Hal' & Hnew). cbn [o_world o_errno] in *.
    fold n in Hal', Hnew. rewrite Hal in Hal'. by injection Hal' as <- <-. }
  split; [exact Hn|]. split; [unfold MAX_JOBS_PER_RUNNER; clear -Hn; clearbody n; lia|].
  split; [transitivity (ram_quota ram); [exact Hle|apply Z.le_refl]|]. split; [exact Hok|].
  split; [exact Hfree|].
  intros st k Hk Hkr Hs. destruct (Z.eq_dec (stx_size st) 0) as [|Hne]; [by left|right].
  assert (2 ^ k <= 2 ^ 26) as Hpk by (apply Z.pow_le_mono_r; lia).
  split; cbn [main_heap Heap.alignment Heap.blockSize].
  - exact Hok.
  - by exists 12.
  - exists k. split; [lia|done].
  - rewrite Hk. unfold main_blockSize. lia.
  - right. rewrite Hk. unfold main_blockSize. lia.
  - lia.
  - rewrite Hk. pose proof (main_chunk_size k Hkr) as Hcs. set (cs := chunk_size _ _ _) in *.
    unfold chunk_count. apply Z.div_lt_upper_bound; nia.
Qed.

Lemma main_config_ok_witness :
  Heap.heap_ok (main_heap (2 ^ 32) (2 ^ 30)) /\
  plannable (main_heap (2 ^ 32) (2 ^ 30)) (mk_statx (2 ^ 40) 4096 33188).
Proof.
  destruct (main_config_ok (Hh := demo_host) (2 ^ 32) (2 ^ 30) (o_world demo_world)
    (on_owned (add_block (2 ^ 30)) (o_world demo_world)) 0)
    as (_ & _ & _ & _ & Hok & _ & Hp); try done.
  split; [exact Hok|]. by apply (Hp _ 12).
Defined.

(** ** The exit status *)

(** Adding a job reports nothing. *)
Definition quiet {W A} (m : prog (cqueue W) A) : Prop :=
  forall c a c', m c = Ok (a, c') ->
    errorMessages c' = errorMessages c /\ errored c' = errored c /\ next_addr c <= next_addr c'.

Create HintDb quiet.

Section quiet.
Context {W : Type} {F : Files W}.

Lemma quiet_ret {A} (a : A) : quiet (W := W) (ret a).
Proof. by intros c b c' [= _ <-]. Qed.

Lemma quiet_nofuel {A} : quiet (W := W) (A := A) no_fuel.
Proof. by intros c b c' [=]. Qed.

Lemma quiet_gets {A} (f : cqueue W -> A) : quiet (gets f).
Proof. by intros c b c' [= _ <-]. Qed.

Lemma quiet_assert b : quiet (W := W) (assert b).
Proof. intros c u c' H. by apply assert_inv in H as [_ ->]. Qed.

Lemma quiet_bind {A B} (m : prog (cqueue W) A) (k : A -> prog (cqueue W) B) :
  quiet m -> (forall a, quiet (k a)) -> quiet (bind m k).
Proof.
  intros Hm Hk c b c' H. apply bind_inv in H as (a & c1 & H1 & H2).
  destruct (Hm _ _ _ H1) as (<- & <- & N1). destruct (Hk _ _ _ _ H2) as (? & ? & N2).
  split_and!; [done..|lia].
Qed.

Lemma quiet_queue {A} (m : prog (queue W) A) : quiet (on_queue m).
Proof. intros c a c' H. by apply on_queue_inv in H as (q & _ & ->). Qed.

Lemma quiet_modify (f : cqueue W -> cqueue W) :
  (forall c, errorMessages (f c) = errorMessages c /\ errored (f c) = errored c /\
     next_addr c <= next_addr (f c)) -> quiet (modify f).
Proof. intros Hf c u c' H. apply modify_inv in H as ->. apply Hf. Qed.
#[local] Hint Resolve quiet_ret quiet_nofuel quiet_gets quiet_assert quiet_queue : quiet.

Ltac quiet :=
  repeat first
    [ progress intros
    | solve [eauto with quiet]
    | apply quiet_bind
    | match goal with |- quiet (if ?b then _ else _) => destruct b end
    | (apply quiet_modify; done) ].

Lemma quiet_fresh : quiet (W := W) fresh.
Proof. intros c a c' H. apply fresh_run in H as [-> ->]. cbn. split_and!; [done..|lia]. Qed.
#[local] Hint Resolve quiet_fresh : quiet.

Lemma quiet_part sfd dfd o s al t : quiet (W := W) (addCopyJobPart sfd dfd o s al t).
Proof. unfold addCopyJobPart. quiet. Qed.
#[local] Hint Resolve quiet_part : quiet.

Lemma quiet_part_loop fuel sfd dfd total cs al t i o :
  quiet (W := W) (part_loop fuel sfd dfd total cs al t i o).
Proof. revert i o. induction fuel as [|n IH]; intros i o; cbn [part_loop]; quiet. Qed.
#[local] Hint Resolve quiet_part_loop : quiet.

Lemma quiet_addCopyJob fuel i1 i2 a b st : quiet (W := W) (addCopyJob fuel i1 i2 a b st).
Proof. unfold addCopyJob, add_parts. quiet. Qed.

Lemma quiet_reports {A} (m : prog (cqueue W) A) : quiet m -> reports (on_cq m).
Proof. intros Hm l a l' H. apply on_cq_inv in H as (c & H & ->). by apply errs_same; eapply Hm. Qed.
End quiet.

Section reporting.
Context {W : Type} {Hh : Host W} (cfg : config) (rand : Z -> Z).
Context (n inner fuel jobFuel : nat) (i1 i2 : bool).
#[local] Existing Instance loop_sink.
#[local] Instance this_sink : Sink (loop W) W := loop_sink jobFuel i1 i2.

Lemma reports_os {A} (m : prog (ost W) A) : reports (s_os m).
Proof. apply reports_queue. Qed.

Lemma reports_error e : reports (s_onError (S := loop W) e).
Proof. apply reports_onError. Qed.

Lemma reports_job a b st : reports (s_addCopyJob (S := loop W) a b st).
Proof. apply quiet_reports, quiet_addCopyJob. Qed.
#[local] Hint Resolve errs_rel reports_os reports_error reports_job : reports.

#[local] Instance reports_walkable : Walkable (fun A => along (W := W) (A := A) errs).
Proof. apply walkable_any; intros; eauto with reports. by apply reports_bind. Qed.

Lemma reports_addRecursiveCopy from dest : reports (addRecursiveCopy fuel from dest).
Proof. apply (walk_addRecursiveCopy (fun A => along (W := W) (A := A) errs)). Qed.
#[local] Hint Resolve reports_addRecursiveCopy : reports.

Lemma reports_addFileCopy from dest st :
  along (W := W) errs (on_cq (addFileCopy jobFuel i1 i2 from dest (inr st))).
Proof. apply quiet_reports, quiet_addCopyJob. Qed.
#[local] Hint Resolve reports_addFileCopy : reports.

Lemma reports_start tty : along (W := W) errs (on_cq (start tty)).
Proof.
  apply quiet_reports. unfold start. apply quiet_bind; [apply quiet_gets|]. intros st.
  apply quiet_bind; [apply quiet_assert|]. intros _.
  apply quiet_bind; [|intros _]; by apply quiet_modify.
Qed.

Lemma reports_on_world {A} (m : prog (ost W) A) : reports (on_world m).
Proof. apply reports_queue. Qed.
#[local] Hint Resolve reports_start reports_on_world : reports.

(** [errored] says that there are messages. *)
Definition flagged (l : loop W) : Prop :=
  errored (lp_cq l) = negb (bool_decide (errorMessages (lp_cq l) = [])).

Lemma flagged_errs l l' : errs l l' -> flagged l -> flagged l'.
Proof.
  intros (es & Hm & He & _) Hf. unfold flagged in *. rewrite Hm, He, Hf.
  destruct (errorMessages (lp_cq l)), es; by repeat case_bool_decide.
Qed.

Create HintDb honest.

(** A success is never returned after an error was reported. *)
Definition honest (m : prog (loop W) ending) : Prop :=
  forall l e l', m l = Ok (e, l') -> flagged l ->
    (status e = 0 \/ status e = 1) /\ (status e = 0 -> reported e = []).

Lemma honest_bind {A} (m : prog (loop W) A) k :
  reports m -> (forall a, honest (k a)) -> honest (bind m k).
Proof.
  intros Hm Hk l e l' H Hf. apply bind_inv in H as (a & l1 & H1 & H2).
  eapply Hk; [exact H2|]. by eapply flagged_errs; [eapply Hm|].
Qed.

Lemma honest_early_return : honest early_return.
Proof. intros l e l' [= <- _] _. split; [by right|done]. Qed.

Lemma honest_raise f : honest (raise f).
Proof. by intros l e l' [=]. Qed.

Lemma status_flagged l : flagged l ->
  (Z.b2z (errored (lp_cq l)) = 0 \/ Z.b2z (errored (lp_cq l)) = 1) /\
  (Z.b2z (errored (lp_cq l)) = 0 -> errorMessages (lp_cq l) = []).
Proof.
  unfold flagged. intros ->. case_bool_decide; cbn; split; auto. done.
Qed.

(** What [join] returns, read from the state before the errors are forgotten. *)
Lemma join_flagged act l out l' :
  join cfg rand n inner fuel act l = Ok (out, l') -> flagged l ->
  exists l1, flagged l1 /\ errorMessages (lp_cq l') = errorMessages (lp_cq l1) /\
    (out = Exited (Z.b2z (errored (lp_cq l1))) \/ out = Joined (negb (errored (lp_cq l1)))).
Proof.
  intros H Hf. unfold join in H. apply bind_inv in H as (u & l0 & H0 & H).
  apply on_cq_inv in H0 as (c0 & H0 & ->). unfold join_begin in H0.
  apply bind_inv in H0 as (st & c & Hg & H0). injection Hg as <- <-.
  apply bind_inv in H0 as (u' & c & Ha & H0). apply assert_inv in Ha as [_ ->].
  apply modify_inv in H0 as ->. apply bind_inv in H as (e & l1 & Hs & H).
  assert (flagged l1) as Hf1.
  { eapply flagged_errs; [by eapply (reports_submitLoop cfg rand (R := errs))|]. exact Hf. }
  exists l1. split; [done|]. destruct e.
  - apply on_cq_inv in H as (c1 & H & ->). injection H as <- <-. split; [done|by left].
  - apply on_cq_inv in H as (c1 & H & ->). unfold join_end in H.
    apply bind_inv in H as (q & c2 & Hg & H). injection Hg as <- <-.
    apply bind_inv in H as (u2 & c2 & Ha & H). apply assert_inv in Ha as [_ ->].
    apply bind_inv in H as (u3 & c2 & Ha & H). apply assert_inv in Ha as [_ ->].
    unfold bind at 1, get in H. destruct (_ && _).
    + injection H as <- <-. split; [done|by left].
    + injection H as <- <-. split; [done|by right].
Qed.

Lemma honest_finish nc : honest (finish cfg rand n inner fuel nc).
Proof.
  intros l e l' H Hf. unfold finish in H. apply bind_inv in H as (out & l2 & Hj & H).
  destruct (join_flagged _ _ _ _ Hj Hf) as (l1 & Hf1 & Hm & Hout).
  unfold bind at 1, get in H. destruct (status_flagged l1 Hf1) as [Hs1 Hs2].
  destruct Hout as [-> | ->]; injection H as <- _; cbn [status reported]; rewrite Hm, ?negb_involutive;
    by split.
Qed.
#[local] Hint Resolve honest_early_return honest_raise honest_finish : honest.

Lemma honest_copy_all nc src dest :
  honest (copy_all cfg rand n inner fuel jobFuel i1 i2 nc src dest).
Proof.
  unfold copy_all. change (loop_sink jobFuel i1 i2) with this_sink.
  repeat first
    [ progress intros
    | solve [auto with honest]
    | (apply honest_bind; [solve [report_all]|])
    | match goal with |- honest (if ?b then _ else _) => destruct b end
    | match goal with |- honest (match ?x with _ => _ end) => destruct x end ].
Qed.
End reporting.

(** C9: the exit status tells the truth.  Whatever the kernel, the file systems and the
    arguments do, if the program ends by itself its status is 0 or 1, and it is 0 only
    if no error was reported by either thread; for an error that is reported while the
    process is being ended by the display see error_reported_too_late. *)
Theorem exit_status_truthful {W} {Hh : Host W} cfg rand n inner fuel jobFuel i1 i2 nc argv o e o' :
  wcpMain cfg rand n inner fuel jobFuel i1 i2 nc argv o = Ok (e, o') ->
  (status e = 0 \/ status e = 1) /\ (status e = 0 -> reported e = []).
Proof.
  unfold wcpMain. intros H.
  assert (forall o1, ret (mk_ending 1 [] false) o1 = Ok (e, o') ->
    (status e = 0 \/ status e = 1) /\ (status e = 0 -> reported e = [])) as Hone
    by (intros o1 [= <- _]; split; [by right|done]).
  destruct (getOsVersion h_sysname h_release) as [v|]; [|done].
  destruct (negb _); [by eapply Hone|]. destruct (version_too_old v); [by eapply Hone|].
  destruct argv as [|a0 [|src [|dest [|? ?]]]]; try by eapply Hone.
  apply bind_inv in H as (u & o1 & Ha & H). apply assert_inv in Ha as [_ ->].
  apply bind_inv in H as (ram & o2 & _ & H). apply bind_inv in H as (h & o3 & _ & H).
  cbn [Heap.move] in H. apply bind_inv in H as ([rp c] & o4 & Hn & H).
  apply bind_inv in H as (u8 & o8 & _ & H). unfold with_copy_queue in H.
  destruct (copy_all _ _ _ _ _ _ _ _ _ _ _ _) as [[e' l]| |] eqn:E; [|done..].
  apply bind_inv in H as (u9 & o9 & _ & H). apply ret_inv in H as [-> _].
  eapply honest_copy_all; [exact E|].
  unfold CopyQueue_new in Hn. apply bind_inv in Hn as (u1 & o5 & Ha & Hn).
  apply bind_inv in Hn as ([[v1 rp1] p1] & o6 & _ & Hn).
  apply bind_inv in Hn as (u2 & o7 & Ha2 & Hn). unfold bind, get in Hn. injection Hn as _ <- _.
  done.
Qed.

(** A single file, and a tree with a fifo in it, which is reported: three files, two of
    10000 bytes, a link and a directory are made. *)
Lemma exit_status_truthful_witness :
  (exists o, demo_run "f" "g" = Ok (mk_ending 0 [] true, o) /\ dk_written (hw_disk (o_world o)) = 10000) /\
  exists e o, demo_run "s" "t" = Ok (e, o) /\ status e = 1 /\
    reported e = [UnhandledFileType "s/p" DT_FIFO] /\
    dk_written (hw_disk (o_world o)) = 20000 /\
    tw_links (hw_tree (o_world o)) = [("f"%string, "t/s/l"%string)] /\
    "t/s/d"%string ∈ tw_dirs (hw_tree (o_world o)).
Proof.
  split.
  - eexists. split; [by vm_compute|by vm_compute].
  - assert (exists e o, demo_run "s" "t" = Ok (e, o) /\ reported e = [UnhandledFileType "s/p" DT_FIFO] /\
      dk_written (hw_disk (o_world o)) = 20000 /\
      tw_links (hw_tree (o_world o)) = [("f"%string, "t/s/l"%string)] /\
      "t/s/d"%string ∈ tw_dirs (hw_tree (o_world o))) as (e & o & H & Hr & Hrest).
    { eexists _, _. split; [vm_compute; reflexivity|]. split_and!; try reflexivity. }
    exists e, o. split; [exact H|]. split; [|by split].
    destruct (exit_status_truthful (Hh := demo_host) plain (fun _ => 0) 20 20 20 2 false false false
      ["wcp"%string; "s"%string; "t"%string] demo_world e o H) as [[H0|H1] H2]; [|exact H1].
    rewrite (H2 H0) in Hr. discriminate Hr.
Defined.
