(* ===== verification/Owning.v ===== *)
(** * What the process owns while a copy runs

    The descriptors a process has open are those it had before the copy, those the queue's
    descriptors know, and the directory being read; nothing the copy does changes its
    mappings and its memory.  Every action of the main thread and of the submit thread
    keeps this, whatever it reports: [delete_qfd] asserts that what it forgets is not
    open. *)

From stdpp Require Import gmap strings.
From S2P Require Import Prelude Abi Prep RingBuf Ring Kernel Queue Os Util Heap CopyState FileDesc Runner RunnerData CopyQueue CopyJob SubmitLoop Shape Accounts System SystemSpec Lifecycle KeptFiles Moves Drift FileTree TraverseSpec TreeQueue Main.

Section owning.
Context {W : Type} {Hh : Host W} {HL : HostLaws W}.
Implicit Types (q : queue W) (c : cqueue W) (l : loop W) (B : owned).

(** ** Opening and closing *)

Lemma open_loop_owns n path oflag mode fd (o : ost W) fd' o' :
  open_loop n path oflag mode fd o = Ok (fd', o') -> fd < 0 ->
  (fd' < 0 /\ owns (o_world o') = owns (o_world o)) \/
  (0 <= fd' /\ (fd' ∉ os_fds (o_world o)) /\ owns (o_world o') = add_fd fd' (owns (o_world o))).
Proof.
  revert oflag fd o. induction n as [|n IH]; intros oflag fd o H Hfd; cbn [open_loop] in H.
  { injection H as <- <-. by left. }
  destruct (f_open (o_world o) path oflag mode) as [[w v] e] eqn:Hf.
  rewrite (bind_ok _ _ _ _ _ (sys_open_run _ _ _ _ _ _ _ Hf)) in H.
  unfold bind, errno, gets in H. cbn [o_errno] in H. set (o1 := mk_ost w _) in H.
  destruct (hl_open _ _ _ _ _ _ _ Hf) as [[Hv E]|(Hv & Hn & E)].
  - assert (forall flags, open_loop n path flags mode v o1 = Ok (fd', o') ->
      (fd' < 0 /\ owns (o_world o') = owns (o_world o)) \/
      (0 <= fd' /\ (fd' ∉ os_fds (o_world o)) /\ owns (o_world o') = add_fd fd' (owns (o_world o)))) as Hrec.
    { intros flags H1. assert (os_fds w = os_fds (o_world o)) as Efds by exact (f_equal ow_fds E).
      destruct (IH flags v o1 H1 Hv) as [[? E1]|(? & ? & E1)]; cbn [o_world o1] in *;
        rewrite E in E1; [by left|right]. by rewrite <- Efds. }
    destruct (_ && _ && _); [by eapply Hrec|]. destruct (_ && _); [by eapply Hrec|].
    injection H as <- <-. by left.
  - destruct (Z.ltb_spec v 0); [lia|]. cbn [andb] in H. injection H as <- <-. right. by split_and!.
Qed.

Lemma myOpen_owns path oflag mode (o : ost W) r o' :
  myOpen path oflag mode o = Ok (r, o') ->
  match r with
  | inl _ => owns (o_world o') = owns (o_world o)
  | inr fd => 0 <= fd /\ (fd ∉ os_fds (o_world o)) /\ owns (o_world o') = add_fd fd (owns (o_world o))
  end.
Proof.
  rewrite myOpen_eq. destruct (open_loop _ _ _ _ _ _) as [[fd s1]| |] eqn:Hl; [|done..].
  apply open_loop_owns in Hl; [|lia].
  destruct (Z.ltb_spec fd 0); intros [= <- <-]; destruct Hl as [[? ?]|(? & ? & ?)]; done || lia.
Qed.

Lemma sys_close_owns fd (o : ost W) v o' :
  sys_close fd o = Ok (v, o') ->
  owns (o_world o') = if 0 <=? fd then del_fd fd (owns (o_world o)) else owns (o_world o).
Proof.
  unfold sys_close, syscall. destruct (f_close _ _) as [[w v'] e] eqn:E. intros [= _ <-]. by eapply hl_close.
Qed.

Lemma myClose_owns fd (o : ost W) r o' :
  myClose fd o = Ok (r, o') -> 0 <= fd -> owns (o_world o') = del_fd fd (owns (o_world o)).
Proof.
  intros H Hfd. unfold myClose in H. apply bind_inv in H as (v & o1 & Hc & H).
  apply sys_close_owns in Hc. destruct (Z.leb_spec 0 fd); [|lia].
  destruct (v <? 0); by injection H as _ <-.
Qed.

(** ** What a queue holds *)

(** The process owns [B], and the files the queue's descriptors have open. *)
Record holding B q : Prop := {
  hd_maps : os_maps (o_world (qu_os q)) = ow_maps B;
  hd_heap : os_heap (o_world (qu_os q)) = ow_heap B;
  hd_fds : forall fd, fd ∈ os_fds (o_world (qu_os q)) <->
    fd ∈ ow_fds B \/ exists p d, qu_qfds q !! p = Some d /\ q_fd d = fd /\ 2 < fd;
  hd_apart : forall p d, qu_qfds q !! p = Some d -> 2 < q_fd d -> q_fd d ∉ ow_fds B;
  hd_inj : forall p p' d d', qu_qfds q !! p = Some d -> qu_qfds q !! p' = Some d' ->
    2 < q_fd d -> q_fd d = q_fd d' -> p = p';
  hd_std : {[0; 1; 2]} ⊆ ow_fds B;
}.

(** Whatever else the process owns. *)
Definition frugal q q' : Prop := forall B, holding B q -> holding B q'.

Lemma frugal_same q q' :
  qu_qfds q' = qu_qfds q -> owns (o_world (qu_os q')) = owns (o_world (qu_os q)) -> frugal q q'.
Proof.
  intros E1 E2 B [H1 H2 H3 H4 H5 H6]. injection E2 as M1 M2 M3. split; rewrite ?E1; try done; try congruence.
  intros fd. rewrite M2. apply H3.
Qed.

(** A descriptor that is not open, known or not. *)
Lemma holding_put B q p d :
  holding B q -> (forall d0, qu_qfds q !! p = Some d0 -> q_fd d0 <= 2) -> q_fd d <= 2 ->
  holding B (set_qfds (<[p := d]> (qu_qfds q)) q).
Proof.
  intros [H1 H2 H3 H4 H5 H6] Hp Hd. split; cbn; try done.
  - intros fd. rewrite H3. split; (intros [?|(p0 & d0 & H0 & E & Hlt)]; [by left|right]).
    + exists p0, d0. rewrite lookup_insert_ne; [done|]. intros <-. specialize (Hp d0 H0). lia.
    + apply lookup_insert_Some in H0 as [[<- <-]|[_ H0]]; [lia|]. by exists p0, d0.
  - intros p0 d0 [[<- <-]|[_ H0]]%lookup_insert_Some; [lia|by apply (H4 p0)].
  - intros p0 p1 d0 d1 [[<- <-]|[_ H0]]%lookup_insert_Some [[<- <-]|[_ H7]]%lookup_insert_Some Hlt E; try lia.
    by apply (H5 p0 p1 d0 d1).
Qed.

Lemma frugal_delete q p d :
  qu_qfds q !! p = Some d -> q_fd d <= 2 -> frugal q (set_qfds (delete p (qu_qfds q)) q).
Proof.
  intros Hp Hd B [H1 H2 H3 H4 H5 H6]. split; cbn; try done.
  - intros fd. rewrite H3. split; (intros [?|(p0 & d0 & H0 & E & Hlt)]; [by left|right]).
    + exists p0, d0. rewrite lookup_delete_ne; [done|]. intros <-. rewrite Hp in H0. injection H0 as <-. lia.
    + apply lookup_delete_Some in H0 as [_ H0]. by exists p0, d0.
  - intros p0 d0 [_ H0]%lookup_delete_Some. by apply (H4 p0).
  - intros p0 p1 d0 d1 [_ H0]%lookup_delete_Some [_ H7]%lookup_delete_Some. by apply (H5 p0 p1 d0 d1).
Qed.

(** A file is opened under a descriptor that was not open. *)
Lemma frugal_open q p d x q' :
  qu_qfds q !! p = Some d -> q_fd d <= 2 -> doOpen p q = Ok (x, q') -> frugal q q'.
Proof.
  intros Hd Hle (d0 & r & o & Hd0 & Ho & ->)%doOpen_inv B HB. rewrite Hd in Hd0. injection Hd0 as <-.
  apply myOpen_owns in Ho. destruct r as [e|fd]; [by apply (frugal_same q)|].
  destruct Ho as (Hfd & Hn & Ho). destruct HB as [H1 H2 H3 H4 H5 H6]. injection Ho as M1 M2 M3.
  assert (fd ∉ ow_fds B) as HnB by (intros ?; apply Hn, H3; by left).
  assert (2 < fd) as Hlt.
  { destruct (Z.ltb_spec 2 fd); [done|]. exfalso. apply HnB, H6.
    assert (fd = 0 \/ fd = 1 \/ fd = 2) as [-> | [-> | ->]] by lia; set_solver. }
  assert (forall p0 d0, qu_qfds q !! p0 = Some d0 -> 2 < q_fd d0 -> q_fd d0 <> fd) as Hne.
  { intros p0 d0 H0 Hl <-. apply Hn, H3. right. by exists p0, d0. }
  split; cbn; try congruence; try done.
  - intros fd0. rewrite M2, elem_of_union, elem_of_singleton, H3. split.
    + intros [->|[?|(p0 & d0 & H0 & E & Hl)]]; [|by left|].
      * right. exists p, (qfd_set_fd fd d). by rewrite lookup_insert_eq.
      * right. exists p0, d0. rewrite lookup_insert_ne; [done|]. intros <-. rewrite Hd in H0. injection H0 as <-. lia.
    + intros [?|(p0 & d0 & H0 & E & Hl)]; [by right; left|].
      apply lookup_insert_Some in H0 as [[<- <-]|[_ H0]]; [by left|]. right. right. by exists p0, d0.
  - intros p0 d0 [[<- <-]|[_ H0]]%lookup_insert_Some; [done|by apply (H4 p0)].
  - intros p0 p1 d0 d1 [[<- <-]|[_ H0]]%lookup_insert_Some [[<- <-]|[_ H7]]%lookup_insert_Some Hl E; cbn in *;
      [done|exfalso; by apply (Hne p1 d1 H7); [rewrite <- E|]|exfalso; by apply (Hne p0 d0 H0)|by apply (H5 p0 p1 d0 d1)].
Qed.

(** A file is closed, and its descriptor forgets the number. *)
Lemma frugal_close q p x y q' : close_one p x q = Ok (y, q') -> frugal q q'.
Proof.
  intros (d & Hd & [->|(Hlt & r & o & n & Hc & ->)])%close_one_inv B HB; [done|].
  apply myClose_owns in Hc; [|lia]. destruct HB as [H1 H2 H3 H4 H5 H6]. injection Hc as M1 M2 M3.
  split; cbn; try congruence; try done.
  - intros fd. rewrite M2, elem_of_difference, elem_of_singleton, H3. split.
    + intros [[?|(p0 & d0 & H0 & E & Hl)] Hne]; [by left|right]. exists p0, d0.
      rewrite lookup_insert_ne; [done|]. intros <-. rewrite Hd in H0. injection H0 as <-. congruence.
    + intros [Hin|(p0 & d0 & H0 & E & Hl)].
      * split; [by left|]. intros ->. by apply (H4 p d).
      * apply lookup_insert_Some in H0 as [[<- <-]|[Hne H0]]; [cbn in E; unfold CLOSED_VAL in E; lia|].
        split; [right; by exists p0, d0|]. intros ->. by apply Hne, (H5 p p0 d d0).
  - intros p0 d0 [[<- <-]|[_ H0]]%lookup_insert_Some; [cbn; unfold CLOSED_VAL; lia|by apply (H4 p0)].
  - intros p0 p1 d0 d1 [[<- <-]|[_ H0]]%lookup_insert_Some [[<- <-]|[_ H7]]%lookup_insert_Some Hl E;
      cbn in *; unfold CLOSED_VAL in *; try lia. by apply (H5 p0 p1 d0 d1).
Qed.

#[export] Instance frugal_moves this : Moves this frugal.
Proof.
  split.
  - by intros q B.
  - intros q1 q2 q3 H1 H2 B HB. by apply H2, H1.
  - intros q q' E1 _ _ E4. apply frugal_same; [done|by rewrite E4].
  - intros q r. by apply frugal_same.
  - intros q. by apply frugal_same.
  - intros q b h _. by apply frugal_same.
  - exact frugal_delete.
  - exact frugal_open.
  - exact frugal_close.
Qed.

Lemma frugal_ring {A} (m : prog (ust W) A) q a q' :
  apart_from owns m -> on_ring m q = Ok (a, q') -> frugal q q'.
Proof. intros Hm [E1 E2]%(apart_ring _ _ _ _ _ Hm). by apply frugal_same. Qed.

(** ** The submit thread *)

Section submit.
Context (cfg : config) (rand : Z -> Z).

Definition thrifty l l' : Prop :=
  loop_ok 0 0 [] NotAdding l -> loop_ok 0 0 [] NotAdding l' /\ frugal (lq l) (lq l').

Lemma thrifty_start l l' fuel v : add_one cfg rand fuel l = Ok (v, l') -> thrifty l l'.
Proof.
  intros H Hl. split; [by eapply add_one_ok|].
  destruct (add_one_parts _ _ _ _ _ _ _ Hl H) as [->|(this & h & l1 & _ & E1 & _ & _ & Hd)]; [by intros B|].
  destruct (Hd frugal _) as [Hk _]. rewrite E1 in Hk. intros B HB. apply Hk. by eapply frugal_same, HB.
Qed.

Lemma thrifty_enter l l' v : on_cq (on_queue (on_ring io_uring_submit)) l = Ok (v, l') -> thrifty l l'.
Proof.
  intros H Hl. destruct (loop_ok_keeps _ _ _ _ _ _ _ _ (keeps_on_ring _) Hl H) as [Hl' _]. split; [done|].
  apply lift_inv in H as (q & H & ->). by eapply frugal_ring, H; apply (apart_submit _ hl_enter).
Qed.

Lemma thrifty_complete l l' fuel b : complete_one cfg fuel l = Ok (b, l') -> thrifty l l'.
Proof.
  intros H Hl. split; [by eapply complete_one_ok|].
  apply complete_one_parts in H as (err & cqe & q1 & H1 & H).
  apply (frugal_ring _ _ _ _ (apart_peek _ hl_enter fuel)) in H1. destruct (err =? 0); [|by subst l'].
  destruct H as (slot & e & this & t & l2 & -> & _ & _ & H2 & ->). cbv zeta.
  destruct (drifts_completion cfg this frugal _ _ _ _ _ H2) as [Hk _].
  intros B HB. apply H1, Hk in HB. by eapply frugal_same, HB.
Qed.

Lemma submitLoop_frugal n inner fuel l l' :
  loop_ok 0 0 [] NotAdding l -> submitLoop cfg rand n inner fuel l = Ok (LoopReturned, l') ->
  frugal (lq l) (lq l').
Proof.
  intros Hl H. destruct (submitLoop_runs cfg rand thrifty) with (6 := H) as (l1 & H1 & _ & _ & He).
  - intros l0 H0. split; [done|]. by intros B.
  - intros l0 l1 l2 H1 H2 H0. destruct (H1 H0) as [Hl1 F1]. destruct (H2 Hl1) as [Hl2 F2].
    split; [done|]. intros B HB. by apply F2, F1.
  - apply thrifty_start.
  - apply thrifty_enter.
  - apply thrifty_complete.
  - destruct (H1 Hl) as [_ HF]. destruct He as [[_ ->]|(_ & h & _ & ->)]; [done|].
    intros B HB. apply HF in HB. by eapply frugal_same, HB.
Qed.

Lemma join_frugal n inner fuel act l success l' :
  loop_ok 0 0 [] NotAdding l -> join cfg rand n inner fuel act l = Ok (Joined success, l') ->
  frugal (lq l) (lq l').
Proof.
  intros Hl H. unfold join in H. apply bind_inv in H as (u & l1 & H1 & H).
  assert (lq l1 = lq l /\ loop_ok 0 0 [] NotAdding l1) as [E1 Hl1].
  { apply on_cq_inv in H1 as (c & H1 & ->). unfold join_begin in H1.
    apply bind_inv in H1 as (st & c1 & Hg & H1). injection Hg as <- <-.
    apply bind_inv in H1 as (v & c1 & Ha & H1). apply assert_inv in Ha as [_ ->].
    apply modify_inv in H1 as ->. split; [done|]. by destruct Hl. }
  apply bind_inv in H as (e & l2 & Hs & H). destruct e.
  { apply on_cq_inv in H as (c & H & _). by injection H. }
  apply submitLoop_frugal in Hs; [|done]. rewrite E1 in Hs. intros B HB. apply Hs in HB.
  apply on_cq_inv in H as (c & H & ->). unfold join_end in H.
  apply bind_inv in H as (q & c2 & Hg & H). injection Hg as <- <-.
  apply bind_inv in H as (u2 & c2 & Ha & H). apply assert_inv in Ha as [_ ->].
  apply bind_inv in H as (u3 & c2 & Ha & H). apply assert_inv in Ha as [_ ->].
  unfold bind at 1, get in H. destruct (_ && _); [by injection H|].
  injection H as _ <-. by eapply frugal_same, HB.
Qed.
End submit.

(** ** The main thread *)

(** No descriptor has an address that was not given out yet. *)
Definition unborn c : Prop := forall p, next_addr c <= p -> qu_qfds (cq_queue c) !! p = None.

(** It adds files, and owns nothing more after than before. *)
Definition settles c c' : Prop := next_addr c <= next_addr c' /\ (unborn c -> unborn c' /\ frugal (cq_queue c) (cq_queue c')).

Lemma settles_refl c : settles c c.
Proof. split; [lia|]. intros Hu. split; [done|]. by intros B. Qed.

Lemma settles_trans c1 c2 c3 : settles c1 c2 -> settles c2 c3 -> settles c1 c3.
Proof.
  intros [N1 H1] [N2 H2]. split; [lia|]. intros Hu. destruct (H1 Hu) as [Hu2 F1]. destruct (H2 Hu2) as [Hu3 F2].
  split; [done|]. intros B HB. by apply F2, F1.
Qed.

Lemma settles_same c c' :
  next_addr c <= next_addr c' -> qu_qfds (cq_queue c') = qu_qfds (cq_queue c) ->
  owns (o_world (qu_os (cq_queue c'))) = owns (o_world (qu_os (cq_queue c))) -> settles c c'.
Proof.
  intros Hn E1 E2. split; [done|]. intros Hu. split; [|by apply frugal_same]. intros p Hp. rewrite E1. apply Hu. lia.
Qed.

(** The descriptor of a file to be copied, open at once or not yet. *)
Lemma new_qfd_settles i path oflag mode c c' :
  (let* a := fresh in on_queue (new_qfd i a path oflag mode)) c = Ok (tt, c') -> settles c c'.
Proof.
  intros H. apply bind_inv in H as (a & c1 & Hf & H). apply fresh_run in Hf as [-> ->].
  apply on_queue_inv in H as (q & H & ->). set (a := next_addr c) in *. cbn [cq_queue cq_set_next] in H.
  split; [cbn; lia|]. intros Hu. pose proof (Hu a ltac:(unfold a; lia)) as Hno.
  apply bind_inv in H as ([] & q1 & H1 & H). injection H1 as <-. set (d := mk_qfd _ _ _ _) in *.
  apply bind_inv in H as (b & q2 & H2 & H).
  assert (exists n, q2 = set_fdsUsed n (set_qfds (<[a := d]> (qu_qfds (cq_queue c))) (cq_queue c))) as [n ->].
  { unfold reserveFileDescriptor, bind, gets, modify, ret in H2.
    destruct (_ || _); injection H2 as _ <-; [|by eexists].
    exists (fileDescriptorsUsed (cq_queue c)). by destruct (cq_queue c). }
  set (q2 := set_fdsUsed _ _) in *.
  assert (frugal (cq_queue c) q2) as F2.
  { intros B HB. apply (frugal_same (set_qfds (<[a := d]> (qu_qfds (cq_queue c))) (cq_queue c))); [done|done|].
    apply holding_put; [done| |cbn; unfold NEVER_OPENED_VAL; lia]. intros d0. by rewrite Hno. }
  assert (qu_qfds q2 !! a = Some d) as Hd by apply lookup_insert_eq.
  destruct b; [|injection H as <-]; cycle 1.
  { split; [|exact F2]. intros p Hp. cbn in Hp |- *. rewrite lookup_insert_ne; [apply Hu|]; unfold a; lia. }
  apply bind_inv in H as (x & q3 & H3 & H). apply ret_inv in H as [_ ->].
  assert (frugal q2 q3) as F3 by (eapply frugal_open; [exact Hd|cbn; unfold NEVER_OPENED_VAL; lia|exact H3]).
  split; [|intros B HB; by apply F3, F2]. intros p Hp. cbn in Hp |- *.
  apply doOpen_inv in H3 as (d0 & r & o & _ & _ & ->).
  destruct r; cbn; rewrite ?lookup_insert_ne by (unfold a; lia); apply Hu; lia.
Qed.

Lemma part_settles sfd dfd off sz al t c u c' : addCopyJobPart sfd dfd off sz al t c = Ok (u, c') -> settles c c'.
Proof.
  intros H. apply part_inv in H. cbv zeta in H. destruct H as (_ & E1 & _ & E2 & _ & E3 & _).
  apply settles_same; [lia|done|by rewrite E2].
Qed.

Lemma part_loop_settles fuel sfd dfd total cs al t i o c n c' :
  part_loop fuel sfd dfd total cs al t i o c = Ok (n, c') -> settles c c'.
Proof.
  revert i o c. induction fuel as [|fuel IH]; intros i o c H; cbn [part_loop] in H; destruct (o =? total);
    try (apply ret_inv in H as [_ ->]; apply settles_refl); [done|].
  apply bind_inv in H as (u & c1 & H1 & H). eapply settles_trans; [by eapply part_settles|by eapply IH].
Qed.

Lemma tracker_settles t n c u c' :
  on_queue (modify (fun q => set_chunks (<[t := n]> (qu_chunks q)) q)) c = Ok (u, c') -> settles c c'.
Proof.
  intros H. apply on_queue_inv in H as (q & H & ->). apply modify_inv in H as ->. by apply settles_same.
Qed.

Lemma addCopyJob_settles fuel i1 i2 src dest st c u c' :
  addCopyJob fuel i1 i2 src dest st c = Ok (u, c') -> settles c c'.
Proof.
  intros H. unfold addCopyJob in H.
  apply bind_inv in H as (a & c1 & Ha & H). apply bind_inv in H as ([] & c2 & H1 & H).
  eapply settles_trans; [eapply (new_qfd_settles i1 src); rewrite (bind_ok _ _ _ _ _ Ha); exact H1|].
  apply bind_inv in H as (b & c3 & Hb & H). apply bind_inv in H as ([] & c4 & H2 & H).
  eapply settles_trans; [eapply (new_qfd_settles i2 dest); rewrite (bind_ok _ _ _ _ _ Hb); exact H2|].
  apply bind_inv in H as (t & c5 & Ht & H). apply fresh_run in Ht as [-> ->].
  eapply settles_trans; [apply (settles_same _ (cq_set_next (next_addr c4 + 1) c4)); [cbn; lia|done|done]|].
  unfold add_parts in H. destruct (stx_size st =? 0).
  - apply bind_inv in H as (v & c6 & H3 & H). eapply settles_trans; [by eapply tracker_settles|by eapply part_settles].
  - apply bind_inv in H as (h & c6 & Hg & H). apply gets_inv in Hg as [-> ->].
    apply bind_inv in H as (v & c6 & Hs & H). apply assert_inv in Hs as [_ ->].
    apply bind_inv in H as (v1 & c6 & H3 & H). eapply settles_trans; [by eapply tracker_settles|].
    apply bind_inv in H as (i & c7 & H4 & H). apply assert_inv in H as [_ ->]. by eapply part_loop_settles.
Qed.

(** A directory is opened, and closed again. *)
Lemma holding_dir B q fd o :
  holding B q -> (fd ∉ os_fds (o_world (qu_os q))) -> owns (o_world o) = add_fd fd (owns (o_world (qu_os q))) ->
  (fd ∉ ow_fds B) /\ holding (add_fd fd B) (set_os o q).
Proof.
  intros [H1 H2 H3 H4 H5 H6] Hn E. injection E as M1 M2 M3.
  split; [by intros ?; apply Hn, H3; left|]. split; cbn; try congruence; try done.
  - intros fd0. rewrite M2, !elem_of_union, elem_of_singleton, H3. tauto.
  - intros p d Hd Hlt. rewrite not_elem_of_union, not_elem_of_singleton. split; [|by apply (H4 p)].
    intros <-. apply Hn, H3. right. by exists p, d.
  - set_solver.
Qed.

Lemma holding_undir B q fd o :
  holding (add_fd fd B) q -> {[0; 1; 2]} ⊆ ow_fds B -> fd ∉ ow_fds B -> owns (o_world o) = del_fd fd (owns (o_world (qu_os q))) ->
  holding B (set_os o q).
Proof.
  intros [H1 H2 H3 H4 H5 _] H6 Hn E. injection E as M1 M2 M3. cbn in *. split; cbn; try congruence; try done.
  - intros fd0. rewrite M2, elem_of_difference, H3, !elem_of_union, elem_of_singleton. split.
    + tauto.
    + intros [Hin|(p & d & Hd & E & Hlt)]; (split; [|intros ->]).
      * by left; right.
      * done.
      * right. by exists p, d.
      * apply (H4 p d); [done|lia|]. rewrite E. by apply elem_of_union_l, elem_of_singleton.
  - intros p d Hd Hlt Hin. apply (H4 p d Hd Hlt). by apply elem_of_union_r.
Qed.

Section walking.
Context (jobFuel : nat) (i1 i2 : bool).
#[local] Instance owning_sink : Sink (loop W) W := loop_sink jobFuel i1 i2.

Definition settled {A} (m : prog (loop W) A) : Prop :=
  forall l a l', m l = Ok (a, l') -> settles (lp_cq l) (lp_cq l').

Lemma on_world_inv {A} (m : prog (ost W) A) l a l' :
  on_world m l = Ok (a, l') -> exists o, m (qu_os (lq l)) = Ok (a, o) /\ l' = lp_set_queue (set_os o (lq l)) l.
Proof.
  intros H. apply lift_inv in H as (q & H & ->). unfold with_os in H.
  destruct (m _) as [[b o]| |]; [|done..]. injection H as <- <-. by exists o.
Qed.

Lemma settled_world {A} (m : prog (ost W) A) : still owns m -> settled (on_world m).
Proof. intros Hm l a l' (o & H & ->)%on_world_inv. apply settles_same; [by cbn|done|by apply (Hm _ _ _ H)]. Qed.

Lemma settled_ret {A} (a : A) : settled (ret a).
Proof. intros l b l' H. apply ret_inv in H as [_ ->]. apply settles_refl. Qed.

Lemma settled_assert b : settled (assert b).
Proof. intros l u l' H. apply assert_inv in H as [_ ->]. apply settles_refl. Qed.

Lemma settled_bind {A A'} (m : prog (loop W) A) (k : A -> prog (loop W) A') :
  settled m -> (forall a, settled (k a)) -> settled (bind m k).
Proof.
  intros Hm Hk l b l' H. apply bind_inv in H as (a & l1 & H1 & H2).
  eapply settles_trans; [by eapply Hm|by eapply Hk].
Qed.

Lemma settled_error e : settled (on_cq (onError e)).
Proof. intros l u l' H. apply on_cq_inv in H as (c & H & ->). apply modify_inv in H as ->. by apply settles_same. Qed.

Lemma settled_job a b st : settled (on_cq (addCopyJob jobFuel i1 i2 a b st)).
Proof. intros l u l' H. apply on_cq_inv in H as (c & H & ->). by eapply addCopyJob_settles. Qed.

(** One directory. *)
Lemma settled_dir n fuel from dest current stack :
  (forall fd, settled (read_dir n fuel fd from dest current 0 stack)) ->
  settled (walk_one n fuel from dest current stack).
Proof.
  intros Hr l b l' H. unfold walk_one in H. apply bind_inv in H as (r & l1 & Ho & H).
  apply on_world_inv in Ho as (o & Ho & ->). apply myOpen_owns in Ho. destruct r as [e|fd].
  - eapply settles_trans; [by apply (settles_same _ (lp_cq (lp_set_queue (set_os o (lq l)) l)))|].
    apply bind_inv in H as (u & l2 & He & H). eapply settles_trans; [exact (settled_error e _ _ _ He)|].
    apply bind_inv in H as (v & l3 & Hc & H). apply ret_inv in H as [_ ->].
    unfold close_scoped in Hc. apply bind_inv in Hc as (x & l4 & Hc & Ha). apply assert_inv in Ha as [_ ->].
    apply on_world_inv in Hc as (o1 & Hc & ->). apply sys_close_owns in Hc.
    apply settles_same; [cbn; lia|done|exact Hc].
  - destruct Ho as (Hfd & Hn & Ho). set (l1 := lp_set_queue _ _) in H.
    apply bind_inv in H as (fd' & l2 & Hg & H). apply bind_inv in Hg as (u & l3 & Ha & Hg).
    apply assert_inv in Ha as [_ ->]. apply ret_inv in Hg as [-> ->].
    apply bind_inv in H as (stack' & l4 & H4 & H). apply Hr in H4 as [N4 H4].
    apply bind_inv in H as (v & l5 & Hc & H). apply ret_inv in H as [_ ->].
    unfold close_scoped in Hc. apply bind_inv in Hc as (x & l6 & Hc & Ha). apply assert_inv in Ha as [_ ->].
    apply on_world_inv in Hc as (o1 & Hc & ->). apply sys_close_owns in Hc.
    destruct (Z.leb_spec 0 fd); [|lia]. split; [exact N4|]. intros Hu. destruct (H4 Hu) as [Hu4 F4].
    split; [exact Hu4|]. intros B HB. destruct (holding_dir B _ fd o HB Hn Ho) as [HnB HB1].
    apply F4 in HB1. eapply holding_undir; [exact HB1|by destruct HB|exact HnB|exact Hc].
Qed.

#[local] Instance settled_walkable : Walkable (@settled).
Proof.
  split.
  - intros A a. apply settled_ret.
  - by intros A f l a l' [=].
  - by intros A l a l' [=].
  - apply settled_assert.
  - intros A A' m k. apply settled_bind.
  - intros A m H. apply settled_world. exact (still_walk_call owns A m H).
  - apply settled_error.
  - apply settled_job.
  - apply settled_dir.
Qed.

Lemma settled_addRecursiveCopy n from dest : settled (addRecursiveCopy n from dest).
Proof. apply (walk_addRecursiveCopy (@settled)). Qed.
End walking.
End owning.
