(* ===== verification/Whole.v ===== *)
(** * The whole program leaves nothing

    The main thread of [copy_all], whatever tree it walks and whatever fails, makes only
    steps of System.v; so when it has joined the queue, every runner, tracker,
    descriptor and buffer it caused to be made is gone, and the destructors give back
    what the process took. *)

From stdpp Require Import gmap strings.
From S2P Require Import Prelude Abi Prep RingBuf Ring SqSpec Kernel Queue Os SimOs Setup SetupSpec Util Heap Eta CopyState FileDesc Runner RunnerData CopyQueue CopyJob SubmitLoop Shape Accounts System Demo SystemSpec Lifecycle Serving Moves Drift FileTree TraverseSpec TreeQueue TreeWorld CopyTree Main Host MainSpec Owning.

(** ** The main thread takes steps *)

Section acts.
Context {W : Type} {Hh : Host W} (cfg : config) (rand : Z -> Z).
Context (n inner fuel jobFuel : nat) (i1 i2 : bool) (HjobFuel : Z.of_nat jobFuel < 2 ^ 31).
#[local] Instance whole_sink : Sink (loop W) W := loop_sink jobFuel i1 i2.
Implicit Types (l : loop W).

(** Addresses left for the runners of a job. *)
Definition addresses_left (l : loop W) : Prop := next_addr (lp_cq l) + Z.of_nat jobFuel + 2 < 2 ^ 32.

(** From [l] to [l'] the main thread used addresses, kept the bound, and made steps of
    the system if the addresses sufficed. *)
Definition acted (l l' : loop W) : Prop :=
  next_addr (lp_cq l) <= next_addr (lp_cq l') /\ cq_state (lp_cq l') = cq_state (lp_cq l) /\
  (covered (lp_cq l) -> covered (lp_cq l') /\
    (addresses_left l' -> sys_steps cfg rand (l, NotAdding) (l', NotAdding))).

Definition acts {A} (m : prog (loop W) A) : Prop := forall l a l', m l = Ok (a, l') -> acted l l'.

Lemma acted_refl l : acted l l.
Proof. split; [done|]. split; [done|]. intros Hr. split; [done|]. intros _. apply sys_refl. Qed.

Lemma acted_trans l1 l2 l3 : acted l1 l2 -> acted l2 l3 -> acted l1 l3.
Proof.
  intros (N1 & E1 & S1) (N2 & E2 & S2). split; [lia|]. split; [congruence|]. intros R1.
  destruct (S1 R1) as [R2 H1]. destruct (S2 R2) as [R3 H2]. split; [done|]. intros Hl.
  eapply sys_steps_trans; [apply H1|by apply H2]. unfold addresses_left in *. lia.
Qed.

Lemma acts_ret {A} (a : A) : acts (ret a).
Proof. intros l b l' H. apply ret_inv in H as [_ ->]. apply acted_refl. Qed.

Lemma acts_raise {A} f : acts (A := A) (raise f).
Proof. by intros l b l' [=]. Qed.

Lemma acts_nofuel {A} : acts (A := A) no_fuel.
Proof. by intros l b l' [=]. Qed.

Lemma acts_assert b : acts (assert b).
Proof. intros l u l' H. apply assert_inv in H as [_ ->]. apply acted_refl. Qed.

Lemma acts_bind {A B} (m : prog (loop W) A) (k : A -> prog (loop W) B) :
  acts m -> (forall a, acts (k a)) -> acts (bind m k).
Proof.
  intros Hm Hk l b l' H. apply bind_inv in H as (a & l1 & H1 & H2).
  eapply acted_trans; [by eapply Hm|by eapply Hk].
Qed.

Lemma acts_world {A} (m : prog (ost W) A) : acts (on_world m).
Proof.
  intros l a l' H. pose proof H as Hs. apply lift_inv in H as (q & H & ->).
  apply keeps_with_os, (f_equal sh_alive) in H.
  split; [done|]. split; [done|]. intros Hr. split.
  - unfold covered. cbn. change (keepAliveCount (qu_counters q) = keepAliveCount (qu_counters (lq l))) in H.
    by rewrite H.
  - intros _. eapply sys_next; [|apply sys_refl]. by apply (main_call _ _ _ _ _ _ m a).
Qed.

Lemma acts_os {A} (m : prog (ost W) A) : acts (s_os m).
Proof. apply acts_world. Qed.

Lemma acts_error e : acts (s_onError (S := loop W) e).
Proof.
  intros l [] l' H. pose proof H as Hs. apply on_cq_inv in H as (c & H & ->).
  apply modify_inv in H as ->. split; [done|]. split; [done|]. intros Hr. split; [done|].
  intros _. eapply sys_next; [by eapply main_error|apply sys_refl].
Qed.

Lemma acts_addCopyJob a b st : acts (on_cq (addCopyJob jobFuel i1 i2 a b st)).
Proof.
  intros l [] l' H. apply on_cq_inv in H as (c & H & ->).
  destruct (booked_addCopyJob _ _ _ _ _ _ _ _ _ H) as (Hst & _ & Hn & Hb).
  split; [done|]. split; [done|]. intros Hr. split; [by apply Hb|]. unfold addresses_left. cbn.
  intros Hl. destruct Hr as [Hr1 Hr2]. unfold lq in *.
  eapply addCopyJob_steps; [exact H|done|done|]. unfold lq. lia.
Qed.

Lemma acts_job a b st : acts (s_addCopyJob (S := loop W) a b st).
Proof. apply acts_addCopyJob. Qed.

Create HintDb acts.
#[local] Hint Resolve acts_ret acts_raise acts_nofuel acts_assert acts_os acts_error acts_job acts_world
  acts_addCopyJob : acts.

Ltac acts :=
  repeat first
    [ progress intros
    | solve [auto with acts]
    | apply acts_bind
    | match goal with |- acts (if ?b then _ else _) => destruct b end
    | match goal with |- acts (match ?x with _ => _ end) => destruct x end ].

#[local] Instance acts_walkable : Walkable (@acts).
Proof. apply walkable_any; intros; auto with acts. by apply acts_bind. Qed.

Lemma acts_addRecursiveCopy from dest : acts (addRecursiveCopy fuel from dest).
Proof. apply (walk_addRecursiveCopy (@acts)). Qed.
#[local] Hint Resolve acts_addRecursiveCopy : acts.
End acts.

(** ** To the end *)

(** The calls the main thread makes itself. *)
Inductive copy_call {W} {Hh : Host W} : forall A, prog (ost W) A -> Prop :=
  | call_stat path : copy_call _ (myStatx path)
  | call_dest path : copy_call _ (retrySyscall
      (fun _ => let* r := syscall_out (fun w => t_statx w path) in ret (fst r)) no_stat)
  | call_access path : copy_call _ (syscall (fun w => h_access w path))
  | call_make path : copy_call _ (recursiveMkdir path).

Section leads.
Context {W : Type} {Hh : Host W} (cfg : config) (rand : Z -> Z) (n inner fuel jobFuel : nat) (i1 i2 nc : bool).
Context (R : loop W -> loop W -> Prop) (Rrefl : forall l, R l l)
  (Rtrans : forall l1 l2 l3, R l1 l2 -> R l2 l3 -> R l1 l3)
  (Rcall : forall A (m : prog (ost W) A), copy_call A m -> along R (on_world m))
  (Rwalk : forall m from dest, along R (addRecursiveCopy (Q := loop_sink jobFuel i1 i2) m from dest))
  (Rjob : forall a b st, along R (on_cq (addCopyJob jobFuel i1 i2 a b st))).
Implicit Types (l : loop W).

(** The program ends in [finish], from a state the main thread led to, or returns early. *)
Definition leads (m : prog (loop W) ending) : Prop :=
  forall l e l', m l = Ok (e, l') -> exists l1, R l l1 /\
    (joined e = false /\ l' = l1 \/ finish cfg rand n inner fuel nc l1 = Ok (e, l')).

Lemma leads_bind {A} (m : prog (loop W) A) k : along R m -> (forall a, leads (k a)) -> leads (bind m k).
Proof.
  intros Hm Hk l e l' H. apply bind_inv in H as (a & l1 & H1 & H2).
  destruct (Hk _ _ _ _ H2) as (l2 & Ha & Hf). exists l2. split; [|done].
  eapply Rtrans; [by eapply Hm|done].
Qed.

Lemma leads_finish : leads (finish cfg rand n inner fuel nc).
Proof. intros l e l' H. exists l. split; [apply Rrefl|by right]. Qed.

Lemma leads_early : leads early_return.
Proof. intros l e l' [= <- <-]. exists l. split; [apply Rrefl|by left]. Qed.

Lemma leads_raise f : leads (raise f).
Proof. by intros l e l' [=]. Qed.

Lemma along_assert b : along R (assert b).
Proof. intros l u l' H. apply assert_inv in H as [_ ->]. apply Rrefl. Qed.

Lemma along_ret {A} (a : A) : along R (ret a).
Proof. intros l u l' H. apply ret_inv in H as [_ ->]. apply Rrefl. Qed.

(** Everything after [start]. *)
Lemma copy_all_leads src dest l e l' :
  copy_all cfg rand n inner fuel jobFuel i1 i2 nc src dest l = Ok (e, l') ->
  exists l1, on_cq (start h_tty) l = Ok (tt, l1) /\
    exists l2, R l1 l2 /\ (joined e = false /\ l' = l2 \/ finish cfg rand n inner fuel nc l2 = Ok (e, l')).
Proof.
  unfold copy_all. intros H. apply bind_inv in H as ([] & l1 & Hs & H). exists l1. split; [done|].
  revert H. match goal with |- ?m l1 = _ -> _ => assert (leads m) as Hm end; [|apply Hm].
  unfold addFileCopy.
  repeat first
    [ progress intros
    | apply leads_finish | apply leads_early | apply leads_raise
    | (apply leads_bind;
       [solve [apply Rcall; constructor | apply Rwalk | apply Rjob | apply along_assert | apply along_ret
              | (match goal with |- along _ (if ?b then _ else _) => destruct b end;
                 [apply along_assert|apply along_ret])]|])
    | match goal with |- leads (if ?b then _ else _) => destruct b end
    | match goal with |- leads (match ?x with _ => _ end) => destruct x end ].
Qed.
End leads.

(** ** What is left *)

Section left.
Context {W : Type} {F : Files W} {K : Kernel W} (cfg : config) (rand : Z -> Z).
Implicit Types (l : loop W).

(** The submit thread ends the process only when everything is done. *)
Lemma submitLoop_exited n inner fuel l l' :
  submitLoop cfg rand n inner fuel l = Ok (ProcessExited, l') -> cq_state (lp_cq l') = AdditionComplete.
Proof.
  revert l. induction n as [|n IH]; intros l H; [done|]. cbn [submitLoop] in H.
  apply bind_inv in H as (k & l1 & _ & H). apply bind_inv in H as ([] & l2 & _ & H).
  apply bind_inv in H as ([] & l3 & _ & H). apply bind_inv in H as (b & l4 & H4 & H).
  apply on_cq_inv in H4 as (c & H4 & ->). apply gets_inv in H4 as [-> ->].
  assert (lp_set_cq (lp_cq l3) l3 = l3) as E by (by destruct l3). rewrite E in H.
  destruct (is_complete _ && _) eqn:Hd; [|by eapply IH]. apply andb_prop in Hd as [Hd _].
  apply bind_inv in H as (l5 & l6 & Hg & H). injection Hg as <- <-.
  destruct (match completionAction (lp_cq l3) with
            | ExitProcessNoCleanup => negb (showingProgress (lp_cq l3)) | Return => false end).
  - apply ret_inv in H as [_ ->]. by destruct (cq_state (lp_cq l3)).
  - apply bind_inv in H as (u & l5 & _ & H). by apply ret_inv in H as [H _].
Qed.

(** [join] uses no address twice. *)
Lemma join_grows n inner fuel act l out l' :
  join cfg rand n inner fuel act l = Ok (out, l') ->
  next_addr (lp_cq l) <= next_addr (lp_cq l').
Proof.
  intros H. unfold join in H. apply bind_inv in H as (u & l0 & H0 & H).
  assert (next_addr (lp_cq l0) = next_addr (lp_cq l)) as <-.
  { apply on_cq_inv in H0 as (c & H0 & ->). unfold join_begin in H0.
    apply bind_inv in H0 as (st & c1 & Hg & H0). injection Hg as <- <-.
    apply bind_inv in H0 as (v & c1 & Ha & H0). apply assert_inv in Ha as [_ ->].
    by apply modify_inv in H0 as ->. }
  apply bind_inv in H as (e & l1 & Hs & H).
  destruct (reports_submitLoop cfg rand (R := errs) n inner fuel _ _ _ Hs) as (_ & _ & _ & Hn).
  enough (next_addr (lp_cq l') = next_addr (lp_cq l1)) as -> by done.
  destruct e; apply on_cq_inv in H as (c & H & ->); [by injection H as _ <-|].
  unfold join_end in H. apply bind_inv in H as (q & c2 & Hg & H). injection Hg as <- <-.
  apply bind_inv in H as (u2 & c2 & Ha & H). apply assert_inv in Ha as [_ ->].
  apply bind_inv in H as (u3 & c2 & Ha & H). apply assert_inv in Ha as [_ ->].
  unfold bind at 1, get in H. destruct (_ && _); by injection H as _ <-.
Qed.

(** A queue that is idle after [join] was joined, and has nothing left. *)
Lemma join_idle n inner fuel act l out l' :
  reachable cfg rand l NotAdding -> cq_state (lp_cq l) = Running ->
  join cfg rand n inner fuel act l = Ok (out, l') -> cq_state (lp_cq l') = Idle ->
  starting (rested l') /\ exists success, out = Joined success.
Proof.
  intros Hr Hrun H Hi. pose proof H as Hj. unfold join in H. apply bind_inv in H as (u & l0 & H0 & H).
  assert (l0 = completing act l) as ->.
  { apply on_cq_inv in H0 as (c & H0 & ->). unfold join_begin in H0.
    apply bind_inv in H0 as (st & c1 & Hg & H0). injection Hg as <- <-.
    apply bind_inv in H0 as (v & c1 & Ha & H0). apply assert_inv in Ha as [_ ->].
    by apply modify_inv in H0 as ->. }
  apply bind_inv in H as (e & l1 & Hs & H).
  destruct (join_ok _ _ _ _ _ _ _ _ _ Hr Hrun Hs) as (out' & l2 & es & Hj' & _ & _ & _ & Ho).
  rewrite Hj in Hj'. injection Hj' as <- <-. destruct out as [status|success].
  2:{ destruct Ho as (_ & ? & _). split; [done|by eexists]. }
  exfalso. destruct e.
  - apply on_cq_inv in H as (c & H & ->). injection H as _ <-.
    apply submitLoop_exited in Hs. cbn in Hi. congruence.
  - apply on_cq_inv in H as (c & H & ->). unfold join_end in H.
    destruct (returned_starting _ _ _ _ _ _ _ (reachable_completing cfg rand act l Hr) Hs) as (_ & _ & Hst).
    apply bind_inv in H as (q & c2 & Hg & H). injection Hg as <- <-.
    apply bind_inv in H as (u2 & c2 & Ha & H). apply assert_inv in Ha as [_ ->].
    apply bind_inv in H as (u3 & c2 & Ha & H). apply assert_inv in Ha as [_ ->].
    unfold bind at 1, get in H. destruct (_ && _); [|done].
    injection H as _ <-. cbn in Hi. congruence.
Qed.
End left.

Lemma starting_covered {W} (l : loop W) : starting l -> covered (lp_cq l).
Proof.
  intros S. unfold covered. pose proof (st_alive _ S) as Ha. pose proof (st_next _ S). unfold lq in Ha.
  rewrite Ha. lia.
Qed.

Lemma start_steps {W} {F : Files W} {K : Kernel W} cfg rand tty (l l1 : loop W) :
  on_cq (start tty) l = Ok (tt, l1) ->
  sys_steps cfg rand (l, NotAdding) (l1, NotAdding) /\ cq_state (lp_cq l1) = Running /\
  next_addr (lp_cq l1) = next_addr (lp_cq l) /\ (covered (lp_cq l) -> covered (lp_cq l1)).
Proof.
  intros H. apply on_cq_inv in H as (c & H & ->). unfold start in H.
  apply bind_inv in H as (st & c1 & Hg & H). injection Hg as <- <-.
  apply bind_inv in H as (u & c1 & Ha & H). apply assert_inv in Ha as [_ ->].
  apply bind_inv in H as (u2 & c1 & Hm & H). apply modify_inv in Hm as ->.
  apply modify_inv in H as ->. split; [|do 2 (split; [done|]); intros R; exact R].
  eapply sys_next; [apply (main_state _ _ l NotAdding Running (completionAction (lp_cq l)))|].
  eapply sys_next; [|apply sys_refl].
  apply (main_show _ _ (lp_set_cq (cq_set_state Running (completionAction (lp_cq l)) (lp_cq l)) l)).
Qed.

Section ends.
Context {W : Type} {Hh : Host W} (cfg : config) (rand : Z -> Z).
Context (n inner fuel jobFuel : nat) (i1 i2 nc : bool) (src dest : string).
Implicit Types (l : loop W).

(** A copy that was joined: the queue is as it was, and the heap where it was. *)
Lemma copy_all_acted l e l' :
  Z.of_nat jobFuel < 2 ^ 31 ->
  copy_all cfg rand n inner fuel jobFuel i1 i2 nc src dest l = Ok (e, l') ->
  exists l1, on_cq (start h_tty) l = Ok (tt, l1) /\ exists l2, acted cfg rand jobFuel l1 l2 /\
    (joined e = false /\ l' = l2 \/ finish cfg rand n inner fuel nc l2 = Ok (e, l')).
Proof.
  intros Hjf. apply copy_all_leads.
  - apply acted_refl.
  - apply acted_trans.
  - intros A m _. apply (acts_world cfg rand jobFuel m).
  - intros m from to. by apply acts_addRecursiveCopy.
  - intros a b st. by apply acts_addCopyJob.
Qed.

Lemma copy_all_idle l e l' :
  starting l -> Z.of_nat jobFuel < 2 ^ 31 ->
  copy_all cfg rand n inner fuel jobFuel i1 i2 nc src dest l = Ok (e, l') ->
  cq_state (lp_cq l') = Idle -> addresses_left jobFuel l' ->
  starting (rested l') /\ geometry (qu_heap (lq l)) (qu_heap (lq l')).
Proof.
  intros Hs Hjf H Hi Hlim.
  destruct (copy_all_acted l e l' Hjf H)
    as (l1 & Hst & l2 & (Hn & Hr & Ha) & Hf).
  destruct (start_steps cfg rand _ _ _ Hst) as (S1 & Hrun & Hn1 & Hroom).
  destruct (Ha (Hroom (starting_covered l Hs))) as [_ S2]. rewrite Hrun in Hr.
  destruct Hf as [[_ ->]|Hf]; [congruence|]. unfold finish in Hf.
  apply bind_inv in Hf as (out & l3 & Hj & Hf).
  assert (l3 = l') as -> by (unfold bind at 1, get in Hf; by destruct out; injection Hf as _ ->).
  assert (next_addr (lp_cq l2) <= next_addr (lp_cq l')) as Hle
    by exact (join_grows _ _ _ _ _ _ _ _ _ Hj).
  assert (sys_steps cfg rand (l, NotAdding) (l2, NotAdding)) as S.
  { eapply sys_steps_trans; [exact S1|]. apply S2. unfold addresses_left in *. lia. }
  assert (reachable cfg rand l2 NotAdding) as Hreach by (by exists l).
  destruct (join_idle _ _ _ _ _ _ _ _ _ Hreach Hr Hj Hi) as [Hrest [success ->]]. split; [done|].
  assert (geometry (qu_heap (lq l)) (qu_heap (lq l2))) as G1
    by exact (sys_steps_geometry cfg rand (l, NotAdding) (l2, NotAdding) (starting_ok _ Hs) S).
  eapply geometry_trans; [exact G1|]. eapply join_geometry, Hj. exact (reachable_ok cfg rand _ _ Hreach).
Qed.

(** The queue is destroyed by the main thread only if it was joined. *)
Lemma copy_all_joined l e l' :
  Z.of_nat jobFuel < 2 ^ 31 ->
  copy_all cfg rand n inner fuel jobFuel i1 i2 nc src dest l = Ok (e, l') -> joined e = true ->
  cq_state (lp_cq l') = Idle.
Proof.
  intros Hjf H He.
  destruct (copy_all_acted l e l' Hjf H)
    as (l1 & _ & l2 & _ & [[? _]|Hf]); [congruence|]. unfold finish in Hf.
  apply bind_inv in Hf as (out & l3 & Hj & Hf). unfold bind at 1, get in Hf.
  destruct out as [st|success]; injection Hf as <- <-; [done|].
  unfold join in Hj. apply bind_inv in Hj as (u & l4 & _ & Hj). apply bind_inv in Hj as (r & l5 & _ & Hj).
  destruct r; apply on_cq_inv in Hj as (c & Hj & ->); [by injection Hj|].
  unfold join_end in Hj. apply bind_inv in Hj as (q & c2 & Hg & Hj). injection Hg as <- <-.
  apply bind_inv in Hj as (u2 & c2 & Ha & Hj). apply assert_inv in Ha as [_ ->].
  apply bind_inv in Hj as (u3 & c2 & Ha & Hj). apply assert_inv in Ha as [_ ->].
  unfold bind at 1, get in Hj. destruct (_ && _); [by injection Hj|by injection Hj as _ <-].
Qed.
End ends.

(** C10: a copy leaves nothing behind.  Whatever tree is walked, and whatever calls and
    requests fail, when the main thread has started a fresh queue, added the copies and
    joined it, then no runner, chunk tracker or descriptor object it made exists any
    more, nothing waits, no request is outstanding, every buffer is back in the heap,
    and the queue can be started again; all that, given that fewer than 2^32 objects
    were made. *)
Theorem copy_leaves_nothing {W} {Hh : Host W} cfg rand n inner fuel jobFuel i1 i2 nc src dest
    (l : loop W) e l' :
  starting l -> Z.of_nat jobFuel < 2 ^ 31 ->
  copy_all cfg rand n inner fuel jobFuel i1 i2 nc src dest l = Ok (e, l') ->
  cq_state (lp_cq l') = Idle ->
  next_addr (lp_cq l') + Z.of_nat jobFuel + 2 < 2 ^ 32 ->
  starting (rested l') /\
  qu_runners (lq l') = ∅ /\ qu_chunks (lq l') = ∅ /\ qu_qfds (lq l') = ∅ /\
  copiesPendingStart (lp_cq l') = [] /\ submissionsRunning (qu_counters (lq l')) = 0 /\
  Heap.getFreeBlocksCount (qu_heap (lq l')) = Heap.blocks (qu_heap (lq l')).
Proof.
  intros Hs Hjf H Hi Hlim.
  destruct (copy_all_idle _ _ _ _ _ _ _ _ _ _ _ _ _ _ Hs Hjf H Hi Hlim) as [Hrest _].
  pose proof Hrest as [R1 R2 R3 R4 R5 R6 R7 R8 [R9 _] R10 R11 R12]. split; [done|].
  do 5 (split; [done|]). apply unused_all_free; [apply R6|exact R7].
Qed.

(** The tree of the demonstration host, with two buffers of 8192 bytes and a ring of 4
    entries. *)
Definition host_loop : loop host_world :=
  mk_loop (mk_cqueue (mk_queue demo_world (qu_ring (disk_queue 0)) small_heap 16 2 (mk_counters 0 0 0 0 0) ∅ ∅ ∅)
    4 [] 0 ETA.eta0 false [] Idle Return false 1) 0 [] 0.

Lemma host_starting : starting host_loop.
Proof.
  destruct (disk_starting 0) as [R1 R2 R3 R4 R5 R6 R7 R8 R9 R10 R11 R12]. by split.
Qed.

Lemma copy_leaves_nothing_witness :
  exists e l', copy_all (H := demo_host) plain (fun _ => 0) 30 30 30 5 false false false "s" "t" host_loop
      = Ok (e, l') /\
    dk_written (hw_disk (o_world (qu_os (lq l')))) = 20000 /\
    qu_runners (lq l') = ∅ /\ qu_qfds (lq l') = ∅ /\
    Heap.getFreeBlocksCount (qu_heap (lq l')) = Heap.blocks (qu_heap (lq l')).
Proof.
  assert (exists e l', copy_all (H := demo_host) plain (fun _ => 0) 30 30 30 5 false false false "s" "t" host_loop
      = Ok (e, l') /\ dk_written (hw_disk (o_world (qu_os (lq l')))) = 20000 /\
      cq_state (lp_cq l') = Idle /\ next_addr (lp_cq l') + Z.of_nat 5 + 2 < 2 ^ 32)
    as (e & l' & H & Hw & Hi & Hn).
  { eexists _, _. split; [vm_compute; reflexivity|by vm_compute]. }
  destruct (copy_leaves_nothing (Hh := demo_host) plain (fun _ => 0) 30 30 30 5 false false false "s" "t"
    host_loop e l' host_starting eq_refl H Hi Hn) as (_ & H1 & _ & H3 & _ & _ & H6).
  exists e, l'. split; [exact H|]. split; [exact Hw|]. split; [exact H1|]. split; [exact H3|exact H6].
Defined.

(** ** What the process owns at the end *)

Section owned_after.
Context {W : Type} {Hh : Host W} {HL : HostLaws W} (cfg : config) (rand : Z -> Z).
Context (n inner fuel jobFuel : nat) (i1 i2 nc : bool) (src dest : string).
Implicit Types (l : loop W).

Lemma copy_call_still A (m : prog (ost W) A) : copy_call A m -> still owns m.
Proof.
  intros []; try (apply (still_walk_call owns); constructor).
  - apply still_retry. intros _. apply still_bind; [|by intros r; apply still_ret].
    apply still_syscall_out. intros w w' b v e. apply tc_statx.
  - apply still_syscall. intros w w' v e. apply hl_access.
Qed.

(** A copy that was joined left the descriptors, the mappings and the memory of the
    process as they were: every file and directory it opened was closed. *)
Lemma copy_all_frugal l e l' :
  starting l -> Z.of_nat jobFuel < 2 ^ 31 ->
  copy_all cfg rand n inner fuel jobFuel i1 i2 nc src dest l = Ok (e, l') -> joined e = true ->
  addresses_left jobFuel l' -> frugal (lq l) (lq l').
Proof.
  intros Hs Hjf H He Hlim.
  set (R := fun l l' => acted cfg rand jobFuel l l' /\ settles (lp_cq l) (lp_cq l')).
  destruct (copy_all_leads cfg rand n inner fuel jobFuel i1 i2 nc R) with (src := src) (dest := dest)
    (l := l) (e := e) (l' := l') as (l1 & Hst & l2 & [(Hn & Hr & Ha) Hset] & Hf); [..|exact H|].
  - intros l0. split; [apply acted_refl|apply settles_refl].
  - intros l0 l1 l2 [A1 B1] [A2 B2]. split; [by eapply acted_trans|by eapply settles_trans].
  - intros A m Hc l0 a l1 H0. split; [by eapply acts_world|].
    by apply (settled_world m (copy_call_still A m Hc) _ _ _ H0).
  - intros m from to l0 u l1 H0. split; [by eapply acts_addRecursiveCopy|by eapply settled_addRecursiveCopy].
  - intros a b st l0 u l1 H0. split; [by eapply acts_addCopyJob|by eapply settled_job].
  - destruct Hf as [[? _]|Hf]; [congruence|].
    destruct (start_steps cfg rand _ _ _ Hst) as (S1 & Hrun & Hn1 & Hroom).
    destruct (Ha (Hroom (starting_covered l Hs))) as [_ S2].
    unfold finish in Hf. apply bind_inv in Hf as (out & l3 & Hj & Hf).
    assert (l3 = l' /\ exists success, out = Joined success) as [-> [success ->]].
    { unfold bind at 1, get in Hf. destruct out; injection Hf as <- ->; [done|]. split; [done|]. by eexists. }
    pose proof (join_grows _ _ _ _ _ _ _ _ _ Hj) as Hle.
    assert (sys_steps cfg rand (l, NotAdding) (l2, NotAdding)) as S.
    { eapply sys_steps_trans; [exact S1|]. apply S2. unfold addresses_left in *. lia. }
    assert (loop_ok 0 0 [] NotAdding l2) as Hl2 by exact (sys_steps_ok cfg rand (l, NotAdding) (l2, NotAdding) (starting_ok _ Hs) S).
    apply join_frugal in Hj; [|done]. destruct Hset as [_ Hset].
    assert (qu_qfds (lq l1) = qu_qfds (lq l) /\ qu_os (lq l1) = qu_os (lq l)) as [E1 E2].
    { apply on_cq_inv in Hst as (c & Hst & ->). unfold start in Hst.
      apply bind_inv in Hst as (st & c1 & Hg & Hst). injection Hg as <- <-.
      apply bind_inv in Hst as (u & c1 & Hg & Hst). apply assert_inv in Hg as [_ ->].
      apply bind_inv in Hst as (u2 & c1 & Hm & Hst). apply modify_inv in Hm as ->.
      by apply modify_inv in Hst as ->. }
    destruct Hset as [_ HF].
    { intros p _. change (cq_queue (lp_cq l1)) with (lq l1). by rewrite E1, (st_qfds _ Hs). }
    intros B HB. apply Hj, HF. eapply frugal_same, HB; [exact E1|exact (f_equal (fun o => owns (o_world o)) E2)].
Qed.

(** With no file open, the process owns just what it owned. *)
Lemma holding_nothing B (q : queue W) : qu_qfds q = ∅ -> holding B q <-> owns (o_world (qu_os q)) = B /\ {[0; 1; 2]} ⊆ ow_fds B.
Proof.
  intros E. split.
  - intros [H1 H2 H3 _ _ H6]. split; [|done]. unfold owns. destruct B as [m f h]. cbn in *. f_equal; [done| |done].
    apply set_eq. intros fd. rewrite H3, E. split; [|by left]. by intros [?|(p & d & [=] & _)].
  - intros [<- H6]. split; try done.
    + intros fd. rewrite E. split; [by left|]. by intros [?|(p & d & [=] & _)].
    + intros p d H. by rewrite E in H.
    + intros p p' d d' H. by rewrite E in H.
Qed.
End owned_after.

(** C31: the program gives back what it took.  The memory of the heap is allocated and
    the ring set up; a copy is started, made and joined, with whatever errors; then the
    destructors run without a failed assertion, as every buffer was returned, and the
    process owns the mappings, descriptors and memory it owned at first: every file and
    directory opened meanwhile was closed.  A copy that loses an open file is not
    joined: the assertion in the destructor of its descriptor ends the process.  The word
    that holds the size of the ring is still the kernel's. *)
Theorem queue_gives_back {W} {Hh : Host W} {HL : HostLaws W} cfg rand n inner fuel jobFuel i1 i2 nc src dest
    ram (o o1 o2 : ost W) h rp c l' e :
  let nb := ram_quota ram / main_blockSize in let m := copy_all cfg rand n inner fuel jobFuel i1 i2 nc src dest in
  in_u 64 ram -> Z.of_nat jobFuel < 2 ^ 31 -> {[0; 1; 2]} ⊆ os_fds (o_world o) ->
  new_heap nb main_blockSize o = Ok (h, o1) -> Heap.data h <> 0 ->
  CopyQueue_new nb main_cap h o1 = Ok ((rp, c), o2) -> in_u 32 (ringSize c) ->
  m (mk_loop c 0 [] 0) = Ok (e, l') -> joined e = true ->
  next_addr (lp_cq l') + Z.of_nat jobFuel + 2 < 2 ^ 32 ->
  os_read32 (o_world (qu_os (lq l'))) (sp_kring_entries (rp_sq rp)) = ringSize c ->
  exists o3, with_copy_queue rp c m o2 = Ok (e, o3) /\ owns (o_world o3) = owns (o_world o).
Proof.
  intros nb m Hram Hjf Hstd Hnew Hd Hq Hring Hm He Hlim Hread.
  destruct (new_main_heap ram o Hram) as (w & base & Hal & Hnew'). fold nb in Hal, Hnew'.
  rewrite Hnew in Hnew'. injection Hnew' as -> ->. cbn in Hd.
  destruct (hl_alloc _ _ _ _ _ Hal) as [[? _]|(Hb & Hal4 & Hfresh & Hadd)]; [done|].
  destruct (main_heap_ok ram base Hram Hal4) as [Hok Hfree].
  assert (starting (mk_loop c 0 [] 0)) as Hst by (eapply new_starting; [exact Hok|exact Hb|exact Hfree|exact Hq|done]).
  destruct (CopyQueue_new_inv _ _ _ _ _ _ _ Hq) as (p & Hi & _ & Hheap).
  pose proof (copy_all_joined _ _ _ _ _ _ _ _ _ _ _ _ _ _ Hjf Hm He) as Hidle.
  assert (owns (o_world (qu_os (lq l'))) = owns (o_world o2)) as Howns.
  { pose proof (copy_all_frugal _ _ _ _ _ _ _ _ _ _ _ _ _ _ Hst Hjf Hm He Hlim) as HF.
    destruct (copy_all_idle _ _ _ _ _ _ _ _ _ _ _ _ _ _ Hst Hjf Hm Hidle Hlim) as [Hrest _].
    apply (holding_nothing _ (lq l') (st_qfds _ Hrest)), HF, holding_nothing; [exact (st_qfds _ Hst)|].
    rewrite (new_world _ _ _ _ _ _ _ Hq : qu_os (lq (mk_loop c 0 [] 0)) = o2). split; [done|].
    intros x Hx%Hstd. cbn. apply (queue_init_keeps_fds _ _ _ _ _ _ _ _ _ _ Hi).
    change (x ∈ ow_fds (owns w)). by rewrite Hadd. }
  destruct (copy_all_idle _ _ _ _ _ _ _ _ _ _ _ _ _ _ Hst Hjf Hm Hidle Hlim) as [[_ _ _ _ _ [Hh' _] Hu _ _ _ _ _] (_ & _ & G & _)].
  destruct (queue_deleted nb main_cap (main_heap ram base) _ rp c o2 (lp_cq l') (qu_os (lq l')) Hq Howns Hread)
    as (o3 & H3 & Ho3).
  - exact Hh'.
  - by apply unused_all_free.
  - rewrite <- Hheap. exact G.
  - exact Hb.
  - cbn. rewrite (owns_heap _ _ Hadd). cbn. set_solver.
  - exists o3. unfold with_copy_queue. rewrite Hm, He, (bind_ok _ _ _ _ _ H3). split; [done|].
    rewrite Ho3. cbn. rewrite Hadd. by apply del_add_block.
Qed.

Lemma queue_gives_back_witness :
  exists h rp c o1 o2 o3,
    new_heap (H := demo_host) 8 main_blockSize demo_world = Ok (h, o1) /\
    os_heap (Os := HostOs) (o_world o1) = {[2 ^ 30]} /\
    CopyQueue_new (O := HostOs) 8 main_cap h o1 = Ok ((rp, c), o2) /\
    with_copy_queue (H := demo_host) rp c (copy_all (H := demo_host) plain (fun _ => 0) 30 30 30 5 false false false "s" "t") o2
      = Ok (mk_ending 1 [UnhandledFileType "s/p" DT_FIFO] true, o3) /\
    owns (O := HostOs) (o_world o3) = mk_owned ∅ {[0; 1; 2]} ∅.
Proof.
  assert (exists h o1 rp c o2 l', new_heap (H := demo_host) 8 main_blockSize demo_world = Ok (h, o1) /\
    CopyQueue_new (O := HostOs) 8 main_cap h o1 = Ok ((rp, c), o2) /\
    copy_all (H := demo_host) plain (fun _ => 0) 30 30 30 5 false false false "s" "t" (mk_loop c 0 [] 0)
      = Ok (mk_ending 1 [UnhandledFileType "s/p" DT_FIFO] true, l') /\
    Heap.data h = 2 ^ 30 /\ os_heap (Os := HostOs) (o_world o1) = {[2 ^ 30]} /\ ringSize c = 8 /\
    next_addr (lp_cq l') + Z.of_nat 5 + 2 < 2 ^ 32 /\
    os_read32 (Os := HostOs) (o_world (qu_os (lq l'))) (sp_kring_entries (rp_sq rp)) = 8)
    as (h & o1 & rp & c & o2 & l' & H1 & H2 & H3 & Hd & Hb & Hr & Hn & Hw).
  { eexists _, _, _, _, _, _. split; [vm_compute; reflexivity|]. split; [vm_compute; reflexivity|].
    split; [vm_compute; reflexivity|]. repeat (split; [by vm_compute|]). by vm_compute. }
  destruct (queue_gives_back (Hh := demo_host) plain (fun _ => 0) 30 30 30 5 false false false "s" "t"
    (2 ^ 32) demo_world o1 o2 h rp c l' (mk_ending 1 [UnhandledFileType "s/p" DT_FIFO] true))
    as (o3 & H & Hlast); [done|done|done|exact H1|by rewrite Hd|exact H2|by rewrite Hr|exact H3|done|exact Hn
    |rewrite Hr; exact Hw|].
  exists h, rp, c, o1, o2, o3. split; [exact H1|]. split; [exact Hb|]. split; [exact H2|].
  split; [exact H|]. etransitivity; [exact Hlast|by vm_compute].
Defined.
